(* ===== verification/_CoqProject ===== *)
-Q . S2P
Prelude.v
Endians.v
ByteArray.v
ByteArraySpec.v
ByteArrayCodec.v
ByteArrayIo.v
ByteArraySafety.v
ByteArrayTheorems.v
Timer.v
TimerSpec.v
TimerTheorems.v
Utils.v
UtilsTheorems.v
UtilsSystem.v
Address.v
AddressTheorems.v
FdManager.v
Hook.v
HookTheorems.v
Fiber.v
Scheduler.v
SchedulerTheorems.v
IOManager.v
IOManagerTheorems.v
Socket.v
Stream.v
StreamTheorems.v
TcpServer.v
SocketTheorems.v
Http.v
HttpTheorems.v
Servlet.v
ServletTheorems.v
HttpSession.v
HttpSessionTheorems.v
LogFormat.v
LogFormatTheorems.v
Log.v
LogTheorems.v
Config.v
ConfigTheorems.v
Settings.v
SettingsTheorems.v
HttpGrammar.v
HttpExecute.v
HttpUrl.v
HttpWords.v
HttpGrammarTheorems.v
HttpUrlTheorems.v
HttpParsing.v
HttpParsingTheorems.v
HttpRuns.v
HttpFields.v
HttpRoundTrip.v
HttpMethodTheorems.v
HttpRequestTheorems.v
HttpResponseTheorems.v
HttpExchangeTheorems.v
HttpScan.v
HttpChunks.v
HttpPrefix.v
HttpMarks.v
HttpSplit.v
HttpFeed.v
HttpTyped.v
HttpSizes.v
