(* ===== verification/Prelude.v ===== *)
(** * phase0: a verification development

    phase0 is a C++ server framework: fibers scheduled over threads, an event loop on
    epoll with timers, system calls replaced by ones that suspend the calling fiber, and
    above them buffers, addresses, streams, HTTP.  This library models its core and proves
    what each part is for.  Sources are under src/src/.

    ** The parts and how they interact

    - Serialization.  [Endians] models socket/include/endians.h.  [ByteArray] models
      utils/bytearray.cc: a chain of blocks with a position, the integer, float and string
      encoders over [read] and [write], the buffer lists for scatter and gather I/O, and
      the file transfers.  A block is its bytes, a pointer to a block is its index, the
      null pointer [None].
    - Timers.  [Timer] models timer/timer.cc: the timers are records in a heap indexed by
      address, the ordered set is the list of addresses in the order of [Comparator].
    - Fibers and scheduling.  [Fiber] models fiber/fiber.cc, one thread's view: fibers in a
      heap, transfers of control as pairs of addresses.  [Scheduler] models
      fiber/scheduler.cc: construction, the task list and, as the step relation [step], the
      loops of all the threads in [run], interleaved at the sections that hold the mutex and
      at the transfers to fibers, with [start], [schedule] and [stop] from outside.
    - The event loop.  [IOManager] models fiber/iomannager.cc: a context for each descriptor
      with its reader and its writer, the count of pending events and the events epoll was
      told to watch.  It hands waiters to [Scheduler] (the calls of [schedule] are recorded
      in [posted]) and takes expired callbacks from [Timer] in [idle_turn].
    - Hooked calls.  [FdManager] models hook/FdManager.cc, the table of descriptors, over an
      abstract kernel given by the class [Kernel].  [Hook] models hook/hook.cc: what the
      replaced functions return, what they leave in [errno], and the sequence of actions
      (calls of the original, timers armed and cancelled, waits) they make.
    - Addresses.  [Address] models socket/address.cc on memory images, with the host's byte
      order as a parameter; getaddrinfo, inet_pton and getifaddrs are arguments.
    - Utilities.  [Utils] models utils/utils.cc: URL encoding, trimming, and directories and
      the opening of streams over an abstract file system.  [UtilsSystem] models the rest of it:
      texts in the locale, the names of threads, back traces and what they demangle.
    - Sockets and streams.  [Socket] models socket/socket.cc over the class [Net] of the calls
      it makes, which are the hooked ones.  [Stream] models stream/stream.cc, the fixed-size
      transfers over the class [Stream], and stream/SocketStream.cc, its instance on a
      socket; what clients rely on is the class of laws [StreamLaws] of [StreamTheorems].
    - The server.  [TcpServer] models tcpserver/tcpserver.cc: the listening sockets in a heap,
      and the tasks it hands to the two workers as a list of constructors.
    - HTTP.  [Http] models http/http.cc and http.h: messages, their maps and their text.
      [Servlet] models http/servlet.cc, the dispatch tables, for sessions of any type.
      [HttpSession] models http/HttpParser.cc, HttpSession.cc and HttpServer.cc: the callbacks
      that build a message, as the class [Grammar] reports its parts, the loop that receives
      a request from a [SocketStream], and the loop that serves a client with a dispatcher.
    - The HTTP grammar, http/http_parser.cc.  [HttpGrammar] has its tables, enumerations and the
      parser's record, with the bit-fields at their width; [HttpExecute] has
      [http_parser_execute], a definition for each group of states of its [switch] over the
      function's local variables; [HttpUrl] the URL and host parsers.  [HttpParsing] gives it
      the callbacks of HttpParser.cc, and is the instance of [Grammar].
    - Logging.  [LogFormat] models log/LogLevel.cc, the events and formatters of log/Logger.cc
      and log/include/CommonFormatItem.h.  [Log] models the rest of log/: loggers and
      appenders in two heaps, the manager, the macro that logs; files are those of [Utils].
    - Configuration.  [Config] models config/include: variables with their listeners, the
      registry, loading a document, and conversions of containers; yaml-cpp is the class [Yaml].
      [Settings] models the static initialisers by which hook.cc, HttpParser.cc, fiber.cc and
      tcpserver.cc take their settings from it.

    ** How the code is represented

    A member function is a computation of the monad [M] below: it takes the state of the
    object and returns a value, a C++ exception, or a crash (a failed assertion, an access out
    of bounds, a null dereference, or other undefined behaviour), with the state reached.
    Machine integers are [Z] with [wrap] and [swrap] written at each conversion and
    operation that can exceed the width; sizes that only count bytes in memory are [nat].
    Byte strings are lists of bytes.  What happens outside src/ (system calls, the C library)
    is a parameter; laws are assumed of it only where a theorem states them.

    ** What the theorems show

    - [ByteArraySpec], [ByteArrayCodec], [ByteArrayIo], [ByteArraySafety], [ByteArrayTheorems]: a
      buffer refines a byte string with a cursor; every reachable buffer is well formed, and which
      calls can stop the program; all encoders round trip on hosts of both byte orders; the
      buffer lists designate the bytes they should.
    - [TimerSpec], [TimerTheorems]: the ordered set is sorted and holds the live timers in every
      reachable state, expiry fires exactly the due ones in order, the waiting time is exact.
    - [SchedulerTheorems]: every task accepted runs exactly once under every interleaving, and
      the threads end only when all have; after [stop] they can always end, by a measure
      that some steps decrease; when their assertions hold; the life of a fiber.
    - [IOManagerTheorems]: in every reachable state the contexts, the count and epoll agree,
      no waiter is lost or woken twice; and two races that break this.
    - [HookTheorems]: the hooked calls return what the system says or a timeout, and leave no
      timer behind; the two views of the non-blocking flag.
    - [AddressTheorems], [UtilsTheorems], [UtilsSystem]: masks bit by bit, order, texts, round
      trips; what a conversion does to the locale, and a back trace to a symbol.
    - [StreamTheorems], [SocketTheorems]: a socket owns one descriptor at most, and which are lost
      by [accept]; the stream on a socket keeps the contract of streams, and the fixed-size
      transfers end and are exactly their calls on any stream that does; binding, accepting and stopping a server.
    - [HttpTheorems], [ServletTheorems], [HttpSessionTheorems]: header maps, the framing of
      messages, queries; the choice of a servlet; receiving a request ends and stays in its
      buffer whatever arrives, and serving a client ends with the connection closed.
    - [HttpGrammarTheorems]: an invariant of [http_parser_execute] by a calculus of weakest
      preconditions, with which every call on a parser a program can have ends, in its data;
      [HttpParsingTheorems] draws from it the laws that [HttpSessionTheorems] rests on.
      [HttpUrlTheorems]: the fields of a URL lie in it, and are its parts.  [HttpWords],
      [HttpMethodTheorems]: the methods and header names recognized.
      [HttpRuns], [HttpFields], [HttpRoundTrip], [HttpRequestTheorems],
      [HttpResponseTheorems]: either parser run over the text of a message, line by line, to
      the theorems that it gives the request, and the response but for its end, back.
      [HttpExchangeTheorems]: both ends of an exchange together, from the request a client
      sends to the response it parses.
    - [HttpScan], [HttpChunks], [HttpPrefix], [HttpMarks], [HttpSplit], [HttpFeed]: a message
      the grammar takes in one call it takes in any pieces, with the same parser at the end
      and the same callbacks once the pieces of each text are put together, when the callbacks
      only watch and the message is no longer than [max_header_size].  The loops over names and values are
      scans of one byte at a time, two runs are related by a relational logic over the
      handlers ([rwp]), and a call cut at a byte is the call on its beginning and the call on
      the rest.  [HttpFeed] also computes what the program's own callbacks lose by pieces.
    - [HttpTyped]: the fields of a reachable parser are within their types.  [HttpSizes]: the
      numbers of a content length and of the size of a chunk, from their text to the parser.
    - [LogFormatTheorems], [LogTheorems]: patterns read back; each event goes exactly once to
      the appenders that let it pass; no null pointer in any reachable state; file errors.
    - [ConfigTheorems]: the calls of listeners, the registry as a function of names, loading
      as a function of the document, round trips of containers.
    - [SettingsTheorems]: in whatever order the files are initialised, the configured globals
      follow their variables from then on.

    Some theorems state where the code departs from its intent: they describe the behaviour
    exactly as the code has it, and say so in their comments.

    ** Bounds and fuel

    Loops that are not structural take fuel.  [write_loop] and [read_loop] of [ByteArray] have
    two more than the bytes, which is enough since each turn but the last consumes one
    ([write_refinement] and [read_refinement] prove they return); [CountBytes] 33, one more
    than the bits; [io_loop] one per call of the original function, so that its theorem
    assumes the turn at which the system gives a final answer.  The fixed-size transfers
    have one turn per byte and one more, each call moving at least a byte; [recvRequest] and
    [serve] are proved to end with more turns than bytes still to come; [pattern_loop] passes
    at least a byte of the pattern; [log_fuel] is two, a logger and the root; and
    [listAllMember] goes down a document, whose depth its theorem assumes it exceeds.  In
    [HttpExecute] the loop on the data takes a turn per byte and one, the loops in a name or a
    value likewise, and one byte is executed at most four times, of five allowed ([rank]);
    [grammar_safe] proves that none runs out.  The accept loop of a server does not end by itself: its theorem says at which turn it does,
    or that it never does.

    ** What is not modelled

    The stacks and registers of ucontext, the creation of threads and the wake-up pipe of
    epoll, which carry no state of their own; dlsym; [GetCurThreadId], a system call and nothing
    else; the templates singleton.h and noncopyable.h.  Messages that components log or
    print on the console are left out, except the text that logging itself is for.  yaml-cpp,
    boost::lexical_cast, strftime, fnmatch, getaddrinfo and the system calls are parameters.
    The manual programs under src/tests are not modelled. *)

From stdpp Require Export base list numbers strings gmap.
From Stdlib Require Export ZArith Lia Strings.Byte.

#[global] Set Default Goal Selector "!".

(** ** Machine integers

    A [w]-bit unsigned C++ integer is a [Z] in [0, 2^w); arithmetic wraps by
    [wrap w].  A two's complement signed integer is a [Z] in [-2^(w-1), 2^(w-1));
    conversions to it are [swrap w]. *)
Open Scope Z_scope.

Definition wrap (w z : Z) : Z := z mod 2 ^ w.

Definition swrap (w z : Z) : Z := (z + 2 ^ (w - 1)) mod 2 ^ w - 2 ^ (w - 1).

Abbreviation u8 := (wrap 8).
Abbreviation u16 := (wrap 16).
Abbreviation u32 := (wrap 32).
Abbreviation u64 := (wrap 64).
Abbreviation i32 := (swrap 32).
Abbreviation i64 := (swrap 64).

Definition unsigned_range (w z : Z) : Prop := 0 <= z < 2 ^ w.
Definition signed_range (w z : Z) : Prop := - 2 ^ (w - 1) <= z < 2 ^ (w - 1).

Lemma wrap_small w z : unsigned_range w z -> wrap w z = z.
Proof. intros H. by apply Z.mod_small. Qed.

Lemma wrap_range w z : 0 <= w -> unsigned_range w (wrap w z).
Proof. intros. apply Z.mod_pos_bound. lia. Qed.

Lemma wrap_idemp w z : wrap w (wrap w z) = wrap w z.
Proof. unfold wrap. by rewrite Zmod_mod. Qed.

Lemma swrap_small w z : 0 < w -> signed_range w z -> swrap w z = z.
Proof.
  intros Hw [H1 H2]. unfold swrap.
  assert (2 ^ w = 2 * 2 ^ (w - 1)) by (rewrite <- Z.pow_succ_r by lia; f_equal; lia).
  rewrite Z.mod_small; lia.
Qed.

Lemma swrap_range w z : 0 < w -> signed_range w (swrap w z).
Proof.
  intros Hw. unfold signed_range, swrap.
  assert (2 ^ w = 2 * 2 ^ (w - 1)) by (rewrite <- Z.pow_succ_r by lia; f_equal; lia).
  pose proof (Z.mod_pos_bound (z + 2 ^ (w - 1)) (2 ^ w) ltac:(lia)). lia.
Qed.

(** Reinterpreting a signed value as unsigned and back is the identity. *)
Lemma swrap_wrap w z : 0 < w -> signed_range w z -> swrap w (wrap w z) = z.
Proof.
  intros Hw Hz. rewrite <- (swrap_small w z Hw Hz) at 2. unfold swrap, wrap.
  by rewrite Zplus_mod_idemp_l.
Qed.

(** ** Bytes and byte strings

    A [char] is a [byte]; a [std::string] is a [list byte] (it may hold NULs). *)
Abbreviation byte := Byte.byte.
Abbreviation str := (list byte).

Definition b2z (b : byte) : Z := Z.of_N (Byte.to_N b).
Definition z2b (z : Z) : byte := default x00 (Byte.of_N (Z.to_N (wrap 8 z))).

(** A string literal of the source. *)
Definition lit (s : string) : str := String.list_byte_of_string s.

#[export] Instance byte_eq_dec : EqDecision byte := Byte.byte_eq_dec.

Lemma b2z_range b : 0 <= b2z b < 256.
Proof. destruct b; vm_compute; split; congruence. Qed.

Lemma z2b_b2z b : z2b (b2z b) = b.
Proof. by destruct b. Qed.

Lemma b2z_z2b z : b2z (z2b z) = z mod 256.
Proof.
  unfold b2z, z2b, wrap. change (2 ^ 8) with 256.
  pose proof (Z.mod_pos_bound z 256 ltac:(lia)) as Hb.
  destruct (Byte.of_N (Z.to_N (z mod 256))) as [b|] eqn:E; simpl.
  - apply Byte.to_of_N in E. rewrite E. lia.
  - apply Byte.of_N_None_iff in E. lia.
Qed.

Lemma z2b_mod z z' : z mod 256 = z' mod 256 -> z2b z = z2b z'.
Proof. intros H. unfold z2b, wrap. change (2 ^ 8) with 256. by rewrite H. Qed.

Lemma b2z_inj b b' : b2z b = b2z b' -> b = b'.
Proof. intros H. rewrite <- (z2b_b2z b), <- (z2b_b2z b'). by rewrite H. Qed.

#[export] Program Instance byte_countable : Countable byte :=
  inj_countable b2z (fun z => Some (z2b z)) _.
Next Obligation. intros b. simpl. by rewrite z2b_b2z. Qed.

(** The bytes of an integer in memory, least significant first. *)
Fixpoint le_bytes (n : nat) (v : Z) : str :=
  match n with
  | O => []
  | S n => z2b v :: le_bytes n (v / 256)
  end.

Fixpoint le_val (bs : str) : Z :=
  match bs with
  | [] => 0
  | b :: bs => b2z b + 256 * le_val bs
  end.

Lemma length_le_bytes n v : length (le_bytes n v) = n.
Proof. revert v. induction n; intros; simpl; auto. Qed.

Lemma le_val_range bs : 0 <= le_val bs < 256 ^ Z.of_nat (length bs).
Proof.
  induction bs as [|b bs IH]; [simpl; lia|]. cbn [le_val length].
  pose proof (b2z_range b). rewrite Nat2Z.inj_succ, Z.pow_succ_r by lia. lia.
Qed.

Lemma le_val_le_bytes n v : le_val (le_bytes n v) = v mod 256 ^ Z.of_nat n.
Proof.
  revert v. induction n as [|n IH]; intros v; [simpl; by rewrite Z.mod_1_r|].
  cbn [le_bytes le_val]. rewrite IH, b2z_z2b, Nat2Z.inj_succ, Z.pow_succ_r by lia.
  by rewrite Z.rem_mul_r by lia.
Qed.

Lemma le_bytes_le_val bs : le_bytes (length bs) (le_val bs) = bs.
Proof.
  induction bs as [|b bs IH]; [done|]. cbn [length le_bytes le_val].
  pose proof (b2z_range b). f_equal.
  - rewrite <- (z2b_b2z b) at 2. apply z2b_mod.
    by rewrite (Z.mul_comm 256), Z_mod_plus_full.
  - rewrite Z.mul_comm, Z.div_add by lia. by rewrite Z.div_small by lia.
Qed.

(** ** Printing integers: [os << v], in base 10 or with [std::hex] *)
Definition digit (d : Z) : byte := z2b (if d <? 10 then 48 + d else 87 + d).
Definition digit_val (c : byte) : Z := if b2z c <? 58 then b2z c - 48 else b2z c - 87.

(** The digits of [z] before [acc]; 64 of them are enough below 2^64. *)
Fixpoint to_digits (fuel : nat) (base z : Z) (acc : str) : str :=
  match fuel with
  | O => acc
  | S fuel =>
      let acc := digit (z mod base) :: acc in
      if z / base =? 0 then acc else to_digits fuel base (z / base) acc
  end.

Definition print_uint (base z : Z) : str := to_digits 64 base z [].
Definition print_dec (z : Z) : str := if z <? 0 then "-"%byte :: print_uint 10 (- z) else print_uint 10 z.

Definition of_digits (base : Z) (s : str) : Z := fold_left (fun v c => v * base + digit_val c) s 0.

Lemma digit_val_digit d : 0 <= d < 36 -> digit_val (digit d) = d.
Proof.
  intros Hd. unfold digit, digit_val. rewrite b2z_z2b.
  destruct (Z.ltb_spec d 10) as [H|H].
  - rewrite Z.mod_small by lia. destruct (Z.ltb_spec (48 + d) 58); lia.
  - rewrite Z.mod_small by lia. destruct (Z.ltb_spec (87 + d) 58); lia.
Qed.

Lemma of_digits_app base s1 s2 :
  of_digits base (s1 ++ s2) = fold_left (fun v c => v * base + digit_val c) s2 (of_digits base s1).
Proof. unfold of_digits. by rewrite fold_left_app. Qed.

Lemma to_digits_spec fuel base z acc :
  2 <= base <= 36 -> 0 <= z < base ^ Z.of_nat fuel ->
  exists s, to_digits fuel base z acc = s ++ acc /\ of_digits base s = z /\
    Forall (fun c => exists d, 0 <= d < base /\ c = digit d) s /\ (fuel <> 0%nat -> s <> []).
Proof.
  intros Hb. revert z acc. induction fuel as [|fuel IH]; intros z acc Hz.
  { exists []. simpl in *. split_and!; [done|unfold of_digits; simpl; lia|constructor|done]. }
  rewrite Nat2Z.inj_succ, Z.pow_succ_r in Hz by lia. cbn [to_digits].
  pose proof (Z.mod_pos_bound z base ltac:(lia)) as Hm.
  pose proof (Z.div_mod z base ltac:(lia)) as Hdm.
  assert (Hdig : exists d, 0 <= d < base /\ digit (z mod base) = digit d) by eauto.
  destruct (Z.eqb_spec (z / base) 0) as [H0|H0].
  - exists [digit (z mod base)]. split_and!; [done| |by repeat constructor|done].
    unfold of_digits. simpl. rewrite digit_val_digit by lia. lia.
  - destruct (IH (z / base) (digit (z mod base) :: acc)) as (s & -> & Hs & Hall & _).
    { split; [apply Z.div_pos; lia|]. apply Z.div_lt_upper_bound; lia. }
    exists (s ++ [digit (z mod base)]). rewrite <- app_assoc. split_and!; [done| | |].
    + rewrite of_digits_app, Hs. simpl. rewrite digit_val_digit by lia. lia.
    + apply Forall_app. split; [done|by repeat constructor].
    + intros _. by destruct s.
Qed.

(** Printing is injective, and yields one digit or more. *)
Lemma print_uint_spec base z :
  2 <= base <= 36 -> 0 <= z < 2 ^ 64 ->
  of_digits base (print_uint base z) = z /\
  Forall (fun c => exists d, 0 <= d < base /\ c = digit d) (print_uint base z) /\
  print_uint base z <> [].
Proof.
  intros Hb Hz. unfold print_uint.
  destruct (to_digits_spec 64 base z [] Hb) as (s & -> & Hs & Hall & Hne).
  { split; [lia|]. assert (2 ^ 64 <= base ^ 64) by (apply Z.pow_le_mono_l; lia).
    change (Z.of_nat 64) with 64. lia. }
  rewrite app_nil_r. split_and!; [done|done|by apply Hne].
Qed.

(** ** Slices: [memcpy] out of and into a buffer *)
Definition slice {A} (pos n : nat) (l : list A) : list A := take n (drop pos l).
Definition splice {A} (pos : nat) (bs l : list A) : list A :=
  take pos l ++ bs ++ drop (pos + length bs) l.

Section slices.
Context {A : Type}.
Implicit Types l bs : list A.

Lemma length_slice pos n l : (pos + n <= length l)%nat -> length (slice pos n l) = n.
Proof. intros. unfold slice. rewrite length_take, length_drop. lia. Qed.

Lemma length_splice pos bs l :
  (pos + length bs <= length l)%nat -> length (splice pos bs l) = length l.
Proof. intros. unfold splice. rewrite !length_app, length_take, length_drop. lia. Qed.

Lemma slice_add pos n m l : slice pos (n + m) l = slice pos n l ++ slice (pos + n) m l.
Proof. unfold slice. rewrite <- drop_drop. by rewrite take_take_drop. Qed.

Lemma slice_splice pos bs l :
  (pos <= length l)%nat -> slice pos (length bs) (splice pos bs l) = bs.
Proof.
  intros. unfold slice, splice. rewrite drop_app_length' by (rewrite length_take; lia).
  by rewrite take_app_length.
Qed.

Lemma splice_nil pos l : splice pos [] l = l.
Proof. unfold splice. simpl. rewrite Nat.add_0_r. apply take_drop. Qed.

Lemma splice_app pos b1 b2 l :
  (pos <= length l)%nat ->
  splice pos (b1 ++ b2) l = splice (pos + length b1) b2 (splice pos b1 l).
Proof.
  intros.
  assert (Hl : length (take pos l ++ b1) = (pos + length b1)%nat)
    by (rewrite length_app, length_take; lia).
  unfold splice. rewrite (app_assoc (take pos l) b1 (drop _ _)).
  rewrite take_app_length', drop_app_ge, Hl, drop_drop by lia.
  rewrite length_app, <- !app_assoc. do 4 f_equal. lia.
Qed.

Lemma slice_app_l pos n l1 l2 :
  (pos + n <= length l1)%nat -> slice pos n (l1 ++ l2) = slice pos n l1.
Proof.
  intros. unfold slice. rewrite drop_app_le by lia. apply take_app_le.
  rewrite length_drop. lia.
Qed.

Lemma slice_app_r pos n l1 l2 : slice (length l1 + pos) n (l1 ++ l2) = slice pos n l2.
Proof. unfold slice. rewrite drop_app_ge by lia. do 2 f_equal. lia. Qed.

Lemma splice_app_l pos bs l1 l2 :
  (pos + length bs <= length l1)%nat -> splice pos bs (l1 ++ l2) = splice pos bs l1 ++ l2.
Proof.
  intros. unfold splice. rewrite take_app_le, drop_app_le by lia. by rewrite <- !app_assoc.
Qed.

Lemma splice_app_r pos bs l1 l2 :
  splice (length l1 + pos) bs (l1 ++ l2) = l1 ++ splice pos bs l2.
Proof.
  unfold splice. rewrite take_app_ge, drop_app_ge by lia. rewrite <- app_assoc.
  repeat f_equal; lia.
Qed.

Lemma slice_all n l : length l = n -> slice 0 n l = l.
Proof. intros <-. unfold slice. rewrite drop_0. apply firstn_all. Qed.

Lemma slice_slice p n q m l :
  (q + m <= n)%nat -> slice q m (slice p n l) = slice (p + q) m l.
Proof.
  intros. unfold slice. rewrite <- drop_drop, skipn_firstn_comm, take_take.
  f_equal. lia.
Qed.

Lemma take_splice n pos bs l :
  (pos <= n <= length l)%nat -> (pos + length bs <= length l)%nat ->
  take (n `max` (pos + length bs)) (splice pos bs l) = splice pos bs (take n l).
Proof.
  intros Hn Hl. unfold splice. rewrite take_take, skipn_firstn_comm.
  replace (pos `min` n)%nat with pos by lia.
  rewrite take_app_ge, length_take by (rewrite length_take; lia).
  rewrite take_app_ge by lia. do 3 f_equal. lia.
Qed.

(** ** Lists of blocks of one length *)
Definition uniform (n : nat) (ls : list (list A)) : Prop := Forall (fun l => length l = n) ls.

Lemma length_concat_uniform n ls : uniform n ls -> length (concat ls) = (n * length ls)%nat.
Proof. induction 1; simpl; rewrite ?length_app; lia. Qed.

Lemma slice_concat n ls i l p m :
  uniform n ls -> ls !! i = Some l -> (p + m <= n)%nat ->
  slice (i * n + p) m (concat ls) = slice p m l.
Proof.
  intros Hu. revert i. induction Hu as [|l' ls Hl Hu IH]; intros [|i] Hi Hm; simplify_eq/=.
  - by apply slice_app_l.
  - rewrite <- (IH i) by done. rewrite <- Nat.add_assoc. apply slice_app_r.
Qed.

Lemma concat_splice n ls i l p bs :
  uniform n ls -> ls !! i = Some l -> (p + length bs <= n)%nat ->
  concat (<[i := splice p bs l]> ls) = splice (i * n + p) bs (concat ls).
Proof.
  intros Hu. revert i. induction Hu as [|l' ls Hl Hu IH]; intros [|i] Hi Hm; simplify_eq/=.
  - by rewrite splice_app_l.
  - rewrite (IH i) by done. by rewrite <- Nat.add_assoc, splice_app_r.
Qed.

Lemma uniform_splice n ls i l p bs :
  uniform n ls -> ls !! i = Some l -> (p + length bs <= n)%nat ->
  uniform n (<[i := splice p bs l]> ls).
Proof.
  intros Hu Hi Hm. apply Forall_insert; [done|].
  pose proof (Forall_lookup_1 _ _ _ _ Hu Hi) as Hl. cbv beta in Hl.
  by rewrite length_splice by lia.
Qed.
End slices.

(** ** Filters *)
Section filters.
Context {A : Type} (P : A -> Prop) `{!forall x, Decision (P x)}.

Lemma filter_all l : Forall P l -> filter P l = l.
Proof. induction 1; [done|]. by rewrite filter_cons_True, IHForall. Qed.

Lemma filter_none l : Forall (fun x => ~ P x) l -> filter P l = [].
Proof. induction 1; [done|]. by rewrite filter_cons_False, IHForall. Qed.
End filters.

(** ** Effects

    A C++ member function is a state transformer on the object: it returns a
    value, throws, or stops the program ([Crash]: a failed assertion or behaviour
    the language leaves undefined); the state reached is kept in all cases. *)
Inductive exn := out_of_range | invalid_argument | logic_error | bad_cast | runtime_error.
Inductive crash := NullDeref | OutOfBounds | Undefined | AssertFail | OutOfFuel.

Inductive res (A : Type) :=
| Ok (a : A)
| Throw (e : exn)
| Crash (c : crash).
Arguments Ok {A} a.
Arguments Throw {A} e.
Arguments Crash {A} c.

#[export] Instance exn_eq_dec : EqDecision exn.
Proof. solve_decision. Defined.
#[export] Instance crash_eq_dec : EqDecision crash.
Proof. solve_decision. Defined.
#[export] Instance res_eq_dec `{EqDecision A} : EqDecision (res A).
Proof. solve_decision. Defined.

Definition M (S A : Type) : Type := S -> res A * S.

#[export] Instance M_ret S : MRet (M S) := fun A a s => (Ok a, s).
#[export] Instance M_bind S : MBind (M S) := fun A B f m s =>
  match m s with
  | (Ok a, s') => f a s'
  | (Throw e, s') => (Throw e, s')
  | (Crash c, s') => (Crash c, s')
  end.

Section effects.
Context {S : Type}.
Definition get : M S S := fun s => (Ok s, s).
Definition gets {A} (f : S -> A) : M S A := fun s => (Ok (f s), s).
Definition put (s : S) : M S unit := fun _ => (Ok tt, s).
Definition modify (f : S -> S) : M S unit := fun s => (Ok tt, f s).
Definition throw {A} (e : exn) : M S A := fun s => (Throw e, s).
Definition crashed {A} (c : crash) : M S A := fun s => (Crash c, s).
(** [PHASE0_ASSERT]. *)
Definition assert (b : bool) : M S unit := if b then mret tt else crashed AssertFail.
Definition when (b : bool) (m : M S unit) : M S unit := if b then m else mret tt.
End effects.

(** [bind_step] runs the first command of a bind whose result is known. *)
Lemma bind_ok {S A B} (m : M S A) (f : A -> M S B) s a s' :
  m s = (Ok a, s') -> (m ≫= f) s = f a s'.
Proof. intros H. unfold mbind, M_bind. by rewrite H. Qed.

Lemma bind_throw {S A B} (m : M S A) (f : A -> M S B) s e s' :
  m s = (Throw e, s') -> (m ≫= f) s = (Throw e, s').
Proof. intros H. unfold mbind, M_bind. by rewrite H. Qed.

Lemma bind_crash {S A B} (m : M S A) (f : A -> M S B) s c s' :
  m s = (Crash c, s') -> (m ≫= f) s = (Crash c, s').
Proof. intros H. unfold mbind, M_bind. by rewrite H. Qed.

Lemma bind_inv {S A B} (m : M S A) (f : A -> M S B) s b s' :
  (m ≫= f) s = (Ok b, s') -> exists a s1, m s = (Ok a, s1) /\ f a s1 = (Ok b, s').
Proof. unfold mbind, M_bind. destruct (m s) as [[a|e|c] s1]; [eauto|done|done]. Qed.

(** [m_step] runs the command at the head of a bind in the goal when a
    hypothesis (or computation) gives its result. *)
Ltac m_step :=
  match goal with
  | |- context [(?m ≫= ?f) ?s] =>
      first [ erewrite (bind_ok m f s) by (first [eassumption | reflexivity])
            | erewrite (bind_throw m f s) by (first [eassumption | reflexivity])
            | erewrite (bind_crash m f s) by (first [eassumption | reflexivity]) ]
  end; cbv beta.

(** Rewriting rules shared by the components: lengths, and integers in memory. *)
Create Rewrite HintDb phase0.

(** Linear arithmetic with division and remainder by constants. *)
Ltac zdiv := Z.to_euclidean_division_equations; lia.

(** Boolean comparisons on [Z] and [nat] become propositions, by cases. *)
Ltac zcases :=
  repeat match goal with
  | |- context [?a <? ?b] => destruct (Z.ltb_spec a b)
  | |- context [?a <=? ?b] => destruct (Z.leb_spec a b)
  | |- context [?a =? ?b] => destruct (Z.eqb_spec a b)
  | |- context [(?a <? ?b)%nat] => destruct (Nat.ltb_spec a b)
  | |- context [(?a <=? ?b)%nat] => destruct (Nat.leb_spec a b)
  | |- context [(?a =? ?b)%nat] => destruct (Nat.eqb_spec a b)
  end.

(** ** Strings *)

(** A [char*] as the C functions read it: up to the first NUL. *)
Fixpoint c_str (s : str) : str :=
  match s with
  | [] => []
  | c :: s => if bool_decide (c = x00) then [] else c :: c_str s
  end.

Lemma c_str_id s : x00 ∉ s -> c_str s = s.
Proof.
  induction s as [|c s IH]; [done|]. intros [Hc Hs]%not_elem_of_cons. cbn [c_str].
  rewrite bool_decide_false by congruence. by rewrite IH.
Qed.

(** [memchr]: the offset of the first [c]. *)
Definition memchr (c : byte) (s : str) : option nat := fst <$> list_find (fun d => d = c) s.

Lemma memchr_mid c l r : c ∉ l -> memchr c (l ++ c :: r) = Some (length l).
Proof.
  intros Hl. unfold memchr. rewrite (proj2 (list_find_Some _ _ (length l) c)); [done|].
  split_and!; [by rewrite list_lookup_middle|done|].
  intros j y Hj Hlt ->. rewrite lookup_app_l in Hj by done. by apply list_elem_of_lookup_2 in Hj.
Qed.

Lemma memchr_none c l : c ∉ l -> memchr c l = None.
Proof.
  intros Hl. unfold memchr. rewrite (proj2 (list_find_None _ _)); [done|].
  apply Forall_forall. by intros x Hx ->.
Qed.

Lemma memchr_in c l : c ∈ l -> exists p, memchr c l = Some p.
Proof.
  intros Hc. unfold memchr. destruct (list_find (fun d => d = c) l) as [[p x]|] eqn:E; [by exists p|].
  apply list_find_None in E. rewrite Forall_forall in E. by destruct (E c).
Qed.

Lemma drop_past {A} (l : list A) c r : drop (S (length l)) (l ++ c :: r) = r.
Proof. induction l as [|x l IH]; [done|]. apply IH. Qed.

(** Lexicographic order of byte strings. *)
Fixpoint lex (a b : str) : bool :=
  match a, b with
  | _, [] => false
  | [], _ :: _ => true
  | x :: a, y :: b => if b2z x <? b2z y then true else if b2z y <? b2z x then false else lex a b
  end.

Lemma lex_irrefl a : lex a a = false.
Proof. induction a as [|x a IH]; [done|]. cbn [lex]. by rewrite Z.ltb_irrefl. Qed.

Lemma lex_trans a b c : lex a b = true -> lex b c = true -> lex a c = true.
Proof.
  revert b c. induction a as [|x a IH]; intros [|y b] [|z c]; cbn [lex]; try done.
  zcases; try done; try lia. apply IH.
Qed.

Lemma lex_total a b : lex a b = true \/ a = b \/ lex b a = true.
Proof.
  revert b. induction a as [|x a IH]; intros [|y b]; cbn [lex]; [by right; left|by left|by right; right|].
  zcases; try (left; done); try (right; right; done); try lia.
  assert (x = y) as -> by (apply b2z_inj; lia).
  destruct (IH b) as [?|[->|?]]; [by left|by right; left|by right; right].
Qed.

(** [tolower] in the C locale. *)
Definition tolower (c : byte) : byte :=
  if (65 <=? b2z c) && (b2z c <=? 90) then z2b (b2z c + 32) else c.
