(* ===== verification/Endians.v ===== *)
(** * Byte order: src/src/socket/include/endians.h

    [byteswap] on 2-, 4- and 8-byte integers (the [bswap_16/32/64] of glibc's
    <byteswap.h>, written out), the compile-time host order and the two
    conversion functions that depend on it.  The host order is a parameter, so
    the theorems hold for both branches of the header's [#if]. *)

From S2P Require Import Prelude.
#[local] Set Default Goal Selector "!".

Inductive byte_order := LittleEndian | BigEndian.

#[export] Instance byte_order_eq_dec : EqDecision byte_order.
Proof. solve_decision. Defined.

Definition PHASE0_LITTLE_ENDIAN : Z := 1.
Definition PHASE0_BIG_ENDIAN : Z := 2.

(** [PHASE0_BYTE_ORDER]: chosen by the host at compile time. *)
Definition PHASE0_BYTE_ORDER (host : byte_order) : Z :=
  match host with
  | BigEndian => PHASE0_BIG_ENDIAN
  | LittleEndian => PHASE0_LITTLE_ENDIAN
  end.

(** The [i]-th byte of [x], counted from the least significant. *)
Definition byte_of (x i : Z) : Z := Z.land (Z.shiftr x (8 * i)) 255.

Definition bswap_16 (x : Z) : Z :=
  Z.lor (Z.shiftl (byte_of x 0) 8) (byte_of x 1).

Definition bswap_32 (x : Z) : Z :=
  Z.lor (Z.shiftl (bswap_16 x) 16) (bswap_16 (Z.shiftr x 16)).

Definition bswap_64 (x : Z) : Z :=
  Z.lor (Z.shiftl (bswap_32 x) 32) (bswap_32 (Z.shiftr x 32)).

(** The three overloads of [byteswap], selected by [sizeof(T)], at an unsigned [T]. *)
Definition byteswap (size : nat) (x : Z) : Z :=
  match size with
  | 8%nat => bswap_64 (u64 x)
  | 4%nat => bswap_32 (u32 x)
  | 2%nat => bswap_16 (u16 x)
  | _ => x
  end.

Definition byteswapOnLittleEndian (host : byte_order) (size : nat) (t : Z) : Z :=
  match host with BigEndian => t | LittleEndian => byteswap size t end.

Definition byteswapOnBigEndian (host : byte_order) (size : nat) (t : Z) : Z :=
  match host with BigEndian => byteswap size t | LittleEndian => t end.

(** How the host stores an [n]-byte unsigned integer in memory, and loads it. *)
Definition store (host : byte_order) (n : nat) (v : Z) : str :=
  match host with LittleEndian => le_bytes n v | BigEndian => rev (le_bytes n v) end.

Definition load (host : byte_order) (bs : str) : Z :=
  match host with LittleEndian => le_val bs | BigEndian => le_val (rev bs) end.

(** ** Facts *)

Lemma lor_shiftl_add a b n :
  0 <= n -> 0 <= b < 2 ^ n -> Z.lor (Z.shiftl a n) b = a * 2 ^ n + b.
Proof.
  intros Hn Hb. rewrite <- (Z.shiftl_mul_pow2 a n) by lia.
  symmetry. apply Z.add_nocarry_lor, Z.bits_inj'. intros i Hi.
  rewrite Z.land_spec, Z.bits_0. destruct (Z.ltb_spec i n).
  - by rewrite Z.shiftl_spec_low.
  - rewrite (proj1 (Z.bounded_iff_bits_nonneg' n b Hn ltac:(lia)) Hb i) by lia.
    apply andb_false_r.
Qed.

Lemma byte_of_div x i : 0 <= i -> byte_of x i = (x / 256 ^ i) mod 256.
Proof.
  intros. unfold byte_of. change 255 with (Z.ones 8).
  rewrite Z.land_ones, Z.shiftr_div_pow2 by lia. by rewrite Z.pow_mul_r by lia.
Qed.

Lemma bswap_16_spec x : bswap_16 x = le_val (rev (le_bytes 2 x)).
Proof.
  unfold bswap_16. rewrite !byte_of_div, lor_shiftl_add; [|lia|apply Z.mod_pos_bound; lia|lia|lia].
  cbn [le_bytes rev app le_val]. rewrite !b2z_z2b, Z.pow_1_r, Z.pow_0_r, Z.div_1_r.
  change (2 ^ 8) with 256. lia.
Qed.

Lemma le_val_app b1 b2 :
  le_val (b1 ++ b2) = le_val b1 + 256 ^ Z.of_nat (length b1) * le_val b2.
Proof.
  induction b1 as [|b b1 IH]; [simpl; lia|]. cbn [app le_val length].
  rewrite IH, Nat2Z.inj_succ, Z.pow_succ_r by lia. lia.
Qed.

Lemma le_bytes_add n m v :
  le_bytes (n + m) v = le_bytes n v ++ le_bytes m (v / 256 ^ Z.of_nat n).
Proof.
  revert v. induction n as [|n IH]; intros v.
  - by rewrite Z.pow_0_r, Z.div_1_r.
  - cbn [Nat.add le_bytes app]. rewrite IH, Nat2Z.inj_succ, Z.pow_succ_r by lia.
    by rewrite Zdiv_Zdiv by lia.
Qed.

(** Reversing a doubled width: swap the halves and reverse each. *)
Lemma rev_halves n x :
  le_val (rev (le_bytes (n + n) x)) =
  le_val (rev (le_bytes n x)) * 256 ^ Z.of_nat n
  + le_val (rev (le_bytes n (x / 256 ^ Z.of_nat n))).
Proof.
  rewrite le_bytes_add, rev_app_distr, le_val_app, length_rev, length_le_bytes. lia.
Qed.

Lemma rev_le_range n x : 0 <= le_val (rev (le_bytes n x)) < 256 ^ Z.of_nat n.
Proof.
  pose proof (le_val_range (rev (le_bytes n x))) as H.
  by rewrite length_rev, length_le_bytes in H.
Qed.

Lemma bswap_32_spec x : bswap_32 x = le_val (rev (le_bytes 4 x)).
Proof.
  unfold bswap_32. rewrite !bswap_16_spec, Z.shiftr_div_pow2 by lia.
  rewrite lor_shiftl_add; [|lia|apply rev_le_range]. by rewrite (rev_halves 2).
Qed.

Lemma bswap_64_spec x : bswap_64 x = le_val (rev (le_bytes 8 x)).
Proof.
  unfold bswap_64. rewrite !bswap_32_spec, Z.shiftr_div_pow2 by lia.
  rewrite lor_shiftl_add; [|lia|apply rev_le_range]. by rewrite (rev_halves 4).
Qed.

(** The sizes at which [byteswap] exists ([ByteSize2/4/8]). *)
Definition swappable (n : nat) : Prop := n = 2%nat \/ n = 4%nat \/ n = 8%nat.

Lemma le_bytes_mod n v : le_bytes n (v mod 256 ^ Z.of_nat n) = le_bytes n v.
Proof.
  rewrite <- le_val_le_bytes, <- (length_le_bytes n v) at 1. apply le_bytes_le_val.
Qed.

Lemma byteswap_spec n x : swappable n -> byteswap n x = le_val (rev (le_bytes n x)).
Proof.
  intros [-> | [-> | ->]]; cbn [byteswap];
    rewrite ?bswap_16_spec, ?bswap_32_spec, ?bswap_64_spec; unfold wrap.
  - change (2 ^ 16) with (256 ^ Z.of_nat 2). by rewrite le_bytes_mod.
  - change (2 ^ 32) with (256 ^ Z.of_nat 4). by rewrite le_bytes_mod.
  - change (2 ^ 64) with (256 ^ Z.of_nat 8). by rewrite le_bytes_mod.
Qed.

(** A swapped integer is laid out in memory in the opposite order. *)
Lemma le_bytes_byteswap n x : swappable n -> le_bytes n (byteswap n x) = rev (le_bytes n x).
Proof.
  intros Hn. rewrite byteswap_spec by done.
  rewrite <- (length_le_bytes n x) at 1. rewrite <- length_rev. apply le_bytes_le_val.
Qed.

(** [byteswap] is an involution, at every size the header defines it. *)
Lemma byteswap_involutive n x :
  swappable n -> unsigned_range (8 * Z.of_nat n) x -> byteswap n (byteswap n x) = x.
Proof.
  intros Hn Hx. rewrite byteswap_spec, le_bytes_byteswap, rev_involutive by done.
  rewrite le_val_le_bytes. apply Z.mod_small.
  unfold unsigned_range in Hx. by rewrite Z.pow_mul_r in Hx by lia.
Qed.

Lemma byteswap_range n x : swappable n -> unsigned_range (8 * Z.of_nat n) (byteswap n x).
Proof.
  intros Hn. rewrite byteswap_spec by done. unfold unsigned_range.
  rewrite Z.pow_mul_r by lia. apply rev_le_range.
Qed.

Lemma length_store host n v : length (store host n v) = n.
Proof. destruct host; simpl; rewrite ?length_rev; apply length_le_bytes. Qed.

Lemma load_store host n v : load host (store host n v) = v mod 256 ^ Z.of_nat n.
Proof. destruct host; simpl; rewrite ?rev_involutive; apply le_val_le_bytes. Qed.

#[export] Hint Rewrite length_le_bytes length_store le_val_le_bytes load_store : phase0.


(** [byteswap] at a signed [T]: the swapped pattern converted back to [T]. *)
Definition byteswap_signed (size : nat) (x : Z) : Z :=
  swrap (8 * Z.of_nat size) (byteswap size x).
