(* ===== verification/ByteArray.v ===== *)
(** * ByteArray: src/src/utils/bytearray.cc

    A growable buffer held in a linked list of equal blocks, with one cursor.
    The list is the list of the blocks' contents, a [Node*] into it is an index
    ([None] is the null pointer).  Sizes are [nat]; the one subtraction of the
    class that can go below zero is taken modulo 2^64. *)

From S2P Require Import Prelude Endians.
#[local] Set Default Goal Selector "!".

Record ByteArray := mkByteArray {
  m_baseSize : nat;
  m_position : nat;
  m_capacity : nat;
  m_size : nat;
  m_endian : Z;
  m_nodes : list str;      (** the blocks from [m_root] on *)
  m_cur : option nat       (** the block [m_cur] points to *)
}.

Definition set_pos (p : nat) (b : ByteArray) : ByteArray :=
  mkByteArray (m_baseSize b) p (m_capacity b) (m_size b) (m_endian b) (m_nodes b) (m_cur b).
Definition set_size (n : nat) (b : ByteArray) : ByteArray :=
  mkByteArray (m_baseSize b) (m_position b) (m_capacity b) n (m_endian b) (m_nodes b) (m_cur b).
Definition set_cur (c : option nat) (b : ByteArray) : ByteArray :=
  mkByteArray (m_baseSize b) (m_position b) (m_capacity b) (m_size b) (m_endian b) (m_nodes b) c.
Definition set_nodes (l : list str) (b : ByteArray) : ByteArray :=
  mkByteArray (m_baseSize b) (m_position b) (m_capacity b) (m_size b) (m_endian b) l (m_cur b).
Definition set_endian (e : Z) (b : ByteArray) : ByteArray :=
  mkByteArray (m_baseSize b) (m_position b) (m_capacity b) (m_size b) e (m_nodes b) (m_cur b).

Section ByteArray.
(** [host]: the byte order of the machine.  [uninit i k]: the byte found at
    offset [k] of the [i]-th block when [new char[]] returns it. *)
Context (host : byte_order) (uninit : nat -> nat -> byte).

Abbreviation BA := (M ByteArray).

(** [Node::Node(size_t)] for the [i]-th block of the list. *)
Definition Node (i s : nat) : str := uninit i <$> seq 0 s.

(** The constructor. *)
Definition new_ByteArray (base_size : nat) : ByteArray :=
  mkByteArray base_size 0 base_size 0 PHASE0_BIG_ENDIAN [Node 0 base_size] (Some 0%nat).

Definition isLittleEndian (b : ByteArray) : bool := m_endian b =? PHASE0_LITTLE_ENDIAN.

Definition setIsLittleEndian (val : bool) : BA unit :=
  modify (set_endian (if val then PHASE0_LITTLE_ENDIAN else PHASE0_BIG_ENDIAN)).

(** [p->next]. *)
Definition next (b : ByteArray) (i : nat) : option nat :=
  if (S i <? length (m_nodes b))%nat then Some (S i) else None.

(** [*p]: the block a pointer designates; dereferencing null stops the program. *)
Definition deref (b : ByteArray) (p : option nat) : res (nat * str) :=
  match p with
  | None => Crash NullDeref
  | Some i => match m_nodes b !! i with Some nd => Ok (i, nd) | None => Crash OutOfBounds end
  end.

Definition cur_node : BA (nat * str) := fun b => (deref b (m_cur b), b).

(** [m_cur = m_cur->next]. *)
Definition advance : BA unit :=
  '(i, _) ← cur_node; modify (fun b => set_cur (next b i) b).

(** [memcpy(m_cur->ptr + npos, bs, |bs|)]. *)
Definition memcpy_in (npos : nat) (bs : str) : BA unit :=
  '(i, nd) ← cur_node;
  if (npos + length bs <=? length nd)%nat
  then modify (fun b => set_nodes (<[i := splice npos bs nd]> (m_nodes b)) b)
  else crashed OutOfBounds.

Definition getCapacity (b : ByteArray) : nat := (m_capacity b - m_position b)%nat.
Definition getReadSize (b : ByteArray) : nat := (m_size b - m_position b)%nat.

(** [ceil(1.0 * size / m_baseSize)]; exact for sizes below 2^52. *)
Definition ceil_div (a b : nat) : nat := ((a + b - 1) / b)%nat.

Definition addCapacity (size : nat) : BA unit :=
  if (size =? 0)%nat then mret tt else
  b ← get;
  let old_cap := getCapacity b in
  if (size <=? old_cap)%nat then mret tt else
  if (m_baseSize b =? 0)%nat then crashed Undefined else
  let size := (size - old_cap)%nat in
  let count := ceil_div size (m_baseSize b) in
  let n := length (m_nodes b) in
  let fresh := (fun k => Node (n + k) (m_baseSize b)) <$> seq 0 count in
  put (mkByteArray (m_baseSize b) (m_position b) (m_capacity b + count * m_baseSize b)
         (m_size b) (m_endian b) (m_nodes b ++ fresh)
         (if (old_cap =? 0)%nat then Some n else m_cur b)).

(** The loop of [write]: [npos], [ncap], [bpos] and [size] are its locals. *)
Fixpoint write_loop (fuel : nat) (buf : str) (npos ncap bpos size : nat) : BA unit :=
  match fuel with
  | O => crashed OutOfFuel
  | S fuel =>
      if (size =? 0)%nat then mret tt
      else if (size <=? ncap)%nat then
        memcpy_in npos (slice bpos size buf) ;;
        '(_, nd) ← cur_node;
        when (length nd =? npos + size)%nat advance ;;
        modify (fun b => set_pos (m_position b + size) b) ;;
        write_loop fuel buf npos ncap (bpos + size) 0
      else
        memcpy_in npos (slice bpos ncap buf) ;;
        modify (fun b => set_pos (m_position b + ncap) b) ;;
        advance ;;
        '(_, nd) ← cur_node;
        write_loop fuel buf 0 (length nd) (bpos + ncap) (size - ncap)
  end.

(** [if (m_position > m_size) m_size = m_position;]. *)
Definition grow_size : BA unit :=
  modify (fun b => if (m_size b <? m_position b)%nat then set_size (m_position b) b else b).

Definition write (buf : str) : BA unit :=
  let size := length buf in
  if (size =? 0)%nat then mret tt else
  addCapacity size ;;
  b ← get;
  if (m_baseSize b =? 0)%nat then crashed Undefined else
  let npos := (m_position b mod m_baseSize b)%nat in
  '(_, nd) ← cur_node;
  let ncap := (length nd - npos)%nat in
  write_loop (S (S size)) buf npos ncap 0 size ;;
  grow_size.

(** The loop of [read(void*, size_t)]; [acc] is the part of the destination
    filled so far (its length is the source's [bpos]). *)
Fixpoint read_loop (fuel : nat) (npos ncap size : nat) (acc : str) : BA str :=
  match fuel with
  | O => crashed OutOfFuel
  | S fuel =>
      if (size =? 0)%nat then mret acc
      else if (size <=? ncap)%nat then
        '(_, nd) ← cur_node;
        let acc := acc ++ slice npos size nd in
        when (length nd =? npos + size)%nat advance ;;
        modify (fun b => set_pos (m_position b + size) b) ;;
        read_loop fuel npos ncap 0 acc
      else
        '(_, nd) ← cur_node;
        let acc := acc ++ slice npos ncap nd in
        modify (fun b => set_pos (m_position b + ncap) b) ;;
        advance ;;
        '(_, nd) ← cur_node;
        read_loop fuel 0 (length nd) (size - ncap) acc
  end.

Definition read (size : Z) : BA str :=
  b ← get;
  if Z.of_nat (getReadSize b) <? size then throw out_of_range else
  let size := Z.to_nat size in
  if (m_baseSize b =? 0)%nat then crashed Undefined else
  let npos := (m_position b mod m_baseSize b)%nat in
  '(_, nd) ← cur_node;
  read_loop (S (S size)) npos (length nd - npos) size [].

(** The loop of [read(void*, size_t, size_t) const], which moves a local [cur]. *)
Fixpoint read_at_loop (fuel : nat) (b : ByteArray) (cur : option nat)
    (npos ncap size : nat) (acc : str) : res str :=
  match fuel with
  | O => Crash OutOfFuel
  | S fuel =>
      if (size =? 0)%nat then Ok acc
      else
        match deref b cur with
        | Ok (i, nd) =>
            if (size <=? ncap)%nat then
              let cur := if (length nd =? npos + size)%nat then next b i else cur in
              read_at_loop fuel b cur npos ncap 0 (acc ++ slice npos size nd)
            else
              match deref b (next b i) with
              | Ok (j, nd') =>
                  read_at_loop fuel b (Some j) 0 (length nd') (size - ncap)
                    (acc ++ slice npos ncap nd)
              | Throw e => Throw e
              | Crash c => Crash c
              end
        | Throw e => Throw e
        | Crash c => Crash c
        end
  end.

Definition read_at (size position : Z) (b : ByteArray) : res str :=
  if u64 (Z.of_nat (m_size b) - position) <? size then Throw out_of_range else
  if (m_baseSize b =? 0)%nat then Crash Undefined else
  let npos := Z.to_nat (position mod Z.of_nat (m_baseSize b)) in
  match deref b (m_cur b) with
  | Ok (_, nd) =>
      read_at_loop (S (S (Z.to_nat size))) b (m_cur b) npos (length nd - npos)
        (Z.to_nat size) []
  | Throw e => Throw e
  | Crash c => Crash c
  end.

Definition clear : BA unit :=
  modify (fun b => mkByteArray (m_baseSize b) 0 (m_baseSize b) 0 (m_endian b)
                     (take 1 (m_nodes b)) (Some 0%nat)).

(** The loop of [setPosition]: skip whole blocks while [v] is past them. *)
Fixpoint seek (fuel v : nat) : BA nat :=
  match fuel with
  | O => crashed OutOfFuel
  | S fuel =>
      '(_, nd) ← cur_node;
      if (length nd <? v)%nat then advance ;; seek fuel (v - length nd) else mret v
  end.

Definition setPosition (v : nat) : BA unit :=
  b ← get;
  if (m_capacity b <? v)%nat then throw out_of_range else
  modify (set_pos v) ;;
  grow_size ;;
  modify (set_cur (Some 0%nat)) ;;
  v ← seek (S (length (m_nodes b))) v;
  '(_, nd) ← cur_node;
  when (v =? length nd)%nat advance.


(** ** Fixed-width integers

    [write_int n v] is the common body of the [writeF*int*] functions of an
    [n]-byte type; [v] is the value after the conditional [byteswap]. *)
Definition swapped (b : ByteArray) : bool := negb (m_endian b =? PHASE0_BYTE_ORDER host).

Definition writeFint8 (value : Z) : BA unit := write (store host 1 value).
Definition writeFuint8 (value : Z) : BA unit := write (store host 1 value).

Definition writeFuint (n : nat) (value : Z) : BA unit :=
  b ← get;
  let value := if swapped b then byteswap n value else value in
  write (store host n value).
Definition writeFint (n : nat) (value : Z) : BA unit :=
  b ← get;
  let value := if swapped b then byteswap_signed n value else value in
  write (store host n value).

Definition writeFint16 : Z -> BA unit := writeFint 2.
Definition writeFuint16 : Z -> BA unit := writeFuint 2.
Definition writeFint32 : Z -> BA unit := writeFint 4.
Definition writeFuint32 : Z -> BA unit := writeFuint 4.
Definition writeFint64 : Z -> BA unit := writeFint 8.
Definition writeFuint64 : Z -> BA unit := writeFuint 8.

Definition readFint8 : BA Z := bs ← read 1; mret (swrap 8 (load host bs)).
Definition readFuint8 : BA Z := bs ← read 1; mret (load host bs).

(** The macro [XX(type)] of the readers, at an unsigned and at a signed type. *)
Definition readFuint (n : nat) : BA Z :=
  bs ← read (Z.of_nat n);
  b ← get;
  let v := load host bs in
  mret (if swapped b then byteswap n v else v).
Definition readFint (n : nat) : BA Z :=
  bs ← read (Z.of_nat n);
  b ← get;
  let v := swrap (8 * Z.of_nat n) (load host bs) in
  mret (if swapped b then byteswap_signed n v else v).

Definition readFint16 : BA Z := readFint 2.
Definition readFuint16 : BA Z := readFuint 2.
Definition readFint32 : BA Z := readFint 4.
Definition readFuint32 : BA Z := readFuint 4.
Definition readFint64 : BA Z := readFint 8.
Definition readFuint64 : BA Z := readFuint 8.

(** ** Zigzag and base-128 integers

    [-v] and [v * 2] are [int] (resp. [int64_t]) operations; an overflow wraps,
    as the machine does. *)
Definition EncodeZigzag32 (v : Z) : Z :=
  if v <? 0 then u32 (u32 (i32 (- v)) * 2 - 1) else u32 (i32 (v * 2)).
Definition EncodeZigzag64 (v : Z) : Z :=
  if v <? 0 then u64 (u64 (i64 (- v)) * 2 - 1) else u64 (i64 (v * 2)).
Definition DecodeZigzag32 (v : Z) : Z :=
  i32 (Z.lxor (Z.shiftr v 1) (u32 (- Z.land v 1))).
Definition DecodeZigzag64 (v : Z) : Z :=
  i64 (Z.lxor (Z.shiftr v 1) (u64 (- Z.land v 1))).

(** The loop filling [tmp]; [room] is what is left of the array. *)
Fixpoint varint_bytes (room : nat) (value : Z) : res str :=
  match room with
  | O => Crash OutOfBounds
  | S room =>
      if 128 <=? value then
        match varint_bytes room (Z.shiftr value 7) with
        | Ok bs => Ok (z2b (Z.lor (Z.land value 127) 128) :: bs)
        | e => e
        end
      else Ok [z2b value]
  end.

Definition write_varint (room : nat) (value : Z) : BA unit :=
  match varint_bytes room value with
  | Ok bs => write bs
  | Throw e => throw e
  | Crash c => crashed c
  end.
Definition writeUint32 (value : Z) : BA unit := write_varint 5 value.
Definition writeUint64 (value : Z) : BA unit := write_varint 10 value.
Definition writeInt32 (value : Z) : BA unit := writeUint32 (EncodeZigzag32 value).
Definition writeInt64 (value : Z) : BA unit := writeUint64 (EncodeZigzag64 value).

(** The loop [for (int i = 0; i < w; i += 7)] of the [w]-bit reader. *)
Fixpoint read_varint (fuel : nat) (w i result : Z) : BA Z :=
  match fuel with
  | O => crashed OutOfFuel
  | S fuel =>
      if i <? w then
        b ← readFuint8;
        if b <? 128 then mret (Z.lor result (wrap w (Z.shiftl b i)))
        else read_varint fuel w (i + 7) (Z.lor result (wrap w (Z.shiftl (Z.land b 127) i)))
      else mret result
  end.
Definition readUint32 : BA Z := read_varint 6 32 0 0.
Definition readUint64 : BA Z := read_varint 11 64 0 0.
Definition readInt32 : BA Z := v ← readUint32; mret (DecodeZigzag32 v).
Definition readInt64 : BA Z := v ← readUint64; mret (DecodeZigzag64 v).

(** ** Floats, by their bit pattern ([memcpy] to and from an integer) *)
Definition writeFloat (bits : Z) : BA unit := writeFuint32 bits.
Definition writeDouble (bits : Z) : BA unit := writeFuint64 bits.
Definition readFloat : BA Z := readFuint32.
Definition readDouble : BA Z := readFuint64.

(** ** Strings *)
Definition slen (s : str) : Z := Z.of_nat (length s).
Definition writeStringF16 (value : str) : BA unit :=
  writeFuint16 (u16 (slen value)) ;; write value.
Definition writeStringF32 (value : str) : BA unit :=
  writeFuint32 (u32 (slen value)) ;; write value.
Definition writeStringF64 (value : str) : BA unit :=
  writeFuint64 (u64 (slen value)) ;; write value.
Definition writeStringVint (value : str) : BA unit :=
  writeUint64 (u64 (slen value)) ;; write value.
Definition writeStringWithoutLength (value : str) : BA unit := write value.

Definition readStringF16 : BA str := len ← readFuint16; read len.
Definition readStringF32 : BA str := len ← readFuint32; read len.
Definition readStringF64 : BA str := len ← readFuint64; read len.
Definition readStringVint : BA str := len ← readUint64; read len.

(** ** Printing *)
Definition toString (b : ByteArray) : res str :=
  if (getReadSize b =? 0)%nat then Ok []
  else read_at (Z.of_nat (getReadSize b)) (Z.of_nat (m_position b)) b.

Definition hex_digit (d : Z) : byte := z2b (if d <? 10 then 48 + d else 87 + d).

(** One [ss << setw(2) << setfill('0') << hex << c << " "]. *)
Definition hex_byte (c : byte) : str := [hex_digit (b2z c / 16); hex_digit (b2z c mod 16); z2b 32].

Definition toHexString (b : ByteArray) : res str :=
  match toString b with
  | Ok s => Ok (concat (imap (fun i c =>
      (if (0 <? i)%nat && (i mod 32 =? 0)%nat then [z2b 10] else []) ++ hex_byte c) s))
  | e => e
  end.

(** ** Scatter/gather lists

    An [iovec] is a block, an offset in it and a length; the loop that builds
    them is the same text in the three functions. *)
Record iovec := mkIovec { iov_node : nat; iov_off : nat; iov_len : nat }.

Fixpoint iov_loop (fuel : nat) (b : ByteArray) (cur : option nat) (npos ncap len : nat)
    : res (list iovec) :=
  match fuel with
  | O => Crash OutOfFuel
  | S fuel =>
      if (len =? 0)%nat then Ok []
      else
        match deref b cur with
        | Ok (i, _) =>
            if (len <=? ncap)%nat then
              match iov_loop fuel b cur npos ncap 0 with
              | Ok l => Ok (mkIovec i npos len :: l)
              | e => e
              end
            else
              match deref b (next b i) with
              | Ok (j, nd') =>
                  match iov_loop fuel b (Some j) 0 (length nd') (len - ncap) with
                  | Ok l => Ok (mkIovec i npos ncap :: l)
                  | e => e
                  end
              | Throw e => Throw e
              | Crash c => Crash c
              end
        | Throw e => Throw e
        | Crash c => Crash c
        end
  end.

(** From the cursor; the result is the returned size and the entries pushed. *)
Definition getReadBuffers (len : nat) (b : ByteArray) : res (nat * list iovec) :=
  let len := if (getReadSize b <? len)%nat then getReadSize b else len in
  if (len =? 0)%nat then Ok (0%nat, []) else
  if (m_baseSize b =? 0)%nat then Crash Undefined else
  let npos := (m_position b mod m_baseSize b)%nat in
  match deref b (m_cur b) with
  | Ok (_, nd) =>
      match iov_loop (S (S len)) b (m_cur b) npos (length nd - npos) len with
      | Ok l => Ok (len, l)
      | Throw e => Throw e
      | Crash c => Crash c
      end
  | Throw e => Throw e
  | Crash c => Crash c
  end.

(** [while (count > 0) cur = cur->next] of the positioned variant. *)
Fixpoint walk (b : ByteArray) (count : nat) (cur : option nat) : res (option nat) :=
  match count with
  | O => Ok cur
  | S count =>
      match deref b cur with
      | Ok (i, _) => walk b count (next b i)
      | Throw e => Throw e
      | Crash c => Crash c
      end
  end.

Definition getReadBuffers_at (len position : nat) (b : ByteArray) : res (nat * list iovec) :=
  let len := if (getReadSize b <? len)%nat then getReadSize b else len in
  if (len =? 0)%nat then Ok (0%nat, []) else
  if (m_baseSize b =? 0)%nat then Crash Undefined else
  let npos := (position mod m_baseSize b)%nat in
  match walk b (position / m_baseSize b) (Some 0%nat) with
  | Ok cur =>
      match deref b cur with
      | Ok (_, nd) =>
          match iov_loop (S (S len)) b cur npos (length nd - npos) len with
          | Ok l => Ok (len, l)
          | Throw e => Throw e
          | Crash c => Crash c
          end
      | Throw e => Throw e
      | Crash c => Crash c
      end
  | Throw e => Throw e
  | Crash c => Crash c
  end.

Definition getWriteBuffers (len : nat) : BA (nat * list iovec) :=
  if (len =? 0)%nat then mret (0%nat, []) else
  addCapacity len ;;
  b ← get;
  if (m_baseSize b =? 0)%nat then crashed Undefined else
  let npos := (m_position b mod m_baseSize b)%nat in
  '(_, nd) ← cur_node;
  match iov_loop (S (S len)) b (m_cur b) npos (length nd - npos) len with
  | Ok l => mret (len, l)
  | Throw e => throw e
  | Crash c => crashed c
  end.

(** ** Files *)

(** The loop of [writeToFile]: the [ofs.write(cur->ptr + diff, len)] calls it
    makes, as (block, offset, length); [diff] is an [int], [len] an [int64_t]. *)
Fixpoint dump_loop (fuel : nat) (b : ByteArray) (cur : option nat) (pos read_size : Z)
    : res (list (nat * Z * Z)) :=
  match fuel with
  | O => Crash OutOfFuel
  | S fuel =>
      if 0 <? read_size then
        let base := Z.of_nat (m_baseSize b) in
        let diff := i32 (u64 pos mod base) in
        let len := i64 ((if base <? read_size then base else read_size) - diff) in
        match deref b cur with
        | Ok (i, _) =>
            match dump_loop fuel b (next b i) (pos + len) (read_size - len) with
            | Ok l => Ok ((i, diff, len) :: l)
            | e => e
            end
        | Throw e => Throw e
        | Crash c => Crash c
        end
      else Ok []
  end.

(** [opened]: whether [ofs.open] succeeded.  The result is the returned flag
    and the writes. *)
Definition writeToFile (fuel : nat) (opened : bool) (b : ByteArray)
    : res (bool * list (nat * Z * Z)) :=
  if negb opened then Ok (false, []) else
  if (m_baseSize b =? 0)%nat then Crash Undefined else
  match dump_loop fuel b (m_cur b) (Z.of_nat (m_position b)) (Z.of_nat (getReadSize b)) with
  | Ok l => Ok (true, l)
  | Throw e => Throw e
  | Crash c => Crash c
  end.

(** [while (!ifs.eof()) { ifs.read(buff, base); write(buff, ifs.gcount()); }]:
    a read that finds fewer than [m_baseSize] bytes sets the end-of-file flag. *)
Fixpoint slurp_loop (fuel : nat) (rest : str) : BA unit :=
  match fuel with
  | O => crashed OutOfFuel
  | S fuel =>
      b ← get;
      let chunk := take (m_baseSize b) rest in
      write chunk ;;
      if (length chunk <? m_baseSize b)%nat then mret tt
      else slurp_loop fuel (drop (m_baseSize b) rest)
  end.

(** [file]: the bytes of the named file, [None] when it cannot be opened. *)
Definition readFromFile (file : option str) : BA bool :=
  match file with
  | None => mret false
  | Some s => slurp_loop (S (length s)) s ;; mret true
  end.
End ByteArray.

