(* ===== verification/ByteArraySpec.v ===== *)
(** * ByteArray: the contract and its proofs

    The invariant [wf] of the block list and the cursor; the refinement of
    [write] and [read] to operations on one byte string with a position; the
    round trips of the encoders; the gather/scatter lists; the file transfers. *)

From S2P Require Import Prelude Endians ByteArray.
#[local] Set Default Goal Selector "!".

(** ** The invariant *)

(** The block the cursor is in at position [p]: none when [p] is the end. *)
Definition cur_at (n base p : nat) : option nat :=
  if (p / base <? n)%nat then Some (p / base)%nat else None.

Record wf (b : ByteArray) : Prop := {
  wf_base : (0 < m_baseSize b)%nat;
  wf_nodes : (0 < length (m_nodes b))%nat;
  wf_uniform : uniform (m_baseSize b) (m_nodes b);
  wf_capacity : m_capacity b = (m_baseSize b * length (m_nodes b))%nat;
  wf_position : (m_position b <= m_size b)%nat;
  wf_size : (m_size b <= m_capacity b)%nat;
  wf_cur : m_cur b = cur_at (length (m_nodes b)) (m_baseSize b) (m_position b)
}.

(** The bytes the array holds, as one string. *)
Definition data (b : ByteArray) : str := concat (m_nodes b).
Definition content (b : ByteArray) : str := take (m_size b) (data b).

Lemma div_block i base p : (p < base)%nat -> ((i * base + p) / base = i)%nat.
Proof. intros. rewrite Nat.div_add_l, Nat.div_small by lia. lia. Qed.

Lemma mod_block i base p : (p < base)%nat -> ((i * base + p) mod base = p)%nat.
Proof. intros. rewrite Nat.add_comm, Nat.Div0.mod_add. by apply Nat.mod_small. Qed.

Lemma pos_split base p : (0 < base)%nat -> p = (p / base * base + p mod base)%nat.
Proof. intros. rewrite Nat.mul_comm. apply Nat.div_mod_eq. Qed.

Lemma cur_at_in n base i p :
  (p < base)%nat -> (i < n)%nat -> cur_at n base (i * base + p) = Some i.
Proof. intros. unfold cur_at. rewrite div_block by done. by destruct (Nat.ltb_spec i n); [|lia]. Qed.

Lemma cur_at_next n base i :
  (0 < base)%nat -> cur_at n base (S i * base) = if (S i <? n)%nat then Some (S i) else None.
Proof. intros. unfold cur_at. by rewrite Nat.div_mul by lia. Qed.

Lemma uniform_lookup {A} base (ls : list (list A)) i l :
  uniform base ls -> ls !! i = Some l -> length l = base.
Proof. intros Hu Hi. exact (Forall_lookup_1 _ _ _ _ Hu Hi). Qed.

Section runs.
Context (b : ByteArray) (i : nat) (nd : str).
Context (Hcur : m_cur b = Some i) (Hnd : m_nodes b !! i = Some nd).

Lemma cur_node_ok : cur_node b = (Ok (i, nd), b).
Proof. unfold cur_node, deref. by rewrite Hcur, Hnd. Qed.

Lemma advance_ok : advance b = (Ok tt, set_cur (next b i) b).
Proof. unfold advance. by rewrite (bind_ok _ _ _ _ _ cur_node_ok). Qed.

Lemma memcpy_in_ok npos bs :
  (npos + length bs <= length nd)%nat ->
  memcpy_in npos bs b = (Ok tt, set_nodes (<[i := splice npos bs nd]> (m_nodes b)) b).
Proof.
  intros. unfold memcpy_in. rewrite (bind_ok _ _ _ _ _ cur_node_ok).
  by destruct (Nat.leb_spec (npos + length bs) (length nd)); [|lia].
Qed.
End runs.

(** What the write loop does to the object: the run of bytes is spliced into the
    blocks, position and cursor move past it, everything else stays. *)
Definition wrote (bs : str) (b b' : ByteArray) : Prop :=
  let p := (m_position b + length bs)%nat in
  uniform (m_baseSize b) (m_nodes b') /\
  length (m_nodes b') = length (m_nodes b) /\
  data b' = splice (m_position b) bs (data b) /\
  b' = set_cur (cur_at (length (m_nodes b)) (m_baseSize b) p)
         (set_pos p (set_nodes (m_nodes b') b)).

(** One [memcpy] into the current block. *)
Lemma memcpy_block b i npos bs :
  uniform (m_baseSize b) (m_nodes b) -> (i < length (m_nodes b))%nat ->
  m_cur b = Some i -> m_position b = (i * m_baseSize b + npos)%nat ->
  (npos + length bs <= m_baseSize b)%nat ->
  exists nodes,
    memcpy_in npos bs b = (Ok tt, set_nodes nodes b) /\
    uniform (m_baseSize b) nodes /\ length nodes = length (m_nodes b) /\
    concat nodes = splice (m_position b) bs (data b).
Proof.
  intros Hu Hi Hcur Hp Hlen. destruct (lookup_lt_is_Some_2 _ _ Hi) as [nd Hnd].
  pose proof (uniform_lookup _ _ _ _ Hu Hnd).
  exists (<[i := splice npos bs nd]> (m_nodes b)). split_and!.
  - apply memcpy_in_ok; [done..|lia].
  - by apply uniform_splice.
  - apply length_insert.
  - rewrite Hp. by apply concat_splice.
Qed.

(** The pointer is non-null and the block has the block size. *)
Lemma cur_block b i :
  uniform (m_baseSize b) (m_nodes b) -> (i < length (m_nodes b))%nat -> m_cur b = Some i ->
  exists nd, m_nodes b !! i = Some nd /\ length nd = m_baseSize b /\
    cur_node b = (Ok (i, nd), b) /\ advance b = (Ok tt, set_cur (next b i) b).
Proof.
  intros Hu Hi Hcur. destruct (lookup_lt_is_Some_2 _ _ Hi) as [nd Hnd]. exists nd.
  split_and!; [done|by eapply uniform_lookup|by eapply cur_node_ok|by eapply advance_ok].
Qed.

(** After moving [n] bytes inside block [i], the source's test and step leave
    the cursor where [cur_at] says. *)
Lemma step_cursor b i npos n :
  uniform (m_baseSize b) (m_nodes b) -> (i < length (m_nodes b))%nat -> m_cur b = Some i ->
  (npos + n <= m_baseSize b)%nat -> (0 < m_baseSize b)%nat ->
  when (m_baseSize b =? npos + n)%nat advance b =
  (Ok tt, set_cur (cur_at (length (m_nodes b)) (m_baseSize b) (i * m_baseSize b + npos + n)) b).
Proof.
  intros Hu Hi Hcur Hn Hb. destruct (cur_block b i Hu Hi Hcur) as (nd & _ & _ & _ & Hadv).
  unfold when. destruct (Nat.eqb_spec (m_baseSize b) (npos + n)) as [He|He].
  - rewrite Hadv. do 2 f_equal. rewrite <- Nat.add_assoc, <- He.
    replace (i * m_baseSize b + m_baseSize b)%nat with (S i * m_baseSize b)%nat by lia.
    by rewrite cur_at_next.
  - rewrite <- Nat.add_assoc, cur_at_in by lia. rewrite <- Hcur. by destruct b.
Qed.

Lemma next_in b i : (S i < length (m_nodes b))%nat -> next b i = Some (S i).
Proof. intros. unfold next. by destruct (Nat.ltb_spec (S i) (length (m_nodes b))); [|lia]. Qed.

(** [fits b i npos n]: the cursor is at offset [npos] of block [i], and [n] bytes
    fit between it and the end of the blocks. *)
Record fits (b : ByteArray) (i npos n : nat) : Prop := {
  fits_uniform : uniform (m_baseSize b) (m_nodes b);
  fits_off : (npos < m_baseSize b)%nat;
  fits_cur : m_cur b = Some i;
  fits_block : (i < length (m_nodes b))%nat;
  fits_pos : m_position b = (i * m_baseSize b + npos)%nat;
  fits_room : (m_position b + n <= m_baseSize b * length (m_nodes b))%nat
}.

Lemma write_loop_last fuel buf npos bpos size b i :
  fits b i npos size -> (0 < size)%nat -> (size <= m_baseSize b - npos)%nat ->
  (bpos + size <= length buf)%nat ->
  exists b', write_loop (S (S fuel)) buf npos (m_baseSize b - npos) bpos size b = (Ok tt, b') /\
             wrote (slice bpos size buf) b b'.
Proof.
  intros [Hu Hn Hcur Hi Hp Hroom] Hs Hcap Hbuf.
  assert (Hbs : length (slice bpos size buf) = size) by (apply length_slice; lia).
  destruct (memcpy_block b i npos (slice bpos size buf)) as (nodes & Hm & Hu' & Hl & Hd);
    [done..|lia|].
  set (b1 := set_nodes nodes b).
  destruct (cur_block b1 i) as (nd & _ & Hnd & Hc & _); [done|simpl; lia|done|].
  cbn [write_loop]. destruct (Nat.eqb_spec size 0); [lia|].
  destruct (Nat.leb_spec size (m_baseSize b - npos)); [|lia].
  rewrite (bind_ok _ _ _ _ _ Hm), (bind_ok _ _ _ _ _ Hc), Hnd. cbv beta iota.
  rewrite (bind_ok _ _ _ _ _ (step_cursor b1 i npos size Hu' ltac:(simpl; lia) Hcur
    ltac:(simpl; lia) ltac:(simpl; lia))).
  eexists. split; [reflexivity|]. unfold wrote. rewrite Hbs. split_and!; simpl; [done..|].
  rewrite Hp, Hl. done.
Qed.

Lemma write_loop_step fuel buf npos bpos size b i :
  fits b i npos size -> (m_baseSize b - npos < size)%nat -> (bpos + size <= length buf)%nat ->
  let ncap := (m_baseSize b - npos)%nat in
  exists b1, wrote (slice bpos ncap buf) b b1 /\ fits b1 (S i) 0 (size - ncap) /\
    write_loop (S fuel) buf npos ncap bpos size b =
    write_loop fuel buf 0 (m_baseSize b1 - 0) (bpos + ncap) (size - ncap) b1.
Proof.
  intros [Hu Hn Hcur Hi Hp Hroom] Hcap Hbuf ncap.
  assert (Hbs : length (slice bpos ncap buf) = ncap) by (apply length_slice; lia).
  destruct (memcpy_block b i npos (slice bpos ncap buf)) as (nodes & Hm & Hu' & Hl & Hd);
    [done..|lia|].
  assert (Hi' : (S i < length nodes)%nat) by nia.
  set (b1 := set_pos (m_position b + ncap) (set_nodes nodes b)).
  set (b2 := set_cur (Some (S i)) b1).
  destruct (cur_block b1 i) as (_ & _ & _ & _ & Hadv); [done|simpl; lia|done|].
  destruct (cur_block b2 (S i)) as (nd & _ & Hnd & Hc & _); [done|done|done|].
  rewrite next_in in Hadv by done.
  assert (Hpos : (m_position b + ncap = S i * m_baseSize b)%nat) by lia.
  exists b2. split_and!.
  - unfold wrote. rewrite Hbs. split_and!; simpl; [done..|].
    rewrite <- Hl, Hpos, cur_at_next by lia.
    destruct (Nat.ltb_spec (S i) (length nodes)); [|lia]. unfold b2, b1. by rewrite Hpos.
  - split; simpl; try done; lia.
  - cbn [write_loop]. destruct (Nat.eqb_spec size 0); [lia|].
    destruct (Nat.leb_spec size ncap); [lia|].
    rewrite (bind_ok _ _ _ _ _ Hm), (bind_ok (modify _) _ _ tt b1) by done.
    rewrite (bind_ok _ _ _ _ _ Hadv), (bind_ok _ _ _ _ _ Hc), Hnd.
    by rewrite Nat.sub_0_r.
Qed.

Lemma wrote_trans b1 b2 b b' :
  (m_position b + length b1 <= length (data b))%nat ->
  forall bm, wrote b1 b bm -> wrote b2 bm b' -> wrote (b1 ++ b2) b b'.
Proof.
  intros Hlen bm (Hu & Hl & Hd & Hb) (Hu' & Hl' & Hd' & Hb').
  unfold wrote. rewrite Hb in Hu', Hl', Hd', Hb'. unfold data in *. simpl in *.
  rewrite length_app, Nat.add_assoc. split_and!; [done|lia| |].
  - rewrite Hd', Hd, splice_app by (unfold data in *; lia). done.
  - rewrite Hb' at 1. unfold set_cur, set_pos, set_nodes. simpl. by rewrite Hl.
Qed.

Lemma write_loop_spec fuel buf npos bpos size b i :
  (size + 2 <= fuel)%nat -> (0 < size)%nat -> fits b i npos size ->
  (bpos + size <= length buf)%nat ->
  exists b', write_loop fuel buf npos (m_baseSize b - npos) bpos size b = (Ok tt, b') /\
             wrote (slice bpos size buf) b b'.
Proof.
  revert npos bpos size b i. induction fuel as [|fuel IH]; [lia|].
  intros npos bpos size b i Hf Hs Hfit Hbuf. pose proof (fits_off _ _ _ _ Hfit).
  destruct (Nat.le_gt_cases size (m_baseSize b - npos)).
  - destruct fuel as [|fuel]; [lia|]. by eapply write_loop_last.
  - destruct (write_loop_step fuel buf npos bpos size b i) as (b1 & Hw & Hfit1 & Hrun);
      [done..|]. rewrite Hrun.
    destruct (IH 0%nat (bpos + (m_baseSize b - npos))%nat (size - (m_baseSize b - npos))%nat
                b1 (S i)) as (b' & Hrun' & Hw'); [lia|lia|done|lia|].
    exists b'. split; [done|].
    replace size with ((m_baseSize b - npos) + (size - (m_baseSize b - npos)))%nat at 1 by lia.
    rewrite slice_add. eapply wrote_trans; [|done|done].
    pose proof (fits_room _ _ _ _ Hfit). unfold data.
    rewrite (length_concat_uniform _ _ (fits_uniform _ _ _ _ Hfit)), length_slice; lia.
Qed.

(** ** The contract

    Seen from outside, the array is a byte string and a position in it. *)
Definition view (b : ByteArray) : str * nat := (content b, m_position b).

Definition spec_write (bs : str) (v : str * nat) : str * nat :=
  let '(c, p) := v in (splice p bs c, (p + length bs)%nat).

(** [keeps b b']: the fields no write or read touches. *)
Definition keeps (b b' : ByteArray) : Prop :=
  m_baseSize b' = m_baseSize b /\ m_endian b' = m_endian b.

Lemma ceil_div_ge a b : (0 < b)%nat -> (a <= ceil_div a b * b)%nat.
Proof.
  intros Hb. unfold ceil_div. pose proof (Nat.div_mod_eq (a + b - 1) b).
  pose proof (Nat.mod_upper_bound (a + b - 1) b). nia.
Qed.

Lemma length_data b : wf b -> length (data b) = m_capacity b.
Proof.
  intros H. unfold data. rewrite (length_concat_uniform _ _ (wf_uniform b H)).
  by rewrite (wf_capacity b H).
Qed.

Lemma length_content b : wf b -> length (content b) = m_size b.
Proof.
  intros H. unfold content. rewrite length_take, length_data by done.
  pose proof (wf_size b H). lia.
Qed.

(** With room for a byte, the cursor is in a block. *)
Lemma wf_fits b n :
  wf b -> (0 < n)%nat -> (m_position b + n <= m_capacity b)%nat ->
  fits b (m_position b / m_baseSize b) (m_position b mod m_baseSize b) n.
Proof.
  intros [Hb Hn Hu Hc Hp Hs Hcur] Hn0 Hroom.
  pose proof (pos_split (m_baseSize b) (m_position b) Hb) as Hsplit.
  assert (Hlt : (m_position b / m_baseSize b < length (m_nodes b))%nat)
    by (apply Nat.Div0.div_lt_upper_bound; lia).
  split; [done|apply Nat.mod_upper_bound; lia| |done|done|lia].
  rewrite Hcur. unfold cur_at.
  by destruct (Nat.ltb_spec (m_position b / m_baseSize b) (length (m_nodes b))); [|lia].
Qed.

Lemma spec_write_app b1 b2 c p :
  (p <= length c)%nat -> spec_write (b1 ++ b2) (c, p) = spec_write b2 (spec_write b1 (c, p)).
Proof. intros. simpl. rewrite splice_app, length_app by done. f_equal. lia. Qed.

Section contract.
Context (uninit : nat -> nat -> byte).

Lemma new_ByteArray_wf n : (0 < n)%nat -> wf (new_ByteArray uninit n).
Proof.
  intros Hn. split; simpl; try lia.
  - constructor; [|constructor]. unfold Node. by rewrite length_fmap, length_seq.
  - unfold cur_at. by rewrite Nat.Div0.div_0_l.
Qed.

Lemma fresh_uniform base n count :
  uniform base ((fun k => Node uninit (n + k) base) <$> seq 0 count).
Proof.
  apply Forall_fmap, Forall_forall. intros k _. simpl.
  unfold Node. by rewrite length_fmap, length_seq.
Qed.

Lemma addCapacity_spec b n :
  wf b -> (0 < n)%nat ->
  exists b', addCapacity uninit n b = (Ok tt, b') /\ wf b' /\ keeps b b' /\
    m_position b' = m_position b /\ m_size b' = m_size b /\
    (exists ext, data b' = data b ++ ext) /\ (m_position b + n <= m_capacity b')%nat.
Proof.
  intros Hwf Hn. pose proof Hwf as [Hb Hnn Hu Hc Hp Hs Hcur].
  unfold addCapacity. destruct (Nat.eqb_spec n 0); [lia|].
  rewrite (bind_ok get _ b b b) by done. unfold getCapacity.
  destruct (Nat.leb_spec n (m_capacity b - m_position b)).
  { exists b. split_and!; try done; [exists []; by rewrite app_nil_r|lia]. }
  destruct (Nat.eqb_spec (m_baseSize b) 0); [lia|].
  set (old := (m_capacity b - m_position b)%nat).
  set (count := ceil_div (n - old) (m_baseSize b)).
  set (fresh := (fun k => Node uninit (length (m_nodes b) + k) (m_baseSize b)) <$> seq 0 count).
  pose proof (ceil_div_ge (n - old) (m_baseSize b) Hb) as Hceil. fold count in Hceil.
  assert (Hcount : (0 < count)%nat) by nia.
  assert (Hfl : length fresh = count) by (unfold fresh; by rewrite length_fmap, length_seq).
  eexists. split; [reflexivity|]. split_and!; simpl; try done.
  - split; simpl; rewrite ?length_app, ?Hfl; try lia.
    + apply Forall_app. split; [done|apply fresh_uniform].
    + unfold cur_at. unfold cur_at in Hcur.
      pose proof (pos_split (m_baseSize b) (m_position b) Hb).
      destruct (Nat.eqb_spec old 0).
      * assert (m_position b = length (m_nodes b) * m_baseSize b)%nat as -> by lia.
        rewrite Nat.div_mul by lia.
        by destruct (Nat.ltb_spec (length (m_nodes b)) (length (m_nodes b) + count)); [|lia].
      * rewrite Hcur.
        assert (m_position b / m_baseSize b < length (m_nodes b))%nat
          by (apply Nat.Div0.div_lt_upper_bound; lia).
        do 2 (case_match; try done); rewrite ?Nat.ltb_lt, ?Nat.ltb_ge in *; lia.
  - exists (concat fresh). unfold data. simpl. apply concat_app.
  - lia.
Qed.

(** Refinement: [write] never fails, keeps the invariant, and acts on the byte
    string as an overwrite-and-extend at the position. *)
Lemma write_refines b bs :
  wf b -> exists b', write uninit bs b = (Ok tt, b') /\ wf b' /\ keeps b b' /\
    view b' = spec_write bs (view b).
Proof.
  intros Hwf. unfold write. destruct (Nat.eqb_spec (length bs) 0) as [H0|H0].
  { apply length_zero_iff_nil in H0 as ->. exists b. split_and!; try done.
    unfold view, spec_write. by rewrite splice_nil, Nat.add_0_r. }
  destruct (addCapacity_spec b (length bs) Hwf) as
    (b1 & Hadd & Hwf1 & [Hbase He] & Hpos & Hsz & [ext Hext] & Hroom); [lia|].
  rewrite (bind_ok _ _ _ _ _ Hadd), (bind_ok get _ b1 b1 b1) by done. cbv beta.
  pose proof Hwf1 as [Hb Hnn Hu Hc Hp Hs Hcur].
  destruct (Nat.eqb_spec (m_baseSize b1) 0); [lia|].
  pose proof (wf_fits b1 (length bs) Hwf1 ltac:(lia) ltac:(lia)) as Hfit.
  destruct (cur_block b1 _ Hu (fits_block _ _ _ _ Hfit) (fits_cur _ _ _ _ Hfit))
    as (nd & _ & Hnd & Hc' & _).
  rewrite (bind_ok _ _ _ _ _ Hc'), Hnd. cbv beta iota.
  destruct (write_loop_spec (S (S (length bs))) bs _ 0 (length bs) b1 _ ltac:(lia) ltac:(lia)
    Hfit ltac:(lia)) as (b2 & Hrun & Hw).
  rewrite (bind_ok _ _ _ _ _ Hrun), slice_all in * by done.
  destruct Hw as (Hu2 & Hl2 & Hd2 & Hb2).
  set (sz := (m_size b `max` (m_position b + length bs))%nat).
  assert (Hfin : grow_size b2 = (Ok tt, set_size sz b2)).
  { unfold grow_size, modify. rewrite Hb2. simpl. unfold sz. rewrite Hpos, Hsz.
    destruct (Nat.ltb_spec (m_size b) (m_position b + length bs)).
    - do 2 f_equal. lia.
    - unfold set_size, set_cur, set_pos, set_nodes. simpl. repeat f_equal. lia. }
  eexists. split; [apply Hfin|].
  assert (Hdata : data (set_size sz b2) = splice (m_position b) bs (data b ++ ext)).
  { unfold data at 1. simpl. change (concat (m_nodes b2)) with (data b2).
    by rewrite Hd2, Hpos, Hext. }
  assert (Hdl : length (data b ++ ext) = m_capacity b1) by (rewrite <- Hext; by apply length_data).
  assert (Hcap : (sz <= m_capacity b1)%nat) by lia.
  split_and!.
  - rewrite Hb2. split; simpl; try done; try lia; try congruence.
  - split; rewrite Hb2; simpl; congruence.
  - unfold view, spec_write, content. rewrite Hdata. f_equal.
    + simpl. unfold sz. pose proof (wf_position b Hwf). pose proof (wf_size b Hwf).
      rewrite take_splice by lia.
      by rewrite take_app_le by (rewrite length_data by done; lia).
    + rewrite Hb2. simpl. by rewrite Hpos.
Qed.
End contract.

(** ** Reading *)

(** [moved n b]: the object after reading [n] bytes. *)
Definition moved (n : nat) (b : ByteArray) : ByteArray :=
  let p := (m_position b + n)%nat in
  set_cur (cur_at (length (m_nodes b)) (m_baseSize b) p) (set_pos p b).

Lemma slice_data b i npos n nd :
  uniform (m_baseSize b) (m_nodes b) -> m_nodes b !! i = Some nd ->
  m_position b = (i * m_baseSize b + npos)%nat -> (npos + n <= m_baseSize b)%nat ->
  slice npos n nd = slice (m_position b) n (data b).
Proof. intros Hu Hi -> Hn. symmetry. by apply slice_concat. Qed.

Lemma read_loop_spec fuel npos size acc b i :
  (size + 2 <= fuel)%nat -> (0 < size)%nat -> fits b i npos size ->
  read_loop fuel npos (m_baseSize b - npos) size acc b =
  (Ok (acc ++ slice (m_position b) size (data b)), moved size b).
Proof.
  revert npos size acc b i. induction fuel as [|fuel IH]; [lia|].
  intros npos size acc b i Hf Hs [Hu Hn Hcur Hi Hp Hroom].
  destruct (cur_block b i Hu Hi Hcur) as (nd & Hnd & Hl & Hc & _).
  cbn [read_loop]. destruct (Nat.eqb_spec size 0); [lia|].
  destruct (Nat.leb_spec size (m_baseSize b - npos)).
  - rewrite (bind_ok _ _ _ _ _ Hc), Hl. cbv beta iota.
    rewrite (bind_ok _ _ _ _ _ (step_cursor b i npos size Hu Hi Hcur ltac:(lia) ltac:(lia))).
    destruct fuel as [|fuel]; [lia|]. cbn [read_loop]. rewrite <- Hp.
    by rewrite (slice_data b i) by (done || lia).
  - set (ncap := (m_baseSize b - npos)%nat) in *.
    set (b1 := set_pos (m_position b + ncap) b). set (b2 := set_cur (Some (S i)) b1).
    assert (Hi' : (S i < length (m_nodes b))%nat) by nia.
    destruct (cur_block b1 i Hu Hi Hcur) as (_ & _ & _ & _ & Hadv).
    destruct (cur_block b2 (S i) Hu Hi' eq_refl) as (nd' & _ & Hl' & Hc' & _).
    rewrite next_in in Hadv by done.
    rewrite (bind_ok _ _ _ _ _ Hc), (bind_ok (modify _) _ b tt b1) by done.
    rewrite (bind_ok _ _ _ _ _ Hadv), (bind_ok _ _ _ _ _ Hc'), Hl'. cbv beta iota.
    pose proof (IH 0%nat (size - ncap)%nat (acc ++ slice npos ncap nd) b2 (S i)) as IH'.
    rewrite Nat.sub_0_r in IH'. rewrite IH'; [|lia|lia|split; simpl; try done; lia].
    rewrite (slice_data b i) by (done || lia). unfold moved, b2, b1. simpl.
    replace (m_position b + ncap + (size - ncap))%nat with (m_position b + size)%nat by lia.
    do 2 f_equal. rewrite <- app_assoc, <- slice_add. do 2 f_equal. lia.
Qed.

Lemma slice_content b n :
  wf b -> (m_position b + n <= m_size b)%nat ->
  slice (m_position b) n (content b) = slice (m_position b) n (data b).
Proof.
  intros H Hn. unfold content, slice. rewrite skipn_firstn_comm, take_take.
  f_equal. lia.
Qed.

Lemma moved_wf b n : wf b -> (m_position b + n <= m_size b)%nat -> wf (moved n b).
Proof. intros [] Hn. by split. Qed.

(** [read] of at least one byte: out of range beyond the end, else the bytes. *)
Lemma read_refines b n :
  wf b -> (0 < n)%nat ->
  if (n <=? length (content b) - m_position b)%nat
  then read (Z.of_nat n) b = (Ok (slice (m_position b) n (content b)), moved n b) /\
       wf (moved n b)
  else read (Z.of_nat n) b = (Throw out_of_range, b).
Proof.
  intros H Hn. unfold read, getReadSize. rewrite length_content by done.
  pose proof H as [Hb Hnn Hu Hc Hp Hs Hcur].
  rewrite (bind_ok get _ b b b) by done. cbv beta.
  destruct (Nat.leb_spec n (m_size b - m_position b));
    destruct (Z.ltb_spec (Z.of_nat (m_size b - m_position b)) (Z.of_nat n)); try lia; [|done].
  split; [|apply moved_wf; [done|lia]].
  destruct (Nat.eqb_spec (m_baseSize b) 0); [lia|].
  pose proof (wf_fits b n H ltac:(lia) ltac:(lia)) as Hfit.
  destruct (cur_block b _ Hu (fits_block _ _ _ _ Hfit) (fits_cur _ _ _ _ Hfit))
    as (nd & _ & Hnd & Hc' & _).
  rewrite (bind_ok _ _ _ _ _ Hc'), Hnd, Nat2Z.id. cbv beta iota.
  rewrite (read_loop_spec (S (S n)) _ n [] b _ ltac:(lia) Hn Hfit). simpl.
  by rewrite slice_content by (done || lia).
Qed.

(** Reading nothing still dereferences the cursor: harmless inside a block, a
    null dereference when the position is at the end of the capacity. *)
Lemma read_zero b :
  wf b ->
  read 0 b = (if (m_position b =? m_capacity b)%nat then Crash NullDeref else Ok [], b).
Proof.
  intros H. unfold read. pose proof H as [Hb Hnn Hu Hc Hp Hs Hcur].
  rewrite (bind_ok get _ b b b) by done. cbv beta.
  destruct (Z.ltb_spec (Z.of_nat (getReadSize b)) 0); [lia|].
  destruct (Nat.eqb_spec (m_baseSize b) 0); [lia|].
  destruct (Nat.eqb_spec (m_position b) (m_capacity b)) as [He|He].
  - assert (Hnone : m_cur b = None).
    { rewrite Hcur, He, Hc. unfold cur_at. rewrite Nat.mul_comm, Nat.div_mul by lia.
      by destruct (Nat.ltb_spec (length (m_nodes b)) (length (m_nodes b))); [lia|]. }
    apply bind_crash. unfold cur_node, deref. by rewrite Hnone.
  - pose proof (wf_fits b 1 H ltac:(lia) ltac:(lia)) as Hfit.
    destruct (cur_block b _ Hu (fits_block _ _ _ _ Hfit) (fits_cur _ _ _ _ Hfit))
      as (nd & _ & _ & Hc' & _).
    by rewrite (bind_ok _ _ _ _ _ Hc').
Qed.

(** ** Moving the cursor *)

Lemma seek_spec fuel b i v :
  uniform (m_baseSize b) (m_nodes b) -> (0 < m_baseSize b)%nat ->
  m_cur b = Some i -> (i < length (m_nodes b))%nat ->
  (i * m_baseSize b + v <= m_baseSize b * length (m_nodes b))%nat -> (v < fuel * m_baseSize b)%nat ->
  exists j r, seek fuel v b = (Ok r, set_cur (Some j) b) /\ (j < length (m_nodes b))%nat /\
    (j * m_baseSize b + r = i * m_baseSize b + v)%nat /\ (r <= m_baseSize b)%nat.
Proof.
  revert b i v. induction fuel as [|fuel IH]; [lia|].
  intros b i v Hu Hb Hcur Hi Hv Hf.
  destruct (cur_block b i Hu Hi Hcur) as (nd & _ & Hl & Hc & Hadv).
  cbn [seek]. rewrite (bind_ok _ _ _ _ _ Hc), Hl. cbv beta iota.
  destruct (Nat.ltb_spec (m_baseSize b) v).
  - rewrite (bind_ok _ _ _ _ _ Hadv), next_in by nia.
    destruct (IH (set_cur (Some (S i)) b) (S i) (v - m_baseSize b)%nat) as (j & r & Hrun & ?);
      simpl in *; [done|lia|done|nia|nia|nia|].
    exists j, r. rewrite Hrun. split_and!; [done|lia..].
  - exists i, v. split_and!; [|done..|lia]. rewrite <- Hcur. by destruct b.
Qed.

(** [setPosition]: rejects a position past the capacity, and otherwise moves the
    cursor, extending the size when the position is past it. *)
Lemma setPosition_spec b v :
  wf b ->
  setPosition v b =
    if (m_capacity b <? v)%nat then (Throw out_of_range, b)
    else (Ok tt, set_cur (cur_at (length (m_nodes b)) (m_baseSize b) v)
                   (set_pos v (set_size (m_size b `max` v) b))).
Proof.
  intros [Hb Hn Hu Hc Hp Hs Hcur]. unfold setPosition.
  rewrite (bind_ok get _ b b b) by done. cbv beta.
  destruct (Nat.ltb_spec (m_capacity b) v); [done|].
  rewrite (bind_ok (modify _) _ b tt (set_pos v b)) by done.
  set (b1 := set_pos v (set_size (m_size b `max` v) b)).
  rewrite (bind_ok grow_size _ (set_pos v b) tt b1).
  2:{ unfold grow_size, modify. simpl. unfold b1.
      destruct (Nat.ltb_spec (m_size b) v).
      - do 2 f_equal. unfold set_size, set_pos. simpl. f_equal. lia.
      - unfold set_pos, set_size. simpl. rewrite Nat.max_l by lia. by destruct b. }
  set (b2 := set_cur (Some 0%nat) b1).
  rewrite (bind_ok (modify _) _ b1 tt b2) by done.
  destruct (seek_spec (S (length (m_nodes b))) b2 0 v) as (j & r & Hseek & Hj & Hjr & Hr);
    simpl; [done|lia|done|lia|lia|nia|].
  rewrite (bind_ok _ _ _ _ _ Hseek).
  set (b3 := set_cur (Some j) b2).
  destruct (cur_block b3 j Hu Hj eq_refl) as (nd & _ & Hl & Hc3 & _).
  rewrite (bind_ok _ _ _ _ _ Hc3), Hl, Nat.eqb_sym. cbv beta iota.
  pose proof (step_cursor b3 j 0 r Hu Hj eq_refl ltac:(simpl in *; lia) ltac:(simpl; lia)) as Hst.
  simpl in Hst, Hjr. rewrite Nat.add_0_r, Hjr in Hst. simpl. by rewrite Hst.
Qed.

Lemma setPosition_wf b v b' : wf b -> setPosition v b = (Ok tt, b') -> wf b'.
Proof.
  intros Hwf. rewrite setPosition_spec by done.
  destruct (Nat.ltb_spec (m_capacity b) v); intros ?; simplify_eq.
  destruct Hwf. split; simpl; try done; lia.
Qed.

Lemma clear_wf b : wf b -> exists b', clear b = (Ok tt, b') /\ wf b' /\ keeps b b' /\ view b' = ([], 0%nat).
Proof.
  intros [Hb Hn Hu Hc Hp Hs Hcur]. eexists. split; [reflexivity|].
  assert (Hl : length (take 1 (m_nodes b)) = 1%nat) by (rewrite length_take; lia).
  split; [|done]. split; simpl; rewrite ?Hl; try lia.
  - by apply Forall_take.
  - unfold cur_at. by rewrite Nat.Div0.div_0_l.
Qed.

Lemma setIsLittleEndian_wf b v :
  wf b -> exists b', setIsLittleEndian v b = (Ok tt, b') /\ wf b' /\ view b' = view b /\
    isLittleEndian b' = v.
Proof. intros []. eexists. split_and!; [reflexivity|by split|done|by destruct v]. Qed.
