(* ===== verification/ByteArrayCodec.v ===== *)
(** * ByteArray: the encoders and their round trips

    A [Codec] pairs a writer with a reader through the bytes that carry a value:
    the writer leaves exactly those bytes at the position, the reader consumes
    exactly them and returns the value.  One instance per encoding of the class;
    the round trips of single values and of sequences follow once for all. *)

From S2P Require Import Prelude Endians ByteArray ByteArraySpec.
#[local] Set Default Goal Selector "!".

(** ** Emitting and consuming *)

(** Under byte order [e], the command writes the bytes [bs]. *)
Definition emits (e : Z) (m : M ByteArray unit) (bs : str) : Prop :=
  forall b, wf b -> m_endian b = e ->
  exists b', m b = (Ok tt, b') /\ wf b' /\ keeps b b' /\ view b' = spec_write bs (view b).

(** The bytes [bs] are next in the array. *)
Definition ahead (b : ByteArray) (bs : str) : Prop :=
  (m_position b + length bs <= m_size b)%nat /\
  slice (m_position b) (length bs) (content b) = bs.

(** Under byte order [e], the command consumes the bytes [bs] and returns [a]. *)
Definition consumes (e : Z) {A} (m : M ByteArray A) (bs : str) (a : A) : Prop :=
  forall b, wf b -> m_endian b = e -> ahead b bs -> m b = (Ok a, moved (length bs) b).

(** What is written at the current position is read back from there. *)
Definition roundtrips (e : Z) {A} (w : M ByteArray unit) (r : M ByteArray A) (a : A) : Prop :=
  forall b, wf b -> m_endian b = e ->
  exists b1 b2, w b = (Ok tt, b1) /\
    (setPosition (m_position b) ;; r) b1 = (Ok a, b2) /\
    wf b2 /\ view b2 = view b1.

Class Codec (e : Z) {A} (w : A -> M ByteArray unit) (r : M ByteArray A) (ok : A -> Prop) := {
  enc : A -> str;
  enc_emits a : ok a -> emits e (w a) (enc a);
  enc_consumes a : ok a -> consumes e r (enc a) a
}.

(** Writing and reading several values of one type. *)
Fixpoint write_all {A} (w : A -> M ByteArray unit) (l : list A) : M ByteArray unit :=
  match l with
  | [] => mret tt
  | a :: l => w a ;; write_all w l
  end.

Fixpoint read_all {A} (r : M ByteArray A) (n : nat) : M ByteArray (list A) :=
  match n with
  | O => mret []
  | S n => a ← r; l ← read_all r n; mret (a :: l)
  end.

(** ** Composition *)

Lemma moved_moved n m b : moved m (moved n b) = moved (n + m) b.
Proof. unfold moved, set_cur, set_pos. simpl. by rewrite Nat.add_assoc. Qed.

Lemma moved_0 b : wf b -> moved 0 b = b.
Proof.
  intros [_ _ _ _ _ _ Hcur]. unfold moved. rewrite Nat.add_0_r, <- Hcur. by destruct b.
Qed.

Lemma ahead_app b b1 b2 :
  wf b -> ahead b (b1 ++ b2) -> ahead b b1 /\ wf (moved (length b1) b) /\ ahead (moved (length b1) b) b2.
Proof.
  intros Hwf [Hsz Hsl]. rewrite length_app in *. rewrite slice_add in Hsl.
  apply app_inj_1 in Hsl as [H1 H2].
  - split_and!; [split; [lia|done]|apply moved_wf; [done|lia]|].
    split; [unfold moved; simpl; lia|]. exact H2.
  - apply length_slice. rewrite length_content by done. lia.
Qed.

Lemma emits_ret e : emits e (mret tt) [].
Proof.
  intros b H _. exists b. split_and!; try done. unfold spec_write, view.
  by rewrite splice_nil, Nat.add_0_r.
Qed.

Lemma emits_bind e m1 m2 b1 b2 :
  emits e m1 b1 -> emits e m2 b2 -> emits e (m1 ;; m2) (b1 ++ b2).
Proof.
  intros H1 H2 b Hwf He. destruct (H1 b Hwf He) as (b' & Hrun & Hwf' & [Hb' He'] & Hv).
  destruct (H2 b' Hwf' ltac:(congruence)) as (b'' & Hrun' & Hwf'' & [Hb'' He''] & Hv').
  exists b''. rewrite (bind_ok _ _ _ _ _ Hrun). split_and!; [done|done|split; congruence|].
  rewrite Hv', Hv. symmetry. apply spec_write_app.
  rewrite length_content by done. apply (wf_position b Hwf).
Qed.

Lemma consumes_ret e {A} (a : A) : consumes e (mret a) [] a.
Proof. intros b H _ _. simpl. by rewrite moved_0. Qed.

Lemma consumes_bind e {A B} (m : M ByteArray A) (f : A -> M ByteArray B) b1 b2 a x :
  consumes e m b1 a -> consumes e (f a) b2 x -> consumes e (m ≫= f) (b1 ++ b2) x.
Proof.
  intros H1 H2 b Hwf He Ha. destruct (ahead_app b b1 b2 Hwf Ha) as (Ha1 & Hwf1 & Ha2).
  rewrite (bind_ok _ _ _ _ _ (H1 b Hwf He Ha1)), (H2 _ Hwf1 He Ha2).
  by rewrite moved_moved, length_app.
Qed.

Lemma consumes_map e {A B} (m : M ByteArray A) (f : A -> B) bs a :
  consumes e m bs a -> consumes e (x ← m; mret (f x)) bs (f a).
Proof.
  intros H. rewrite <- (app_nil_r bs). eapply consumes_bind; [done|]. apply consumes_ret.
Qed.

Lemma write_emits uninit e bs : emits e (write uninit bs) bs.
Proof. intros b H _. by apply write_refines. Qed.

Lemma read_consumes e bs : bs <> [] -> consumes e (read (slen bs)) bs bs.
Proof.
  intros Hne b H _ [Hsz Hsl].
  assert (Hl : (0 < length bs)%nat) by (destruct bs; [done|simpl; lia]).
  pose proof (read_refines b (length bs) H Hl) as Hr. rewrite length_content in Hr by done.
  destruct (Nat.leb_spec (length bs) (m_size b - m_position b)); [|lia].
  unfold slen. by rewrite (proj1 Hr), Hsl.
Qed.

(** What was emitted is ahead once the cursor is moved back. *)
Lemma emitted_ahead b bs b' :
  wf b -> wf b' -> view b' = spec_write bs (view b) ->
  exists b1, setPosition (m_position b) b' = (Ok tt, b1) /\ wf b1 /\ keeps b' b1 /\
    ahead b1 bs /\ moved (length bs) b1 = b'.
Proof.
  intros Hwf Hwf' Hv. unfold view, spec_write in Hv. injection Hv as Hc Hp.
  pose proof (wf_position b Hwf) as Hpb.
  pose proof Hwf' as [Hb' _ _ _ Hp' Hs' Hcur'].
  assert (Hrun := setPosition_spec b' (m_position b) Hwf').
  destruct (Nat.ltb_spec (m_capacity b') (m_position b)); [lia|].
  eexists. split; [exact Hrun|].
  assert (Hwf1 := setPosition_wf _ _ _ Hwf' Hrun). rewrite Nat.max_l in * by lia.
  split_and!; [done|done| |].
  - split; simpl; [lia|]. unfold content, data at 1. simpl.
    change (take (m_size b') (concat (m_nodes b'))) with (content b'). rewrite Hc.
    apply slice_splice. rewrite length_content by done. lia.
  - unfold moved, set_cur, set_pos, set_size. simpl. rewrite <- Hp, <- Hcur'. by destruct b'.
Qed.

Lemma codec_roundtrip {A e w r ok} {HC : @Codec e A w r ok} a : ok a -> roundtrips e (w a) r a.
Proof.
  intros Ha b Hwf He.
  destruct (enc_emits a Ha b Hwf He) as (b1 & Hrun & Hwf1 & [_ He1] & Hv).
  destruct (emitted_ahead _ _ _ Hwf Hwf1 Hv) as (b2 & Hset & Hwf2 & [_ He2] & Hah & Hm).
  exists b1, b1. split; [done|]. rewrite (bind_ok _ _ _ _ _ Hset).
  assert (Hrd : r b2 = (Ok a, moved (length (enc a)) b2))
    by (apply (enc_consumes a Ha); congruence).
  by rewrite Hrd, Hm.
Qed.

(** Sequences of a codec's values form a codec. *)
#[export] Program Instance codec_list {A e w r ok} {HC : @Codec e A w r ok} (n : nat) :
  Codec e (write_all w) (read_all r n) (fun l => length l = n /\ Forall ok l) :=
  {| enc := fun l => concat (enc <$> l) |}.
Next Obligation.
  intros A e w r ok HC n l [_ Hl]. induction Hl as [|a l Ha Hl IH]; simpl.
  - apply emits_ret.
  - apply emits_bind; [by apply enc_emits|done].
Qed.
Next Obligation.
  intros A e w r ok HC n l [Hn Hl]. revert n Hn.
  induction Hl as [|a l Ha Hl IH]; intros [|n] Hn; simplify_eq/=.
  - apply consumes_ret.
  - eapply consumes_bind; [by apply enc_consumes|].
    apply (consumes_map e _ (fun l => a :: l)). by apply IH.
Qed.

(** ** The integers *)

(** The value the writer hands to [write], as bytes, under the array's order. *)
Definition int_bytes (host : byte_order) (e : Z) (n : nat) (v : Z) : str :=
  store host n (if negb (e =? PHASE0_BYTE_ORDER host) then byteswap n v else v).

Lemma pow256 n : 256 ^ Z.of_nat n = 2 ^ (8 * Z.of_nat n).
Proof. by rewrite Z.pow_mul_r by lia. Qed.

Lemma store_mod host n v v' :
  v mod 256 ^ Z.of_nat n = v' mod 256 ^ Z.of_nat n -> store host n v = store host n v'.
Proof.
  intros H. unfold store. rewrite <- (le_bytes_mod n v), H, le_bytes_mod. done.
Qed.

Lemma store_swrap host n v : (0 < n)%nat -> store host n (swrap (8 * Z.of_nat n) v) = store host n v.
Proof.
  intros Hn. apply store_mod. unfold swrap. rewrite pow256.
  rewrite Zminus_mod_idemp_l. f_equal. lia.
Qed.

Lemma byteswap_wrap n v : swappable n -> byteswap n (wrap (8 * Z.of_nat n) v) = byteswap n v.
Proof.
  intros Hn. rewrite !byteswap_spec by done. unfold wrap.
  by rewrite <- pow256, le_bytes_mod.
Qed.

Lemma wrap_swrap w v : 0 < w -> wrap w (swrap w v) = wrap w v.
Proof.
  intros. unfold wrap, swrap. rewrite Zminus_mod_idemp_l. f_equal. lia.
Qed.

Lemma slen_store host n v : slen (store host n v) = Z.of_nat n.
Proof. unfold slen. by rewrite length_store. Qed.

Lemma store_ne host n v : (0 < n)%nat -> store host n v <> [].
Proof. intros Hn Hs. apply (f_equal length) in Hs. rewrite length_store in Hs. simpl in Hs. lia. Qed.

Lemma swappable_pos n : swappable n -> (0 < n)%nat.
Proof. unfold swappable. lia. Qed.

(** Undoing the swap on load gives back the value. *)
Lemma load_int_bytes host e n v :
  swappable n ->
  let x := load host (int_bytes host e n v) in
  (if negb (e =? PHASE0_BYTE_ORDER host) then byteswap n x else x) = wrap (8 * Z.of_nat n) v.
Proof.
  intros Hn. unfold int_bytes. cbv zeta. rewrite load_store, pow256.
  destruct (negb (e =? PHASE0_BYTE_ORDER host)); [|done].
  change (?a mod 2 ^ ?w) with (wrap w a).
  rewrite (wrap_small _ (byteswap n v)) by by apply byteswap_range.
  rewrite <- (byteswap_wrap n v Hn), byteswap_involutive; [done..|].
  apply wrap_range. lia.
Qed.

Section ints.
Context (host : byte_order) (uninit : nat -> nat -> byte) (e : Z).

Lemma writeFuint_emits n v : emits e (writeFuint host uninit n v) (int_bytes host e n v).
Proof.
  intros b Hwf He. unfold writeFuint. rewrite (bind_ok get _ b b b) by done.
  unfold swapped. rewrite He. by apply (write_emits uninit e).
Qed.

Lemma writeFint_emits n v :
  swappable n -> emits e (writeFint host uninit n v) (int_bytes host e n v).
Proof.
  intros Hn b Hwf He. unfold writeFint. rewrite (bind_ok get _ b b b) by done.
  unfold swapped, int_bytes, byteswap_signed. rewrite He.
  destruct (negb (e =? PHASE0_BYTE_ORDER host)); [|by apply (write_emits uninit e)].
  rewrite store_swrap by by apply swappable_pos. by apply (write_emits uninit e).
Qed.

Lemma read_int_bytes n v : (0 < n)%nat ->
  consumes e (read (Z.of_nat n)) (int_bytes host e n v) (int_bytes host e n v).
Proof.
  intros Hn. rewrite <- (slen_store host n (if negb (e =? PHASE0_BYTE_ORDER host)
    then byteswap n v else v)) at 1.
  apply read_consumes. by apply store_ne.
Qed.

Lemma readFuint_consumes n v :
  swappable n -> unsigned_range (8 * Z.of_nat n) v ->
  consumes e (readFuint host n) (int_bytes host e n v) v.
Proof.
  intros Hn Hv b Hwf He Ha. unfold readFuint.
  rewrite (bind_ok _ _ _ _ _ (read_int_bytes n v (swappable_pos n Hn) b Hwf He Ha)).
  rewrite (bind_ok get _ _ (moved _ b) (moved _ b)) by done. unfold swapped.
  change (m_endian (moved _ b)) with (m_endian b). rewrite He, load_int_bytes by done.
  by rewrite wrap_small.
Qed.

Lemma readFint_consumes n v :
  swappable n -> signed_range (8 * Z.of_nat n) v ->
  consumes e (readFint host n) (int_bytes host e n v) v.
Proof.
  intros Hn Hv b Hwf He Ha. pose proof (swappable_pos n Hn). unfold readFint.
  rewrite (bind_ok _ _ _ _ _ (read_int_bytes n v (swappable_pos n Hn) b Hwf He Ha)).
  rewrite (bind_ok get _ _ (moved _ b) (moved _ b)) by done. unfold swapped, byteswap_signed.
  change (m_endian (moved _ b)) with (m_endian b). rewrite He.
  pose proof (load_int_bytes host e n v Hn) as Hl. cbv zeta in Hl.
  unfold mret, M_ret. do 2 f_equal. transitivity (swrap (8 * Z.of_nat n) (wrap (8 * Z.of_nat n) v)); [|apply swrap_wrap; [lia|done]].
  rewrite <- Hl. destruct (negb _).
  - rewrite <- (byteswap_wrap n (swrap _ _)) by done.
    by rewrite wrap_swrap, byteswap_wrap by (done || lia).
  - done.
Qed.

#[export] Program Instance codec_uint n (Hn : swappable n) :
  Codec e (writeFuint host uninit n) (readFuint host n) (unsigned_range (8 * Z.of_nat n)) :=
  {| enc := int_bytes host e n |}.
Next Obligation. intros n Hn v _. apply writeFuint_emits. Qed.
Next Obligation. intros n Hn v Hv. by apply readFuint_consumes. Qed.

#[export] Program Instance codec_int n (Hn : swappable n) :
  Codec e (writeFint host uninit n) (readFint host n) (signed_range (8 * Z.of_nat n)) :=
  {| enc := int_bytes host e n |}.
Next Obligation. intros n Hn v _. by apply writeFint_emits. Qed.
Next Obligation. intros n Hn v Hv. by apply readFint_consumes. Qed.

Lemma byte_consumes v : consumes e (read 1) (store host 1 v) (store host 1 v).
Proof.
  change 1 with (Z.of_nat 1). rewrite <- (slen_store host 1 v). apply read_consumes.
  by apply store_ne; lia.
Qed.

#[export] Program Instance codec_uint8 :
  Codec e (writeFuint8 host uninit) (readFuint8 host) (unsigned_range 8) :=
  {| enc := store host 1 |}.
Next Obligation. intros v _. apply write_emits. Qed.
Next Obligation.
  intros v Hv. rewrite <- (wrap_small 8 v Hv) at 2. unfold wrap.
  change (2 ^ 8) with (256 ^ Z.of_nat 1). rewrite <- (load_store host 1 v).
  apply (consumes_map e _ (load host)), byte_consumes.
Qed.

#[export] Program Instance codec_int8 :
  Codec e (writeFint8 host uninit) (readFint8 host) (signed_range 8) :=
  {| enc := store host 1 |}.
Next Obligation. intros v _. apply write_emits. Qed.
Next Obligation.
  intros v Hv. rewrite <- (swrap_wrap 8 v) at 2 by (done || lia). unfold wrap.
  change (2 ^ 8) with (256 ^ Z.of_nat 1). rewrite <- (load_store host 1 v).
  apply (consumes_map e _ (fun bs => swrap 8 (load host bs))), byte_consumes.
Qed.
End ints.

(** ** Zigzag *)

Lemma wrap_add_period w v k : wrap w (v + k * 2 ^ w) = wrap w v.
Proof. unfold wrap. by rewrite Z_mod_plus_full. Qed.

Lemma lxor_ones w x : 0 <= w -> unsigned_range w x -> Z.lxor x (2 ^ w - 1) = 2 ^ w - 1 - x.
Proof.
  intros Hw Hx. replace (2 ^ w - 1) with (Z.ones w) by (rewrite Z.ones_equiv; lia).
  assert (Hd : Z.land x (Z.lxor x (Z.ones w)) = 0).
  { apply Z.bits_inj'. intros i Hi. rewrite Z.land_spec, Z.lxor_spec, Z.bits_0.
    rewrite Z.testbit_ones by lia. destruct (Z.testbit x i) eqn:E; [|done].
    destruct (Z.ltb_spec i w), (Z.leb_spec 0 i); try done; try lia.
    rewrite (proj1 (Z.bounded_iff_bits_nonneg' w x Hw (proj1 Hx)) Hx i) in E by lia. done. }
  apply Z.add_nocarry_lxor in Hd.
  rewrite <- Z.lxor_assoc, Z.lxor_nilpotent, Z.lxor_0_l in Hd. lia.
Qed.

Section zigzag.
(** The encoder and decoder of both widths, at width [w]. *)
Context (w : Z) (Hw : 1 < w).
Definition zz_enc (v : Z) : Z :=
  if v <? 0 then wrap w (wrap w (swrap w (- v)) * 2 - 1) else wrap w (swrap w (v * 2)).
Definition zz_dec (v : Z) : Z :=
  swrap w (Z.lxor (Z.shiftr v 1) (wrap w (- Z.land v 1))).

Lemma pow_half : 2 ^ w = 2 * 2 ^ (w - 1).
Proof. rewrite <- Z.pow_succ_r by lia. f_equal. lia. Qed.

Lemma zz_enc_spec v :
  signed_range w v -> zz_enc v = if v <? 0 then - 2 * v - 1 else 2 * v.
Proof.
  intros [H1 H2]. pose proof pow_half. unfold zz_enc. rewrite !wrap_swrap by lia.
  destruct (Z.ltb_spec v 0); rewrite !wrap_small; unfold unsigned_range; try lia.
  rewrite wrap_small; unfold unsigned_range; lia.
Qed.

Lemma land_1 v : Z.land v 1 = v mod 2.
Proof. change 1 with (Z.ones 1). by rewrite Z.land_ones. Qed.

Lemma zz_roundtrip v : signed_range w v -> zz_dec (zz_enc v) = v.
Proof.
  intros Hv. rewrite zz_enc_spec by done. unfold zz_dec. destruct Hv as [H1 H2].
  pose proof pow_half as Hp.
  rewrite land_1, Z.shiftr_div_pow2 by lia. change (2 ^ 1) with 2.
  destruct (Z.ltb_spec v 0).
  - replace ((-2 * v - 1) mod 2) with 1 by zdiv.
    replace ((-2 * v - 1) / 2) with (- v - 1) by zdiv.
    change (- (1)) with (-1). replace (wrap w (-1)) with (2 ^ w - 1).
    2:{ rewrite <- (wrap_add_period w (-1) 1). symmetry. rewrite wrap_small; [lia|].
        unfold unsigned_range. lia. }
    rewrite lxor_ones by (unfold unsigned_range; lia). unfold swrap.
    replace (2 ^ w - 1 - (- v - 1) + 2 ^ (w - 1)) with (v + 2 ^ (w - 1) + 1 * 2 ^ w) by lia.
    rewrite Z_mod_plus_full, Z.mod_small; lia.
  - replace ((2 * v) mod 2) with 0 by zdiv. replace (2 * v / 2) with v by zdiv.
    unfold wrap. rewrite Z.opp_0, Z.mod_0_l, Z.lxor_0_r by lia. by apply swrap_small; [lia|].
Qed.

Lemma zz_enc_range v : signed_range w v -> unsigned_range w (zz_enc v).
Proof.
  intros Hv. rewrite zz_enc_spec by done. destruct Hv. pose proof pow_half.
  unfold unsigned_range. destruct (Z.ltb_spec v 0); lia.
Qed.
End zigzag.

Lemma EncodeZigzag32_eq v : EncodeZigzag32 v = zz_enc 32 v.
Proof. done. Qed.
Lemma EncodeZigzag64_eq v : EncodeZigzag64 v = zz_enc 64 v.
Proof. done. Qed.
Lemma DecodeZigzag32_eq v : DecodeZigzag32 v = zz_dec 32 v.
Proof. done. Qed.
Lemma DecodeZigzag64_eq v : DecodeZigzag64 v = zz_dec 64 v.
Proof. done. Qed.

(** ** Base 128 *)

Lemma varint_bytes_ok room v :
  (0 < room)%nat -> 0 <= v < 128 ^ Z.of_nat room ->
  exists bs, varint_bytes room v = Ok bs /\ bs <> [] /\ (length bs <= room)%nat.
Proof.
  destruct room as [|room]; [lia|]. intros _. revert v.
  induction room as [|room IH]; intros v Hv; cbn [varint_bytes] in *;
    rewrite Nat2Z.inj_succ, Z.pow_succ_r in Hv by lia.
  - change (128 ^ Z.of_nat 0) with 1 in Hv. destruct (Z.leb_spec 128 v); [lia|].
    eexists. split_and!; [done|done|simpl; lia].
  - destruct (Z.leb_spec 128 v).
    + destruct (IH (Z.shiftr v 7)) as (bs & -> & _ & ?).
      { rewrite Z.shiftr_div_pow2 by lia. change (2 ^ 7) with 128.
        split; [apply Z.div_pos; lia|apply Z.div_lt_upper_bound; lia]. }
      eexists. split_and!; [done|done|simpl; lia].
    + eexists. split_and!; [done|done|simpl; lia].
Qed.

(** The array [tmp] is large enough: 5 bytes for 32 bits, 10 for 64. *)
Lemma varint_room w room :
  w <= 7 * Z.of_nat room -> forall v, 0 <= w -> unsigned_range w v ->
  0 <= v < 128 ^ Z.of_nat room.
Proof.
  intros Hr v Hw [H1 H2]. split; [lia|]. change 128 with (2 ^ 7). rewrite <- Z.pow_mul_r by lia.
  pose proof (Z.pow_le_mono_r 2 w (7 * Z.of_nat room)). lia.
Qed.

Lemma cont_byte v : 0 <= v -> b2z (z2b (Z.lor (Z.land v 127) 128)) = v mod 128 + 128.
Proof.
  intros Hv. change 127 with (Z.ones 7). rewrite Z.land_ones by lia. change (2 ^ 7) with 128.
  pose proof (Z.mod_pos_bound v 128 ltac:(lia)).
  pose proof (lor_shiftl_add 1 (v mod 128) 7 ltac:(lia) ltac:(lia)) as Hl.
  change (Z.shiftl 1 7) with 128 in Hl. rewrite Z.lor_comm, Hl. change (2 ^ 7) with 128.
  rewrite b2z_z2b, Z.mod_small; lia.
Qed.

Section varint.
Context (host : byte_order) (uninit : nat -> nat -> byte) (e : Z).

Lemma readFuint8_consumes b : consumes e (readFuint8 host) [b] (b2z b).
Proof.
  replace (b2z b) with (load host [b]).
  2:{ destruct host; simpl; lia. }
  apply (consumes_map e _ (load host)). apply (read_consumes e [b]). done.
Qed.

(** Adding a group of bits above the bits already collected. *)
Lemma add_group w i result x :
  0 <= i -> 0 <= result < 2 ^ i -> 0 <= x -> x * 2 ^ i < 2 ^ w ->
  Z.lor result (wrap w (Z.shiftl x i)) = result + x * 2 ^ i.
Proof.
  intros Hi Hr Hx Hw. rewrite wrap_small.
  - rewrite Z.lor_comm, lor_shiftl_add by done. lia.
  - unfold unsigned_range. rewrite Z.shiftl_mul_pow2 by lia. nia.
Qed.

Lemma read_varint_consumes w room v bs fuel i result :
  varint_bytes room v = Ok bs -> (room <= fuel)%nat ->
  0 <= i < w -> 0 <= result < 2 ^ i -> 0 <= v -> v * 2 ^ i < 2 ^ w ->
  consumes e (read_varint host fuel w i result) bs (result + v * 2 ^ i).
Proof.
  revert v bs fuel i result. induction room as [|room IH]; [done|].
  intros v bs [|fuel] i result Hbs Hf Hi Hr Hv Hlt; [lia|].
  cbn [varint_bytes read_varint] in *. destruct (Z.ltb_spec i w); [|lia].
  destruct (Z.leb_spec 128 v).
  - destruct (varint_bytes room (Z.shiftr v 7)) as [bs'| |] eqn:E; simplify_eq.
    change (?x :: bs') with ([x] ++ bs').
    eapply consumes_bind; [apply readFuint8_consumes|]. rewrite cont_byte by done.
    pose proof (Z.mod_pos_bound v 128 ltac:(lia)).
    destruct (Z.ltb_spec (v mod 128 + 128) 128); [lia|].
    change 127 with (Z.ones 7). rewrite Z.land_ones by lia. change (2 ^ 7) with 128.
    rewrite <- Z.add_mod_idemp_r, Z.mod_same, Z.add_0_r, Z.mod_mod by lia.
    pose proof (Z_div_mod_eq_full v 128). pose proof (Z.pow_pos_nonneg 2 i).
    rewrite add_group by nia. rewrite Z.shiftr_div_pow2 in E by lia. change (2 ^ 7) with 128 in E.
    assert (Hpow : 2 ^ (i + 7) = 128 * 2 ^ i) by (rewrite Z.pow_add_r by lia; lia).
    replace (result + v * 2 ^ i) with (result + v mod 128 * 2 ^ i + v / 128 * 2 ^ (i + 7)) by nia.
    apply IH; [done|lia| |nia|lia|nia].
    split; [lia|]. apply (Z.pow_lt_mono_r_iff 2); [lia|lia|]. nia.
  - simplify_eq. rewrite <- (app_nil_r [z2b v]).
    eapply consumes_bind; [apply readFuint8_consumes|].
    rewrite b2z_z2b, Z.mod_small by lia. destruct (Z.ltb_spec v 128); [|lia].
    rewrite add_group by lia. apply consumes_ret.
Qed.

(** The bytes of a base-128 integer. *)
Definition varint_enc (room : nat) (v : Z) : str :=
  match varint_bytes room v with Ok bs => bs | _ => [] end.

Lemma varint_codec w room :
  0 < w -> w <= 7 * Z.of_nat room ->
  Codec e (write_varint uninit room) (read_varint host (S room) w 0 0) (unsigned_range w).
Proof.
  intros Hw Hroom. exists (varint_enc room); intros v Hv;
    destruct (varint_bytes_ok room v) as (bs & Hbs & _ & _);
    try (first [lia | apply (varint_room w); [done|lia|done]]); unfold varint_enc; rewrite Hbs.
  - unfold write_varint. rewrite Hbs. apply write_emits.
  - replace v with (0 + v * 2 ^ 0) at 1 by lia. destruct Hv.
    eapply read_varint_consumes; (done || lia).
Qed.

#[export] Instance codec_uint32_varint :
  Codec e (writeUint32 uninit) (readUint32 host) (unsigned_range 32).
Proof. by apply varint_codec. Defined.

#[export] Instance codec_uint64_varint :
  Codec e (writeUint64 uninit) (readUint64 host) (unsigned_range 64).
Proof. by apply varint_codec. Defined.

(** Encoding through a bijection onto the domain of another codec. *)
Lemma codec_via {A B} (w : A -> M ByteArray unit) (r : M ByteArray A) (okA : A -> Prop)
    (f : B -> A) (g : A -> B) (okB : B -> Prop) :
  Codec e w r okA -> (forall x, okB x -> okA (f x) /\ g (f x) = x) ->
  Codec e (fun x => w (f x)) (a ← r; mret (g a)) okB.
Proof.
  intros HC Hfg. exists (fun x => enc (f x)); intros x Hx; destruct (Hfg x Hx) as [Hok Hgf].
  - by apply enc_emits.
  - rewrite <- Hgf at 2. apply (consumes_map e _ g). by apply enc_consumes.
Qed.

#[export] Instance codec_int32_varint :
  Codec e (writeInt32 uninit) (readInt32 host) (signed_range 32).
Proof.
  apply (codec_via (writeUint32 uninit) (readUint32 host) (unsigned_range 32) EncodeZigzag32 DecodeZigzag32);
    [exact codec_uint32_varint|]. intros x Hx. split.
  - by apply (zz_enc_range 32).
  - by apply (zz_roundtrip 32).
Defined.

#[export] Instance codec_int64_varint :
  Codec e (writeInt64 uninit) (readInt64 host) (signed_range 64).
Proof.
  apply (codec_via (writeUint64 uninit) (readUint64 host) (unsigned_range 64) EncodeZigzag64 DecodeZigzag64);
    [exact codec_uint64_varint|]. intros x Hx. split.
  - by apply (zz_enc_range 64).
  - by apply (zz_roundtrip 64).
Defined.
End varint.

(** ** Length-prefixed strings *)

Section strings.
Context (host : byte_order) (uninit : nat -> nat -> byte) (e : Z).

(** A string fits a [w]-bit length prefix.  The empty string is excluded: see
    [read_empty_crashes]. *)
Definition fits_prefix (w : Z) (s : str) : Prop := s <> [] /\ slen s < 2 ^ w.

Lemma string_codec w (wl : Z -> M ByteArray unit) (rl : M ByteArray Z) :
  Codec e wl rl (unsigned_range w) ->
  Codec e (fun s => wl (wrap w (slen s)) ;; write uninit s) (len ← rl; read len) (fits_prefix w).
Proof.
  intros HC. assert (Hr : forall s, fits_prefix w s -> unsigned_range w (slen s))
    by (intros s [_ Hs]; split; [unfold slen; lia|done]).
  exists (fun s => enc (slen s) ++ s); intros s Hs;
    pose proof (Hr s Hs) as Hrs; destruct Hs as [Hne _].
  - rewrite (wrap_small _ _ Hrs). apply emits_bind; [by apply enc_emits|apply write_emits].
  - eapply consumes_bind; [by apply enc_consumes|by apply read_consumes].
Qed.

#[export] Instance codec_stringF16 :
  Codec e (writeStringF16 host uninit) (readStringF16 host) (fits_prefix 16).
Proof. apply (string_codec 16). apply (codec_uint host uninit e 2). by left. Qed.

#[export] Instance codec_stringF32 :
  Codec e (writeStringF32 host uninit) (readStringF32 host) (fits_prefix 32).
Proof. apply (string_codec 32). apply (codec_uint host uninit e 4). right. by left. Qed.

#[export] Instance codec_stringF64 :
  Codec e (writeStringF64 host uninit) (readStringF64 host) (fits_prefix 64).
Proof. apply (string_codec 64). apply (codec_uint host uninit e 8). by do 2 right. Qed.

#[export] Instance codec_stringVint :
  Codec e (writeStringVint uninit) (readStringVint host) (fits_prefix 64).
Proof. apply (string_codec 64). apply codec_uint64_varint. Qed.

(** Reading an empty string whose prefix ends the capacity: the read of zero
    bytes dereferences the null cursor. *)
Lemma read_empty_crashes (rl : M ByteArray Z) bs b :
  consumes e rl bs 0 -> wf b -> m_endian b = e -> ahead b bs ->
  (m_position b + length bs)%nat = m_capacity b ->
  (len ← rl; read len) b = (Crash NullDeref, moved (length bs) b).
Proof.
  intros Hc Hwf He Ha Hend. rewrite (bind_ok _ _ _ _ _ (Hc b Hwf He Ha)).
  rewrite read_zero by (apply moved_wf; [done|apply Ha]). simpl.
  by destruct (Nat.eqb_spec (m_position b + length bs) (m_capacity b)).
Qed.
End strings.
