(* ===== verification/ByteArrayIo.v ===== *)
(** * ByteArray: scatter/gather lists, printing and files *)

From S2P Require Import Prelude Endians ByteArray ByteArraySpec.
#[local] Set Default Goal Selector "!".

(** The entries describe the run of bytes from offset [p] on, block by block. *)
Fixpoint covers (base n p : nat) (l : list iovec) : Prop :=
  match l with
  | [] => True
  | v :: l =>
      (iov_node v * base + iov_off v = p)%nat /\ (iov_node v < n)%nat /\
      (iov_off v + iov_len v <= base)%nat /\ (0 < iov_len v)%nat /\
      covers base n (p + iov_len v) l
  end.

Definition iov_total (l : list iovec) : nat := sum_list (iov_len <$> l).

Lemma iov_total_cons v l : iov_total (v :: l) = (iov_len v + iov_total l)%nat.
Proof. done. Qed.

Lemma iov_total_nil : iov_total [] = 0%nat.
Proof. done. Qed.

(** What [sendmsg] reads through the entries, and what [recvmsg] stores. *)
Definition gather (nodes : list str) (l : list iovec) : str :=
  concat ((fun v => slice (iov_off v) (iov_len v) (default [] (nodes !! iov_node v))) <$> l).

Fixpoint scatter (nodes : list str) (l : list iovec) (bs : str) : list str :=
  match l with
  | [] => nodes
  | v :: l =>
      let chunk := take (iov_len v) bs in
      let nd := default [] (nodes !! iov_node v) in
      scatter (<[iov_node v := splice (iov_off v) chunk nd]> nodes) l (drop (iov_len v) bs)
  end.

Lemma gather_spec base nodes p l :
  uniform base nodes -> covers base (length nodes) p l ->
  gather nodes l = slice p (iov_total l) (concat nodes).
Proof.
  intros Hu. revert p. induction l as [|v l IH]; intros p; [done|].
  intros (Hp & Hi & Ho & _ & Hl).
  rewrite iov_total_cons.
  change (gather nodes (v :: l)) with
    (slice (iov_off v) (iov_len v) (default [] (nodes !! iov_node v)) ++ gather nodes l).
  rewrite (IH _ Hl), slice_add, <- Hp. f_equal.
  destruct (lookup_lt_is_Some_2 _ _ Hi) as [nd Hnd]. rewrite Hnd. simpl.
  symmetry. by apply slice_concat.
Qed.

Lemma scatter_spec base nodes p l bs :
  uniform base nodes -> covers base (length nodes) p l ->
  (length bs <= iov_total l)%nat -> (p <= length (concat nodes))%nat ->
  uniform base (scatter nodes l bs) /\ length (scatter nodes l bs) = length nodes /\
  concat (scatter nodes l bs) = splice p bs (concat nodes).
Proof.
  revert nodes p bs. induction l as [|v l IH]; intros nodes p bs Hu Hc Hlen Hp.
  - rewrite iov_total_nil in Hlen. simpl in *. destruct bs; [|simpl in Hlen; lia].
    by rewrite splice_nil.
  - destruct Hc as (Hv & Hi & Ho & Hpos & Hc). cbn [scatter].
    rewrite iov_total_cons in Hlen.
    destruct (lookup_lt_is_Some_2 _ _ Hi) as [nd Hnd]. rewrite Hnd. simpl.
    set (chunk := take (iov_len v) bs).
    assert (Hch : (length chunk <= iov_len v)%nat) by (unfold chunk; rewrite length_take; lia).
    set (nodes' := <[iov_node v:=splice (iov_off v) chunk nd]> nodes).
    assert (Hu' : uniform base nodes') by (apply uniform_splice; [done..|lia]).
    assert (Hl' : length nodes' = length nodes) by apply length_insert.
    assert (Hcat : concat nodes' = splice p chunk (concat nodes)).
    { unfold nodes'. rewrite <- Hv. apply concat_splice; [done..|lia]. }
    pose proof (length_concat_uniform _ _ Hu) as Hlc.
    pose proof (length_concat_uniform _ _ Hu') as Hlc'. rewrite Hl' in Hlc'.
    destruct (IH nodes' (p + iov_len v)%nat (drop (iov_len v) bs)) as (H1 & H2 & H3); [done| | |nia|].
    + by rewrite Hl'.
    + rewrite length_drop. lia.
    + split_and!; [done|lia|]. rewrite H3, Hcat.
      transitivity (splice p (chunk ++ drop (iov_len v) bs) (concat nodes));
        [|by unfold chunk; rewrite take_drop].
      rewrite splice_app by done.
      destruct (Nat.le_gt_cases (length bs) (iov_len v)).
      * by rewrite (drop_ge bs), !splice_nil by done.
      * f_equal. unfold chunk. rewrite length_take. lia.
Qed.

(** The list-building loop, from offset [npos] of block [i]. *)
Lemma iov_loop_spec fuel b i npos len :
  (len + 2 <= fuel)%nat -> (0 < len)%nat -> uniform (m_baseSize b) (m_nodes b) ->
  (npos < m_baseSize b)%nat -> (i < length (m_nodes b))%nat ->
  (i * m_baseSize b + npos + len <= m_baseSize b * length (m_nodes b))%nat ->
  exists l, iov_loop fuel b (Some i) npos (m_baseSize b - npos) len = Ok l /\
    covers (m_baseSize b) (length (m_nodes b)) (i * m_baseSize b + npos) l /\ iov_total l = len.
Proof.
  revert i npos len. induction fuel as [|fuel IH]; [lia|].
  intros i npos len Hf Hlen Hu Hn Hi Hroom. cbn [iov_loop].
  destruct (Nat.eqb_spec len 0); [lia|].
  destruct (lookup_lt_is_Some_2 _ _ Hi) as [nd Hnd]. unfold deref at 1. rewrite Hnd.
  destruct (Nat.leb_spec len (m_baseSize b - npos)).
  - destruct fuel as [|fuel]; [lia|]. cbn [iov_loop]. simpl.
    eexists. split_and!; [done|unfold covers; simpl; split_and!; (done || lia)|].
    rewrite iov_total_cons, iov_total_nil. simpl. lia.
  - assert (Hi' : (S i < length (m_nodes b))%nat) by nia.
    rewrite next_in by done. destruct (lookup_lt_is_Some_2 _ _ Hi') as [nd' Hnd'].
    unfold deref. rewrite Hnd', (uniform_lookup _ _ _ _ Hu Hnd').
    destruct (IH (S i) 0%nat (len - (m_baseSize b - npos))%nat) as (l & Hl & Hcov & Htot);
      [lia|lia|done|lia|done|nia|].
    rewrite Nat.sub_0_r in Hl. rewrite Hl. eexists. split_and!; [done| |].
    + simpl. split_and!; [lia|done|lia|lia|].
      replace (i * m_baseSize b + npos + (m_baseSize b - npos))%nat
        with (S i * m_baseSize b + 0)%nat by lia. done.
    + rewrite iov_total_cons. simpl. lia.
Qed.

(** Past the last block the loop dereferences null. *)
Lemma iov_loop_overrun fuel b i npos len :
  (len + 2 <= fuel)%nat -> uniform (m_baseSize b) (m_nodes b) ->
  (npos < m_baseSize b)%nat -> (i < length (m_nodes b))%nat ->
  (m_baseSize b * length (m_nodes b) < i * m_baseSize b + npos + len)%nat ->
  iov_loop fuel b (Some i) npos (m_baseSize b - npos) len = Crash NullDeref.
Proof.
  revert i npos len. induction fuel as [|fuel IH]; [lia|].
  intros i npos len Hf Hu Hn Hi Hroom. cbn [iov_loop].
  destruct (Nat.eqb_spec len 0); [nia|].
  destruct (lookup_lt_is_Some_2 _ _ Hi) as [nd Hnd]. unfold deref at 1. rewrite Hnd.
  destruct (Nat.leb_spec len (m_baseSize b - npos)); [nia|].
  unfold next. destruct (Nat.ltb_spec (S i) (length (m_nodes b))) as [Hi'|]; [|done].
  destruct (lookup_lt_is_Some_2 _ _ Hi') as [nd' Hnd'].
  unfold deref. rewrite Hnd', (uniform_lookup _ _ _ _ Hu Hnd').
  pose proof (IH (S i) 0%nat (len - (m_baseSize b - npos))%nat) as IH'.
  rewrite Nat.sub_0_r in IH'. rewrite IH'; [done|lia|done|lia|done|nia].
Qed.

Definition clip (b : ByteArray) (len : nat) : nat := (getReadSize b `min` len)%nat.

Lemma clip_if b len :
  (if (getReadSize b <? len)%nat then getReadSize b else len) = clip b len.
Proof. unfold clip. destruct (Nat.ltb_spec (getReadSize b) len); lia. Qed.

Lemma deref_block b i :
  uniform (m_baseSize b) (m_nodes b) -> (i < length (m_nodes b))%nat ->
  exists nd, deref b (Some i) = Ok (i, nd) /\ length nd = m_baseSize b.
Proof.
  intros Hu Hi. destruct (lookup_lt_is_Some_2 _ _ Hi) as [nd Hnd]. exists nd.
  unfold deref. rewrite Hnd. eauto using uniform_lookup.
Qed.

Lemma getReadBuffers_ok b len :
  wf b ->
  exists l, getReadBuffers len b = Ok (clip b len, l) /\
    covers (m_baseSize b) (length (m_nodes b)) (m_position b) l /\ iov_total l = clip b len.
Proof.
  intros Hwf. pose proof Hwf as [Hb Hnn Hu Hc Hp Hs Hcur].
  unfold getReadBuffers. rewrite clip_if.
  destruct (Nat.eqb_spec (clip b len) 0) as [H0|H0]; [by exists []; rewrite H0|].
  destruct (Nat.eqb_spec (m_baseSize b) 0); [lia|].
  assert (Hroom : (m_position b + clip b len <= m_capacity b)%nat)
    by (unfold clip, getReadSize; lia).
  destruct (wf_fits b (clip b len) Hwf ltac:(lia) Hroom) as [_ Ho Hc' Hi Hpos Hr].
  destruct (deref_block b _ Hu Hi) as (nd & Hd & Hl). rewrite Hc', Hd, Hl.
  destruct (iov_loop_spec (S (S (clip b len))) b _ _ (clip b len) ltac:(lia) ltac:(lia) Hu Ho Hi)
    as (l & Hrun & Hcov & Htot); [lia|].
  rewrite Hrun. exists l. by rewrite Hpos.
Qed.

Lemma getWriteBuffers_ok uninit b len :
  wf b ->
  exists b' l, getWriteBuffers uninit len b = (Ok (len, l), b') /\ wf b' /\ keeps b b' /\
    view b' = view b /\ (m_position b' + len <= m_capacity b')%nat /\
    covers (m_baseSize b') (length (m_nodes b')) (m_position b') l /\ iov_total l = len.
Proof.
  intros Hwf. unfold getWriteBuffers. destruct (Nat.eqb_spec len 0) as [->|H0].
  { exists b, []. pose proof Hwf as []. split_and!; try done. lia. }
  destruct (addCapacity_spec uninit b len Hwf ltac:(lia)) as
    (b1 & Hadd & Hwf1 & Hk & Hpos & Hsz & [ext Hext] & Hroom).
  rewrite (bind_ok _ _ _ _ _ Hadd), (bind_ok get _ b1 b1 b1) by done. cbv beta.
  pose proof Hwf1 as [Hb Hnn Hu Hc Hp Hs Hcur].
  destruct (Nat.eqb_spec (m_baseSize b1) 0); [lia|].
  destruct (wf_fits b1 len Hwf1 ltac:(lia) ltac:(lia)) as [_ Ho Hc' Hi Hpos1 Hr].
  destruct (cur_block b1 _ Hu Hi Hc') as (nd & _ & Hl & Hcn & _).
  rewrite (bind_ok _ _ _ _ _ Hcn), Hl, Hc'. cbv beta iota.
  destruct (iov_loop_spec (S (S len)) b1 _ _ len ltac:(lia) ltac:(lia) Hu Ho Hi)
    as (l & Hrun & Hcov & Htot); [lia|].
  rewrite Hrun. exists b1, l. split_and!; try done; [|lia|by rewrite Hpos1].
  unfold view, content. rewrite Hext, Hsz, Hpos, take_app_le; [done|].
  rewrite length_data by done. apply (wf_size b Hwf).
Qed.

Lemma scatter_nothing nodes l : scatter nodes l [] = nodes.
Proof.
  revert nodes. induction l as [|v l IH]; intros nodes; [done|]. cbn [scatter]. rewrite take_nil, drop_nil, splice_nil, IH.
  destruct (nodes !! iov_node v) eqn:E; simpl; [by apply list_insert_id|].
  apply list_insert_ge. by apply lookup_ge_None.
Qed.

(** Receiving into [getWriteBuffers] and then advancing the position by the
    number of bytes received (what [SocketStream::read(ByteArray)] does) is the
    same as writing those bytes. *)
Lemma receive_ok uninit b len bs :
  wf b -> (length bs <= len)%nat ->
  exists b1 l b2,
    getWriteBuffers uninit len b = (Ok (len, l), b1) /\ iov_total l = len /\
    wf b1 /\ view b1 = view b /\
    setPosition (m_position b1 + length bs)
      (set_nodes (scatter (m_nodes b1) l bs) b1) = (Ok tt, b2) /\
    wf b2 /\ view b2 = spec_write bs (view b).
Proof.
  intros Hwf Hlen.
  destruct (getWriteBuffers_ok uninit b len Hwf) as (b1 & l & Hg & Hwf1 & Hk & Hv & Hroom & Hc & Ht).
  pose proof Hwf1 as [Hb Hn Hu Hcap Hp Hs Hcur].
  pose proof (length_data b1 Hwf1) as Hld.
  destruct (scatter_spec _ _ _ _ bs Hu Hc) as (Hu' & Hl' & Hcat);
    [lia|change (concat (m_nodes b1)) with (data b1); lia|].
  set (b1' := set_nodes (scatter (m_nodes b1) l bs) b1).
  assert (Hwf1' : wf b1') by (split; simpl; rewrite ?Hl'; done).
  pose proof (setPosition_spec b1' (m_position b1 + length bs) Hwf1') as Hset.
  simpl in Hset. destruct (Nat.ltb_spec (m_capacity b1) (m_position b1 + length bs)); [lia|].
  exists b1, l. eexists. do 4 (split; [done|]). split; [exact Hset|].
  split; [by eapply setPosition_wf|]. rewrite <- Hv. unfold view, spec_write, content, data. simpl.
  rewrite Hcat. f_equal. apply take_splice; change (concat (m_nodes b1)) with (data b1); lia.
Qed.

(** The positioned list starts at [position] but clips by the bytes left after
    [m_position]: it can run off the blocks. *)
Lemma walk_spec b k i :
  uniform (m_baseSize b) (m_nodes b) -> (i + k < length (m_nodes b))%nat ->
  walk b k (Some i) = Ok (Some (i + k)%nat).
Proof.
  intros Hu. revert i. induction k as [|k IH]; intros i Hk; cbn [walk]; [by rewrite Nat.add_0_r|].
  destruct (deref_block b i Hu ltac:(lia)) as (nd & -> & _). rewrite next_in, IH by lia.
  do 2 f_equal. lia.
Qed.

Lemma getReadBuffers_at_spec b len position :
  wf b -> (position < m_capacity b)%nat -> (0 < clip b len)%nat ->
  if (position + clip b len <=? m_capacity b)%nat
  then exists l, getReadBuffers_at len position b = Ok (clip b len, l) /\
         covers (m_baseSize b) (length (m_nodes b)) position l /\ iov_total l = clip b len
  else getReadBuffers_at len position b = Crash NullDeref.
Proof.
  intros Hwf Hpos Hlen. pose proof Hwf as [Hb Hnn Hu Hc Hp Hs Hcur].
  unfold getReadBuffers_at. rewrite clip_if.
  destruct (Nat.eqb_spec (clip b len) 0); [lia|].
  destruct (Nat.eqb_spec (m_baseSize b) 0); [lia|].
  pose proof (pos_split (m_baseSize b) position Hb) as Hsplit.
  pose proof (Nat.mod_upper_bound position (m_baseSize b) ltac:(lia)) as Ho.
  assert (Hi : (position / m_baseSize b < length (m_nodes b))%nat)
    by (apply Nat.Div0.div_lt_upper_bound; lia).
  rewrite walk_spec by (done || lia). rewrite Nat.add_0_l.
  destruct (deref_block b _ Hu Hi) as (nd & Hd & Hl). rewrite Hd, Hl.
  destruct (Nat.leb_spec (position + clip b len) (m_capacity b)).
  - destruct (iov_loop_spec (S (S (clip b len))) b (position / m_baseSize b)
      (position mod m_baseSize b) (clip b len)) as (l & Hrun & Hcov & Htot); try (done || lia).
    rewrite Hrun. exists l. by rewrite <- Hsplit in Hcov.
  - rewrite iov_loop_overrun; (done || lia).
Qed.

(** ** Reading at a position *)

Lemma read_at_loop_spec fuel b i npos size acc :
  (size + 2 <= fuel)%nat -> uniform (m_baseSize b) (m_nodes b) ->
  (npos < m_baseSize b)%nat -> (i < length (m_nodes b))%nat ->
  (i * m_baseSize b + npos + size <= m_baseSize b * length (m_nodes b))%nat ->
  read_at_loop fuel b (Some i) npos (m_baseSize b - npos) size acc =
  Ok (acc ++ slice (i * m_baseSize b + npos) size (data b)).
Proof.
  revert i npos size acc. induction fuel as [|fuel IH]; [lia|].
  intros i npos size acc Hf Hu Hn Hi Hroom. cbn [read_at_loop].
  destruct (Nat.eqb_spec size 0) as [->|H0].
  { unfold slice. by rewrite take_0, app_nil_r. }
  destruct (lookup_lt_is_Some_2 _ _ Hi) as [nd Hnd].
  assert (Hd : deref b (Some i) = Ok (i, nd)) by (unfold deref; by rewrite Hnd).
  rewrite Hd, (uniform_lookup _ _ _ _ Hu Hnd).
  destruct (Nat.leb_spec size (m_baseSize b - npos)).
  - destruct fuel as [|fuel]; [lia|]. cbn [read_at_loop]. simpl. do 2 f_equal.
    symmetry. apply slice_concat; (done || lia).
  - assert (Hi' : (S i < length (m_nodes b))%nat) by nia.
    destruct (deref_block b (S i) Hu Hi') as (nd' & Hd' & Hl'). rewrite next_in, Hd', Hl' by done.
    pose proof (IH (S i) 0%nat (size - (m_baseSize b - npos))%nat
      (acc ++ slice npos (m_baseSize b - npos) nd)) as IH'.
    rewrite Nat.sub_0_r in IH'. rewrite IH'; [|lia|done|lia|done|nia].
    replace size with (m_baseSize b - npos + (size - (m_baseSize b - npos)))%nat at 2 by lia.
    rewrite slice_add, <- app_assoc. do 2 f_equal. f_equal.
    + symmetry. apply slice_concat; (done || lia).
    + f_equal. lia.
Qed.

(** [read(buf, size, position)] starts in the block of the cursor, at the offset
    [position] has in its own block. *)
Lemma read_at_spec b size position :
  wf b -> Z.of_nat (m_size b) < 2 ^ 64 -> (position <= m_size b)%nat ->
  (m_position b < m_capacity b)%nat ->
  let start := (m_position b / m_baseSize b * m_baseSize b + position mod m_baseSize b)%nat in
  (start + size <= m_capacity b)%nat ->
  read_at (Z.of_nat size) (Z.of_nat position) b =
  if (size <=? m_size b - position)%nat then Ok (slice start size (data b)) else Throw out_of_range.
Proof.
  intros Hwf Hmax Hpos Hcap start Hroom. pose proof Hwf as [Hb Hnn Hu Hc Hp Hs Hcur].
  unfold read_at. rewrite wrap_small by (unfold unsigned_range; lia).
  destruct (Z.ltb_spec (Z.of_nat (m_size b) - Z.of_nat position) (Z.of_nat size)),
    (Nat.leb_spec size (m_size b - position)); try lia; [done|].
  destruct (Nat.eqb_spec (m_baseSize b) 0); [lia|].
  destruct (wf_fits b 1 Hwf ltac:(lia) ltac:(lia)) as [_ Ho Hc' Hi Hpos1 Hr].
  destruct (deref_block b _ Hu Hi) as (nd & Hd & Hl). rewrite Hc', Hd, Hl.
  rewrite <- Nat2Z.inj_mod, !Nat2Z.id.
  rewrite read_at_loop_spec; [done|lia|done|apply Nat.mod_upper_bound; lia|done|].
  unfold start in Hroom. lia.
Qed.

Lemma toString_spec b :
  wf b -> Z.of_nat (m_size b) < 2 ^ 64 ->
  toString b = Ok (slice (m_position b) (getReadSize b) (content b)).
Proof.
  intros Hwf Hmax. pose proof Hwf as [Hb Hnn Hu Hc Hp Hs Hcur]. unfold toString.
  destruct (Nat.eqb_spec (getReadSize b) 0) as [->|H0]; [unfold slice; by rewrite take_0|].
  unfold getReadSize in *.
  pose proof (pos_split (m_baseSize b) (m_position b) Hb) as Hsplit.
  rewrite read_at_spec by (done || lia). rewrite <- Hsplit.
  destruct (Nat.leb_spec (m_size b - m_position b) (m_size b - m_position b)); [|lia].
  by rewrite slice_content by (done || lia).
Qed.

(** ** Files *)

(** What the writes of [writeToFile] put in the file; a write outside its block,
    or of a negative length, has no meaning here. *)
Fixpoint file_of (nodes : list str) (l : list (nat * Z * Z)) : option str :=
  match l with
  | [] => Some []
  | (i, off, len) :: l =>
      nd ← nodes !! i;
      rest ← file_of nodes l;
      if bool_decide (0 <= off /\ 0 <= len /\ off + len <= Z.of_nat (length nd))
      then Some (slice (Z.to_nat off) (Z.to_nat len) nd ++ rest) else None
  end.

(** From a block boundary, the loop writes the rest of the content in order. *)
Lemma dump_loop_spec fuel b i n :
  (n <= fuel)%nat -> uniform (m_baseSize b) (m_nodes b) -> (0 < m_baseSize b)%nat ->
  Z.of_nat (m_baseSize b * length (m_nodes b)) < 2 ^ 63 -> Z.of_nat (m_baseSize b) < 2 ^ 31 ->
  (i * m_baseSize b + n <= m_baseSize b * length (m_nodes b))%nat ->
  exists l, dump_loop (S fuel) b (if (i <? length (m_nodes b))%nat then Some i else None)
              (Z.of_nat (i * m_baseSize b)) (Z.of_nat n) = Ok l /\
    file_of (m_nodes b) l = Some (slice (i * m_baseSize b) n (data b)).
Proof.
  revert i n. induction fuel as [|fuel IH]; intros i n Hf Hu Hb Hmax Hint Hroom.
  { assert (n = 0%nat) as -> by lia. eexists. split; [done|]. unfold slice. by rewrite take_0. }
  destruct (Nat.eq_dec n 0) as [->|Hn]; [eexists; split; [done|]; unfold slice; by rewrite take_0|].
  assert (Hi : (i < length (m_nodes b))%nat) by nia.
  destruct (Nat.ltb_spec i (length (m_nodes b))); [|lia].
  set (f := S fuel). cbn [dump_loop].
  destruct (Z.ltb_spec 0 (Z.of_nat n)); [|lia].
  change (2 ^ 63) with 9223372036854775808 in Hmax. change (2 ^ 31) with 2147483648 in Hint.
  assert (Hdiff : i32 (u64 (Z.of_nat (i * m_baseSize b)) mod Z.of_nat (m_baseSize b)) = 0).
  { rewrite wrap_small by (split; [lia|change (2 ^ 64) with 18446744073709551616; nia]).
    by rewrite Nat2Z.inj_mul, Z_mod_mult. }
  rewrite Hdiff, Z.sub_0_r.
  set (len := (m_baseSize b `min` n)%nat).
  assert (Hlen : (if Z.of_nat (m_baseSize b) <? Z.of_nat n then Z.of_nat (m_baseSize b)
                  else Z.of_nat n) = Z.of_nat len).
  { unfold len. destruct (Z.ltb_spec (Z.of_nat (m_baseSize b)) (Z.of_nat n)); lia. }
  rewrite Hlen, swrap_small; [|done|unfold signed_range; change (2 ^ (64 - 1)) with
    9223372036854775808; unfold len; nia].
  destruct (lookup_lt_is_Some_2 _ _ Hi) as [nd Hnd].
  pose proof (uniform_lookup _ _ _ _ Hu Hnd) as Hnl. unfold deref. rewrite Hnd. unfold next.
  assert (Hstep : exists l,
    dump_loop f b (if (S i <? length (m_nodes b))%nat then Some (S i) else None)
      (Z.of_nat (i * m_baseSize b) + Z.of_nat len) (Z.of_nat n - Z.of_nat len) = Ok l /\
    file_of (m_nodes b) l = Some (slice (i * m_baseSize b + len) (n - len) (data b))).
  { destruct (Nat.le_gt_cases n (m_baseSize b)).
    - assert (len = n) as -> by (unfold len; lia). rewrite Z.sub_diag, Nat.sub_diag.
      eexists. split; [done|]. unfold slice. by rewrite take_0.
    - assert (len = m_baseSize b) as -> by (unfold len; lia).
      rewrite <- Nat2Z.inj_add, <- Nat2Z.inj_sub by lia.
      replace (i * m_baseSize b + m_baseSize b)%nat with (S i * m_baseSize b)%nat by lia.
      apply IH; (done || lia). }
  destruct Hstep as (l & Hrun & Hfile). rewrite Hrun. eexists. split; [done|].
  cbn [file_of]. rewrite Hnd. simpl. rewrite Hfile. simpl.
  rewrite bool_decide_true by (unfold len; lia). rewrite Nat2Z.id, <- slice_concat with
    (n := m_baseSize b) (ls := m_nodes b) (i := i) by (done || unfold len; lia).
  rewrite Nat.add_0_r, <- slice_add. do 2 f_equal. unfold len. lia.
Qed.

(** Reading a file in chunks writes the whole file at the position. *)
Lemma slurp_loop_spec uninit fuel s b :
  wf b -> (length s < fuel)%nat ->
  exists b', slurp_loop uninit fuel s b = (Ok tt, b') /\ wf b' /\ keeps b b' /\
    view b' = spec_write s (view b).
Proof.
  revert s b. induction fuel as [|fuel IH]; [lia|]. intros s b Hwf Hf. cbn [slurp_loop].
  rewrite (bind_ok get _ b b b) by done. cbv beta zeta. pose proof (wf_base b Hwf) as Hb.
  destruct (write_refines uninit b (take (m_baseSize b) s) Hwf)
    as (b1 & Hrun & Hwf1 & [Hk1 Hk2] & Hv).
  rewrite (bind_ok _ _ _ _ _ Hrun).
  destruct (Nat.ltb_spec (length (take (m_baseSize b) s)) (m_baseSize b)) as [Hlt|Hge];
    rewrite length_take in *.
  - exists b1. split_and!; [done|done|done|]. by rewrite Hv, take_ge by lia.
  - destruct (IH (drop (m_baseSize b) s) b1 Hwf1) as (b2 & Hrun2 & Hwf2 & [Hk3 Hk4] & Hv2);
      [rewrite length_drop; lia|].
    exists b2. split_and!; [done|done|split; congruence|].
    rewrite <- (take_drop (m_baseSize b) s). unfold view at 2. rewrite spec_write_app.
    + by rewrite Hv2, Hv.
    + rewrite length_content by done. apply (wf_position b Hwf).
Qed.

(** ** The hexadecimal dump *)

(** Reading the dump back: skip the separators, take the digits in pairs. *)
Definition is_sep (c : byte) : bool := (b2z c =? 32) || (b2z c =? 10).
Definition hex_val (c : byte) : Z := if b2z c <? 58 then b2z c - 48 else b2z c - 87.
Fixpoint pairs (s : str) : str :=
  match s with
  | h :: l :: s => z2b (16 * hex_val h + hex_val l) :: pairs s
  | _ => []
  end.
Definition unhex (s : str) : str := pairs (filter (fun c => is_sep c = false) s).

Lemma unhex_byte c s : unhex (hex_byte c ++ s) = c :: unhex s.
Proof.
  assert (H : forallb (fun c => bool_decide (
    filter (fun c => is_sep c = false) (hex_byte c) =
      [hex_digit (b2z c / 16); hex_digit (b2z c mod 16)] /\
    z2b (16 * hex_val (hex_digit (b2z c / 16)) + hex_val (hex_digit (b2z c mod 16))) = c))
    (z2b <$> seqZ 0 256) = true) by (vm_compute; reflexivity).
  rewrite forallb_forall in H. specialize (H c).
  rewrite bool_decide_eq_true in H. destruct H as [H1 H2].
  - apply list_elem_of_In, list_elem_of_fmap. exists (b2z c). rewrite z2b_b2z. split; [done|].
    apply elem_of_seqZ. pose proof (b2z_range c). lia.
  - unfold unhex. rewrite filter_app, H1. simpl. by rewrite H2.
Qed.

Lemma unhex_newline s : unhex (z2b 10 :: s) = unhex s.
Proof. done. Qed.

Lemma unhex_dump s k :
  unhex (concat (imap (fun i c =>
    (if (0 <? k + i)%nat && ((k + i) mod 32 =? 0)%nat then [z2b 10] else []) ++ hex_byte c) s)) = s.
Proof.
  revert k. induction s as [|c s IH]; intros k; [done|].
  rewrite imap_cons. cbn [concat]. rewrite <- app_assoc.
  assert (Htail : unhex (hex_byte c ++ concat (imap ((fun i c =>
    (if (0 <? k + i)%nat && ((k + i) mod 32 =? 0)%nat then [z2b 10] else []) ++ hex_byte c) ∘ S) s))
    = c :: s).
  { rewrite unhex_byte. f_equal. rewrite <- (IH (S k)) at 2. do 2 f_equal.
    apply imap_ext. intros i x _. simpl. by rewrite Nat.add_succ_r. }
  destruct ((0 <? k + 0)%nat && ((k + 0) mod 32 =? 0)%nat); [rewrite <- Htail; apply unhex_newline|].
  exact Htail.
Qed.
