(* ===== verification/ByteArraySafety.v ===== *)
(** * ByteArray: its public operations, and how they can stop the program

    Every member function a program can call, as one type of operations, and what each may do to an array that
    satisfies the invariant: return or throw with the invariant kept, or stop the program in the
    cases of [hazard]. *)

From S2P Require Import Prelude Endians ByteArray ByteArraySpec ByteArrayCodec ByteArrayIo.
#[local] Set Default Goal Selector "!".

(** ** The operations *)

Inductive number := Fint8 | Fuint8 | Fint16 | Fuint16 | Fint32 | Fuint32 | Fint64 | Fuint64
  | Int32 | Uint32 | Int64 | Uint64 | Float | Double.
Inductive prefix := F16 | F32 | F64 | Vint.

Inductive op :=
| OWrite (bs : str)
| OWriteNumber (t : number) (v : Z)
| OWriteString (k : prefix) (s : str)
| OWriteStringWithoutLength (s : str)
| ORead (n : nat)
| OReadNumber (t : number)
| OReadString (k : prefix)
| OReadAt (size position : nat)
| OSetPosition (v : nat)
| OClear
| OSetIsLittleEndian (val : bool)
| OGetReadBuffers (len : nat)
| OGetReadBuffersAt (len position : nat)
| OGetWriteBuffers (len : nat)
| OToString
| OToHexString
| OWriteToFile (opened : bool)
| OReadFromFile (file : option str).

Section operations.
Context (host : byte_order) (uninit : nat -> nat -> byte).

(** The argument is converted to the type of the parameter. *)
Definition write_number (t : number) (v : Z) : M ByteArray unit :=
  match t with
  | Fint8 => writeFint8 host uninit (swrap 8 v)
  | Fuint8 => writeFuint8 host uninit (wrap 8 v)
  | Fint16 => writeFint16 host uninit (swrap 16 v)
  | Fuint16 => writeFuint16 host uninit (wrap 16 v)
  | Fint32 => writeFint32 host uninit (swrap 32 v)
  | Fuint32 => writeFuint32 host uninit (wrap 32 v)
  | Fint64 => writeFint64 host uninit (swrap 64 v)
  | Fuint64 => writeFuint64 host uninit (wrap 64 v)
  | Int32 => writeInt32 uninit (swrap 32 v)
  | Uint32 => writeUint32 uninit (wrap 32 v)
  | Int64 => writeInt64 uninit (swrap 64 v)
  | Uint64 => writeUint64 uninit (wrap 64 v)
  | Float => writeFloat host uninit (wrap 32 v)
  | Double => writeDouble host uninit (wrap 64 v)
  end.
Definition read_number (t : number) : M ByteArray Z :=
  match t with
  | Fint8 => readFint8 host
  | Fuint8 => readFuint8 host
  | Fint16 => readFint16 host
  | Fuint16 => readFuint16 host
  | Fint32 => readFint32 host
  | Fuint32 => readFuint32 host
  | Fint64 => readFint64 host
  | Fuint64 => readFuint64 host
  | Int32 => readInt32 host
  | Uint32 => readUint32 host
  | Int64 => readInt64 host
  | Uint64 => readUint64 host
  | Float => readFloat host
  | Double => readDouble host
  end.
Definition write_string (k : prefix) : str -> M ByteArray unit :=
  match k with
  | F16 => writeStringF16 host uninit
  | F32 => writeStringF32 host uninit
  | F64 => writeStringF64 host uninit
  | Vint => writeStringVint uninit
  end.
Definition read_string (k : prefix) : M ByteArray str :=
  match k with
  | F16 => readStringF16 host
  | F32 => readStringF32 host
  | F64 => readStringF64 host
  | Vint => readStringVint host
  end.

(** The length a string reader reads before the string. *)
Definition read_prefix (k : prefix) : M ByteArray Z :=
  match k with
  | F16 => readFuint16 host
  | F32 => readFuint32 host
  | F64 => readFuint64 host
  | Vint => readUint64 host
  end.

(** A [const] member function. *)
Definition observe {A} (f : ByteArray -> res A) : M ByteArray unit := fun b =>
  (match f b with Ok _ => Ok tt | Throw e => Throw e | Crash c => Crash c end, b).

(** The writes of [writeToFile], which the stream reads from the blocks. *)
Definition dump (opened : bool) (b : ByteArray) : res unit :=
  match writeToFile (S (getReadSize b)) opened b with
  | Ok (_, l) => match file_of (m_nodes b) l with Some _ => Ok tt | None => Crash OutOfBounds end
  | Throw e => Throw e
  | Crash c => Crash c
  end.

Definition run_op (o : op) : M ByteArray unit :=
  match o with
  | OWrite bs => write uninit bs
  | OWriteNumber t v => write_number t v
  | OWriteString k s => write_string k s
  | OWriteStringWithoutLength s => writeStringWithoutLength uninit s
  | ORead n => read (Z.of_nat n) ;; mret tt
  | OReadNumber t => read_number t ;; mret tt
  | OReadString k => read_string k ;; mret tt
  | OReadAt size position => observe (read_at (Z.of_nat size) (Z.of_nat position))
  | OSetPosition v => setPosition v
  | OClear => clear
  | OSetIsLittleEndian val => setIsLittleEndian val
  | OGetReadBuffers len => observe (getReadBuffers len)
  | OGetReadBuffersAt len position => observe (getReadBuffers_at len position)
  | OGetWriteBuffers len => getWriteBuffers uninit len ;; mret tt
  | OToString => observe toString
  | OToHexString => observe toHexString
  | OWriteToFile opened => observe (dump opened)
  | OReadFromFile file => readFromFile uninit file ;; mret tt
  end.

(** How an operation called on [b] can stop the program: reading nothing, at the end of the capacity, also
    as the text of an empty string; listing the blocks from a position so that the run passes the last one;
    reading at a position when that is past the end of the content, or when the blocks from the cursor's on
    have too few bytes; writing to a file from inside a block, or with blocks that an [int] cannot index. *)
Definition hazard (o : op) (c : crash) (b : ByteArray) : Prop :=
  match o with
  | ORead n => c = NullDeref /\ n = 0%nat /\ m_position b = m_capacity b
  | OReadString k => c = NullDeref /\ exists b', read_prefix k b = (Ok 0, b') /\ m_position b' = m_capacity b'
  | OGetReadBuffersAt len position => (0 < clip b len)%nat /\ (m_capacity b < position + clip b len)%nat
  | OReadAt size position =>
      (m_size b < position)%nat \/ m_position b = m_capacity b \/
      (m_capacity b < m_position b / m_baseSize b * m_baseSize b + position mod m_baseSize b + size)%nat
  | OWriteToFile opened => opened = true /\ ((m_position b mod m_baseSize b <> 0)%nat \/ 2 ^ 31 <= Z.of_nat (m_baseSize b))
  | _ => False
  end.

(** ** Computations that never stop the program *)

Definition yields {A} (P : A -> Prop) (m : M ByteArray A) : Prop :=
  forall b, wf b -> match m b with (Ok a, b') => P a /\ wf b' | (Throw _, b') => wf b' | (Crash _, _) => False end.
Abbreviation safely := (yields (fun _ => True)).

Lemma yields_ret {A} (P : A -> Prop) a : P a -> yields P (mret a).
Proof. by intros HP b Hwf. Qed.
Lemma yields_get : safely get.
Proof. by intros b Hwf. Qed.
Lemma yields_bind {A B} (P : A -> Prop) (Q : B -> Prop) (m : M ByteArray A) (f : A -> M ByteArray B) :
  yields P m -> (forall a, P a -> yields Q (f a)) -> yields Q (m ≫= f).
Proof.
  intros Hm Hf b Hwf. specialize (Hm b Hwf). destruct (m b) as [[a|e|c] b'] eqn:E; [|by rewrite (bind_throw _ _ _ _ _ E)|done].
  rewrite (bind_ok _ _ _ _ _ E). destruct Hm as [HP Hwf']. exact (Hf a HP b' Hwf').
Qed.
Lemma yields_write bs : safely (write uninit bs).
Proof. intros b Hwf. by destruct (write_refines uninit b bs Hwf) as (b' & -> & ? & _). Qed.
Lemma yields_read n : (0 < n)%nat -> safely (read (Z.of_nat n)).
Proof.
  intros Hn b Hwf. assert (H := read_refines b n Hwf Hn). destruct (n <=? length (content b) - m_position b)%nat.
  - by destruct H as [-> ?].
  - by rewrite H.
Qed.

Lemma yields_read_some size : 0 < size -> safely (read size).
Proof. intros Hs. rewrite <- (Z2Nat.id size) by lia. apply yields_read. lia. Qed.

(** ** Numbers *)

Lemma yields_writeFuint n v : safely (writeFuint host uninit n v).
Proof. eapply yields_bind; [apply yields_get|]. intros b _. apply yields_write. Qed.
Lemma yields_writeFint n v : safely (writeFint host uninit n v).
Proof. eapply yields_bind; [apply yields_get|]. intros b _. apply yields_write. Qed.

Lemma yields_varint w room v : 0 <= w -> w <= 7 * Z.of_nat room -> (0 < room)%nat -> unsigned_range w v -> safely (write_varint uninit room v).
Proof.
  intros Hw Hr H0 Hv. unfold write_varint. destruct (varint_bytes_ok room v H0 (varint_room w room Hr v Hw Hv)) as (bs & -> & _).
  apply yields_write.
Qed.
Lemma yields_varint32 v : unsigned_range 32 v -> safely (writeUint32 uninit v).
Proof. intros Hv. by apply (yields_varint 32); try done; lia. Qed.
Lemma yields_varint64 v : unsigned_range 64 v -> safely (writeUint64 uninit v).
Proof. intros Hv. by apply (yields_varint 64); try done; lia. Qed.

Lemma wrap_in w v : 0 <= w -> unsigned_range w (wrap w v).
Proof. intros Hw. apply Z.mod_pos_bound, Z.pow_pos_nonneg; lia. Qed.

Lemma yields_write_number t v : safely (write_number t v).
Proof.
  destruct t; cbn [write_number]; try apply yields_writeFint; try apply yields_writeFuint; try apply yields_write.
  all: try (apply yields_varint32); try (apply yields_varint64); try by apply wrap_in.
  - unfold EncodeZigzag32. case_match; by apply wrap_in.
  - unfold EncodeZigzag64. case_match; by apply wrap_in.
Qed.

Lemma load_nonneg bs : 0 <= load host bs.
Proof. unfold load. destruct host; apply le_val_range. Qed.

Lemma yields_readFuint8 : yields (fun v => 0 <= v) (readFuint8 host).
Proof. eapply yields_bind; [by apply (yields_read_some 1)|]. intros bs _. apply yields_ret, load_nonneg. Qed.

Lemma yields_readFuint n : swappable n -> yields (fun v => 0 <= v) (readFuint host n).
Proof.
  intros Hn. eapply yields_bind; [apply yields_read; by apply swappable_pos|]. intros bs _.
  eapply yields_bind; [apply yields_get|]. intros b _. apply yields_ret.
  destruct (swapped host b); [exact (proj1 (byteswap_range n _ Hn))|apply load_nonneg].
Qed.
Lemma yields_readFint n : (0 < n)%nat -> safely (readFint host n).
Proof.
  intros Hn. eapply yields_bind; [by apply yields_read|]. intros bs _. eapply yields_bind; [apply yields_get|]. intros b _. by apply yields_ret.
Qed.

(** The loop reads at most [fuel] bytes. *)
Lemma yields_read_varint fuel w i result :
  0 <= result -> 0 <= i -> (0 < fuel)%nat -> w <= i + 7 * (Z.of_nat fuel - 1) -> yields (fun v => 0 <= v) (read_varint host fuel w i result).
Proof.
  revert i result. induction fuel as [|fuel IH]; intros i result Hr Hi Hf Hw; [lia|]. cbn [read_varint].
  destruct (Z.ltb_spec i w); [|by apply yields_ret]. eapply yields_bind; [apply yields_readFuint8|]. intros v Hv. cbv beta in Hv.
  assert (Hlor : forall x, 0 <= Z.lor result (wrap w x)).
  { intros x. apply Z.lor_nonneg. split; [done|]. exact (proj1 (wrap_in w x ltac:(lia))). }
  destruct (v <? 128); [by apply yields_ret|]. apply IH; [done|lia..].
Qed.

Lemma yields_weaken {A} (P Q : A -> Prop) (m : M ByteArray A) : (forall a, P a -> Q a) -> yields P m -> yields Q m.
Proof. intros HPQ Hm b Hwf. specialize (Hm b Hwf). destruct (m b) as [[a|e|c] b']; [by destruct Hm; split; [apply HPQ|]|done|done]. Qed.

Lemma yields_read_prefix k : yields (fun v => 0 <= v) (read_prefix k).
Proof. destruct k; cbn [read_prefix]; try (apply yields_readFuint; unfold swappable; lia). apply yields_read_varint; lia. Qed.

Lemma yields_read_number t : safely (read_number t).
Proof.
  assert (Hu : forall n, swappable n -> safely (readFuint host n)) by (intros n Hn; by eapply yields_weaken, yields_readFuint).
  assert (Hv : forall fuel w, (0 < fuel)%nat -> w <= 0 + 7 * (Z.of_nat fuel - 1) -> safely (read_varint host fuel w 0 0))
    by (intros fuel w ? ?; eapply yields_weaken, yields_read_varint; done).
  destruct t; cbn [read_number]; try (apply Hu; unfold swappable; lia); try (apply yields_readFint; lia); try (apply Hv; lia).
  - eapply yields_bind; [by apply (yields_read_some 1)|]. intros bs _. by apply yields_ret.
  - eapply yields_weaken, yields_readFuint8. done.
  - eapply yields_bind; [apply Hv; lia|]. intros v _. by apply yields_ret.
  - eapply yields_bind; [apply Hv; lia|]. intros v _. by apply yields_ret.
Qed.

(** ** Strings *)

Lemma yields_write_string k s : safely (write_string k s).
Proof.
  destruct k; (eapply yields_bind; [|intros ? _; apply yields_write]); try apply yields_writeFuint. apply yields_varint64. by apply wrap_in.
Qed.

Lemma read_string_prefix k : read_string k = (len ← read_prefix k; read len).
Proof. by destruct k. Qed.

(** A read of as many bytes as a prefix says. *)
Lemma read_length len b :
  wf b -> 0 <= len ->
  match read len b with
  | (Crash c, _) => c = NullDeref /\ len = 0 /\ m_position b = m_capacity b
  | (_, b') => wf b'
  end.
Proof.
  intros Hwf Hl. destruct (Z.eq_dec len 0) as [->|Hn].
  - rewrite read_zero by done. by destruct (Nat.eqb_spec (m_position b) (m_capacity b)).
  - pose proof (yields_read_some len ltac:(lia) b Hwf) as H. by destruct (read len b) as [[a|e|c] b']; [destruct H|..].
Qed.

Lemma read_string_safe k b :
  wf b ->
  match read_string k b with
  | (Crash c, _) => hazard (OReadString k) c b
  | (_, b') => wf b'
  end.
Proof.
  intros Hwf. rewrite read_string_prefix. pose proof (yields_read_prefix k b Hwf) as H.
  destruct (read_prefix k b) as [[len|e|c] b'] eqn:E; [|by rewrite (bind_throw _ _ _ _ _ E)|done].
  rewrite (bind_ok _ _ _ _ _ E). destruct H as [Hl Hwf']. cbv beta in Hl. pose proof (read_length len b' Hwf' Hl) as Hread.
  destruct (read len b') as [[a|e|c] b2]; [done|done|]. destruct Hread as (-> & -> & Hp). split; [done|]. by exists b'.
Qed.

(** ** The operations that do not change the array *)

Lemma observe_ok {A} (f : ByteArray -> res A) b a : f b = Ok a -> observe f b = (Ok tt, b).
Proof. intros H. unfold observe. by rewrite H. Qed.

Lemma getReadBuffers_at_safe len position c b :
  wf b -> getReadBuffers_at len position b = Crash c -> hazard (OGetReadBuffersAt len position) c b.
Proof.
  intros Hwf Hc. cbn [hazard]. destruct (Nat.eq_dec (clip b len) 0) as [H0|H0].
  { unfold getReadBuffers_at in Hc. rewrite clip_if, H0 in Hc. done. }
  split; [lia|]. destruct (Nat.le_gt_cases (m_capacity b) position); [lia|].
  pose proof (getReadBuffers_at_spec b len position Hwf ltac:(lia) ltac:(lia)) as Hspec.
  destruct (Nat.leb_spec (position + clip b len) (m_capacity b)); [|done]. destruct Hspec as (l & Hl & _). congruence.
Qed.

Lemma read_at_safe size position c b :
  wf b -> Z.of_nat (m_capacity b) < 2 ^ 63 -> read_at (Z.of_nat size) (Z.of_nat position) b = Crash c -> hazard (OReadAt size position) c b.
Proof.
  intros Hwf Hmax Hc. pose proof (wf_position b Hwf). pose proof (wf_size b Hwf). cbn [hazard].
  destruct (Nat.lt_ge_cases (m_size b) position) as [|Hp]; [by left|right].
  destruct (Nat.eq_dec (m_position b) (m_capacity b)) as [|Hcap]; [by left|right].
  destruct (Nat.le_gt_cases (m_position b / m_baseSize b * m_baseSize b + position mod m_baseSize b + size) (m_capacity b)) as [Hroom|]; [|done].
  rewrite read_at_spec in Hc by (done || lia). by destruct (size <=? m_size b - position)%nat.
Qed.

Lemma dump_safe opened c b :
  wf b -> Z.of_nat (m_capacity b) < 2 ^ 63 -> dump opened b = Crash c -> hazard (OWriteToFile opened) c b.
Proof.
  intros Hwf Hmax Hc. destruct opened; [|done]. split; [done|]. pose proof Hwf as [Hb Hn Hu Hcap Hp Hs Hcur].
  destruct (Nat.eq_dec (m_position b mod m_baseSize b) 0) as [Hmod|]; [right|by left].
  destruct (Z.lt_ge_cases (Z.of_nat (m_baseSize b)) (2 ^ 31)) as [Hint|]; [|done]. exfalso.
  pose proof (pos_split (m_baseSize b) (m_position b) Hb) as Hsplit. rewrite Hmod, Nat.add_0_r in Hsplit.
  unfold dump, writeToFile in Hc. destruct (Nat.eqb_spec (m_baseSize b) 0); [lia|]. cbn [negb] in Hc.
  destruct (dump_loop_spec (getReadSize b) b (m_position b / m_baseSize b) (getReadSize b)) as (l & Hl & Hf);
    rewrite <- ?Hsplit, <- ?Hcap in *; unfold getReadSize in *; try (done || lia).
  rewrite Hcur in Hc. unfold cur_at in Hc. by rewrite Hl, Hf in Hc.
Qed.

(** ** Every operation *)

Lemma yields_run {A} (P : A -> Prop) (m : M ByteArray A) : yields P m -> safely (m ;; mret tt).
Proof. intros Hm. eapply yields_bind; [exact Hm|]. intros a _. by apply yields_ret. Qed.

Lemma yields_outcome (m : M ByteArray unit) o b :
  safely m -> wf b -> match m b with (Crash c, _) => hazard o c b | (_, b') => wf b' end.
Proof. intros Hm Hwf. specialize (Hm b Hwf). by destruct (m b) as [[a|e|c] b']; [destruct Hm|..]. Qed.

Lemma observe_outcome {A} (f : ByteArray -> res A) o b :
  wf b -> (forall c, f b = Crash c -> hazard o c b) -> match observe f b with (Crash c, _) => hazard o c b | (_, b') => wf b' end.
Proof. intros Hwf Hc. unfold observe. destruct (f b); [done|done|by apply Hc]. Qed.

Lemma yields_others o :
  match o with
  | OSetPosition _ | OClear | OSetIsLittleEndian _ | OGetWriteBuffers _ | OReadFromFile _ => safely (run_op o)
  | _ => True
  end.
Proof.
  destruct o as [| | | | | | | |v| |val| | |len| | | |file]; try done; cbn [run_op].
  - intros b Hwf. assert (H := setPosition_spec b v Hwf). destruct (m_capacity b <? v)%nat; rewrite H; [done|].
    split; [done|]. by eapply setPosition_wf.
  - intros b Hwf. by destruct (clear_wf b Hwf) as (b' & -> & ? & _).
  - intros b Hwf. by destruct (setIsLittleEndian_wf b val Hwf) as (b' & -> & ? & _).
  - apply (yields_run (fun _ => True)). intros b Hwf. by destruct (getWriteBuffers_ok uninit b len Hwf) as (b' & l & -> & ? & _).
  - apply (yields_run (fun _ => True)). destruct file as [s|]; [|by apply yields_ret]. cbn [readFromFile].
    eapply (yields_bind (fun _ => True)); [|intros ? _; by apply yields_ret].
    intros b Hwf. by destruct (slurp_loop_spec uninit (S (length s)) s b Hwf ltac:(lia)) as (b' & -> & ? & _).
Qed.

Lemma run_op_safe o b :
  wf b -> Z.of_nat (m_capacity b) < 2 ^ 63 ->
  match run_op o b with (Crash c, _) => hazard o c b | (_, b') => wf b' end.
Proof.
  intros Hwf Hmax. pose proof (yields_others o) as Ho. assert (Hsize := wf_size b Hwf).
  destruct o as [bs|t v|k s|s|n|t|k|size position|v| |val|len|len position|len| | |opened|file]; cbn [run_op] in *;
    try (by apply yields_outcome); try (apply observe_outcome; [done|]).
  - apply yields_outcome; [apply yields_write|done].
  - apply yields_outcome; [apply yields_write_number|done].
  - apply yields_outcome; [apply yields_write_string|done].
  - apply yields_outcome; [apply yields_write|done].
  - pose proof (read_length (Z.of_nat n) b Hwf ltac:(lia)) as H. destruct (read (Z.of_nat n) b) as [[a|e|c] b'] eqn:E.
    + by rewrite (bind_ok _ _ _ _ _ E).
    + by rewrite (bind_throw _ _ _ _ _ E).
    + rewrite (bind_crash _ _ _ _ _ E). destruct H as (? & ? & ?). cbn [hazard]. by split_and!; [|lia|].
  - apply yields_outcome; [by eapply yields_run, yields_read_number|done].
  - pose proof (read_string_safe k b Hwf) as H. destruct (read_string k b) as [[a|e|c] b'] eqn:E.
    + by rewrite (bind_ok _ _ _ _ _ E).
    + by rewrite (bind_throw _ _ _ _ _ E).
    + by rewrite (bind_crash _ _ _ _ _ E).
  - intros c. by apply read_at_safe.
  - intros c Hc. destruct (getReadBuffers_ok b len Hwf) as (l & H & _). congruence.
  - intros c. by apply getReadBuffers_at_safe.
  - intros c Hc. rewrite toString_spec in Hc by (done || lia). done.
  - intros c Hc. unfold toHexString in Hc. rewrite toString_spec in Hc by (done || lia). done.
  - intros c. by apply dump_safe.
Qed.
End operations.
