(* ===== verification/ByteArrayTheorems.v ===== *)
(** * ByteArray: the properties

    The operations keep the invariant, and fail only in the cases of [hazard]
    (ByteArraySafety); writes and reads implement a byte string
    with a position; every encoder round trips; the scatter/gather lists and the
    file transfers move exactly the bytes they should, where they do. *)

From S2P Require Import Prelude Endians ByteArray ByteArraySpec ByteArrayCodec ByteArrayIo ByteArraySafety.
#[local] Set Default Goal Selector "!".

(** ** Histories *)

(** The states an array can be in: built with blocks of at least a byte, then operated on, its capacity within
    what a size can be; an operation that throws leaves the state it threw in. *)
Inductive reachable (host : byte_order) (uninit : nat -> nat -> byte) : ByteArray -> Prop :=
| reach_new n : (0 < n)%nat -> reachable host uninit (new_ByteArray uninit n)
| reach_op b o r b' :
    reachable host uninit b -> Z.of_nat (m_capacity b) < 2 ^ 63 -> run_op host uninit o b = (r, b') -> (forall c, r <> Crash c) ->
    reachable host uninit b'.

Lemma reachable_wf host uninit b : reachable host uninit b -> wf b.
Proof.
  induction 1 as [n Hn|b o r b' _ IH Hmax Hrun Hnc]; [by apply new_ByteArray_wf|].
  pose proof (run_op_safe host uninit o b IH Hmax) as H. rewrite Hrun in H. destruct r; [done|done|by destruct (Hnc c)].
Qed.

(** C1: In every state reachable from the constructor, with blocks of at least one byte, by any of the public
    operations, the block list and the cursor are consistent (equal blocks, capacity their total, position within
    size within capacity, cursor in the position's block), and none of the operations stops the program, except
    in the following cases.  Reading nothing at the end of the capacity dereferences null, be it called so
    or for the text of an empty string.  Listing the blocks to read from a given position can fail when the run
    passes the capacity, reading at a given position when it is past the content, or when the cursor is at the end
    of the capacity or too few bytes follow from its block, and writing to a file when the position is inside
    a block or blocks are of 2^31 bytes or more.  An array of blocks of no bytes is not considered; its
    capacity is below 2^63. *)
Theorem reachable_safe host uninit b :
  reachable host uninit b ->
  wf b /\
  (Z.of_nat (m_capacity b) < 2 ^ 63 -> forall o c b', run_op host uninit o b = (Crash c, b') ->
   match o with
   | ORead n => c = NullDeref /\ n = 0%nat /\ m_position b = m_capacity b
   | OReadString k => c = NullDeref /\ exists b1, read_prefix host k b = (Ok 0, b1) /\ m_position b1 = m_capacity b1
   | OGetReadBuffersAt len position => (0 < clip b len)%nat /\ (m_capacity b < position + clip b len)%nat
   | OReadAt size position =>
       (m_size b < position)%nat \/ m_position b = m_capacity b \/
       (m_capacity b < m_position b / m_baseSize b * m_baseSize b + position mod m_baseSize b + size)%nat
   | OWriteToFile opened => opened = true /\ ((m_position b mod m_baseSize b <> 0)%nat \/ 2 ^ 31 <= Z.of_nat (m_baseSize b))
   | _ => False
   end).
Proof.
  intros Hr. assert (Hwf := reachable_wf _ _ _ Hr). split; [done|]. intros Hmax o c b' Hrun.
  pose proof (run_op_safe host uninit o b Hwf Hmax) as H. by rewrite Hrun in H.
Qed.

Definition zeros : nat -> nat -> byte := fun _ _ => z2b 0.
Definition fresh4 : ByteArray := new_ByteArray zeros 4.

Lemma fresh4_wf : wf fresh4.
Proof. apply new_ByteArray_wf. lia. Qed.

Lemma reachable_safe_witness :
  let b := snd (write zeros (lit "hello") fresh4) in
  wf b /\ forall c b', run_op LittleEndian zeros (OReadNumber Uint32) b <> (Crash c, b').
Proof.
  intros b. destruct (reachable_safe LittleEndian zeros b) as [Hwf Hsafe].
  - eapply (reach_op _ _ fresh4 (OWrite (lit "hello")) (Ok tt)); [apply reach_new; lia|by vm_compute|by vm_compute|discriminate].
  - split; [exact Hwf|]. intros c b' Hc. by apply (Hsafe ltac:(by vm_compute) _ _ _ Hc).
Defined.

(** C2: A write never fails, whatever blocks it spans or adds; it keeps the
    invariant and acts on the content as an overwrite at the position that
    extends the content when it reaches past its end, and moves the position. *)
Theorem write_refinement uninit b bs :
  wf b ->
  exists b', write uninit bs b = (Ok tt, b') /\ wf b' /\ keeps b b' /\
    view b' = spec_write bs (view b).
Proof. apply write_refines. Qed.

Lemma write_refinement_witness :
  exists b', write zeros (lit "hello") fresh4 = (Ok tt, b') /\ wf b' /\ keeps fresh4 b' /\
    view b' = (lit "hello", 5%nat).
Proof. apply (write_refinement zeros fresh4 (lit "hello")). apply fresh4_wf. Defined.

(** C30: A read returns exactly the bytes of the content at the position, across
    blocks, and moves the position; it throws [std::out_of_range] and changes
    nothing when fewer bytes are left; and a read of zero bytes returns the empty
    string unless the position is the end of the capacity, where the cursor is
    null and is dereferenced. *)
Theorem read_refinement b n :
  wf b ->
  if (n =? 0)%nat then
    read (Z.of_nat n) b =
      (if (m_position b =? m_capacity b)%nat then Crash NullDeref else Ok [], b)
  else if (n <=? length (content b) - m_position b)%nat then
    read (Z.of_nat n) b = (Ok (slice (m_position b) n (content b)), moved n b) /\
    wf (moved n b) /\ view (moved n b) = (content b, (m_position b + n)%nat)
  else read (Z.of_nat n) b = (Throw out_of_range, b).
Proof.
  intros Hwf. destruct (Nat.eqb_spec n 0) as [->|Hn]; [by apply read_zero|].
  pose proof (read_refines b n Hwf ltac:(lia)) as H.
  destruct (n <=? length (content b) - m_position b)%nat; [|done].
  destruct H as [H ?]. by split_and!.
Qed.

Lemma read_refinement_witness : read 3 fresh4 = (Throw out_of_range, fresh4).
Proof. apply (read_refinement fresh4 3). apply fresh4_wf. Defined.

(** [setPosition] rejects a position past the capacity without changing the
    array, and otherwise moves the cursor to that position, keeps the invariant
    and the bytes, and extends the size when the position is past it. *)
Theorem setPosition_refinement b v :
  wf b ->
  if (m_capacity b <? v)%nat then setPosition v b = (Throw out_of_range, b)
  else exists b', setPosition v b = (Ok tt, b') /\ wf b' /\ keeps b b' /\
    m_position b' = v /\ m_size b' = (m_size b `max` v)%nat /\ data b' = data b.
Proof.
  intros Hwf. pose proof (setPosition_spec b v Hwf) as H.
  destruct (m_capacity b <? v)%nat; [done|]. eexists. split; [exact H|].
  split; [by eapply setPosition_wf|done].
Qed.

Lemma setPosition_refinement_witness :
  exists b', setPosition 4 fresh4 = (Ok tt, b') /\ wf b' /\ keeps fresh4 b' /\
    m_position b' = 4%nat /\ m_size b' = 4%nat /\ data b' = data fresh4.
Proof. apply (setPosition_refinement fresh4 4). apply fresh4_wf. Defined.

(** ** Encoders *)

(** The eight fixed-width integer encoders round trip, on both host byte
    orders and both settings of the array's byte order. *)
Theorem fixed_int_roundtrip host uninit e v :
  (signed_range 8 v -> roundtrips e (writeFint8 host uninit v) (readFint8 host) v) /\
  (unsigned_range 8 v -> roundtrips e (writeFuint8 host uninit v) (readFuint8 host) v) /\
  (signed_range 16 v -> roundtrips e (writeFint16 host uninit v) (readFint16 host) v) /\
  (unsigned_range 16 v -> roundtrips e (writeFuint16 host uninit v) (readFuint16 host) v) /\
  (signed_range 32 v -> roundtrips e (writeFint32 host uninit v) (readFint32 host) v) /\
  (unsigned_range 32 v -> roundtrips e (writeFuint32 host uninit v) (readFuint32 host) v) /\
  (signed_range 64 v -> roundtrips e (writeFint64 host uninit v) (readFint64 host) v) /\
  (unsigned_range 64 v -> roundtrips e (writeFuint64 host uninit v) (readFuint64 host) v).
Proof.
  assert (H2 : swappable 2) by by left. assert (H4 : swappable 4) by (right; by left).
  assert (H8 : swappable 8) by by do 2 right.
  split_and!; intros Hv.
  - by apply (codec_roundtrip (HC := codec_int8 host uninit e)).
  - by apply (codec_roundtrip (HC := codec_uint8 host uninit e)).
  - by apply (codec_roundtrip (HC := codec_int host uninit e 2 H2)).
  - by apply (codec_roundtrip (HC := codec_uint host uninit e 2 H2)).
  - by apply (codec_roundtrip (HC := codec_int host uninit e 4 H4)).
  - by apply (codec_roundtrip (HC := codec_uint host uninit e 4 H4)).
  - by apply (codec_roundtrip (HC := codec_int host uninit e 8 H8)).
  - by apply (codec_roundtrip (HC := codec_uint host uninit e 8 H8)).
Qed.

Lemma fixed_int_roundtrip_witness :
  roundtrips PHASE0_BIG_ENDIAN (writeFint32 LittleEndian zeros (-5)) (readFint32 LittleEndian) (-5).
Proof.
  destruct (fixed_int_roundtrip LittleEndian zeros PHASE0_BIG_ENDIAN (-5))
    as (_ & _ & _ & _ & H & _).
  apply H. unfold signed_range. lia.
Defined.

(** C32: The four base-128 encoders (unsigned and zigzag signed, 32 and 64 bits)
    round trip, the fixed arrays they fill never overflow. *)
Theorem varint_roundtrip host uninit e v :
  (unsigned_range 32 v -> roundtrips e (writeUint32 uninit v) (readUint32 host) v) /\
  (unsigned_range 64 v -> roundtrips e (writeUint64 uninit v) (readUint64 host) v) /\
  (signed_range 32 v -> roundtrips e (writeInt32 uninit v) (readInt32 host) v) /\
  (signed_range 64 v -> roundtrips e (writeInt64 uninit v) (readInt64 host) v).
Proof.
  split_and!; intros Hv.
  - by apply (codec_roundtrip (HC := codec_uint32_varint host uninit e)).
  - by apply (codec_roundtrip (HC := codec_uint64_varint host uninit e)).
  - by apply (codec_roundtrip (HC := codec_int32_varint host uninit e)).
  - by apply (codec_roundtrip (HC := codec_int64_varint host uninit e)).
Qed.

Lemma varint_roundtrip_witness :
  roundtrips PHASE0_BIG_ENDIAN (writeInt32 zeros (-2147483648)) (readInt32 LittleEndian)
    (-2147483648).
Proof.
  destruct (varint_roundtrip LittleEndian zeros PHASE0_BIG_ENDIAN (-2147483648))
    as (_ & _ & H & _).
  apply H. unfold signed_range. lia.
Defined.

(** C31: The four length-prefixed string encoders round trip for every non-empty
    string whose length the prefix can hold. *)
Theorem string_roundtrip host uninit e s :
  (fits_prefix 16 s -> roundtrips e (writeStringF16 host uninit s) (readStringF16 host) s) /\
  (fits_prefix 32 s -> roundtrips e (writeStringF32 host uninit s) (readStringF32 host) s) /\
  (fits_prefix 64 s -> roundtrips e (writeStringF64 host uninit s) (readStringF64 host) s) /\
  (fits_prefix 64 s -> roundtrips e (writeStringVint uninit s) (readStringVint host) s).
Proof.
  split_and!; intros Hs.
  - by apply (codec_roundtrip (HC := codec_stringF16 host uninit e)).
  - by apply (codec_roundtrip (HC := codec_stringF32 host uninit e)).
  - by apply (codec_roundtrip (HC := codec_stringF64 host uninit e)).
  - by apply (codec_roundtrip (HC := codec_stringVint host uninit e)).
Qed.

Lemma string_roundtrip_witness :
  roundtrips PHASE0_BIG_ENDIAN (writeStringF16 LittleEndian zeros (lit "key"))
    (readStringF16 LittleEndian) (lit "key").
Proof.
  destruct (string_roundtrip LittleEndian zeros PHASE0_BIG_ENDIAN (lit "key")) as (H & _).
  apply H. by split.
Defined.

(** The empty string does not round trip when its prefix ends the capacity:
    reading it back from there dereferences the null cursor. *)
Theorem empty_string_at_capacity host e b :
  wf b -> m_endian b = e -> ahead b (int_bytes host e 2 0) ->
  (m_position b + 2)%nat = m_capacity b ->
  readStringF16 host b = (Crash NullDeref, moved 2 b).
Proof.
  intros Hwf He Ha Hend.
  assert (Hl : length (int_bytes host e 2 0) = 2%nat) by apply length_store.
  rewrite <- Hl. apply (read_empty_crashes e (readFuint16 host)); [|done|done|done|by rewrite Hl].
  apply readFuint_consumes; [by left|unfold unsigned_range; lia].
Qed.

(** A two-byte array holding one empty string, rewound. *)
Definition full2 : ByteArray :=
  snd ((writeStringF16 LittleEndian zeros [] ;; setPosition 0) (new_ByteArray zeros 2)).

Lemma empty_string_at_capacity_witness :
  fst (readStringF16 LittleEndian full2) = Crash NullDeref.
Proof.
  rewrite (empty_string_at_capacity LittleEndian PHASE0_BIG_ENDIAN full2); [done| |done| |done].
  - split; try (vm_compute; lia). + by repeat constructor. + done.
  - by split; [vm_compute; lia|].
Defined.

(** A whole sequence of values of one encoder reads back in order; stated for
    strings written by [writeStringVint] between any other contents. *)
Theorem sequence_roundtrip host uninit e (l : list str) :
  Forall (fits_prefix 64) l ->
  roundtrips e (write_all (writeStringVint uninit) l)
    (read_all (readStringVint host) (length l)) l.
Proof.
  intros Hl.
  by apply (codec_roundtrip
    (HC := codec_list (HC := codec_stringVint host uninit e) (length l))).
Qed.

Lemma sequence_roundtrip_witness :
  roundtrips PHASE0_BIG_ENDIAN (write_all (writeStringVint zeros) [lit "a"; lit "bc"])
    (read_all (readStringVint LittleEndian) 2) [lit "a"; lit "bc"].
Proof.
  apply (sequence_roundtrip LittleEndian zeros PHASE0_BIG_ENDIAN [lit "a"; lit "bc"]).
  by repeat constructor.
Defined.

(** ** Scatter/gather *)

(** The entries of [getReadBuffers] designate, in order and inside their
    blocks, exactly the next [min(len, readable)] bytes of the content, so that
    gathering them sends those bytes. *)
Theorem getReadBuffers_gathers b len :
  wf b ->
  exists l, getReadBuffers len b = Ok (clip b len, l) /\ iov_total l = clip b len /\
    gather (m_nodes b) l = slice (m_position b) (clip b len) (content b).
Proof.
  intros Hwf. destruct (getReadBuffers_ok b len Hwf) as (l & Hl & Hc & Ht).
  exists l. split_and!; [done|done|]. rewrite (gather_spec _ _ _ _ (wf_uniform b Hwf) Hc), Ht.
  pose proof (wf_position b Hwf). rewrite slice_content; [done|done|unfold clip, getReadSize; lia].
Qed.

Lemma getReadBuffers_gathers_witness :
  exists l, getReadBuffers 9 fresh4 = Ok (0%nat, l) /\ iov_total l = 0%nat /\
    gather (m_nodes fresh4) l = [].
Proof. apply (getReadBuffers_gathers fresh4 9). apply fresh4_wf. Defined.

(** [getReadBuffers] from an explicit position clips the length by what is
    left after the cursor, not after that position: when the run passes the last
    block it dereferences null, otherwise it covers the run from the position. *)
Theorem getReadBuffers_at_overrun b len position :
  wf b -> (position < m_capacity b)%nat -> (0 < clip b len)%nat ->
  if (position + clip b len <=? m_capacity b)%nat
  then exists l, getReadBuffers_at len position b = Ok (clip b len, l) /\
         gather (m_nodes b) l = slice position (clip b len) (data b)
  else getReadBuffers_at len position b = Crash NullDeref.
Proof.
  intros Hwf Hpos Hlen. pose proof (getReadBuffers_at_spec b len position Hwf Hpos Hlen) as H.
  destruct (position + clip b len <=? m_capacity b)%nat; [|done].
  destruct H as (l & Hl & Hc & Ht). exists l. split; [done|].
  by rewrite (gather_spec _ _ _ _ (wf_uniform b Hwf) Hc), Ht.
Qed.

(** Four bytes in one block, rewound. *)
Definition four : ByteArray := snd ((write zeros (lit "abcd") ;; setPosition 0) fresh4).

Lemma four_wf : wf four.
Proof. split; try (vm_compute; lia); [by repeat constructor|done]. Qed.

Lemma getReadBuffers_at_overrun_witness : getReadBuffers_at 4 2 four = Crash NullDeref.
Proof. apply (getReadBuffers_at_overrun four 4 2); [apply four_wf|vm_compute; lia..]. Defined.

(** ** Reading without moving *)

(** [read(buf, size, position)] throws when fewer than [size] bytes follow
    [position], and otherwise returns the bytes that start in the block of the
    cursor, at the offset of [position] in its block: the bytes at [position] only
    when both are in the same block. *)
Theorem read_at_reads_cursor_block b size position :
  wf b -> Z.of_nat (m_size b) < 2 ^ 64 -> (position <= m_size b)%nat ->
  (m_position b < m_capacity b)%nat ->
  (m_position b / m_baseSize b * m_baseSize b + position mod m_baseSize b + size
     <= m_capacity b)%nat ->
  read_at (Z.of_nat size) (Z.of_nat position) b =
  if (size <=? m_size b - position)%nat
  then Ok (slice (m_position b / m_baseSize b * m_baseSize b + position mod m_baseSize b) size
             (data b))
  else Throw out_of_range.
Proof. intros. by apply read_at_spec. Qed.

(** "abcdef" in blocks of four, the cursor at 0: position 4 reads "ab". *)
Definition six : ByteArray := snd ((write zeros (lit "abcdef") ;; setPosition 0) fresh4).

Lemma read_at_reads_cursor_block_witness : read_at 2 4 six = Ok (lit "ab").
Proof.
  apply (read_at_reads_cursor_block six 2 4).
  - split; try (vm_compute; lia); [by repeat constructor|done].
  - vm_compute. done.
  - vm_compute. lia.
  - vm_compute. lia.
  - vm_compute. lia.
Defined.

(** [toString] is the content from the position on, and the dump of
    [toHexString] holds exactly those bytes, two digits each. *)
Theorem toString_content b :
  wf b -> Z.of_nat (m_size b) < 2 ^ 64 ->
  let s := slice (m_position b) (getReadSize b) (content b) in
  toString b = Ok s /\ exists h, toHexString b = Ok h /\ unhex h = s.
Proof.
  intros Hwf Hmax s. pose proof (toString_spec b Hwf Hmax) as H. split; [done|].
  unfold toHexString. rewrite H. eexists. split; [done|]. apply (unhex_dump s 0).
Qed.

Lemma toString_content_witness : toString four = Ok (lit "abcd").
Proof. apply (toString_content four); [apply four_wf|vm_compute; done]. Defined.

(** ** Files *)

(** Loading a file writes its whole content at the position (an unreadable
    file returns false and changes nothing); saving from a block boundary writes
    exactly the content from the position on, in order, and stops. *)
Theorem file_transfer uninit b s :
  wf b -> Z.of_nat (m_capacity b) < 2 ^ 63 -> Z.of_nat (m_baseSize b) < 2 ^ 31 ->
  readFromFile uninit None b = (Ok false, b) /\
  (exists b', readFromFile uninit (Some s) b = (Ok true, b') /\ wf b' /\
     view b' = spec_write s (view b)) /\
  ((m_position b mod m_baseSize b = 0)%nat ->
   exists l, writeToFile (S (getReadSize b)) true b = Ok (true, l) /\
     file_of (m_nodes b) l = Some (slice (m_position b) (getReadSize b) (content b))).
Proof.
  intros Hwf Hmax Hint. split_and!; [done| |].
  - destruct (slurp_loop_spec uninit (S (length s)) s b Hwf ltac:(lia)) as (b' & Hrun & ? & _ & ?).
    exists b'. split_and!; [|done..]. unfold readFromFile. by rewrite (bind_ok _ _ _ _ _ Hrun).
  - intros Hmod. pose proof Hwf as [Hb Hn Hu Hc Hp Hs Hcur].
    pose proof (pos_split (m_baseSize b) (m_position b) Hb) as Hsplit.
    rewrite Hmod, Nat.add_0_r in Hsplit.
    unfold writeToFile. destruct (Nat.eqb_spec (m_baseSize b) 0); [lia|]. cbn [negb].
    destruct (dump_loop_spec (getReadSize b) b (m_position b / m_baseSize b) (getReadSize b))
      as (l & Hl & Hf); rewrite <- ?Hsplit, <- ?Hc in *; unfold getReadSize in *; try (done || lia).
    rewrite Hcur. unfold cur_at. rewrite Hl. exists l. split; [done|].
    by rewrite slice_content by (done || lia).
Qed.

Lemma file_transfer_witness :
  exists l, writeToFile 5 true four = Ok (true, l) /\ file_of (m_nodes four) l = Some (lit "abcd").
Proof. apply (file_transfer zeros four []); try apply four_wf; by vm_compute. Defined.

(** Saving from inside a block is wrong: after the short first write the loop
    moves to the next block although bytes of this one remain.  With eight bytes
    in one block of ten and the position at 3, the first write takes two of the
    five bytes left and the next step dereferences the null block. *)
Theorem writeToFile_mid_block_crashes :
  let b := snd ((write zeros (lit "abcdefgh") ;; setPosition 3) (new_ByteArray zeros 10)) in
  wf b /\ getReadSize b = 5%nat /\ writeToFile 100 true b = Crash NullDeref.
Proof.
  cbv zeta. split_and!; [|done..].
  split; try (vm_compute; lia); [by repeat constructor|done].
Qed.
