(* ===== verification/Timer.v ===== *)
(** * Timers: src/src/timer/timer.cc

    A [Timer] is a shared object, so timers live in a heap indexed by address; the
    manager's [std::set] is the list of the addresses it holds in the order of
    [Comparator].  Every member function takes the mutex for its whole effect, so
    a run of the manager is a sequence of operations; the clock readings
    ([GetElapsedMS]) and the addresses [new] returns are arguments. *)

From S2P Require Import Prelude.
#[local] Set Default Goal Selector "!".

Section Timer.
(** The callables a user passes. *)
Context {F : Type}.

(** A non-empty [std::function]: the user's, or [std::bind(&OnTimer, weakCond, cb)]
    (whose [cb] may itself be empty). *)
Inductive callback :=
| Plain (f : F)
| OnTimer (weakCond : nat) (cb : option F).

Record Timer := mkTimer {
  m_recurring : bool;
  m_ms : Z;
  m_next : Z;
  m_cb : option callback
}.

Record TimerManager := mkTM {
  heap : gmap Z Timer;         (** the timers alive, by address *)
  m_timers : list Z;           (** the set, in order *)
  m_tickled : bool;
  m_previouseTime : Z;
  fronts : nat                 (** calls of [onTimerInsertedAtFront] so far *)
}.

Abbreviation TM := (M TimerManager).

Definition set_heap (h : gmap Z Timer) (s : TimerManager) : TimerManager :=
  mkTM h (m_timers s) (m_tickled s) (m_previouseTime s) (fronts s).
Definition set_timers (l : list Z) (s : TimerManager) : TimerManager :=
  mkTM (heap s) l (m_tickled s) (m_previouseTime s) (fronts s).
Definition set_tickled (t : bool) (s : TimerManager) : TimerManager :=
  mkTM (heap s) (m_timers s) t (m_previouseTime s) (fronts s).
Definition set_previous (t : Z) (s : TimerManager) : TimerManager :=
  mkTM (heap s) (m_timers s) (m_tickled s) t (fronts s).
Definition count_front (s : TimerManager) : TimerManager :=
  mkTM (heap s) (m_timers s) (m_tickled s) (m_previouseTime s) (S (fronts s)).

(** [Timer::Timer(ms, cb, recurring, manager)] and [Timer::Timer(next)]. *)
Definition new_Timer (ms : Z) (cb : option callback) (recurring : bool) (now : Z) : Timer :=
  mkTimer recurring ms (u64 (now + ms)) cb.
Definition new_Timer_at (next : Z) : Timer := mkTimer false 0 next None.

Definition new_TimerManager (now : Z) : TimerManager := mkTM ∅ [] false now 0.

(** What running a callback does: the user callable it reaches, if any;
    [alive] tells whether the object of a weak pointer still exists. *)
Definition run_callback (alive : nat -> bool) (c : callback) : option F :=
  match c with
  | Plain f => Some f
  | OnTimer weakCond cb => if alive weakCond then cb else None
  end.

Definition timer_at (h : gmap Z Timer) (p : Z) : Timer := default (new_Timer_at 0) (h !! p).
Definition next_of (h : gmap Z Timer) (p : Z) : Z := m_next (timer_at h p).

(** [Timer::Comparator::operator()]; a null pointer is [None]. *)
Definition Comparator (h : gmap Z Timer) (lhs rhs : option Z) : bool :=
  match lhs, rhs with
  | None, None => false
  | None, Some _ => true
  | Some _, None => false
  | Some l, Some r =>
      if next_of h l <? next_of h r then true
      else if next_of h r <? next_of h l then false
      else l <? r
  end.

(** ** The [std::set] *)
Definition less (h : gmap Z Timer) (a b : Z) : bool := Comparator h (Some a) (Some b).

Fixpoint set_insert (h : gmap Z Timer) (p : Z) (l : list Z) : list Z :=
  match l with
  | [] => [p]
  | q :: l' =>
      if less h p q then p :: l
      else if less h q p then q :: set_insert h p l'
      else l
  end.

(** [find]: the position of the equivalent element. *)
Fixpoint set_find (h : gmap Z Timer) (p : Z) (l : list Z) : option nat :=
  match l with
  | [] => None
  | q :: l' =>
      if negb (less h p q) && negb (less h q p) then Some 0%nat
      else S <$> set_find h p l'
  end.

(** [lower_bound]: how many elements precede the first not less than [p]. *)
Fixpoint lower_bound (h : gmap Z Timer) (p : Z) (l : list Z) : nat :=
  match l with
  | [] => 0%nat
  | q :: l' => if less h q p then S (lower_bound h p l') else 0%nat
  end.

Definition erase (i : nat) (l : list Z) : list Z := delete i l.

(** ** Operations *)

Definition deref_timer (p : Z) : TM Timer :=
  s ← get; match heap s !! p with Some t => mret t | None => crashed NullDeref end.

Definition store_timer (p : Z) (t : Timer) : TM unit :=
  modify (fun s => set_heap (<[p := t]> (heap s)) s).

(** [TimerManager::addTimer(val, lock)]. *)
Definition addTimer_locked (p : Z) : TM unit :=
  s ← get;
  let l := set_insert (heap s) p (m_timers s) in
  let atFront := bool_decide (head l = Some p) && negb (m_tickled s) in
  modify (set_timers l) ;;
  when atFront (modify (set_tickled true)) ;;
  when atFront (modify count_front).

Definition addTimer (p ms : Z) (cb : option callback) (recurring : bool) (now : Z) : TM Z :=
  store_timer p (new_Timer ms cb recurring now) ;;
  addTimer_locked p ;;
  mret p.

Definition addConditionTimer (p ms : Z) (cb : option F) (weakCond : nat) (recurring : bool)
    (now : Z) : TM Z :=
  addTimer p ms (Some (OnTimer weakCond cb)) recurring now.

(** [Timer::cancel]; erasing [end()] is undefined. *)
Definition cancel (p : Z) : TM bool :=
  t ← deref_timer p;
  match m_cb t with
  | Some _ =>
      store_timer p (mkTimer (m_recurring t) (m_ms t) (m_next t) None) ;;
      s ← get;
      match set_find (heap s) p (m_timers s) with
      | Some i => modify (set_timers (erase i (m_timers s))) ;; mret true
      | None => crashed Undefined
      end
  | None => mret false
  end.

Definition refresh (p now : Z) : TM bool :=
  t ← deref_timer p;
  match m_cb t with
  | None => mret false
  | Some _ =>
      s ← get;
      match set_find (heap s) p (m_timers s) with
      | None => mret false
      | Some i =>
          modify (set_timers (erase i (m_timers s))) ;;
          store_timer p (mkTimer (m_recurring t) (m_ms t) (u64 (now + m_ms t)) (m_cb t)) ;;
          modify (fun s => set_timers (set_insert (heap s) p (m_timers s)) s) ;;
          mret true
      end
  end.

Definition reset (p ms : Z) (fromNow : bool) (now : Z) : TM bool :=
  t ← deref_timer p;
  if (ms =? m_ms t) && negb fromNow then mret true else
  match m_cb t with
  | None => mret false
  | Some _ =>
      s ← get;
      match set_find (heap s) p (m_timers s) with
      | None => mret false
      | Some i =>
          modify (set_timers (erase i (m_timers s))) ;;
          let start := if fromNow then now else u64 (m_next t - m_ms t) in
          store_timer p (mkTimer (m_recurring t) ms (u64 (start + ms)) (m_cb t)) ;;
          addTimer_locked p ;;
          mret true
      end
  end.

Definition getNextTimer (now : Z) : TM Z :=
  modify (set_tickled false) ;;
  s ← get;
  match m_timers s with
  | [] => mret (2 ^ 64 - 1)
  | p :: _ =>
      t ← deref_timer p;
      mret (if m_next t <=? now then 0 else u64 (m_next t - now))
  end.

Definition hasTimer : TM bool := gets (fun s => negb (bool_decide (m_timers s = []))).

Definition detectClockRollover (now : Z) : TM bool :=
  s ← get;
  let rollover :=
    (now <? m_previouseTime s) && (now <? u64 (m_previouseTime s - 60 * 60 * 1000)) in
  modify (set_previous now) ;;
  mret rollover.

(** The [while] that skips the timers due exactly now. *)
Fixpoint skip_due (h : gmap Z Timer) (now : Z) (l : list Z) : nat :=
  match l with
  | [] => 0%nat
  | q :: l' => if next_of h q =? now then S (skip_due h now l') else 0%nat
  end.

(** The final [for] over the expired timers. *)
Fixpoint fire (now : Z) (expired : list Z) : TM (list (option callback)) :=
  match expired with
  | [] => mret []
  | p :: expired =>
      t ← deref_timer p;
      (if m_recurring t then
         store_timer p (mkTimer (m_recurring t) (m_ms t) (u64 (now + m_ms t)) (m_cb t)) ;;
         modify (fun s => set_timers (set_insert (heap s) p (m_timers s)) s)
       else store_timer p (mkTimer (m_recurring t) (m_ms t) (m_next t) None)) ;;
      rest ← fire now expired;
      mret (m_cb t :: rest)
  end.

(** [tmp]: the address of the temporary [nowTimer].  The result is what is
    appended to [cbs]. *)
Definition listExpiredCb (tmp now : Z) : TM (list (option callback)) :=
  s ← get;
  match m_timers s with
  | [] => mret []
  | first :: _ =>
      rollover ← detectClockRollover now;
      t ← deref_timer first;
      if negb rollover && (now <? m_next t) then mret [] else
      let h := <[tmp := new_Timer_at now]> (heap s) in
      let it := if (rollover : bool) then length (m_timers s)
                else lower_bound h tmp (m_timers s) in
      let it := (it + skip_due (heap s) now (drop it (m_timers s)))%nat in
      let expired := take it (m_timers s) in
      modify (set_timers (drop it (m_timers s))) ;;
      fire now expired
  end.
End Timer.
Arguments callback : clear implicits.
Arguments Timer : clear implicits.
Arguments TimerManager : clear implicits.
