(* ===== verification/TimerSpec.v ===== *)
(** * Timers: the invariant of the manager and what its operations do *)

From Stdlib Require Import Sorting.Sorted.
From S2P Require Import Prelude Timer.
#[local] Set Default Goal Selector "!".

(** The order of the set: by deadline, then by address. *)
Definition klt {F} (h : gmap Z (Timer F)) (a b : Z) : Prop :=
  next_of h a < next_of h b \/ (next_of h a = next_of h b /\ a < b).

Definition sorted {F} (h : gmap Z (Timer F)) (l : list Z) : Prop := StronglySorted (klt h) l.

(** A timer is in the set while it can still fire. *)
Record inv {F} (s : TimerManager F) : Prop := {
  inv_sorted : sorted (heap s) (m_timers s);
  inv_alive p : p ∈ m_timers s -> is_Some (heap s !! p);
  inv_armed p t : heap s !! p = Some t -> m_cb t <> None -> p ∈ m_timers s
}.

Section order.
Context {F : Type}.
Implicit Types (h : gmap Z (Timer F)) (l : list Z).

Lemma less_spec h a b : less h a b = true <-> klt h a b.
Proof.
  unfold less, Comparator, klt. zcases; split; intros; try done; lia.
Qed.

Lemma less_false h a b : less h a b = false <-> a = b \/ klt h b a.
Proof. unfold less, Comparator, klt. zcases; split; try done; try lia; intros [->|?]; lia. Qed.

Lemma klt_irrefl h a : ~ klt h a a.
Proof. unfold klt. lia. Qed.

Lemma klt_trans h a b c : klt h a b -> klt h b c -> klt h a c.
Proof. unfold klt. lia. Qed.

Lemma klt_congr h h' a b :
  next_of h' a = next_of h a -> next_of h' b = next_of h b -> klt h a b -> klt h' a b.
Proof. unfold klt. intros -> ->. done. Qed.

Lemma sorted_congr h h' l :
  (forall p, p ∈ l -> next_of h' p = next_of h p) -> sorted h l -> sorted h' l.
Proof.
  unfold sorted. induction l as [|q l IH]; intros Hn Hs; [constructor|].
  apply StronglySorted_inv in Hs as [Hs Hq]. constructor.
  - apply IH; [|done]. intros p Hp. apply Hn. by right.
  - rewrite Forall_forall in *. intros p Hp.
    apply (klt_congr h); [apply Hn; by left|apply Hn; by right|by apply Hq].
Qed.

Lemma sorted_NoDup h l : sorted h l -> NoDup l.
Proof.
  unfold sorted. induction l as [|q l IH]; intros Hs; [constructor|].
  apply StronglySorted_inv in Hs as [Hs Hq]. constructor; [|by apply IH].
  intros Hin. rewrite Forall_forall in Hq. by apply (klt_irrefl h q), Hq.
Qed.

Lemma sorted_sublist h l l' : sublist l' l -> sorted h l -> sorted h l'.
Proof.
  unfold sorted. induction 1 as [|q l1 l2 Hsub IH|q l1 l2 Hsub IH]; intros Hs; [done|..];
    apply StronglySorted_inv in Hs as [Hs Hq]; [|by apply IH].
  constructor; [by apply IH|]. rewrite Forall_forall in *.
  intros p Hp. apply Hq. by eapply sublist_subseteq.
Qed.

Lemma sorted_head h q l p : sorted h (q :: l) -> p ∈ q :: l -> next_of h q <= next_of h p.
Proof.
  intros Hs Hp. apply StronglySorted_inv in Hs as [_ Hq].
  apply elem_of_cons in Hp as [->|Hp]; [lia|].
  rewrite Forall_forall in Hq. specialize (Hq p Hp). unfold klt in Hq. lia.
Qed.

Lemma set_insert_perm h p l : sorted h l -> p ∉ l -> set_insert h p l ≡ₚ p :: l.
Proof.
  intros Hs Hp. induction l as [|q l IH]; [done|]. cbn [set_insert].
  apply not_elem_of_cons in Hp as [Hne Hp]. apply StronglySorted_inv in Hs as [Hs Hq].
  destruct (less h p q) eqn:E1; [done|]. destruct (less h q p) eqn:E2.
  - rewrite (IH Hs Hp). apply Permutation_swap.
  - apply less_false in E1 as [->|E1]; [done|]. apply less_spec in E1. congruence.
Qed.

Lemma set_insert_sorted h p l : sorted h l -> p ∉ l -> sorted h (set_insert h p l).
Proof.
  unfold sorted. intros Hs Hp. induction l as [|q l IH]; [by repeat constructor|].
  cbn [set_insert]. apply not_elem_of_cons in Hp as [Hne Hp].
  pose proof Hs as Hs0. apply StronglySorted_inv in Hs as [Hs Hq].
  destruct (less h p q) eqn:E1.
  - apply less_spec in E1. constructor; [done|]. constructor; [done|].
    eapply Forall_impl; [exact Hq|]. intros x. by apply klt_trans.
  - destruct (less h q p) eqn:E2; [|done]. apply less_spec in E2.
    constructor; [by apply IH|]. rewrite (set_insert_perm h p l Hs Hp). by constructor.
Qed.

Lemma set_insert_head h p l :
  sorted h l -> p ∉ l -> head (set_insert h p l) = Some p <-> Forall (klt h p) l.
Proof.
  intros Hs Hp. pose proof (set_insert_sorted h p l Hs Hp) as Hs'.
  pose proof (set_insert_perm h p l Hs Hp) as Hperm. split.
  - destruct (set_insert h p l) as [|q l'] eqn:E; [done|]. intros [= ->].
    apply StronglySorted_inv in Hs' as [_ Hq]. apply Permutation_cons_inv in Hperm.
    by rewrite <- Hperm.
  - intros Hall. destruct l as [|q l]; [done|]. cbn [set_insert].
    apply Forall_cons in Hall as [Hpq _]. apply less_spec in Hpq. by rewrite Hpq.
Qed.

Lemma set_find_Some h p l : p ∈ l -> exists i, set_find h p l = Some i /\ l !! i = Some p.
Proof.
  induction l as [|q l IH]; intros Hp; [by apply not_elem_of_nil in Hp|]. cbn [set_find].
  destruct (less h p q) eqn:E1; [|destruct (less h q p) eqn:E2]; cbn [negb andb].
  3:{ exists 0%nat. split; [done|]. apply less_false in E1 as [->|E1]; [done|].
      apply less_spec in E1. congruence. }
  all: apply elem_of_cons in Hp as [->|Hp].
  2,4: destruct (IH Hp) as (i & -> & Hi); by exists (S i).
  - apply less_spec, klt_irrefl in E1. done.
  - apply less_spec, klt_irrefl in E2. done.
Qed.

Lemma set_find_None h p l : p ∉ l -> set_find h p l = None.
Proof.
  induction l as [|q l IH]; intros Hp; [done|]. cbn [set_find].
  apply not_elem_of_cons in Hp as [Hne Hp]. rewrite (IH Hp).
  destruct (less h p q) eqn:E1; [done|]. destruct (less h q p) eqn:E2; [done|].
  apply less_false in E1 as [->|E1]; [done|]. apply less_spec in E1. congruence.
Qed.

Lemma erase_perm i p l : l !! i = Some p -> l ≡ₚ p :: erase i l.
Proof. apply delete_Permutation. Qed.

Lemma erase_sorted h i l : sorted h l -> sorted h (erase i l).
Proof. apply sorted_sublist, sublist_delete. Qed.

Lemma erase_elem h i p q l :
  sorted h l -> l !! i = Some p -> q ∈ erase i l <-> q ∈ l /\ q <> p.
Proof.
  intros Hs Hi. pose proof (sorted_NoDup h l Hs) as Hnd.
  pose proof (erase_perm i p l Hi) as Hperm. set (l' := erase i l) in *.
  rewrite Hperm in *. rewrite elem_of_cons. apply NoDup_cons in Hnd as [Hp _]. split; [|intuition].
  intros Hq. split; [by right|]. intros ->. done.
Qed.

(** ** The expired prefix *)

Lemma skip_due_split h now l :
  sorted h l -> Forall (fun p => now <= next_of h p) l ->
  take (skip_due h now l) l = filter (fun p => next_of h p <= now) l /\
  drop (skip_due h now l) l = filter (fun p => now < next_of h p) l.
Proof.
  induction l as [|q l IH]; intros Hs Hall; [done|].
  assert (Htail := sorted_head h q l). pose proof Hs as Hs0.
  apply StronglySorted_inv in Hs as [Hs _]. apply Forall_cons in Hall as [Hq Hall].
  cbn [skip_due]. destruct (Z.eqb_spec (next_of h q) now) as [He|He].
  - destruct (IH Hs Hall) as [IH1 IH2]. simpl. rewrite IH1, IH2.
    rewrite filter_cons_True, filter_cons_False by lia. done.
  - simpl. rewrite filter_cons_False, filter_cons_True by lia.
    assert (Hlt : Forall (fun p => now < next_of h p) l).
    { apply Forall_forall. intros p Hp. pose proof (Htail p Hs0 ltac:(by right)). lia. }
    split; [symmetry; apply filter_none|f_equal; symmetry; apply filter_all].
    + eapply Forall_impl; [exact Hlt|]. intros x. simpl. lia.
    + done.
Qed.

(** The temporary timer at [now] separates the timers due from the others. *)
Lemma expired_split h tmp now l :
  sorted h l -> tmp ∉ l ->
  let h' := <[tmp := new_Timer_at now]> h in
  let it := (lower_bound h' tmp l + skip_due h now (drop (lower_bound h' tmp l) l))%nat in
  take it l = filter (fun p => next_of h p <= now) l /\
  drop it l = filter (fun p => now < next_of h p) l.
Proof.
  intros Hs Ht h'.
  assert (Htmp : next_of h' tmp = now).
  { unfold next_of, timer_at, h'. by rewrite lookup_insert_eq. }
  induction l as [|q l IH]; [done|]. cbv zeta. cbn [lower_bound].
  pose proof Hs as Hs0. apply StronglySorted_inv in Hs0 as [Hs1 _].
  apply not_elem_of_cons in Ht as [Hne Ht].
  assert (Hq : next_of h' q = next_of h q).
  { unfold next_of, timer_at, h'. by rewrite lookup_insert_ne. }
  destruct (less h' q tmp) eqn:E.
  - apply less_spec in E. unfold klt in E. rewrite Htmp, Hq in E.
    destruct (IH Hs1 Ht) as [IH1 IH2]. simpl. rewrite IH1, IH2.
    rewrite filter_cons_True, filter_cons_False by lia. done.
  - apply less_false in E as [->|E]; [done|]. unfold klt in E. rewrite Htmp, Hq in E.
    simpl. apply (skip_due_split h now (q :: l)); [done|].
    apply Forall_forall. intros p Hp. pose proof (sorted_head h q l p Hs Hp). lia.
Qed.
End order.

(** ** The operations *)

Section ops.
Context {F : Type}.
Implicit Types (s : TimerManager F) (t : Timer F).

Lemma next_of_insert (h : gmap Z (Timer F)) p t q :
  next_of (<[p := t]> h) q = if decide (p = q) then m_next t else next_of h q.
Proof.
  unfold next_of, timer_at. rewrite lookup_insert. by destruct (decide (p = q)).
Qed.

Lemma next_of_lookup (h : gmap Z (Timer F)) p t : h !! p = Some t -> next_of h p = m_next t.
Proof. unfold next_of, timer_at. by intros ->. Qed.

Lemma deref_ok s p t : heap s !! p = Some t -> deref_timer p s = (Ok t, s).
Proof.
  intros H. unfold deref_timer. rewrite (bind_ok get _ s s s) by done. by rewrite H.
Qed.

(** The set with [p] taken out, keyed anew and put back. *)
Definition rekey (p : Z) (t : Timer F) (s : TimerManager F) : TimerManager F :=
  let h := <[p := t]> (heap s) in
  set_timers (set_insert h p (filter (fun q => q <> p) (m_timers s))) (set_heap h s).

Lemma sorted_other (h : gmap Z (Timer F)) p t l :
  sorted h l -> p ∉ l -> sorted (<[p := t]> h) l.
Proof.
  intros Hs Hp. apply (sorted_congr h); [|done]. intros q Hq. rewrite next_of_insert.
  by destruct (decide (p = q)) as [->|].
Qed.

(** Putting a timer in the set, newly allocated or changed. *)
Lemma inv_put s p t l :
  inv s -> sorted (heap s) l -> p ∉ l ->
  (forall q, q ∈ l -> q ∈ m_timers s) -> (forall q, q ∈ m_timers s -> q = p \/ q ∈ l) ->
  let h := <[p := t]> (heap s) in
  inv (set_timers (set_insert h p l) (set_heap h s)).
Proof.
  intros [Hs Ha Hm] Hl Hp Hsub Hsup h.
  pose proof (sorted_other _ p t l Hl Hp) as Hs'.
  pose proof (set_insert_perm h p l Hs' Hp) as Hperm. split; simpl.
  - by apply set_insert_sorted.
  - intros q. rewrite Hperm. intros [->|Hq]%elem_of_cons.
    + unfold h. rewrite lookup_insert_eq. by eexists.
    + unfold h. rewrite lookup_insert. destruct (decide (p = q)); [by eexists|]. by apply Ha, Hsub.
  - intros q u. rewrite Hperm, elem_of_cons. unfold h. rewrite lookup_insert.
    destruct (decide (p = q)) as [->|Hne]; [by left|]. intros Hq Hc.
    destruct (Hsup q (Hm q u Hq Hc)); [by subst|by right].
Qed.

Lemma addTimer_locked_run s p :
  let l := set_insert (heap s) p (m_timers s) in
  let front := bool_decide (head l = Some p) && negb (m_tickled s) in
  addTimer_locked p s =
  (Ok tt, mkTM (heap s) l (m_tickled s || front) (m_previouseTime s)
            (fronts s + if front then 1 else 0)%nat).
Proof.
  intros l front. unfold addTimer_locked. rewrite (bind_ok get _ s s s) by done. fold l.
  fold front. destruct front; unfold when, modify, mbind, M_bind, mret, M_ret; do 2 f_equal;
    unfold set_timers, set_tickled, count_front; simpl;
    rewrite ?orb_true_r, ?orb_false_r; f_equal; lia.
Qed.

Lemma addTimer_head s p ms cb recurring now :
  inv s -> heap s !! p = None ->
  let t := new_Timer ms cb recurring now in
  head (m_timers (snd (addTimer p ms cb recurring now s))) = Some p <->
  Forall (fun q => m_next t < next_of (heap s) q \/ (m_next t = next_of (heap s) q /\ p < q))
    (m_timers s).
Proof.
  intros Hinv Hp t.
  assert (Hnin : p ∉ m_timers s).
  { intros H. destruct (inv_alive s Hinv p H) as [u Hu]. congruence. }
  unfold addTimer, store_timer. set (h := <[p := t]> (heap s)).
  rewrite (bind_ok (modify _) _ s tt (set_heap h s)) by done.
  rewrite (bind_ok _ _ _ _ _ (addTimer_locked_run (set_heap h s) p)). simpl.
  rewrite set_insert_head by (done || by apply sorted_other; [apply Hinv|]).
  rewrite !Forall_forall. unfold klt, h.
  split; intros Hall q Hq; specialize (Hall q Hq);
    rewrite !next_of_insert, decide_True, decide_False in * by (done || congruence); done.
Qed.

Lemma addTimer_ok s p ms cb recurring now :
  inv s -> heap s !! p = None ->
  let t := new_Timer ms cb recurring now in
  let front := bool_decide (Forall (fun q => m_next t < next_of (heap s) q \/
                 (m_next t = next_of (heap s) q /\ p < q)) (m_timers s)) && negb (m_tickled s) in
  exists s', addTimer p ms cb recurring now s = (Ok p, s') /\ inv s' /\
    heap s' = <[p := t]> (heap s) /\ m_timers s' ≡ₚ p :: m_timers s /\
    m_previouseTime s' = m_previouseTime s /\
    m_tickled s' = m_tickled s || front /\
    fronts s' = (fronts s + if front then 1 else 0)%nat.
Proof.
  intros Hinv Hp t front.
  assert (Hnin : p ∉ m_timers s).
  { intros H. destruct (inv_alive s Hinv p H) as [u Hu]. congruence. }
  set (h := <[p := t]> (heap s)). set (l := set_insert h p (m_timers s)).
  assert (Hinv' : inv (set_timers l (set_heap h s))).
  { apply inv_put; try done; [apply Hinv|]. intros q Hq. by right. }
  pose proof (sorted_other _ p t _ (inv_sorted s Hinv) Hnin) as Hs'.
  assert (Hfront : bool_decide (head l = Some p) && negb (m_tickled s) = front).
  { unfold front. f_equal. apply bool_decide_ext.
    assert (H := addTimer_head s p ms cb recurring now Hinv Hp). cbv zeta in H.
    unfold addTimer, store_timer in H.
    rewrite (bind_ok (modify _) _ s tt (set_heap h s)) in H by done.
    by rewrite (bind_ok _ _ _ _ _ (addTimer_locked_run (set_heap h s) p)) in H. }
  unfold addTimer, store_timer. rewrite (bind_ok (modify _) _ s tt (set_heap h s)) by done.
  rewrite (bind_ok _ _ _ _ _ (addTimer_locked_run (set_heap h s) p)).
  simpl. fold l. rewrite Hfront. eexists. split; [reflexivity|].
  split_and!; try done; [by destruct Hinv'|by apply set_insert_perm].
Qed.

(** Taking a timer out of the set. *)
Lemma take_out s (h : gmap Z (Timer F)) p :
  inv s -> p ∈ m_timers s ->
  exists i, set_find h p (m_timers s) = Some i /\ sorted (heap s) (erase i (m_timers s)) /\
    forall q, q ∈ erase i (m_timers s) <-> q ∈ m_timers s /\ q <> p.
Proof.
  intros Hinv Hp. destruct (set_find_Some h p _ Hp) as (i & Hf & Hi). exists i.
  pose proof (inv_sorted s Hinv). split_and!; [done|by apply erase_sorted|].
  intros q. by eapply erase_elem.
Qed.

(** [keyed p t s s']: timer [p] is now [t], is in the set, and the rest is as it was. *)
Definition keyed (p : Z) t s s' : Prop :=
  inv s' /\ heap s' = <[p := t]> (heap s) /\ (forall q, q ∈ m_timers s' <-> q ∈ m_timers s) /\
  m_previouseTime s' = m_previouseTime s.

Lemma keyed_put s p t i :
  inv s -> p ∈ m_timers s -> sorted (heap s) (erase i (m_timers s)) ->
  (forall q, q ∈ erase i (m_timers s) <-> q ∈ m_timers s /\ q <> p) ->
  let h := <[p := t]> (heap s) in
  keyed p t s (set_timers (set_insert h p (erase i (m_timers s))) (set_heap h s)).
Proof.
  intros Hinv Hp Hs Hel h.
  assert (Hnin : p ∉ erase i (m_timers s)) by (rewrite Hel; tauto).
  pose proof (sorted_other _ p t _ Hs Hnin) as Hs'. split_and!; try done.
  - apply inv_put; try done; [intros q; rewrite Hel; tauto|].
    intros q Hq. rewrite Hel. destruct (decide (q = p)); tauto.
  - intros q. simpl. unfold h. rewrite (set_insert_perm _ p _ Hs' Hnin), elem_of_cons, Hel.
    destruct (decide (q = p)) as [->|]; tauto.
Qed.

Lemma cancel_ok s p t :
  inv s -> heap s !! p = Some t ->
  match m_cb t with
  | None => cancel p s = (Ok false, s)
  | Some _ => exists s', cancel p s = (Ok true, s') /\ inv s' /\
      heap s' = <[p := mkTimer (m_recurring t) (m_ms t) (m_next t) None]> (heap s) /\
      (forall q, q ∈ m_timers s' <-> q ∈ m_timers s /\ q <> p) /\
      m_previouseTime s' = m_previouseTime s
  end.
Proof.
  intros Hinv Ht. unfold cancel. rewrite (bind_ok _ _ _ _ _ (deref_ok s p t Ht)).
  destruct (m_cb t) as [c|] eqn:Hc; [|done].
  assert (Hp : p ∈ m_timers s) by (apply (inv_armed s Hinv p t Ht); congruence).
  set (t' := mkTimer (m_recurring t) (m_ms t) (m_next t) None).
  set (h := <[p := t']> (heap s)).
  unfold store_timer. rewrite (bind_ok (modify _) _ s tt (set_heap h s)) by done.
  rewrite (bind_ok get _ _ _ (set_heap h s)) by done.
  destruct (take_out s h p Hinv Hp) as (i & Hf & Hs & Hel). simpl. rewrite Hf.
  eexists. split; [reflexivity|]. split_and!; try done. split; simpl.
  - apply (sorted_congr (heap s)); [|done]. intros q Hq. apply Hel in Hq as [_ Hne].
    unfold h. by rewrite next_of_insert, decide_False.
  - intros q Hq. apply Hel in Hq as [Hq Hne]. unfold h. rewrite lookup_insert_ne by done.
    by apply Hinv.
  - intros q u. unfold h. rewrite lookup_insert. destruct (decide (p = q)) as [->|Hne].
    + intros [= <-]. done.
    + intros Hq Hcb. apply Hel. split; [by eapply Hinv|done].
Qed.

Lemma refresh_ok s p t now :
  inv s -> heap s !! p = Some t ->
  match m_cb t with
  | None => refresh p now s = (Ok false, s)
  | Some _ => exists s', refresh p now s = (Ok true, s') /\
      keyed p (mkTimer (m_recurring t) (m_ms t) (u64 (now + m_ms t)) (m_cb t)) s s' /\
      fronts s' = fronts s
  end.
Proof.
  intros Hinv Ht. unfold refresh. rewrite (bind_ok _ _ _ _ _ (deref_ok s p t Ht)).
  destruct (m_cb t) as [c|] eqn:Hc; [|done].
  assert (Hp : p ∈ m_timers s) by (apply (inv_armed s Hinv p t Ht); congruence).
  rewrite (bind_ok get _ _ _ s) by done.
  destruct (take_out s (heap s) p Hinv Hp) as (i & Hf & Hs & Hel). rewrite Hf.
  eexists. split; [reflexivity|]. split; [|done].
  exact (keyed_put s p (mkTimer (m_recurring t) (m_ms t) (u64 (now + m_ms t)) (Some c)) i
           Hinv Hp Hs Hel).
Qed.

Lemma reset_ok s p t ms fromNow now :
  inv s -> heap s !! p = Some t ->
  if (ms =? m_ms t) && negb fromNow then reset p ms fromNow now s = (Ok true, s)
  else
    match m_cb t with
    | None => reset p ms fromNow now s = (Ok false, s)
    | Some _ => exists s', reset p ms fromNow now s = (Ok true, s') /\
        let start := if fromNow then now else u64 (m_next t - m_ms t) in
        keyed p (mkTimer (m_recurring t) ms (u64 (start + ms)) (m_cb t)) s s'
    end.
Proof.
  intros Hinv Ht. unfold reset. rewrite (bind_ok _ _ _ _ _ (deref_ok s p t Ht)).
  destruct ((ms =? m_ms t) && negb fromNow); [done|].
  destruct (m_cb t) as [c|] eqn:Hc; [|done].
  assert (Hp : p ∈ m_timers s) by (apply (inv_armed s Hinv p t Ht); congruence).
  rewrite (bind_ok get _ _ _ s) by done.
  destruct (take_out s (heap s) p Hinv Hp) as (i & Hf & Hs & Hel). rewrite Hf.
  set (start := if fromNow then now else u64 (m_next t - m_ms t)).
  set (t' := mkTimer (m_recurring t) ms (u64 (start + ms)) (Some c)).
  set (s1 := set_timers (erase i (m_timers s)) s).
  set (h := <[p := t']> (heap s)).
  rewrite (bind_ok (modify _) _ s tt s1) by done. unfold store_timer.
  rewrite (bind_ok (modify _) _ s1 tt (set_heap h s1)) by done.
  rewrite (bind_ok _ _ _ _ _ (addTimer_locked_run (set_heap h s1) p)).
  eexists. split; [reflexivity|]. destruct (keyed_put s p t' i Hinv Hp Hs Hel) as (Hi & ? & ? & ?).
  split_and!; try done. by destruct Hi.
Qed.

(** ** Firing *)

(** What firing does to one timer. *)
Definition fired (now : Z) t : Timer F :=
  if m_recurring t then mkTimer (m_recurring t) (m_ms t) (u64 (now + m_ms t)) (m_cb t)
  else mkTimer (m_recurring t) (m_ms t) (m_next t) None.

Definition cb_of (h : gmap Z (Timer F)) (p : Z) : option (callback F) := m_cb (timer_at h p).

Record fire_post (now : Z) (E : list Z) s s' : Prop := {
  fp_sorted : sorted (heap s') (m_timers s');
  fp_heap q : heap s' !! q = if decide (q ∈ E) then fired now <$> heap s !! q else heap s !! q;
  fp_set q : q ∈ m_timers s' <->
    q ∈ m_timers s \/ (q ∈ E /\ m_recurring (timer_at (heap s) q) = true);
  fp_rest : m_tickled s' = m_tickled s /\ m_previouseTime s' = m_previouseTime s /\
    fronts s' = fronts s
}.

(** One turn of the loop. *)
Definition fire_one (now p : Z) t s : TimerManager F :=
  let h := <[p := fired now t]> (heap s) in
  if m_recurring t then set_timers (set_insert h p (m_timers s)) (set_heap h s) else set_heap h s.

Lemma fire_cons s now p E t :
  heap s !! p = Some t ->
  fire now (p :: E) s =
  match fire now E (fire_one now p t s) with
  | (Ok rest, s') => (Ok (m_cb t :: rest), s')
  | (Throw e, s') => (Throw e, s')
  | (Crash c, s') => (Crash c, s')
  end.
Proof.
  intros Ht. cbn [fire]. rewrite (bind_ok _ _ _ _ _ (deref_ok s p t Ht)).
  unfold fire_one, fired. by destruct (m_recurring t).
Qed.

Lemma lookup_one (h : gmap Z (Timer F)) (f : Timer F -> Timer F) p t q :
  f <$> h !! p = Some t ->
  <[p := t]> h !! q = if decide (q ∈ [p]) then f <$> h !! q else h !! q.
Proof.
  intros Hf. rewrite lookup_insert. destruct (decide (p = q)) as [->|].
  - by rewrite decide_True by by left.
  - rewrite decide_False; [done|]. rewrite list_elem_of_singleton. congruence.
Qed.

Lemma fire_one_post s now p t :
  sorted (heap s) (m_timers s) -> heap s !! p = Some t -> p ∉ m_timers s ->
  fire_post now [p] s (fire_one now p t s).
Proof.
  intros Hs Ht Hp. pose proof (sorted_other _ p (fired now t) _ Hs Hp) as Hs'.
  assert (Htp : timer_at (heap s) p = t) by (unfold timer_at; by rewrite Ht).
  unfold fire_one. destruct (m_recurring t) eqn:Hr; split; simpl; try done.
  - by apply set_insert_sorted.
  - intros q. apply lookup_one. by rewrite Ht.
  - intros q. rewrite (set_insert_perm _ p _ Hs' Hp), elem_of_cons, list_elem_of_singleton.
    split; [intros [->|?]; [right; by rewrite Htp|by left]|intros [?|[-> _]]; [by right|by left]].
  - intros q. apply lookup_one. by rewrite Ht.
  - intros q. rewrite list_elem_of_singleton. split; [by left|].
    intros [?|[-> Hq]]; [done|]. rewrite Htp in Hq. congruence.
Qed.

Lemma fire_ok now E s :
  NoDup E -> sorted (heap s) (m_timers s) ->
  (forall p, p ∈ E -> (p ∉ m_timers s) /\ is_Some (heap s !! p)) ->
  exists s', fire now E s = (Ok (cb_of (heap s) <$> E), s') /\ fire_post now E s s'.
Proof.
  revert s. induction E as [|p E IH]; intros s Hnd Hs HE.
  { exists s. split; [done|]. split; [done| | |done].
    - intros q. by rewrite decide_False by apply not_elem_of_nil.
    - intros q. rewrite elem_of_nil. tauto. }
  apply NoDup_cons in Hnd as [Hp Hnd].
  destruct (HE p ltac:(by left)) as [Hps [t Ht]].
  destruct (fire_one_post s now p t Hs Ht Hps) as [Hs1 Hh1 Hl1 Hr1].
  set (s1 := fire_one now p t s) in *.
  assert (Hother : forall q, q ∈ E -> heap s1 !! q = heap s !! q).
  { intros q Hq. rewrite Hh1, decide_False; [done|]. rewrite list_elem_of_singleton. by intros ->. }
  destruct (IH s1 Hnd Hs1) as (s' & Hrun & [Hs2 Hh2 Hl2 Hr2]).
  { intros q Hq. destruct (HE q ltac:(by right)) as [Hqs Hqh]. rewrite Hother by done.
    split; [|done]. rewrite Hl1, list_elem_of_singleton. intros [?|[-> _]]; done. }
  exists s'. rewrite (fire_cons s now p E t Ht). fold s1. rewrite Hrun. split.
  - do 2 f_equal. simpl. f_equal; [unfold cb_of, timer_at; by rewrite Ht|].
    apply list_fmap_ext. intros i q Hq. apply list_elem_of_lookup_2 in Hq.
    unfold cb_of, timer_at. by rewrite Hother.
  - assert (Htq : forall q, q ∈ E -> timer_at (heap s1) q = timer_at (heap s) q)
      by (intros q Hq; unfold timer_at; by rewrite Hother).
    split; [done| | |intuition congruence].
    + intros q. rewrite Hh2, Hh1. destruct (decide (q = p)) as [->|Hne].
      * rewrite decide_False, !decide_True by (done || by left). done.
      * rewrite (decide_False (P := q ∈ [p])) by by rewrite list_elem_of_singleton.
        apply decide_ext. rewrite elem_of_cons. tauto.
    + intros q. rewrite Hl2, Hl1, list_elem_of_singleton, elem_of_cons.
      split; [intros [[?|[-> ?]]|[Hq ?]]|intros [?|[[->|Hq] ?]]]; try tauto.
      * rewrite Htq in * by done. tauto.
      * right. rewrite Htq by done. done.
Qed.

(** ** Expiry *)

Definition rolled_back now s : bool :=
  (now <? m_previouseTime s) && (now <? u64 (m_previouseTime s - 60 * 60 * 1000)).

Lemma detect_run now s : detectClockRollover now s = (Ok (rolled_back now s), set_previous now s).
Proof. done. Qed.

(** The timers that fire: those due, or all after a rollover. *)
Definition expiring now s : list Z :=
  if rolled_back now s then m_timers s
  else filter (fun p => next_of (heap s) p <= now) (m_timers s).

Definition staying now s : list Z :=
  if rolled_back now s then [] else filter (fun p => now < next_of (heap s) p) (m_timers s).

Lemma expiring_elem now s p :
  p ∈ m_timers s <-> p ∈ expiring now s \/ p ∈ staying now s.
Proof.
  unfold expiring, staying. destruct (rolled_back now s).
  - rewrite elem_of_nil. tauto.
  - rewrite !list_elem_of_filter. destruct (Z.le_gt_cases (next_of (heap s) p) now);
      split; intuition lia.
Qed.

(** Both early returns of the function fire nothing. *)
Lemma listExpired_run tmp now s :
  inv s -> tmp ∉ m_timers s ->
  listExpiredCb tmp now s =
    match m_timers s with
    | [] => (Ok [], s)
    | _ => fire now (expiring now s) (set_timers (staying now s) (set_previous now s))
    end.
Proof.
  intros Hinv Htmp. pose proof (inv_sorted s Hinv) as Hs.
  unfold listExpiredCb. rewrite (bind_ok get _ _ _ s) by done.
  destruct (m_timers s) as [|first rest] eqn:El; [done|]. rewrite <- El in *.
  rewrite (bind_ok _ _ _ _ _ (detect_run now s)).
  destruct (inv_alive s Hinv first) as [t Ht]; [rewrite El; by left|].
  rewrite (bind_ok _ _ _ _ _ (deref_ok (set_previous now s) first t Ht)). cbv zeta.
  unfold expiring, staying. destruct (rolled_back now s) eqn:Hroll; cbn [negb andb].
  - rewrite drop_all. cbn [skip_due]. rewrite Nat.add_0_r, firstn_all, drop_all. done.
  - destruct (expired_split (heap s) tmp now (m_timers s) Hs Htmp) as [H1 H2].
    cbv zeta in H1, H2. rewrite H1, H2. destruct (Z.ltb_spec now (m_next t)) as [Hlt|Hge]; [|done].
    assert (Hall : Forall (fun p => now < next_of (heap s) p) (m_timers s)).
    { apply Forall_forall. intros p Hp. rewrite El in Hs, Hp.
      pose proof (sorted_head _ _ _ p Hs Hp). rewrite (next_of_lookup _ _ _ Ht) in *. lia. }
    rewrite filter_none by (eapply Forall_impl; [exact Hall|]; simpl; lia).
    rewrite filter_all by done. by destruct s.
Qed.

Lemma listExpired_ok tmp now s :
  inv s -> tmp ∉ m_timers s ->
  exists s', listExpiredCb tmp now s = (Ok (cb_of (heap s) <$> expiring now s), s') /\ inv s' /\
    (forall q, heap s' !! q =
       if decide (q ∈ expiring now s) then fired now <$> heap s !! q else heap s !! q) /\
    (forall q, q ∈ m_timers s' <->
       q ∈ m_timers s /\ (q ∈ expiring now s -> m_recurring (timer_at (heap s) q) = true)) /\
    fronts s' = fronts s /\ m_tickled s' = m_tickled s.
Proof.
  intros Hinv Htmp. rewrite (listExpired_run tmp now s Hinv Htmp).
  pose proof (inv_sorted s Hinv) as Hs. pose proof (sorted_NoDup _ _ Hs) as Hnd.
  assert (Hempty : m_timers s = [] -> expiring now s = []).
  { unfold expiring. intros ->. by destruct (rolled_back now s). }
  destruct (m_timers s) as [|first rest] eqn:El.
  { exists s. rewrite Hempty by done. split_and!; try done.
    intros q. rewrite El. split; [|tauto]. by intros ?%not_elem_of_nil. }
  rewrite <- El in *. clear Hempty.
  set (s1 := set_timers (staying now s) (set_previous now s)).
  assert (Hdisj : forall q, q ∈ expiring now s -> q ∉ staying now s).
  { intros q. unfold expiring, staying. destruct (rolled_back now s); [intros _; apply not_elem_of_nil|].
    rewrite !list_elem_of_filter. lia. }
  destruct (fire_ok now (expiring now s) s1) as (s' & Hrun & [Hs' Hh Hl [? [? ?]]]).
  { unfold expiring. destruct (rolled_back now s); [done|by apply NoDup_filter]. }
  { unfold s1, staying. simpl. destruct (rolled_back now s); [constructor|].
    eapply sorted_sublist; [apply sublist_filter|done]. }
  { intros p Hp. split; [by apply Hdisj|]. apply Hinv. apply (expiring_elem now). by left. }
  exists s'. split; [exact Hrun|]. simpl in Hh, Hl.
  assert (Hset : forall q, q ∈ m_timers s' <->
       q ∈ m_timers s /\ (q ∈ expiring now s -> m_recurring (timer_at (heap s) q) = true)).
  { intros q. rewrite Hl, (expiring_elem now s q). specialize (Hdisj q).
    destruct (decide (q ∈ expiring now s)); tauto. }
  split_and!; try done. split; [done| |].
  - intros q Hq. apply Hset in Hq as [Hq _]. destruct (inv_alive s Hinv q Hq) as [t Ht].
    rewrite Hh, Ht. case_decide; by eexists.
  - intros q t'. rewrite Hh. case_decide as Hq.
    + destruct (heap s !! q) as [t|] eqn:Ht; [|done]. intros [= <-] Hcb. apply Hset.
      split; [apply (expiring_elem now); by left|]. intros _. unfold timer_at. rewrite Ht. simpl.
      unfold fired in Hcb. by destruct (m_recurring t).
    + intros Ht Hcb. apply Hset. split; [by eapply Hinv|]. done.
Qed.

Lemma getNextTimer_ok now s :
  inv s ->
  exists d, getNextTimer now s = (Ok d, set_tickled false s) /\
    (m_timers s = [] -> d = 2 ^ 64 - 1) /\
    (forall p, p ∈ m_timers s ->
       (exists q, q ∈ m_timers s /\ (forall r, r ∈ m_timers s -> next_of (heap s) q <= next_of (heap s) r) /\
          d = if next_of (heap s) q <=? now then 0 else u64 (next_of (heap s) q - now))).
Proof.
  intros Hinv. unfold getNextTimer.
  rewrite (bind_ok (modify _) _ s tt (set_tickled false s)) by done.
  rewrite (bind_ok get _ _ _ (set_tickled false s)) by done.
  pose proof (inv_sorted s Hinv) as Hs. simpl.
  destruct (m_timers s) as [|p l] eqn:El.
  { eexists. split_and!; [done|done|]. intros p Hp. by apply not_elem_of_nil in Hp. }
  destruct (inv_alive s Hinv p) as [t Ht]; [rewrite El; by left|].
  rewrite (bind_ok _ _ _ _ _ (deref_ok (set_tickled false s) p t Ht)).
  eexists. split_and!; [done|done|]. intros _ _. exists p. split_and!; [by left| |].
  - intros r Hr. by apply (sorted_head _ _ l).
  - by rewrite (next_of_lookup _ _ _ Ht).
Qed.
End ops.
