(* ===== verification/TimerTheorems.v ===== *)
(** * Timers: the properties

    Whatever sequence of operations a manager goes through, its set is ordered and
    holds exactly the timers that can fire, so no operation fails; timers fire when
    their deadline has come and in order; the waiting time the event loop gets is
    exact; the calls on a timer's handle do what they say. *)

From S2P Require Import Prelude Timer TimerSpec.
#[local] Set Default Goal Selector "!".

(** ** Histories *)

Section histories.
Context {F : Type}.
Implicit Types (s : TimerManager F).

Inductive op :=
| AddTimer (p ms : Z) (cb : option (callback F)) (recurring : bool) (now : Z)
| Cancel (p : Z)
| Refresh (p now : Z)
| Reset (p ms : Z) (fromNow : bool) (now : Z)
| NextTimer (now : Z)
| ListExpired (tmp now : Z)
| Release (p : Z).           (** the last [shared_ptr] to a timer goes away *)

Definition run_op (o : op) : M (TimerManager F) unit :=
  match o with
  | AddTimer p ms cb recurring now => addTimer p ms cb recurring now ;; mret tt
  | Cancel p => cancel p ;; mret tt
  | Refresh p now => refresh p now ;; mret tt
  | Reset p ms fromNow now => reset p ms fromNow now ;; mret tt
  | NextTimer now => getNextTimer now ;; mret tt
  | ListExpired tmp now => listExpiredCb tmp now ;; mret tt
  | Release p => modify (fun s => set_heap (delete p (heap s)) s)
  end.

(** [new] returns an address not in use; a call is made on a timer that exists;
    the set's own pointers keep its timers alive. *)
Definition allowed s (o : op) : Prop :=
  match o with
  | AddTimer p _ _ _ _ => heap s !! p = None
  | Cancel p | Refresh p _ | Reset p _ _ _ => is_Some (heap s !! p)
  | NextTimer _ => True
  | ListExpired tmp _ => heap s !! tmp = None
  | Release p => p ∉ m_timers s
  end.

Inductive reachable : TimerManager F -> Prop :=
| reach_new (now : Z) : reachable (new_TimerManager now)
| reach_op s o s' :
    reachable s -> allowed s o -> run_op o s = (Ok tt, s') -> reachable s'.

Lemma new_inv (now : Z) : inv (new_TimerManager now : TimerManager F).
Proof.
  split; simpl; [constructor|by intros p ?%not_elem_of_nil|done].
Qed.

Lemma fresh_not_in s p : inv s -> heap s !! p = None -> p ∉ m_timers s.
Proof. intros Hinv Hp Hin. destruct (inv_alive s Hinv p Hin). congruence. Qed.

Lemma ret_unit {A} (m : M (TimerManager F) A) s a s' :
  m s = (Ok a, s') -> (m ;; mret tt) s = (Ok tt, s').
Proof. intros H. by rewrite (bind_ok m (fun _ => mret tt) s a s' H). Qed.

Lemma getNext_state s : inv s -> inv (set_tickled false s).
Proof. by intros []. Qed.

Lemma run_op_ok s o :
  inv s -> allowed s o -> exists s', run_op o s = (Ok tt, s') /\ inv s'.
Proof.
  intros Hinv. destruct o as [p ms cb rec now|p|p now|p ms fn now|now|tmp now|p]; cbn [allowed run_op].
  - intros Hp. destruct (addTimer_ok s p ms cb rec now Hinv Hp) as (s' & Hr & Hi & _).
    exists s'. split; [by eapply ret_unit|done].
  - intros [t Ht]. assert (H := cancel_ok s p t Hinv Ht). destruct (m_cb t).
    + destruct H as (s' & Hr & Hi & _). exists s'. split; [by eapply ret_unit|done].
    + exists s. split; [by eapply ret_unit|done].
  - intros [t Ht]. assert (H := refresh_ok s p t now Hinv Ht). destruct (m_cb t).
    + destruct H as (s' & Hr & [Hi _] & _). exists s'. split; [by eapply ret_unit|done].
    + exists s. split; [by eapply ret_unit|done].
  - intros [t Ht]. assert (H := reset_ok s p t ms fn now Hinv Ht).
    destruct ((ms =? m_ms t) && negb fn); [|destruct (m_cb t)].
    2: destruct H as (s' & Hr & [Hi _]); exists s'; split; [by eapply ret_unit|done].
    all: exists s; split; [by eapply ret_unit|done].
  - intros _. destruct (getNextTimer_ok now s Hinv) as (d & Hr & _).
    eexists. split; [by eapply ret_unit|by apply getNext_state].
  - intros Htmp. destruct (listExpired_ok tmp now s Hinv (fresh_not_in s tmp Hinv Htmp))
      as (s' & Hr & Hi & _). exists s'. split; [by eapply ret_unit|done].
  - intros Hp. eexists. split; [done|]. destruct Hinv as [Hs Ha Hm]. split; simpl.
    + apply (sorted_congr (heap s)); [|done]. intros q Hq.
      unfold next_of, timer_at. rewrite lookup_delete_ne by congruence. done.
    + intros q Hq. rewrite lookup_delete_ne by congruence. by apply Ha.
    + intros q t [Hne Hq]%lookup_delete_Some. by apply Hm.
Qed.

Lemma reachable_inv s : reachable s -> inv s.
Proof.
  induction 1 as [now|s o s' _ IH Ha Hr]; [apply new_inv|].
  destruct (run_op_ok s o IH Ha) as (s2 & Hr2 & Hi).
  rewrite Hr2 in Hr. by injection Hr as <-.
Qed.

(** A timer that is out of the set for good: cancelled, or a one-shot that fired. *)
Definition dead (p : Z) s : Prop :=
  exists t, heap s !! p = Some t /\ m_cb t = None /\ p ∉ m_timers s.

Lemma keyed_dead p q t s s' :
  keyed q t s s' -> q <> p -> dead p s -> dead p s'.
Proof.
  intros (_ & Hh & Hm & _) Hne (u & Hu & Hcb & Hp). exists u.
  rewrite Hh, lookup_insert_ne, Hm by done. done.
Qed.

Lemma dead_step p s o s' :
  inv s -> allowed s o -> run_op o s = (Ok tt, s') -> dead p s ->
  o = Release p \/ dead p s'.
Proof.
  intros Hinv Hal Hrun Hd. pose proof Hd as (u & Hu & Hcb & Hp).
  destruct o as [q ms cb rec now|q|q now|q ms fn now|now|tmp now|q];
    cbn [allowed run_op] in *.
  - right. destruct (addTimer_ok s q ms cb rec now Hinv Hal) as (s2 & Hr & _ & Hh & Hm & _).
    rewrite (ret_unit _ _ _ _ Hr) in Hrun. simplify_eq. assert (q <> p) by congruence.
    exists u. rewrite Hh, lookup_insert_ne, Hm, elem_of_cons by done. intuition congruence.
  - right. destruct Hal as [t Ht]. assert (H := cancel_ok s q t Hinv Ht).
    destruct (m_cb t) eqn:Hc.
    + destruct H as (s2 & Hr & _ & Hh & Hm & _). rewrite (ret_unit _ _ _ _ Hr) in Hrun.
      simplify_eq. assert (q <> p) by congruence. exists u.
      rewrite Hh, lookup_insert_ne, Hm by done. tauto.
    + rewrite (ret_unit _ _ _ _ H) in Hrun. by simplify_eq.
  - right. destruct Hal as [t Ht]. assert (H := refresh_ok s q t now Hinv Ht).
    destruct (m_cb t) eqn:Hc.
    + destruct H as (s2 & Hr & Hk & _). rewrite (ret_unit _ _ _ _ Hr) in Hrun.
      simplify_eq. eapply keyed_dead; [done|congruence|done].
    + rewrite (ret_unit _ _ _ _ H) in Hrun. by simplify_eq.
  - right. destruct Hal as [t Ht]. assert (H := reset_ok s q t ms fn now Hinv Ht).
    destruct ((ms =? m_ms t) && negb fn); [|destruct (m_cb t) eqn:Hc].
    2: destruct H as (s2 & Hr & Hk); rewrite (ret_unit _ _ _ _ Hr) in Hrun; simplify_eq;
       eapply keyed_dead; [done|congruence|done].
    all: rewrite (ret_unit _ _ _ _ H) in Hrun; by simplify_eq.
  - right. destruct (getNextTimer_ok now s Hinv) as (d & Hr & _).
    rewrite (ret_unit _ _ _ _ Hr) in Hrun. by simplify_eq.
  - right. destruct (listExpired_ok tmp now s Hinv (fresh_not_in s tmp Hinv Hal))
      as (s2 & Hr & _ & Hh & Hm & _). rewrite (ret_unit _ _ _ _ Hr) in Hrun. simplify_eq.
    exists u. rewrite Hh, Hm, decide_False; [tauto|].
    intros Hq. apply Hp, (expiring_elem now). by left.
  - simpl in Hrun. destruct (decide (q = p)) as [->|Hne]; [by left|right].
    unfold modify in Hrun. simplify_eq. exists u. simpl. by rewrite lookup_delete_ne.
Qed.
End histories.
Arguments op : clear implicits.

(** ** Examples used by the witnesses *)

(** Two timers: a one-shot at 60 and a recurring one, every 50, at 50. *)
Definition two_timers : TimerManager nat :=
  snd ((addTimer 1 60 (Some (Plain 7%nat)) false 0 ;; addTimer 2 50 (Some (Plain 8%nat)) true 0)
         (new_TimerManager 0)).

Lemma two_timers_reachable : reachable two_timers.
Proof.
  apply (reach_op (snd (run_op (AddTimer 1 60 (Some (Plain 7%nat)) false 0) (new_TimerManager 0)))
           (AddTimer 2 50 (Some (Plain 8%nat)) true 0)); [|vm_compute; reflexivity..].
  apply (reach_op (new_TimerManager 0) (AddTimer 1 60 (Some (Plain 7%nat)) false 0));
    [constructor|vm_compute; reflexivity..].
Qed.

Lemma two_timers_inv : inv two_timers.
Proof. apply reachable_inv, two_timers_reachable. Qed.

(** ** The properties *)

(** C8: in every state a manager can reach, the set is in the order of the comparator,
    holds only timers that exist, and holds every timer with a callback; and every
    operation then runs to its end (in particular [cancel] never erases [end()]). *)
Theorem timers_reachable_safe {F} (s : TimerManager F) :
  reachable s ->
  sorted (heap s) (m_timers s) /\
  (forall p t, heap s !! p = Some t -> m_cb t <> None -> p ∈ m_timers s) /\
  forall o, allowed s o -> exists s', run_op o s = (Ok tt, s').
Proof.
  intros Hr%reachable_inv. split_and!; [apply Hr|apply Hr|].
  intros o Ho. destruct (run_op_ok s o Hr Ho) as (s' & ? & _). by exists s'.
Qed.

Lemma timers_reachable_safe_witness : sorted (heap two_timers) (m_timers two_timers).
Proof. apply (timers_reachable_safe two_timers), two_timers_reachable. Defined.

(** C7: without a clock rollover, [listExpiredCb] appends the callbacks of exactly the
    timers whose deadline is not after now, in the order of the deadlines; of those, the
    recurring ones are armed again at now + period and stay in the set, the others lose
    their callback and leave it; the other timers are untouched. *)
Theorem listExpiredCb_fires_due {F} (tmp now : Z) (s : TimerManager F) :
  inv s -> heap s !! tmp = None -> rolled_back now s = false ->
  let due := filter (fun p => next_of (heap s) p <= now) (m_timers s) in
  exists s', listExpiredCb tmp now s = (Ok (cb_of (heap s) <$> due), s') /\
    inv s' /\ sorted (heap s) due /\
    (forall p t, p ∈ due -> heap s !! p = Some t ->
       if m_recurring t
       then p ∈ m_timers s' /\ heap s' !! p = Some (mkTimer true (m_ms t) (u64 (now + m_ms t)) (m_cb t))
       else (p ∉ m_timers s') /\ heap s' !! p = Some (mkTimer false (m_ms t) (m_next t) None)) /\
    (forall p, p ∉ due -> heap s' !! p = heap s !! p /\ (p ∈ m_timers s' <-> p ∈ m_timers s)).
Proof.
  intros Hinv Htmp Hroll due.
  assert (Hdue : expiring now s = due) by (unfold expiring; by rewrite Hroll).
  destruct (listExpired_ok tmp now s Hinv (fresh_not_in s tmp Hinv Htmp))
    as (s' & Hrun & Hi & Hh & Hm & _). rewrite Hdue in *.
  exists s'. split_and!; [done|done| | |].
  - eapply sorted_sublist; [apply sublist_filter|apply Hinv].
  - intros p t Hp Ht. rewrite Hh, decide_True, Ht by done. specialize (Hm p).
    unfold timer_at in Hm. rewrite Ht in Hm. simpl in *. unfold fired.
    pose proof Hp as [_ Hp']%list_elem_of_filter.
    destruct (m_recurring t); intuition congruence.
  - intros p Hp. rewrite Hh, Hm, decide_False by done. tauto.
Qed.

Lemma listExpiredCb_fires_due_witness :
  exists s', listExpiredCb 9 55 two_timers = (Ok [Some (Plain 8%nat)], s') /\ m_timers s' = [1; 2].
Proof.
  destruct (listExpiredCb_fires_due 9 55 two_timers two_timers_inv) as (s' & H & _);
    [reflexivity|reflexivity|].
  exists s'. split; [exact H|]. vm_compute in H. injection H as <-. reflexivity.
Defined.

(** The waiting time [getNextTimer] returns is exact: no timer is due before it has
    passed, and at that moment [listExpiredCb] has a callback to run (clock readings below
    2^64, no rollover). *)
Theorem getNextTimer_exact {F} (tmp now d : Z) (s s1 : TimerManager F) :
  inv s -> heap s !! tmp = None -> m_timers s <> [] -> 0 <= now ->
  (forall p, p ∈ m_timers s -> next_of (heap s) p < 2 ^ 64) ->
  m_previouseTime s <= now ->
  getNextTimer now s = (Ok d, s1) ->
  (forall later, now <= later < now + d -> exists s', listExpiredCb tmp later s1 = (Ok [], s')) /\
  (exists cb cbs s', listExpiredCb tmp (now + d) s1 = (Ok (cb :: cbs), s')).
Proof.
  intros Hinv Htmp Hne Hnow Hbound Hprev Hrun.
  destruct (getNextTimer_ok now s Hinv) as (d' & Hrun' & _ & Hd). rewrite Hrun' in Hrun.
  injection Hrun as -> <-. set (s1 := set_tickled false s).
  destruct (m_timers s) as [|p0 l] eqn:El; [done|].
  destruct (Hd p0 ltac:(by left)) as (q & Hq & Hmin & Hdq). rewrite <- El in *.
  assert (Hq64 := Hbound q Hq).
  assert (Hdval : d = Z.max 0 (next_of (heap s) q - now)).
  { rewrite Hdq. destruct (Z.leb_spec (next_of (heap s) q) now); [lia|].
    rewrite wrap_small; [lia|]. unfold unsigned_range. lia. }
  assert (Hi1 : inv s1) by (by apply getNext_state).
  assert (Hall : forall at_, now <= at_ -> exists s',
    listExpiredCb tmp at_ s1 =
      (Ok (cb_of (heap s) <$> filter (fun p => next_of (heap s) p <= at_) (m_timers s)), s')).
  { intros at_ Hat. destruct (listExpired_ok tmp at_ s1 Hi1) as (s' & Hr & _);
      [by apply fresh_not_in|]. exists s'. rewrite Hr. unfold expiring, rolled_back. simpl.
    destruct (Z.ltb_spec at_ (m_previouseTime s)); [lia|done]. }
  split.
  - intros later Hl. destruct (Hall later ltac:(lia)) as [s' Hs']. exists s'. rewrite Hs'.
    rewrite filter_none; [done|]. apply Forall_forall. intros p Hp.
    pose proof (Hmin p Hp). lia.
  - destruct (Hall (now + d) ltac:(lia)) as [s' Hs']. rewrite Hs'.
    destruct (filter (fun p => next_of (heap s) p <= now + d) (m_timers s)) as [|x xs] eqn:E.
    + exfalso. eapply filter_nil_not_elem_of; [exact E| |exact Hq]. simpl. lia.
    + by exists (cb_of (heap s) x), (cb_of (heap s) <$> xs), s'.
Qed.

Lemma getNextTimer_exact_witness :
  getNextTimer 10 two_timers = (Ok 40, set_tickled false two_timers) /\
  exists cb cbs s', listExpiredCb 9 50 (set_tickled false two_timers) = (Ok (cb :: cbs), s').
Proof.
  assert (H : getNextTimer 10 two_timers = (Ok 40, set_tickled false two_timers)) by reflexivity.
  split; [exact H|].
  apply (getNextTimer_exact 9 10 40 two_timers); try reflexivity; try exact two_timers_inv;
    try discriminate; try exact H.
  intros p Hp. vm_compute in Hp. apply elem_of_cons in Hp as [->|Hp]; [reflexivity|].
  apply list_elem_of_singleton in Hp as ->. reflexivity.
Defined.

(** A timer that was cancelled, or a one-shot that fired, never fires again: whatever
    the next operations, as long as it is not released, its callback stays empty, it is in
    no later list of expired timers, and [refresh], [reset] and [cancel] on it return false
    and change nothing. *)
Theorem dead_timer_stays_dead {F} (p : Z) (o : op F) (s s' : TimerManager F) :
  inv s -> dead p s -> allowed s o -> run_op o s = (Ok tt, s') -> o <> Release p ->
  dead p s' /\
  (forall now, p ∉ expiring now s') /\
  cancel p s' = (Ok false, s') /\ (forall now, refresh p now s' = (Ok false, s')) /\
  (forall ms now, reset p ms true now s' = (Ok false, s')).
Proof.
  intros Hinv Hd Hal Hrun Hne.
  destruct (dead_step p s o s' Hinv Hal Hrun Hd) as [?|Hd']; [done|].
  destruct (run_op_ok s o Hinv Hal) as (s2 & Hr2 & Hinv'). rewrite Hr2 in Hrun.
  injection Hrun as <-. pose proof Hd' as (t & Ht & Hcb & Hp). split_and!; [done| | | |].
  - intros now Hin. apply Hp, (expiring_elem now). by left.
  - assert (H := cancel_ok s2 p t Hinv' Ht). by rewrite Hcb in H.
  - intros now. assert (H := refresh_ok s2 p t now Hinv' Ht). by rewrite Hcb in H.
  - intros ms now. assert (H := reset_ok s2 p t ms true now Hinv' Ht).
    by rewrite andb_false_r, Hcb in H.
Qed.

Lemma dead_timer_stays_dead_witness :
  let s := snd (cancel 1 two_timers) in
  dead 1 s /\ cancel 1 (snd (getNextTimer 5 s)) = (Ok false, snd (getNextTimer 5 s)).
Proof.
  assert (Hd : dead 1 (snd (cancel 1 two_timers))).
  { eexists. split; [reflexivity|]. split; [reflexivity|].
    intros H. vm_compute in H. apply list_elem_of_singleton in H. discriminate. }
  split; [exact Hd|].
  apply (dead_timer_stays_dead 1 (NextTimer 5) (snd (cancel 1 two_timers))); [|exact Hd|exact I|reflexivity|discriminate].
  apply reachable_inv, (reach_op two_timers (Cancel 1)); [apply two_timers_reachable|by eexists|reflexivity].
Defined.

(** [cancel] on a timer that can still fire takes it, and no other, out of the set and
    returns true; [refresh] moves its deadline to now + its period, [reset] to the given
    period from now or from the start of the current one; the others keep theirs. *)
Theorem timer_handle {F} (p : Z) (t : Timer F) (s : TimerManager F) :
  inv s -> heap s !! p = Some t -> m_cb t <> None ->
  (exists s', cancel p s = (Ok true, s') /\ inv s' /\ dead p s' /\
     forall q, q <> p -> heap s' !! q = heap s !! q /\ (q ∈ m_timers s' <-> q ∈ m_timers s)) /\
  (forall now, exists s', refresh p now s = (Ok true, s') /\
     keyed p (mkTimer (m_recurring t) (m_ms t) (u64 (now + m_ms t)) (m_cb t)) s s') /\
  (forall ms fromNow now, (ms =? m_ms t) && negb fromNow = false ->
     exists s', reset p ms fromNow now s = (Ok true, s') /\
     keyed p (mkTimer (m_recurring t) ms
                (u64 ((if fromNow then now else u64 (m_next t - m_ms t)) + ms)) (m_cb t)) s s').
Proof.
  intros Hinv Ht Hcb. destruct (m_cb t) as [c|] eqn:Hc; [|done]. split_and!.
  - assert (H := cancel_ok s p t Hinv Ht). rewrite Hc in H.
    destruct H as (s' & Hr & Hi & Hh & Hm & _). exists s'. split_and!; [done|done| |].
    + eexists. rewrite Hh, lookup_insert_eq, Hm. split_and!; [done|done|tauto].
    + intros q Hq. rewrite Hh, lookup_insert_ne, Hm by done. tauto.
  - intros now. assert (H := refresh_ok s p t now Hinv Ht). rewrite Hc in H.
    destruct H as (s' & Hr & Hk & _). by exists s'.
  - intros ms fn now Hms. assert (H := reset_ok s p t ms fn now Hinv Ht).
    rewrite Hms, Hc in H. destruct H as (s' & Hr & Hk). by exists s'.
Qed.

Lemma timer_handle_witness :
  exists s', refresh 1 100 two_timers = (Ok true, s') /\ m_timers s' = [2; 1].
Proof.
  destruct (timer_handle 1 (mkTimer false 60 60 (Some (Plain 7%nat))) two_timers two_timers_inv)
    as (_ & H & _); [reflexivity|discriminate|].
  destruct (H 100) as (s' & Hr & _). exists s'. split; [exact Hr|].
  vm_compute in Hr. injection Hr as <-. reflexivity.
Defined.

(** [addTimer] puts a timer in the set with deadline now + ms, and calls
    [onTimerInsertedAtFront] exactly when it becomes the first to fire and no such call was
    made since the last [getNextTimer]. *)
Theorem addTimer_notifies {F} (p ms : Z) cb recurring now (s : TimerManager F) :
  inv s -> heap s !! p = None ->
  let t := new_Timer ms cb recurring now in
  exists s', addTimer p ms cb recurring now s = (Ok p, s') /\ inv s' /\
    heap s' = <[p := t]> (heap s) /\ m_timers s' ≡ₚ p :: m_timers s /\
    (head (m_timers s') = Some p <->
       forall q, q ∈ m_timers s -> m_next t < next_of (heap s) q \/
                                   (m_next t = next_of (heap s) q /\ p < q)) /\
    (fronts s' = S (fronts s) /\ head (m_timers s') = Some p /\ m_tickled s = false \/
     fronts s' = fronts s /\ (head (m_timers s') <> Some p \/ m_tickled s = true)) /\
    (m_tickled s' = true <-> m_tickled s = true \/ head (m_timers s') = Some p).
Proof.
  intros Hinv Hp t.
  destruct (addTimer_ok s p ms cb recurring now Hinv Hp) as (s' & Hr & Hi & Hh & Hm & _ & Ht & Hf).
  exists s'.
  assert (Hfront : head (m_timers s') = Some p <->
    Forall (fun q => m_next t < next_of (heap s) q \/ (m_next t = next_of (heap s) q /\ p < q))
      (m_timers s)).
  { pose proof (addTimer_head s p ms cb recurring now Hinv Hp) as H. rewrite Hr in H. exact H. }
  rewrite <- (bool_decide_eq_true (Forall _ _)) in Hfront. fold t in Ht, Hf, Hh.
  set (front := bool_decide _) in Ht, Hf, Hfront.
  split_and!; [done..|rewrite Hfront; unfold front; by rewrite bool_decide_eq_true, Forall_forall| |].
  all: rewrite Hfront, ?Ht, ?Hf; destruct front, (m_tickled s); simpl;
    rewrite ?Nat.add_0_r, ?Nat.add_1_r; intuition done.
Qed.

Lemma addTimer_notifies_witness :
  exists s', addTimer 3 10 (Some (Plain 9%nat)) false 0 (set_tickled false two_timers) = (Ok 3, s') /\
    m_timers s' = [3; 2; 1] /\ fronts s' = S (fronts two_timers).
Proof.
  destruct (addTimer_notifies 3 10 (Some (Plain 9%nat)) false 0 (set_tickled false two_timers))
    as (s' & Hr & _); [apply getNext_state, two_timers_inv|reflexivity|].
  exists s'. split; [exact Hr|]. vm_compute in Hr. injection Hr as <-. split; reflexivity.
Defined.

(** The rollover test subtracts an hour from the previous reading without checking for
    wrap-around, so while that reading is below an hour a clock that goes back by one
    millisecond fires every timer, whatever its deadline. *)
Theorem early_rollover_fires_all {F} (tmp now : Z) (s : TimerManager F) :
  inv s -> heap s !! tmp = None ->
  0 <= now < m_previouseTime s -> m_previouseTime s < 60 * 60 * 1000 ->
  exists s', listExpiredCb tmp now s = (Ok (cb_of (heap s) <$> m_timers s), s').
Proof.
  intros Hinv Htmp Hnow Hprev.
  destruct (listExpired_ok tmp now s Hinv (fresh_not_in s tmp Hinv Htmp)) as (s' & Hr & _).
  exists s'. rewrite Hr. unfold expiring, rolled_back.
  assert (Hwrap : u64 (m_previouseTime s - 60 * 60 * 1000) = m_previouseTime s - 60 * 60 * 1000 + 2 ^ 64).
  { unfold wrap. zdiv. }
  rewrite Hwrap. destruct (Z.ltb_spec now (m_previouseTime s)); [|lia].
  destruct (Z.ltb_spec now (m_previouseTime s - 60 * 60 * 1000 + 2 ^ 64)); [done|lia].
Qed.

Lemma early_rollover_fires_all_witness :
  exists s', listExpiredCb 9 1 (set_previous 2 two_timers) =
    (Ok [Some (Plain 8%nat); Some (Plain 7%nat)], s').
Proof.
  apply (early_rollover_fires_all 9 1 (set_previous 2 two_timers)); [|reflexivity|simpl; lia|reflexivity].
  destruct two_timers_inv. by split.
Defined.
