(* ===== verification/Utils.v ===== *)
(** * String and file utilities: src/src/utils/utils.cc

    The URL codecs, the trimmers and [Dirname] as functions on byte strings; the
    functions that touch the file system against a parameter for it.  Theorems at
    the end of each part. *)

From S2P Require Import Prelude.
#[local] Set Default Goal Selector "!".

(** ** URL encoding *)

(** [uri_chars]: the bytes whose entry is 1. *)
Definition uri_chars (c : byte) : bool :=
  let z := b2z c in
  ((45 <=? z) && (z <=? 46)) || ((48 <=? z) && (z <=? 57)) || (z =? 61) ||
  ((65 <=? z) && (z <=? 90)) || (z =? 95) || ((97 <=? z) && (z <=? 122)) || (z =? 126).

(** [xdigit_chars]: 0 outside the hexadecimal digits. *)
Definition xdigit_chars (c : byte) : Z :=
  let z := b2z c in
  if (48 <=? z) && (z <=? 57) then z - 48
  else if (65 <=? z) && (z <=? 70) then z - 55
  else if (97 <=? z) && (z <=? 102) then z - 87
  else 0.

(** [isxdigit] in the C locale. *)
Definition isxdigit (c : byte) : bool :=
  let z := b2z c in
  ((48 <=? z) && (z <=? 57)) || ((65 <=? z) && (z <=? 70)) || ((97 <=? z) && (z <=? 102)).

Definition hexdigits (d : Z) : byte := z2b (if d <? 10 then 48 + d else 55 + d).

(** The loop of [UrlEncode]: [pre] is the part of the string before [c], [ss] the
    output, allocated at the first byte that changes. *)
Fixpoint url_encode_loop (space_as_plus : bool) (pre rest : str) (ss : option str) : option str :=
  match rest with
  | [] => ss
  | c :: rest =>
      let ss :=
        if negb (uri_chars c) then
          let out := default pre ss in
          if bool_decide (c = " "%byte) && space_as_plus then Some (out ++ ["+"%byte])
          else Some (out ++ ["%"%byte; hexdigits (Z.shiftr (b2z c) 4); hexdigits (Z.land (b2z c) 15)])
        else (fun out => out ++ [c]) <$> ss in
      url_encode_loop space_as_plus (pre ++ [c]) rest ss
  end.

Definition UrlEncode (s : str) (space_as_plus : bool) : str :=
  default s (url_encode_loop space_as_plus [] s None).

Definition hex_pair (a b : byte) : byte :=
  z2b (Z.lor (Z.shiftl (xdigit_chars a) 4) (xdigit_chars b)).

Fixpoint url_decode_loop (space_as_plus : bool) (pre rest : str) (ss : option str) : option str :=
  match rest with
  | [] => ss
  | c :: rest =>
      if bool_decide (c = "+"%byte) && space_as_plus then
        url_decode_loop space_as_plus (pre ++ [c]) rest (Some (default pre ss ++ [" "%byte]))
      else
        let keep := (fun out => out ++ [c]) <$> ss in
        match rest with
        | a :: b :: rest' =>
            if bool_decide (c = "%"%byte) && isxdigit a && isxdigit b then
              url_decode_loop space_as_plus (pre ++ [c; a; b]) rest'
                (Some (default pre ss ++ [hex_pair a b]))
            else url_decode_loop space_as_plus (pre ++ [c]) rest keep
        | _ => url_decode_loop space_as_plus (pre ++ [c]) rest keep
        end
  end.

Definition UrlDecode (s : str) (space_as_plus : bool) : str :=
  default s (url_decode_loop space_as_plus [] s None).

(** ** Trimming *)

Definition find_first_not_of (delimit s : str) : option nat :=
  fst <$> list_find (fun c => c ∉ delimit) s.

Definition find_last_not_of (delimit s : str) : option nat :=
  (fun i => (length s - 1 - i)%nat) <$> find_first_not_of delimit (rev s).

Definition Trim (s delimit : str) : str :=
  match find_first_not_of delimit s, find_last_not_of delimit s with
  | Some b, Some e => slice b (e - b + 1) s
  | _, _ => []
  end.

Definition TrimLeft (s delimit : str) : str :=
  match find_first_not_of delimit s with Some b => drop b s | None => [] end.

Definition TrimRight (s delimit : str) : str :=
  match find_last_not_of delimit s with Some e => take e s | None => [] end.

(** The default of [delimit]: space, tab, carriage return, newline. *)
Definition blanks : str := z2b <$> [32; 9; 13; 10].

(** ** Paths *)

(** [rfind(c)]. *)
Definition rfind (c : byte) (s : str) : option nat :=
  (fun p => (length s - 1 - fst p)%nat) <$> list_find (fun d => d = c) (rev s).

Definition Dirname (filename : str) : str :=
  if bool_decide (filename = []) then lit "." else
  match rfind "/" filename with
  | Some 0%nat => lit "/"
  | None => lit "."
  | Some pos => take pos filename
  end.

(** ** The file system

    The calls of the C library are parameters: a state [FS], whether [lstat]
    succeeds on a path, whether [access] finds it, what [mkdir], [unlink] and
    opening for writing return and do. *)
Record FileSystem (FS : Type) := mkFileSystem {
  fs_lstat : FS -> str -> bool;
  fs_access : FS -> str -> bool;
  fs_mkdir : str -> FS -> Z * FS;
  fs_unlink : str -> FS -> Z * FS;
  fs_open : str -> FS -> bool * FS
}.
Arguments fs_lstat {FS}.
Arguments fs_access {FS}.
Arguments fs_mkdir {FS}.
Arguments fs_unlink {FS}.
Arguments fs_open {FS}.

(** A [std::ofstream]: whether a file is open, and whether the stream is not in error (what
    the stream converts to). *)
Record ofstream := mkOfs { is_open : bool; good : bool }.

Section FSUtil.
Context {FS : Type} (os : FileSystem FS).

Definition __mkdir (dirname : str) : M FS Z :=
  fs ← get;
  if fs_access os fs dirname then mret 0
  else fun fs => let '(r, fs') := fs_mkdir os dirname fs in (Ok r, fs').

(** The [for] over the slashes after the first byte: [pre] is what [path] holds
    once [*ptr] is set to NUL; the result tells whether every call succeeded. *)
Fixpoint mkdir_loop (pre rest : str) : M FS bool :=
  match rest with
  | [] => mret true
  | c :: rest =>
      if bool_decide (c = "/"%byte) then
        r ← __mkdir pre;
        if negb (r =? 0) then mret false else mkdir_loop (pre ++ [c]) rest
      else mkdir_loop (pre ++ [c]) rest
  end.

(** [strchr(path + 1, '/')] on the empty string reads past its end. *)
Definition Mkdir (dirname : str) : M FS bool :=
  fs ← get;
  let path := c_str dirname in
  if fs_lstat os fs path then mret true else
  match path with
  | [] => crashed OutOfBounds
  | c :: rest =>
      ok ← mkdir_loop [c] rest;
      if negb ok then mret false else
      r ← __mkdir path;
      mret (r =? 0)
  end.

(** [ofs.open]: an error on a stream that is open already; success clears the error. *)
Definition open (filename : str) : M (ofstream * FS) unit :=
  fun s => if is_open (fst s) then (Ok tt, (mkOfs true false, snd s))
           else let '(r, fs) := fs_open os (c_str filename) (snd s) in (Ok tt, (mkOfs r r, fs)).

Definition on_fs {A} (m : M FS A) : M (ofstream * FS) A :=
  fun s => let '(r, fs) := m (snd s) in (r, (fst s, fs)).

Definition OpenForWrite (filename : str) : M (ofstream * FS) bool :=
  open filename ;;
  '(ofs, _) ← get;
  if is_open ofs then mret true else
  on_fs (Mkdir (Dirname filename)) ;;
  open filename ;;
  '(ofs, _) ← get;
  mret (is_open ofs).

Definition Unlink (filename : str) (exist : bool) : M FS bool :=
  fs ← get;
  if negb exist && negb (fs_lstat os fs (c_str filename)) then mret true else
  fun fs => let '(r, fs') := fs_unlink os (c_str filename) fs in (Ok (r =? 0), fs').
End FSUtil.

(** ** Clock *)

(** [GetElapsedMS] from the fields [clock_gettime] fills. *)
Definition GetElapsedMS (tv_sec tv_nsec : Z) : Z := u64 (tv_sec * 1000 + Z.quot tv_nsec 1000000).
