(* ===== verification/UtilsTheorems.v ===== *)
(** * String and file utilities: the properties *)

From S2P Require Import Prelude Utils.
#[local] Set Default Goal Selector "!".

(** ** The codecs without the delayed allocation *)

(** What [UrlEncode] emits for one byte. *)
Definition enc1 (sp : bool) (c : byte) : str :=
  if negb (uri_chars c) then
    if bool_decide (c = " "%byte) && sp then ["+"%byte]
    else ["%"%byte; hexdigits (Z.shiftr (b2z c) 4); hexdigits (Z.land (b2z c) 15)]
  else [c].

Definition encode (sp : bool) (s : str) : str := concat (enc1 sp <$> s).

Fixpoint decode (sp : bool) (s : str) : str :=
  match s with
  | [] => []
  | c :: rest =>
      if bool_decide (c = "+"%byte) && sp then " "%byte :: decode sp rest
      else
        match rest with
        | a :: b :: rest' =>
            if bool_decide (c = "%"%byte) && isxdigit a && isxdigit b
            then hex_pair a b :: decode sp rest' else c :: decode sp rest
        | _ => c :: decode sp rest
        end
  end.

Lemma encode_loop_Some sp pre rest out :
  url_encode_loop sp pre rest (Some out) = Some (out ++ encode sp rest).
Proof.
  revert pre out. induction rest as [|c rest IH]; intros pre out; [by rewrite app_nil_r|].
  cbn [url_encode_loop]. unfold encode. cbn [fmap list_fmap concat]. unfold enc1 at 1.
  destruct (negb (uri_chars c)); [destruct (_ && _)|]; simpl; rewrite IH, <- app_assoc; done.
Qed.

Lemma encode_loop_None sp pre rest :
  default (pre ++ rest) (url_encode_loop sp pre rest None) = pre ++ encode sp rest.
Proof.
  revert pre. induction rest as [|c rest IH]; intros pre; [done|].
  cbn [url_encode_loop]. unfold encode. cbn [fmap list_fmap concat]. unfold enc1 at 1.
  destruct (negb (uri_chars c)) eqn:Hc.
  - destruct (_ && _); rewrite encode_loop_Some; simpl; by rewrite <- app_assoc.
  - simpl. specialize (IH (pre ++ [c])). by rewrite <- !app_assoc in IH.
Qed.

Lemma UrlEncode_encode s sp : UrlEncode s sp = encode sp s.
Proof. apply (encode_loop_None sp [] s). Qed.

(** [decode] recurses past two bytes: strong induction on the length. *)
Lemma decode_ind (P : str -> Prop) :
  P [] -> (forall c rest, P rest -> (forall a b rest', rest = a :: b :: rest' -> P rest') ->
             P (c :: rest)) ->
  forall s, P s.
Proof.
  intros Hnil Hcons s. assert (H : forall n s, (length s <= n)%nat -> P s); [|by apply (H (length s))].
  clear s. induction n as [|n IH]; intros [|c rest] Hl; simpl in Hl; try done; try lia.
  apply Hcons; [apply IH; lia|]. intros a b rest' ->. apply IH. simpl in Hl. lia.
Qed.

Lemma decode_loop_Some sp rest pre out :
  url_decode_loop sp pre rest (Some out) = Some (out ++ decode sp rest).
Proof.
  revert pre out. induction rest as [|c rest IH IH2] using decode_ind; intros pre out;
    [by rewrite app_nil_r|].
  cbn [url_decode_loop decode]. destruct (_ && sp); [by rewrite IH; simpl; rewrite <- app_assoc|].
  change ((fun o => o ++ [c]) <$> Some out) with (Some (out ++ [c])).
  destruct rest as [|a [|b rest']]; [by rewrite IH, <- app_assoc..|].
  destruct (_ && isxdigit b); [rewrite (IH2 a b rest' eq_refl)|rewrite IH];
    by rewrite <- app_assoc.
Qed.

Lemma decode_loop_None sp rest pre :
  default (pre ++ rest) (url_decode_loop sp pre rest None) = pre ++ decode sp rest.
Proof.
  revert pre. induction rest as [|c rest IH IH2] using decode_ind; intros pre; [done|].
  cbn [url_decode_loop decode].
  destruct (_ && sp); [rewrite decode_loop_Some; simpl; by rewrite <- app_assoc|].
  assert (Hkeep : default (pre ++ c :: rest) (url_decode_loop sp (pre ++ [c]) rest None)
                  = pre ++ c :: decode sp rest).
  { specialize (IH (pre ++ [c])). by rewrite <- !app_assoc in IH. }
  destruct rest as [|a [|b rest']]; [exact Hkeep..|].
  destruct (_ && isxdigit b); [|exact Hkeep].
  rewrite decode_loop_Some. simpl. by rewrite <- app_assoc.
Qed.

Lemma UrlDecode_decode s sp : UrlDecode s sp = decode sp s.
Proof. apply (decode_loop_None sp s []). Qed.

Lemma decode_enc1 sp c rest : decode sp (enc1 sp c ++ rest) = c :: decode sp rest.
Proof.
  unfold enc1. destruct (uri_chars c) eqn:Hc; cbn [negb].
  - assert (c <> "+"%byte /\ c <> "%"%byte) as [H1 H2] by (by split; intros ->).
    cbn [app decode]. rewrite !bool_decide_false by done. cbn [andb].
    by destruct rest as [|? [|? ?]].
  - destruct (bool_decide (c = " "%byte) && sp) eqn:Hs.
    + apply andb_true_iff in Hs as [->%bool_decide_eq_true ->]. done.
    + assert (Hx : isxdigit (hexdigits (Z.shiftr (b2z c) 4)) && isxdigit (hexdigits (Z.land (b2z c) 15))
                   && bool_decide (hex_pair (hexdigits (Z.shiftr (b2z c) 4))
                        (hexdigits (Z.land (b2z c) 15)) = c) = true) by (by destruct c).
      apply andb_true_iff in Hx as [[Hx1 Hx2]%andb_true_iff Hx%bool_decide_eq_true].
      cbn [app decode]. rewrite bool_decide_false by done. cbn [andb].
      by rewrite bool_decide_true, Hx1, Hx2, Hx by done.
Qed.

Lemma decode_encode sp s : decode sp (encode sp s) = s.
Proof.
  unfold encode. induction s as [|c s IH]; [done|]. cbn [fmap list_fmap concat].
  by rewrite decode_enc1, IH.
Qed.

(** Bytes that may stand in an encoded string. *)
Definition url_safe (sp : bool) (c : byte) : bool :=
  uri_chars c || bool_decide (c = "%"%byte) || (sp && bool_decide (c = "+"%byte)).

Lemma enc1_safe sp c : forallb (url_safe sp) (enc1 sp c) = true.
Proof. by destruct sp, c. Qed.

Lemma encode_safe sp s : forallb (url_safe sp) (encode sp s) = true.
Proof.
  unfold encode. induction s as [|c s IH]; [done|]. cbn [fmap list_fmap concat].
  by rewrite forallb_app, enc1_safe, IH.
Qed.

(** Decoding an encoded string, with the same treatment of spaces, gives the string
    back, whatever its bytes; and the encoded string only holds unreserved bytes, '%' and,
    when spaces become plus signs, '+'. *)
Theorem url_roundtrip s sp :
  UrlDecode (UrlEncode s sp) sp = s /\ forallb (url_safe sp) (UrlEncode s sp) = true.
Proof.
  rewrite UrlEncode_encode, UrlDecode_decode. split; [apply decode_encode|apply encode_safe].
Qed.

(** ** Trimming *)

Lemma find_first_None d s : find_first_not_of d s = None <-> Forall (fun c => c ∈ d) s.
Proof.
  unfold find_first_not_of. rewrite fmap_None, list_find_None.
  apply Forall_iff. intros c. destruct (decide (c ∈ d)); tauto.
Qed.

Lemma find_first_mid d l c r :
  Forall (fun c => c ∈ d) l -> c ∉ d -> find_first_not_of d (l ++ c :: r) = Some (length l).
Proof.
  intros Hl Hc. unfold find_first_not_of.
  rewrite (proj2 (list_find_Some _ _ (length l) c)); [done|].
  split_and!; [by rewrite list_lookup_middle|done|].
  intros j y Hj Hlt Hy. rewrite lookup_app_l in Hj by done.
  rewrite Forall_lookup in Hl. by apply Hy, (Hl j).
Qed.

Lemma find_last_mid d l c r :
  Forall (fun c => c ∈ d) r -> c ∉ d -> find_last_not_of d (l ++ c :: r) = Some (length l).
Proof.
  intros Hr Hc. unfold find_last_not_of.
  rewrite rev_app_distr. cbn [rev]. rewrite <- app_assoc. cbn [app].
  rewrite find_first_mid; [|by apply List.Forall_rev|done].
  cbn. f_equal. rewrite length_app, length_rev. cbn [length]. lia.
Qed.

Lemma find_last_None d s : Forall (fun c => c ∈ d) s -> find_last_not_of d s = None.
Proof.
  intros Hs. unfold find_last_not_of. rewrite (proj2 (find_first_None d (rev s))); [done|].
  by apply List.Forall_rev.
Qed.

(** On a string made of delimiters the three trimmers return the empty string; on
    [l ++ m ++ r], with [l] and [r] delimiters and [m] starting and ending with other bytes,
    [Trim] returns [m] and [TrimLeft] returns [m ++ r], but [TrimRight] also drops the last
    byte of [m], since it passes the index of that byte as the length to keep. *)
Theorem trim_spec d l c m c' r :
  Forall (fun c => c ∈ d) l -> Forall (fun c => c ∈ d) r -> c ∉ d -> c' ∉ d ->
  Trim (l ++ r) d = [] /\ TrimLeft (l ++ r) d = [] /\ TrimRight (l ++ r) d = [] /\
  Trim (l ++ (c :: m ++ [c']) ++ r) d = c :: m ++ [c'] /\
  TrimLeft (l ++ (c :: m ++ [c']) ++ r) d = (c :: m ++ [c']) ++ r /\
  TrimRight (l ++ (c :: m ++ [c']) ++ r) d = l ++ c :: m.
Proof.
  intros Hl Hr Hc Hc'.
  assert (Hlr : Forall (fun c => c ∈ d) (l ++ r)) by by apply Forall_app.
  assert (Hn : find_first_not_of d (l ++ r) = None) by by apply find_first_None.
  pose proof (find_first_mid d l c ((m ++ [c']) ++ r) Hl Hc) as Hf.
  assert (Heq : l ++ (c :: m ++ [c']) ++ r = (l ++ c :: m) ++ c' :: r)
    by (rewrite <- !app_assoc; simpl; by rewrite <- app_assoc).
  pose proof (find_last_mid d (l ++ c :: m) c' r Hr Hc') as Hg. rewrite <- Heq in Hg.
  unfold Trim, TrimLeft, TrimRight. rewrite Hn, (find_last_None _ _ Hlr).
  rewrite Hg. cbn [app] in Hf |- *. rewrite Hf. split_and!; try done.
  - unfold slice. rewrite drop_app_length. rewrite length_app. cbn [length].
    replace (length l + S (length m) - length l + 1)%nat with (length (c :: m ++ [c']))
      by (simpl; rewrite length_app; simpl; lia).
    apply (take_app_length (c :: m ++ [c']) r).
  - apply drop_app_length.
  - cbn [app] in Heq. rewrite Heq. apply take_app_length.
Qed.

Lemma trim_spec_witness :
  Trim (lit " ab ") blanks = lit "ab" /\ TrimRight (lit " ab ") blanks = lit " a".
Proof.
  destruct (trim_spec blanks (lit " ") "a" [] "b" (lit " ")) as (_ & _ & _ & H1 & _ & H2);
    [by vm_compute; repeat constructor|by vm_compute; repeat constructor
    |by apply (bool_decide_unpack _); vm_compute|by apply (bool_decide_unpack _); vm_compute|].
  split; [exact H1|exact H2].
Defined.

(** ** Paths *)

Lemma rfind_snoc c s d :
  rfind c (s ++ [d]) = if decide (d = c) then Some (length s) else rfind c s.
Proof.
  unfold rfind. rewrite rev_app_distr. cbn [rev app list_find].
  destruct (decide (d = c)); [cbn; f_equal; rewrite length_app; simpl; lia|].
  destruct (list_find _ (rev s)) as [[i x]|] eqn:E; [|done]. cbn.
  rewrite length_app. cbn [length]. f_equal. lia.
Qed.

Lemma rfind_lt c s i : rfind c s = Some i -> (i < length s)%nat.
Proof.
  unfold rfind. destruct (list_find _ (rev s)) as [[j x]|] eqn:E; [|done].
  intros [= <-]. apply list_find_Some in E as [E _]. apply lookup_lt_Some in E.
  rewrite length_rev in E. simpl. lia.
Qed.

Lemma Dirname_snoc s c :
  s <> [] -> Dirname (s ++ [c]) = if decide (c = "/"%byte) then s else Dirname s.
Proof.
  intros Hs. unfold Dirname at 1. rewrite bool_decide_false by by destruct s.
  rewrite rfind_snoc. destruct (decide (c = "/"%byte)) as [->|Hc].
  - destruct s as [|x s]; [done|]. cbn [length]. apply (take_app_length (x :: s)).
  - unfold Dirname. rewrite bool_decide_false by done. destruct (rfind "/" s) as [[|i]|] eqn:E; [done| |done].
    apply rfind_lt in E. by rewrite take_app_le by lia.
Qed.

Lemma Dirname_no_slash s b : "/"%byte ∉ b -> s <> [] -> Dirname (s ++ b) = Dirname s.
Proof.
  intros Hb Hs. revert Hb. induction b as [|c b IH] using rev_ind; intros Hb; [by rewrite app_nil_r|].
  rewrite app_assoc, Dirname_snoc by (destruct s; [done|discriminate]).
  rewrite decide_False by set_solver. apply IH. set_solver.
Qed.

Lemma Dirname_ne s : Dirname s <> [].
Proof.
  unfold Dirname. destruct (bool_decide (s = [])); [done|].
  destruct (rfind "/" s) as [[|i]|] eqn:E; [done| |done]. apply rfind_lt in E.
  destruct s; simpl in *; [lia|done].
Qed.

Lemma Dirname_sub s c : c ∈ Dirname s -> c = "."%byte \/ c = "/"%byte \/ c ∈ s.
Proof.
  unfold Dirname.
  destruct (bool_decide (s = [])); [by intros ->%list_elem_of_singleton; left|].
  destruct (rfind "/" s) as [[|i]|]; intros H.
  - apply list_elem_of_singleton in H as ->. by right; left.
  - right; right. apply elem_of_take in H as (j & Hj & _). by eapply list_elem_of_lookup_2.
  - apply list_elem_of_singleton in H as ->. by left.
Qed.

(** [Dirname] is the part before the last slash: the directory of [d/b] is [d], that of
    [/b] is [/], and that of a name without slash is [.]. *)
Theorem Dirname_spec d b :
  "/"%byte ∉ b -> d <> [] ->
  Dirname (d ++ lit "/" ++ b) = d /\ Dirname (lit "/" ++ b) = lit "/" /\ Dirname b = lit ".".
Proof.
  intros Hb Hd. split_and!.
  - rewrite app_assoc, Dirname_no_slash by (done || by destruct d).
    change (lit "/") with ["/"%byte]. by rewrite Dirname_snoc, decide_True.
  - by rewrite Dirname_no_slash.
  - destruct b as [|c b]; [done|]. change (c :: b) with ([c] ++ b).
    rewrite Dirname_no_slash by set_solver. unfold Dirname. rewrite bool_decide_false by done.
    change [c] with ([] ++ [c]). rewrite rfind_snoc, decide_False by set_solver. done.
Qed.

Lemma Dirname_spec_witness : Dirname (lit "/var/log/app.txt") = lit "/var/log".
Proof.
  apply (Dirname_spec (lit "/var/log") (lit "app.txt")); [|done].
  by apply (bool_decide_unpack _); vm_compute.
Defined.

(** ** Directories *)

Section Mkdir.
Context {FS : Type} (os : FileSystem FS).

(** A directory [mkdir] reports made is found, and [mkdir] removes nothing. *)
Record mkdir_laws : Prop := {
  mkdir_makes p fs fs' : fs_mkdir os p fs = (0, fs') -> fs_access os fs' p = true;
  mkdir_keeps p q fs r fs' :
    fs_mkdir os p fs = (r, fs') -> fs_access os fs q = true -> fs_access os fs' q = true
}.

Lemma mkdir_call p fs : exists r fs', __mkdir os p fs = (Ok r, fs') /\
  (mkdir_laws -> (r = 0 -> fs_access os fs' p = true) /\
     forall q, fs_access os fs q = true -> fs_access os fs' q = true).
Proof.
  unfold __mkdir. rewrite (bind_ok get _ fs fs fs) by done.
  destruct (fs_access os fs p) eqn:Ha; [by exists 0, fs|].
  destruct (fs_mkdir os p fs) as [r fs'] eqn:E. exists r, fs'. split; [done|].
  intros Hl. split; [intros ->; by apply (mkdir_makes Hl p fs)|].
  intros q. by apply (mkdir_keeps Hl p q fs r).
Qed.

Lemma mkdir_loop_ok rest pre fs : exists r fs', mkdir_loop os pre rest fs = (Ok r, fs') /\
  (mkdir_laws -> (forall q, fs_access os fs q = true -> fs_access os fs' q = true) /\
    (r = true -> forall m t, rest = m ++ "/"%byte :: t -> fs_access os fs' (pre ++ m) = true)).
Proof.
  revert pre fs. induction rest as [|c rest IH]; intros pre fs.
  { exists true, fs. split; [done|]. intros _. split; [done|]. by intros _ [|? ?] t. }
  cbn [mkdir_loop]. case_bool_decide as Hc.
  - destruct (mkdir_call pre fs) as (r & fs1 & Hrun & Hr). rewrite (bind_ok _ _ _ _ _ Hrun).
    destruct (Z.eqb_spec r 0) as [Hr0|Hr0]; simpl.
    + destruct (IH (pre ++ [c]) fs1) as (r' & fs2 & Hrun' & Hr'). exists r', fs2. split; [done|].
      intros Hl. destruct (Hr Hl) as [H1 H2]. destruct (Hr' Hl) as [H3 H4].
      split; [by intros q Hq; apply H3, H2|]. intros Htrue m t Hm.
      destruct m as [|x m]; simplify_eq/=; [rewrite app_nil_r; by apply H3, H1|].
      pose proof (H4 ltac:(done) m t eq_refl) as H5. by rewrite <- app_assoc in H5.
    + exists false, fs1. split; [done|]. intros Hl. destruct (Hr Hl) as [_ H2]. done.
  - destruct (IH (pre ++ [c]) fs) as (r' & fs2 & Hrun' & Hr'). exists r', fs2. split; [done|].
    intros Hl. destruct (Hr' Hl) as [H3 H4]. split; [done|]. intros Htrue m t Hm.
    destruct m as [|x m]; simplify_eq/=. pose proof (H4 ltac:(done) m t eq_refl) as H5. by rewrite <- app_assoc in H5.
Qed.

(** The parent of each directory made is there when the call is. *)
Lemma mkdir_loop_true rest pre fs :
  mkdir_laws ->
  (forall p fs, p <> [] -> fs_access os fs (Dirname p) = true -> exists fs', fs_mkdir os p fs = (0, fs')) ->
  pre <> [] -> fs_access os fs (Dirname pre) = true ->
  exists fs', mkdir_loop os pre rest fs = (Ok true, fs') /\
    fs_access os fs' (Dirname (pre ++ rest)) = true.
Proof.
  intros Hl Hmk. revert pre fs. induction rest as [|c rest IH]; intros pre fs Hne Hdir.
  { exists fs. by rewrite app_nil_r. }
  assert (Happ : pre ++ c :: rest = (pre ++ [c]) ++ rest) by by rewrite <- app_assoc.
  assert (Hne' : pre ++ [c] <> []) by by destruct pre.
  cbn [mkdir_loop]. rewrite Happ. case_bool_decide as Hc.
  - assert (H : exists fs1, __mkdir os pre fs = (Ok 0, fs1) /\ fs_access os fs1 pre = true).
    { unfold __mkdir. rewrite (bind_ok get _ fs fs fs) by done.
      destruct (fs_access os fs pre) eqn:Ha; [by exists fs|].
      destruct (Hmk pre fs Hne Hdir) as [fs1 Hfs1]. exists fs1. rewrite Hfs1.
      split; [done|]. by apply (mkdir_makes Hl pre fs). }
    destruct H as (fs1 & Hrun & Hacc). rewrite (bind_ok _ _ _ _ _ Hrun). simpl.
    apply IH; [done|]. by rewrite Dirname_snoc, decide_True.
  - apply IH; [done|]. by rewrite Dirname_snoc, decide_False.
Qed.
End Mkdir.

(** When [Mkdir] reports success, either the path was there, or the path and every
    directory above it are; and it does succeed when [mkdir] does on any path whose parent
    exists and the root and the current directory exist. *)
Theorem Mkdir_makes_all {FS} (os : FileSystem FS) dirname fs :
  mkdir_laws os -> x00 ∉ dirname -> dirname <> [] ->
  (forall fs', Mkdir os dirname fs = (Ok true, fs') ->
     (fs_lstat os fs dirname = true /\ fs' = fs) \/
     (fs_access os fs' dirname = true /\
      forall c m t, dirname = (c :: m) ++ "/"%byte :: t -> fs_access os fs' (c :: m) = true)) /\
  ((forall p fs, p <> [] -> fs_access os fs (Dirname p) = true -> exists fs', fs_mkdir os p fs = (0, fs')) ->
   fs_access os fs (lit "/") = true -> fs_access os fs (lit ".") = true ->
   exists fs', Mkdir os dirname fs = (Ok true, fs')).
Proof.
  intros Hl H0 Hne. unfold Mkdir. rewrite c_str_id by done.
  setoid_rewrite (bind_ok get _ fs fs fs eq_refl).
  destruct (fs_lstat os fs dirname) eqn:Hst.
  { split; [|by exists fs]. intros fs' [= ->]. by left. }
  destruct dirname as [|c rest]; [done|]. split.
  - intros fs' Hrun. right.
    destruct (mkdir_loop_ok os rest [c] fs) as (r & fs1 & Hloop & Hr).
    rewrite (bind_ok _ _ _ _ _ Hloop) in Hrun. destruct r; [|done]. simpl in Hrun.
    destruct (mkdir_call os (c :: rest) fs1) as (r & fs2 & Hmk & Hr2).
    rewrite (bind_ok _ _ _ _ _ Hmk) in Hrun. destruct (Z.eqb_spec r 0) as [->|]; [|done].
    injection Hrun as ->. destruct (Hr Hl) as [_ H2], (Hr2 Hl) as [H3 H4].
    split; [by apply H3|]. intros x m t [= <- Ht]. apply H4, (H2 eq_refl m t Ht).
  - intros Hmk Hroot Hdot.
    assert (Hdir : fs_access os fs (Dirname [c]) = true).
    { unfold Dirname. rewrite bool_decide_false by done. change [c] with ([] ++ [c]).
      rewrite rfind_snoc. by destruct (decide (c = "/"%byte)). }
    destruct (mkdir_loop_true os rest [c] fs Hl Hmk ltac:(done) Hdir) as (fs1 & Hloop & Hacc).
    rewrite (bind_ok _ _ _ _ _ Hloop). simpl. unfold __mkdir.
    rewrite (bind_ok (get ≫= _) _ fs1 0 (if fs_access os fs1 (c :: rest) then fs1
               else snd (fs_mkdir os (c :: rest) fs1))); [by eexists|].
    rewrite (bind_ok get _ fs1 fs1 fs1) by done. destruct (fs_access os fs1 (c :: rest)); [done|].
    by destruct (Hmk (c :: rest) fs1 ltac:(done) Hacc) as [fs2 ->].
Qed.

(** A file system of directories: [mkdir] succeeds when the parent exists. *)
Definition toy_fs : FileSystem (list str) := {|
  fs_lstat fs p := bool_decide (p ∈ fs);
  fs_access fs p := bool_decide (p ∈ fs);
  fs_mkdir p fs := if bool_decide (Dirname p ∈ fs) then (0, p :: fs) else (-1, fs);
  fs_unlink p fs := (0, fs);
  fs_open p fs := (bool_decide (Dirname p ∈ fs), fs)
|}.

Lemma toy_laws : mkdir_laws toy_fs.
Proof.
  split; simpl.
  - intros p fs fs'. case_bool_decide; [|done]. intros [= <-]. by rewrite bool_decide_true by by left.
  - intros p q fs r fs'. case_bool_decide; intros [= <- <-]; [|done].
    intros Hq%bool_decide_eq_true. apply bool_decide_eq_true. by right.
Qed.

Lemma Mkdir_makes_all_witness :
  exists fs', Mkdir toy_fs (lit "/a/b") [lit "/"; lit "."] = (Ok true, fs').
Proof.
  apply (Mkdir_makes_all toy_fs (lit "/a/b") [lit "/"; lit "."] toy_laws); try reflexivity.
  - by apply (bool_decide_unpack _); vm_compute.
  - discriminate.
  - intros p fs _ H. simpl in *. rewrite H. by eexists.
Defined.

Lemma open_run {FS} (os : FileSystem FS) filename b fs :
  exists r fs', open os filename (mkOfs false b, fs) = (Ok tt, (mkOfs r r, fs')).
Proof. unfold open. cbn [fst snd is_open]. destruct (fs_open os _ fs) as [r fs'] eqn:E. by exists r, fs'. Qed.

(** [OpenForWrite] always returns, for any file name a C string can hold: the directory
    it passes to [Mkdir] is never the empty string, on which [Mkdir] reads out of bounds.
    A stream that was open is put in error, and reported open. *)
Theorem OpenForWrite_returns {FS} (os : FileSystem FS) filename b fs :
  x00 ∉ filename ->
  (exists r fs', OpenForWrite os filename (mkOfs false b, fs) = (Ok r, (mkOfs r r, fs'))) /\
  OpenForWrite os filename (mkOfs true b, fs) = (Ok true, (mkOfs true false, fs)) /\
  (fs_lstat os fs [] = false -> Mkdir os [] fs = (Crash OutOfBounds, fs)).
Proof.
  intros H0. split_and!; [|done|intros Hst; unfold Mkdir; rewrite (bind_ok get _ fs fs fs) by done; cbn; by rewrite Hst].
  unfold OpenForWrite. destruct (open_run os filename b fs) as (r & fs1 & Hr). rewrite (bind_ok _ _ _ _ _ Hr).
  rewrite (bind_ok get _ _ (mkOfs r r, fs1) (mkOfs r r, fs1)) by done. cbn [is_open].
  destruct r; [by exists true, fs1|].
  assert (Hmk : exists r fs2, Mkdir os (Dirname filename) fs1 = (Ok r, fs2)).
  { unfold Mkdir. rewrite (bind_ok get _ fs1 fs1 fs1) by done. rewrite c_str_id.
    2:{ intros [?|[?|?]]%Dirname_sub; done. }
    destruct (fs_lstat os fs1 _); [by eexists _, _|].
    pose proof (Dirname_ne filename) as Hne. destruct (Dirname filename) as [|c rest]; [done|].
    destruct (mkdir_loop_ok os rest [c] fs1) as (r & fs2 & Hl & _). rewrite (bind_ok _ _ _ _ _ Hl).
    destruct r; [|by eexists _, _]. simpl.
    destruct (mkdir_call os (c :: rest) fs2) as (r & fs3 & Hm & _). rewrite (bind_ok _ _ _ _ _ Hm).
    by eexists _, _. }
  destruct Hmk as (r & fs2 & Hm). rewrite (bind_ok (on_fs _) _ _ r (mkOfs false false, fs2)).
  2:{ unfold on_fs. cbn [fst snd]. by rewrite Hm. }
  destruct (open_run os filename false fs2) as (r' & fs3 & Hr'). rewrite (bind_ok _ _ _ _ _ Hr').
  by exists r', fs3.
Qed.

Lemma OpenForWrite_returns_witness :
  exists r fs', OpenForWrite toy_fs (lit "/a/b.log") (mkOfs false true, [lit "/"]) = (Ok r, (mkOfs r r, fs')).
Proof.
  apply (OpenForWrite_returns toy_fs (lit "/a/b.log") true [lit "/"]).
  by apply (bool_decide_unpack _); vm_compute.
Defined.
