(* ===== verification/UtilsSystem.v ===== *)
(** * What utils.cc takes from the system: texts, the locale, threads, back traces

    The rest of src/src/utils/utils.cc.  The functions of the C library and of the ABI are
    arguments; the conversions of [sscanf] that the code asks for are definitions.  Theorems at
    the end of each part. *)

From S2P Require Import Prelude Utils.
#[local] Set Default Goal Selector "!".

(** ** Formatted texts *)

(** [Formatv]: [vasprintf] gives a buffer and the length of its text, or -1. *)
Definition Formatv {Args} (vasprintf : str -> Args -> option str) (fmt : str) (ap : Args) : str :=
  match vasprintf (c_str fmt) ap with
  | None => []
  | Some buf => buf
  end.

Definition Format {Args} (vasprintf : str -> Args -> option str) (fmt : str) (ap : Args) : str := Formatv vasprintf fmt ap.

(** [Time2Str]: [localtime_r] fills the fields of the time; [strftime] the 64 bytes, up to a NUL,
    or nothing when they are too few: then the buffer, which nothing initialised, is read. *)
Definition Time2Str {Tm} (localtime_r : Z -> Tm) (strftime : nat -> str -> Tm -> option str) (ts : Z) (format : str) : M unit str :=
  match strftime 64%nat (c_str format) (localtime_r ts) with
  | Some buf => mret (c_str buf)
  | None => crashed Undefined
  end.

(** ** Wide strings *)

Fixpoint wc_str (s : list Z) : list Z :=
  match s with
  | [] => []
  | c :: s => if c =? 0 then [] else c :: wc_str s
  end.

(** The calls of the C library on the locale: the name of the locale that a name stands for, if
    it is one, the empty name being the environment's choice; and the conversions of whole texts, in
    a locale, which fail on a character that has no counterpart. *)
Record Locales := mkLocales {
  lc_name : str -> option str;
  lc_wcstombs : str -> list Z -> option str;
  lc_mbstowcs : str -> str -> option (list Z)
}.

Section wide.
Context (lc : Locales).

(** [setlocale(LC_ALL, name)] on the locale of the process: its new name, or a null pointer. *)
Definition setlocale (name : str) : M str (option str) :=
  fun l => match lc_name lc name with Some l' => (Ok (Some l'), l') | None => (Ok None, l) end.

(** A [std::string] made of a null pointer throws. *)
Definition str_locale : M str str :=
  r ← setlocale []; match r with Some l => mret l | None => throw logic_error end.

(** A failed conversion returns [(size_t)-1], so that an array of no elements is made and read. *)
Definition converted {A} (conv : option A) : M str A :=
  match conv with Some a => mret a | None => crashed OutOfBounds end.

Definition WStringToString (ws : list Z) : M str str :=
  str_locale ← str_locale;
  l ← get;
  ch_dest ← converted (lc_wcstombs lc l (wc_str ws));
  setlocale str_locale ;;
  mret (c_str ch_dest).

Definition StringToWString (s : str) : M str (list Z) :=
  str_locale ← str_locale;
  l ← get;
  wch_dest ← converted (lc_mbstowcs lc l (c_str s));
  setlocale str_locale ;;
  mret (wc_str wch_dest).
End wide.

(** ** Threads *)

(** What the kernel does with the names of threads: the 16 bytes it gives of the calling thread's,
    the name it is given for it, and the name for another thread, with an error number. *)
Record ThreadNames (K T : Type) := mkThreadNames {
  PR_GET_NAME : K -> str;
  PR_SET_NAME : str -> K -> K;
  pthread_setname_np : T -> str -> K -> Z * K
}.
Arguments PR_GET_NAME {K T}.
Arguments PR_SET_NAME {K T}.
Arguments pthread_setname_np {K T}.

Section threads.
Context {K T : Type} (os : ThreadNames K T).

Definition GetCurThreadName : M K str := tname ← gets (PR_GET_NAME os); mret (c_str tname).
Definition SetCurThreadName (name : str) : M K unit := modify (PR_SET_NAME os (c_str name)).
(** The error number is dropped. *)
Definition SetThreadName (thread : T) (name : str) : M K unit := modify (fun k => snd (pthread_setname_np os thread (c_str name) k)).
End threads.

(** The text of a [std::thread::id], of a thread that runs or of none. *)
Definition id_text (id : option Z) : str :=
  match id with Some n => print_dec n | None => lit "thread::id of a non-executing thread" end.

(** [std::stoull] of a text that starts with a digit or is no number. *)
Fixpoint span (p : byte -> bool) (s : str) : str * str :=
  match s with
  | c :: rest => if p c then let '(l, r) := span p rest in (c :: l, r) else ([], s)
  | [] => ([], [])
  end.
Definition isdigit (c : byte) : bool := (48 <=? b2z c) && (b2z c <=? 57).
Definition stoull (s : str) : M unit Z :=
  match fst (span isdigit s) with
  | [] => throw invalid_argument
  | ds => if of_digits 10 ds <? 2 ^ 64 then mret (of_digits 10 ds) else throw out_of_range
  end.

Definition GetThreadId (id : option Z) : M unit Z := stoull (id_text id).

(** ** Back traces *)

(** A conversion [%w[^no]] of [sscanf]: the longest text, of [w] bytes at most, of other bytes, and
    what is left; it fails on none. *)
Definition scan_set (no : str) (w : nat) (s : str) : option (str * str) :=
  let l := take w (fst (span (fun c => negb (bool_decide (c ∈ no))) s)) in
  match l with [] => None | _ => Some (l, drop (length l) s) end.

Definition isspace (c : byte) : bool := let z := b2z c in (z =? 32) || ((9 <=? z) && (z <=? 13)).

(** [%w s]: the blanks are skipped. *)
Definition scan_word (w : nat) (s : str) : option str :=
  match take w (fst (span (fun c => negb (isspace c)) (snd (span isspace s)))) with [] => None | l => Some l end.

(** The text of a symbol, between the parenthesis and the offset. *)
Definition scan_symbol (s : str) : option str :=
  '(_, s) ← scan_set (lit "(") (length s) s;
  '(_, s) ← scan_set (lit "_") (length s) s;
  fst <$> scan_set (lit ")+") 255 s.

(** The bytes and a NUL, written over a buffer. *)
Definition fill (l rt : str) : str := l ++ x00 :: drop (S (length l)) rt.

(** [demangle]: [rt] is a string of 256 bytes, whatever is written to it. *)
Definition demangle (cxa_demangle : str -> option str) (s : str) : str :=
  let rt := replicate 256 x00 in
  let s := c_str s in
  let again rt := match scan_word 255 s with Some w => fill w rt | None => s end in
  match scan_symbol s with
  | Some w => match cxa_demangle w with Some v => c_str v | None => again (fill w rt) end
  | None => again rt
  end.

(** [Backtrace], from what [backtrace_symbols] returns. *)
Definition Backtrace (cxa_demangle : str -> option str) (strings : option (list str)) (skip : Z) (bt : list str) : list str :=
  match strings with
  | None => bt
  | Some l => bt ++ (demangle cxa_demangle <$> drop (Z.to_nat (u64 skip)) l)
  end.

Definition BacktraceToString (cxa_demangle : str -> option str) (strings : option (list str)) (skip : Z) (prefix : str) : str :=
  concat ((fun s => prefix ++ s ++ [z2b 10]) <$> Backtrace cxa_demangle strings skip []).

(** *** The text of a symbol *)

Lemma span_app p l r : forallb p l = true -> match r with c :: _ => p c = false | [] => True end -> span p (l ++ r) = (l, r).
Proof.
  induction l as [|c l IH]; cbn; intros Hl Hr.
  - destruct r as [|c r]; [done|]. cbn. by rewrite Hr.
  - apply andb_true_iff in Hl as [-> Hl]. by rewrite (IH Hl Hr).
Qed.

Lemma span_length p s : (length (fst (span p s)) <= length s)%nat.
Proof. induction s as [|c s IH]; cbn; [lia|]. destruct (p c); cbn; [destruct (span p s); cbn in *; lia|lia]. Qed.

Lemma scan_set_app no w l r :
  l <> [] -> (length l <= w)%nat -> Forall (fun c => c ∉ no) l -> match r with c :: _ => c ∈ no | [] => True end ->
  scan_set no w (l ++ r) = Some (l, r).
Proof.
  intros Hne Hw Hl Hr. unfold scan_set. rewrite span_app; cbn [fst].
  - rewrite take_ge by done. destruct l as [|c l]; [done|]. by rewrite drop_app_length.
  - apply forallb_forall. intros c Hc. apply list_elem_of_In in Hc. rewrite Forall_forall in Hl. by rewrite bool_decide_eq_false_2 by auto.
  - destruct r; [done|]. by rewrite bool_decide_eq_true_2.
Qed.

Lemma scan_word_length w s l : scan_word w s = Some l -> (length l <= w)%nat.
Proof.
  unfold scan_word. pose proof (firstn_le_length w (fst (span (fun c => negb (isspace c)) (snd (span isspace s))))).
  destruct (take w _); [done|]. by intros [= <-].
Qed.

Lemma length_fill l rt : (length l < length rt)%nat -> length (fill l rt) = length rt.
Proof. intros H. unfold fill. rewrite length_app, length_cons, length_drop. lia. Qed.

Lemma scan_set_length no w s l r : scan_set no w s = Some (l, r) -> (length l <= w)%nat.
Proof.
  unfold scan_set. pose proof (firstn_le_length w (fst (span (fun c => negb (bool_decide (c ∈ no))) s))).
  destruct (take w _); [done|]. by intros [= <- _].
Qed.

Lemma scan_symbol_length s w : scan_symbol s = Some w -> (length w <= 255)%nat.
Proof.
  unfold scan_symbol. intros Hs. apply bind_Some in Hs as ([? s1] & _ & Hs). apply bind_Some in Hs as ([? s2] & _ & Hs).
  apply fmap_Some in Hs as ([t r] & Hs & ->). by eapply scan_set_length.
Qed.

(** The name between the parenthesis and the offset, or the parenthesis, is what is demangled. *)
Theorem demangle_symbol cxa_demangle path name rest v :
  path <> [] -> x00 ∉ path ++ lit "(_" ++ name ++ rest -> "("%byte ∉ path ->
  Forall (fun c => c ∉ lit ")+") name -> (length name < 255)%nat -> match rest with c :: _ => c ∈ lit ")+" | [] => True end ->
  cxa_demangle ("_"%byte :: name) = Some v -> x00 ∉ v ->
  demangle cxa_demangle (path ++ lit "(_" ++ name ++ rest) = v.
Proof.
  intros Hp H0 Hpar Hname Hlen Hrest Hv Hv0. unfold demangle. rewrite c_str_id by done.
  assert (scan_symbol (path ++ lit "(_" ++ name ++ rest) = Some ("_"%byte :: name)) as ->; [|by rewrite Hv, c_str_id].
  unfold scan_symbol. rewrite scan_set_app; [|done|rewrite length_app; lia| |by left].
  - cbn [mbind option_bind]. change (lit "(_" ++ name ++ rest) with (lit "(" ++ "_"%byte :: name ++ rest).
    rewrite scan_set_app; [|done|cbn; lia|by apply (bool_decide_unpack _); vm_compute|by left].
    cbn [mbind option_bind]. change ("_"%byte :: name ++ rest) with (("_"%byte :: name) ++ rest).
    rewrite scan_set_app; [done|done|cbn; lia| |done]. constructor; [|done]. by apply (bool_decide_unpack _); vm_compute.
  - apply Forall_forall. intros c Hc ->%list_elem_of_singleton. done.
Qed.

Lemma demangle_symbol_witness :
  demangle (fun s => if bool_decide (s = lit "_ZN3fooEv") then Some (lit "foo()") else None) (lit "./prog(_ZN3fooEv+0x12) [0x4005d0]") = lit "foo()".
Proof.
  apply (demangle_symbol _ (lit "./prog") (lit "ZN3fooEv") (lit "+0x12) [0x4005d0]")); try done; try (by apply (bool_decide_unpack _); vm_compute).
Defined.

(** A text that is not demangled loses what follows a blank, and has 256 bytes, whatever is there. *)
Theorem demangle_cases cxa_demangle s :
  (exists name v, scan_symbol (c_str s) = Some name /\ cxa_demangle name = Some v /\ demangle cxa_demangle s = c_str v) \/
  (exists l, scan_word 255 (c_str s) = Some l /\ l ++ [x00] `prefix_of` demangle cxa_demangle s /\ length (demangle cxa_demangle s) = 256%nat) \/
  (scan_word 255 (c_str s) = None /\ demangle cxa_demangle s = c_str s).
Proof.
  assert (Hagain : forall rt, length rt = 256%nat ->
    let r := match scan_word 255 (c_str s) with Some w => fill w rt | None => c_str s end in
    (exists l, scan_word 255 (c_str s) = Some l /\ l ++ [x00] `prefix_of` r /\ length r = 256%nat) \/
    (scan_word 255 (c_str s) = None /\ r = c_str s)).
  { intros rt Hrt. destruct (scan_word 255 (c_str s)) as [l|] eqn:Hl; [left|by right]. apply scan_word_length in Hl.
    exists l. split; [done|]. split; [|by rewrite length_fill by lia]. exists (drop (S (length l)) rt). unfold fill. by rewrite <- app_assoc. }
  unfold demangle. destruct (scan_symbol (c_str s)) as [w|] eqn:Hw; [|right; by apply Hagain].
  destruct (cxa_demangle w) as [v|] eqn:Hv; [left; by exists w, v|right]. apply Hagain.
  apply scan_symbol_length in Hw. by rewrite length_fill; rewrite ?length_replicate; try lia.
Qed.

Example main_is_padded :
  let r := demangle (fun _ => None) (lit "./prog(main+0x1d) [0x4005d0]") in
  c_str r = lit "./prog(main+0x1d)" /\ length r = 256%nat.
Proof. by vm_compute. Qed.

(** *** The locale *)

Section wide_theorems.
Context (lc : Locales).
(** The name that [setlocale] gives stands for the locale it has chosen. *)
Hypothesis Hnames : forall n l, lc_name lc n = Some l -> lc_name lc l = Some l.

Lemma str_locale_run l e : lc_name lc [] = Some e -> str_locale lc l = (Ok e, e).
Proof. intros He. unfold str_locale, setlocale, mbind, M_bind. by rewrite He. Qed.

Lemma str_locale_null l : lc_name lc [] = None -> str_locale lc l = (Throw logic_error, l).
Proof. intros He. unfold str_locale, setlocale, mbind, M_bind. by rewrite He. Qed.

Lemma restore_run l e : lc_name lc [] = Some e -> setlocale lc e l = (Ok (Some e), e).
Proof. intros He. unfold setlocale. by rewrite (Hnames _ _ He). Qed.

(** What a conversion returns and leaves: a locale the environment names for a null pointer is an
    exception, a text that cannot be converted makes the code read an array of no elements, and
    the process has from then on the environment's locale, whatever it had: what is restored is
    what was chosen. *)
Theorem WStringToString_run ws l :
  WStringToString lc ws l =
  match lc_name lc [] with
  | None => (Throw logic_error, l)
  | Some e => (match lc_wcstombs lc e (wc_str ws) with Some s => Ok (c_str s) | None => Crash OutOfBounds end, e)
  end.
Proof.
  unfold WStringToString. destruct (lc_name lc []) as [e|] eqn:He.
  - rewrite (bind_ok _ _ _ _ _ (str_locale_run l e He)). m_step. unfold converted.
    destruct (lc_wcstombs lc e (wc_str ws)); [|done]. m_step. by rewrite (bind_ok _ _ _ _ _ (restore_run e e He)).
  - by rewrite (bind_throw _ _ _ _ _ (str_locale_null l He)).
Qed.

Theorem StringToWString_run s l :
  StringToWString lc s l =
  match lc_name lc [] with
  | None => (Throw logic_error, l)
  | Some e => (match lc_mbstowcs lc e (c_str s) with Some ws => Ok (wc_str ws) | None => Crash OutOfBounds end, e)
  end.
Proof.
  unfold StringToWString. destruct (lc_name lc []) as [e|] eqn:He.
  - rewrite (bind_ok _ _ _ _ _ (str_locale_run l e He)). m_step. unfold converted.
    destruct (lc_mbstowcs lc e (c_str s)); [|done]. m_step. by rewrite (bind_ok _ _ _ _ _ (restore_run e e He)).
  - by rewrite (bind_throw _ _ _ _ _ (str_locale_null l He)).
Qed.

Lemma wc_str_id ws : 0 ∉ ws -> wc_str ws = ws.
Proof.
  induction ws as [|c ws IH]; [done|]. intros [Hc Hws]%not_elem_of_cons. cbn.
  destruct (Z.eqb_spec c 0) as [->|_]; [done|]. by rewrite IH.
Qed.

(** The conversions are inverse when those of the library are and the text has no NUL. *)
Theorem wide_roundtrip ws l s l' :
  (forall l ws s, lc_wcstombs lc l ws = Some s -> x00 ∉ s /\ lc_mbstowcs lc l s = Some ws) ->
  0 ∉ ws -> WStringToString lc ws l = (Ok s, l') -> StringToWString lc s l' = (Ok ws, l').
Proof.
  intros Hinv Hws. rewrite WStringToString_run, StringToWString_run, wc_str_id by done.
  destruct (lc_name lc []) as [e|]; [|done]. destruct (lc_wcstombs lc e ws) as [t|] eqn:Ht; [|done].
  apply Hinv in Ht as [H0 Ht]. intros [= <- <-]. by rewrite !c_str_id, Ht, wc_str_id by (rewrite ?c_str_id; done).
Qed.
End wide_theorems.

(** *** Threads *)

Lemma forallb_digits s : Forall (fun c => exists d, 0 <= d < 10 /\ c = digit d) s -> forallb isdigit s = true.
Proof.
  induction 1 as [|c s (d & Hd & ->) _ IH]; [done|]. cbn [forallb]. rewrite IH, andb_true_r.
  unfold isdigit, digit. assert ((d <? 10) = true) as -> by lia. rewrite b2z_z2b, Z.mod_small by lia. lia.
Qed.

(** The identifier of a running thread is read back; that of none throws. *)
Theorem GetThreadId_text id :
  match id with Some n => 0 <= n < 2 ^ 64 | None => True end ->
  GetThreadId id () = (match id with Some n => Ok n | None => Throw invalid_argument end, ()).
Proof.
  destruct id as [n|]; [|by vm_compute]. intros Hn. unfold GetThreadId, id_text, print_dec, stoull.
  assert ((n <? 0) = false) as -> by lia.
  destruct (print_uint_spec 10 n ltac:(lia) Hn) as (Hval & Hds & Hne).
  rewrite <- (app_nil_r (print_uint 10 n)), span_app; cbn [fst]; [|by apply forallb_digits|done].
  destruct (print_uint 10 n) as [|c ds]; [done|]. rewrite Hval. by assert ((n <? 2 ^ 64) = true) as -> by lia.
Qed.
