(* ===== verification/Address.v ===== *)
(** * Network addresses: src/src/socket/address.cc

    The [sockaddr] structures as records with their memory image, the four address
    classes, the prefix arithmetic, printing, ordering, and the look-ups; the calls
    of the C library ([getaddrinfo], [getifaddrs], [inet_pton]) are arguments. *)

From S2P Require Import Prelude Endians.
#[local] Set Default Goal Selector "!".

Definition AF_UNSPEC : Z := 0.
Definition AF_UNIX : Z := 1.
Definition AF_INET : Z := 2.
Definition AF_INET6 : Z := 10.

(** ** The structures

    Integer fields hold what the host reads from them, so that [sin_port] and
    [s_addr] are in network order only once stored. *)
Record sockaddr_in := mkIn {
  sin_family : Z;
  sin_port : Z;
  sin_addr : Z;
  sin_zero : str
}.

Record sockaddr_in6 := mkIn6 {
  sin6_family : Z;
  sin6_port : Z;
  sin6_flowinfo : Z;
  sin6_addr : str;
  sin6_scope_id : Z
}.

Record sockaddr_un := mkUn {
  sun_family : Z;
  sun_path : str
}.

Record sockaddr := mkSa {
  sa_family : Z;
  sa_data : str
}.

Definition zeros (n : nat) : str := repeat x00 n.

(** [Address] and the classes derived from it. *)
Inductive Address :=
| IPv4Address (m_addr : sockaddr_in)
| IPv6Address (m_addr : sockaddr_in6)
| UnixAddress (m_addr : sockaddr_un) (m_length : Z)
| UnknownAddress (m_addr : sockaddr).

(** ** Masks *)

(** [CreateMask<uint32_t>]: shifting an [int] by 32 or more is undefined, and so is
    the overflow of [INT_MIN - 1]. *)
Definition CreateMask32 (bits : Z) : res Z :=
  let sh := u64 (32 - bits) in
  if 32 <=? sh then Crash Undefined
  else if sh =? 31 then Crash Undefined
  else Ok (Z.shiftl 1 sh - 1).

(** [CreateMask<uint8_t>]; its argument is below 8. *)
Definition CreateMask8 (bits : Z) : Z := u8 (Z.shiftl 1 (8 - bits) - 1).

(** [CountBytes]: the loop, and a fuel of one turn per bit. *)
Fixpoint CountBytes (fuel : nat) (value result : Z) : res Z :=
  match fuel with
  | O => Crash OutOfFuel
  | S fuel =>
      if value =? 0 then Ok result
      else CountBytes fuel (Z.land value (value - 1)) (result + 1)
  end.

Section Address.
Context (host : byte_order).

Abbreviation n2h := (byteswapOnLittleEndian host).

(** The bytes a structure occupies. *)
Definition bytes_in (a : sockaddr_in) : str :=
  store host 2 (sin_family a) ++ store host 2 (sin_port a) ++ store host 4 (sin_addr a) ++ sin_zero a.

Definition bytes_in6 (a : sockaddr_in6) : str :=
  store host 2 (sin6_family a) ++ store host 2 (sin6_port a) ++ store host 4 (sin6_flowinfo a) ++
  sin6_addr a ++ store host 4 (sin6_scope_id a).

Definition bytes_un (a : sockaddr_un) : str := store host 2 (sun_family a) ++ sun_path a.

Definition bytes_sa (a : sockaddr) : str := store host 2 (sa_family a) ++ sa_data a.

(** A structure read out of memory: the casts of [sockaddr*]. *)
Definition of_bytes_in (bs : str) : sockaddr_in :=
  mkIn (load host (slice 0 2 bs)) (load host (slice 2 2 bs)) (load host (slice 4 4 bs)) (slice 8 8 bs).

Definition of_bytes_in6 (bs : str) : sockaddr_in6 :=
  mkIn6 (load host (slice 0 2 bs)) (load host (slice 2 2 bs)) (load host (slice 4 4 bs))
    (slice 8 16 bs) (load host (slice 24 4 bs)).

Definition of_bytes_sa (bs : str) : sockaddr :=
  mkSa (load host (slice 0 2 bs)) (slice 2 14 bs).

(** ** Constructors *)

Definition new_IPv4 (address port : Z) : Address :=
  IPv4Address (mkIn AF_INET (n2h 2%nat port) (n2h 4%nat address) (zeros 8)).

Definition new_IPv6_any : Address := IPv6Address (mkIn6 AF_INET6 0 0 (zeros 16) 0).

Definition new_IPv6 (address : str) (port : Z) : Address :=
  IPv6Address (mkIn6 AF_INET6 (n2h 2%nat port) 0 (take 16 address) 0).

Definition MAX_PATH_LEN : Z := 107.

Definition new_Unix : Address := UnixAddress (mkUn AF_UNIX (zeros 108)) (2 + MAX_PATH_LEN).

Definition new_Unix_path (path : str) : res Address :=
  let m_length := u32 (Z.of_nat (length path) + 1) in
  let m_length := if bool_decide (head path = Some x00) then u32 (m_length - 1) else m_length in
  if 108 <? m_length then Throw logic_error
  else
    let bytes := take (Z.to_nat m_length) (path ++ [x00]) in
    Ok (UnixAddress (mkUn AF_UNIX (bytes ++ zeros (108 - length bytes))) (m_length + 2)).

Definition new_Unknown (family : Z) : Address := UnknownAddress (mkSa (u16 family) (zeros 14)).

(** [getAddr]: the bytes behind the pointer; [getAddrLen]. *)
Definition getAddr (a : Address) : str :=
  match a with
  | IPv4Address m => bytes_in m
  | IPv6Address m => bytes_in6 m
  | UnixAddress m _ => bytes_un m
  | UnknownAddress m => bytes_sa m
  end.

Definition getAddrLen (a : Address) : Z :=
  match a with
  | IPv4Address _ => 16
  | IPv6Address _ => 28
  | UnixAddress _ m_length => m_length
  | UnknownAddress _ => 16
  end.

Definition setAddrLen (v : Z) (a : Address) : Address :=
  match a with UnixAddress m _ => UnixAddress m v | _ => a end.

Definition getFamily (a : Address) : Z := load host (take 2 (getAddr a)).

(** [Address::Create]: [None] is the null pointer; a structure shorter than the
    one its family announces is read past its end. *)
Definition Create (addr : option str) : res (option Address) :=
  match addr with
  | None => Ok None
  | Some bs =>
      let family := load host (take 2 bs) in
      if family =? AF_INET then
        if (length bs <? 16)%nat then Crash OutOfBounds else Ok (Some (IPv4Address (of_bytes_in bs)))
      else if family =? AF_INET6 then
        if (length bs <? 28)%nat then Crash OutOfBounds else Ok (Some (IPv6Address (of_bytes_in6 bs)))
      else if (length bs <? 16)%nat then Crash OutOfBounds else Ok (Some (UnknownAddress (of_bytes_sa bs)))
  end.

(** ** Order *)

(** The sign of [memcmp]. *)
Fixpoint memcmp (a b : str) : Z :=
  match a, b with
  | x :: a, y :: b => if b2z x <? b2z y then -1 else if b2z y <? b2z x then 1 else memcmp a b
  | _, _ => 0
  end.

(** The first [len] bytes behind [getAddr]. *)
Definition prefix (a : Address) (len : Z) : str := take (Z.to_nat len) (getAddr a).

Definition lt (a rhs : Address) : bool :=
  let minlen := Z.min (getAddrLen a) (getAddrLen rhs) in
  let result := memcmp (prefix a minlen) (prefix rhs minlen) in
  if result <? 0 then true
  else if 0 <? result then false
  else if getAddrLen a <? getAddrLen rhs then true
  else false.

Definition eq (a rhs : Address) : bool :=
  (getAddrLen a =? getAddrLen rhs) &&
  (memcmp (prefix a (getAddrLen a)) (prefix rhs (getAddrLen a)) =? 0).

Definition ne (a rhs : Address) : bool := negb (eq a rhs).

(** ** Prefixes *)

Definition with_addr (a : sockaddr_in) (s_addr : Z) : Address :=
  IPv4Address (mkIn (sin_family a) (sin_port a) s_addr (sin_zero a)).

Definition broadcastAddress4 (m_addr : sockaddr_in) (prefix_len : Z) : res (option Address) :=
  if 32 <? prefix_len then Ok None
  else
    match CreateMask32 prefix_len with
    | Ok mask => Ok (Some (with_addr m_addr (Z.lor (sin_addr m_addr) (n2h 4%nat mask))))
    | Throw e => Throw e
    | Crash c => Crash c
    end.

Definition networkAddress4 (m_addr : sockaddr_in) (prefix_len : Z) : res (option Address) :=
  if 32 <? prefix_len then Ok None
  else
    match CreateMask32 prefix_len with
    | Ok mask => Ok (Some (with_addr m_addr (Z.land (sin_addr m_addr) (n2h 4%nat (u32 (Z.lnot mask))))))
    | Throw e => Throw e
    | Crash c => Crash c
    end.

Definition subnetMask4 (prefix_len : Z) : res (option Address) :=
  match CreateMask32 prefix_len with
  | Ok mask => Ok (Some (IPv4Address (mkIn AF_INET 0 (u32 (Z.lnot (n2h 4%nat mask))) (zeros 8))))
  | Throw e => Throw e
  | Crash c => Crash c
  end.

Definition with_addr6 (a : sockaddr_in6) (s6_addr : str) : Address :=
  IPv6Address (mkIn6 (sin6_family a) (sin6_port a) (sin6_flowinfo a) s6_addr (sin6_scope_id a)).

(** Byte [prefix_len / 8] becomes [f] of itself and of the mask, the bytes after it [fill]. *)
Definition mask6 (f : Z -> Z -> Z) (fill : byte) (s6_addr : str) (prefix_len : Z) : res str :=
  let i := Z.to_nat (prefix_len / 8) in
  match s6_addr !! i with
  | Some b =>
      Ok (take i s6_addr ++ [z2b (f (b2z b) (CreateMask8 (prefix_len mod 8)))] ++ repeat fill (15 - i))
  | None => Crash OutOfBounds
  end.

Definition broadcastAddress6 (m_addr : sockaddr_in6) (prefix_len : Z) : res (option Address) :=
  match mask6 Z.lor xff (sin6_addr m_addr) prefix_len with
  | Ok bs => Ok (Some (with_addr6 m_addr bs))
  | Throw e => Throw e
  | Crash c => Crash c
  end.

Definition networkAddress6 (m_addr : sockaddr_in6) (prefix_len : Z) : res (option Address) :=
  match mask6 Z.land x00 (sin6_addr m_addr) prefix_len with
  | Ok bs => Ok (Some (with_addr6 m_addr bs))
  | Throw e => Throw e
  | Crash c => Crash c
  end.

Definition subnetMask6 (prefix_len : Z) : res (option Address) :=
  let i := Z.to_nat (prefix_len / 8) in
  if (i <? 16)%nat then
    Ok (Some (IPv6Address (mkIn6 AF_INET6 0 0
      (repeat xff i ++ [z2b (Z.lnot (CreateMask8 (prefix_len mod 8)))] ++ zeros (15 - i)) 0)))
  else Crash OutOfBounds.

(** The virtual functions of [IPAddress]; only IP addresses have them. *)
Definition broadcastAddress (a : Address) (prefix_len : Z) : res (option Address) :=
  match a with
  | IPv4Address m => broadcastAddress4 m prefix_len
  | IPv6Address m => broadcastAddress6 m prefix_len
  | _ => Crash Undefined
  end.

Definition networkAddress (a : Address) (prefix_len : Z) : res (option Address) :=
  match a with
  | IPv4Address m => networkAddress4 m prefix_len
  | IPv6Address m => networkAddress6 m prefix_len
  | _ => Crash Undefined
  end.

Definition subnetMask (a : Address) (prefix_len : Z) : res (option Address) :=
  match a with
  | IPv4Address _ => subnetMask4 prefix_len
  | IPv6Address _ => subnetMask6 prefix_len
  | _ => Crash Undefined
  end.

Definition isIPAddress (a : Address) : bool :=
  match a with IPv4Address _ | IPv6Address _ => true | _ => false end.

Definition getPort (a : Address) : Z :=
  match a with
  | IPv4Address m => n2h 2%nat (sin_port m)
  | IPv6Address m => n2h 2%nat (sin6_port m)
  | _ => 0
  end.

Definition setPort (v : Z) (a : Address) : Address :=
  match a with
  | IPv4Address m => IPv4Address (mkIn (sin_family m) (n2h 2%nat v) (sin_addr m) (sin_zero m))
  | IPv6Address m =>
      IPv6Address (mkIn6 (sin6_family m) (n2h 2%nat v) (sin6_flowinfo m) (sin6_addr m) (sin6_scope_id m))
  | _ => a
  end.

(** ** Printing *)

Definition insert4 (m : sockaddr_in) : str :=
  let addr := n2h 4%nat (sin_addr m) in
  let part sh := print_dec (Z.land (Z.shiftr addr sh) 255) in
  part 24 ++ lit "." ++ part 16 ++ lit "." ++ part 8 ++ lit "." ++ part 0 ++
  lit ":" ++ print_dec (n2h 2%nat (sin_port m)).

(** The sixteen address bytes as eight host integers. *)
Fixpoint groups (bs : str) : list Z :=
  match bs with
  | a :: b :: bs => load host [a; b] :: groups bs
  | _ => []
  end.

(** The loop over the groups: [i] is the index, [prev] the group before, [used] is
    [used_zeros]; the result is the text and the final [used_zeros]. *)
Fixpoint insert6_loop (i : nat) (prev : Z) (used : bool) (addr : list Z) : str * bool :=
  match addr with
  | [] => ([], used)
  | a :: addr =>
      if (a =? 0) && negb used then insert6_loop (S i) a used addr
      else
        let zeros := negb (i =? 0)%nat && (prev =? 0) && negb used in
        let used := used || zeros in
        let '(rest, used) := insert6_loop (S i) a used addr in
        ((if zeros then lit ":" else []) ++ (if (i =? 0)%nat then [] else lit ":") ++
         print_uint 16 (n2h 2%nat a) ++ rest, used)
  end.

Definition insert6_body (addr : list Z) : str :=
  let '(text, used) := insert6_loop 0 0 false addr in
  text ++ (if negb used && (nth 7 addr 0 =? 0) then lit "::" else []).

Definition insert6 (m : sockaddr_in6) : str :=
  lit "[" ++ insert6_body (groups (sin6_addr m)) ++ lit "]:" ++ print_dec (n2h 2%nat (sin6_port m)).

(** [UnixAddress::getPath] and [insert]; [m_length] within the structure. *)
Definition getPath (m : sockaddr_un) (m_length : Z) : str :=
  if (2 <? m_length) && bool_decide (head (sun_path m) = Some x00)
  then lit "\0" ++ slice 1 (Z.to_nat (m_length - 2 - 1)) (sun_path m)
  else c_str (sun_path m).

Definition insert (a : Address) : str :=
  match a with
  | IPv4Address m => insert4 m
  | IPv6Address m => insert6 m
  | UnixAddress m m_length => getPath m m_length
  | UnknownAddress m => lit "[UnknownAddress family=" ++ print_dec (sa_family m) ++ lit "]"
  end.

Definition toString (a : Address) : str := insert a.

(** ** Look-ups *)

(** What [Lookup] passes to [getaddrinfo]: the node and the service. *)
Definition split_host (h : str) : str * option str :=
  let '(node, service) :=
    match h with
    | c :: rest =>
        if bool_decide (c = "["%byte) then
          match memchr "]" rest with
          | Some e =>
              (take e rest,
               if bool_decide (rest !! S e = Some ":"%byte) then Some (drop (S (S e)) rest) else None)
          | None => ([], None)
          end
        else ([], None)
    | [] => ([], None)
    end in
  let '(node, service) :=
    if bool_decide (node = []) then
      match memchr ":" h with
      | Some p =>
          match memchr ":" (drop (S p) h) with
          | None => (take p h, Some (drop (S p) h))
          | Some _ => (node, Some (drop p h))
          end
      | None => (node, None)
      end
    else (node, service) in
  (if bool_decide (node = []) then h else node, service).

(** Copying the chain of results, which are not null, into addresses. *)
Fixpoint create_all (l : list str) : res (list (option Address)) :=
  match l with
  | [] => Ok []
  | bs :: l =>
      match Create (Some bs) with
      | Ok a => match create_all l with Ok r => Ok (a :: r) | Throw e => Throw e | Crash c => Crash c end
      | Throw e => Throw e
      | Crash c => Crash c
      end
  end.

(** [getaddrinfo node service]: the images of the addresses, or an error. *)
Definition Lookup (getaddrinfo : str -> option str -> option (list str))
    (h : str) (result : list (option Address)) : res (bool * list (option Address)) :=
  let '(node, service) := split_host h in
  match getaddrinfo (c_str node) (c_str <$> service) with
  | None => Ok (false, result)
  | Some l =>
      match create_all l with
      | Ok r => let result := result ++ r in Ok (negb (bool_decide (length result = 0%nat)), result)
      | Throw e => Throw e
      | Crash c => Crash c
      end
  end.

Definition LookupAny (getaddrinfo : str -> option str -> option (list str)) (h : str)
    : res (option Address) :=
  match Lookup getaddrinfo h [] with
  | Ok (true, a :: _) => Ok a
  | Ok _ => Ok None
  | Throw e => Throw e
  | Crash c => Crash c
  end.

(** The first IP address: [dynamic_pointer_cast] gives null on the others. *)
Fixpoint first_ip (l : list (option Address)) : option Address :=
  match l with
  | [] => None
  | Some a :: l => if isIPAddress a then Some a else first_ip l
  | None :: l => first_ip l
  end.

Definition LookupAnyIPAddress (getaddrinfo : str -> option str -> option (list str)) (h : str)
    : res (option Address) :=
  match Lookup getaddrinfo h [] with
  | Ok (true, l) => Ok (first_ip l)
  | Ok _ => Ok None
  | Throw e => Throw e
  | Crash c => Crash c
  end.

(** [IPAddress::Create]: [getaddrinfo] with [AI_NUMERICHOST]; the first result. *)
Definition IPAddress_Create (getaddrinfo : str -> option (list str)) (address : str) (port : Z)
    : res (option Address) :=
  match getaddrinfo address with
  | None => Ok None
  | Some [] => Crash NullDeref
  | Some (bs :: _) =>
      match Create (Some bs) with
      | Ok (Some a) => Ok (if isIPAddress a then Some (setPort port a) else None)
      | Ok None => Ok None
      | Throw e => Throw e
      | Crash c => Crash c
      end
  end.

(** [inet_pton] returns the stored bytes. *)
Definition IPv4Address_Create (inet_pton : str -> option str) (address : str) (port : Z)
    : option Address :=
  match inet_pton address with
  | None => None
  | Some bs => Some (IPv4Address (mkIn AF_INET (n2h 2%nat port) (load host (take 4 bs)) (zeros 8)))
  end.

Definition IPv6Address_Create (inet_pton : str -> option str) (address : str) (port : Z)
    : option Address :=
  match inet_pton address with
  | None => None
  | Some bs => Some (IPv6Address (mkIn6 AF_INET6 (n2h 2%nat port) 0 (take 16 bs) 0))
  end.

(** ** Interfaces *)

(** An entry of [getifaddrs]: its pointers may be null. *)
Record ifaddrs := mkIf {
  ifa_name : str;
  ifa_addr : option str;
  ifa_netmask : option str
}.

(** [std::multimap::insert]: after the entries whose key is not greater. *)
Definition str_less (a b : str) : bool :=
  (memcmp a b <? 0) || ((memcmp a b =? 0) && (length a <? length b)%nat).

Fixpoint multimap_insert {V} (k : str) (v : V) (l : list (str * V)) : list (str * V) :=
  match l with
  | [] => [(k, v)]
  | (k', v') :: l' => if str_less k k' then (k, v) :: l else (k', v') :: multimap_insert k v l'
  end.

(** The prefix lengths of the two families, from the images of the masks. *)
Definition prefix_len4 (netmask : str) : res Z := CountBytes 33 (load host (slice 4 4 netmask)) 0.

Fixpoint count_all (bs : str) (n : Z) : res Z :=
  match bs with
  | [] => Ok n
  | b :: bs => match CountBytes 9 (b2z b) 0 with Ok k => count_all bs (n + k) | r => r end
  end.

Definition prefix_len6 (netmask : str) : res Z := count_all (slice 8 16 netmask) 0.

Fixpoint interfaces (family : Z) (l : list ifaddrs)
    (result : list (str * (Address * Z))) : res (list (str * (Address * Z))) :=
  match l with
  | [] => Ok result
  | next :: l =>
      match ifa_addr next with
      | None => Crash NullDeref
      | Some addr =>
          let fam := load host (take 2 addr) in
          if negb (family =? AF_UNSPEC) && negb (family =? fam) then interfaces family l result
          else if (fam =? AF_INET) || (fam =? AF_INET6) then
            match ifa_netmask next with
            | None => Crash NullDeref
            | Some mask =>
                match Create (Some addr), (if fam =? AF_INET then prefix_len4 mask else prefix_len6 mask) with
                | Ok (Some a), Ok p => interfaces family l (multimap_insert (ifa_name next) (a, p) result)
                | Ok None, Ok _ => interfaces family l result
                | Crash c, _ | _, Crash c => Crash c
                | Throw e, _ | _, Throw e => Throw e
                end
            end
          else interfaces family l result
      end
  end.

(** The result is whether it succeeded and the map. *)
Definition GetInterfaceAddresses (getifaddrs : option (list ifaddrs)) (family : Z)
    (result : list (str * (Address * Z))) : res (bool * list (str * (Address * Z))) :=
  match getifaddrs with
  | None => Ok (false, result)
  | Some l =>
      match interfaces family l result with
      | Ok r => Ok (negb (bool_decide (length r = 0%nat)), r)
      | Throw _ => Ok (false, result)
      | Crash c => Crash c
      end
  end.

Definition GetInterfaceAddresses_of (getifaddrs : option (list ifaddrs)) (iface : str) (family : Z)
    (result : list (Address * Z)) : res (bool * list (Address * Z)) :=
  if bool_decide (iface = []) || bool_decide (iface = lit "*") then
    let r4 := if (family =? AF_INET) || (family =? AF_UNSPEC) then [(new_IPv4 0 0, 0)] else [] in
    let r6 := if (family =? AF_INET6) || (family =? AF_UNSPEC) then [(new_IPv6_any, 0)] else [] in
    Ok (true, result ++ r4 ++ r6)
  else
    match GetInterfaceAddresses getifaddrs family [] with
    | Ok (true, results) =>
        let result := result ++ (snd <$> filter (fun kv => fst kv = iface) results) in
        Ok (negb (bool_decide (length result = 0%nat)), result)
    | Ok (false, _) => Ok (false, result)
    | Throw e => Throw e
    | Crash c => Crash c
    end.
End Address.
