(* ===== verification/AddressTheorems.v ===== *)
(** * Network addresses: the properties *)

From S2P Require Import Prelude Endians Address.
From Stdlib Require Import Btauto.
#[local] Set Default Goal Selector "!".

(** ** Bits under byte swapping *)

(** Where bit [n] of a swapped 32-bit integer comes from. *)
Definition swap_index (n : Z) : Z := 8 * (3 - n / 8) + n mod 8.

(** One step of evaluating [Z.testbit] at a numeral. *)
Ltac testbit_step :=
  match goal with
  | |- context [Z.testbit ?a (Z.neg ?p)] => rewrite (Z.testbit_neg_r a (Z.neg p)) by reflexivity
  | |- context [Z.testbit (Z.lor ?a ?b) ?n] => rewrite (Z.lor_spec a b n)
  | |- context [Z.testbit (Z.land ?a ?b) ?n] => rewrite (Z.land_spec a b n)
  | |- context [Z.testbit (Z.shiftl ?a ?k) ?n] =>
      rewrite (Z.shiftl_spec a k n) by lia;
      let i := eval vm_compute in (n - k) in change (n - k) with i
  | |- context [Z.testbit (Z.shiftr ?a ?k) ?n] =>
      rewrite (Z.shiftr_spec a k n) by lia;
      let i := eval vm_compute in (n + k) in change (n + k) with i
  | |- context [Z.testbit (Z.pos ?p) ?n] =>
      let v := eval vm_compute in (Z.testbit (Z.pos p) n) in change (Z.testbit (Z.pos p) n) with v
  end.

Lemma bswap_32_testbit x n :
  0 <= n < 32 -> Z.testbit (bswap_32 x) n = Z.testbit x (swap_index n).
Proof.
  intros Hn. rewrite <- (Z2Nat.id n) by lia. set (k := Z.to_nat n).
  assert (Hk : (k < 32)%nat) by (unfold k; lia). clearbody k. clear Hn.
  unfold bswap_32, bswap_16, byte_of.
  do 32 (destruct k as [|k];
    [match goal with |- context [swap_index ?m] =>
       let v := eval vm_compute in (swap_index m) in change (swap_index m) with v;
       let w := eval vm_compute in m in change m with w
     end; cbn [Z.mul Pos.mul]; repeat testbit_step; cbn [andb orb];
     rewrite ?andb_true_r, ?andb_false_r, ?orb_false_r; reflexivity|]).
  lia.
Qed.

Lemma bits_eq w x y :
  unsigned_range w x -> unsigned_range w y ->
  (forall n, 0 <= n < w -> Z.testbit x n = Z.testbit y n) -> x = y.
Proof.
  intros Hx Hy H. assert (Hw : 0 <= w).
  { destruct (Z.le_gt_cases 0 w); [done|]. unfold unsigned_range in Hx.
    rewrite Z.pow_neg_r in Hx by lia. lia. }
  rewrite <- (wrap_small w x Hx), <- (wrap_small w y Hy). unfold wrap.
  apply Z.bits_inj'. intros n Hn. destruct (Z.lt_ge_cases n w).
  - rewrite !Z.mod_pow2_bits_low by done. by apply H.
  - by rewrite !Z.mod_pow2_bits_high by lia.
Qed.

Lemma lor_range w x y : 0 <= w -> unsigned_range w x -> unsigned_range w y -> unsigned_range w (Z.lor x y).
Proof.
  intros Hw Hx Hy. rewrite <- (wrap_small w x Hx), <- (wrap_small w y Hy). unfold wrap.
  rewrite <- !Z.land_ones, <- Z.land_lor_distr_l, Z.land_ones by done. by apply wrap_range.
Qed.

Lemma land_range w x y : 0 <= w -> unsigned_range w x -> unsigned_range w (Z.land x y).
Proof.
  intros Hw Hx. rewrite <- (wrap_small w x Hx). unfold wrap.
  rewrite <- Z.land_ones, <- Z.land_assoc, (Z.land_comm _ y), Z.land_assoc, Z.land_ones by done.
  by apply wrap_range.
Qed.

Lemma wrap_lnot_testbit w x n : 0 <= n < w -> Z.testbit (wrap w (Z.lnot x)) n = negb (Z.testbit x n).
Proof. intros Hn. unfold wrap. rewrite Z.mod_pow2_bits_low by lia. apply Z.lnot_spec. lia. Qed.

(** The same for the conversion of 32-bit fields, on either host. *)
Definition field_index (host : byte_order) (n : Z) : Z :=
  match host with LittleEndian => swap_index n | BigEndian => n end.

Lemma n2h4_testbit host x n :
  unsigned_range 32 x -> 0 <= n < 32 ->
  Z.testbit (byteswapOnLittleEndian host 4 x) n = Z.testbit x (field_index host n).
Proof.
  intros Hx Hn. destruct host; [|done]. unfold byteswapOnLittleEndian, byteswap.
  rewrite wrap_small by done. by apply bswap_32_testbit.
Qed.

Lemma field_index_range host n : 0 <= n < 32 -> 0 <= field_index host n < 32.
Proof. intros Hn. destruct host; [|done]. unfold field_index, swap_index. zdiv. Qed.

Lemma field_index_inv host n : 0 <= n < 32 -> field_index host (field_index host n) = n.
Proof. intros Hn. destruct host; [|done]. unfold field_index, swap_index. zdiv. Qed.

Lemma n2h4_range host x : unsigned_range 32 x -> unsigned_range 32 (byteswapOnLittleEndian host 4 x).
Proof. intros Hx. destruct host; [|done]. apply (byteswap_range 4); right; by left. Qed.

Lemma n2h4_inv host x :
  unsigned_range 32 x -> byteswapOnLittleEndian host 4 (byteswapOnLittleEndian host 4 x) = x.
Proof. intros Hx. destruct host; [|done]. apply (byteswap_involutive 4); [right; by left|done]. Qed.

Lemma n2h4_op host (f : Z -> Z -> Z) (g : bool -> bool -> bool) x y :
  (forall a b, unsigned_range 32 a -> unsigned_range 32 b -> unsigned_range 32 (f a b)) ->
  (forall a b n, unsigned_range 32 a -> unsigned_range 32 b -> 0 <= n < 32 ->
     Z.testbit (f a b) n = g (Z.testbit a n) (Z.testbit b n)) ->
  unsigned_range 32 x -> unsigned_range 32 y ->
  let n2h := byteswapOnLittleEndian host 4 in n2h (f x (n2h y)) = f (n2h x) y.
Proof.
  intros Hr Hf Hx Hy n2h. pose proof (n2h4_range host y Hy) as Hy'. pose proof (n2h4_range host x Hx) as Hx'.
  apply (bits_eq 32); [apply n2h4_range; auto|auto|].
  intros n Hn. pose proof (field_index_range host n Hn).
  unfold n2h. rewrite n2h4_testbit, !Hf, !n2h4_testbit, field_index_inv by auto. done.
Qed.

Lemma n2h4_lor host x y :
  unsigned_range 32 x -> unsigned_range 32 y ->
  byteswapOnLittleEndian host 4 (Z.lor x (byteswapOnLittleEndian host 4 y)) =
  Z.lor (byteswapOnLittleEndian host 4 x) y.
Proof.
  apply (n2h4_op host Z.lor orb); intros; [apply lor_range; [lia|done..]|apply Z.lor_spec].
Qed.

Lemma n2h4_land host x y :
  unsigned_range 32 x -> unsigned_range 32 y ->
  byteswapOnLittleEndian host 4 (Z.land x (byteswapOnLittleEndian host 4 y)) =
  Z.land (byteswapOnLittleEndian host 4 x) y.
Proof.
  apply (n2h4_op host Z.land andb); intros; [apply land_range; [lia|done]|apply Z.land_spec].
Qed.

(** ** Prefixes of IPv4 addresses *)

Lemma CreateMask32_ok p : 2 <= p <= 32 -> CreateMask32 p = Ok (Z.ones (32 - p)).
Proof.
  intros Hp. unfold CreateMask32.
  assert (Hr : unsigned_range 64 (32 - p)) by (unfold unsigned_range; lia).
  rewrite (wrap_small 64 _ Hr).
  destruct (Z.leb_spec 32 (32 - p)); [lia|]. destruct (Z.eqb_spec (32 - p) 31); [lia|].
  rewrite Z.ones_equiv, Z.shiftl_1_l. done.
Qed.

Lemma ones_range k w : 0 <= k <= w -> unsigned_range w (Z.ones k).
Proof.
  intros Hk. rewrite Z.ones_equiv. pose proof (Z.pow_le_mono_r 2 k w ltac:(lia) ltac:(lia)).
  pose proof (Z.pow_pos_nonneg 2 k). unfold unsigned_range. lia.
Qed.

Lemma lor_ones_block a k : 0 <= k -> Z.lor a (Z.ones k) = a / 2 ^ k * 2 ^ k + (2 ^ k - 1).
Proof.
  intros Hk. assert (H : Z.lor a (Z.ones k) = Z.lor (Z.shiftl (Z.shiftr a k) k) (Z.ones k)).
  { apply Z.bits_inj'. intros n Hn. rewrite !Z.lor_spec, Z.shiftl_spec by lia.
    destruct (Z.lt_ge_cases n k).
    - rewrite Z.ones_spec_low by lia. by rewrite !orb_true_r.
    - rewrite Z.shiftr_spec by lia. do 2 f_equal. lia. }
  rewrite H, lor_shiftl_add; [by rewrite Z.shiftr_div_pow2, Z.ones_equiv by done|done|].
  rewrite Z.ones_equiv. pose proof (Z.pow_pos_nonneg 2 k). lia.
Qed.

Lemma land_high_block a k w :
  0 <= k <= w -> unsigned_range w a ->
  Z.land a (wrap w (Z.lnot (Z.ones k))) = a / 2 ^ k * 2 ^ k.
Proof.
  intros Hk Ha. rewrite <- Z.shiftr_div_pow2, <- Z.shiftl_mul_pow2 by lia.
  assert (Hr : unsigned_range w (Z.shiftl (Z.shiftr a k) k)).
  { rewrite Z.shiftl_mul_pow2, Z.shiftr_div_pow2 by lia. unfold unsigned_range in *.
    pose proof (Z.mul_div_le a (2 ^ k) (Z.pow_pos_nonneg 2 k ltac:(lia) ltac:(lia))).
    pose proof (Z.div_pos a (2 ^ k)). pose proof (Z.pow_pos_nonneg 2 k). nia. }
  apply (bits_eq w); [apply land_range; [lia|done]|done|].
  intros n Hn. rewrite Z.land_spec, wrap_lnot_testbit, Z.shiftl_spec by lia.
  destruct (Z.lt_ge_cases n k).
  - rewrite Z.ones_spec_low, (Z.testbit_neg_r _ (n - k)) by lia. apply andb_false_r.
  - rewrite Z.ones_spec_high, Z.shiftr_spec, andb_true_r by lia. f_equal. lia.
Qed.

(** The number an address field stands for: the address in host order. *)
Definition value4 (host : byte_order) (field : Z) : Z := byteswapOnLittleEndian host 4 field.

(** For a prefix of 2 to 32 bits, on a host of either byte order, the broadcast address
    of an IPv4 address is the last of its block, the network address the first, and the mask
    covers the prefix; the other fields are kept.  Above 32 bits the first two return null;
    on the prefixes 0 and 1 the mask shifts an [int] out of its width. *)
Theorem IPv4_prefixes host m p :
  unsigned_range 32 (sin_addr m) -> 0 <= p < 2 ^ 32 ->
  let a := value4 host (sin_addr m) in
  let size := 2 ^ (32 - p) in
  if 32 <? p then broadcastAddress4 host m p = Ok None /\ networkAddress4 host m p = Ok None
  else if p <? 2 then
    broadcastAddress4 host m p = Crash Undefined /\ networkAddress4 host m p = Crash Undefined /\
    subnetMask4 host p = Crash Undefined
  else
    exists b n s,
      broadcastAddress4 host m p = Ok (Some (with_addr m b)) /\ value4 host b = a / size * size + (size - 1) /\
      networkAddress4 host m p = Ok (Some (with_addr m n)) /\ value4 host n = a / size * size /\
      subnetMask4 host p = Ok (Some (IPv4Address (mkIn AF_INET 0 s (zeros 8)))) /\
      value4 host s = 2 ^ 32 - size.
Proof.
  intros Ha Hp a size. unfold broadcastAddress4, networkAddress4, subnetMask4.
  destruct (Z.ltb_spec 32 p); [done|]. destruct (Z.ltb_spec p 2) as [H2|H2].
  { assert (p = 0 \/ p = 1) as [-> | ->] by lia; done. }
  rewrite CreateMask32_ok by lia.
  assert (Ho : unsigned_range 32 (Z.ones (32 - p))) by (apply ones_range; lia).
  assert (Hn : unsigned_range 32 (u32 (Z.lnot (Z.ones (32 - p))))) by (apply wrap_range; lia).
  unfold value4. do 3 eexists. split_and!; [reflexivity| |reflexivity| |reflexivity|].
  - rewrite n2h4_lor by done. apply lor_ones_block. lia.
  - rewrite n2h4_land by done. apply land_high_block; [lia|by apply n2h4_range].
  - apply (bits_eq 32).
    + apply n2h4_range, wrap_range. lia.
    + unfold size, unsigned_range. pose proof (Z.pow_pos_nonneg 2 (32 - p)).
      pose proof (Z.pow_le_mono_r 2 (32 - p) 32). lia.
    + intros n Hn'. pose proof (field_index_range host n Hn') as Hi.
      assert (Hs : 2 ^ 32 - size = u32 (Z.lnot (Z.ones (32 - p)))).
      { unfold Z.lnot, wrap, size. rewrite Z.ones_equiv.
        pose proof (Z.pow_pos_nonneg 2 (32 - p) ltac:(lia) ltac:(lia)).
        pose proof (Z.pow_le_mono_r 2 (32 - p) 32 ltac:(lia) ltac:(lia)).
        rewrite <- (Z_mod_plus_full _ 1), Z.mod_small; lia. }
      rewrite Hs, n2h4_testbit by (done || apply wrap_range; lia).
      rewrite !wrap_lnot_testbit by done. f_equal.
      by rewrite n2h4_testbit, field_index_inv by done.
Qed.

Lemma IPv4_prefixes_witness :
  exists b, broadcastAddress4 LittleEndian (mkIn AF_INET 0 (byteswap 4 0xC0A80105) (zeros 8)) 24 =
    Ok (Some (with_addr (mkIn AF_INET 0 (byteswap 4 0xC0A80105) (zeros 8)) b)) /\
    value4 LittleEndian b = 0xC0A801FF.
Proof.
  destruct (IPv4_prefixes LittleEndian (mkIn AF_INET 0 (byteswap 4 0xC0A80105) (zeros 8)) 24)
    as (b & n & s & H1 & H2 & _); [by vm_compute|lia|].
  exists b. split; [exact H1|]. rewrite H2. reflexivity.
Defined.

(** ** Prefixes of IPv6 addresses *)

(** Bit [i] of an address, the most significant bit of the first byte being bit 0. *)
Definition bit6 (bs : str) (i : nat) : bool :=
  match bs !! (i / 8)%nat with
  | Some b => Z.testbit (b2z b) (7 - Z.of_nat (i mod 8))
  | None => false
  end.

Lemma CreateMask8_ones q : (q < 8)%nat -> CreateMask8 (Z.of_nat q) = Z.ones (8 - Z.of_nat q).
Proof.
  intros Hq. unfold CreateMask8. rewrite Z.ones_equiv, Z.shiftl_1_l. apply wrap_small.
  pose proof (ones_range (8 - Z.of_nat q) 8 ltac:(lia)) as H. by rewrite Z.ones_equiv in H.
Qed.

Lemma lookup_repeat {A} (x : A) n i : (i < n)%nat -> repeat x n !! i = Some x.
Proof. revert i. induction n; intros [|i] Hi; simpl; try lia; [done|]. apply IHn. lia. Qed.

Lemma take_repeat {A} (x : A) k n : (k <= n)%nat -> take k (repeat x n) = repeat x k.
Proof. revert k. induction n; intros [|k] Hk; simpl; try lia; [done..|]. f_equal. apply IHn. lia. Qed.

Lemma bit6_masked bs p f fill x i :
  length bs = 16%nat -> (p < 128)%nat -> (i < 128)%nat -> bs !! (p / 8)%nat = Some x ->
  bit6 (take (p / 8) bs ++ [z2b (f (b2z x) (CreateMask8 (Z.of_nat p mod 8)))] ++ repeat fill (15 - p / 8)) i =
  if (i / 8 <? p / 8)%nat then bit6 bs i
  else if (i / 8 =? p / 8)%nat
  then Z.testbit (f (b2z x) (Z.ones (8 - Z.of_nat (p mod 8)))) (7 - Z.of_nat (i mod 8))
  else Z.testbit (b2z fill) (7 - Z.of_nat (i mod 8)).
Proof.
  intros Hl Hp Hi Hx. unfold bit6.
  assert (Hp8 : (p / 8 < 16)%nat) by (apply Nat.Div0.div_lt_upper_bound; lia).
  assert (Hi8 : (i / 8 < 16)%nat) by (apply Nat.Div0.div_lt_upper_bound; lia).
  assert (Ht : length (take (p / 8) bs) = (p / 8)%nat) by (rewrite length_take; lia).
  pose proof (Nat.mod_upper_bound i 8 ltac:(lia)). pose proof (Nat.mod_upper_bound p 8 ltac:(lia)).
  destruct (Nat.ltb_spec (i / 8) (p / 8)).
  { rewrite lookup_app_l, lookup_take by lia. case_decide; [done|lia]. }
  rewrite lookup_app_r by lia. rewrite Ht. destruct (Nat.eqb_spec (i / 8) (p / 8)) as [->|Hne].
  - rewrite Nat.sub_diag. cbn [app lookup list_lookup].
    rewrite b2z_z2b, (eq_sym (Nat2Z.inj_mod p 8) : Z.of_nat p mod 8 = _), CreateMask8_ones by lia.
    change 256 with (2 ^ 8). rewrite Z.mod_pow2_bits_low; [done|]. lia.
  - rewrite lookup_app_r by (cbn [length]; lia). cbn [length].
    by rewrite lookup_repeat by lia.
Qed.

Lemma mask6_ok f fill bs p :
  length bs = 16%nat -> (p < 128)%nat ->
  exists x, bs !! (p / 8)%nat = Some x /\
    mask6 f fill bs (Z.of_nat p) =
    Ok (take (p / 8) bs ++ [z2b (f (b2z x) (CreateMask8 (Z.of_nat p mod 8)))] ++ repeat fill (15 - p / 8)).
Proof.
  intros Hl Hp. assert (Hp8 : (p / 8 < 16)%nat) by (apply Nat.Div0.div_lt_upper_bound; lia).
  destruct (lookup_lt_is_Some_2 bs (p / 8)) as [x Hx]; [lia|]. exists x. split; [done|].
  unfold mask6. by rewrite (eq_sym (Nat2Z.inj_div p 8) : Z.of_nat p / 8 = _), Nat2Z.id, Hx.
Qed.

Lemma same_byte p i : (i / 8 = p / 8)%nat -> ((p <=? i) = (p mod 8 <=? i mod 8))%nat.
Proof.
  intros H. pose proof (Nat.div_mod i 8). pose proof (Nat.div_mod p 8). zcases; lia.
Qed.

Lemma other_byte p i : (i / 8 <> p / 8)%nat -> ((p <=? i) = negb (i / 8 <? p / 8))%nat.
Proof.
  intros H. pose proof (Nat.div_mod i 8). pose proof (Nat.div_mod p 8).
  pose proof (Nat.mod_upper_bound i 8). pose proof (Nat.mod_upper_bound p 8).
  zcases; simpl; try done; lia.
Qed.

Lemma ones_testbit q i : (q < 8)%nat -> (i < 8)%nat ->
  Z.testbit (Z.ones (8 - Z.of_nat q)) (7 - Z.of_nat i) = (q <=? i)%nat.
Proof.
  intros Hq Hi. destruct (Nat.leb_spec q i).
  - apply Z.ones_spec_low. lia.
  - apply Z.ones_spec_high. lia.
Qed.

Lemma xff_testbit i : (i < 8)%nat -> Z.testbit (b2z xff) (7 - Z.of_nat i) = true.
Proof. intros Hi. do 8 (destruct i as [|i]; [done|]). lia. Qed.

(** For a prefix below 128 bits, the broadcast address of an IPv6 address keeps the bits
    of the prefix and sets the others, and the mask has the bits of the prefix; the network
    address keeps the bytes before the one where the prefix ends and clears the bytes after
    it, but in that byte it keeps the host's bits and clears the prefix's, since it applies
    the mask where its complement is meant.  From 128 bits on all three write past the
    address. *)
Theorem IPv6_prefixes m p :
  length (sin6_addr m) = 16%nat ->
  let P := Z.of_nat p in
  if (128 <=? p)%nat then
    broadcastAddress6 m P = Crash OutOfBounds /\ networkAddress6 m P = Crash OutOfBounds /\
    subnetMask6 P = Crash OutOfBounds
  else
    exists b n s,
      broadcastAddress6 m P = Ok (Some (with_addr6 m b)) /\
      networkAddress6 m P = Ok (Some (with_addr6 m n)) /\
      subnetMask6 P = Ok (Some (IPv6Address (mkIn6 AF_INET6 0 0 s 0))) /\
      forall i, (i < 128)%nat ->
        bit6 b i = (p <=? i)%nat || bit6 (sin6_addr m) i /\
        bit6 s i = (i <? p)%nat /\
        bit6 n i =
          if (i / 8 =? p / 8)%nat then (p <=? i)%nat && bit6 (sin6_addr m) i
          else (i <? p)%nat && bit6 (sin6_addr m) i.
Proof.
  intros Hl P. unfold broadcastAddress6, networkAddress6, subnetMask6.
  assert (HP8 : Z.to_nat (P / 8) = (p / 8)%nat) by (by rewrite (eq_sym (Nat2Z.inj_div p 8) : P / 8 = _), Nat2Z.id).
  destruct (Nat.leb_spec 128 p).
  { assert (16 <= p / 8)%nat by (apply Nat.div_le_lower_bound; lia).
    unfold mask6. rewrite HP8, lookup_ge_None_2 by lia. destruct (Nat.ltb_spec (p / 8) 16); [lia|done]. }
  assert (Hp8 : (p / 8 < 16)%nat) by (apply Nat.Div0.div_lt_upper_bound; lia).
  destruct (mask6_ok Z.lor xff (sin6_addr m) p Hl ltac:(done)) as (x & Hx & Hm1).
  destruct (mask6_ok Z.land x00 (sin6_addr m) p Hl ltac:(done)) as (x' & Hx' & Hm2).
  assert (x' = x) as -> by congruence. fold P in Hm1, Hm2. rewrite Hm1, Hm2. rewrite HP8. destruct (Nat.ltb_spec (p / 8) 16); [|lia].
  do 3 eexists. split_and!; [reflexivity..|]. intros i Hi.
  pose proof (Nat.mod_upper_bound i 8 ltac:(lia)). pose proof (Nat.mod_upper_bound p 8 ltac:(lia)).
  assert (Hbit : (i / 8 = p / 8)%nat -> bit6 (sin6_addr m) i = Z.testbit (b2z x) (7 - Z.of_nat (i mod 8))).
  { intros Heq. unfold bit6. by rewrite Heq, Hx. }
  split_and!.
  - rewrite bit6_masked by done. destruct (Nat.eqb_spec (i / 8) (p / 8)) as [Heq|Hne].
    + rewrite Heq, Nat.ltb_irrefl, Z.lor_spec, ones_testbit, (same_byte p i), Hbit by done. apply orb_comm.
    + rewrite (other_byte p i) by done. destruct (Nat.ltb_spec (i / 8) (p / 8)); [done|].
      by rewrite xff_testbit.
  - assert (Hrep : repeat xff (p / 8) = take (p / 8) (repeat xff 16)).
    { symmetry. apply take_repeat. lia. }
    assert (Hs := bit6_masked (repeat xff 16) p (fun _ m => Z.lnot m) x00 xff i
                    eq_refl ltac:(done) Hi (lookup_repeat xff 16 _ Hp8)).
    rewrite <- Hrep in Hs. fold P in Hs. unfold zeros. rewrite Hs, (Nat.ltb_antisym p i : (i <? p)%nat = _).
    destruct (Nat.eqb_spec (i / 8) (p / 8)) as [Heq|Hne].
    + by rewrite Heq, Nat.ltb_irrefl, Z.lnot_spec, ones_testbit, (same_byte p i) by lia.
    + rewrite (other_byte p i) by done. destruct (Nat.ltb_spec (i / 8) (p / 8)) as [Hlt|]; [|by rewrite Z.testbit_0_l].
      unfold bit6. rewrite lookup_repeat by lia.
      by rewrite xff_testbit.
  - rewrite bit6_masked by done. rewrite (Nat.ltb_antisym p i : (i <? p)%nat = _).
    destruct (Nat.eqb_spec (i / 8) (p / 8)) as [Heq|Hne].
    + rewrite Heq, Nat.ltb_irrefl, Z.land_spec, ones_testbit, (same_byte p i), Hbit by done. apply andb_comm.
    + rewrite (other_byte p i) by done. destruct (Nat.ltb_spec (i / 8) (p / 8)); [done|].
      by rewrite Z.testbit_0_l.
Qed.

Lemma IPv6_prefixes_witness :
  exists n, networkAddress6 (mkIn6 AF_INET6 0 0 (repeat xff 16) 0) 12 =
    Ok (Some (with_addr6 (mkIn6 AF_INET6 0 0 (repeat xff 16) 0) n)) /\ bit6 n 8 = false /\ bit6 n 12 = true.
Proof.
  destruct (IPv6_prefixes (mkIn6 AF_INET6 0 0 (repeat xff 16) 0) 12 eq_refl)
    as (b & n & s & _ & H1 & _ & H2).
  exists n. split; [exact H1|]. split.
  - destruct (H2 8%nat) as (_ & _ & ->); [lia|reflexivity].
  - destruct (H2 12%nat) as (_ & _ & ->); [lia|reflexivity].
Defined.

(** ** Counting the bits of a mask *)

(** The number of bits set among the [n] lowest. *)
Fixpoint popcount (n : nat) (v : Z) : Z :=
  match n with O => 0 | S n => v mod 2 + popcount n (v / 2) end.

Lemma popcount_0 n : popcount n 0 = 0.
Proof. induction n as [|n IH]; [done|]. cbn [popcount]. by rewrite Z.mod_0_l, Z.div_0_l. Qed.

Lemma land_double a b : Z.land (2 * a) (2 * b) = 2 * Z.land a b.
Proof.
  rewrite !(Z.mul_comm 2), <- !(Z.shiftl_mul_pow2 _ 1) by lia. symmetry. apply Z.shiftl_land.
Qed.

(** Clearing the lowest bit set: the step of the loop. *)
Lemma popcount_clear n v :
  0 < v < 2 ^ Z.of_nat n ->
  0 <= Z.land v (v - 1) < v /\ popcount n (Z.land v (v - 1)) = popcount n v - 1.
Proof.
  revert v. induction n as [|n IH]; intros v Hv; [simpl in Hv; lia|].
  rewrite Nat2Z.inj_succ, Z.pow_succ_r in Hv by lia. cbn [popcount].
  destruct (Z.even v) eqn:Hev.
  - apply Z.even_spec in Hev as [u ->]. destruct (IH u) as [IH1 IH2]; [lia|].
    assert (H : Z.land (2 * u) (2 * u - 1) = 2 * Z.land u (u - 1)).
    { replace (2 * u - 1) with (1 + 2 * (u - 1)) by lia. apply Z.bits_inj'. intros k Hk.
      destruct (Z.eq_dec k 0) as [->|].
      - rewrite Z.land_spec, !Z.testbit_even_0. done.
      - replace k with (Z.succ (k - 1)) by lia. rewrite Z.land_spec, !Z.testbit_even_succ by lia.
        rewrite (Z.add_comm 1), Z.testbit_odd_succ by lia. by rewrite Z.land_spec. }
    rewrite H. split; [lia|].
    rewrite !(Z.mul_comm 2), !Z.mod_mul, !Z.div_mul, IH2 by lia. lia.
  - rewrite <- Z.negb_odd, negb_false_iff in Hev. apply Z.odd_spec in Hev as [u ->].
    assert (H : Z.land (2 * u + 1) (2 * u + 1 - 1) = 2 * u).
    { replace (2 * u + 1 - 1) with (2 * u) by lia. apply Z.bits_inj'. intros k Hk.
      destruct (Z.eq_dec k 0) as [->|].
      - rewrite Z.land_spec, !Z.testbit_even_0. apply andb_false_r.
      - replace k with (Z.succ (k - 1)) by lia.
        rewrite Z.land_spec, Z.testbit_odd_succ, Z.testbit_even_succ by lia. apply andb_diag. }
    rewrite H. split; [lia|].
    replace ((2 * u + 1) mod 2) with 1 by zdiv. replace ((2 * u + 1) / 2) with u by zdiv.
    replace (2 * u / 2) with u by zdiv. replace ((2 * u) mod 2) with 0 by zdiv. lia.
Qed.

Lemma popcount_range n v : 0 <= popcount n v <= Z.of_nat n.
Proof.
  revert v. induction n as [|n IH]; intros v; [simpl; lia|]. cbn [popcount].
  specialize (IH (v / 2)). pose proof (Z.mod_pos_bound v 2). lia.
Qed.

Lemma popcount_pos n v : 0 < v < 2 ^ Z.of_nat n -> 0 < popcount n v.
Proof.
  intros Hv. destruct (popcount_clear n v Hv) as [_ H].
  pose proof (popcount_range n (Z.land v (v - 1))). lia.
Qed.

Lemma CountBytes_spec n fuel v r :
  0 <= v < 2 ^ Z.of_nat n -> popcount n v < Z.of_nat fuel ->
  CountBytes fuel v r = Ok (r + popcount n v).
Proof.
  revert v r. induction fuel as [|fuel IH]; intros v r Hv Hf.
  { pose proof (popcount_range n v). lia. }
  cbn [CountBytes]. destruct (Z.eqb_spec v 0) as [->|Hne]; [rewrite popcount_0; f_equal; lia|].
  destruct (popcount_clear n v ltac:(lia)) as [H1 H2].
  rewrite IH; [|lia|lia]. rewrite H2. f_equal. lia.
Qed.

(** The prefix lengths read back from the images of the masks. *)
Definition mask4_ok (host : byte_order) (p : nat) : bool :=
  match subnetMask4 host (Z.of_nat p) with
  | Ok (Some a) => bool_decide (prefix_len4 host (getAddr host a) = Ok (Z.of_nat p))
  | _ => false
  end.

Definition mask6_is_ok (host : byte_order) (p : nat) : bool :=
  match subnetMask6 (Z.of_nat p) with
  | Ok (Some a) => bool_decide (prefix_len6 (getAddr host a) = Ok (Z.of_nat p))
  | _ => false
  end.

Lemma mask4_checked host : forallb (mask4_ok host) (seq 2 31) = true.
Proof. destruct host; vm_compute; reflexivity. Qed.

Lemma mask6_checked host : forallb (mask6_is_ok host) (seq 0 128) = true.
Proof. destruct host; vm_compute; reflexivity. Qed.

Lemma mask4_prefix host p : (2 <= p <= 32)%nat ->
  exists a, subnetMask4 host (Z.of_nat p) = Ok (Some a) /\
    prefix_len4 host (getAddr host a) = Ok (Z.of_nat p).
Proof.
  intros Hp. pose proof (mask4_checked host) as H. rewrite forallb_forall in H.
  specialize (H p (proj2 (in_seq 31 2 p) ltac:(lia))). unfold mask4_ok in H.
  destruct (subnetMask4 host (Z.of_nat p)) as [[a|]| |]; [|done..].
  exists a. split; [done|]. by apply bool_decide_eq_true in H.
Qed.

Lemma mask6_prefix host p : (p < 128)%nat ->
  exists a, subnetMask6 (Z.of_nat p) = Ok (Some a) /\ prefix_len6 (getAddr host a) = Ok (Z.of_nat p).
Proof.
  intros Hp. pose proof (mask6_checked host) as H. rewrite forallb_forall in H.
  specialize (H p (proj2 (in_seq 128 0 p) ltac:(lia))). unfold mask6_is_ok in H.
  destruct (subnetMask6 (Z.of_nat p)) as [[a|]| |]; [|done..].
  exists a. split; [done|]. by apply bool_decide_eq_true in H.
Qed.

(** [CountBytes] returns the number of bits set of any 32-bit integer, within 33 turns of
    its loop; and [GetInterfaceAddresses] reads from a netmask the length of the prefix
    [subnetMask] made it of, for both families. *)
Theorem prefix_length_of_mask host v p :
  unsigned_range 32 v ->
  CountBytes 33 v 0 = Ok (popcount 32 v) /\
  ((2 <= p <= 32)%nat -> exists a, subnetMask4 host (Z.of_nat p) = Ok (Some a) /\
     prefix_len4 host (getAddr host a) = Ok (Z.of_nat p)) /\
  ((p < 128)%nat -> exists a, subnetMask6 (Z.of_nat p) = Ok (Some a) /\
     prefix_len6 (getAddr host a) = Ok (Z.of_nat p)).
Proof.
  intros Hv. split_and!; [|apply mask4_prefix|apply mask6_prefix].
  rewrite (CountBytes_spec 32); [done|done|]. pose proof (popcount_range 32 v). lia.
Qed.

Lemma prefix_length_of_mask_witness :
  exists a, subnetMask4 LittleEndian 24 = Ok (Some a) /\
    prefix_len4 LittleEndian (getAddr LittleEndian a) = Ok 24.
Proof. apply (prefix_length_of_mask LittleEndian 0 24); [by vm_compute|lia]. Defined.

(** ** The order of addresses *)

Lemma memcmp_lex a b n :
  n = (length a `min` length b)%nat ->
  (let r := memcmp (take n a) (take n b) in
   if r <? 0 then true else if 0 <? r then false else (length a <? length b)%nat) = lex a b.
Proof.
  cbv zeta. revert b n. induction a as [|x a IH]; intros [|y b] n Hn; simpl in Hn; subst n; try done.
  cbn [take memcmp lex length].
  destruct (Z.ltb_spec (b2z x) (b2z y)); [done|]. destruct (Z.ltb_spec (b2z y) (b2z x)); [done|].
  rewrite <- (IH b _ eq_refl). done.
Qed.

Lemma memcmp_eq a b : length a = length b -> (memcmp a b =? 0) = bool_decide (a = b).
Proof.
  revert b. induction a as [|x a IH]; intros [|y b] Hl; try done. simpl in Hl. cbn [memcmp].
  destruct (Z.ltb_spec (b2z x) (b2z y)).
  { rewrite bool_decide_false; [done|]. intros [= -> ->]. lia. }
  destruct (Z.ltb_spec (b2z y) (b2z x)).
  { rewrite bool_decide_false; [done|]. intros [= -> ->]. lia. }
  assert (x = y) as -> by (apply b2z_inj; lia). rewrite IH by lia.
  apply bool_decide_ext. split; [by intros ->|by intros [= ->]].
Qed.

(** An address whose length is within the structure. *)
Definition addr_wf (host : byte_order) (a : Address) : Prop :=
  0 <= getAddrLen a <= Z.of_nat (length (getAddr host a)).

(** What two addresses are compared by. *)
Definition raw (host : byte_order) (a : Address) : str := prefix host a (getAddrLen a).

Lemma length_raw host a : addr_wf host a -> Z.of_nat (length (raw host a)) = getAddrLen a.
Proof. intros [H1 H2]. unfold raw, prefix. rewrite length_take. lia. Qed.

Lemma prefix_raw host a n :
  addr_wf host a -> 0 <= n <= getAddrLen a -> prefix host a n = take (Z.to_nat n) (raw host a).
Proof. intros Ha Hn. unfold raw, prefix. rewrite take_take. f_equal. lia. Qed.

Lemma lt_lex host a b : addr_wf host a -> addr_wf host b -> lt host a b = lex (raw host a) (raw host b).
Proof.
  intros Ha Hb. pose proof (length_raw host a Ha) as Hla. pose proof (length_raw host b Hb) as Hlb.
  unfold lt. rewrite !prefix_raw by (done || lia).
  rewrite <- (memcmp_lex (raw host a) (raw host b) (Z.to_nat (Z.min (getAddrLen a) (getAddrLen b))))
    by lia. cbv zeta. zcases; try done; lia.
Qed.

Lemma eq_raw host a b :
  addr_wf host a -> addr_wf host b -> eq host a b = bool_decide (raw host a = raw host b).
Proof.
  intros Ha Hb. pose proof (length_raw host a Ha) as Hla. pose proof (length_raw host b Hb) as Hlb.
  unfold eq. destruct (Z.eqb_spec (getAddrLen a) (getAddrLen b)) as [He|He].
  - rewrite !prefix_raw by (done || lia). rewrite memcmp_eq by (rewrite !length_take; lia).
    rewrite !take_ge by lia. done.
  - rewrite bool_decide_false; [done|]. intros Heq. rewrite Heq in Hla. lia.
Qed.

(** The comparison of addresses is a strict total order on their bytes, lexicographic
    with a shorter address before its extensions, and equality is its equivalence: so
    addresses can be the keys of an ordered container. *)
Theorem address_order host a b c :
  addr_wf host a -> addr_wf host b -> addr_wf host c ->
  lt host a b = lex (raw host a) (raw host b) /\
  lt host a a = false /\
  (lt host a b = true -> lt host b c = true -> lt host a c = true) /\
  (eq host a b = true <-> raw host a = raw host b) /\
  (eq host a b = negb (lt host a b) && negb (lt host b a)) /\
  (lt host a b = true -> lt host b a = false).
Proof.
  intros Ha Hb Hc. rewrite !lt_lex, !eq_raw by done. split_and!; try done.
  - apply lex_irrefl.
  - apply lex_trans.
  - apply bool_decide_eq_true.
  - pose proof (lex_total (raw host a) (raw host b)) as Ht.
    destruct (lex (raw host a) (raw host b)) eqn:E1.
    + rewrite bool_decide_false; [done|]. intros He. rewrite He, lex_irrefl in E1. done.
    + destruct (lex (raw host b) (raw host a)) eqn:E2.
      * rewrite bool_decide_false; [done|]. intros He. rewrite He, lex_irrefl in E2. done.
      * destruct Ht as [?|[->|?]]; [done|by rewrite bool_decide_true|done].
  - intros H. destruct (lex (raw host b) (raw host a)) eqn:E; [|done].
    pose proof (lex_trans _ _ _ H E) as H'. by rewrite lex_irrefl in H'.
Qed.

Lemma address_order_witness :
  lt LittleEndian (new_IPv4 LittleEndian 1 80) (new_IPv4 LittleEndian 2 80) = true /\
  lt LittleEndian (new_IPv4 LittleEndian 2 80) (new_IPv4 LittleEndian 1 80) = false.
Proof.
  split; [reflexivity|].
  apply (address_order LittleEndian (new_IPv4 LittleEndian 1 80) (new_IPv4 LittleEndian 2 80)
           (new_IPv4 LittleEndian 2 80)); [split; vm_compute; discriminate..|reflexivity].
Defined.

(** ** The text of IPv6 addresses *)

Lemma insert6_used host i prev addr :
  insert6_loop host (S i) prev true addr =
  (concat ((fun a => lit ":" ++ print_uint 16 (byteswapOnLittleEndian host 2 a)) <$> addr), true).
Proof.
  revert i prev. induction addr as [|a addr IH]; intros i prev; [done|].
  cbn [insert6_loop]. rewrite andb_false_r. cbn [negb andb orb]. rewrite andb_false_r.
  rewrite IH. done.
Qed.

Lemma last_default {A} (b d d' : A) l : List.last (b :: l) d = List.last (b :: l) d'.
Proof. revert b. induction l as [|c l IH]; intros b; [done|]. apply (IH c). Qed.

Lemma insert6_nonzero host i prev l addr :
  Forall (fun a => a <> 0) l -> prev <> 0 ->
  insert6_loop host (S i) prev false (l ++ addr) =
  let '(t, u) := insert6_loop host (S (i + length l)) (List.last l prev) false addr in
  (concat ((fun a => lit ":" ++ print_uint 16 (byteswapOnLittleEndian host 2 a)) <$> l) ++ t, u).
Proof.
  intros Hl. revert i prev. induction Hl as [|a l Ha Hl IH]; intros i prev Hp.
  { cbn [app length List.last fmap list_fmap concat]. rewrite Nat.add_0_r.
    by destruct (insert6_loop host (S i) prev false addr). }
  cbn [app insert6_loop]. destruct (Z.eqb_spec a 0); [done|]. destruct (Z.eqb_spec prev 0); [done|].
  cbn [Nat.eqb negb andb orb]. rewrite (IH (S i) a Ha). cbn [length]. rewrite Nat.add_succ_r.
  assert (Hlast : List.last (a :: l) prev = List.last l a).
  { destruct l as [|b l]; [done|]. apply (last_default b). }
  rewrite Hlast. cbn [Nat.add]. destruct (insert6_loop host (S (S (i + length l))) (List.last l a) false addr).
  cbn [fmap list_fmap concat]. by rewrite <- !app_assoc.
Qed.

Lemma insert6_zeros host k i prev post :
  insert6_loop host i prev false (repeat 0 (S k) ++ post) = insert6_loop host (i + S k) 0 false post.
Proof.
  revert i prev. induction k as [|k IH]; intros i prev; [simpl; by rewrite Nat.add_1_r|].
  change (repeat 0 (S (S k)) ++ post) with (0 :: repeat 0 (S k) ++ post).
  cbn [insert6_loop]. cbn [Z.eqb negb andb]. rewrite IH. f_equal. lia.
Qed.

(** The groups, in hexadecimal, between colons. *)
Definition join6 (host : byte_order) (l : list Z) : str :=
  match l with
  | [] => []
  | a :: l =>
      print_uint 16 (byteswapOnLittleEndian host 2 a) ++
      concat ((fun a => lit ":" ++ print_uint 16 (byteswapOnLittleEndian host 2 a)) <$> l)
  end.

(** The loop on a first part without zeros. *)
Lemma insert6_prefix host l addr :
  Forall (fun a => a <> 0) l -> l <> [] ->
  insert6_loop host 0 0 false (l ++ addr) =
  let '(t, u) := insert6_loop host (length l) (List.last l 0) false addr in (join6 host l ++ t, u).
Proof.
  intros Hl Hne. destruct Hl as [|a l Ha Hl]; [done|]. cbn [app insert6_loop].
  destruct (Z.eqb_spec a 0); [done|]. cbn [Nat.eqb negb andb orb].
  rewrite insert6_nonzero by done. cbn [length join6 Nat.add].
  assert (Hlast : List.last l a = List.last (a :: l) 0).
  { destruct l as [|b l]; [done|]. apply (last_default b). }
  rewrite Hlast. destruct (insert6_loop host (S (length l)) (List.last (a :: l) 0) false addr).
  cbn [app]. by rewrite <- app_assoc.
Qed.

(** What follows the first run of zeros. *)
Lemma insert6_after host i post :
  match post with [] => True | p :: _ => p <> 0 end ->
  insert6_loop host (S i) 0 false post =
  (if bool_decide (post = []) then [] else lit "::" ++ join6 host post,
   negb (bool_decide (post = []))).
Proof.
  destruct post as [|p post]; intros Hp; [done|]. cbn [insert6_loop].
  destruct (Z.eqb_spec p 0); [done|]. cbn [Nat.eqb Z.eqb negb andb orb].
  rewrite insert6_used. done.
Qed.

(** An IPv6 address is printed in the compressed form: the groups in hexadecimal between
    colons, in network order, the first run of zero groups, and no other, replaced by a
    double colon. *)
Theorem IPv6_text host g pre k post :
  length g = 8%nat -> Forall (fun a => a <> 0) pre ->
  match post with [] => True | p :: _ => p <> 0 end ->
  (g = pre -> insert6_body host g = join6 host g) /\
  (g = pre ++ repeat 0 (S k) ++ post ->
     insert6_body host g = join6 host pre ++ lit "::" ++ join6 host post).
Proof.
  intros Hlen Hpre Hpost. unfold insert6_body. split; intros Hg.
  - subst g. assert (Hne : pre <> []) by by intros ->.
    pose proof (insert6_prefix host pre [] Hpre Hne) as H. rewrite app_nil_r in H. rewrite H.
    cbn [insert6_loop negb andb]. rewrite app_nil_r.
    assert (H7 : nth 7 pre 0 <> 0).
    { rewrite Forall_forall in Hpre. apply Hpre, list_elem_of_In, nth_In. lia. }
    destruct (Z.eqb_spec (nth 7 pre 0) 0); [done|]. apply app_nil_r.
  - assert (Hloop : insert6_loop host 0 0 false g =
      (join6 host pre ++ (if bool_decide (post = []) then [] else lit "::" ++ join6 host post),
       negb (bool_decide (post = [])))).
    { subst g. destruct pre as [|a pre].
      - cbn [app]. rewrite insert6_zeros. cbn [Nat.add]. by apply insert6_after.
      - rewrite insert6_prefix by done. rewrite insert6_zeros.
        cbn [length Nat.add]. by rewrite insert6_after. }
    rewrite Hloop. case_bool_decide as Hp; cbn [negb andb]; [|by rewrite app_nil_r].
    subst post. rewrite app_nil_r in Hg.
    assert (H7 : nth 7 g 0 = 0).
    { subst g. rewrite length_app, repeat_length in Hlen. rewrite app_nth2 by lia.
      destruct (nth_in_or_default (7 - length pre) (repeat 0 (S k)) 0) as [Hin|Hin]; [|done].
      by apply repeat_spec in Hin. }
    rewrite H7, app_nil_r. by rewrite app_nil_r.
Qed.

Lemma IPv6_text_witness :
  insert6_body BigEndian [0x2001; 0xdb8; 0; 0; 0; 0; 0; 1] = lit "2001:db8::1".
Proof.
  assert (H := proj2 (IPv6_text BigEndian [0x2001; 0xdb8; 0; 0; 0; 0; 0; 1] [0x2001; 0xdb8] 4 [1]
                 eq_refl ltac:(repeat constructor; discriminate) ltac:(discriminate)) eq_refl).
  rewrite H. reflexivity.
Defined.

(** ** The memory image *)

Lemma store_n2h host n x : swappable n ->
  store host n (byteswapOnLittleEndian host n x) = rev (le_bytes n x).
Proof. intros Hn. destruct host; [|done]. by apply le_bytes_byteswap. Qed.

Lemma n2h_inv host n x : swappable n -> unsigned_range (8 * Z.of_nat n) x ->
  byteswapOnLittleEndian host n (byteswapOnLittleEndian host n x) = x.
Proof. intros Hn Hx. destruct host; [|done]. by apply byteswap_involutive. Qed.

Lemma n2h_range host n x : swappable n -> unsigned_range (8 * Z.of_nat n) x ->
  unsigned_range (8 * Z.of_nat n) (byteswapOnLittleEndian host n x).
Proof. intros Hn Hx. destruct host; [|done]. by apply byteswap_range. Qed.

Lemma load_store_id host n v : 0 <= v < 256 ^ Z.of_nat n -> load host (store host n v) = v.
Proof. intros Hv. rewrite load_store. by apply Z.mod_small. Qed.

Lemma slice_parts {A} (l1 l2 l3 : list A) n m :
  length l1 = n -> length l2 = m -> slice n m (l1 ++ l2 ++ l3) = l2.
Proof.
  intros <- <-. unfold slice. by rewrite drop_app_length, take_app_length.
Qed.

(** A structure with its fields in range reads back from its image. *)
Lemma of_bytes_bytes_in host m :
  0 <= sin_family m < 2 ^ 16 -> 0 <= sin_port m < 2 ^ 16 -> 0 <= sin_addr m < 2 ^ 32 ->
  length (sin_zero m) = 8%nat ->
  of_bytes_in host (bytes_in host m) = m /\ length (bytes_in host m) = 16%nat /\
  load host (take 2 (bytes_in host m)) = sin_family m.
Proof.
  intros Hf Hp Ha Hz. unfold bytes_in, of_bytes_in.
  set (f := store host 2 (sin_family m)). set (p := store host 2 (sin_port m)).
  set (a := store host 4 (sin_addr m)).
  assert (Hlf : length f = 2%nat) by apply length_store.
  assert (Hlp : length p = 2%nat) by apply length_store.
  assert (Hla : length a = 4%nat) by apply length_store.
  assert (H0 : slice 0 2 (f ++ p ++ a ++ sin_zero m) = f) by (apply (slice_parts [] f); done).
  assert (H2 : slice 2 2 (f ++ p ++ a ++ sin_zero m) = p) by (apply (slice_parts f p); done).
  assert (H4 : slice 4 4 (f ++ p ++ a ++ sin_zero m) = a).
  { rewrite (app_assoc f p). apply (slice_parts (f ++ p) a); [by rewrite length_app, Hlf, Hlp|done]. }
  assert (H8 : slice 8 8 (f ++ p ++ a ++ sin_zero m) = sin_zero m).
  { rewrite (app_assoc p a), (app_assoc f). rewrite <- (app_nil_r (sin_zero m)) at 1.
    apply slice_parts; [by rewrite !length_app, Hlf, Hlp, Hla|done]. }
  rewrite H0, H2, H4, H8. change (take 2 (f ++ p ++ a ++ sin_zero m)) with (slice 0 2 (f ++ p ++ a ++ sin_zero m)).
  rewrite H0. unfold f, p, a. rewrite !load_store_id by done.
  split_and!; [by destruct m|by rewrite !length_app, !length_store, Hz|done].
Qed.

(** An IPv4 address built from a number and a port holds them in network byte order in
    memory, whatever the host; [getPort] and the dotted text give them back, [setPort]
    changes the port alone, and [Create] on the image of the address rebuilds it. *)
Theorem IPv4_network_order host address port port' :
  unsigned_range 32 address -> unsigned_range 16 port -> unsigned_range 16 port' ->
  let a := new_IPv4 host address port in
  let part sh := print_dec (address / 2 ^ sh mod 256) in
  slice 2 6 (getAddr host a) = rev (le_bytes 2 port) ++ rev (le_bytes 4 address) /\
  getFamily host a = AF_INET /\
  getPort host a = port /\ setPort host port' a = new_IPv4 host address port' /\
  Create host (Some (getAddr host a)) = Ok (Some a) /\
  toString host a = part 24 ++ lit "." ++ part 16 ++ lit "." ++ part 8 ++ lit "." ++ part 0 ++
                    lit ":" ++ print_dec port.
Proof.
  intros Ha Hp Hp' a part. unfold a, new_IPv4. cbn [getAddr getPort setPort toString insert].
  set (m := mkIn AF_INET _ _ _).
  assert (S2 : swappable 2) by (by left). assert (S4 : swappable 4) by (right; by left).
  pose proof (n2h_range host 2 port S2 Hp) as Rp. pose proof (n2h_range host 4 address S4 Ha) as Ra.
  destruct (of_bytes_bytes_in host m) as (Hm & Hlen & Hfam); [done|exact Rp|exact Ra|done|].
  split_and!.
  - unfold bytes_in, m. cbn [sin_family sin_port sin_addr sin_zero].
    rewrite (app_assoc (store host 2 (byteswapOnLittleEndian host 2 port))), !store_n2h by done.
    apply slice_parts; [apply length_store|].
    by rewrite length_app, !length_rev, !length_le_bytes.
  - unfold getFamily. exact Hfam.
  - apply n2h_inv; [done|exact Hp].
  - done.
  - unfold Create. rewrite Hfam, Hlen, Hm. done.
  - unfold insert4, part. cbn [sin_addr sin_port m].
    assert (Hbyte : forall sh, 0 <= sh -> Z.land (Z.shiftr address sh) 255 = address / 2 ^ sh mod 256).
    { intros sh Hsh. change 255 with (Z.ones 8). by rewrite Z.land_ones, Z.shiftr_div_pow2 by done. }
    rewrite (n2h_inv host 4), (n2h_inv host 2) by done. by rewrite !Hbyte by lia.
Qed.

Lemma IPv4_network_order_witness :
  toString LittleEndian (new_IPv4 LittleEndian 0x7F000001 8020) = lit "127.0.0.1:8020".
Proof.
  destruct (IPv4_network_order LittleEndian 0x7F000001 8020 80) as (_ & _ & _ & _ & _ & H);
    [by vm_compute..|]. exact H.
Defined.

(** ** Host and service *)

Lemma lookup_past {A} (l : list A) c r : (l ++ c :: r) !! S (length l) = head r.
Proof. induction l as [|x l IH]; [by destruct r|]. apply IH. Qed.

Lemma split_bracket v6 r :
  "]"%byte ∉ v6 -> v6 <> [] ->
  split_host ("["%byte :: v6 ++ "]"%byte :: r) =
  (v6, if bool_decide (head r = Some ":"%byte) then Some (tail r) else None).
Proof.
  intros Hv Hne. unfold split_host.
  rewrite (bool_decide_true ("["%byte = "["%byte)), memchr_mid by done.
  rewrite take_app_length, lookup_past, (bool_decide_false (v6 = [])) by done.
  cbv beta iota. rewrite (bool_decide_false (v6 = [])) by done.
  f_equal. case_bool_decide; [|done]. f_equal. destruct r as [|c r]; [done|].
  change ("]"%byte :: c :: r) with (["]"%byte] ++ c :: r). rewrite app_assoc. cbn [tail].
  replace (S (length v6)) with (length (v6 ++ ["]"%byte])) by (rewrite length_app; simpl; lia).
  apply drop_past.
Qed.

Lemma split_plain h :
  head h <> Some "["%byte ->
  split_host h =
  match memchr ":" h with
  | Some p =>
      match memchr ":" (drop (S p) h) with
      | None => (if bool_decide (take p h = []) then h else take p h, Some (drop (S p) h))
      | Some _ => (h, Some (drop p h))
      end
  | None => (h, None)
  end.
Proof.
  intros Hb. unfold split_host. destruct h as [|c h]; [done|].
  rewrite bool_decide_false by by intros ->. rewrite (bool_decide_true ([] = [])) by done.
  destruct (memchr ":" (c :: h)) as [p|]; [|done].
  by destruct (memchr ":" (drop (S p) (c :: h))).
Qed.

(** [Lookup] splits [[addr]:port], [[addr]], [name:port] and [name] into the node and
    the service; but on a host with several colons and no brackets, such as a bare IPv6
    address, the service is not reset, so the look-up is made with the text from the first
    colon on as service. *)
Theorem split_host_forms v6 name port rest :
  "]"%byte ∉ v6 -> v6 <> [] -> ":"%byte ∉ name -> name <> [] -> head name <> Some "["%byte ->
  ":"%byte ∉ port -> ":"%byte ∈ rest ->
  split_host (lit "[" ++ v6 ++ lit "]:" ++ port) = (v6, Some port) /\
  split_host (lit "[" ++ v6 ++ lit "]") = (v6, None) /\
  split_host (name ++ lit ":" ++ port) = (name, Some port) /\
  split_host name = (name, None) /\
  split_host (name ++ lit ":" ++ rest) = (name ++ lit ":" ++ rest, Some (lit ":" ++ rest)).
Proof.
  intros Hv Hv0 Hn Hn0 Hb Hp Hr.
  assert (Hh : forall r, head (name ++ r) <> Some "["%byte) by by destruct name.
  split_and!.
  - apply (split_bracket v6 (":"%byte :: port)); done.
  - apply (split_bracket v6 []); done.
  - rewrite split_plain by apply Hh. change (lit ":" ++ port) with (":"%byte :: port).
    by rewrite memchr_mid, drop_past, memchr_none, take_app_length, bool_decide_false by done.
  - by rewrite split_plain, memchr_none by done.
  - rewrite split_plain by apply Hh. change (lit ":" ++ rest) with (":"%byte :: rest).
    rewrite memchr_mid, drop_past by done. destruct (memchr_in _ _ Hr) as [p ->].
    by rewrite drop_app_length.
Qed.

Lemma split_host_forms_witness :
  split_host (lit "[::1]:80") = (lit "::1", Some (lit "80")) /\
  split_host (lit "fe80::1") = (lit "fe80::1", Some (lit "::1")).
Proof.
  destruct (split_host_forms (lit "::1") (lit "fe80") (lit "80") (lit ":1")) as (H1 & _ & _ & _ & H2);
    [first [discriminate|by apply (bool_decide_unpack _); vm_compute]..|].
  split; [exact H1|exact H2].
Defined.
