(* ===== verification/FdManager.v ===== *)
(** * File descriptors: src/src/hook/FdManager.cc

    The table of descriptor contexts, over an interface for the system calls the
    original functions make.  The table's vector holds the only references the
    operations of this file update, so a context is a value stored in its slot. *)

From S2P Require Import Prelude.
#[local] Set Default Goal Selector "!".

Definition F_GETFL : Z := 3.
Definition F_SETFL : Z := 4.
Definition O_NONBLOCK : Z := 2048.
Definition SO_RCVTIMEO : Z := 20.
Definition SO_SNDTIMEO : Z := 21.

(** The system below the hooks: [fstat] (whether the descriptor is a socket, or an
    error), [fcntl_f] with its optional third argument, [ioctl_f] with the value its
    pointer designates, [close_f]; each returns its result and the new state. *)
Class Kernel (K : Type) := {
  k_fstat : K -> Z -> option bool;
  k_fcntl : Z -> Z -> option Z -> K -> Z * K;
  k_ioctl : Z -> Z -> Z -> K -> Z * K;
  k_close : Z -> K -> Z * K
}.

Record FdCtx := mkFdCtx {
  m_isInit : bool;
  m_isSocket : bool;
  m_sysNonblock : bool;
  m_userNonblock : bool;
  m_isClosed : bool;
  m_fd : Z;
  m_recvTimeout : Z;
  m_sendTimeout : Z
}.

(** The state the hooks share: the manager's vector, the system and [errno]. *)
Record World (K : Type) := mkWorld {
  m_datas : list (option FdCtx);
  kern : K;
  errno : Z
}.
Arguments mkWorld {K}.
Arguments m_datas {K}.
Arguments kern {K}.
Arguments errno {K}.

Section FdManager.
Context {K : Type} `{Kernel K}.

Definition set_datas (l : list (option FdCtx)) (w : World K) : World K := mkWorld l (kern w) (errno w).
Definition set_kern (k : K) (w : World K) : World K := mkWorld (m_datas w) k (errno w).
Definition set_errno (e : Z) (w : World K) : World K := mkWorld (m_datas w) (kern w) e.

(** A system call: a result and the state after it. *)
Definition sys (call : K -> Z * K) : M (World K) Z :=
  fun w => let '(r, k) := call (kern w) in (Ok r, set_kern k w).

Definition fcntl_f (fd cmd : Z) (arg : option Z) : M (World K) Z := sys (k_fcntl fd cmd arg).

Definition isInit (c : FdCtx) : bool := m_isInit c.
Definition isSocket (c : FdCtx) : bool := m_isSocket c.
Definition isClose (c : FdCtx) : bool := m_isClosed c.
Definition getUserNonblock (c : FdCtx) : bool := m_userNonblock c.
Definition getSysNonblock (c : FdCtx) : bool := m_sysNonblock c.

Definition setUserNonblock (v : bool) (c : FdCtx) : FdCtx :=
  mkFdCtx (m_isInit c) (m_isSocket c) (m_sysNonblock c) v (m_isClosed c) (m_fd c)
    (m_recvTimeout c) (m_sendTimeout c).

Definition setSysNonblock (v : bool) (c : FdCtx) : FdCtx :=
  mkFdCtx (m_isInit c) (m_isSocket c) v (m_userNonblock c) (m_isClosed c) (m_fd c)
    (m_recvTimeout c) (m_sendTimeout c).

Definition setTimeout (type v : Z) (c : FdCtx) : FdCtx :=
  if type =? SO_RCVTIMEO
  then mkFdCtx (m_isInit c) (m_isSocket c) (m_sysNonblock c) (m_userNonblock c) (m_isClosed c)
         (m_fd c) v (m_sendTimeout c)
  else mkFdCtx (m_isInit c) (m_isSocket c) (m_sysNonblock c) (m_userNonblock c) (m_isClosed c)
         (m_fd c) (m_recvTimeout c) v.

Definition getTimeout (type : Z) (c : FdCtx) : Z :=
  if type =? SO_RCVTIMEO then m_recvTimeout c else m_sendTimeout c.

(** [-1] as a [uint64_t]. *)
Definition no_timeout : Z := 2 ^ 64 - 1.

Definition init (c : FdCtx) : M (World K) FdCtx :=
  if m_isInit c then mret c else
  w ← get;
  let '(isInit, isSocket) :=
    match k_fstat (kern w) (m_fd c) with None => (false, false) | Some s => (true, s) end in
  (if (isSocket : bool) then
     flags ← fcntl_f (m_fd c) F_GETFL (Some 0);
     if Z.land flags O_NONBLOCK =? 0
     then fcntl_f (m_fd c) F_SETFL (Some (Z.lor flags O_NONBLOCK)) ;; mret tt
     else mret tt
   else mret tt) ;;
  mret (mkFdCtx isInit isSocket isSocket false false (m_fd c) no_timeout no_timeout).

Definition new_FdCtx (fd : Z) : M (World K) FdCtx :=
  init (mkFdCtx false false false false false fd no_timeout no_timeout).

Definition resize (n : nat) (l : list (option FdCtx)) : list (option FdCtx) :=
  take n l ++ repeat None (n - length l).

Definition new_FdManager (k : K) : World K := mkWorld (resize 64 []) k 0.

(** [m_datas[fd]] as an access that may be out of bounds, and as a target. *)
Definition slot (fd : Z) : M (World K) (option FdCtx) :=
  w ← get;
  if fd <? 0 then crashed OutOfBounds
  else match m_datas w !! Z.to_nat fd with Some c => mret c | None => crashed OutOfBounds end.

Definition set_slot (fd : Z) (c : option FdCtx) : M (World K) unit :=
  slot fd ;; modify (fun w => set_datas (<[Z.to_nat fd := c]> (m_datas w)) w).

Definition size : M (World K) Z := gets (fun w => Z.of_nat (length (m_datas w))).

Definition FdManager_get (fd : Z) (autoCreate : bool) : M (World K) (option FdCtx) :=
  if fd =? -1 then mret None else
  let create :=
    ctx ← new_FdCtx fd;
    n ← size;
    when (n <=? fd) (modify (fun w => set_datas (resize (Z.to_nat (3 * fd / 2)) (m_datas w)) w)) ;;
    set_slot fd (Some ctx) ;;
    mret (Some ctx) in
  n ← size;
  if n <=? fd then
    if negb autoCreate then mret None else create
  else
    c ← slot fd;
    if bool_decide (c <> None) || negb autoCreate then mret c else create.

Definition del (fd : Z) : M (World K) unit :=
  n ← size;
  if n <=? fd then mret tt else set_slot fd None.

(** A setter called through the pointer [get] returned. *)
Definition update_ctx (fd : Z) (f : FdCtx -> FdCtx) : M (World K) unit :=
  c ← slot fd;
  match c with Some c => set_slot fd (Some (f c)) | None => crashed NullDeref end.
End FdManager.

#[export] Instance FdCtx_eq_dec : EqDecision FdCtx.
Proof. solve_decision. Defined.
