(* ===== verification/Hook.v ===== *)
(** * Hooked system calls: src/src/hook/hook.cc

    Each hooked function as a transformer of the shared state.  What happens while a
    fiber waits is the scheduler's: a call that may wait takes the outcomes of the
    calls it makes (the answers of the original function, of [addEvent], whether the
    timer ran during a wait) as an environment, and returns, with its result, the
    sequence of what it did. *)

From S2P Require Import Prelude FdManager.
#[local] Set Default Goal Selector "!".

Definition EINTR : Z := 4.
Definition EBADF : Z := 9.
Definition EAGAIN : Z := 11.
Definition ETIMEDOUT : Z := 110.
Definition EINPROGRESS : Z := 115.
Definition SOL_SOCKET : Z := 1.
Definition FIONBIO : Z := 0x5421.
Definition READ : Z := 1.
Definition WRITE : Z := 4.

(** What a hooked function asks of the I/O manager and of the system. *)
Inductive action :=
| Call
| AddTimer (ms : Z)
| AddEvent (event : Z)
| Yield
| CancelTimer
| CancelAll (fd : Z).

(** The outcomes a call of [do_io] meets: the return value and [errno] of the [k]-th
    call of the original function, of the [k]-th [addEvent], and whether the timer of
    the [k]-th wait ran before the fiber was resumed. *)
Record env := mkEnv {
  fun_ret : nat -> Z * Z;
  add_ret : nat -> Z * Z;
  expired : nat -> bool
}.

Section Hook.
Context {K : Type} `{Kernel K}.

Definition sys_errno (ret : Z * Z) : M (World K) Z :=
  modify (fun w => if fst ret =? -1 then set_errno (snd ret) w else w) ;; mret (fst ret).

(** The loop from [retry]: one turn per call of the original function; [calls] and
    [waits] count those made, [to] is the timeout. *)
Fixpoint io_loop (fuel : nat) (e : env) (event to : Z) (calls waits : nat) (log : list action)
    : M (World K) (Z * list action) :=
  match fuel with
  | O => crashed OutOfFuel
  | S fuel =>
      n ← sys_errno (fun_ret e calls);
      let log := log ++ [Call] in
      w ← get;
      if (n =? -1) && (errno w =? EINTR) then io_loop fuel e event to (S calls) waits log
      else if (n =? -1) && (errno w =? EAGAIN) then
        let timer := negb (to =? no_timeout) in
        let log := log ++ (if timer then [AddTimer to] else []) ++ [AddEvent event] in
        rt ← sys_errno (add_ret e waits);
        let cancel := if timer then [CancelTimer] else [] in
        if negb (rt =? 0) then mret (-1, log ++ cancel)
        else
          let log := log ++ [Yield] ++ cancel in
          let cancelled := if timer && expired e waits then ETIMEDOUT else 0 in
          if negb (cancelled =? 0) then
            modify (set_errno cancelled) ;; mret (-1, log)
          else io_loop fuel e event to (S calls) (S waits) log
      else mret (n, log)
  end.

Definition do_io (hookEnable : bool) (fuel : nat) (e : env) (fd event timeoutSo : Z)
    : M (World K) (Z * list action) :=
  let original := n ← sys_errno (fun_ret e 0%nat); mret (n, [Call]) in
  if negb hookEnable then original else
  ctx ← FdManager_get fd false;
  match ctx with
  | None => original
  | Some ctx =>
      if isClose ctx then modify (set_errno EBADF) ;; mret (-1, [])
      else if negb (isSocket ctx) || getUserNonblock ctx then original
      else io_loop fuel e event (getTimeout timeoutSo ctx) 0 0 []
  end.

(** The readers and the writers. *)
Definition read (hookEnable : bool) (fuel : nat) (e : env) (fd : Z) : M (World K) (Z * list action) :=
  do_io hookEnable fuel e fd READ SO_RCVTIMEO.
Definition readv := read.
Definition recv := read.
Definition recvfrom := read.
Definition recvmsg := read.
Definition write (hookEnable : bool) (fuel : nat) (e : env) (fd : Z) : M (World K) (Z * list action) :=
  do_io hookEnable fuel e fd WRITE SO_SNDTIMEO.
Definition writev := write.
Definition send := write.
Definition sendto := write.
Definition sendmsg := write.

Definition accept (hookEnable : bool) (fuel : nat) (e : env) (s : Z) : M (World K) (Z * list action) :=
  '(fd, log) ← do_io hookEnable fuel e s READ SO_RCVTIMEO;
  when (0 <=? fd) (FdManager_get fd true ;; mret tt) ;;
  mret (fd, log).

(** ** Sleeping

    The milliseconds passed to [addTimer], whose parameter is a [uint64_t]. *)
Definition sleep_ms (seconds : Z) : Z := u32 (seconds * 1000).
Definition usleep_ms (usec : Z) : Z := usec / 1000.
Definition nanosleep_ms (tv_sec tv_nsec : Z) : Z :=
  u64 (i32 (tv_sec * 1000 + Z.quot (Z.quot tv_nsec 1000) 1000)).

(** [original] is the value of the function hooked. *)
Definition sleeping (hookEnable : bool) (original ms : Z) : Z * list action :=
  if negb hookEnable then (original, [Call]) else (0, [AddTimer ms; Yield]).

Definition sleep (hookEnable : bool) (original seconds : Z) : Z * list action :=
  sleeping hookEnable original (sleep_ms seconds).
Definition usleep (hookEnable : bool) (original usec : Z) : Z * list action :=
  sleeping hookEnable original (usleep_ms usec).
Definition nanosleep (hookEnable : bool) (original tv_sec tv_nsec : Z) : Z * list action :=
  sleeping hookEnable original (nanosleep_ms tv_sec tv_nsec).

(** ** Sockets *)

(** [socket_f] is the descriptor the original function returns. *)
Definition socket (hookEnable : bool) (socket_f : Z) : M (World K) Z :=
  if negb hookEnable then mret socket_f
  else if socket_f =? -1 then mret socket_f
  else FdManager_get socket_f true ;; mret socket_f.

(** [getsockopt_f] is its return value and the error it stores. *)
Definition connect_with_timeout (hookEnable : bool) (connect_f add_ret : Z * Z) (expired : bool)
    (getsockopt_f : Z * Z) (fd timeoutMs : Z) : M (World K) (Z * list action) :=
  let original := n ← sys_errno connect_f; mret (n, [Call]) in
  if negb hookEnable then original else
  ctx ← FdManager_get fd false;
  match ctx with
  | None => modify (set_errno EBADF) ;; mret (-1, [])
  | Some ctx =>
      if isClose ctx then modify (set_errno EBADF) ;; mret (-1, [])
      else if negb (isSocket ctx) then original
      else if getUserNonblock ctx then original
      else
        n ← sys_errno connect_f;
        w ← get;
        if n =? 0 then mret (0, [Call])
        else if negb (n =? -1) || negb (errno w =? EINPROGRESS) then mret (n, [Call])
        else
          let timer := negb (timeoutMs =? no_timeout) in
          let log := [Call] ++ (if timer then [AddTimer timeoutMs] else []) ++ [AddEvent WRITE] in
          let cancel := if timer then [CancelTimer] else [] in
          rt ← sys_errno add_ret;
          let cancelled := if (rt =? 0) && timer && expired then ETIMEDOUT else 0 in
          let log := log ++ (if rt =? 0 then [Yield] else []) ++ cancel in
          if negb (cancelled =? 0) then modify (set_errno cancelled) ;; mret (-1, log)
          else
            let '(ret, error) := getsockopt_f in
            if ret =? -1 then mret (-1, log)
            else if error =? 0 then mret (0, log)
            else modify (set_errno error) ;; mret (-1, log)
  end.

(** [tcp_connect_timeout]: the value of the configuration variable. *)
Definition connect (tcp_connect_timeout : Z) (hookEnable : bool) (connect_f add_ret : Z * Z)
    (expired : bool) (getsockopt_f : Z * Z) (fd : Z) : M (World K) (Z * list action) :=
  connect_with_timeout hookEnable connect_f add_ret expired getsockopt_f fd (u64 tcp_connect_timeout).

(** [iom]: whether the thread has an I/O manager. *)
Definition close (hookEnable iom : bool) (fd : Z) : M (World K) (Z * list action) :=
  let original := sys (k_close fd) in
  if negb hookEnable then r ← original; mret (r, []) else
  ctx ← FdManager_get fd false;
  match ctx with
  | Some _ =>
      del fd ;;
      r ← original;
      mret (r, if iom then [CancelAll fd] else [])
  | None => r ← original; mret (r, [])
  end.

(** ** Descriptor flags *)

(** The commands whose third argument is handed on. *)
Definition cmd_has_arg (cmd : Z) : bool :=
  existsb (Z.eqb cmd) [0; 1030; 2; 8; 10; 1024; 1026; 1031; 6; 7; 5; 16; 15].

Definition fcntl (fd cmd arg : Z) : M (World K) Z :=
  if cmd =? F_SETFL then
    ctx ← FdManager_get fd false;
    match ctx with
    | None => fcntl_f fd cmd (Some arg)
    | Some ctx =>
        if isClose ctx || negb (isSocket ctx) then fcntl_f fd cmd (Some arg)
        else
          update_ctx fd (setUserNonblock (negb (Z.land arg O_NONBLOCK =? 0))) ;;
          fcntl_f fd cmd (Some (if getSysNonblock ctx then Z.lor arg O_NONBLOCK
                                else Z.land arg (Z.lnot O_NONBLOCK)))
    end
  else if cmd =? F_GETFL then
    arg ← fcntl_f fd cmd None;
    ctx ← FdManager_get fd false;
    match ctx with
    | None => mret arg
    | Some ctx =>
        if isClose ctx || negb (isSocket ctx) then mret arg
        else if getUserNonblock ctx then mret (Z.lor arg O_NONBLOCK)
        else mret (Z.land arg (Z.lnot O_NONBLOCK))
    end
  else if cmd_has_arg cmd then fcntl_f fd cmd (Some arg)
  else fcntl_f fd cmd None.

(** [arg]: the [int] its pointer designates. *)
Definition ioctl (d request arg : Z) : M (World K) Z :=
  let original := sys (k_ioctl d request arg) in
  if request =? FIONBIO then
    ctx ← FdManager_get d false;
    match ctx with
    | None => original
    | Some ctx =>
        if isClose ctx || negb (isSocket ctx) then original
        else update_ctx d (setUserNonblock (negb (arg =? 0))) ;; original
    end
  else original.

(** [tv_sec] and [tv_usec]: the [timeval] behind [optval]. *)
Definition setsockopt (hookEnable : bool) (setsockopt_f : K -> Z * K) (sockfd level optname : Z)
    (tv_sec tv_usec : Z) : M (World K) Z :=
  if negb hookEnable then sys setsockopt_f else
  (if (level =? SOL_SOCKET) && ((optname =? SO_RCVTIMEO) || (optname =? SO_SNDTIMEO)) then
     ctx ← FdManager_get sockfd false;
     match ctx with
     | Some _ => update_ctx sockfd (setTimeout optname (u64 (tv_sec * 1000 + Z.quot tv_usec 1000)))
     | None => mret tt
     end
   else mret tt) ;;
  sys setsockopt_f.

Definition getsockopt (getsockopt_f : K -> Z * K) : M (World K) Z := sys getsockopt_f.
End Hook.
