(* ===== verification/HookTheorems.v ===== *)
(** * File descriptors and hooked calls: the properties *)

From S2P Require Import Prelude FdManager Hook.
#[local] Set Default Goal Selector "!".

(** What the theorems need to know of the system: whether a descriptor is
    non-blocking, and how the calls read and change that. *)
Class KernelLaws (K : Type) `{Kernel K} := {
  nonblock : K -> Z -> bool;
  getfl_law fd arg k : k_fstat k fd = Some true -> exists flags,
    k_fcntl fd F_GETFL arg k = (flags, k) /\ negb (Z.land flags O_NONBLOCK =? 0) = nonblock k fd;
  setfl_law fd v k k' : k_fcntl fd F_SETFL (Some v) k = (0, k') ->
    nonblock k' fd = negb (Z.land v O_NONBLOCK =? 0) /\
    forall d, k_fstat k' d = k_fstat k d /\ (d <> fd -> nonblock k' d = nonblock k d);
  ioctl_law fd v k k' : k_ioctl fd FIONBIO v k = (0, k') -> nonblock k' fd = negb (v =? 0)
}.

Section table.
Context {K : Type} `{Kernel K}.
Implicit Types (w : World K) (c : FdCtx).

(** ** The table *)

(** The context registered for a descriptor. *)
Definition ctx_at w (fd : Z) : option FdCtx :=
  match m_datas w !! Z.to_nat fd with Some c => c | None => None end.

Definition table_ok w : Prop := (64 <= length (m_datas w))%nat.

Lemma slot_ok w fd : 0 <= fd < Z.of_nat (length (m_datas w)) -> slot fd w = (Ok (ctx_at w fd), w).
Proof.
  intros Hfd. unfold slot, ctx_at. rewrite (bind_ok get _ w w w) by done.
  destruct (Z.ltb_spec fd 0); [lia|].
  destruct (lookup_lt_is_Some_2 (m_datas w) (Z.to_nat fd)) as [c ->]; [lia|done].
Qed.

Lemma slot_neg w fd : fd < 0 -> slot fd w = (Crash OutOfBounds, w).
Proof.
  intros Hfd. unfold slot. rewrite (bind_ok get _ w w w) by done.
  destruct (Z.ltb_spec fd 0); [done|lia].
Qed.

Lemma set_slot_ok w fd (c : option FdCtx) :
  0 <= fd < Z.of_nat (length (m_datas w)) ->
  set_slot fd c w = (Ok tt, set_datas (<[Z.to_nat fd := c]> (m_datas w)) w).
Proof. intros Hfd. unfold set_slot. by rewrite (bind_ok _ _ _ _ _ (slot_ok w fd Hfd)). Qed.

Lemma ctx_at_insert w fd d (c : option FdCtx) :
  0 <= fd < Z.of_nat (length (m_datas w)) -> 0 <= d ->
  ctx_at (set_datas (<[Z.to_nat fd := c]> (m_datas w)) w) d = if d =? fd then c else ctx_at w d.
Proof.
  intros Hfd Hd. unfold ctx_at. simpl. destruct (Z.eqb_spec d fd) as [->|Hne].
  - by rewrite list_lookup_insert_eq by lia.
  - by rewrite list_lookup_insert_ne by lia.
Qed.

Lemma ctx_at_resize w n d :
  (length (m_datas w) <= n)%nat -> ctx_at (set_datas (resize n (m_datas w)) w) d = ctx_at w d.
Proof.
  intros Hn. unfold ctx_at, resize. simpl. rewrite take_ge by done.
  destruct (Nat.lt_ge_cases (Z.to_nat d) (length (m_datas w))).
  - by rewrite lookup_app_l.
  - rewrite lookup_app_r, (lookup_ge_None_2 (m_datas w)) by done.
    destruct (repeat None _ !! _) as [c|] eqn:E; [|done].
    apply list_elem_of_lookup_2, list_elem_of_In, repeat_spec in E. done.
Qed.

Lemma length_resize n (l : list (option FdCtx)) : length (resize n l) = n.
Proof. unfold resize. rewrite length_app, length_take, repeat_length. lia. Qed.

Lemma sys_run (call : K -> Z * K) w :
  sys call w = (Ok (fst (call (kern w))), set_kern (snd (call (kern w))) w).
Proof. unfold sys. by destruct (call (kern w)). Qed.

(** A new context: its flags follow [fstat], and only the system changes. *)
Lemma new_FdCtx_run fd w : exists c k,
  new_FdCtx fd w = (Ok c, set_kern k w) /\
  m_isSocket c = match k_fstat (kern w) fd with Some s => s | None => false end /\
  m_sysNonblock c = m_isSocket c /\ m_userNonblock c = false /\ m_isClosed c = false /\
  m_recvTimeout c = no_timeout /\ m_sendTimeout c = no_timeout /\
  (m_isSocket c = false -> k = kern w) /\
  (m_isSocket c = true ->
     let flags := fst (k_fcntl fd F_GETFL (Some 0) (kern w)) in
     let k1 := snd (k_fcntl fd F_GETFL (Some 0) (kern w)) in
     k = if Z.land flags O_NONBLOCK =? 0
         then snd (k_fcntl fd F_SETFL (Some (Z.lor flags O_NONBLOCK)) k1) else k1).
Proof.
  unfold new_FdCtx, init, fcntl_f. cbn [m_isInit m_fd]. rewrite (bind_ok get _ w w w) by done.
  assert (Hid : set_kern (kern w) w = w) by by destruct w.
  destruct (k_fstat (kern w) fd) as [[|]|].
  - rewrite (bind_ok _ _ w tt
      (set_kern (let flags := fst (k_fcntl fd F_GETFL (Some 0) (kern w)) in
                 let k1 := snd (k_fcntl fd F_GETFL (Some 0) (kern w)) in
                 if Z.land flags O_NONBLOCK =? 0
                 then snd (k_fcntl fd F_SETFL (Some (Z.lor flags O_NONBLOCK)) k1) else k1) w)).
    + do 2 eexists. split; [reflexivity|]. by split_and!.
    + rewrite (bind_ok _ _ _ _ _ (sys_run _ w)). cbv zeta. destruct (_ =? 0); [|done].
      by rewrite (bind_ok _ _ _ _ _ (sys_run _ _)).
  - rewrite (bind_ok (mret tt) _ w tt w) by done. eexists _, (kern w).
    rewrite Hid. split; [reflexivity|]. by split_and!.
  - rewrite (bind_ok (mret tt) _ w tt w) by done. eexists _, (kern w).
    rewrite Hid. split; [reflexivity|]. by split_and!.
Qed.

Lemma get_lookup w fd : -1 <= fd -> FdManager_get fd false w = (Ok (if fd =? -1 then None else ctx_at w fd), w).
Proof.
  intros Hfd. unfold FdManager_get. destruct (Z.eqb_spec fd (-1)); [done|].
  rewrite (bind_ok size _ w (Z.of_nat (length (m_datas w))) w) by done.
  destruct (Z.leb_spec (Z.of_nat (length (m_datas w))) fd).
  - unfold ctx_at. by rewrite lookup_ge_None_2 by lia.
  - cbn [negb]. rewrite (bind_ok _ _ _ _ _ (slot_ok w fd ltac:(lia))). by rewrite orb_true_r.
Qed.

Lemma get_existing w fd c b : 0 <= fd -> ctx_at w fd = Some c -> FdManager_get fd b w = (Ok (Some c), w).
Proof.
  intros Hfd Hc. unfold FdManager_get. destruct (Z.eqb_spec fd (-1)); [lia|].
  rewrite (bind_ok size _ w (Z.of_nat (length (m_datas w))) w) by done.
  destruct (Z.leb_spec (Z.of_nat (length (m_datas w))) fd).
  - unfold ctx_at in Hc. by rewrite lookup_ge_None_2 in Hc by lia.
  - rewrite (bind_ok _ _ _ _ _ (slot_ok w fd ltac:(lia))), Hc. by rewrite bool_decide_true.
Qed.

Lemma get_create w fd : table_ok w -> 0 <= fd -> ctx_at w fd = None -> exists c k w',
  new_FdCtx fd w = (Ok c, set_kern k w) /\
  FdManager_get fd true w = (Ok (Some c), w') /\ kern w' = k /\ errno w' = errno w /\ table_ok w' /\
  forall d, 0 <= d -> ctx_at w' d = if d =? fd then Some c else ctx_at w d.
Proof.
  intros Hok Hfd Hc. destruct (new_FdCtx_run fd w) as (c & k & Hnew & _). exists c, k.
  set (w1 := set_kern k w) in *. set (len := Z.of_nat (length (m_datas w))).
  set (w2 := if len <=? fd then set_datas (resize (Z.to_nat (3 * fd / 2)) (m_datas w)) w1 else w1).
  unfold table_ok in Hok.
  assert (Hlen2 : 0 <= fd < Z.of_nat (length (m_datas w2)) /\ (64 <= length (m_datas w2))%nat).
  { unfold w2. destruct (Z.leb_spec len fd); simpl; [|unfold len in *; lia].
    rewrite length_resize. unfold len in *. split; [split; [done|]|]; zdiv. }
  assert (Hat2 : forall d, ctx_at w2 d = ctx_at w d).
  { intros d. unfold w2. destruct (Z.leb_spec len fd); [|done].
    apply (ctx_at_resize w1). simpl. unfold len in *. zdiv. }
  assert (Hcreate : (ctx ← new_FdCtx fd; n ← size;
    when (n <=? fd) (modify (fun w => set_datas (resize (Z.to_nat (3 * fd / 2)) (m_datas w)) w)) ;;
    set_slot fd (Some ctx) ;; mret (Some ctx)) w =
    (Ok (Some c), set_datas (<[Z.to_nat fd := Some c]> (m_datas w2)) w2)).
  { rewrite (bind_ok _ _ _ _ _ Hnew), (bind_ok size _ w1 len w1) by done.
    rewrite (bind_ok (when _ _) _ w1 tt w2) by (unfold w2; by destruct (len <=? fd)).
    by rewrite (bind_ok _ _ _ _ _ (set_slot_ok w2 fd (Some c) (proj1 Hlen2))). }
  exists (set_datas (<[Z.to_nat fd := Some c]> (m_datas w2)) w2). split_and!; [done| | | | |].
  - unfold FdManager_get. destruct (Z.eqb_spec fd (-1)); [lia|].
    rewrite (bind_ok size _ w len w) by done. cbn [negb]. destruct (Z.leb_spec len fd); [exact Hcreate|].
    rewrite (bind_ok _ _ _ _ _ (slot_ok w fd ltac:(unfold len in *; lia))), Hc.
    rewrite bool_decide_false by (intros []; done). exact Hcreate.
  - unfold w2. by destruct (len <=? fd).
  - unfold w2. by destruct (len <=? fd).
  - unfold table_ok. simpl. rewrite length_insert. lia.
  - intros d Hd. rewrite ctx_at_insert by (done || apply Hlen2). by rewrite Hat2.
Qed.

Lemma update_ctx_ok w fd c f :
  0 <= fd -> ctx_at w fd = Some c ->
  update_ctx fd f w = (Ok tt, set_datas (<[Z.to_nat fd := Some (f c)]> (m_datas w)) w) /\
  0 <= fd < Z.of_nat (length (m_datas w)).
Proof.
  intros Hfd Hc. assert (Hlt : 0 <= fd < Z.of_nat (length (m_datas w))).
  { unfold ctx_at in Hc. destruct (m_datas w !! Z.to_nat fd) eqn:E; [|done].
    apply lookup_lt_Some in E. lia. }
  split; [|done]. unfold update_ctx. rewrite (bind_ok _ _ _ _ _ (slot_ok w fd Hlt)), Hc.
  by apply set_slot_ok.
Qed.
End table.

(** ** A system to run the examples on: sockets or not, non-blocking or not *)

Abbreviation fds := (gmap Z (bool * bool)).

#[export] Instance toy_kernel : Kernel (fds) := {
  k_fstat (k : fds) fd := fst <$> (k !! fd : option (bool * bool));
  k_fcntl fd cmd arg (k : fds) :=
    match (k !! fd : option (bool * bool)) with
    | None => (-1, k)
    | Some (s, nb) =>
        if cmd =? F_GETFL then (if nb then O_NONBLOCK else 0, k)
        else if cmd =? F_SETFL
             then (0, <[fd := (s, negb (Z.land (default 0 arg) O_NONBLOCK =? 0))]> k)
        else (0, k)
    end;
  k_ioctl fd request arg (k : fds) :=
    match (k !! fd : option (bool * bool)) with
    | None => (-1, k)
    | Some (s, nb) => (0, <[fd := (s, negb (arg =? 0))]> k)
    end;
  k_close fd (k : fds) := (match (k !! fd : option (bool * bool)) with Some _ => 0 | None => -1 end, delete fd k)
}.

#[export] Program Instance toy_laws : KernelLaws (fds) := {
  nonblock (k : fds) fd := match (k !! fd : option (bool * bool)) with Some (_, nb) => nb | None => false end
}.
Next Obligation.
  intros fd arg k Hst. simpl in *. destruct (k !! fd) as [[s nb]|]; [|done].
  eexists. split; [reflexivity|]. by destruct nb.
Qed.
Next Obligation.
  intros fd v k k'. simpl. destruct (k !! fd) as [[s nb]|] eqn:E; [|done]. intros [= <-].
  rewrite lookup_insert_eq. split; [done|]. intros d. rewrite lookup_insert.
  destruct (decide (fd = d)) as [->|]; [by rewrite E|done].
Qed.
Next Obligation.
  intros fd v k k'. simpl. destruct (k !! fd) as [[s nb]|]; [|done]. intros [= <-].
  by rewrite lookup_insert_eq.
Qed.

(** A blocking socket with number 70, registered by the hook of [socket]. *)
Definition fresh_world : World fds := new_FdManager (<[70 := (true, false)]> ∅).
Definition one_socket : World fds := snd (socket true 70 fresh_world).

(** The descriptor table is never accessed out of bounds for a descriptor from -1 up
    ([get]) or 0 up ([del]), since it grows to half as much again as a descriptor past its end:
    a look-up changes nothing, a creating look-up returns the context there is, or a new
    one with no timeouts that it registers, [del] forgets it, and the other descriptors keep
    theirs.  Other negative descriptors index before the table. *)
Theorem fd_table {K} `{Kernel K} (w : World K) fd :
  table_ok w ->
  (FdManager_get (-1) true w = (Ok None, w)) /\
  (fd < -1 -> FdManager_get fd true w = (Crash OutOfBounds, w)) /\
  (fd < 0 -> del fd w = (Crash OutOfBounds, w)) /\
  (0 <= fd ->
     FdManager_get fd false w = (Ok (ctx_at w fd), w) /\
     (exists c w', FdManager_get fd true w = (Ok (Some c), w') /\ table_ok w' /\
        (ctx_at w fd = Some c /\ w' = w \/
         ctx_at w fd = None /\ m_recvTimeout c = no_timeout /\ m_sendTimeout c = no_timeout /\
         m_userNonblock c = false) /\
        forall d, 0 <= d -> ctx_at w' d = if d =? fd then Some c else ctx_at w d) /\
     (exists w', del fd w = (Ok tt, w') /\ table_ok w' /\
        forall d, 0 <= d -> ctx_at w' d = if d =? fd then None else ctx_at w d)).
Proof.
  intros Hok. split_and!; [done| | |].
  - intros Hfd. unfold FdManager_get. destruct (Z.eqb_spec fd (-1)); [lia|].
    rewrite (bind_ok size _ w (Z.of_nat (length (m_datas w))) w) by done.
    destruct (Z.leb_spec (Z.of_nat (length (m_datas w))) fd); [lia|].
    by rewrite (bind_crash _ _ _ _ _ (slot_neg w fd ltac:(lia))).
  - intros Hfd. unfold del. rewrite (bind_ok size _ w (Z.of_nat (length (m_datas w))) w) by done.
    destruct (Z.leb_spec (Z.of_nat (length (m_datas w))) fd); [lia|].
    unfold set_slot. by rewrite (bind_crash _ _ _ _ _ (slot_neg w fd Hfd)).
  - intros Hfd. split_and!.
    + rewrite get_lookup by lia. destruct (Z.eqb_spec fd (-1)); [lia|done].
    + destruct (ctx_at w fd) as [c|] eqn:Hc.
      * exists c, w. rewrite (get_existing w fd c) by done. split_and!; try done; [by left|].
        intros d Hd. destruct (Z.eqb_spec d fd); congruence.
      * destruct (get_create w fd Hok Hfd Hc) as (c & k & w' & Hnew & Hget & _ & _ & Hok' & Hat).
        exists c, w'. split_and!; try done. right.
        destruct (new_FdCtx_run fd w) as (c2 & k2 & Hnew2 & ? & ? & ? & ? & ? & ? & _).
        rewrite Hnew2 in Hnew. by simplify_eq.
    + unfold del. rewrite (bind_ok size _ w (Z.of_nat (length (m_datas w))) w) by done.
      destruct (Z.leb_spec (Z.of_nat (length (m_datas w))) fd).
      * exists w. split_and!; try done. intros d Hd. destruct (Z.eqb_spec d fd) as [->|]; [|done].
        unfold ctx_at. by rewrite lookup_ge_None_2 by lia.
      * rewrite set_slot_ok by lia. eexists. split; [reflexivity|]. split.
        -- unfold table_ok. simpl. by rewrite length_insert.
        -- intros d Hd. by apply ctx_at_insert.
Qed.

Lemma fd_table_witness :
  exists c w', FdManager_get 70 true fresh_world = (Ok (Some c), w') /\ table_ok w'.
Proof.
  destruct (fd_table fresh_world 70) as (_ & _ & _ & H); [vm_compute; lia|].
  destruct (H ltac:(lia)) as (_ & (c & w' & H1 & H2 & _) & _). by exists c, w'.
Defined.

(** The flag a program sets with [fcntl] on a registered socket is the one it reads back,
    while the descriptor itself stays non-blocking, as the hooks need; but [ioctl(FIONBIO)]
    is also passed on, so that clearing the flag this way makes the descriptor blocking and
    the hooked calls block their thread. *)
Theorem nonblock_views {K} `{KernelLaws K} (w w' : World K) fd c arg :
  0 <= fd -> ctx_at w fd = Some c -> m_isSocket c = true -> m_isClosed c = false ->
  m_sysNonblock c = true -> k_fstat (kern w) fd = Some true ->
  (fcntl fd F_SETFL arg w = (Ok 0, w') ->
     nonblock (kern w') fd = true /\
     exists flags w2, fcntl fd F_GETFL 0 w' = (Ok flags, w2) /\
       (Z.land flags O_NONBLOCK =? 0) = (Z.land arg O_NONBLOCK =? 0)) /\
  (ioctl fd FIONBIO arg w = (Ok 0, w') ->
     nonblock (kern w') fd = negb (arg =? 0) /\
     ctx_at w' fd = Some (setUserNonblock (negb (arg =? 0)) c)).
Proof.
  intros Hfd Hc Hs Hcl Hsys Hst.
  assert (Hget : FdManager_get fd false w = (Ok (Some c), w)) by by apply get_existing.
  pose proof (update_ctx_ok w fd c (setUserNonblock (negb (Z.land arg O_NONBLOCK =? 0))) Hfd Hc) as [Hup1 Hlt].
  pose proof (proj1 (update_ctx_ok w fd c (setUserNonblock (negb (arg =? 0))) Hfd Hc)) as Hup2.
  split.
  - unfold fcntl at 1. cbn [Z.eqb Pos.eqb F_SETFL]. rewrite (bind_ok _ _ _ _ _ Hget).
    unfold isClose, isSocket, getSysNonblock. rewrite Hcl, Hs, Hsys. cbn [negb orb].
    rewrite (bind_ok _ _ _ _ _ Hup1). unfold fcntl_f. rewrite sys_run. cbn [kern set_datas].
    intros [= Hr <-].
    destruct (k_fcntl fd F_SETFL (Some (Z.lor arg O_NONBLOCK)) (kern w)) as [r k'] eqn:Ek.
    simpl in Hr. subst r. destruct (setfl_law fd _ _ _ Ek) as [Hnb Hst'].
    assert (Hbit : negb (Z.land (Z.lor arg O_NONBLOCK) O_NONBLOCK =? 0) = true).
    { rewrite Z.land_lor_distr_l. change (Z.land O_NONBLOCK O_NONBLOCK) with O_NONBLOCK.
      destruct (Z.eqb_spec (Z.lor (Z.land arg O_NONBLOCK) O_NONBLOCK) 0) as [He|]; [|done].
      apply Z.lor_eq_0_iff in He as [_ ?]. done. }
    rewrite Hbit in Hnb. cbn [snd kern set_kern]. split; [done|].
    set (w1 := set_kern k' _).
    assert (Hc1 : ctx_at w1 fd = Some (setUserNonblock (negb (Z.land arg O_NONBLOCK =? 0)) c)).
    { transitivity (ctx_at (set_datas (<[Z.to_nat fd :=
        Some (setUserNonblock (negb (Z.land arg O_NONBLOCK =? 0)) c)]> (m_datas w)) w) fd); [done|].
      rewrite ctx_at_insert by done. by rewrite Z.eqb_refl. }
    destruct (getfl_law fd None k') as (flags & Hfl & _); [by rewrite (proj1 (Hst' fd))|].
    unfold fcntl. cbn [Z.eqb Pos.eqb F_SETFL F_GETFL].
    unfold fcntl_f. rewrite (bind_ok _ _ _ _ _ (sys_run _ w1)). change (kern w1) with k'. rewrite Hfl.
    cbn [fst snd]. set (w2 := set_kern (snd (flags, k')) w1).
    assert (Hc2 : ctx_at w2 fd = ctx_at w1 fd) by done. rewrite Hc1 in Hc2.
    rewrite (bind_ok _ _ _ _ _ (get_existing w2 fd _ false Hfd Hc2)).
    unfold isClose, isSocket, getUserNonblock, setUserNonblock. cbn [m_isClosed m_isSocket m_userNonblock].
    rewrite Hcl, Hs. cbn [negb orb]. destruct (Z.eqb_spec (Z.land arg O_NONBLOCK) 0); cbn [negb];
      do 2 eexists; (split; [reflexivity|]).
    + apply Z.eqb_eq. by rewrite <- Z.land_assoc, (Z.land_comm (Z.lnot _)), Z.land_lnot_diag, Z.land_0_r.
    + apply Z.eqb_neq. rewrite Z.land_lor_distr_l. change (Z.land O_NONBLOCK O_NONBLOCK) with O_NONBLOCK.
      intros [_ ?]%Z.lor_eq_0_iff. done.
  - unfold ioctl. change (FIONBIO =? FIONBIO) with true. cbv iota. rewrite (bind_ok _ _ _ _ _ Hget).
    unfold isClose, isSocket. rewrite Hcl, Hs. cbn [negb orb].
    rewrite (bind_ok _ _ _ _ _ Hup2), sys_run. cbn [kern set_datas]. intros [= Hr <-].
    destruct (k_ioctl fd FIONBIO arg (kern w)) as [r k'] eqn:Ek. simpl in Hr. subst r.
    cbn [kern set_kern snd]. split; [by apply (ioctl_law fd arg (kern w))|].
    transitivity (ctx_at (set_datas (<[Z.to_nat fd :=
        Some (setUserNonblock (negb (arg =? 0)) c)]> (m_datas w)) w) fd); [done|].
    rewrite ctx_at_insert by done. by rewrite Z.eqb_refl.
Qed.

Lemma nonblock_views_witness :
  exists flags w2, fcntl 70 F_GETFL 0 (snd (fcntl 70 F_SETFL 0 one_socket)) = (Ok flags, w2) /\
    Z.land flags O_NONBLOCK = 0.
Proof.
  destruct (nonblock_views one_socket (snd (fcntl 70 F_SETFL 0 one_socket)) 70
    (mkFdCtx true true true false false 70 no_timeout no_timeout) 0) as [H _]; [lia|reflexivity..|].
  destruct H as [_ (flags & w2 & H1 & H2)]; [reflexivity|].
  exists flags, w2. split; [exact H1|]. apply Z.eqb_eq. rewrite H2. reflexivity.
Defined.

(** ** Waiting calls *)

Section waiting.
Context {K : Type} `{Kernel K}.
Implicit Types (w : World K) (c : FdCtx) (e : env).

(** A call after which [do_io] does not try again. *)
Definition final e (k : nat) : bool :=
  let '(n, err) := fun_ret e k in negb ((n =? -1) && ((err =? EINTR) || (err =? EAGAIN))).

(** Timers set less timers cancelled. *)
Definition armed (log : list action) : Z :=
  fold_right (fun a n => match a with AddTimer _ => n + 1 | CancelTimer => n - 1 | _ => n end) 0 log.

Lemma armed_app l1 l2 : armed (l1 ++ l2) = armed l1 + armed l2.
Proof.
  induction l1 as [|a l1 IH]; [done|]. cbn [app armed fold_right].
  change (fold_right _ 0 (l1 ++ l2)) with (armed (l1 ++ l2)).
  change (fold_right _ 0 l1) with (armed l1). rewrite IH. destruct a; lia.
Qed.

(** *** What a call that waits does, turn by turn *)

Definition interrupted e (k : nat) : bool := let '(n, err) := fun_ret e k in (n =? -1) && (err =? EINTR).
Definition again e (k : nat) : bool := let '(n, err) := fun_ret e k in (n =? -1) && (err =? EAGAIN).

(** The waits before the [k]-th call. *)
Definition waits_before e (k : nat) : nat := length (filter (fun i => again e i = true) (seq 0 k)).

Definition arm (to : Z) : list action := if to =? no_timeout then [] else [AddTimer to].
Definition disarm (to : Z) : list action := if to =? no_timeout then [] else [CancelTimer].

(** The timer of a wait ran, if there is one. *)
Definition timed_out e (to : Z) (k : nat) : bool := negb (to =? no_timeout) && expired e (waits_before e k).

(** The original function is called again after its [k]-th call: that was interrupted, or found
    nothing and the event was waited for in time. *)
Definition retries e (to : Z) (k : nat) : bool :=
  interrupted e k || (again e k && (fst (add_ret e (waits_before e k)) =? 0) && negb (timed_out e to k)).

Definition turn e (event to : Z) (k : nat) : list action :=
  [Call] ++ if again e k then arm to ++ [AddEvent event] ++ [Yield] ++ disarm to else [].
Definition turns e (event to : Z) (k : nat) : list action := concat (turn e event to <$> seq 0 k).

(** The call ends with the [j]-th call of the original function, the first that is not followed by
    another: by its answer, by the failure to add the event, or by the timeout. *)
Definition io_ends e (event to : Z) (j : nat) (n err : Z) (log : list action) : Prop :=
  (forall i, (i < j)%nat -> retries e to i = true) /\
  if negb (again e j) then
    final e j = true /\ n = fst (fun_ret e j) /\ (n = -1 -> err = snd (fun_ret e j)) /\ log = turns e event to j ++ [Call]
  else if negb (fst (add_ret e (waits_before e j)) =? 0) then
    n = -1 /\ err = (if fst (add_ret e (waits_before e j)) =? -1 then snd (add_ret e (waits_before e j)) else EAGAIN) /\
    log = turns e event to j ++ [Call] ++ arm to ++ [AddEvent event] ++ disarm to
  else timed_out e to j = true /\ n = -1 /\ err = ETIMEDOUT /\ log = turns e event to (S j).

Definition same_table w w' : Prop := m_datas w' = m_datas w /\ kern w' = kern w.

Lemma sys_errno_run ret w :
  sys_errno ret w = (Ok (fst ret), if fst ret =? -1 then set_errno (snd ret) w else w).
Proof. done. Qed.

Lemma turns_S e event to k : turns e event to (S k) = turns e event to k ++ turn e event to k.
Proof. unfold turns. by rewrite seq_S, fmap_app, concat_app, Nat.add_0_l; cbn; rewrite app_nil_r. Qed.

Lemma waits_S e k : waits_before e (S k) = (waits_before e k + if again e k then 1 else 0)%nat.
Proof.
  unfold waits_before. rewrite seq_S, filter_app, length_app. f_equal. cbn. unfold filter, list_filter.
  by destruct (again e k).
Qed.

(** *** The timers of the trace *)

(** Timers are all cancelled, and were set for [to], which is then a time. *)
Definition log_ok to (log : list action) : Prop :=
  armed log = 0 /\ forall ms, AddTimer ms ∈ log -> ms = to /\ to <> no_timeout.

Lemma log_ok_app to l1 l2 : log_ok to l1 -> log_ok to l2 -> log_ok to (l1 ++ l2).
Proof.
  intros [Ha1 Ht1] [Ha2 Ht2]. split; [rewrite armed_app; lia|]. intros ms [Hin|Hin]%elem_of_app; auto.
Qed.

Lemma log_call to : log_ok to [Call].
Proof. split; [done|]. intros ms. set_solver. Qed.

(** A wait, with what happens between arming and cancelling. *)
Lemma log_wait to event mid : (mid = [] \/ mid = [Yield]) -> log_ok to (arm to ++ [AddEvent event] ++ mid ++ disarm to).
Proof.
  unfold arm, disarm. intros Hmid. destruct (Z.eqb_spec to no_timeout) as [->|Hto]; destruct Hmid as [-> | ->];
    (split; [done|]); intros ms; set_solver.
Qed.

Lemma log_turn e event to k : log_ok to (turn e event to k).
Proof.
  apply log_ok_app; [apply log_call|]. destruct (again e k); [apply (log_wait to event [Yield]); by right|].
  split; [done|set_solver].
Qed.

Lemma log_turns e event to k : log_ok to (turns e event to k).
Proof.
  induction k as [|k IH]; [split; [done|set_solver]|]. rewrite turns_S. by apply log_ok_app, log_turn.
Qed.

Lemma io_ends_log e event to j n err log : io_ends e event to j n err log -> log_ok to log.
Proof.
  intros [_ He]. destruct (negb (again e j)); [|destruct (negb _)].
  - destruct He as (_ & _ & _ & ->). apply log_ok_app; [apply log_turns|apply log_call].
  - destruct He as (_ & _ & ->). apply log_ok_app; [apply log_turns|]. apply log_ok_app; [apply log_call|].
    apply (log_wait to event []). by left.
  - destruct He as (_ & _ & _ & ->). apply log_turns.
Qed.

Lemma same_table_trans w1 w2 w3 : same_table w1 w2 -> same_table w2 w3 -> same_table w1 w3.
Proof. intros [] []. split; congruence. Qed.

Lemma sys_errno_table (b : bool) err w : same_table w (if b then set_errno err w else w).
Proof. by destruct b. Qed.

Lemma interrupted_not_again e k : interrupted e k = true -> again e k = false.
Proof. unfold interrupted, again. destruct (fun_ret e k) as [n err]. destruct (n =? -1); [|done]. by intros ->%Z.eqb_eq. Qed.

(** A turn of the loop. *)
Lemma io_loop_turn e event to fuel w calls (waits := waits_before e calls) (log := turns e event to calls) :
  (forall i, (i < calls)%nat -> retries e to i = true) ->
  exists w1, same_table w w1 /\
    if retries e to calls
    then io_loop (S fuel) e event to calls waits log w =
         io_loop fuel e event to (S calls) (waits_before e (S calls)) (turns e event to (S calls)) w1
    else exists n log', io_loop (S fuel) e event to calls waits log w = (Ok (n, log'), w1) /\
           io_ends e event to calls n (errno w1) log'.
Proof.
  intros Hbefore. unfold io_ends. cbn [io_loop]. rewrite (bind_ok _ _ _ _ _ (sys_errno_run _ w)).
  set (w1 := if fst (fun_ret e calls) =? -1 then _ else w). rewrite (bind_ok get _ w1 w1 w1) by done.
  assert (Hw1 : same_table w w1) by apply sys_errno_table.
  rewrite turns_S, waits_S. unfold retries, final, turn. fold waits.
  assert (Hi : (fst (fun_ret e calls) =? -1) && (errno w1 =? EINTR) = interrupted e calls).
  { unfold interrupted, w1. destruct (fun_ret e calls) as [n err]; cbn [fst snd]. by destruct (n =? -1). }
  assert (Ha : (fst (fun_ret e calls) =? -1) && (errno w1 =? EAGAIN) = again e calls).
  { unfold again, w1. destruct (fun_ret e calls) as [n err]; cbn [fst snd]. by destruct (n =? -1). }
  rewrite Hi, Ha. destruct (interrupted e calls) eqn:Ei; cbn [orb].
  { exists w1. split; [done|]. by rewrite (interrupted_not_again _ _ Ei), Nat.add_0_r, app_nil_r. }
  destruct (again e calls) eqn:Ea; cbn [negb andb].
  2:{ exists w1. split; [done|]. do 2 eexists. split; [reflexivity|]. split; [done|].
      revert Ei Ea. unfold interrupted, again, w1. destruct (fun_ret e calls) as [n err]; cbn [fst snd].
      destruct (Z.eqb_spec n (-1)) as [->|]; cbn [andb]; [intros -> ->|intros _ _]; by split_and!. }
  assert (Heagain : errno w1 = EAGAIN) by by apply andb_true_iff in Ha as [_ ?%Z.eqb_eq].
  rewrite (bind_ok _ _ _ _ _ (sys_errno_run _ w1)).
  set (w2 := if fst (add_ret e waits) =? -1 then _ else w1).
  assert (Hw2 : same_table w w2) by (eapply same_table_trans; [done|apply sys_errno_table]).
  assert (Hlog : forall mid, ((log ++ [Call]) ++ (if negb (to =? no_timeout) then [AddTimer to] else []) ++ [AddEvent event]) ++
    mid ++ (if negb (to =? no_timeout) then [CancelTimer] else []) = log ++ [Call] ++ arm to ++ [AddEvent event] ++ mid ++ disarm to).
  { intros mid. unfold arm, disarm. by destruct (to =? no_timeout); rewrite <- !app_assoc. }
  destruct (fst (add_ret e waits) =? 0) eqn:Ert; cbn [negb andb].
  2:{ exists w2. split; [done|]. do 2 eexists. split; [reflexivity|]. split; [done|]. split_and!; [done| |exact (Hlog [])].
      unfold w2. by destruct (fst (add_ret e waits) =? -1). }
  rewrite (Hlog [Yield]). unfold timed_out. fold waits.
  destruct (negb (to =? no_timeout) && expired e waits) eqn:Ex; cbn [negb Z.eqb ETIMEDOUT].
  - exists (set_errno ETIMEDOUT w2). split; [exact Hw2|]. do 2 eexists. split; [reflexivity|]. by split_and!.
  - exists w2. split; [done|]. by rewrite Nat.add_1_r.
Qed.

Lemma io_loop_spec e event to k fuel w calls :
  (calls <= k)%nat -> retries e to k = false -> (k - calls < fuel)%nat -> (forall i, (i < calls)%nat -> retries e to i = true) ->
  exists j n log w', io_loop fuel e event to calls (waits_before e calls) (turns e event to calls) w = (Ok (n, log), w') /\
    (j <= k)%nat /\ same_table w w' /\ io_ends e event to j n (errno w') log.
Proof.
  revert w calls. induction fuel as [|fuel IH]; intros w calls Hk Hfin Hfuel Hbefore; [lia|].
  destruct (io_loop_turn e event to fuel w calls Hbefore) as (w1 & Hw1 & Hrun).
  destruct (retries e to calls) eqn:Hr.
  - assert (calls <> k) by congruence. rewrite Hrun.
    destruct (IH w1 (S calls)) as (j & n & log & w' & Hrun' & Hj & Hst & He); [lia|done|lia| |].
    + intros i Hi. destruct (decide (i = calls)) as [->|]; [done|]. apply Hbefore. lia.
    + exists j, n, log, w'. split_and!; [done|done|by eapply same_table_trans|done].
  - destruct Hrun as (n & log & Hrun & He). by exists calls, n, log, w1.
Qed.

Lemma final_stops e to k : final e k = true -> retries e to k = false.
Proof.
  unfold final, retries, interrupted, again. destruct (fun_ret e k) as [n err]. destruct (n =? -1), (err =? EINTR), (err =? EAGAIN); done.
Qed.
End waiting.

(** C9: on a registered socket the program left blocking, a hooked call calls the original function
    until its first answer that is not EINTR nor EAGAIN, and waits for the event after each EAGAIN,
    with a timer of the descriptor's timeout when it has one; it returns that answer at once, with
    its [errno], unless before it the timer of a wait ran, when it returns -1 with ETIMEDOUT, or the
    event could not be added, when it returns -1 with the [errno] of that.  What it does, call by
    call, timer by timer, is [turns]; each timer is cancelled and the table is kept.  When an answer
    of the original function ends it, a fuel of one turn per call is enough. *)
Theorem do_io_result {K} `{Kernel K} (w : World K) fd c e event so fuel k :
  0 <= fd -> ctx_at w fd = Some c ->
  m_isSocket c = true -> m_isClosed c = false -> m_userNonblock c = false ->
  final e k = true -> (k < fuel)%nat ->
  exists j n log w', do_io true fuel e fd event so w = (Ok (n, log), w') /\
    (j <= k)%nat /\ io_ends e event (getTimeout so c) j n (errno w') log /\
    same_table w w' /\ armed log = 0 /\
    forall ms, AddTimer ms ∈ log -> ms = getTimeout so c /\ getTimeout so c <> no_timeout.
Proof.
  intros Hfd Hc Hs Hcl Hu Hfin Hfuel. unfold do_io. cbn [negb].
  rewrite (bind_ok _ _ _ _ _ (get_existing w fd c false Hfd Hc)).
  unfold isClose, isSocket, getUserNonblock. rewrite Hcl, Hs, Hu. cbn [negb orb].
  destruct (io_loop_spec e event (getTimeout so c) k fuel w 0) as (j & n & log & w' & Hrun & Hj & Ht & He);
    [lia|by apply final_stops|lia|lia|].
  pose proof (io_ends_log _ _ _ _ _ _ _ He) as [Ha Hto]. by exists j, n, log, w'.
Qed.

(** Interrupted, then not ready, then 5 bytes. *)
Definition slow_env : env := mkEnv
  (fun k => match k with 0%nat => (-1, EINTR) | 1%nat => (-1, EAGAIN) | _ => (5, 0) end)
  (fun _ => (0, 0)) (fun _ => false).

Lemma do_io_result_witness :
  exists w', do_io true 3 slow_env 70 READ SO_RCVTIMEO one_socket =
    (Ok (5, [Call; Call; AddEvent READ; Yield; Call]), w') /\ m_datas w' = m_datas one_socket.
Proof.
  destruct (do_io_result one_socket 70 (mkFdCtx true true true false false 70 no_timeout no_timeout)
    slow_env READ SO_RCVTIMEO 3 2) as (j & n & log & w' & Hrun & _ & _ & [Hst _] & _); [lia|reflexivity..|lia|].
  exists w'. split; [|exact Hst]. rewrite Hrun. vm_compute in Hrun. by injection Hrun as <- <- <-.
Defined.

(** ** Connecting, and timeouts *)

Lemma connect_unfold {K} `{Kernel K} (w : World K) fd c connect_f add_ret expired getsockopt_f ms :
  0 <= fd -> ctx_at w fd = Some c ->
  m_isSocket c = true -> m_isClosed c = false -> m_userNonblock c = false ->
  fst connect_f = -1 -> snd connect_f = EINPROGRESS ->
  exists w1, same_table w w1 /\ errno w1 = EINPROGRESS /\
  connect_with_timeout true connect_f add_ret expired getsockopt_f fd ms w =
  (let timer := negb (ms =? no_timeout) in
   let log := [Call] ++ (if timer then [AddTimer ms] else []) ++ [AddEvent WRITE] in
   let cancel := if timer then [CancelTimer] else [] in
   let log := log ++ (if fst add_ret =? 0 then [Yield] else []) ++ cancel in
   let w2 := if fst add_ret =? -1 then set_errno (snd add_ret) w1 else w1 in
   if (fst add_ret =? 0) && timer && expired then (Ok (-1, log), set_errno ETIMEDOUT w2)
   else if fst getsockopt_f =? -1 then (Ok (-1, log), w2)
   else if snd getsockopt_f =? 0 then (Ok (0, log), w2)
   else (Ok (-1, log), set_errno (snd getsockopt_f) w2)).
Proof.
  intros Hfd Hc Hs Hcl Hu H1 H2. exists (set_errno EINPROGRESS w). split_and!; try done.
  unfold connect_with_timeout. cbn [negb].
  rewrite (bind_ok _ _ _ _ _ (get_existing w fd c false Hfd Hc)).
  unfold isClose, isSocket, getUserNonblock. rewrite Hcl, Hs, Hu. cbn [negb].
  rewrite (bind_ok _ _ _ _ _ (sys_errno_run _ w)), H1, H2. cbn [Z.eqb Pos.eqb].
  rewrite (bind_ok get _ _ _ (set_errno EINPROGRESS w)) by done.
  cbn [Z.eqb Pos.eqb negb orb errno set_errno EINPROGRESS].
  rewrite (bind_ok _ _ _ _ _ (sys_errno_run _ _)).
  destruct ((fst add_ret =? 0) && negb (ms =? no_timeout) && expired) eqn:E; [done|].
  cbn [Z.eqb negb]. destruct getsockopt_f as [ret error]. cbn [fst snd].
  destruct (ret =? -1); [done|]. by destruct (error =? 0).
Qed.

(** Connecting a registered socket the program left blocking reports what the system
    does: the answer of the original call unless it is still in progress; then -1 and
    ETIMEDOUT when the timer ran during the wait, and otherwise what SO_ERROR says, with no
    timer left armed.  When the event cannot be added there is no wait, and a connection
    still in progress, whose SO_ERROR is zero, is reported as established. *)
Theorem connect_result {K} `{Kernel K} (w : World K) fd c connect_f add_ret expired getsockopt_f ms :
  0 <= fd -> ctx_at w fd = Some c ->
  m_isSocket c = true -> m_isClosed c = false -> m_userNonblock c = false ->
  exists n log w', connect_with_timeout true connect_f add_ret expired getsockopt_f fd ms w =
    (Ok (n, log), w') /\ same_table w w' /\ armed log = 0 /\
    if (fst connect_f =? -1) && (snd connect_f =? EINPROGRESS) then
      if (fst add_ret =? 0) && negb (ms =? no_timeout) && expired then n = -1 /\ errno w' = ETIMEDOUT
      else
        (n = 0 <-> fst getsockopt_f <> -1 /\ snd getsockopt_f = 0) /\ (n = 0 \/ n = -1) /\
        (fst add_ret <> 0 -> Yield ∉ log)
    else n = fst connect_f /\ log = [Call].
Proof.
  intros Hfd Hc Hs Hcl Hu.
  destruct ((fst connect_f =? -1) && (snd connect_f =? EINPROGRESS)) eqn:E.
  - apply andb_true_iff in E as [E1%Z.eqb_eq E2%Z.eqb_eq].
    destruct (connect_unfold w fd c connect_f add_ret expired getsockopt_f ms)
      as (w1 & [Hd Hk] & He & Hrun); [done..|]. rewrite Hrun. cbv zeta.
    set (w2 := if fst add_ret =? -1 then _ else w1).
    assert (Hw2 : same_table w w2) by (unfold w2; destruct (fst add_ret =? -1); by split).
    set (log := ([Call] ++ _ ++ _) ++ _ ++ _).
    assert (Harm : armed log = 0).
    { unfold log. rewrite !armed_app. destruct (negb _), (fst add_ret =? 0); done. }
    assert (Hyield : fst add_ret <> 0 -> Yield ∉ log).
    { intros Hne. unfold log. destruct (Z.eqb_spec (fst add_ret) 0); [done|].
      destruct (negb (ms =? no_timeout)); set_solver. }
    destruct ((fst add_ret =? 0) && negb (ms =? no_timeout) && expired); [by do 3 eexists|].
    destruct (Z.eqb_spec (fst getsockopt_f) (-1)); [|destruct (Z.eqb_spec (snd getsockopt_f) 0)];
      do 3 eexists; (split; [reflexivity|]); (split; [done|]); (split; [done|]);
      (split; [intuition lia|split; [lia|done]]).
  - unfold connect_with_timeout. cbn [negb].
    rewrite (bind_ok _ _ _ _ _ (get_existing w fd c false Hfd Hc)).
    unfold isClose, isSocket, getUserNonblock. rewrite Hcl, Hs, Hu. cbn [negb].
    rewrite (bind_ok _ _ _ _ _ (sys_errno_run _ w)).
    set (w1 := if fst connect_f =? -1 then _ else w).
    assert (Hw1 : same_table w w1) by (unfold w1; destruct (fst connect_f =? -1); by split).
    rewrite (bind_ok get _ w1 w1 w1) by done.
    destruct (Z.eqb_spec (fst connect_f) 0) as [->|]; [by do 3 eexists|].
    assert (Hstop : negb (fst connect_f =? -1) || negb (errno w1 =? EINPROGRESS) = true).
    { unfold w1. destruct (fst connect_f =? -1); [|done]. simpl in *. by rewrite E. }
    rewrite Hstop. by do 3 eexists.
Qed.

Lemma connect_result_witness :
  exists w', connect_with_timeout true (-1, EINPROGRESS) (0, 0) true (0, 0) 70 5000 one_socket =
    (Ok (-1, [Call; AddTimer 5000; AddEvent WRITE; Yield; CancelTimer]), w') /\ errno w' = ETIMEDOUT.
Proof.
  destruct (connect_result one_socket 70 (mkFdCtx true true true false false 70 no_timeout no_timeout)
    (-1, EINPROGRESS) (0, 0) true (0, 0) 5000) as (n & log & w' & Hrun & _ & _ & Hn);
    [lia|reflexivity..|].
  exists w'. destruct Hn as [-> He]. split; [|exact He]. rewrite Hrun.
  vm_compute in Hrun. by injection Hrun as <- <-.
Defined.

(** Setting a receive or send timeout on a registered socket stores it, in milliseconds,
    for the calls of that direction on that descriptor and nothing else; a zero timeout, by
    which the system means none, is stored as a timer of zero milliseconds, so a call that
    has to wait then times out. *)
Theorem socket_timeouts {K} `{Kernel K} (w : World K) f fd c opt tv_sec tv_usec :
  0 <= fd -> ctx_at w fd = Some c -> opt = SO_RCVTIMEO \/ opt = SO_SNDTIMEO ->
  0 <= tv_sec < 2 ^ 53 -> 0 <= tv_usec < 1000000 ->
  exists c' w', setsockopt true f fd SOL_SOCKET opt tv_sec tv_usec w = (Ok (fst (f (kern w))), w') /\
    kern w' = snd (f (kern w)) /\
    (forall d, 0 <= d -> ctx_at w' d = if d =? fd then Some c' else ctx_at w d) /\
    getTimeout opt c' = tv_sec * 1000 + tv_usec / 1000 /\
    (forall opt', opt' = SO_RCVTIMEO \/ opt' = SO_SNDTIMEO -> opt' <> opt -> getTimeout opt' c' = getTimeout opt' c) /\
    (tv_sec = 0 -> tv_usec = 0 -> m_isSocket c = true -> m_isClosed c = false -> m_userNonblock c = false ->
     forall e event fuel, fun_ret e 0%nat = (-1, EAGAIN) -> fst (add_ret e 0%nat) = 0 ->
       expired e 0%nat = true ->
       exists w2, do_io true (S fuel) e fd event opt w' =
         (Ok (-1, [Call; AddTimer 0; AddEvent event; Yield; CancelTimer]), w2) /\ errno w2 = ETIMEDOUT).
Proof.
  intros Hfd Hc Hopt Hs Hu.
  set (ms := u64 (tv_sec * 1000 + Z.quot tv_usec 1000)).
  assert (Hms : ms = tv_sec * 1000 + tv_usec / 1000).
  { unfold ms. rewrite Z.quot_div_nonneg by lia. apply wrap_small. unfold unsigned_range. zdiv. }
  destruct (update_ctx_ok w fd c (setTimeout opt ms) Hfd Hc) as [Hup Hlt].
  set (w1 := set_datas (<[Z.to_nat fd := Some (setTimeout opt ms c)]> (m_datas w)) w) in *.
  assert (Hrun : setsockopt true f fd SOL_SOCKET opt tv_sec tv_usec w =
                 (Ok (fst (f (kern w))), set_kern (snd (f (kern w))) w1)).
  { unfold setsockopt. cbn [negb].
    assert (Hcond : (SOL_SOCKET =? SOL_SOCKET) && ((opt =? SO_RCVTIMEO) || (opt =? SO_SNDTIMEO)) = true)
      by (by destruct Hopt as [-> | ->]).
    rewrite Hcond, (bind_ok _ _ w tt w1); [etransitivity; [exact (sys_run f w1)|done]|].
    by rewrite (bind_ok _ _ _ _ _ (get_existing w fd c false Hfd Hc)). }
  assert (Hat : forall d, 0 <= d -> ctx_at (set_kern (snd (f (kern w))) w1) d =
                  if d =? fd then Some (setTimeout opt ms c) else ctx_at w d).
  { intros d Hd. exact (ctx_at_insert w fd d (Some (setTimeout opt ms c)) Hlt Hd). }
  assert (Hget : getTimeout opt (setTimeout opt ms c) = ms) by (by destruct Hopt as [-> | ->]).
  exists (setTimeout opt ms c), (set_kern (snd (f (kern w))) w1). split_and!; [done|done|done|by rewrite Hget| |].
  - intros opt' [-> | ->] Hne; by destruct Hopt as [-> | ->].
  - intros -> -> Hso Hcl Hun e event fuel H1 H2 H3.
    assert (Hc' : ctx_at (set_kern (snd (f (kern w))) w1) fd = Some (setTimeout opt ms c))
      by (rewrite Hat by done; by rewrite Z.eqb_refl).
    unfold do_io. cbn [negb]. rewrite (bind_ok _ _ _ _ _ (get_existing _ fd _ false Hfd Hc')).
    assert (Hfl : isClose (setTimeout opt ms c) = false /\ isSocket (setTimeout opt ms c) = true /\
                  getUserNonblock (setTimeout opt ms c) = false).
    { unfold isClose, isSocket, getUserNonblock. by destruct Hopt as [-> | ->]. }
    destruct Hfl as (-> & -> & ->). cbn [negb orb]. rewrite Hget, Hms. cbn [io_loop].
    rewrite (bind_ok _ _ _ _ _ (sys_errno_run _ _)), H1. cbn [fst snd Z.eqb Pos.eqb].
    rewrite (bind_ok get _ _ _ (set_errno EAGAIN (set_kern (snd (f (kern w))) w1))) by done.
    cbn [errno set_errno Z.eqb Pos.eqb andb EAGAIN EINTR].
    rewrite (bind_ok _ _ _ _ _ (sys_errno_run _ _)), H2, H3. cbn [Z.eqb negb andb].
    eexists. split; [reflexivity|done].
Qed.

Lemma socket_timeouts_witness :
  exists c' w', setsockopt true (fun k => (0, k)) 70 SOL_SOCKET SO_RCVTIMEO 2 500000 one_socket = (Ok 0, w') /\
    ctx_at w' 70 = Some c' /\ getTimeout SO_RCVTIMEO c' = 2500.
Proof.
  destruct (socket_timeouts one_socket (fun k => (0, k)) 70
    (mkFdCtx true true true false false 70 no_timeout no_timeout) SO_RCVTIMEO 2 500000)
    as (c' & w' & H1 & _ & H2 & H3 & _); [lia|reflexivity|by left|lia|lia|].
  exists c', w'. split; [exact H1|]. split; [apply (H2 70); lia|exact H3].
Defined.

(** The hooked sleeps set a timer of the time asked, in milliseconds: exactly for
    [usleep]; for [sleep] below 4294968 seconds, from which the 32-bit product wraps around;
    and for [nanosleep] below 2^31 milliseconds, from which the [int] is negative and the
    timer is set more than five hundred million years ahead. *)
Theorem sleep_durations original seconds usec tv_sec tv_nsec :
  0 <= seconds < 2 ^ 32 -> 0 <= usec < 2 ^ 32 -> 0 <= tv_sec -> 0 <= tv_nsec < 1000000000 ->
  sleep true original seconds = (0, [AddTimer (if seconds <? 4294968 then seconds * 1000
                                               else (seconds * 1000) mod 2 ^ 32); Yield]) /\
  usleep true original usec = (0, [AddTimer (usec / 1000); Yield]) /\
  (let ms := tv_sec * 1000 + tv_nsec / 1000000 in
   (ms < 2 ^ 31 -> nanosleep true original tv_sec tv_nsec = (0, [AddTimer ms; Yield])) /\
   (2 ^ 31 <= ms < 2 ^ 32 -> nanosleep true original tv_sec tv_nsec =
      (0, [AddTimer (2 ^ 64 - 2 ^ 32 + ms); Yield]))).
Proof.
  intros Hs Hu Hsec Hns. unfold sleep, usleep, nanosleep, sleeping. cbn [negb]. split; [|split].
  - do 3 f_equal. unfold sleep_ms, wrap. destruct (Z.ltb_spec seconds 4294968); [|done].
    apply Z.mod_small. lia.
  - done.
  - set (ms := tv_sec * 1000 + tv_nsec / 1000000). cbv zeta. unfold nanosleep_ms.
    assert (Hq : tv_sec * 1000 + Z.quot (Z.quot tv_nsec 1000) 1000 = ms).
    { unfold ms. rewrite !Z.quot_div_nonneg by (try apply Z.quot_pos; lia).
      by rewrite Z.div_div by lia. }
    assert (0 <= ms) by (unfold ms; zdiv).
    rewrite Hq. split; intros Hms; do 3 f_equal.
    + rewrite (swrap_small 32) by (unfold signed_range; lia). apply wrap_small. unfold unsigned_range. lia.
    + unfold swrap, wrap. change (2 ^ (32 - 1)) with (2 ^ 31). zdiv.
Qed.

Lemma sleep_durations_witness : sleep true 0 4294968 = (0, [AddTimer 704; Yield]).
Proof. rewrite (proj1 (sleep_durations 0 4294968 0 0 0 ltac:(lia) ltac:(lia) ltac:(lia) ltac:(lia))). reflexivity. Defined.
