(* ===== verification/Fiber.v ===== *)
(** * Fibers: src/src/fiber/fiber.cc

    What one thread sees: its fibers by address, the thread-local pointers and the
    counters.  [swapcontext] is the C library's: an operation that ends in one
    returns the fiber that gets control.  Allocation of stacks and the callbacks
    themselves are the environment's. *)

From S2P Require Import Prelude.
#[local] Set Default Goal Selector "!".

(** [Fiber::State]. *)
Inductive State := INIT | HOLD | EXEC | TERM | READY | EXCEPT.

#[export] Instance State_eq_dec : EqDecision State.
Proof. solve_decision. Defined.

Section Fiber.
(** The callables a fiber runs. *)
Context {F : Type}.

Record Fiber := mkFiber {
  m_id : Z;
  m_stack : bool;                    (** whether it owns a stack *)
  m_state : State;
  m_cb : option F;
  m_runInScheduler : option bool     (** [None]: not initialised *)
}.

Record Thread := mkThread {
  fibers : gmap nat Fiber;
  t_fiber : option nat;
  t_threadFiber : option nat;
  t_schedulerFiber : option nat;
  FiberId : Z;
  FiberCount : Z
}.

Abbreviation TH := (M Thread).

Definition set_fibers (h : gmap nat Fiber) (s : Thread) : Thread :=
  mkThread h (t_fiber s) (t_threadFiber s) (t_schedulerFiber s) (FiberId s) (FiberCount s).

Definition SetThis (f : option nat) : TH unit :=
  modify (fun s => mkThread (fibers s) f (t_threadFiber s) (t_schedulerFiber s) (FiberId s) (FiberCount s)).

Definition set_threadFiber (f : option nat) : TH unit :=
  modify (fun s => mkThread (fibers s) (t_fiber s) f (t_schedulerFiber s) (FiberId s) (FiberCount s)).

Definition set_schedulerFiber (f : option nat) : TH unit :=
  modify (fun s => mkThread (fibers s) (t_fiber s) (t_threadFiber s) f (FiberId s) (FiberCount s)).

Definition count (id n : Z) : TH unit :=
  modify (fun s => mkThread (fibers s) (t_fiber s) (t_threadFiber s) (t_schedulerFiber s)
                     (u64 (FiberId s + id)) (u64 (FiberCount s + n))).

Definition fiber_at (f : nat) : TH Fiber :=
  s ← get; match fibers s !! f with Some x => mret x | None => crashed NullDeref end.

Definition put_fiber (f : nat) (x : Fiber) : TH unit :=
  modify (fun s => set_fibers (<[f := x]> (fibers s)) s).

Definition set_state (st : State) (x : Fiber) : Fiber :=
  mkFiber (m_id x) (m_stack x) st (m_cb x) (m_runInScheduler x).

(** [p]: the address [new] returns. *)
Definition new_main (p : nat) : TH nat :=
  SetThis (Some p) ;;
  count 1 0 ;;
  s ← get;
  put_fiber p (mkFiber (FiberId s) false EXEC None None) ;;
  count 0 1 ;;
  mret p.

(** The member initialisers leave the state at its default, [READY]. *)
Definition new_Fiber (p : nat) (cb : option F) (runInScheduler : bool) : TH nat :=
  count 1 1 ;;
  s ← get;
  put_fiber p (mkFiber (FiberId s) true READY cb (Some runInScheduler)) ;;
  mret p.

Definition ended (st : State) : bool :=
  match st with TERM | EXCEPT | INIT => true | _ => false end.

(** [~Fiber], when the last [shared_ptr] goes. *)
Definition destroy (f : nat) : TH unit :=
  count 0 (-1) ;;
  x ← fiber_at f;
  (if m_stack x then assert (ended (m_state x))
   else
     assert (bool_decide (m_cb x = None)) ;;
     assert (bool_decide (m_state x = EXEC)) ;;
     s ← get;
     when (bool_decide (t_fiber s = Some f)) (SetThis None)) ;;
  modify (fun s => set_fibers (delete f (fibers s)) s).

Definition reset (f : nat) (cb : option F) : TH unit :=
  x ← fiber_at f;
  assert (m_stack x) ;;
  assert (ended (m_state x)) ;;
  put_fiber f (mkFiber (m_id x) (m_stack x) INIT cb (m_runInScheduler x)).

(** The fiber whose context a switch of [x] uses on the other side. *)
Definition other_side (x : Fiber) : TH nat :=
  s ← get;
  match m_runInScheduler x with
  | None => crashed Undefined
  | Some true => match t_schedulerFiber s with Some m => mret m | None => crashed NullDeref end
  | Some false => match t_threadFiber s with Some m => mret m | None => crashed NullDeref end
  end.

(** The result: where the caller's context is saved, and who gets control. *)
Definition swapIn (f : nat) : TH (nat * nat) :=
  SetThis (Some f) ;;
  x ← fiber_at f;
  assert (negb (bool_decide (m_state x = EXEC))) ;;
  put_fiber f (set_state EXEC x) ;;
  m ← other_side x;
  mret (m, f).

Definition swapOut (f : nat) : TH (nat * nat) :=
  x ← fiber_at f;
  assert (bool_decide (m_state x = EXEC) || bool_decide (m_state x = TERM)) ;;
  s ← get;
  SetThis (t_schedulerFiber s) ;;
  when (negb (bool_decide (m_state x = TERM))) (put_fiber f (set_state READY x)) ;;
  m ← other_side x;
  mret (f, m).

(** [p]: the address of the main fiber, when there is none yet. *)
Definition GetThis (p : nat) : TH nat :=
  s ← get;
  match t_fiber s with
  | Some f => mret f
  | None => f ← new_main p; set_threadFiber (Some f) ;; mret f
  end.

Definition YieldToReady (p : nat) : TH (nat * nat) :=
  cur ← GetThis p;
  x ← fiber_at cur;
  assert (bool_decide (m_state x = EXEC)) ;;
  swapOut cur.

Definition YieldToHold (p : nat) : TH (nat * nat) :=
  cur ← GetThis p;
  x ← fiber_at cur;
  assert (bool_decide (m_state x = EXEC)) ;;
  put_fiber cur (set_state HOLD x) ;;
  swapOut cur.

Definition TotalFibers (s : Thread) : Z := FiberCount s.

Definition GetFiberId : TH Z :=
  s ← get;
  match t_fiber s with Some f => x ← fiber_at f; mret (m_id x) | None => mret 0 end.

(** The end of [MainFunc], once the callback has returned or thrown. *)
Definition MainFunc (p : nat) (thrown : bool) : TH (nat * nat) :=
  cur ← GetThis p;
  x ← fiber_at cur;
  put_fiber cur (if thrown then set_state EXCEPT x
                 else mkFiber (m_id x) (m_stack x) TERM None (m_runInScheduler x)) ;;
  swapOut cur.
End Fiber.
Arguments Fiber : clear implicits.
Arguments Thread : clear implicits.
