(* ===== verification/Scheduler.v ===== *)
(** * The scheduler: src/src/fiber/scheduler.{h,cc}

    The task list and the counters, the operations under the mutex, and the loop of
    [run] as steps that the threads interleave: taking a task, finishing it, going
    idle, coming back, leaving the loop; with what [start] and [stop] do to them. *)

From S2P Require Import Prelude Fiber.
#[local] Set Default Goal Selector "!".

Section Scheduler.
Context {F : Type}.

(** [ScheduleTask]; a fiber is its address. *)
Record ScheduleTask := mkTask {
  task_fiber : option nat;
  task_cb : option F;
  task_thread : Z
}.

(** A thread is its id; [m_threads] are the threads [start] made.  What pthread calls them, in
    [m_threadIds], are other numbers. *)
Record Scheduler := mkScheduler {
  m_name : str;
  m_threads : list Z;
  m_tasks : list ScheduleTask;
  m_threadIds : list Z;
  m_threadCount : nat;
  m_activeThreadCount : Z;
  m_idleThreadCount : Z;
  m_useCaller : bool;
  m_rootFiber : option nat;
  m_rootThread : Z;
  m_stopping : bool;
  tickles : nat                     (** calls of [tickle] so far *)
}.

Definition set_tasks (l : list ScheduleTask) (s : Scheduler) : Scheduler :=
  mkScheduler (m_name s) (m_threads s) l (m_threadIds s) (m_threadCount s) (m_activeThreadCount s)
    (m_idleThreadCount s) (m_useCaller s) (m_rootFiber s) (m_rootThread s) (m_stopping s) (tickles s).
Definition add_active (d : Z) (s : Scheduler) : Scheduler :=
  mkScheduler (m_name s) (m_threads s) (m_tasks s) (m_threadIds s) (m_threadCount s) (u64 (m_activeThreadCount s + d))
    (m_idleThreadCount s) (m_useCaller s) (m_rootFiber s) (m_rootThread s) (m_stopping s) (tickles s).
Definition add_idle (d : Z) (s : Scheduler) : Scheduler :=
  mkScheduler (m_name s) (m_threads s) (m_tasks s) (m_threadIds s) (m_threadCount s) (m_activeThreadCount s)
    (u64 (m_idleThreadCount s + d)) (m_useCaller s) (m_rootFiber s) (m_rootThread s) (m_stopping s) (tickles s).
Definition set_threads (l ids : list Z) (s : Scheduler) : Scheduler :=
  mkScheduler (m_name s) l (m_tasks s) ids (m_threadCount s) (m_activeThreadCount s) (m_idleThreadCount s)
    (m_useCaller s) (m_rootFiber s) (m_rootThread s) (m_stopping s) (tickles s).
Definition set_stopping (s : Scheduler) : Scheduler :=
  mkScheduler (m_name s) (m_threads s) (m_tasks s) (m_threadIds s) (m_threadCount s) (m_activeThreadCount s)
    (m_idleThreadCount s) (m_useCaller s) (m_rootFiber s) (m_rootThread s) true (tickles s).
Definition add_tickles (n : nat) (s : Scheduler) : Scheduler :=
  mkScheduler (m_name s) (m_threads s) (m_tasks s) (m_threadIds s) (m_threadCount s) (m_activeThreadCount s)
    (m_idleThreadCount s) (m_useCaller s) (m_rootFiber s) (m_rootThread s) (m_stopping s) (tickles s + n)%nat.

(** What a thread keeps: its fibers, and [t_scheduler], the address of its scheduler. *)
Abbreviation Local := (Thread F * option nat)%type.
Definition on_thread {A} (m : M (Thread F) A) : M Local A :=
  fun s => let '(r, th) := m (fst s) in (r, (th, snd s)).
Definition GetThis_scheduler : M Local (option nat) := s ← get; mret (snd s).
Definition setThis (self : option nat) : M Local unit := modify (fun s => (fst s, self)).
Definition GetMainFiber : M Local (option nat) := s ← get; mret (t_schedulerFiber (fst s)).

(** The constructor, in the thread [tid]: [self] is the address of the scheduler, [p] and [q]
    those of fibers it may make, [run] the member function bound to it. *)
Definition new_Scheduler (run : F) (self p q : nat) (tid : Z) (threads : nat) (useCaller : bool) (name : str)
    : M Local Scheduler :=
  assert (0 <? threads)%nat ;;
  if useCaller then
    on_thread (Fiber.GetThis p) ;;
    this ← GetThis_scheduler;
    assert (bool_decide (this = None)) ;;
    setThis (Some self) ;;
    f ← on_thread (new_Fiber q (Some run) false);
    on_thread (set_schedulerFiber (Some f)) ;;
    mret (mkScheduler name [] [] [tid] (threads - 1) 0 0 true (Some f) tid false 0)
  else mret (mkScheduler name [] [] [] threads 0 0 false None (-1) false 0).

(** The destructor. *)
Definition destroy_Scheduler (self : nat) (s : Scheduler) : M Local unit :=
  assert (m_stopping s) ;;
  this ← GetThis_scheduler;
  when (bool_decide (this = Some self)) (setThis None).

(** [start]: [tids] are the ids of the threads it makes, [ids] what pthread calls them. *)
Definition start (tids ids : list Z) : M Scheduler unit :=
  s ← get;
  if m_stopping s then mret tt else
  assert (bool_decide (m_threads s = [])) ;;
  modify (set_threads tids (m_threadIds s ++ ids)).

(** The start of [run] in the thread [tid]: the result is the idle fiber. *)
Definition enter_run (idle : F) (self p q : nat) (tid : Z) (s : Scheduler) : M Local nat :=
  setThis (Some self) ;;
  (if negb (tid =? m_rootThread s)
   then f ← on_thread (Fiber.GetThis p); on_thread (set_schedulerFiber (Some f))
   else mret tt) ;;
  on_thread (new_Fiber q (Some idle) true).

Definition hasIdleThreads (s : Scheduler) : bool := 0 <? m_idleThreadCount s.

Definition runnable (t : ScheduleTask) : bool :=
  match task_fiber t, task_cb t with None, None => false | _, _ => true end.

(** [scheduleNoLock]: whether the list was empty; a task with nothing to run is dropped. *)
Definition scheduleNoLock (t : ScheduleTask) (s : Scheduler) : bool * Scheduler :=
  (bool_decide (m_tasks s = []),
   if runnable t then set_tasks (m_tasks s ++ [t]) s else s).

Definition schedule (t : ScheduleTask) (s : Scheduler) : Scheduler :=
  let '(needTickle, s) := scheduleNoLock t s in
  if needTickle then add_tickles 1 s else s.

(** The scan of [run] under the mutex: the task taken, the list left, [tickleMe];
    [state] gives the state of a fiber. *)
Fixpoint pick (tid : Z) (state : nat -> State) (before tasks : list ScheduleTask) (tickleMe : bool)
    : res (option ScheduleTask * list ScheduleTask * bool) :=
  match tasks with
  | [] => Ok (None, before, tickleMe)
  | t :: rest =>
      if negb (task_thread t =? -1) && negb (task_thread t =? tid)
      then pick tid state (before ++ [t]) rest true
      else if negb (runnable t) then Crash AssertFail
      else
        match task_fiber t with
        | Some f =>
            if bool_decide (state f = READY)
            then Ok (Some t, before ++ rest, tickleMe || negb (bool_decide (rest = [])))
            else Crash AssertFail
        | None => Ok (Some t, before ++ rest, tickleMe || negb (bool_decide (rest = [])))
        end
  end.

(** The first part of a turn of the loop: take a task, count it, tickle. *)
Definition fetch (tid : Z) (state : nat -> State) : M Scheduler (option ScheduleTask) :=
  s ← get;
  match pick tid state [] (m_tasks s) false with
  | Ok (t, rest, tickleMe) =>
      modify (set_tasks rest) ;;
      when (bool_decide (t <> None)) (modify (add_active 1)) ;;
      when tickleMe (modify (add_tickles 1)) ;;
      mret t
  | Throw e => throw e
  | Crash c => crashed c
  end.

Definition stopping (s : Scheduler) : bool :=
  m_stopping s && bool_decide (m_tasks s = []) && (m_activeThreadCount s =? 0).

(** [stop], up to the call of the root fiber and the joins; [this] is the scheduler of the
    calling thread. *)
Definition stop (self : nat) (this : option nat) : M Scheduler unit :=
  s ← get;
  if stopping s then mret tt else
  modify set_stopping ;;
  assert (if m_useCaller s then bool_decide (this = Some self) else negb (bool_decide (this = Some self))) ;;
  modify (add_tickles (m_threadCount s)) ;;
  when (bool_decide (is_Some (m_rootFiber s))) (modify (add_tickles 1)).

(** The end of [stop]: the threads to join. *)
Definition take_threads : M Scheduler (list Z) :=
  s ← get;
  modify (set_threads [] (m_threadIds s)) ;;
  mret (m_threads s).

(** ** The threads in [run]

    Where a thread is in the loop: at its head, with a task taken, in the fiber of the task,
    in the idle fiber, or out; [idleTerm] tells whether the idle fiber has ended.  The
    bodies of the tasks are not the scheduler's: what they do to it are calls of
    [schedule], and a fiber gives control back ready or terminated.  The fiber made for a
    callback belongs to the thread, which lets go of it when it gives control back; one that has not ended
    is not destroyed then, as [MainFunc] has a pointer to it on its own stack.  [idle] leaves its loop when it finds [stopping]. *)
Inductive pc :=
| Fetch (idleTerm : bool)
| Took (idleTerm : bool) (t : ScheduleTask)
| Running (idleTerm : bool) (t : ScheduleTask)
| Idling
| Exited.

Record Pool := mkPool {
  sched : Scheduler;
  pcs : gmap Z pc;                   (** the threads in [run] *)
  states : nat -> State;             (** of the fibers of tasks *)
  submitted : list ScheduleTask;     (** tasks accepted so far *)
  finished : list ScheduleTask       (** tasks whose turn has ended *)
}.

Definition set_fiber (t : ScheduleTask) (st : State) (g : nat -> State) : nat -> State :=
  match task_fiber t with
  | Some f => fun x => if decide (x = f) then st else g x
  | None => g
  end.

(** The assertion of [swapIn] for the fiber of a task. *)
Definition can_swapIn (t : ScheduleTask) (g : nat -> State) : bool :=
  match task_fiber t with Some f => negb (bool_decide (g f = EXEC)) | None => true end.

(** Threads entering [run]. *)
Definition launch (tids : list Z) (m : gmap Z pc) : gmap Z pc :=
  foldr (fun tid m => <[tid := Fetch false]> m) m tids.

(** The program's threads around a scheduler at [self]; [may] restricts which tasks are
    scheduled when.  [start], [stop], called once, and [schedule] before it come from outside; [stop] enters
    [run] in the root thread when there is one, and joins the others once that has left. *)
Inductive step (may : Pool -> ScheduleTask -> Prop) (self : nat) : Pool -> Pool -> Prop :=
| step_start p tids ids s' :
    m_stopping (sched p) = false -> start tids ids (sched p) = (Ok tt, s') ->
    length tids = m_threadCount (sched p) -> NoDup tids -> Forall (fun tid => pcs p !! tid = None) tids ->
    Z.of_nat (size (pcs p) + length tids) < 2 ^ 64 ->
    step may self p (mkPool s' (launch tids (pcs p)) (states p)
                       (submitted p) (finished p))
| step_submit p t :
    m_stopping (sched p) = false -> runnable t = true -> may p t ->
    step may self p (mkPool (schedule t (sched p)) (pcs p) (states p) (submitted p ++ [t]) (finished p))
| step_stop p this s' :
    m_stopping (sched p) = false -> stop self this (sched p) = (Ok tt, s') ->
    pcs p !! m_rootThread (sched p) = None -> Z.of_nat (size (pcs p) + 1) < 2 ^ 64 ->
    step may self p (mkPool s' (launch (if m_rootFiber (sched p) then [m_rootThread (sched p)] else []) (pcs p))
                       (states p) (submitted p) (finished p))
| step_join p :
    m_stopping (sched p) = true ->
    (is_Some (m_rootFiber (sched p)) -> pcs p !! m_rootThread (sched p) = Some Exited) ->
    step may self p (mkPool (snd (take_threads (sched p))) (pcs p) (states p) (submitted p) (finished p))
| step_take p tid b t s' :
    pcs p !! tid = Some (Fetch b) -> fetch tid (states p) (sched p) = (Ok (Some t), s') ->
    step may self p (mkPool s' (<[tid := Took b t]> (pcs p)) (states p) (submitted p) (finished p))
| step_swapIn p tid b t :
    pcs p !! tid = Some (Took b t) -> can_swapIn t (states p) = true ->
    step may self p (mkPool (sched p) (<[tid := Running b t]> (pcs p)) (set_fiber t EXEC (states p))
                       (submitted p) (finished p))
| step_schedule p tid b t t' :
    pcs p !! tid = Some (Running b t) -> runnable t' = true -> may p t' ->
    step may self p (mkPool (schedule t' (sched p)) (pcs p) (states p) (submitted p ++ [t']) (finished p))
| step_finish p tid b t st :
    pcs p !! tid = Some (Running b t) -> st = READY \/ st = TERM ->
    step may self p (mkPool (add_active (-1) (sched p)) (<[tid := Fetch b]> (pcs p)) (set_fiber t st (states p))
                       (submitted p) (finished p ++ [t]))
| step_idle p tid s' :
    pcs p !! tid = Some (Fetch false) -> fetch tid (states p) (sched p) = (Ok None, s') ->
    step may self p (mkPool (add_idle 1 s') (<[tid := Idling]> (pcs p)) (states p) (submitted p) (finished p))
| step_wake p tid :
    pcs p !! tid = Some Idling ->
    step may self p (mkPool (add_idle (-1) (sched p)) (<[tid := Fetch false]> (pcs p)) (states p) (submitted p)
                       (finished p))
| step_end p tid :
    pcs p !! tid = Some Idling -> stopping (sched p) = true ->
    step may self p (mkPool (add_idle (-1) (sched p)) (<[tid := Fetch true]> (pcs p)) (states p) (submitted p)
                       (finished p))
| step_exit p tid s' :
    pcs p !! tid = Some (Fetch true) -> fetch tid (states p) (sched p) = (Ok None, s') ->
    step may self p (mkPool s' (<[tid := Exited]> (pcs p)) (states p) (submitted p) (finished p)).

(** A thread at an assertion that does not hold: of the scan, or of [swapIn]. *)
Definition fails (p : Pool) : Prop :=
  (exists tid b c, pcs p !! tid = Some (Fetch b) /\ fst (fetch tid (states p) (sched p)) = Crash c) \/
  (exists tid b t, pcs p !! tid = Some (Took b t) /\ can_swapIn t (states p) = false).

(** A scheduler just made: new fibers are ready. *)
Definition new_pool (s : Scheduler) : Pool := mkPool s ∅ (fun _ => READY) [] [].
End Scheduler.
Arguments ScheduleTask : clear implicits.
Arguments Scheduler : clear implicits.
Arguments pc : clear implicits.
Arguments Pool : clear implicits.
