(* ===== verification/SchedulerTheorems.v ===== *)
(** * Fibers and the scheduler: the properties *)

From stdpp Require Import relations.
From S2P Require Import Prelude Fiber Scheduler.
#[local] Set Default Goal Selector "!".

(** ** The task list *)

Section tasks.
Context {F : Type}.
Implicit Types (t : ScheduleTask F) (l : list (ScheduleTask F)) (s : Scheduler F) (p : Pool F).

(** A task a thread may take. *)
Definition eligible (tid : Z) t : bool := (task_thread t =? -1) || (task_thread t =? tid).

(** A task that can be run: a callback, or a fiber that is ready. *)
Definition task_ok (state : nat -> State) t : Prop :=
  runnable t = true /\ match task_fiber t with Some f => state f = READY | None => True end.

Lemma not_eligible tid t : negb (task_thread t =? -1) && negb (task_thread t =? tid) = negb (eligible tid t).
Proof. unfold eligible. by rewrite negb_orb. Qed.

Lemma pick_skip tid state before pre rest b :
  Forall (fun t => eligible tid t = false) pre ->
  pick tid state before (pre ++ rest) b =
  pick tid state (before ++ pre) rest (b || negb (bool_decide (pre = []))).
Proof.
  intros Hpre. revert before b. induction Hpre as [|t pre Ht Hpre IH]; intros before b.
  { by rewrite app_nil_r, orb_false_r. }
  cbn [app pick]. rewrite not_eligible, Ht. cbn [negb]. rewrite IH, <- app_assoc. cbn [app]. f_equal.
  by rewrite orb_true_r.
Qed.

Lemma pick_here tid state before t rest b :
  eligible tid t = true -> task_ok state t ->
  pick tid state before (t :: rest) b = Ok (Some t, before ++ rest, b || negb (bool_decide (rest = []))).
Proof.
  intros He [Hr Hf]. cbn [pick]. rewrite not_eligible, He, Hr. cbn [negb].
  destruct (task_fiber t); [|done]. by rewrite bool_decide_true.
Qed.

(** Either no task is for this thread, or there is a first one. *)
Lemma first_eligible tid l :
  Forall (fun t => eligible tid t = false) l \/
  exists pre t post, l = pre ++ t :: post /\ Forall (fun t => eligible tid t = false) pre /\ eligible tid t = true.
Proof.
  induction l as [|t l IH]; [by left|]. destruct (eligible tid t) eqn:E; [right; by exists [], t, l|].
  destruct IH as [IH|(pre & t' & post & -> & Hp & Ht)]; [left; by constructor|].
  right. exists (t :: pre), t', post. split_and!; [done|by constructor|done].
Qed.

(** What taking a task does to the scheduler. *)
Definition took (o : option (ScheduleTask F)) (rest : list (ScheduleTask F)) (tick : bool) s : Scheduler F :=
  let s := set_tasks rest s in
  let s := if o is Some _ then add_active 1 s else s in
  if tick then add_tickles 1 s else s.

Lemma fetch_run tid state s o rest tick :
  pick tid state [] (m_tasks s) false = Ok (o, rest, tick) -> fetch tid state s = (Ok o, took o rest tick s).
Proof.
  intros H. unfold fetch. rewrite (bind_ok get _ s s s) by done. rewrite H. unfold took.
  by destruct o, tick.
Qed.

Lemma fetch_none tid state s :
  Forall (fun t => eligible tid t = false) (m_tasks s) ->
  fetch tid state s = (Ok None, took None (m_tasks s) (negb (bool_decide (m_tasks s = []))) s).
Proof.
  intros H. apply fetch_run. rewrite <- (app_nil_r (m_tasks s)) at 1. by rewrite pick_skip.
Qed.

Lemma fetch_some tid state s pre t post :
  m_tasks s = pre ++ t :: post -> Forall (fun t => eligible tid t = false) pre ->
  eligible tid t = true -> task_ok state t ->
  fetch tid state s = (Ok (Some t), took (Some t) (pre ++ post) (negb (bool_decide (pre ++ post = []))) s).
Proof.
  intros Hl Hpre He Hok. apply fetch_run. rewrite Hl, pick_skip, pick_here by done.
  do 2 f_equal. by destruct pre.
Qed.

(** What a successful [fetch] can be. *)
Lemma fetch_inv tid state s o s' :
  fetch tid state s = (Ok o, s') ->
  exists tick,
  match o with
  | None => Forall (fun t => eligible tid t = false) (m_tasks s) /\ s' = took None (m_tasks s) tick s
  | Some t => exists pre post, m_tasks s = pre ++ t :: post /\ (task_ok state t /\ eligible tid t = true) /\
      s' = took (Some t) (pre ++ post) tick s
  end.
Proof.
  destruct (first_eligible tid (m_tasks s)) as [H|(pre & t & post & Hl & Hpre & He)].
  { rewrite fetch_none by done. intros [= <- <-]. eexists. by split. }
  unfold fetch. rewrite (bind_ok get _ s s s) by done. rewrite Hl, pick_skip by done. cbn [pick].
  rewrite not_eligible, He. cbn [negb]. destruct (runnable t) eqn:Er; [|done]. cbn [negb].
  set (tick := _ || _). intros Hrun. exists tick.
  assert (H : task_ok state t /\ (Ok (Some t), took (Some t) (pre ++ post) tick s) = (Ok o, s')).
  { rewrite <- Hrun. unfold task_ok. destruct (task_fiber t) as [f|]; [case_bool_decide; [|done]|];
      (split; [done|]; unfold took; by destruct tick). }
  destruct H as [Hok [= <- <-]]. by exists pre, post.
Qed.
End tasks.

(** ** The threads *)

Section pool.
Context {F : Type}.
Implicit Types (t : ScheduleTask F) (p : Pool F) (m : gmap Z (pc F)).

Definition running_of (q : pc F) : list (ScheduleTask F) :=
  match q with Took _ t | Running _ t => [t] | _ => [] end.

(** The tasks being run. *)
Definition running m : list (ScheduleTask F) := map_to_list m ≫= (fun kv => running_of (snd kv)).

(** A thread whose idle fiber has ended. *)
Definition ended_pc (q : pc F) : bool := match q with Fetch b | Took b _ | Running b _ => b | Idling => false | Exited => true end.

Lemma running_insert m tid q : running (<[tid := q]> m) ≡ₚ running_of q ++ running (delete tid m).
Proof.
  unfold running. rewrite <- insert_delete_eq. rewrite map_to_list_insert by apply lookup_delete_eq. done.
Qed.

Lemma running_delete m tid q : m !! tid = Some q -> running m ≡ₚ running_of q ++ running (delete tid m).
Proof. intros Hq. rewrite <- running_insert. by rewrite insert_id. Qed.

Lemma running_overwrite m tid q q' :
  m !! tid = Some q ->
  exists l, running m ≡ₚ running_of q ++ l /\ running (<[tid := q']> m) ≡ₚ running_of q' ++ l.
Proof. intros Hq. exists (running (delete tid m)). split; [by apply running_delete|apply running_insert]. Qed.

Lemma elem_of_running m tid q t : m !! tid = Some q -> t ∈ running_of q -> t ∈ running m.
Proof. intros Hq Ht. rewrite (running_delete m tid q Hq). apply elem_of_app. by left. Qed.

Lemma length_running m : (length (running m) <= size m)%nat.
Proof.
  rewrite <- length_map_to_list. unfold running. induction (map_to_list m) as [|[k q] l IH]; [done|].
  cbn [mbind list_bind]. rewrite length_app. simpl. destruct q; simpl; lia.
Qed.

Lemma size_overwrite m tid q q' : m !! tid = Some q -> size (<[tid := q']> m) = size m.
Proof. intros Hq. rewrite map_size_insert. by rewrite Hq. Qed.

(** [conserved]: every task accepted is waiting, running or finished, once; the count of
    active threads is that of the running tasks; once a thread's idle fiber has ended,
    nothing is left to run. *)
Record pool_inv p : Prop := {
  pi_conserved : submitted p ≡ₚ finished p ++ running (pcs p) ++ m_tasks (sched p);
  pi_active : m_activeThreadCount (sched p) = Z.of_nat (length (running (pcs p)));
  pi_size : Z.of_nat (size (pcs p)) < 2 ^ 64;
  pi_ended tid q : pcs p !! tid = Some q -> ended_pc q = true -> stopping (sched p) = true
}.

Lemma took_fields (o : option (ScheduleTask F)) rest tick (s : Scheduler F) :
  m_tasks (took o rest tick s) = rest /\ m_stopping (took o rest tick s) = m_stopping s /\
  m_activeThreadCount (took o rest tick s) =
    (if o is Some _ then u64 (m_activeThreadCount s + 1) else m_activeThreadCount s) /\
  m_idleThreadCount (took o rest tick s) = m_idleThreadCount s.
Proof. unfold took. by destruct o, tick. Qed.

Lemma stopping_true (s : Scheduler F) :
  stopping s = true <-> m_stopping s = true /\ m_tasks s = [] /\ m_activeThreadCount s = 0.
Proof.
  unfold stopping. rewrite !andb_true_iff, bool_decide_eq_true, Z.eqb_eq. tauto.
Qed.

Lemma schedule_fields t (s : Scheduler F) :
  runnable t = true ->
  m_tasks (schedule t s) = m_tasks s ++ [t] /\ m_stopping (schedule t s) = m_stopping s /\
  m_activeThreadCount (schedule t s) = m_activeThreadCount s.
Proof. intros Ht. unfold schedule, scheduleNoLock. rewrite Ht. by destruct (bool_decide _). Qed.

(** What [start] and [stop] leave alone. *)
Definition same_tasks (s s' : Scheduler F) : Prop :=
  m_tasks s' = m_tasks s /\ m_activeThreadCount s' = m_activeThreadCount s /\ m_rootFiber s' = m_rootFiber s /\
  m_rootThread s' = m_rootThread s.

Lemma start_fields tids ids (s s' : Scheduler F) : start tids ids s = (Ok tt, s') -> same_tasks s s'.
Proof.
  unfold start. rewrite (bind_ok get _ s s s) by done. destruct (m_stopping s); [by intros [= <-]|].
  destruct (bool_decide _); by intros [= <-].
Qed.

Lemma stop_fields self this (s s' : Scheduler F) :
  m_stopping s = false -> stop self this s = (Ok tt, s') -> same_tasks s s' /\ m_stopping s' = true.
Proof.
  intros Hs. unfold stop. rewrite (bind_ok get _ s s s) by done.
  assert (stopping s = false) as -> by (unfold stopping; by rewrite Hs).
  rewrite (bind_ok (modify _) _ s tt (set_stopping s)) by done.
  destruct (if m_useCaller s then _ else _); [|discriminate]. rewrite (bind_ok (assert true) _ _ tt (set_stopping s)) by done.
  rewrite (bind_ok (modify _) _ _ tt (add_tickles (m_threadCount s) (set_stopping s))) by done.
  destruct (bool_decide _); by intros [= <-].
Qed.

(** A thread that is running a task keeps [stopping] false. *)
Lemma running_not_stopping p tid q :
  pool_inv p -> pcs p !! tid = Some q -> running_of q <> [] -> stopping (sched p) = false.
Proof.
  intros Hi Hq Hr. destruct (stopping (sched p)) eqn:E; [|done].
  apply stopping_true in E as (_ & _ & Ha). rewrite (pi_active p Hi) in Ha.
  destruct (running_overwrite (pcs p) tid _ Exited Hq) as (l & Hl & _).
  rewrite Hl in Ha. destruct q; try done; simpl in Ha; lia.
Qed.

(** A step that moves one thread: the tasks are only moved, the counter follows, and
    [stopping] is not undone. *)
Lemma overwrite_inv p tid q q' s' fin' g :
  pool_inv p -> pcs p !! tid = Some q ->
  fin' ++ running_of q' ++ m_tasks s' ≡ₚ finished p ++ running_of q ++ m_tasks (sched p) ->
  (forall n, 0 <= n -> n + Z.of_nat (length (running_of q')) < 2 ^ 64 ->
     m_activeThreadCount (sched p) = n + Z.of_nat (length (running_of q)) ->
     m_activeThreadCount s' = n + Z.of_nat (length (running_of q'))) ->
  (stopping (sched p) = true -> stopping s' = true) ->
  (ended_pc q' = true -> stopping s' = true) ->
  pool_inv (mkPool s' (<[tid := q']> (pcs p)) g (submitted p) fin').
Proof.
  intros [Hc Ha Hsz He] Hq Htasks Hact Hst Hend.
  destruct (running_overwrite (pcs p) tid q q' Hq) as (l & H1 & H2).
  pose proof (length_running (<[tid := q']> (pcs p))) as Hlen.
  rewrite (size_overwrite _ _ _ _ Hq), H2, length_app in Hlen.
  split; cbn [sched pcs submitted finished].
  - rewrite Hc, H1, H2. rewrite (Permutation_app_comm (running_of q) l), (Permutation_app_comm (running_of q') l).
    rewrite <- !app_assoc, (Permutation_app_swap_app fin'), (Permutation_app_swap_app (finished p)).
    by rewrite Htasks.
  - rewrite H2, length_app. rewrite (Hact (Z.of_nat (length l))); lia || idtac.
    rewrite Ha, H1, length_app. lia.
  - by rewrite (size_overwrite _ _ _ _ Hq).
  - intros d r. rewrite lookup_insert. destruct (decide (tid = d)); [by intros [= <-]|].
    intros Hd Hb. apply Hst. by apply (He d r).
Qed.

Lemma take_inv p tid b t pre post tick :
  pool_inv p -> pcs p !! tid = Some (Fetch b) -> m_tasks (sched p) = pre ++ t :: post ->
  pool_inv (mkPool (took (Some t) (pre ++ post) tick (sched p)) (<[tid := Took b t]> (pcs p)) (states p)
              (submitted p) (finished p)).
Proof.
  intros Hi Hq Hl. destruct (took_fields (Some t) (pre ++ post) tick (sched p)) as (F1 & F2 & F3 & _).
  assert (Hno : stopping (sched p) <> true).
  { intros (_ & H & _)%stopping_true. rewrite Hl in H. by destruct pre. }
  apply (overwrite_inv p tid (Fetch b)); try done.
  - rewrite F1, Hl. apply Permutation_app_head. cbn [running_of app]. apply Permutation_middle.
  - rewrite F3. cbn [running_of length]. intros n Hn Hlt ->. rewrite wrap_small; [lia|].
    unfold unsigned_range. lia.
  - intros Hb. destruct Hno. by apply (pi_ended p Hi tid (Fetch b)).
Qed.

Lemma finish_inv p tid b t g :
  pool_inv p -> pcs p !! tid = Some (Running b t) ->
  pool_inv (mkPool (add_active (-1) (sched p)) (<[tid := Fetch b]> (pcs p)) g (submitted p) (finished p ++ [t])).
Proof.
  intros Hi Hq. pose proof (running_not_stopping p tid (Running b t) Hi Hq ltac:(done)) as Hno.
  apply (overwrite_inv p tid (Running b t)); try done.
  - cbn [running_of app]. by rewrite <- app_assoc.
  - cbn [running_of length m_activeThreadCount add_active]. intros n Hn Hlt ->.
    rewrite wrap_small; [lia|]. unfold unsigned_range. lia.
  - congruence.
  - intros Hb. rewrite (pi_ended p Hi tid (Running b t) Hq Hb) in Hno. done.
Qed.

(** The steps that leave the tasks where they are. *)
Lemma quiet_inv p tid q q' s' g :
  pool_inv p -> pcs p !! tid = Some q -> running_of q' = running_of q ->
  m_tasks s' = m_tasks (sched p) -> m_activeThreadCount s' = m_activeThreadCount (sched p) ->
  m_stopping s' = m_stopping (sched p) -> (ended_pc q' = true -> stopping (sched p) = true) ->
  pool_inv (mkPool s' (<[tid := q']> (pcs p)) g (submitted p) (finished p)).
Proof.
  intros Hi Hq Hr Ht Ha Hs He.
  assert (Hst : stopping s' = stopping (sched p)) by (unfold stopping; by rewrite Ht, Ha, Hs).
  apply (overwrite_inv p tid q); try done; rewrite ?Hr, ?Ht, ?Ha, ?Hst; try done.
Qed.

(** A task more, while some thread may still take it. *)
Lemma schedule_inv p t g :
  pool_inv p -> runnable t = true -> stopping (sched p) = false ->
  pool_inv (mkPool (schedule t (sched p)) (pcs p) g (submitted p ++ [t]) (finished p)).
Proof.
  intros [Hc Ha Hsz He] Hr Hno. destruct (schedule_fields t (sched p) Hr) as (F1 & F2 & F3).
  split; cbn [sched pcs submitted finished]; rewrite ?F1, ?F3; [|done|done|].
  - rewrite Hc. by rewrite <- !app_assoc.
  - intros d q Hd Hb. rewrite (He d q Hd Hb) in Hno. done.
Qed.

Lemma not_stopping (s : Scheduler F) : m_stopping s = false -> stopping s = false.
Proof. intros Hs. unfold stopping. by rewrite Hs. Qed.

Lemma launch_lookup tids m tid q : launch tids m !! tid = Some q -> q = Fetch false \/ m !! tid = Some q.
Proof.
  induction tids as [|d tids IH]; [by right|]. cbn [launch foldr]. rewrite lookup_insert. case_decide; [left; congruence|done].
Qed.

Lemma launch_running tids m : Forall (fun tid => m !! tid = None) tids -> running (launch tids m) ≡ₚ running m.
Proof.
  induction 1 as [|tid tids Hn _ IH]; [done|]. cbn [launch foldr]. rewrite running_insert. cbn [running_of app].
  destruct (launch tids m !! tid) as [q|] eqn:E; [|by rewrite delete_id].
  rewrite (running_delete (launch tids m) tid q E) in IH. destruct (launch_lookup tids m tid q E) as [->|]; [exact IH|congruence].
Qed.

Lemma launch_size tids m : (size (launch tids m) <= size m + length tids)%nat.
Proof.
  induction tids as [|tid tids IH]; [simpl; lia|]. cbn [launch foldr length]. rewrite map_size_insert.
  change (foldr _ m tids) with (launch tids m). destruct (launch tids m !! tid); unfold id; lia.
Qed.

(** Threads entering [run]. *)
Lemma launch_inv p tids s' :
  pool_inv p -> m_stopping (sched p) = false -> same_tasks (sched p) s' ->
  Forall (fun tid => pcs p !! tid = None) tids -> Z.of_nat (size (pcs p) + length tids) < 2 ^ 64 ->
  pool_inv (mkPool s' (launch tids (pcs p)) (states p) (submitted p) (finished p)).
Proof.
  intros [Hc Ha Hsz He] Hs (F1 & F2 & _) Hn Hlt. pose proof (launch_size tids (pcs p)) as Hsize.
  assert (Hr : running (launch tids (pcs p)) ≡ₚ running (pcs p)) by by apply launch_running.
  split; cbn [sched pcs submitted finished]; rewrite ?F1, ?F2, ?Hr; [done|done|lia|].
  intros tid q [->|Hq]%launch_lookup Hb; [done|]. pose proof (He tid q Hq Hb) as H. by rewrite not_stopping in H.
Qed.

Lemma step_inv may self p p' : pool_inv p -> step may self p p' -> pool_inv p'.
Proof.
  intros Hi Hstep. destruct Hstep as [p tids ids s' Hs Hrun _ _ Hn Hlt|p t Hs Hr _|p this s' Hs Hrun Hn Hlt|p Hs Hr
    |p tid b t s' Hq Hf|p tid b t Hq _|p tid b t t' Hq Hr _|p tid b t st Hq _|p tid s' Hq Hf|p tid Hq|p tid Hq Hst|p tid s' Hq Hf].
  - apply launch_inv; try done. by eapply start_fields.
  - apply schedule_inv; try done. by apply not_stopping.
  - destruct (stop_fields _ _ _ _ Hs Hrun) as [Hsame _].
    apply launch_inv; try done; destruct (m_rootFiber (sched p)); try done; [by constructor|simpl; lia].
  - destruct Hi as [Hc Ha Hsz He]. by split.
  - apply fetch_inv in Hf as (tick & pre & post & Hl & _ & ->). by apply take_inv.
  - apply (quiet_inv p tid (Took b t)); try done. by apply (pi_ended p Hi tid (Took b t)).
  - apply schedule_inv; try done. by apply (running_not_stopping p tid (Running b t)).
  - by apply (finish_inv p tid b t).
  - apply fetch_inv in Hf as (tick & Hl & ->).
    destruct (took_fields None (m_tasks (sched p)) tick (sched p)) as (F1 & F2 & F3 & _).
    by apply (quiet_inv p tid (Fetch false)).
  - by apply (quiet_inv p tid Idling).
  - by apply (quiet_inv p tid Idling).
  - apply fetch_inv in Hf as (tick & Hl & ->).
    destruct (took_fields None (m_tasks (sched p)) tick (sched p)) as (F1 & F2 & F3 & _).
    apply (quiet_inv p tid (Fetch true)); try done. intros _. by apply (pi_ended p Hi tid (Fetch true)).
Qed.

(** The states a program can reach from a scheduler just made. *)
Definition pool_reachable (may : Pool F -> ScheduleTask F -> Prop) (self : nat) (s : Scheduler F) : Pool F -> Prop :=
  rtc (step may self) (new_pool s).

(** A scheduler some thread has made. *)
Definition made (self : nat) (s : Scheduler F) : Prop :=
  exists run main q tid threads useCaller name here here', new_Scheduler run self main q tid threads useCaller name here = (Ok s, here').

Definition fresh_scheduler (s : Scheduler F) : Prop :=
  m_tasks s = [] /\ m_activeThreadCount s = 0 /\ m_stopping s = false.

Lemma made_fresh self s : made self s -> fresh_scheduler s.
Proof.
  intros (run & main & q & tid & threads & useCaller & name & here & here' & H). unfold new_Scheduler in H.
  apply bind_inv in H as (? & ? & _ & H). destruct useCaller; [|by injection H as <- _].
  repeat (apply bind_inv in H as (? & ? & _ & H)). by injection H as <- _.
Qed.

Lemma new_pool_inv s : fresh_scheduler s -> pool_inv (new_pool s).
Proof.
  intros (Ht & Ha & Hs). split; cbn [new_pool sched pcs submitted finished]; rewrite ?Ht, ?Ha; try done.
Qed.

Lemma pool_reachable_inv may self s p : fresh_scheduler s -> pool_reachable may self s p -> pool_inv p.
Proof.
  intros Hs%new_pool_inv. unfold pool_reachable. revert Hs. generalize (new_pool s).
  induction 2 as [|p1 p2 p3 H _ IH]; [done|]. apply IH. by eapply step_inv.
Qed.
End pool.

(** ** The fibers of tasks *)

Section fibers.
Context {F : Type}.
Implicit Types (t : ScheduleTask F) (p : Pool F) (m : gmap Z (pc F)).

Definition fibers_of (l : list (ScheduleTask F)) : list nat := l ≫= (fun t => option_list (task_fiber t)).

#[local] Instance fibers_of_proper : Proper ((≡ₚ) ==> (≡ₚ)) fibers_of.
Proof. intros l l' Hl. unfold fibers_of. by rewrite Hl. Qed.

(** The fibers waiting or in a turn. *)
Definition held p : list nat := fibers_of (running (pcs p) ++ m_tasks (sched p)).

(** Scheduling a fiber only when it is ready, and neither waiting nor in a turn. *)
Definition careful p t : Prop :=
  match task_fiber t with Some f => states p f = READY /\ f ∉ held p | None => True end.

Lemma elem_of_fibers f l : f ∈ fibers_of l <-> exists t, t ∈ l /\ task_fiber t = Some f.
Proof.
  unfold fibers_of. rewrite list_elem_of_bind. split; intros (t & H1 & H2).
  - exists t. split; [done|]. destruct (task_fiber t); [|by apply elem_of_nil in H1].
    apply list_elem_of_singleton in H1. by subst.
  - exists t. split; [|done]. rewrite H2. by apply list_elem_of_singleton.
Qed.

Record fibers_inv p : Prop := {
  fi_nodup : NoDup (held p);
  fi_tasks t : t ∈ m_tasks (sched p) -> task_ok (states p) t;
  fi_took tid b t : pcs p !! tid = Some (Took b t) -> task_ok (states p) t
}.

Lemma task_ok_ext g g' t : (forall f, task_fiber t = Some f -> g' f = g f) -> task_ok g t -> task_ok g' t.
Proof. intros He [Hr Hf]. split; [done|]. destruct (task_fiber t) as [f|]; [|done]. by rewrite He. Qed.

Lemma set_fiber_other t st g f : task_fiber t <> Some f -> set_fiber t st g f = g f.
Proof. unfold set_fiber. intros Hn. destruct (task_fiber t); [|done]. case_decide; congruence. Qed.

(** A step that moves one thread: [k] are the tasks whose turn ends. *)
Lemma overwrite_fibers p tid q q' s' g sub fin k :
  fibers_inv p -> pcs p !! tid = Some q ->
  running_of q ++ m_tasks (sched p) ≡ₚ k ++ running_of q' ++ m_tasks s' ->
  m_tasks s' ⊆ m_tasks (sched p) ->
  (forall f, f ∈ fibers_of (running (delete tid (pcs p)) ++ m_tasks s') -> g f = states p f) ->
  (forall b t, q' = Took b t -> task_ok g t) ->
  fibers_inv (mkPool s' (<[tid := q']> (pcs p)) g sub fin).
Proof.
  intros [Hn Ht Hk] Hq Hperm Hsub Hg Htook. split; cbn [sched pcs states].
  - unfold held in *. cbn [sched pcs]. rewrite running_insert.
    rewrite (running_delete (pcs p) tid q Hq), <- app_assoc, (Permutation_app_swap_app (running_of q)) in Hn.
    rewrite Hperm in Hn. rewrite <- app_assoc, (Permutation_app_swap_app (running_of q')).
    unfold fibers_of in *. rewrite !bind_app in *. apply NoDup_app in Hn as (H1 & H2 & H3). apply NoDup_app in H3 as (_ & _ & H3).
    apply NoDup_app. split_and!; [done| |done]. intros f Hf Hf'. apply (H2 f Hf). apply elem_of_app. by right.
  - intros t Hin. apply (task_ok_ext (states p)); [|by apply Ht, Hsub]. intros f Hf. apply Hg, elem_of_fibers. exists t.
    split; [|done]. apply elem_of_app. by right.
  - intros d b t. rewrite lookup_insert. case_decide as Hd; [intros [= ->]; by apply (Htook b)|]. intros Hdq.
    apply (task_ok_ext (states p)); [|by apply (Hk d b)]. intros f Hf. apply Hg, elem_of_fibers. exists t.
    split; [|done]. apply elem_of_app. left. apply (elem_of_running _ d (Took b t)); [|by left]. by rewrite lookup_delete_ne.
Qed.

(** The fiber of a task in a turn is nobody else's. *)
Lemma turn_fiber p tid q t f :
  fibers_inv p -> pcs p !! tid = Some q -> running_of q = [t] -> task_fiber t = Some f ->
  f ∉ fibers_of (running (delete tid (pcs p)) ++ m_tasks (sched p)).
Proof.
  intros [Hn _ _] Hq Hr Hf. unfold held in Hn. rewrite (running_delete (pcs p) tid q Hq), Hr in Hn.
  cbn [app fibers_of mbind list_bind] in Hn. rewrite Hf in Hn. cbn [option_list app] in Hn. by apply NoDup_cons in Hn as [? _].
Qed.

Lemma set_fiber_rest p tid q t st :
  fibers_inv p -> pcs p !! tid = Some q -> running_of q = [t] ->
  forall f, f ∈ fibers_of (running (delete tid (pcs p)) ++ m_tasks (sched p)) -> set_fiber t st (states p) f = states p f.
Proof. intros Hi Hq Hr f Hin. apply set_fiber_other. intros Hf. by apply (turn_fiber p tid q t f Hi Hq Hr Hf). Qed.

Lemma schedule_fibers p t sub fin :
  fibers_inv p -> runnable t = true -> careful p t ->
  fibers_inv (mkPool (schedule t (sched p)) (pcs p) (states p) sub fin).
Proof.
  intros [Hn Ht Hk] Hr Hc. destruct (schedule_fields t (sched p) Hr) as (F1 & _).
  split; cbn [sched pcs states]; [| |done].
  - unfold held in *. cbn [sched pcs]. rewrite F1, app_assoc. unfold fibers_of in *. rewrite (bind_app _ _ [t]).
    apply NoDup_app. split_and!; [done| |]; unfold careful in Hc; cbn [mbind list_bind]; destruct (task_fiber t) as [f|]; try constructor.
    + intros x Hx Hin. cbn in Hin. apply list_elem_of_singleton in Hin as ->. by destruct Hc.
    + intros x _ Hin. by apply elem_of_nil in Hin.
    + intros Hin. by apply elem_of_nil in Hin.
    + constructor.
  - rewrite F1. intros t'. rewrite elem_of_app, list_elem_of_singleton. intros [Hin| ->]; [by apply Ht|]. split; [done|].
    unfold careful in Hc. destruct (task_fiber t); [by destruct Hc|done].
Qed.

Lemma launch_fibers p tids s' sub fin :
  fibers_inv p -> same_tasks (sched p) s' -> Forall (fun tid => pcs p !! tid = None) tids ->
  fibers_inv (mkPool s' (launch tids (pcs p)) (states p) sub fin).
Proof.
  intros [Hn Ht Hk] (F1 & _) Htids. split; cbn [sched pcs states]; rewrite ?F1; [|done|].
  - unfold held in *. cbn [sched pcs]. rewrite F1. unfold fibers_of in *. by rewrite (launch_running _ _ Htids).
  - intros tid b t [?|Hq]%launch_lookup; [done|]. by apply (Hk tid b).
Qed.

Lemma step_fibers self p p' : fibers_inv p -> step careful self p p' -> fibers_inv p'.
Proof.
  intros Hi Hstep. destruct Hstep as [p tids ids s' Hs Hrun _ _ Hn Hlt|p t Hs Hr Hc|p this s' Hs Hrun Hn Hlt|p Hs Hr
    |p tid b t s' Hq Hf|p tid b t Hq _|p tid b t t' Hq Hr Hc|p tid b t st Hq _|p tid s' Hq Hf|p tid Hq|p tid Hq Hst|p tid s' Hq Hf].
  - apply launch_fibers; try done. by eapply start_fields.
  - by apply schedule_fibers.
  - destruct (stop_fields _ _ _ _ Hs Hrun) as [Hsame _]. apply launch_fibers; try done.
    destruct (m_rootFiber (sched p)); [by constructor|done].
  - by destruct Hi as [H1 H2 H3]; split.
  - apply fetch_inv in Hf as (tick & pre & post & Hl & [Hok _] & ->).
    destruct (took_fields (Some t) (pre ++ post) tick (sched p)) as (F1 & _).
    apply (overwrite_fibers p tid (Fetch b) _ _ _ _ _ []); try done; rewrite ?F1, ?Hl.
    + cbn [running_of app]. symmetry. apply Permutation_middle.
    + intros x. rewrite !elem_of_app, elem_of_cons. tauto.
    + by intros ? ? [= <- <-].
  - apply (overwrite_fibers p tid (Took b t) _ _ _ _ _ []); try done. by eapply set_fiber_rest.
  - by apply schedule_fibers.
  - apply (overwrite_fibers p tid (Running b t) _ _ _ _ _ [t]); try done. by eapply set_fiber_rest.
  - apply fetch_inv in Hf as (tick & Hl & ->). destruct (took_fields None (m_tasks (sched p)) tick (sched p)) as (F1 & _).
    apply (overwrite_fibers p tid (Fetch false) _ _ _ _ _ []); try done; cbn [add_idle m_tasks]; by rewrite F1.
  - by apply (overwrite_fibers p tid Idling _ _ _ _ _ []).
  - by apply (overwrite_fibers p tid Idling _ _ _ _ _ []).
  - apply fetch_inv in Hf as (tick & Hl & ->). destruct (took_fields None (m_tasks (sched p)) tick (sched p)) as (F1 & _).
    apply (overwrite_fibers p tid (Fetch true) _ _ _ _ _ []); try done; by rewrite F1.
Qed.

Lemma new_pool_fibers (s : Scheduler F) : fresh_scheduler s -> fibers_inv (new_pool s).
Proof.
  intros (Ht & _ & _). split; cbn [new_pool sched pcs states].
  - unfold held. cbn [new_pool sched pcs]. rewrite Ht. constructor.
  - rewrite Ht. intros t Hin. by apply elem_of_nil in Hin.
  - done.
Qed.

Lemma reachable_fibers self (s : Scheduler F) p :
  fresh_scheduler s -> pool_reachable careful self s p -> fibers_inv p.
Proof.
  intros Hs%new_pool_fibers. unfold pool_reachable. revert Hs. generalize (new_pool s).
  induction 2 as [|p1 p2 p3 H _ IH]; [done|]. apply IH. by eapply step_fibers.
Qed.

Lemma fetch_ok p tid : fibers_inv p -> exists o s', fetch tid (states p) (sched p) = (Ok o, s') /\
  (o = None -> Forall (fun t => eligible tid t = false) (m_tasks (sched p))) /\
  forall t, o = Some t -> S (length (m_tasks s')) = length (m_tasks (sched p)) /\ m_tasks s' ⊆ m_tasks (sched p).
Proof.
  intros Hi. destruct (first_eligible tid (m_tasks (sched p))) as [H|(pre & t & post & Hl & Hpre & He)].
  - do 2 eexists. split; [by apply fetch_none|]. split; [done|]. by intros t [=].
  - exists (Some t), (took (Some t) (pre ++ post) (negb (bool_decide (pre ++ post = []))) (sched p)).
    split; [|split; [done|]].
    + apply (fetch_some tid (states p) (sched p) pre t post); try done. apply (fi_tasks p Hi). rewrite Hl. apply elem_of_app. right. by left.
    + intros t' _. destruct (took_fields (Some t) (pre ++ post) (negb (bool_decide (pre ++ post = []))) (sched p)) as (F1 & _).
      rewrite F1, Hl, !length_app. simpl. split; [lia|]. intros x. rewrite !elem_of_app, elem_of_cons. tauto.
Qed.

Lemma no_failure p : fibers_inv p -> ~ fails p.
Proof.
  intros Hi [(tid & b & c & Hq & Hf)|(tid & b & t & Hq & Hf)].
  - destruct (fetch_ok p tid Hi) as (o & s' & H & _). by rewrite H in Hf.
  - destruct (fi_took p Hi tid b t Hq) as [_ Hok]. unfold can_swapIn in Hf. destruct (task_fiber t) as [f|]; [|done].
    by rewrite Hok in Hf.
Qed.
End fibers.

(** ** Finishing

    What a thread, and a pool, still has to do at most. *)

Section finishing.
Context {F : Type}.
Implicit Types (t : ScheduleTask F) (p : Pool F) (m : gmap Z (pc F)).

Definition pc_work (q : pc F) : nat :=
  match q with Exited => 0 | Fetch true => 1 | Idling => 2 | Fetch false => 3 | Running _ _ => 4 | Took _ _ => 5 end.
Definition work_of m : nat := sum_list_with pc_work (map_to_list m).*2.
Definition pool_work p : nat := (work_of (pcs p) + 4 * length (m_tasks (sched p)))%nat.

Lemma work_insert m tid q q' :
  m !! tid = Some q -> (work_of (<[tid := q']> m) + pc_work q = work_of m + pc_work q')%nat.
Proof.
  intros Hq. assert (H : forall r, work_of (<[tid := r]> m) = (pc_work r + work_of (delete tid m))%nat).
  { intros r. unfold work_of. rewrite <- insert_delete_eq.
    by rewrite (map_to_list_insert (delete tid m) tid r (lookup_delete_eq _ _)). }
  rewrite H. rewrite <- (insert_id m tid q Hq) at 2. rewrite H. lia.
Qed.

(** Every waiting task has a thread that may take it. *)
Definition placed p : Prop :=
  forall t, t ∈ m_tasks (sched p) -> task_thread t = -1 \/ is_Some (pcs p !! task_thread t).

Record finishing p : Prop := {
  fp_pool : pool_inv p;
  fp_fibers : fibers_inv p;
  fp_stop : m_stopping (sched p) = true;
  fp_placed : placed p;
  fp_some : exists tid, is_Some (pcs p !! tid)
}.

Lemma moved_placed p s' tid q g sub fin :
  placed p -> m_tasks s' ⊆ m_tasks (sched p) -> (exists tid, is_Some (pcs p !! tid)) ->
  let p' := mkPool s' (<[tid := q]> (pcs p)) g sub fin in placed p' /\ exists tid, is_Some (pcs p' !! tid).
Proof.
  intros Hp Hsub _ p'. split.
  - intros t Hin. cbn [p' sched pcs] in *. destruct (Hp t (Hsub t Hin)) as [|[r Hr]]; [by left|right].
    rewrite lookup_insert. case_decide; by eexists.
  - exists tid. cbn [p' pcs]. rewrite lookup_insert_eq. by eexists.
Qed.

(** A thread that moves, by a step that keeps [m_stopping] and makes no task. *)
Lemma moved self p tid q s' g fin :
  finishing p -> step careful self p (mkPool s' (<[tid := q]> (pcs p)) g (submitted p) fin) ->
  m_stopping s' = true -> m_tasks s' ⊆ m_tasks (sched p) ->
  finishing (mkPool s' (<[tid := q]> (pcs p)) g (submitted p) fin).
Proof.
  intros [H1 H2 H3 H4 H5] Hstep Hs Hsub. destruct (moved_placed p s' tid q g (submitted p) fin H4 Hsub H5).
  split; try done; [by eapply step_inv|by eapply step_fibers].
Qed.

(** [p'] is nearer the end than [n], with the same tasks and threads. *)
Definition nearer self n p p' : Prop :=
  rtc (step careful self) p p' /\ finishing p' /\ (pool_work p' < n)%nat /\ submitted p' = submitted p /\
  dom (pcs p') = dom (pcs p).

Lemma moved_nearer self p tid q q' s' g fin n :
  finishing p -> pcs p !! tid = Some q -> step careful self p (mkPool s' (<[tid := q']> (pcs p)) g (submitted p) fin) ->
  m_stopping s' = true -> m_tasks s' ⊆ m_tasks (sched p) ->
  (work_of (pcs p) + pc_work q' + 4 * length (m_tasks s') < n + pc_work q)%nat ->
  nearer self n p (mkPool s' (<[tid := q']> (pcs p)) g (submitted p) fin).
Proof.
  intros Hf Hq Hstep Hs Hsub Hw. pose proof (work_insert (pcs p) tid q q' Hq). split; [by apply rtc_once|].
  split; [by apply (moved self)|]. split; [unfold pool_work; cbn [pcs sched]; lia|]. split; [done|].
  cbn [pcs]. apply dom_insert_lookup_L. by eexists.
Qed.

Lemma elem_of_running_inv m t : t ∈ running m -> exists tid q, m !! tid = Some q /\ t ∈ running_of q.
Proof.
  unfold running. rewrite list_elem_of_bind. intros ([tid q] & Ht & Hin). exists tid, q. by rewrite <- elem_of_map_to_list.
Qed.

(** A thread at the head of the loop with a task for it. *)
Lemma take_progress self p tid t :
  finishing p -> pcs p !! tid = Some (Fetch false) -> t ∈ m_tasks (sched p) -> eligible tid t = true ->
  exists p', nearer self (pool_work p - 1) p p'.
Proof.
  intros Hf Hq Hin He. destruct (fetch_ok p tid (fp_fibers p Hf)) as (o & s' & Hrun & Hnone & Hsome).
  destruct o as [t'|]; [|specialize (Hnone eq_refl); rewrite Forall_forall in Hnone; by rewrite Hnone in He].
  destruct (Hsome t' eq_refl) as [Hlen Hsub].
  assert (Hs : m_stopping s' = true).
  { apply fetch_inv in Hrun as (tick & pre & post & _ & _ & ->). rewrite <- (fp_stop p Hf).
    apply (took_fields (Some t') (pre ++ post) tick (sched p)). }
  eexists. apply (moved_nearer self p tid (Fetch false) (Took false t') s' (states p) (finished p)); try done; [by apply step_take|].
  unfold pool_work. simpl. lia.
Qed.

(** As long as a thread is in [run], some steps bring the end nearer. *)
Lemma progress self p tid q :
  finishing p -> pcs p !! tid = Some q -> q <> Exited -> exists p', nearer self (pool_work p) p p'.
Proof.
  intros Hf Hq Hne. pose proof (fp_pool p Hf) as Hi. pose proof (fp_stop p Hf) as Hs.
  assert (Hmove : forall d r r' s' g fin, pcs p !! d = Some r -> step careful self p (mkPool s' (<[d := r']> (pcs p)) g (submitted p) fin) ->
    m_stopping s' = true -> m_tasks s' = m_tasks (sched p) -> (pc_work r' < pc_work r)%nat -> exists p', nearer self (pool_work p) p p').
  { intros d r r' s' g fin Hd Hstep Hs' Ht Hw. eexists. apply (moved_nearer self p d r r' s' g fin); rewrite ?Ht; try done.
    unfold pool_work. lia. }
  destruct (running (pcs p)) as [|t l] eqn:Hr.
  2:{ destruct (elem_of_running_inv (pcs p) t) as (d & r & Hd & Hin); [rewrite Hr; by left|].
      destruct r as [b|b u|b u| |]; try by apply elem_of_nil in Hin.
      - apply (Hmove d _ (Running b u) (sched p) (set_fiber u EXEC (states p)) (finished p) Hd); [|done|done|simpl; lia].
        apply step_swapIn; [done|].
        destruct (can_swapIn u (states p)) eqn:Ec; [done|]. destruct (no_failure p (fp_fibers p Hf)). right. by exists d, b, u.
      - eapply (Hmove d _ (Fetch b) _ _ _ Hd (step_finish _ _ p d b u READY Hd ltac:(by left))); [done..|destruct b; simpl; lia]. }
  assert (Hidle : forall d r, pcs p !! d = Some r -> running_of r = []).
  { intros d r Hd. destruct (running_of r) as [|t l] eqn:E; [done|]. pose proof (elem_of_running (pcs p) d r t Hd) as H.
    rewrite E, Hr in H. specialize (H ltac:(by left)). by apply elem_of_nil in H. }
  destruct (m_tasks (sched p)) as [|t l] eqn:Hl.
  - assert (Hst : stopping (sched p) = true).
    { apply stopping_true. split_and!; [done|done|]. by rewrite (pi_active p Hi), Hr. }
    assert (Hfetch : fetch tid (states p) (sched p) = (Ok None, took None [] false (sched p))).
    { rewrite fetch_none by (rewrite Hl; constructor). by rewrite Hl, bool_decide_true. }
    destruct q as [[]|b u|b u| |]; try (by apply Hidle in Hq).
    + eapply (Hmove tid _ Exited _ _ _ Hq (step_exit _ _ p tid _ Hq Hfetch)); [done|done|simpl; lia].
    + eapply (Hmove tid _ Idling _ _ _ Hq (step_idle _ _ p tid _ Hq Hfetch)); [done|done|simpl; lia].
    + eapply (Hmove tid _ (Fetch true) _ _ _ Hq (step_end _ _ p tid Hq Hst)); [done|done|simpl; lia].
  - assert (Hin : t ∈ m_tasks (sched p)) by (rewrite Hl; by left).
    assert (Hd : exists d r, pcs p !! d = Some r /\ eligible d t = true).
    { destruct (fp_placed p Hf t Hin) as [E|[r Hr']].
      - exists tid, q. split; [done|]. unfold eligible. by rewrite E.
      - exists (task_thread t), r. split; [done|]. unfold eligible. by rewrite Z.eqb_refl, orb_true_r. }
    destruct Hd as (d & r & Hd & He).
    assert (Hend : ended_pc r = false).
    { destruct (ended_pc r) eqn:E; [|done]. pose proof (pi_ended p Hi d r Hd E) as (_ & H & _)%stopping_true. congruence. }
    destruct r as [b|b u|b u| |]; try (by apply Hidle in Hd); cbn [ended_pc] in Hend; subst.
    + destruct (take_progress self p d t Hf Hd Hin He) as (p' & H1 & H2 & H3 & H4). exists p'. split_and!; try done; [lia|apply H4..].
    + set (p1 := mkPool (add_idle (-1) (sched p)) (<[d := Fetch false]> (pcs p)) (states p) (submitted p) (finished p)).
      assert (H1 : nearer self (2 + pool_work p) p p1).
      { apply (moved_nearer self p d Idling); try done; [by apply step_wake|]. unfold pool_work. simpl. lia. }
      destruct H1 as (Hrun1 & Hf1 & Hw1 & _ & Hdom1).
      destruct (take_progress self p1 d t Hf1) as (p2 & Hrun2 & Hf2 & Hw2 & Hsub2 & Hdom2); [apply lookup_insert_eq|done|done|].
      exists p2. split_and!; [by etrans|done|lia|done|congruence].
Qed.

Lemma stopping_idle p : pool_inv p -> stopping (sched p) = true -> running (pcs p) = [].
Proof. intros Hi (_ & _ & H0)%stopping_true. apply nil_length_inv. rewrite (pi_active p Hi) in H0. lia. Qed.

(** They all leave, with every task finished. *)
Lemma finishes self p :
  finishing p -> exists p', rtc (step careful self) p p' /\ submitted p' = submitted p /\ submitted p' ≡ₚ finished p' /\
    dom (pcs p') = dom (pcs p) /\ map_Forall (fun _ q => q = Exited) (pcs p').
Proof.
  remember (pool_work p) as n eqn:Hn. revert p Hn. induction (lt_wf n) as [n _ IH]. intros p -> Hf.
  destruct (decide (map_Forall (fun _ q => ended_pc q = true /\ pc_work q = 0%nat) (pcs p))) as [Hall|Hnot].
  - exists p. split; [apply rtc_refl|]. split; [done|]. split; [|split; [done|]].
    + destruct (fp_some p Hf) as (tid & q & Hq). destruct (Hall tid q Hq) as [He _].
      pose proof (pi_ended p (fp_pool p Hf) tid q Hq He) as Hst. pose proof (stopping_idle p (fp_pool p Hf) Hst) as Hr.
      apply stopping_true in Hst as (_ & Ht & _). by rewrite (pi_conserved p (fp_pool p Hf)), Ht, Hr, !app_nil_r.
    + intros tid q Hq. destruct (Hall tid q Hq) as [_ Hw]. by destruct q as [[]| | | |].
  - apply (map_not_Forall _) in Hnot as (tid & q & Hq & Hne).
    destruct (progress self p tid q Hf Hq) as (p1 & H1 & H2 & H3 & H4 & H5); [intros ->; by apply Hne|].
    destruct (IH _ H3 p1 eq_refl H2) as (p2 & R1 & R2 & R3 & R4 & R5).
    exists p2. split; [by etrans|]. split; [congruence|]. split; [done|]. split; [congruence|done].
Qed.

(** ** A task no thread may take *)

Definition stuck t p : Prop :=
  m_stopping (sched p) = true /\ t ∈ m_tasks (sched p) /\ task_thread t <> -1 /\ pcs p !! task_thread t = None.

Lemma stuck_step self t p p' : stuck t p -> step careful self p p' -> stuck t p'.
Proof.
  intros (Hs & Hin & Hany & Hn) Hstep. unfold stuck.
  assert (Hother : forall tid q q', pcs p !! tid = Some q -> <[tid := q']> (pcs p) !! task_thread t = None).
  { intros tid q q' Hq. rewrite lookup_insert_ne; [done|congruence]. }
  destruct Hstep as [p tids ids s' Hs' _ _ _ _ _|p t' Hs' _ _|p this s' Hs' _ _ _|p _ _
    |p tid b t' s' Hq Hf|p tid b t' Hq _|p tid b t' u Hq Hr _|p tid b t' st Hq _|p tid s' Hq Hf|p tid Hq|p tid Hq _|p tid s' Hq Hf];
    try congruence; cbn [sched pcs]; try (split_and!; by eauto).
  - apply fetch_inv in Hf as (tick & pre & post & Hl & [_ He] & ->).
    destruct (took_fields (Some t') (pre ++ post) tick (sched p)) as (F1 & F2 & _). rewrite F1, F2.
    split_and!; [done| |done|by eauto]. rewrite Hl in Hin. apply elem_of_app in Hin as [Hin|[->|Hin]%elem_of_cons]; apply elem_of_app; auto.
    exfalso. unfold eligible in He. apply orb_prop in He as [He%Z.eqb_eq|He%Z.eqb_eq]; congruence.
  - destruct (schedule_fields u (sched p) Hr) as (F1 & F2 & _). rewrite F1, F2. split_and!; try done. apply elem_of_app. by left.
  - apply fetch_inv in Hf as (tick & _ & ->). destruct (took_fields None (m_tasks (sched p)) tick (sched p)) as (F1 & F2 & _).
    cbn [add_idle m_tasks m_stopping]. rewrite F1, F2. split_and!; by eauto.
  - apply fetch_inv in Hf as (tick & _ & ->). destruct (took_fields None (m_tasks (sched p)) tick (sched p)) as (F1 & F2 & _).
    rewrite F1, F2. split_and!; by eauto.
Qed.

Lemma stuck_rtc self t p p' : stuck t p -> rtc (step careful self) p p' -> stuck t p'.
Proof. intros Hs Hr. induction Hr as [|p1 p2 p3 Hstep _ IH]; [done|]. apply IH. by eapply stuck_step. Qed.
End finishing.

(** ** The properties *)

(** With runnable tasks in the list, a thread takes the first one that is for any thread
    or for itself, leaving the others in order and counting itself active, and none when
    all are pinned to other threads; it tickles the others exactly when tasks are left
    that it passed or did not reach. *)
Theorem fetch_takes_first {F} tid state (s : Scheduler F) :
  Forall (task_ok state) (m_tasks s) ->
  (Forall (fun t => eligible tid t = false) (m_tasks s) /\
   exists s', fetch tid state s = (Ok None, s') /\ m_tasks s' = m_tasks s /\
     m_activeThreadCount s' = m_activeThreadCount s /\
     tickles s' = (tickles s + if bool_decide (m_tasks s = []) then 0 else 1)%nat) \/
  (exists pre t post s', m_tasks s = pre ++ t :: post /\
     Forall (fun t => eligible tid t = false) pre /\ eligible tid t = true /\
     fetch tid state s = (Ok (Some t), s') /\ m_tasks s' = pre ++ post /\
     m_activeThreadCount s' = u64 (m_activeThreadCount s + 1) /\
     tickles s' = (tickles s + if bool_decide (pre ++ post = []) then 0 else 1)%nat).
Proof.
  intros Hok. destruct (first_eligible tid (m_tasks s)) as [H|(pre & t & post & Hl & Hpre & He)].
  - left. split; [done|]. rewrite fetch_none by done. eexists. split; [reflexivity|].
    destruct (took_fields None (m_tasks s) (negb (bool_decide (m_tasks s = []))) s) as (F1 & _ & F3 & _).
    rewrite F1, F3. split_and!; [done|done|]. unfold took. destruct (bool_decide (m_tasks s = [])); simpl; lia.
  - right. assert (Ht : task_ok state t).
    { rewrite Forall_forall in Hok. apply Hok. rewrite Hl. apply elem_of_app. right. by left. }
    rewrite (fetch_some tid state s pre t post) by done. do 4 eexists. split_and!; try done.
    + by destruct (took_fields (Some t) (pre ++ post) (negb (bool_decide (pre ++ post = []))) s) as (F1 & _).
    + by destruct (took_fields (Some t) (pre ++ post) (negb (bool_decide (pre ++ post = []))) s) as (_ & _ & F3 & _).
    + unfold took. destruct (bool_decide (pre ++ post = [])); simpl; lia.
Qed.

Definition cb_task (f thread : Z) : ScheduleTask Z := mkTask None (Some f) thread.

(** What thread 1 makes for itself and one thread more. *)
Definition caller_scheduler : Scheduler Z := mkScheduler [] [] [] [1] 1 0 0 true (Some 1%nat) 1 false 0.

Lemma caller_made : made 7 caller_scheduler.
Proof. exists 9, 0%nat, 1%nat, 1, 2%nat, true, [], (mkThread ∅ None None None 0 0, None). eexists. reflexivity. Qed.

Lemma fetch_takes_first_witness :
  exists s', fetch 5 (fun _ => READY) (set_tasks [cb_task 1 7; cb_task 2 (-1)] caller_scheduler) = (Ok (Some (cb_task 2 (-1))), s') /\
    m_tasks s' = [cb_task 1 7].
Proof.
  destruct (fetch_takes_first 5 (fun _ => READY) (set_tasks [cb_task 1 7; cb_task 2 (-1)] caller_scheduler))
    as [[H _]|(pre & t & post & s' & _ & _ & _ & Hrun & _)].
  - repeat constructor.
  - inversion H as [|? ? _ H2]. inversion H2 as [|? ? H3 _]. discriminate.
  - exists s'. vm_compute in Hrun. injection Hrun as <- <-. split; reflexivity.
Defined.

(** C5: whatever the interleaving of the threads in [run] with each other and with [start], [schedule]
    and [stop], the tasks accepted are at any time waiting, in a turn or finished, each exactly
    once, and the count of active threads is the number of tasks in a turn; and once a thread has left
    [run], every task accepted has finished, none is in a turn and none waits. *)
Theorem scheduler_runs_each_once {F} may self (s : Scheduler F) p :
  made self s -> pool_reachable may self s p ->
  submitted p ≡ₚ finished p ++ running (pcs p) ++ m_tasks (sched p) /\
  m_activeThreadCount (sched p) = Z.of_nat (length (running (pcs p))) /\
  (forall tid, pcs p !! tid = Some Exited ->
     m_tasks (sched p) = [] /\ running (pcs p) = [] /\ submitted p ≡ₚ finished p).
Proof.
  intros Hs%made_fresh Hr. pose proof (pool_reachable_inv may self s p Hs Hr) as Hi.
  split_and!; [apply Hi|apply Hi|]. intros tid Hq.
  pose proof (pi_ended p Hi tid Exited Hq eq_refl) as Hst.
  pose proof (stopping_idle p Hi Hst) as Hrun. apply stopping_true in Hst as (_ & Ht & _).
  split_and!; [done|done|]. pose proof (pi_conserved p Hi) as Hc. by rewrite Ht, Hrun, app_nil_r in Hc.
Qed.

(** The scheduler after [start] with thread 5, a callback scheduled for any thread, and [stop]. *)
Definition stopped_pool : Pool Z :=
  mkPool (mkScheduler [] [5] [cb_task 3 (-1)] [1; 105] 1 0 0 true (Some 1%nat) 1 true 3)
    {[1 := Fetch false; 5 := Fetch false]} (fun _ => READY) [cb_task 3 (-1)] [].

Lemma stopped_reachable : pool_reachable careful 7 caller_scheduler stopped_pool.
Proof.
  eapply rtc_l; [apply (step_start _ _ _ [5] [105]); try reflexivity; [apply NoDup_singleton|by constructor]|].
  eapply rtc_l; [by apply (step_submit _ _ _ (cb_task 3 (-1)))|].
  eapply rtc_l; [by apply (step_stop _ _ _ (Some 7%nat))|]. apply rtc_refl.
Qed.

Lemma scheduler_runs_each_once_witness :
  submitted stopped_pool ≡ₚ finished stopped_pool ++ running (pcs stopped_pool) ++ m_tasks (sched stopped_pool).
Proof. apply (scheduler_runs_each_once careful 7 caller_scheduler); [apply caller_made|apply stopped_reachable]. Defined.

(** C6: In a program that is [careful], which schedules a fiber only when the fiber is ready and neither waits in the
    list nor is in a turn: after [stop], when each waiting task is for any thread or for one in [run], the work can always
    be brought to its end, as from whatever state such a program has reached, the threads can all leave [run]
    with every task finished, so no interleaving of it leads to a deadlock.  But a task for a thread
    that is not in [run] is never taken, and no thread ever leaves.  Without that care a thread can reach an
    assertion that fails, which is proved apart ([scheduler_assertions]). *)
Theorem scheduler_can_finish {F} self (s : Scheduler F) p :
  made self s -> pool_reachable careful self s p -> m_stopping (sched p) = true ->
  (placed p -> (exists tid, is_Some (pcs p !! tid)) ->
     exists p', rtc (step careful self) p p' /\ submitted p' = submitted p /\ submitted p' ≡ₚ finished p' /\
       dom (pcs p') = dom (pcs p) /\ map_Forall (fun _ q => q = Exited) (pcs p')) /\
  (forall t, t ∈ m_tasks (sched p) -> task_thread t <> -1 -> pcs p !! task_thread t = None ->
     forall p', rtc (step careful self) p p' -> t ∈ m_tasks (sched p') /\ forall tid, pcs p' !! tid <> Some Exited).
Proof.
  intros Hs%made_fresh Hr Hst. split.
  - intros Hp Hsome. apply finishes. split; try done; [by eapply pool_reachable_inv|by eapply reachable_fibers].
  - intros t Hin Hany Hnone p' Hrun. assert (Hi : pool_inv p') by (apply (pool_reachable_inv careful self s); [done|unfold pool_reachable in *; by transitivity p]).
    assert (Hstuck : stuck t p') by (eapply stuck_rtc; [|done]; by split_and!). destruct Hstuck as (_ & Ht & _).
    split; [done|]. intros tid Hq. pose proof (pi_ended p' Hi tid Exited Hq eq_refl) as (_ & H & _)%stopping_true.
    rewrite H in Ht. by apply elem_of_nil in Ht.
Qed.

Lemma scheduler_can_finish_witness :
  exists p', rtc (step careful 7) stopped_pool p' /\ [cb_task 3 (-1)] ≡ₚ finished p' /\ pcs p' !! 1 = Some Exited.
Proof.
  destruct (scheduler_can_finish 7 caller_scheduler stopped_pool caller_made stopped_reachable eq_refl) as [H _].
  destruct H as (p' & H1 & H2 & H3 & H4 & H5).
  - intros t Hin. left. apply list_elem_of_singleton in Hin. by subst.
  - exists 5. by eexists.
  - exists p'. split; [done|]. split; [by rewrite <- H3, H2|].
    assert (Hd : 1 ∈ dom (pcs p')) by (rewrite H4; apply elem_of_dom; by eexists).
    apply elem_of_dom in Hd as [q Hq]. by rewrite Hq, (H5 1 q Hq).
Defined.

(** Fiber 4 in its turn on thread 5, scheduled again, when thread 1 enters [run]. *)
Definition fiber_task : ScheduleTask Z := mkTask (Some 4%nat) None (-1).
Definition early_pool : Pool Z :=
  mkPool (mkScheduler [] [5] [fiber_task] [1; 105] 1 1 0 true (Some 1%nat) 1 true 4)
    {[1 := Fetch false; 5 := Running false fiber_task]} (set_fiber fiber_task EXEC (fun _ => READY))
    [fiber_task; fiber_task] [].

Lemma early_reachable : pool_reachable (fun _ _ => True) 7 caller_scheduler early_pool.
Proof.
  eapply rtc_l; [apply (step_start _ _ _ [5] [105]); try reflexivity; [apply NoDup_singleton|by constructor]|].
  eapply rtc_l; [by apply (step_submit _ _ _ fiber_task)|].
  eapply rtc_l; [eapply (step_take _ _ _ 5 false fiber_task); reflexivity|].
  eapply rtc_l; [by apply (step_swapIn _ _ _ 5 false fiber_task)|].
  eapply rtc_l; [by apply (step_schedule _ _ _ 5 false fiber_task fiber_task)|].
  eapply rtc_l; [by apply (step_stop _ _ _ (Some 7%nat))|]. apply rtc_refl.
Qed.

(** No assertion of the threads fails when a fiber is scheduled only while it is ready and neither
    waiting nor in a turn.  That care is needed: a fiber scheduled before it has yielded,
    as an event that occurs between its registration and the yield does, stops the program when another thread
    takes it. *)
Theorem scheduler_assertions {F} self (s : Scheduler F) p :
  made self s -> pool_reachable careful self s p ->
  ~ fails p /\ exists p', pool_reachable (fun _ _ => True) 7 caller_scheduler p' /\ fails p'.
Proof.
  intros Hs%made_fresh Hr. split; [apply no_failure; by eapply reachable_fibers|].
  exists early_pool. split; [apply early_reachable|]. left. exists 1, false, AssertFail. split; reflexivity.
Qed.

Lemma scheduler_assertions_witness : ~ fails stopped_pool.
Proof. apply (scheduler_assertions 7 caller_scheduler); [apply caller_made|apply stopped_reachable]. Defined.

(** ** Fibers *)

Section fibers.
Context {F : Type}.
Implicit Types (s : Thread F) (x : Fiber F).

Lemma fiber_at_ok s f x : fibers s !! f = Some x -> fiber_at f s = (Ok x, s).
Proof. intros Hf. unfold fiber_at. rewrite (bind_ok get _ s s s) by done. by rewrite Hf. Qed.

Lemma swapIn_run s f x m :
  fibers s !! f = Some x -> t_schedulerFiber s = Some m -> m_runInScheduler x = Some true ->
  swapIn f s =
  if bool_decide (m_state x = EXEC) then (Crash AssertFail, snd (SetThis (Some f) s))
  else (Ok (m, f), set_fibers (<[f := set_state EXEC x]> (fibers s)) (snd (SetThis (Some f) s))).
Proof.
  intros Hf Hm Hr. unfold swapIn.
  rewrite (bind_ok (SetThis (Some f)) _ s tt (snd (SetThis (Some f) s))) by done.
  rewrite (bind_ok _ _ _ _ _ (fiber_at_ok (snd (SetThis (Some f) s)) f x Hf)).
  case_bool_decide as He; [done|].
  cbn [negb assert]. rewrite (bind_ok (mret tt) _ _ tt (snd (SetThis (Some f) s))) by done.
  unfold put_fiber, other_side. rewrite (bind_ok (modify _) _ _ tt
    (set_fibers (<[f := set_state EXEC x]> (fibers s)) (snd (SetThis (Some f) s)))) by done.
  unfold mbind, M_bind, get. by rewrite Hr; cbn; rewrite Hm.
Qed.

(** A fiber in control switching out. *)
Lemma swapOut_run s f x m :
  fibers s !! f = Some x -> t_schedulerFiber s = Some m -> m_runInScheduler x = Some true ->
  swapOut f s =
  if bool_decide (m_state x = EXEC) || bool_decide (m_state x = TERM)
  then (Ok (f, m), set_fibers (if bool_decide (m_state x = TERM) then fibers s
                               else <[f := set_state READY x]> (fibers s)) (snd (SetThis (Some m) s)))
  else (Crash AssertFail, s).
Proof.
  intros Hf Hm Hr. unfold swapOut. rewrite (bind_ok _ _ _ _ _ (fiber_at_ok s f x Hf)).
  destruct (_ || _); [|done]. cbn [assert]. rewrite (bind_ok (mret tt) _ _ tt s) by done.
  rewrite (bind_ok get _ s s s) by done.
  rewrite (bind_ok (SetThis _) _ s tt (snd (SetThis (Some m) s))) by by rewrite Hm.
  unfold other_side. destruct (bool_decide (m_state x = TERM)); cbn [negb when].
  - rewrite (bind_ok (mret tt) _ _ tt (snd (SetThis (Some m) s))) by done.
    unfold mbind, M_bind, get. by rewrite Hr; cbn; rewrite Hm.
  - unfold put_fiber. rewrite (bind_ok (modify _) _ _ tt
      (set_fibers (<[f := set_state READY x]> (fibers s)) (snd (SetThis (Some m) s)))) by done.
    unfold mbind, M_bind, get. by rewrite Hr; cbn; rewrite Hm.
Qed.

Lemma GetThis_ok s f p : t_fiber s = Some f -> GetThis p s = (Ok f, s).
Proof. intros Hf. unfold GetThis. rewrite (bind_ok get _ s s s) by done. by rewrite Hf. Qed.
End fibers.

(** C39: a scheduled fiber that is not in control gets it by [swapIn] and gives it back to the
    scheduler's fiber of the thread: by [YieldToReady], after which it is ready and can be
    swapped in again, or when its callback returns, after which it is terminated and has
    dropped the callback; other fibers are not touched.  Swapping in a fiber in control,
    [YieldToHold], and a callback that throws end in a failed assertion, since [swapOut]
    only accepts the states EXEC and TERM. *)
Theorem fiber_lifecycle {F} (s : Thread F) f x m p :
  fibers s !! f = Some x -> t_schedulerFiber s = Some m -> m_runInScheduler x = Some true ->
  if bool_decide (m_state x = EXEC) then fst (swapIn f s) = Crash AssertFail
  else
    exists s1, swapIn f s = (Ok (m, f), s1) /\ t_fiber s1 = Some f /\
      (forall g, fibers s1 !! g = if decide (g = f) then Some (set_state EXEC x) else fibers s !! g) /\
      (exists s2, YieldToReady p s1 = (Ok (f, m), s2) /\ t_fiber s2 = Some m /\
         forall g, fibers s2 !! g = if decide (g = f) then Some (set_state READY x) else fibers s !! g) /\
      (exists s2, MainFunc p false s1 = (Ok (f, m), s2) /\ t_fiber s2 = Some m /\
         forall g, fibers s2 !! g =
           if decide (g = f) then Some (mkFiber (m_id x) (m_stack x) TERM None (m_runInScheduler x))
           else fibers s !! g) /\
      fst (YieldToHold p s1) = Crash AssertFail /\ fst (MainFunc p true s1) = Crash AssertFail.
Proof.
  intros Hf Hm Hr. rewrite (swapIn_run s f x m) by done.
  case_bool_decide as He; [done|]. set (x1 := set_state EXEC x).
  set (s1 := set_fibers (<[f := x1]> (fibers s)) (snd (SetThis (Some f) s))).
  assert (Hf1 : fibers s1 !! f = Some x1) by apply lookup_insert_eq.
  assert (Hm1 : t_schedulerFiber s1 = Some m) by exact Hm.
  assert (Hlook : forall (h : gmap nat (Fiber F)) y z, (forall g, h !! g = if decide (g = f) then Some z else fibers s !! g) ->
            forall g, <[f := y]> h !! g = if decide (g = f) then Some y else fibers s !! g).
  { intros h y z Hh g. rewrite lookup_insert, Hh. destruct (decide (f = g)), (decide (g = f)); congruence. }
  assert (Hl1 : forall g, fibers s1 !! g = if decide (g = f) then Some x1 else fibers s !! g).
  { intros g. cbn. rewrite lookup_insert. destruct (decide (f = g)), (decide (g = f)); congruence. }
  assert (Hthis : GetThis p s1 = (Ok f, s1)) by by apply GetThis_ok.
  exists s1. split; [done|]. split; [done|]. split; [exact Hl1|]. split; [|split; [|split]].
  - unfold YieldToReady. rewrite (bind_ok _ _ _ _ _ Hthis), (bind_ok _ _ _ _ _ (fiber_at_ok s1 f x1 Hf1)).
    cbn [x1 m_state set_state]. rewrite bool_decide_true by done. cbn [assert].
    rewrite (bind_ok (mret tt) _ s1 tt s1) by done.
    rewrite (swapOut_run s1 f x1 m) by done. cbn [m_state set_state x1].
    rewrite bool_decide_true, bool_decide_false by done. cbn [orb].
    eexists. split; [reflexivity|]. split; [done|]. by eapply Hlook.
  - unfold MainFunc. rewrite (bind_ok _ _ _ _ _ Hthis), (bind_ok _ _ _ _ _ (fiber_at_ok s1 f x1 Hf1)).
    set (x2 := mkFiber _ _ TERM None _). unfold put_fiber.
    rewrite (bind_ok (modify _) _ s1 tt (set_fibers (<[f := x2]> (fibers s1)) s1)) by done.
    rewrite (swapOut_run (set_fibers (<[f := x2]> (fibers s1)) s1) f x2 m); [|apply lookup_insert_eq|done|done].
    cbn [m_state x2]. rewrite bool_decide_false, bool_decide_true by done. cbn [orb].
    eexists. split; [reflexivity|]. split; [done|]. by eapply Hlook.
  - unfold YieldToHold. rewrite (bind_ok _ _ _ _ _ Hthis), (bind_ok _ _ _ _ _ (fiber_at_ok s1 f x1 Hf1)).
    cbn [x1 m_state set_state]. rewrite bool_decide_true by done. cbn [assert].
    rewrite (bind_ok (mret tt) _ s1 tt s1) by done. unfold put_fiber.
    set (s2 := set_fibers (<[f := set_state HOLD x1]> (fibers s1)) s1).
    rewrite (bind_ok (modify _) _ s1 tt s2) by done.
    rewrite (swapOut_run s2 f (set_state HOLD x1) m); [done|apply lookup_insert_eq|done|done].
  - unfold MainFunc. rewrite (bind_ok _ _ _ _ _ Hthis), (bind_ok _ _ _ _ _ (fiber_at_ok s1 f x1 Hf1)).
    unfold put_fiber. set (s2 := set_fibers (<[f := set_state EXCEPT x1]> (fibers s1)) s1).
    rewrite (bind_ok (modify _) _ s1 tt s2) by done.
    rewrite (swapOut_run s2 f (set_state EXCEPT x1) m); [done|apply lookup_insert_eq|done|done].
Qed.

(** A thread whose scheduler fiber is 0 and that has a new fiber 1. *)
Definition two_fibers : Thread nat :=
  snd (new_Fiber 1 (Some 9%nat) true
    (mkThread {[0%nat := mkFiber 1 false EXEC None None]} (Some 0%nat) (Some 0%nat) (Some 0%nat) 1 1)).

Lemma fiber_lifecycle_witness :
  exists s1 s2, swapIn 1 two_fibers = (Ok (0%nat, 1%nat), s1) /\ YieldToReady 7 s1 = (Ok (1%nat, 0%nat), s2).
Proof.
  assert (H := fiber_lifecycle two_fibers 1 (mkFiber 2 true READY (Some 9%nat) (Some true)) 0 7
                 eq_refl eq_refl eq_refl).
  destruct H as (s1 & H1 & _ & _ & (s2 & H2 & _) & _). by exists s1, s2.
Defined.

(** A fiber that never ran is destroyed in its initial state, READY, which the destructor's
    assertion does not allow; [reset] is what sets INIT. *)
Example destroy_unused : fst (destroy 1 two_fibers) = Crash AssertFail.
Proof. reflexivity. Qed.
