(* ===== verification/IOManager.v ===== *)
(** * The I/O manager: src/src/fiber/iomannager.cc

    The contexts of the descriptors, the count of pending events, and what epoll was
    last told of each descriptor.  An operation takes the outcome of the [epoll_ctl] it
    makes; a turn of [idle] takes what [epoll_wait] returned.  The sections under the
    manager's mutex and under a context's mutex are operations of their own, so that
    threads can be interleaved between them. *)

From S2P Require Import Prelude Fiber Scheduler Timer.
#[local] Set Default Goal Selector "!".

Definition NONE : Z := 0.
Definition READ : Z := 1.
Definition WRITE : Z := 4.
Definition EPOLLIN : Z := 1.
Definition EPOLLOUT : Z := 4.
Definition EPOLLERR : Z := 8.
Definition EPOLLHUP : Z := 16.
Definition EPOLLET : Z := 2 ^ 31.

Inductive epoll_op := EPOLL_CTL_ADD | EPOLL_CTL_MOD | EPOLL_CTL_DEL.

Definition has (events event : Z) : bool := negb (Z.land events event =? 0).

Section IOManager.
Context {F : Type}.

(** [EventContext]; a scheduler is a number, a fiber its address. *)
Record EventContext := mkEC {
  ec_scheduler : option nat;
  ec_fiber : option nat;
  ec_cb : option F
}.

Record FdContext := mkFC {
  ctx_read : EventContext;
  ctx_write : EventContext;
  ctx_fd : Z;
  ctx_events : Z
}.

Record IOManager := mkIO {
  m_fdContexts : list FdContext;
  m_pendingEventCount : Z;
  interest : gmap Z Z;                          (** the events epoll watches, by descriptor *)
  posted : list (nat * ScheduleTask F)          (** the calls of [schedule], to which scheduler *)
}.

Abbreviation IO := (M IOManager).

Definition set_contexts (l : list FdContext) (s : IOManager) : IOManager :=
  mkIO l (m_pendingEventCount s) (interest s) (posted s).
Definition add_pending (d : Z) (s : IOManager) : IOManager :=
  mkIO (m_fdContexts s) (u64 (m_pendingEventCount s + d)) (interest s) (posted s).
Definition set_interest (i : gmap Z Z) (s : IOManager) : IOManager :=
  mkIO (m_fdContexts s) (m_pendingEventCount s) i (posted s).
Definition post (sch : nat) (t : ScheduleTask F) (s : IOManager) : IOManager :=
  mkIO (m_fdContexts s) (m_pendingEventCount s) (interest s) (posted s ++ [(sch, t)]).

Definition no_waiter : EventContext := mkEC None None None.
Definition new_FdContext (fd : Z) : FdContext := mkFC no_waiter no_waiter fd NONE.

Definition set_events (ev : Z) (c : FdContext) : FdContext :=
  mkFC (ctx_read c) (ctx_write c) (ctx_fd c) ev.

(** [getEventContext] and the assignment through the reference it returns. *)
Definition getEventContext (event : Z) (c : FdContext) : IO EventContext :=
  if event =? READ then mret (ctx_read c)
  else if event =? WRITE then mret (ctx_write c)
  else crashed AssertFail.

Definition set_ec (event : Z) (e : EventContext) (c : FdContext) : FdContext :=
  if event =? READ then mkFC e (ctx_write c) (ctx_fd c) (ctx_events c)
  else mkFC (ctx_read c) e (ctx_fd c) (ctx_events c).

Definition resetEventContext (event : Z) (c : FdContext) : FdContext := set_ec event no_waiter c.

(** ** The vector of contexts *)

Definition contextResize (size : nat) : IO unit :=
  modify (fun s =>
    let l := take size (m_fdContexts s) in
    set_contexts (l ++ ((fun i => new_FdContext (Z.of_nat i)) <$> seq (length l) (size - length l))) s).

Definition new_IOManager : IOManager :=
  mkIO ((fun i => new_FdContext (Z.of_nat i)) <$> seq 0 32) 0 ∅ [].

Definition context (fd : Z) : IO FdContext :=
  s ← get;
  if fd <? 0 then crashed OutOfBounds
  else match m_fdContexts s !! Z.to_nat fd with Some c => mret c | None => crashed OutOfBounds end.

Definition put_context (fd : Z) (c : FdContext) : IO unit :=
  modify (fun s => set_contexts (<[Z.to_nat fd := c]> (m_fdContexts s)) s).

(** The first section of each operation: whether the vector reaches [fd]. *)
Definition in_range (fd : Z) : IO bool := gets (fun s => fd <? Z.of_nat (length (m_fdContexts s))).

(** The second section of [addEvent], when it does not; the size is not tested again. *)
Definition grow (fd : Z) : IO unit := contextResize (Z.to_nat (3 * fd / 2)).

(** ** epoll *)

Definition epoll_ctl (rt : Z) (op : epoll_op) (fd events : Z) : IO Z :=
  when (rt =? 0)
    (modify (fun s => set_interest
       (match op with EPOLL_CTL_DEL => delete fd (interest s) | _ => <[fd := events]> (interest s) end) s)) ;;
  mret rt.

(** ** Operations *)

Definition triggerEvent (fd event : Z) : IO unit :=
  c ← context fd;
  assert (has (ctx_events c) event) ;;
  let c := set_events (Z.land (ctx_events c) (Z.lnot event)) c in
  put_context fd c ;;
  e ← getEventContext event c;
  match ec_scheduler e with
  | None => crashed NullDeref
  | Some sch =>
      modify (post sch (match ec_cb e with
                        | Some cb => mkTask None (Some cb) (-1)
                        | None => mkTask (ec_fiber e) None (-1)
                        end)) ;;
      put_context fd (resetEventContext event c)
  end.

(** The last section of [addEvent]; [self] is [Scheduler::GetThis()], [fiber] the current
    fiber and whether its state is EXEC. *)
Definition register (rt : Z) (self : option nat) (fiber : nat * bool) (fd event : Z) (cb : option F) : IO Z :=
  c ← context fd;
  assert (negb (has (ctx_events c) event)) ;;
  let op := if ctx_events c =? 0 then EPOLL_CTL_ADD else EPOLL_CTL_MOD in
  rt ← epoll_ctl rt op fd (Z.lor EPOLLET (Z.lor (ctx_events c) event));
  if negb (rt =? 0) then mret (-1) else
  modify (add_pending 1) ;;
  let c := set_events (Z.lor (ctx_events c) event) c in
  put_context fd c ;;
  e ← getEventContext event c;
  assert (bool_decide (ec_scheduler e = None) && bool_decide (ec_fiber e = None) &&
          match ec_cb e with None => true | Some _ => false end) ;;
  match cb with
  | Some cb => put_context fd (set_ec event (mkEC self None (Some cb)) c)
  | None =>
      put_context fd (set_ec event (mkEC self (Some (fst fiber)) None) c) ;;
      assert (snd fiber)
  end ;;
  mret 0.

Definition addEvent (rt : Z) (self : option nat) (fiber : nat * bool) (fd event : Z) (cb : option F) : IO Z :=
  found ← in_range fd;
  when (negb found) (grow fd) ;;
  register rt self fiber fd event cb.

Definition op_without (newEvents : Z) : epoll_op :=
  if newEvents =? 0 then EPOLL_CTL_DEL else EPOLL_CTL_MOD.

Definition delEvent (rt fd event : Z) : IO bool :=
  found ← in_range fd;
  if negb found then mret false else
  c ← context fd;
  if negb (has (ctx_events c) event) then mret false else
  let newEvents := Z.land (ctx_events c) (Z.lnot event) in
  rt ← epoll_ctl rt (op_without newEvents) fd (Z.lor EPOLLET newEvents);
  if negb (rt =? 0) then mret false else
  modify (add_pending (-1)) ;;
  let c := set_events newEvents c in
  put_context fd c ;;
  getEventContext event c ;;
  put_context fd (resetEventContext event c) ;;
  mret true.

Definition cancelEvent (rt fd event : Z) : IO bool :=
  found ← in_range fd;
  if negb found then mret false else
  c ← context fd;
  if negb (has (ctx_events c) event) then mret false else
  let newEvents := Z.land (ctx_events c) (Z.lnot event) in
  rt ← epoll_ctl rt (op_without newEvents) fd (Z.lor EPOLLET newEvents);
  if negb (rt =? 0) then mret false else
  triggerEvent fd event ;;
  modify (add_pending (-1)) ;;
  mret true.

(** [triggerEvent] and the count, when [b] holds. *)
Definition trigger_if (b : bool) (fd event : Z) : IO unit :=
  if b then triggerEvent fd event ;; modify (add_pending (-1)) else mret tt.

Definition cancelAll (rt fd : Z) : IO bool :=
  found ← in_range fd;
  if negb found then mret false else
  c ← context fd;
  if ctx_events c =? 0 then mret false else
  rt ← epoll_ctl rt EPOLL_CTL_DEL fd 0;
  if negb (rt =? 0) then mret false else
  trigger_if (has (ctx_events c) READ) fd READ ;;
  c ← context fd;
  trigger_if (has (ctx_events c) WRITE) fd WRITE ;;
  c ← context fd;
  assert (ctx_events c =? 0) ;;
  mret true.

(** ** The event loop *)

Definition stopping (nextTimeout : Z) (s : IOManager) (scheduler_stopping : bool) : bool :=
  (nextTimeout =? 2 ^ 64 - 1) && (m_pendingEventCount s =? 0) && scheduler_stopping.

(** The last argument of [epoll_wait]. *)
Definition wait_timeout (nextTimeout : Z) : Z :=
  let t := if nextTimeout =? 2 ^ 64 - 1 then 5000 else u64 (Z.min (i32 nextTimeout) 5000) in
  i32 t.

(** An entry of the array [epoll_wait] fills. *)
Inductive epoll_event :=
| Tickle
| Ready (fd events : Z).

(** The body of the loop over the entries; [rt2] is the outcome of its [epoll_ctl]. *)
Definition handle (ev : epoll_event) (rt2 : Z) : IO unit :=
  match ev with
  | Tickle => mret tt
  | Ready fd events =>
      c ← context fd;
      let events := if has events (Z.lor EPOLLERR EPOLLHUP)
                    then Z.lor events (Z.land (Z.lor EPOLLIN EPOLLOUT) (ctx_events c)) else events in
      let realEvents := Z.lor (if has events EPOLLIN then READ else NONE)
                              (if has events EPOLLOUT then WRITE else NONE) in
      if Z.land (ctx_events c) realEvents =? NONE then mret tt else
      let leftEvents := Z.land (ctx_events c) (Z.lnot realEvents) in
      rt2 ← epoll_ctl rt2 (op_without leftEvents) (ctx_fd c) (Z.lor EPOLLET leftEvents);
      if negb (rt2 =? 0) then mret tt else
      trigger_if (has realEvents READ) fd READ ;;
      trigger_if (has realEvents WRITE) fd WRITE
  end.

Fixpoint handle_all (l : list (epoll_event * Z)) : IO unit :=
  match l with
  | [] => mret tt
  | (ev, rt2) :: l => handle ev rt2 ;; handle_all l
  end.
End IOManager.
Arguments EventContext : clear implicits.
Arguments FdContext : clear implicits.
Arguments IOManager : clear implicits.

(** ** A turn of [idle] *)

Section idle.
Context {G : Type}.
Abbreviation CB := (callback G).

(** The two bases of the class. *)
Record Reactor := mkReactor { io : IOManager CB; timers : TimerManager G }.

Definition on_io {A} (m : M (IOManager CB) A) : M Reactor A :=
  fun r => let '(x, s) := m (io r) in (x, mkReactor s (timers r)).
Definition on_timers {A} (m : M (TimerManager G) A) : M Reactor A :=
  fun r => let '(x, s) := m (timers r) in (x, mkReactor (io r) s).

(** [schedule(cb)] for each; an empty function makes no task. *)
Fixpoint schedule_all (self : nat) (cbs : list (option CB)) : M (IOManager CB) unit :=
  match cbs with
  | [] => mret tt
  | Some cb :: cbs => modify (post self (mkTask None (Some cb) (-1))) ;; schedule_all self cbs
  | None :: cbs => schedule_all self cbs
  end.

(** From the test of [stopping] to the yield: [None] when the loop is left, otherwise the
    timeout passed to [epoll_wait], which returned [evs].  [now] and [now'] are the clock
    readings, [tmp] the address of the temporary timer. *)
Definition idle_turn (self : nat) (scheduler_stopping : bool) (now now' tmp : Z)
    (evs : list (epoll_event * Z)) : M Reactor (option Z) :=
  nextTimeout ← on_timers (getNextTimer now);
  r ← get;
  if stopping nextTimeout (io r) scheduler_stopping then mret None else
  cbs ← on_timers (listExpiredCb tmp now');
  on_io (schedule_all self cbs) ;;
  on_io (handle_all evs) ;;
  mret (Some (wait_timeout nextTimeout)).
End idle.
