(* ===== verification/IOManagerTheorems.v ===== *)
(** * The I/O manager: the properties *)

From S2P Require Import Prelude Fiber Scheduler Timer TimerSpec IOManager.
#[local] Set Default Goal Selector "!".

Section inv.
Context {F : Type}.
Implicit Types (s : IOManager F) (c : FdContext F) (e : EventContext F).

(** ** The invariant *)

(** A waiter is absent, or a scheduler with a fiber or a callback. *)
Definition ec_ok e : Prop :=
  match ec_scheduler e, ec_fiber e, ec_cb e with
  | None, None, None => True
  | Some _, Some _, None | Some _, None, Some _ => True
  | _, _, _ => False
  end.

Definition armed e : bool := bool_decide (ec_scheduler e <> None).

Definition bits (r w : bool) : Z := (if r then READ else 0) + (if w then WRITE else 0).
Definition count (r w : bool) : Z := (if r then 1 else 0) + (if w then 1 else 0).

(** The events of a context are those somebody waits for. *)
Definition ctx_ok c : Prop :=
  ec_ok (ctx_read c) /\ ec_ok (ctx_write c) /\
  ctx_events c = bits (armed (ctx_read c)) (armed (ctx_write c)).

Definition pending c : Z := count (armed (ctx_read c)) (armed (ctx_write c)).

Definition total (l : list (FdContext F)) : Z := fold_right (fun c n => pending c + n) 0 l.

(** The calls of [schedule] a waiter gives rise to. *)
Definition task_of e : ScheduleTask F :=
  match ec_cb e with Some cb => mkTask None (Some cb) (-1) | None => mkTask (ec_fiber e) None (-1) end.

(** The waiter of an event, and whether there is one. *)
Definition ec_of (event : Z) c : EventContext F := if event =? READ then ctx_read c else ctx_write c.
Definition waits (event : Z) c : bool := armed (ec_of event c).
Definition waiter (event : Z) c : list (nat * ScheduleTask F) :=
  match ec_scheduler (ec_of event c) with Some sch => [(sch, task_of (ec_of event c))] | None => [] end.
Definition waiters c := waiter READ c ++ waiter WRITE c.
Definition waiting (l : list (FdContext F)) := l ≫= waiters.

(** What epoll should watch for a context. *)
Definition watched c : option Z :=
  if ctx_events c =? 0 then None else Some (Z.lor EPOLLET (ctx_events c)).

Record io_inv s : Prop := {
  ii_ctx i c : m_fdContexts s !! i = Some c -> ctx_ok c /\ ctx_fd c = Z.of_nat i;
  ii_pending : m_pendingEventCount s = total (m_fdContexts s);
  ii_size : 32 <= Z.of_nat (length (m_fdContexts s)) < 2 ^ 32;
  ii_interest fd : 0 <= fd -> interest s !! fd =
    match m_fdContexts s !! Z.to_nat fd with Some c => watched c | None => None end
}.

Definition event_ok (event : Z) : Prop := event = READ \/ event = WRITE.

(** The context without the waiter of [event]. *)
Definition without (event : Z) c : FdContext F :=
  resetEventContext event (set_events (Z.land (ctx_events c) (Z.lnot event)) c).

Definition ctx_at s (fd : Z) : option (FdContext F) := m_fdContexts s !! Z.to_nat fd.

Lemma has_waits event c : event_ok event -> ctx_ok c -> has (ctx_events c) event = waits event c.
Proof.
  intros He (_ & _ & Hev). unfold has, waits, ec_of. rewrite Hev.
  destruct He as [-> | ->]; cbn [Z.eqb Pos.eqb READ WRITE];
    by destruct (armed (ctx_read c)), (armed (ctx_write c)).
Qed.

Lemma armed_no_waiter : armed (@no_waiter F) = false.
Proof. done. Qed.

Lemma without_ok event c :
  event_ok event -> ctx_ok c ->
  ctx_ok (without event c) /\ ctx_fd (without event c) = ctx_fd c /\
  pending (without event c) = pending c - (if waits event c then 1 else 0) /\
  ctx_events (without event c) = Z.land (ctx_events c) (Z.lnot event) /\
  waits event (without event c) = false /\
  (forall event', event_ok event' -> event' <> event -> ec_of event' (without event c) = ec_of event' c).
Proof.
  intros He (Hr & Hw & Hev). unfold ctx_ok, pending, waits, ec_of, without, resetEventContext, set_ec, set_events.
  destruct He as [-> | ->]; cbn [Z.eqb Pos.eqb READ WRITE ctx_read ctx_write ctx_events ctx_fd];
    rewrite Hev, armed_no_waiter; split_and!; try done;
    try (by destruct (armed (ctx_read c)), (armed (ctx_write c)));
    intros event' [-> | ->]; done.
Qed.

Lemma watched_without event c :
  event_ok event -> ctx_ok c ->
  watched (without event c) =
  let n := Z.land (ctx_events c) (Z.lnot event) in if n =? 0 then None else Some (Z.lor EPOLLET n).
Proof. intros He Hc. unfold watched. by destruct (without_ok event c He Hc) as (_ & _ & _ & -> & _). Qed.

Lemma total_insert l i c c' :
  l !! i = Some c -> total (<[i := c']> l) = total l - pending c + pending c'.
Proof.
  revert i. induction l as [|d l IH]; intros [|i] Hi; simplify_eq/=; [lia|]. rewrite (IH i Hi). lia.
Qed.

Lemma pending_range c : 0 <= pending c <= 2.
Proof. unfold pending, count. destruct (armed _), (armed _); lia. Qed.

Lemma total_range l : 0 <= total l <= 2 * Z.of_nat (length l).
Proof.
  induction l as [|c l IH]; [simpl; lia|]. cbn [total fold_right length].
  change (fold_right _ 0 l) with (total l). pose proof (pending_range c). lia.
Qed.

(** Replacing one context, with the count and what epoll was told following. *)
Lemma update_inv s fd c c' s' :
  io_inv s -> 0 <= fd -> ctx_at s fd = Some c -> ctx_ok c' -> ctx_fd c' = ctx_fd c ->
  m_fdContexts s' = <[Z.to_nat fd := c']> (m_fdContexts s) ->
  m_pendingEventCount s' = u64 (m_pendingEventCount s - pending c + pending c') ->
  (forall d, interest s' !! d = if decide (d = fd) then watched c' else interest s !! d) ->
  io_inv s'.
Proof.
  intros [Hc Hp Hsz Hi] Hfd Hat Hok Hf Hl Hcount Hint. unfold ctx_at in Hat.
  pose proof (total_insert _ _ _ c' Hat) as Ht. split.
  - intros i d. rewrite Hl. intros Hd. destruct (decide (i = Z.to_nat fd)) as [->|Hne].
    + rewrite list_lookup_insert_eq in Hd by (by eapply lookup_lt_Some). injection Hd as <-.
      split; [done|]. rewrite Hf. by apply Hc.
    + rewrite list_lookup_insert_ne in Hd by done. by apply Hc.
  - rewrite Hcount, Hl, Ht, Hp. apply wrap_small.
    pose proof (total_range (<[Z.to_nat fd := c']> (m_fdContexts s))) as H.
    rewrite Ht, length_insert in H. unfold unsigned_range. lia.
  - by rewrite Hl, length_insert.
  - intros d Hd. rewrite Hint, Hl. destruct (decide (d = fd)) as [->|Hne].
    + by rewrite list_lookup_insert_eq by (by eapply lookup_lt_Some).
    + rewrite list_lookup_insert_ne by lia. by apply Hi.
Qed.

(** ** The sections of the operations *)

Lemma in_range_run fd s : in_range fd s = (Ok (fd <? Z.of_nat (length (m_fdContexts s))), s).
Proof. done. Qed.

Lemma in_range_at s fd : 0 <= fd -> (fd <? Z.of_nat (length (m_fdContexts s))) = match ctx_at s fd with Some _ => true | None => false end.
Proof.
  intros Hfd. unfold ctx_at. destruct (m_fdContexts s !! Z.to_nat fd) eqn:E.
  - apply lookup_lt_Some in E. apply Z.ltb_lt. lia.
  - apply lookup_ge_None in E. apply Z.ltb_ge. lia.
Qed.

Lemma context_run fd s c : 0 <= fd -> ctx_at s fd = Some c -> context fd s = (Ok c, s).
Proof.
  intros Hfd Hc. unfold context. rewrite (bind_ok get _ s s s) by done.
  destruct (Z.ltb_spec fd 0); [lia|]. unfold ctx_at in Hc. by rewrite Hc.
Qed.

Lemma epoll_ctl_run rt op fd ev s :
  epoll_ctl rt op fd ev s =
  (Ok rt, if rt =? 0 then set_interest (match op with EPOLL_CTL_DEL => delete fd (interest s)
                                        | _ => <[fd := ev]> (interest s) end) s else s).
Proof. unfold epoll_ctl. by destruct (rt =? 0). Qed.

Lemma getEventContext_run event c s : event_ok event -> getEventContext event c s = (Ok (ec_of event c), s).
Proof. by intros [-> | ->]. Qed.

Lemma ctx_at_put s fd c c' :
  0 <= fd -> ctx_at s fd = Some c ->
  ctx_at (set_contexts (<[Z.to_nat fd := c']> (m_fdContexts s)) s) fd = Some c'.
Proof. intros Hfd Hc. apply list_lookup_insert_eq. by eapply lookup_lt_Some. Qed.

Lemma set_ec_of event c ev : event_ok event -> ec_of event (set_events ev c) = ec_of event c.
Proof. by intros [-> | ->]. Qed.

Lemma triggerEvent_run fd event s c :
  0 <= fd -> ctx_at s fd = Some c -> ctx_ok c -> event_ok event -> waits event c = true ->
  exists sch, ec_scheduler (ec_of event c) = Some sch /\
    triggerEvent fd event s =
    (Ok tt, post sch (task_of (ec_of event c))
              (set_contexts (<[Z.to_nat fd := without event c]> (m_fdContexts s)) s)).
Proof.
  intros Hfd Hc Hok He Hw. unfold triggerEvent.
  rewrite (bind_ok _ _ _ _ _ (context_run fd s c Hfd Hc)), has_waits, Hw by done. cbn [assert].
  rewrite (bind_ok (mret tt) _ s tt s) by done.
  set (c1 := set_events _ c). set (s1 := set_contexts (<[Z.to_nat fd := c1]> (m_fdContexts s)) s).
  rewrite (bind_ok (put_context fd c1) _ s tt s1) by done.
  rewrite (bind_ok _ _ _ _ _ (getEventContext_run event c1 s1 He)).
  assert (Hec : ec_of event c1 = ec_of event c) by by apply set_ec_of. rewrite Hec.
  unfold waits, armed in Hw. apply bool_decide_eq_true in Hw.
  destruct (ec_scheduler (ec_of event c)) as [sch|] eqn:Es; [|done]. exists sch. split; [done|].
  rewrite (bind_ok (modify _) _ s1 tt (post sch (task_of (ec_of event c)) s1)) by done.
  unfold put_context, modify, post, s1, set_contexts. cbn [m_fdContexts m_pendingEventCount interest posted].
  by rewrite list_insert_insert_eq.
Qed.

Definition drop_if (b : bool) (event : Z) c : FdContext F := if b then without event c else c.

Lemma trigger_if_run b fd event s c :
  0 <= fd -> ctx_at s fd = Some c -> ctx_ok c -> event_ok event -> (b = true -> waits event c = true) ->
  exists s', trigger_if b fd event s = (Ok tt, s') /\
    m_fdContexts s' = <[Z.to_nat fd := drop_if b event c]> (m_fdContexts s) /\
    m_pendingEventCount s' = (if b then u64 (m_pendingEventCount s + -1) else m_pendingEventCount s) /\
    interest s' = interest s /\ posted s' = posted s ++ (if b then waiter event c else []).
Proof.
  intros Hfd Hc Hok He Hb. unfold trigger_if. destruct b.
  - destruct (triggerEvent_run fd event s c) as (sch & Hs & Hrun); [done..|by apply Hb|].
    rewrite (bind_ok _ _ _ _ _ Hrun). eexists. split; [reflexivity|]. unfold waiter. by rewrite Hs.
  - exists s. split_and!; try done; [|by rewrite app_nil_r]. symmetry. by apply list_insert_id.
Qed.

Lemma drop_if_ok b event c :
  event_ok event -> ctx_ok c -> (b = true -> waits event c = true) ->
  ctx_ok (drop_if b event c) /\ ctx_fd (drop_if b event c) = ctx_fd c /\
  pending (drop_if b event c) = pending c - (if b then 1 else 0) /\
  ctx_events (drop_if b event c) = (if b then Z.land (ctx_events c) (Z.lnot event) else ctx_events c) /\
  (forall event', event_ok event' -> event' <> event -> ec_of event' (drop_if b event c) = ec_of event' c).
Proof.
  intros He Hc Hb. destruct (without_ok event c He Hc) as (H1 & H2 & H3 & H4 & _ & H5).
  unfold drop_if. destruct b; split_and!; try done; [rewrite H3, Hb by done; done|lia].
Qed.

(** Both waiters of a context, those chosen, leave it and are posted; epoll has been told. *)
Lemma trigger_both r w fd s c i :
  io_inv s -> 0 <= fd -> ctx_at s fd = Some c -> (r = true -> waits READ c = true) ->
  (w = true -> waits WRITE c = true) ->
  let c' := drop_if w WRITE (drop_if r READ c) in
  (forall d, i !! d = if decide (d = fd) then watched c' else interest s !! d) ->
  exists s', (trigger_if r fd READ ;; trigger_if w fd WRITE) (set_interest i s) = (Ok tt, s') /\
    io_inv s' /\ ctx_at s' fd = Some c' /\ ctx_ok c' /\
    m_fdContexts s' = <[Z.to_nat fd := c']> (m_fdContexts s) /\
    posted s' = posted s ++ (if r then waiter READ c else []) ++ (if w then waiter WRITE c else []).
Proof.
  intros Hi Hfd Hc Hr Hw c' Hint. destruct (ii_ctx s Hi _ c Hc) as [Hok _].
  assert (HR : event_ok READ) by by left. assert (HW : event_ok WRITE) by by right.
  destruct (drop_if_ok r READ c HR Hok Hr) as (Hok1 & Hf1 & Hp1 & _ & Hec1).
  assert (HecW : ec_of WRITE (drop_if r READ c) = ec_of WRITE c) by (by apply Hec1).
  assert (Hw1 : w = true -> waits WRITE (drop_if r READ c) = true) by (unfold waits; by rewrite HecW).
  destruct (drop_if_ok w WRITE (drop_if r READ c) HW Hok1 Hw1) as (Hok2 & Hf2 & Hp2 & _).
  fold c' in Hok2, Hf2, Hp2.
  destruct (trigger_if_run r fd READ (set_interest i s) c) as (s1 & Hrun1 & Hl1 & Hn1 & Hi1 & Hps1); [done..|].
  assert (Hc1 : ctx_at s1 fd = Some (drop_if r READ c)).
  { unfold ctx_at. rewrite Hl1. apply list_lookup_insert_eq. by eapply lookup_lt_Some. }
  destruct (trigger_if_run w fd WRITE s1 (drop_if r READ c)) as (s2 & Hrun2 & Hl2 & Hn2 & Hi2 & Hps2); [done..|].
  rewrite Hl1, list_insert_insert_eq in Hl2. exists s2. rewrite (bind_ok _ _ _ _ _ Hrun1).
  split; [done|]. split; [|split_and!; try done].
  - apply (update_inv s fd c c'); try done; [congruence| |].
    + rewrite Hn2, Hn1, Hp2, Hp1. cbn [m_pendingEventCount set_interest].
      assert (Hsmall : m_pendingEventCount s = u64 (m_pendingEventCount s)).
      { symmetry. apply wrap_small. rewrite (ii_pending s Hi).
        pose proof (total_range (m_fdContexts s)). pose proof (ii_size s Hi). unfold unsigned_range. lia. }
      destruct r, w; unfold wrap in *; rewrite ?Zplus_mod_idemp_l; try (f_equal; lia).
      rewrite Hsmall at 1. f_equal. lia.
    + intros d. rewrite Hi2, Hi1. apply Hint.
  - unfold ctx_at. rewrite Hl2. apply list_lookup_insert_eq. by eapply lookup_lt_Some.
  - rewrite Hps2, Hps1, <- app_assoc. cbn [posted set_interest]. unfold waiter. by rewrite HecW.
Qed.

(** ** The operations *)

Lemma interest_without fd n c' (i : gmap Z Z) d :
  ctx_events c' = n ->
  match op_without n with EPOLL_CTL_DEL => delete fd i | _ => <[fd := Z.lor EPOLLET n]> i end !! d =
  if decide (d = fd) then watched c' else i !! d.
Proof.
  intros <-. unfold op_without, watched. destruct (ctx_events c' =? 0).
  - rewrite lookup_delete. by destruct (decide (fd = d)), (decide (d = fd)); congruence.
  - rewrite lookup_insert. by destruct (decide (fd = d)), (decide (d = fd)); congruence.
Qed.

Lemma delEvent_ok rt fd event s :
  io_inv s -> 0 <= fd -> event_ok event ->
  match ctx_at s fd with
  | Some c =>
      if waits event c && (rt =? 0) then
        exists s', delEvent rt fd event s = (Ok true, s') /\ io_inv s' /\
          m_fdContexts s' = <[Z.to_nat fd := without event c]> (m_fdContexts s) /\ posted s' = posted s
      else delEvent rt fd event s = (Ok false, s)
  | None => delEvent rt fd event s = (Ok false, s)
  end.
Proof.
  intros Hi Hfd He. unfold delEvent. rewrite (bind_ok _ _ _ _ _ (in_range_run fd s)), in_range_at by done.
  destruct (ctx_at s fd) as [c|] eqn:Hc; [|done]. cbn [negb].
  destruct (ii_ctx s Hi _ c Hc) as [Hok _].
  rewrite (bind_ok _ _ _ _ _ (context_run fd s c Hfd Hc)), has_waits by done.
  destruct (waits event c) eqn:Hw; [|done]. cbn [negb andb].
  rewrite (bind_ok _ _ _ _ _ (epoll_ctl_run rt _ fd _ s)).
  destruct (Z.eqb_spec rt 0) as [->|Hrt]; [|done]. cbn [negb].
  destruct (without_ok event c He Hok) as (H1 & H2 & H3 & H4 & _). rewrite Hw in H3.
  set (s1 := set_interest _ s). rewrite (bind_ok (modify _) _ s1 tt (add_pending (-1) s1)) by done.
  set (c1 := set_events _ c).
  set (s2 := set_contexts (<[Z.to_nat fd := c1]> (m_fdContexts s)) (add_pending (-1) s1)).
  rewrite (bind_ok (put_context fd c1) _ _ tt s2) by done.
  rewrite (bind_ok _ _ _ _ _ (getEventContext_run event c1 s2 He)).
  set (s3 := set_contexts (<[Z.to_nat fd := without event c]> (m_fdContexts s)) (add_pending (-1) s1)).
  rewrite (bind_ok (put_context _ _) _ s2 tt s3).
  - exists s3. split_and!; try done. apply (update_inv s fd c (without event c)); try done.
    + rewrite H3. cbn. f_equal. lia.
    + intros d. apply interest_without. exact H4.
  - unfold put_context, modify, s2, s3, set_contexts. cbn [m_fdContexts m_pendingEventCount interest posted].
    by rewrite list_insert_insert_eq.
Qed.

Lemma cancelEvent_ok rt fd event s :
  io_inv s -> 0 <= fd -> event_ok event ->
  match ctx_at s fd with
  | Some c =>
      if waits event c && (rt =? 0) then
        exists s', cancelEvent rt fd event s = (Ok true, s') /\ io_inv s' /\
          m_fdContexts s' = <[Z.to_nat fd := without event c]> (m_fdContexts s) /\
          posted s' = posted s ++ waiter event c
      else cancelEvent rt fd event s = (Ok false, s)
  | None => cancelEvent rt fd event s = (Ok false, s)
  end.
Proof.
  intros Hi Hfd He. unfold cancelEvent. rewrite (bind_ok _ _ _ _ _ (in_range_run fd s)), in_range_at by done.
  destruct (ctx_at s fd) as [c|] eqn:Hc; [|done]. cbn [negb].
  destruct (ii_ctx s Hi _ c Hc) as [Hok _].
  rewrite (bind_ok _ _ _ _ _ (context_run fd s c Hfd Hc)), has_waits by done.
  destruct (waits event c) eqn:Hw; [|done]. cbn [negb andb].
  rewrite (bind_ok _ _ _ _ _ (epoll_ctl_run rt _ fd _ s)).
  destruct (Z.eqb_spec rt 0) as [->|Hrt]; [|done]. cbn [negb Z.eqb].
  destruct (without_ok event c He Hok) as (_ & _ & _ & H4 & _).
  set (i := match op_without _ with EPOLL_CTL_DEL => _ | _ => _ end).
  assert (Hint : forall d, i !! d = if decide (d = fd) then watched (without event c) else interest s !! d)
    by (intros d; by apply interest_without).
  destruct (trigger_both (event =? READ) (event =? WRITE) fd s c i) as (s' & Hrun & Hi' & _ & _ & Hl & Hp);
    [done..| | | |].
  - by intros ->%Z.eqb_eq.
  - by intros ->%Z.eqb_eq.
  - by destruct He as [-> | ->].
  - exists s'. destruct He as [-> | ->]; cbn in Hrun, Hl, Hp; rewrite ?app_nil_r in Hp.
    + destruct (bind_inv _ _ _ _ _ Hrun) as ([] & s1 & H1 & [= ->]).
      destruct (bind_inv _ _ _ _ _ H1) as ([] & s2 & Ht & [= <-]).
      rewrite (bind_ok _ _ _ _ _ Ht). by split_and!.
    + destruct (bind_inv _ _ _ _ _ Hrun) as ([] & s1 & [= <-] & H1).
      destruct (bind_inv _ _ _ _ _ H1) as ([] & s2 & Ht & [= <-]).
      rewrite (bind_ok _ _ _ _ _ Ht). by split_and!.
Qed.

Lemma events_zero c : ctx_ok c -> (ctx_events c =? 0) = negb (waits READ c) && negb (waits WRITE c).
Proof.
  intros (_ & _ & ->). unfold waits, ec_of. cbn [Z.eqb Pos.eqb READ WRITE].
  by destruct (armed (ctx_read c)), (armed (ctx_write c)).
Qed.

Lemma cancelAll_ok rt fd s :
  io_inv s -> 0 <= fd ->
  match ctx_at s fd with
  | Some c =>
      if (waits READ c || waits WRITE c) && (rt =? 0) then
        exists s' c', cancelAll rt fd s = (Ok true, s') /\ io_inv s' /\ ctx_at s' fd = Some c' /\
          waits READ c' = false /\ waits WRITE c' = false /\
          posted s' = posted s ++ waiter READ c ++ waiter WRITE c /\
          m_fdContexts s' = <[Z.to_nat fd := c']> (m_fdContexts s)
      else cancelAll rt fd s = (Ok false, s)
  | None => cancelAll rt fd s = (Ok false, s)
  end.
Proof.
  intros Hi Hfd. unfold cancelAll. rewrite (bind_ok _ _ _ _ _ (in_range_run fd s)), in_range_at by done.
  destruct (ctx_at s fd) as [c|] eqn:Hc; [|done]. cbn [negb].
  destruct (ii_ctx s Hi _ c Hc) as [Hok _].
  rewrite (bind_ok _ _ _ _ _ (context_run fd s c Hfd Hc)), events_zero, <- negb_orb by done.
  destruct (waits READ c || waits WRITE c) eqn:Hw; [|done]. cbn [negb andb].
  rewrite (bind_ok _ _ _ _ _ (epoll_ctl_run rt _ fd _ s)).
  destruct (Z.eqb_spec rt 0) as [->|Hrt]; [|done]. cbn [negb Z.eqb].
  assert (HR : event_ok READ) by by left. assert (HW : event_ok WRITE) by by right.
  rewrite has_waits by done.
  set (c' := drop_if (waits WRITE c) WRITE (drop_if (waits READ c) READ c)).
  assert (Hok' : ctx_events c' = 0 /\ waits READ c' = false /\ waits WRITE c' = false).
  { destruct Hok as (_ & _ & Hev). unfold c', drop_if, waits, ec_of, without, resetEventContext, set_ec, set_events.
    cbn [Z.eqb Pos.eqb READ WRITE]. destruct (armed (ctx_read c)) eqn:E1, (armed (ctx_write c)) eqn:E2;
      cbn; rewrite ?Hev, ?E1, ?E2; done. }
  destruct Hok' as (Hz & Hr' & Hw').
  destruct (trigger_both (waits READ c) (waits WRITE c) fd s c (delete fd (interest s)))
    as (s' & Hrun & Hi' & Hc' & Hokc' & Hl & Hp); [done..| |].
  { intros d. unfold watched. fold c'. rewrite Hz, lookup_delete. cbn [Z.eqb].
    by destruct (decide (fd = d)), (decide (d = fd)); congruence. }
  destruct (bind_inv _ _ _ _ _ Hrun) as ([] & s1 & H1 & H2).
  rewrite (bind_ok _ _ _ _ _ H1).
  destruct (trigger_if_run (waits READ c) fd READ (set_interest (delete fd (interest s)) s) c)
    as (s1' & H1' & Hl1 & _); [done..|]. rewrite H1 in H1'. injection H1' as <-.
  assert (Hc1 : ctx_at s1 fd = Some (drop_if (waits READ c) READ c)).
  { unfold ctx_at. rewrite Hl1. apply list_lookup_insert_eq. by eapply lookup_lt_Some. }
  destruct (drop_if_ok (waits READ c) READ c HR Hok ltac:(done)) as (Hok1 & _ & _ & _ & Hec).
  rewrite (bind_ok _ _ _ _ _ (context_run fd s1 _ Hfd Hc1)), has_waits by done.
  assert (HwW : waits WRITE (drop_if (waits READ c) READ c) = waits WRITE c)
    by (unfold waits at 1; by rewrite Hec).
  rewrite HwW, (bind_ok _ _ _ _ _ H2), (bind_ok _ _ _ _ _ (context_run fd s' _ Hfd Hc')).
  fold c'. rewrite Hz. cbn [Z.eqb assert]. exists s', c'. split; [done|]. split_and!; try done.
  - rewrite Hp. unfold waiter. f_equal. unfold waits, armed.
    by destruct (ec_scheduler (ec_of READ c)), (ec_scheduler (ec_of WRITE c)).
Qed.

(** What [register] leaves of the waiter. *)
Definition new_waiter (sch : nat) (fiber : nat) (cb : option F) : EventContext F :=
  mkEC (Some sch) (match cb with Some _ => None | None => Some fiber end) cb.

Definition with_waiter (event : Z) e c : FdContext F := set_ec event e (set_events (Z.lor (ctx_events c) event) c).

Lemma with_waiter_ok event sch fiber cb c :
  event_ok event -> ctx_ok c -> waits event c = false ->
  let c' := with_waiter event (new_waiter sch fiber cb) c in
  ctx_ok c' /\ ctx_fd c' = ctx_fd c /\ pending c' = pending c + 1 /\
  ctx_events c' = Z.lor (ctx_events c) event /\ ctx_events c' <> 0.
Proof.
  intros He (Hr & Hw & Hev) Hn c'.
  assert (Hnew : ec_ok (new_waiter sch fiber cb)) by (unfold ec_ok, new_waiter; cbn; by destruct cb).
  unfold waits, ec_of in Hn. unfold c', with_waiter, ctx_ok, pending, set_ec, set_events.
  destruct He as [-> | ->]; cbn [Z.eqb Pos.eqb READ WRITE ctx_read ctx_write ctx_events ctx_fd] in *;
    rewrite Hev, ?Hn; change (armed (new_waiter sch fiber cb)) with true;
    split_and!; try done; by destruct (armed (ctx_read c)), (armed (ctx_write c)).
Qed.

Lemma waits_false event c : event_ok event -> ctx_ok c -> waits event c = false -> ec_of event c = no_waiter.
Proof.
  intros He (Hr & Hw & _) Hn. assert (Hok : ec_ok (ec_of event c)) by (by destruct He as [-> | ->]).
  unfold waits, armed in Hn. apply bool_decide_eq_false in Hn. unfold ec_ok in Hok.
  destruct (ec_of event c) as [[sch|] [f|] [cb|]]; cbn in *; try done; exfalso; by apply Hn.
Qed.

Lemma register_ok rt sch fiber exec fd event cb s c :
  io_inv s -> 0 <= fd -> event_ok event -> ctx_at s fd = Some c -> waits event c = false ->
  (cb = None -> exec = true) ->
  if rt =? 0 then
    exists s', register rt (Some sch) (fiber, exec) fd event cb s = (Ok 0, s') /\ io_inv s' /\
      m_fdContexts s' = <[Z.to_nat fd := with_waiter event (new_waiter sch fiber cb) c]> (m_fdContexts s) /\
      posted s' = posted s
  else register rt (Some sch) (fiber, exec) fd event cb s = (Ok (-1), s).
Proof.
  intros Hi Hfd He Hc Hw Hex. destruct (ii_ctx s Hi _ c Hc) as [Hok _]. unfold register.
  rewrite (bind_ok _ _ _ _ _ (context_run fd s c Hfd Hc)), has_waits, Hw by done. cbn [negb assert].
  rewrite (bind_ok (mret tt) _ s tt s) by done.
  rewrite (bind_ok _ _ _ _ _ (epoll_ctl_run rt _ fd _ s)).
  destruct (Z.eqb_spec rt 0) as [->|Hrt]; [|by destruct (Z.eqb_spec rt 0)]. cbn [negb Z.eqb].
  destruct (with_waiter_ok event sch fiber cb c He Hok Hw) as (H1 & H2 & H3 & H4 & H5).
  set (s1 := set_interest _ s). rewrite (bind_ok (modify _) _ s1 tt (add_pending 1 s1)) by done.
  set (c1 := set_events _ c).
  set (s2 := set_contexts (<[Z.to_nat fd := c1]> (m_fdContexts s)) (add_pending 1 s1)).
  rewrite (bind_ok (put_context fd c1) _ _ tt s2) by done.
  rewrite (bind_ok _ _ _ _ _ (getEventContext_run event c1 s2 He)).
  assert (Hec : ec_of event c1 = no_waiter)
    by (unfold c1; rewrite set_ec_of by done; by apply waits_false).
  rewrite Hec. cbn [no_waiter ec_scheduler ec_fiber ec_cb]. rewrite bool_decide_true by done. cbn [andb assert].
  rewrite (bind_ok (mret tt) _ s2 tt s2) by done.
  set (s3 := set_contexts (<[Z.to_nat fd := with_waiter event (new_waiter sch fiber cb) c]> (m_fdContexts s)) (add_pending 1 s1)).
  assert (Hput : put_context fd (with_waiter event (new_waiter sch fiber cb) c) s2 = (Ok tt, s3)).
  { unfold put_context, modify, s2, s3, set_contexts. cbn [m_fdContexts m_pendingEventCount interest posted].
    by rewrite list_insert_insert_eq. }
  exists s3. split.
  - destruct cb as [cb|]; cbn [fst snd].
    + by rewrite (bind_ok _ _ _ _ _ Hput).
    + rewrite Hex by done. erewrite bind_ok; [reflexivity|]. by rewrite (bind_ok _ _ _ _ _ Hput).
  - split; [|done]. apply (update_inv s fd c _ s3 Hi Hfd Hc H1 H2); [done| |].
    + rewrite H3. cbn. f_equal. lia.
    + intros d. unfold watched. rewrite H4. rewrite H4 in H5. unfold s3. cbn [interest set_contexts add_pending set_interest s1].
      destruct (Z.eqb_spec (Z.lor (ctx_events c) event) 0); [done|].
      destruct (ctx_events c =? 0); rewrite lookup_insert;
        by destruct (decide (fd = d)), (decide (d = fd)); congruence.
Qed.

Lemma new_ctx_ok i : ctx_ok (@new_FdContext F (Z.of_nat i)) /\ pending (@new_FdContext F (Z.of_nat i)) = 0.
Proof. done. Qed.

Lemma total_app l l' : total (l ++ l') = total l + total l'.
Proof. unfold total. induction l as [|c l IH]; [done|]. cbn [app fold_right]. rewrite IH. lia. Qed.

Lemma total_new (js : list nat) : total ((fun i => new_FdContext (Z.of_nat i)) <$> js) = 0.
Proof. unfold total. by induction js as [|i js IH]. Qed.

Lemma waiting_new (js : list nat) : waiting ((fun i => new_FdContext (Z.of_nat i)) <$> js) = [].
Proof. unfold waiting. by induction js as [|i js IH]. Qed.

(** Growing the vector adds contexts nobody waits on. *)
Lemma grow_ok fd s :
  io_inv s -> 0 <= fd < 2 ^ 31 -> ctx_at s fd = None ->
  exists s', grow fd s = (Ok tt, s') /\ io_inv s' /\ posted s' = posted s /\
    waiting (m_fdContexts s') = waiting (m_fdContexts s) /\
    (forall d c, 0 <= d -> ctx_at s d = Some c -> ctx_at s' d = Some c) /\
    ctx_at s' fd = Some (new_FdContext fd).
Proof.
  intros [Hc Hp Hsz Hi] Hfd Hnone.
  unfold grow, contextResize. set (n := Z.to_nat (3 * fd / 2)).
  assert (Hlen : (length (m_fdContexts s) <= Z.to_nat fd)%nat) by by apply lookup_ge_None.
  assert (Hn : Z.of_nat n = 3 * fd / 2) by (unfold n; rewrite Z2Nat.id; [done|zdiv]).
  assert (Hfn : (Z.to_nat fd < n)%nat) by (unfold n; zdiv).
  eexists. split; [reflexivity|].
  set (new := (fun i => new_FdContext (Z.of_nat i)) <$> _).
  assert (Htk : take n (m_fdContexts s) = m_fdContexts s) by (apply take_ge; lia).
  rewrite Htk in *. cbn [posted interest set_contexts m_fdContexts].
  assert (Hnew : forall i, new !! i = if decide (i < n - length (m_fdContexts s))%nat
             then Some (new_FdContext (Z.of_nat (length (m_fdContexts s) + i))) else None).
  { intros i. unfold new. rewrite Htk, list_lookup_fmap. destruct (decide _).
    - rewrite lookup_seq_lt by lia. done.
    - by rewrite lookup_seq_ge by lia. }
  assert (Hat : forall i, (m_fdContexts s ++ new) !! i = match m_fdContexts s !! i with Some c => Some c
            | None => if decide (i < n)%nat then Some (new_FdContext (Z.of_nat i)) else None end).
  { intros i. rewrite lookup_app. destruct (m_fdContexts s !! i) eqn:E; [done|].
    apply lookup_ge_None in E. rewrite Hnew. destruct (decide _), (decide _); try lia; [|done]. do 3 f_equal. lia. }
  split_and!; try done.
  - split; cbn [m_fdContexts m_pendingEventCount set_contexts interest].
    + intros i c. rewrite Hat. destruct (m_fdContexts s !! i) eqn:E; [intros [= <-]; exact (Hc i _ E)|].
      destruct (decide _); [|done]. intros [= <-]. done.
    + unfold new. rewrite Hp, total_app, total_new. lia.
    + rewrite length_app. unfold new. rewrite length_fmap, length_seq, Htk. zdiv.
    + intros d Hd. rewrite Hat, (Hi d Hd). destruct (m_fdContexts s !! Z.to_nat d); [done|].
      by destruct (decide _).
  - unfold waiting. rewrite bind_app. fold (waiting new). unfold new. by rewrite waiting_new, app_nil_r.
  - intros d c Hd Hdc. unfold ctx_at in *. cbn. by rewrite Hat, Hdc.
  - unfold ctx_at in *. cbn. rewrite Hat, Hnone, decide_True by done. by rewrite Z2Nat.id by lia.
Qed.

Definition add_ok (event : Z) s (fd : Z) : Prop :=
  match ctx_at s fd with Some c => waits event c = false | None => True end.

Lemma addEvent_ok rt sch fiber exec fd event cb s :
  io_inv s -> 0 <= fd < 2 ^ 31 -> event_ok event -> add_ok event s fd -> (cb = None -> exec = true) ->
  exists s' s1 c, io_inv s' /\ posted s1 = posted s /\ posted s' = posted s /\
    waiting (m_fdContexts s1) = waiting (m_fdContexts s) /\
    (forall d c, 0 <= d -> ctx_at s d = Some c -> ctx_at s1 d = Some c) /\
    ctx_at s1 fd = Some c /\ ctx_ok c /\ waits event c = false /\
    if rt =? 0 then
      addEvent rt (Some sch) (fiber, exec) fd event cb s = (Ok 0, s') /\
      m_fdContexts s' = <[Z.to_nat fd := with_waiter event (new_waiter sch fiber cb) c]> (m_fdContexts s1)
    else addEvent rt (Some sch) (fiber, exec) fd event cb s = (Ok (-1), s') /\ s' = s1.
Proof.
  intros Hi Hfd He Hadd Hex. unfold addEvent.
  rewrite (bind_ok _ _ _ _ _ (in_range_run fd s)), in_range_at by lia.
  assert (exists s1 c, when (negb (match ctx_at s fd with Some _ => true | None => false end)) (grow fd) s = (Ok tt, s1) /\
    io_inv s1 /\ posted s1 = posted s /\ waiting (m_fdContexts s1) = waiting (m_fdContexts s) /\
    (forall d c, 0 <= d -> ctx_at s d = Some c -> ctx_at s1 d = Some c) /\
    ctx_at s1 fd = Some c /\ waits event c = false) as (s1 & c & Hrun & Hi1 & Hp1 & Hw1 & Hall & Hc & Hw).
  { unfold add_ok in Hadd. destruct (ctx_at s fd) as [c|] eqn:Hc.
    - exists s, c. by split_and!.
    - destruct (grow_ok fd s Hi Hfd Hc) as (s1 & H1 & H2 & H3 & H4 & H5 & H6).
      exists s1, (new_FdContext fd). split_and!; try done. by destruct He as [-> | ->]. }
  rewrite (bind_ok _ _ _ _ _ Hrun).
  pose proof (register_ok rt sch fiber exec fd event cb s1 c Hi1 ltac:(lia) He Hc Hw Hex) as Hreg.
  destruct (ii_ctx s1 Hi1 _ c Hc) as [Hok _]. destruct (rt =? 0).
  - destruct Hreg as (s' & ? & ? & ? & ?). exists s', s1, c. split_and!; try done. congruence.
  - exists s1, s1, c. by split_and!.
Qed.

(** ** The entries of [epoll_wait] *)

Lemma has_lor a b x : has (Z.lor a b) x = has a x || has b x.
Proof.
  unfold has. rewrite Z.land_lor_distr_l. destruct (Z.eqb_spec (Z.land a x) 0) as [->|Ha].
  - by rewrite Z.lor_0_l.
  - destruct (Z.eqb_spec (Z.lor (Z.land a x) (Z.land b x)) 0) as [H|]; [|done].
    apply Z.lor_eq_0_iff in H. by destruct H.
Qed.

(** The waiters an entry calls for. *)
Definition calls (events event : Z) c : bool :=
  has events event || has events (Z.lor EPOLLERR EPOLLHUP) && waits event c.

Lemma real_events events event c :
  event_ok event -> ctx_ok c ->
  has (if has events (Z.lor EPOLLERR EPOLLHUP)
       then Z.lor events (Z.land (Z.lor EPOLLIN EPOLLOUT) (ctx_events c)) else events) event =
  calls events event c.
Proof.
  intros He Hc. unfold calls. rewrite <- (has_waits event c He Hc).
  destruct (has events (Z.lor EPOLLERR EPOLLHUP)); [|by rewrite orb_false_r].
  rewrite has_lor. f_equal. cbn [andb]. unfold has. rewrite (Z.land_comm (Z.lor _ _)), <- Z.land_assoc.
  by destruct He as [-> | ->].
Qed.

Lemma has_bits r w : has (Z.lor (if r : bool then READ else NONE) (if w : bool then WRITE else NONE)) READ = r /\
  has (Z.lor (if r : bool then READ else NONE) (if w : bool then WRITE else NONE)) WRITE = w.
Proof. by destruct r, w. Qed.

Lemma triggerEvent_nobody fd event s c :
  0 <= fd -> ctx_at s fd = Some c -> ctx_ok c -> event_ok event -> waits event c = false ->
  triggerEvent fd event s = (Crash AssertFail, s).
Proof.
  intros Hfd Hc Hok He Hw. unfold triggerEvent.
  by rewrite (bind_ok _ _ _ _ _ (context_run fd s c Hfd Hc)), has_waits, Hw by done.
Qed.

Lemma handle_ok fd events rt2 s c :
  io_inv s -> 0 <= fd -> ctx_at s fd = Some c ->
  let r := calls events READ c in let w := calls events WRITE c in
  if (r && waits READ c || w && waits WRITE c) && (rt2 =? 0) then
    if (negb r || waits READ c) && (negb w || waits WRITE c) then
      exists s' c', handle (Ready fd events) rt2 s = (Ok tt, s') /\ io_inv s' /\
        m_fdContexts s' = <[Z.to_nat fd := c']> (m_fdContexts s) /\
        c' = drop_if w WRITE (drop_if r READ c) /\
        posted s' = posted s ++ (if r then waiter READ c else []) ++ (if w then waiter WRITE c else [])
    else exists s', handle (Ready fd events) rt2 s = (Crash AssertFail, s')
  else handle (Ready fd events) rt2 s = (Ok tt, s).
Proof.
  intros Hi Hfd Hc r w. destruct (ii_ctx s Hi _ c Hc) as [Hok Hf].
  assert (HR : event_ok READ) by by left. assert (HW : event_ok WRITE) by by right.
  unfold handle. rewrite (bind_ok _ _ _ _ _ (context_run fd s c Hfd Hc)).
  change EPOLLIN with READ. change EPOLLOUT with WRITE.
  change (Z.lor READ WRITE) with (Z.lor EPOLLIN EPOLLOUT).
  rewrite !real_events by done. fold r w. rewrite Hf, Z2Nat.id by done.
  assert (Hz : (Z.land (ctx_events c) (Z.lor (if r then READ else NONE) (if w then WRITE else NONE)) =? NONE) =
               negb (r && waits READ c || w && waits WRITE c)).
  { destruct Hok as (_ & _ & ->). unfold waits, ec_of. cbn [Z.eqb Pos.eqb READ WRITE].
    by destruct (armed (ctx_read c)), (armed (ctx_write c)), r, w. }
  rewrite Hz. destruct (r && waits READ c || w && waits WRITE c) eqn:Hany; [|done]. cbn [negb andb].
  rewrite (bind_ok _ _ _ _ _ (epoll_ctl_run rt2 _ fd _ s)).
  destruct (Z.eqb_spec rt2 0) as [->|]; [|done]. cbn [negb Z.eqb].
  destruct (has_bits r w) as [-> ->].
  destruct ((negb r || waits READ c) && (negb w || waits WRITE c)) eqn:Hall.
  - apply andb_prop in Hall as [Hr Hw].
    assert (Hev : ctx_events (drop_if w WRITE (drop_if r READ c)) =
      Z.land (ctx_events c) (Z.lnot (Z.lor (if r then READ else NONE) (if w then WRITE else NONE)))).
    { clear -Hok. destruct Hok as (_ & _ & He). unfold drop_if, without, resetEventContext, set_ec, set_events.
      by destruct r, w; cbn [ctx_events ctx_read ctx_write Z.eqb Pos.eqb READ WRITE]; rewrite He;
        destruct (armed (ctx_read c)), (armed (ctx_write c)). }
    destruct (trigger_both r w fd s c (match op_without (Z.land (ctx_events c) (Z.lnot (Z.lor (if r then READ else NONE) (if w then WRITE else NONE)))) with
       | EPOLL_CTL_DEL => delete fd (interest s)
       | _ => <[fd := Z.lor EPOLLET (Z.land (ctx_events c) (Z.lnot (Z.lor (if r then READ else NONE) (if w then WRITE else NONE))))]> (interest s) end))
      as (s' & Hrun & Hi' & Hc' & _ & Hl & Hp); [done..| | | |].
    + intros ->. done.
    + intros ->. done.
    + intros d. by apply interest_without.
    + by exists s', (drop_if w WRITE (drop_if r READ c)).
  - set (s1 := set_interest _ s). assert (Hc1 : ctx_at s1 fd = Some c) by done.
    destruct r, w; cbn [negb orb andb] in *; try done.
    + destruct (waits READ c) eqn:HwR; cbn [andb] in *.
      * destruct (trigger_if_run true fd READ s1 c) as (s2 & H2 & Hl2 & _); [done..|].
        rewrite (bind_ok _ _ _ _ _ H2). destruct (drop_if_ok true READ c HR Hok ltac:(done)) as (Hok1 & _ & _ & _ & Hec).
        exists s2. unfold trigger_if. erewrite bind_crash; [reflexivity|].
        eapply triggerEvent_nobody; [done| |exact Hok1|done|].
        -- unfold ctx_at. rewrite Hl2. apply list_lookup_insert_eq. by eapply lookup_lt_Some.
        -- unfold waits. by rewrite Hec.
      * exists s1. unfold trigger_if. do 2 (erewrite bind_crash; [reflexivity|]). by eapply triggerEvent_nobody.
    + by destruct (waits READ c).
    + by destruct (waits WRITE c).
Qed.

(** ** Executions *)

Inductive op :=
| Add (rt : Z) (sch fiber : nat) (exec : bool) (fd event : Z) (cb : option F)
| Del (rt fd event : Z)
| Cancel (rt fd event : Z)
| CancelAll (rt fd : Z)
| Handle (ev : epoll_event) (rt2 : Z).

(** Whether the operation took effect. *)
Definition run (o : op) : M (IOManager F) bool :=
  match o with
  | Add rt sch fiber exec fd event cb => r ← addEvent rt (Some sch) (fiber, exec) fd event cb; mret (r =? 0)
  | Del rt fd event => delEvent rt fd event
  | Cancel rt fd event => cancelEvent rt fd event
  | CancelAll rt fd => cancelAll rt fd
  | Handle ev rt2 => handle ev rt2 ;; mret true
  end.

(** What callers respect, and what epoll promises: an entry reports only events being watched
    on an open descriptor, besides errors. *)
Definition allowed (o : op) s : Prop :=
  match o with
  | Add rt sch fiber exec fd event cb =>
      0 <= fd < 2 ^ 31 /\ event_ok event /\ add_ok event s fd /\ (cb = None -> exec = true)
  | Del rt fd event | Cancel rt fd event => 0 <= fd /\ event_ok event
  | CancelAll rt fd => 0 <= fd
  | Handle Tickle rt2 => True
  | Handle (Ready fd events) rt2 => 0 <= fd /\ exists c, ctx_at s fd = Some c /\
      forall event, event_ok event -> has events event = true -> waits event c = true
  end.

(** The waiter an operation registers, and the one it removes without waking. *)
Definition adds (o : op) : list (nat * ScheduleTask F) :=
  match o with Add rt sch fiber exec fd event cb => [(sch, task_of (new_waiter sch fiber cb))] | _ => [] end.
Definition removes (o : op) s : list (nat * ScheduleTask F) :=
  match o with
  | Del rt fd event => match ctx_at s fd with Some c => waiter event c | None => [] end
  | _ => []
  end.

Lemma waiting_split (l : list (FdContext F)) i c :
  l !! i = Some c -> exists rest, waiting l ≡ₚ waiters c ++ rest /\
    forall c', waiting (<[i := c']> l) ≡ₚ waiters c' ++ rest.
Proof.
  intros Hi. exists (waiting (take i l) ++ waiting (drop (S i) l)).
  pose proof (lookup_lt_Some _ _ _ Hi) as Hlt. unfold waiting. split; [|intros c'].
  - rewrite <- (take_drop_middle l i c Hi) at 1. rewrite bind_app, bind_cons. solve_Permutation.
  - rewrite insert_take_drop by done. rewrite bind_app, bind_cons. solve_Permutation.
Qed.

Lemma waiters_without event c : event_ok event -> waiters c ≡ₚ waiter event c ++ waiters (without event c).
Proof.
  intros [-> | ->]; unfold waiters, waiter, without, resetEventContext, set_ec, set_events, ec_of;
    cbn [Z.eqb Pos.eqb READ WRITE ctx_read ctx_write no_waiter ec_scheduler]; rewrite ?app_nil_l, ?app_nil_r;
    solve_Permutation.
Qed.

Lemma waiters_drop b event c :
  event_ok event -> waiters c ≡ₚ (if b : bool then waiter event c else []) ++ waiters (drop_if b event c).
Proof. intros He. destruct b; [by apply waiters_without|done]. Qed.

Lemma waiters_with event sch fiber cb c :
  event_ok event -> ctx_ok c -> waits event c = false ->
  waiters (with_waiter event (new_waiter sch fiber cb) c) ≡ₚ (sch, task_of (new_waiter sch fiber cb)) :: waiters c.
Proof.
  intros He Hc Hw. pose proof (waits_false event c He Hc Hw) as Hec.
  destruct He as [-> | ->]; unfold waiters, waiter, with_waiter, set_ec, set_events, ec_of in *;
    cbn [Z.eqb Pos.eqb READ WRITE ctx_read ctx_write ec_scheduler new_waiter] in *; rewrite Hec;
    cbn [no_waiter ec_scheduler]; solve_Permutation.
Qed.

(** The operation returns, keeps the invariant, and moves waiters without losing or copying one. *)
Definition accounts (o : op) s : Prop :=
  exists b s', run o s = (Ok b, s') /\ io_inv s' /\
    (if b : bool then adds o else []) ++ waiting (m_fdContexts s) ++ posted s ≡ₚ
    (if b then removes o s else []) ++ waiting (m_fdContexts s') ++ posted s'.

Lemma handle_accounts fd events rt2 s :
  io_inv s -> allowed (Handle (Ready fd events) rt2) s -> accounts (Handle (Ready fd events) rt2) s.
Proof.
  intros Hi (Hfd & c & Hc & Hfresh). unfold accounts. cbn [run adds removes]. pose proof (handle_ok fd events rt2 s c Hi Hfd Hc) as H. cbv zeta in H.
  destruct ((_ || _) && _); [|exists true, s; by rewrite (bind_ok _ _ _ _ _ H)].
  assert (Hcalls : forall event, event_ok event -> negb (calls events event c) || waits event c = true).
  { intros event He. unfold calls. destruct (waits event c) eqn:Hw; [by rewrite orb_true_r|].
    destruct (has events event) eqn:Hh; [|by rewrite andb_false_r]. by rewrite (Hfresh event) in Hw. }
  rewrite !Hcalls in H by (by (left + right)). cbn [andb] in H.
  destruct H as (s' & c' & Hrun & Hi' & Hl & -> & Hp). exists true, s'.
  rewrite (bind_ok _ _ _ _ _ Hrun). split_and!; [done..|].
  destruct (waiting_split _ _ _ Hc) as (rest & H1 & H2). rewrite Hl, Hp, H1, H2.
  rewrite (waiters_drop (calls events READ c) READ c) by by left.
  rewrite (waiters_drop (calls events WRITE c) WRITE (drop_if (calls events READ c) READ c)) by by right.
  assert (waiter WRITE (drop_if (calls events READ c) READ c) = waiter WRITE c) as ->
    by (by destruct (calls events READ c)).
  destruct (calls events READ c), (calls events WRITE c); solve_Permutation.
Qed.

(** Every allowed operation returns, keeps the invariant, and moves waiters without losing
    or copying one. *)
Lemma run_ok o s : io_inv s -> allowed o s -> accounts o s.
Proof.
  intros Hi. destruct o as [rt sch fiber exec fd event cb|rt fd event|rt fd event|rt fd|[|fd events] rt2];
    [..|by apply handle_accounts]; unfold accounts; cbn [allowed run adds removes].
  - intros (Hfd & He & Hadd & Hex).
    destruct (addEvent_ok rt sch fiber exec fd event cb s Hi Hfd He Hadd Hex)
      as (s' & s1 & c & Hi' & Hp1 & Hp & Hw1 & _ & Hc & Hok & Hw & Hrun).
    destruct (rt =? 0); destruct Hrun as [Hrun Hl].
    + exists true, s'. rewrite (bind_ok _ _ _ _ _ Hrun). split_and!; [done..|].
      destruct (waiting_split _ _ _ Hc) as (rest & H1 & H2). rewrite Hl, Hp, <- Hw1, H1, H2, waiters_with by done.
      solve_Permutation.
    + exists false, s'. rewrite (bind_ok _ _ _ _ _ Hrun). split_and!; [done..|]. subst s'. by rewrite Hp, Hw1.
  - intros [Hfd He]. pose proof (delEvent_ok rt fd event s Hi Hfd He) as H.
    destruct (ctx_at s fd) as [c|] eqn:Hc; [|by exists false, s].
    destruct (waits event c && (rt =? 0)); [|by exists false, s].
    destruct H as (s' & Hrun & Hi' & Hl & Hp). exists true, s'. split_and!; [done..|].
    destruct (waiting_split _ _ _ Hc) as (rest & H1 & H2).
    rewrite Hl, Hp, H1, H2, (waiters_without event c) by done. solve_Permutation.
  - intros [Hfd He]. pose proof (cancelEvent_ok rt fd event s Hi Hfd He) as H.
    destruct (ctx_at s fd) as [c|] eqn:Hc; [|by exists false, s].
    destruct (waits event c && (rt =? 0)); [|by exists false, s].
    destruct H as (s' & Hrun & Hi' & Hl & Hp). exists true, s'. split_and!; [done..|].
    destruct (waiting_split _ _ _ Hc) as (rest & H1 & H2).
    rewrite Hl, Hp, H1, H2, (waiters_without event c) by done. solve_Permutation.
  - intros Hfd. pose proof (cancelAll_ok rt fd s Hi Hfd) as H.
    destruct (ctx_at s fd) as [c|] eqn:Hc; [|by exists false, s].
    destruct ((waits READ c || waits WRITE c) && (rt =? 0)); [|by exists false, s].
    destruct H as (s' & c' & Hrun & Hi' & Hc' & Hr & Hw & Hp & Hl). exists true, s'. split_and!; [done..|].
    destruct (waiting_split _ _ _ Hc) as (rest & H1 & H2). rewrite Hl, Hp, H1, H2.
    assert (waiters c' = []) as ->.
    { unfold waiters, waiter, waits, armed in *. destruct (ec_scheduler (ec_of READ c')), (ec_scheduler (ec_of WRITE c')); done. }
    unfold waiters. solve_Permutation.
  - intros _. by exists true, s.
Qed.

(** [reachable R D s]: [s] is reached with the waiters [R] registered and [D] removed. *)
Inductive reachable : list (nat * ScheduleTask F) -> list (nat * ScheduleTask F) -> IOManager F -> Prop :=
| reach_init : reachable [] [] new_IOManager
| reach_step R D s o b s' :
    reachable R D s -> allowed o s -> run o s = (Ok b, s') ->
    reachable (R ++ if b then adds o else []) (D ++ if b then removes o s else []) s'.

Lemma new_io_inv : io_inv (@new_IOManager F).
Proof.
  assert (Hat : forall i (c : FdContext F), m_fdContexts new_IOManager !! i = Some c -> c = new_FdContext (Z.of_nat i)).
  { intros i c. unfold new_IOManager. cbn [m_fdContexts]. rewrite list_lookup_fmap.
    destruct (seq 0 32 !! i) eqn:E; [|done]. apply lookup_seq in E as [-> _]. by intros [= <-]. }
  split.
  - intros i c Hc. by rewrite (Hat i c Hc).
  - unfold new_IOManager. cbn [m_fdContexts m_pendingEventCount]. by rewrite total_new.
  - done.
  - intros fd _. destruct (m_fdContexts new_IOManager !! Z.to_nat fd) eqn:E; [|done]. by rewrite (Hat _ _ E).
Qed.

Lemma io_reachable_inv R D s :
  reachable R D s -> io_inv s /\ R ≡ₚ D ++ waiting (m_fdContexts s) ++ posted s.
Proof.
  induction 1 as [|R D s o b s' _ [Hi Hperm] Ha Hrun].
  - split; [apply new_io_inv|]. unfold new_IOManager. cbn [m_fdContexts posted]. by rewrite waiting_new.
  - destruct (run_ok o s Hi Ha) as (b' & s'' & Hrun' & Hi' & Hw). rewrite Hrun in Hrun'. injection Hrun' as <- <-.
    split; [done|]. rewrite Hperm.
    transitivity (D ++ ((if b then adds o else []) ++ waiting (m_fdContexts s) ++ posted s)); [solve_Permutation|].
    rewrite Hw. solve_Permutation.
Qed.

(** C3: In every state of the manager reached by its operations (registration, removal, cancellation and
    the entries of [epoll_wait], in any order, whatever each [epoll_ctl] answers) each descriptor's
    [events] field names exactly the events somebody waits for, [m_pendingEventCount] is their number,
    and epoll watches exactly them, edge-triggered; and every allowed operation returns: no assertion
    of the manager fails, no index is out of range. *)
Theorem io_reachable_safe R D s :
  reachable R D s ->
  (forall i c, m_fdContexts s !! i = Some c ->
     ctx_events c = (if waits READ c then READ else 0) + (if waits WRITE c then WRITE else 0)) /\
  m_pendingEventCount s = Z.of_nat (length (waiting (m_fdContexts s))) /\
  (forall fd c, 0 <= fd -> ctx_at s fd = Some c -> interest s !! fd =
     if ctx_events c =? 0 then None else Some (Z.lor EPOLLET (ctx_events c))) /\
  forall o, allowed o s -> exists b s', run o s = (Ok b, s').
Proof.
  intros Hr. destruct (io_reachable_inv R D s Hr) as [Hi _]. split_and!.
  - intros i c Hc. by destruct (ii_ctx s Hi i c Hc) as [(_ & _ & ?) _].
  - rewrite (ii_pending s Hi). clear. induction (m_fdContexts s) as [|c l IH]; [done|].
    cbn [total fold_right]. change (fold_right _ 0 l) with (total l). rewrite IH.
    change (waiting (c :: l)) with (waiters c ++ waiting l). rewrite length_app.
    unfold pending, count, waiters, waiter, armed, ec_of. cbn [Z.eqb Pos.eqb READ WRITE].
    destruct (ec_scheduler (ctx_read c)), (ec_scheduler (ctx_write c)); cbn [app length bool_decide]; cbn; lia.
  - intros fd c Hfd Hc. rewrite (ii_interest s Hi fd Hfd). unfold ctx_at in Hc. by rewrite Hc.
  - intros o Ha. destruct (run_ok o s Hi Ha) as (b & s' & ? & _). by exists b, s'.
Qed.

(** C4: No waiter is lost and none is woken twice: in every reachable state, the waiters registered by
    successful [addEvent] calls are, each exactly once, removed by a successful [delEvent], still
    waiting, or handed to their own scheduler with their own fiber or callback. *)
Theorem waiters_accounted R D s :
  reachable R D s -> R ≡ₚ D ++ waiting (m_fdContexts s) ++ posted s.
Proof. intros Hr. by destruct (io_reachable_inv R D s Hr). Qed.

(** An entry [epoll_wait] returned before another thread removed one of its two events stops the
    program: with a reader and a writer waiting, [delEvent] of the read event between [epoll_wait] and
    the handling of an entry reporting both fails the assertion of [triggerEvent]. *)
Theorem stale_entry_asserts R D s fd c s' :
  reachable R D s -> 0 <= fd -> ctx_at s fd = Some c -> waits WRITE c = true ->
  delEvent 0 fd READ s = (Ok true, s') ->
  exists s'', handle (Ready fd (Z.lor EPOLLIN EPOLLOUT)) 0 s' = (Crash AssertFail, s'').
Proof.
  intros Hr Hfd Hc Hw Hdel. destruct (io_reachable_inv R D s Hr) as [Hi _].
  assert (HR : event_ok READ) by by left.
  pose proof (delEvent_ok 0 fd READ s Hi Hfd HR) as H. rewrite Hc in H.
  destruct (waits READ c && (0 =? 0)); [|rewrite H in Hdel; congruence].
  destruct H as (s1 & Hrun & Hi' & Hl & _). rewrite Hdel in Hrun. injection Hrun as <-.
  assert (Hc' : ctx_at s' fd = Some (without READ c)).
  { unfold ctx_at. rewrite Hl. apply list_lookup_insert_eq. by eapply lookup_lt_Some. }
  destruct (ii_ctx s Hi _ c Hc) as [Hok _].
  destruct (without_ok READ c HR Hok) as (_ & _ & _ & _ & Hn & Hec).
  pose proof (handle_ok fd (Z.lor EPOLLIN EPOLLOUT) 0 s' _ Hi' Hfd Hc') as H. cbv zeta in H.
  assert (Hww : waits WRITE (without READ c) = true) by (unfold waits; rewrite Hec; [done|by right|done]).
  rewrite Hn, Hww in H. exact H.
Qed.

(** Two threads that both found the vector too short can lose a registration: when the second to
    resize is for a smaller descriptor, the context the first has just armed is cut off, and from then
    on the event, still counted and still watched, can be neither removed nor cancelled. *)
Theorem grow_race_loses_context R D s sch fiber cb a b :
  reachable R D s -> 0 <= b < 2 ^ 31 -> 3 * a / 2 <= b -> ctx_at s b = None ->
  exists s1 s2, (grow b ;; register 0 (Some sch) (fiber, true) b READ cb) s = (Ok 0, s1) /\
    grow a s1 = (Ok tt, s2) /\ ctx_at s2 b = None /\
    interest s2 !! b = Some (Z.lor EPOLLET READ) /\
    m_pendingEventCount s2 = m_pendingEventCount s + 1 /\
    (forall rt, delEvent rt b READ s2 = (Ok false, s2) /\ cancelEvent rt b READ s2 = (Ok false, s2) /\
                cancelAll rt b s2 = (Ok false, s2)).
Proof.
  intros Hr Hb Hab Hnone. destruct (io_reachable_inv R D s Hr) as [Hi _].
  destruct (grow_ok b s Hi Hb Hnone) as (g & Hg & Hig & Hpg & Hwg & _ & Hcg).
  assert (Hcount : m_pendingEventCount g = m_pendingEventCount s) by (by injection Hg as <-).
  assert (HR : event_ok READ) by by left.
  pose proof (register_ok 0 sch fiber true b READ cb g (new_FdContext b) Hig ltac:(lia) HR Hcg
    ltac:(done) ltac:(done)) as (s1 & Hreg & Hi1 & Hl & _).
  exists s1. eexists. rewrite (bind_ok _ _ _ _ _ Hg). split; [exact Hreg|]. split; [reflexivity|].
  set (s2 := set_contexts _ s1). cbn beta.
  assert (Hshort : ctx_at s2 b = None).
  { apply lookup_ge_None. unfold s2. cbn [m_fdContexts set_contexts].
    rewrite length_app, length_fmap, length_seq, length_take.
    assert (Z.to_nat b < length (m_fdContexts s1))%nat.
    { rewrite Hl, length_insert. by eapply lookup_lt_Some. }
    assert (Z.to_nat (3 * a / 2) <= Z.to_nat b)%nat by lia. lia. }
  split; [exact Hshort|].
  assert (Hc1 : ctx_at s1 b = Some (with_waiter READ (new_waiter sch fiber cb) (new_FdContext b))).
  { unfold ctx_at. rewrite Hl. apply list_lookup_insert_eq. by eapply lookup_lt_Some. }
  destruct (with_waiter_ok READ sch fiber cb (new_FdContext b) HR ltac:(done) ltac:(done)) as (_ & _ & Hpend & _).
  split_and!.
  - change (interest s2) with (interest s1). rewrite (ii_interest s1 Hi1 b ltac:(lia)).
    unfold ctx_at in Hc1. by rewrite Hc1.
  - change (m_pendingEventCount s2) with (m_pendingEventCount s1).
    rewrite <- Hcount, (ii_pending s1 Hi1), (ii_pending g Hig), Hl, (total_insert _ _ _ _ Hcg), Hpend.
    change (pending (new_FdContext b)) with 0. lia.
  - intros rt. unfold delEvent, cancelEvent, cancelAll.
    rewrite !(bind_ok _ _ _ _ _ (in_range_run b s2)), in_range_at, Hshort by lia. done.
Qed.
End inv.

(** ** A turn of [idle] *)

(** C40: The time [epoll_wait] may sleep: five seconds when there is no timer, otherwise the waiting time
    of the next timer or five seconds, whichever is shorter, as long as that time is under 2^31 ms; for
    a timer 2^31 to 2^32 ms away (25 to 50 days) the conversion to [int] makes it negative, which lets
    [epoll_wait] sleep without a limit. *)
Theorem wait_timeout_bounds t :
  unsigned_range 64 t ->
  (t = 2 ^ 64 - 1 -> wait_timeout t = 5000) /\
  (t < 2 ^ 31 -> wait_timeout t = Z.min t 5000) /\
  (2 ^ 31 <= t < 2 ^ 32 -> wait_timeout t < 0).
Proof.
  intros [H0 H1]. unfold wait_timeout.
  assert (Hi : forall z, - 2 ^ 31 <= z < 2 ^ 31 -> i32 (u64 z) = z) by (intros z Hz; unfold swrap, wrap; zdiv).
  split_and!; intros Ht.
  - by subst t.
  - destruct (Z.eqb_spec t (2 ^ 64 - 1)); [lia|].
    rewrite (swrap_small 32 t) by (unfold signed_range; lia). apply Hi. lia.
  - destruct (Z.eqb_spec t (2 ^ 64 - 1)); [lia|].
    assert (i32 t = t - 2 ^ 32) as -> by (unfold swrap; zdiv). rewrite Hi; lia.
Qed.

Lemma wait_timeout_bounds_witness : wait_timeout (2 ^ 31) < 0 /\ wait_timeout 7 = 7.
Proof.
  split; [apply (wait_timeout_bounds (2 ^ 31)) | apply (wait_timeout_bounds 7)]; unfold unsigned_range; lia.
Defined.

(** ** Witnesses *)

(** A reader and a writer of descriptor 3, on scheduler 7. *)
Definition read_op : op (F := nat) := Add 0 7 100 true 3 READ None.
Definition write_op : op (F := nat) := Add 0 7 101 true 3 WRITE (Some 55%nat).
Definition one_waiter : IOManager nat := snd (run read_op new_IOManager).
Definition two_waiters : IOManager nat := snd (run write_op one_waiter).

Lemma two_waiters_reachable :
  reachable [(7%nat, mkTask (Some 100%nat) None (-1)); (7%nat, mkTask None (Some 55%nat) (-1))] [] two_waiters.
Proof.
  apply (reach_step [(7%nat, mkTask (Some 100%nat) None (-1))] [] one_waiter write_op true).
  - apply (reach_step [] [] new_IOManager read_op true); [exact reach_init|split_and!; try done; by left|done].
  - split_and!; try done; by right.
  - done.
Qed.

Lemma io_reachable_safe_witness : m_pendingEventCount two_waiters = 2 /\
  exists b s', run (Handle (Ready 3 (Z.lor EPOLLIN EPOLLERR)) 0) two_waiters = (Ok b, s').
Proof.
  destruct (io_reachable_safe _ _ _ two_waiters_reachable) as (_ & Hn & _ & H).
  split; [exact Hn|]. apply H. split; [lia|]. eexists. split; [reflexivity|].
  intros event [-> | ->]; done.
Defined.

Lemma waiters_accounted_witness :
  [(7%nat, mkTask (Some 100%nat) None (-1)); (7%nat, mkTask None (Some 55%nat) (-1))] ≡ₚ
  waiting (m_fdContexts two_waiters) ++ posted two_waiters.
Proof. apply (waiters_accounted _ [] _ two_waiters_reachable). Defined.

Lemma stale_entry_asserts_witness :
  exists s'', handle (Ready 3 (Z.lor EPOLLIN EPOLLOUT)) 0 (snd (delEvent 0 3 READ two_waiters)) = (Crash AssertFail, s'').
Proof.
  eapply (stale_entry_asserts _ _ _ 3 _ _ two_waiters_reachable); [lia|reflexivity|reflexivity|reflexivity].
Defined.

Lemma grow_race_loses_context_witness :
  exists s1 s2, (grow 60 ;; register 0 (Some 7%nat) (100%nat, true) 60 READ None) two_waiters = (Ok 0, s1) /\
    grow 40 s1 = (Ok tt, s2) /\ ctx_at s2 60 = None.
Proof.
  destruct (grow_race_loses_context _ _ _ 7 100 None 40 60 two_waiters_reachable) as (s1 & s2 & H1 & H2 & H3 & _);
    [lia|zdiv|reflexivity|]. exists s1, s2. by split_and!.
Defined.
