(* ===== verification/Socket.v ===== *)
(** * Sockets: src/src/socket/socket.cc

    A [Socket] and what its methods do through the hooked calls, which are an interface
    here ([Net]); addresses are those of [Address], passed and filled in as memory images.
    The log messages are left out. *)

From S2P Require Import Prelude Endians Utils Address FdManager.
#[local] Set Default Goal Selector "!".

Definition SOCK_STREAM : Z := 1.
Definition SOCK_DGRAM : Z := 2.
Definition SOL_SOCKET : Z := 1.
Definition IPPROTO_TCP : Z := 6.
Definition SO_REUSEADDR : Z := 2.
Definition SO_ERROR : Z := 4.
Definition TCP_NODELAY : Z := 1.
Definition SOMAXCONN : Z := 4096.
Definition READ : Z := 1.
Definition WRITE : Z := 4.

(** The value of an option: an [int] or a [timeval]. *)
Inductive optval :=
| OInt (v : Z)
| OTimeval (tv_sec tv_usec : Z).

(** The calls a socket makes: the hooked system calls, the descriptor table
    ([FdManager::get]), the file system and [IOManager::GetThis()].  [n_getname] is
    [getpeername] (with [true]) and [getsockname]: given the structure's bytes and length it
    returns both.  [n_recv] also returns what it leaves in the address structure it is given. *)
Class Net (K : Type) := {
  n_socket : Z -> Z -> Z -> K -> Z * K;
  n_bind : Z -> str -> Z -> K -> Z * K;
  n_listen : Z -> Z -> K -> Z * K;
  n_accept : Z -> K -> Z * K;
  n_connect : Z -> str -> Z -> option Z -> K -> Z * K;
  n_close : Z -> K -> Z * K;
  n_getname : bool -> Z -> str -> Z -> K -> (Z * str * Z) * K;
  n_setsockopt : Z -> Z -> Z -> optval -> K -> Z * K;
  n_getsockopt : Z -> Z -> Z -> K -> (Z * Z) * K;
  n_send : Z -> str -> Z -> option (str * Z) -> K -> Z * K;
  n_recv : Z -> Z -> Z -> option (str * Z) -> K -> (Z * str * str) * K;
  n_errno : K -> Z;
  n_ctx : Z -> K -> option FdCtx;
  n_fs : FileSystem K;
  n_cancel : Z -> Z -> K -> bool * K;
  n_cancelAll : Z -> K -> bool * K
}.

Record Sock := mkSock {
  m_sock : Z;
  m_family : Z;
  m_type : Z;
  m_protocol : Z;
  m_isConnected : bool;
  m_localAddress : option Address;
  m_remoteAddress : option Address
}.

Definition set_sock (fd : Z) (s : Sock) : Sock :=
  mkSock fd (m_family s) (m_type s) (m_protocol s) (m_isConnected s) (m_localAddress s) (m_remoteAddress s).
Definition set_connected (b : bool) (s : Sock) : Sock :=
  mkSock (m_sock s) (m_family s) (m_type s) (m_protocol s) b (m_localAddress s) (m_remoteAddress s).
Definition set_local (a : option Address) (s : Sock) : Sock :=
  mkSock (m_sock s) (m_family s) (m_type s) (m_protocol s) (m_isConnected s) a (m_remoteAddress s).
Definition set_remote (a : option Address) (s : Sock) : Sock :=
  mkSock (m_sock s) (m_family s) (m_type s) (m_protocol s) (m_isConnected s) (m_localAddress s) a.

(** The constructor. *)
Definition new_Socket (family type protocol : Z) : Sock := mkSock (-1) family type protocol false None None.

Section Socket.
Context (host : byte_order) {K : Type} `{Net K}.

Abbreviation SK := (M (Sock * K)).

Definition upd (f : Sock -> Sock) : SK unit := modify (fun p => (f (fst p), snd p)).
Definition self : SK Sock := gets fst.
Definition call {A} (f : K -> A * K) : SK A := fun p => let '(a, k) := f (snd p) in (Ok a, (fst p, k)).

(** A method of another socket in the same process. *)
Definition on_sock {A} (s : Sock) (m : SK A) : SK (A * Sock) :=
  fun p => match m (s, snd p) with
           | (Ok a, (s', k)) => (Ok (a, s'), (fst p, k))
           | (Throw e, (_, k)) => (Throw e, (fst p, k))
           | (Crash c, (_, k)) => (Crash c, (fst p, k))
           end.

Definition isValid (s : Sock) : bool := negb (m_sock s =? -1).
Definition isConnected (s : Sock) : bool := m_isConnected s.

(** ** Options *)

(** The result of [getOption] when it succeeds. *)
Definition getOption (level option : Z) : SK (Datatypes.option Z) :=
  s ← self;
  '(rt, v) ← call (n_getsockopt (m_sock s) level option);
  mret (if negb (rt =? 0) then None else Some v).

Definition setOption (level option : Z) (value : optval) : SK bool :=
  s ← self;
  rt ← call (n_setsockopt (m_sock s) level option value);
  mret (rt =? 0).

Definition getTimeout_of (opt : Z) : SK Z :=
  s ← self;
  '(_, k) ← get;
  mret (match n_ctx (m_sock s) k with Some ctx => i64 (getTimeout opt ctx) | None => -1 end).

Definition getSendTimeout : SK Z := getTimeout_of SO_SNDTIMEO.
Definition getRecvTimeout : SK Z := getTimeout_of SO_RCVTIMEO.

Definition timeval (v : Z) : optval := OTimeval (i32 (Z.quot v 1000)) (i32 (Z.rem v 1000 * 1000)).
Definition setSendTimeout (v : Z) : SK unit := setOption SOL_SOCKET SO_SNDTIMEO (timeval v) ;; mret tt.
Definition setRecvTimeout (v : Z) : SK unit := setOption SOL_SOCKET SO_RCVTIMEO (timeval v) ;; mret tt.

Definition getError : SK Z :=
  r ← getOption SOL_SOCKET SO_ERROR;
  '(_, k) ← get;
  mret (match r with Some error => error | None => n_errno k end).

(** ** Creation and destruction *)

Definition initSock : SK unit :=
  s ← self;
  setOption SOL_SOCKET SO_REUSEADDR (OInt 1) ;;
  when (m_type s =? SOCK_STREAM) (setOption IPPROTO_TCP TCP_NODELAY (OInt 1) ;; mret tt).

Definition newSock : SK unit :=
  s ← self;
  fd ← call (n_socket (m_family s) (m_type s) (m_protocol s));
  upd (set_sock fd) ;;
  when (negb (fd =? -1)) initSock.

Definition close : SK bool :=
  s ← self;
  if negb (m_isConnected s) && (m_sock s =? -1) then mret true else
  upd (set_connected false) ;;
  when (negb (m_sock s =? -1)) (call (n_close (m_sock s)) ;; upd (set_sock (-1))) ;;
  mret false.

(** [CreateTCP], [CreateTCPSocket] and their like; [CreateUDP] and its like. *)
Definition CreateTCP (family : Z) : Sock := new_Socket family SOCK_STREAM 0.
Definition CreateUDP (family : Z) : SK Sock :=
  '(_, s) ← on_sock (new_Socket family SOCK_DGRAM 0) (newSock ;; upd (set_connected true));
  mret s.
Definition CreateTCP_for (address : Address) : Sock := CreateTCP (getFamily host address).
Definition CreateUDP_for (address : Address) : SK Sock := CreateUDP (getFamily host address).
Definition CreateTCPSocket : Sock := CreateTCP AF_INET.
Definition CreateUDPSocket : SK Sock := CreateUDP AF_INET.
Definition CreateTCPSocket6 : Sock := CreateTCP AF_INET6.
Definition CreateUDPSocket6 : SK Sock := CreateUDP AF_INET6.
Definition CreateUnixTCPSocket : Sock := CreateTCP AF_UNIX.
Definition CreateUnixUDPSocket : Sock := new_Socket AF_UNIX SOCK_DGRAM 0.

(** ** Addresses *)

(** The object whose structure now holds the bytes [bs]. *)
Definition fill (a : Address) (bs : str) : Address :=
  match a with
  | IPv4Address _ => IPv4Address (of_bytes_in host bs)
  | IPv6Address _ => IPv6Address (of_bytes_in6 host bs)
  | UnixAddress _ m_length => UnixAddress (mkUn (load host (take 2 bs)) (slice 2 108 bs)) m_length
  | UnknownAddress _ => UnknownAddress (of_bytes_sa host bs)
  end.

Definition blank (family : Z) : Address :=
  if family =? AF_INET then new_IPv4 host 0 0
  else if family =? AF_INET6 then new_IPv6_any
  else if family =? AF_UNIX then new_Unix
  else new_Unknown family.

(** The common body of the two: the address asked for, and whether it is kept. *)
Definition getname (peer : bool) : SK (Address * bool) :=
  s ← self;
  let result := blank (m_family s) in
  '(rt, bs, addrlen) ← call (n_getname peer (m_sock s) (getAddr host result) (getAddrLen result));
  mret (if negb (rt =? 0) then (new_Unknown (m_family s), false)
        else
          let result := fill result bs in
          ((if m_family s =? AF_UNIX then setAddrLen (u32 addrlen) result else result), true)).

Definition getRemoteAddress : SK Address :=
  s ← self;
  match m_remoteAddress s with
  | Some a => mret a
  | None =>
      '(a, ok) ← getname true;
      when ok (upd (set_remote (Some a))) ;;
      mret a
  end.

Definition getLocalAddress : SK Address :=
  s ← self;
  match m_localAddress s with
  | Some a => mret a
  | None =>
      '(a, ok) ← getname false;
      when ok (upd (set_local (Some a))) ;;
      mret a
  end.

(** ** Connections *)

(** [init]: whether the descriptor is a registered socket, in which case it is taken. *)
Definition init_fd (fd : Z) : SK bool :=
  '(_, k) ← get;
  match n_ctx fd k with
  | Some ctx =>
      if isSocket ctx && negb (isClose ctx) then
        upd (set_sock fd) ;;
        upd (set_connected true) ;;
        initSock ;;
        getLocalAddress ;;
        getRemoteAddress ;;
        mret true
      else mret false
  | None => mret false
  end.

(** The null pointer is [None]; the [Socket] made for the connection is destroyed with it. *)
Definition accept : SK (option Sock) :=
  s ← self;
  newsock ← call (n_accept (m_sock s));
  if newsock =? -1 then mret None else
  '(ok, sock) ← on_sock (new_Socket (m_family s) (m_type s) (m_protocol s)) (init_fd newsock);
  if (ok : bool) then mret (Some sock)
  else on_sock sock close ;; mret None.

(** [timeoutMs] is [None] for the default, [(uint64_t)-1]. *)
Definition connect (addr : Address) (timeoutMs : option Z) : SK bool :=
  upd (set_remote (Some addr)) ;;
  s ← self;
  when (negb (isValid s)) newSock ;;
  s ← self;
  if negb (isValid s) then mret false else
  if negb (getFamily host addr =? m_family s) then mret false else
  rt ← call (n_connect (m_sock s) (getAddr host addr) (getAddrLen addr) timeoutMs);
  if negb (rt =? 0) then close ;; mret false else
  upd (set_connected true) ;;
  getRemoteAddress ;;
  getLocalAddress ;;
  mret true.

Definition reconnect (timeoutMs : option Z) : SK bool :=
  s ← self;
  match m_remoteAddress s with
  | None => mret false
  | Some addr => upd (set_local None) ;; connect addr timeoutMs
  end.

(** What binding to a Unix address does first: a path somebody listens on is in use,
    otherwise what is left of it is removed. *)
Definition claim_path (addr : Address) : SK bool :=
  match addr with
  | UnixAddress m m_length =>
      '(used, sock) ← on_sock CreateUnixTCPSocket (connect addr None);
      (if (used : bool) then mret tt
       else (fun p => let '(_, k) := Unlink n_fs (getPath m m_length) true (snd p) in (Ok tt, (fst p, k)))) ;;
      on_sock sock close ;;
      mret (negb used)
  | _ => mret true
  end.

Definition bind (addr : Address) : SK bool :=
  upd (set_local (Some addr)) ;;
  s ← self;
  when (negb (isValid s)) newSock ;;
  s ← self;
  if negb (isValid s) then mret false else
  if negb (getFamily host addr =? m_family s) then mret false else
  free ← claim_path addr;
  if negb free then mret false else
  s ← self;
  rt ← call (n_bind (m_sock s) (getAddr host addr) (getAddrLen addr));
  if negb (rt =? 0) then mret false else
  getLocalAddress ;;
  mret true.

Definition listen (backlog : Z) : SK bool :=
  s ← self;
  if negb (isValid s) then mret false else
  rt ← call (n_listen (m_sock s) backlog);
  mret (rt =? 0).

(** ** Transfers

    The overloads on an array of buffers send the bytes of the buffers one after the other,
    and receive into as much room as they have together.  The results are cut to an [int]. *)

Definition connected_or {A} (other : A) (m : SK A) : SK A :=
  s ← self; if isConnected s then m else mret other.

Definition send (buffer : str) (flags : Z) : SK Z :=
  connected_or (-1) (s ← self; rt ← call (n_send (m_sock s) buffer flags None); mret (i32 rt)).
Definition send_iov (buffers : list str) (flags : Z) : SK Z := send (concat buffers) flags.
Definition sendTo (buffer : str) (to : Address) (flags : Z) : SK Z :=
  connected_or (-1)
    (s ← self; rt ← call (n_send (m_sock s) buffer flags (Some (getAddr host to, getAddrLen to))); mret (i32 rt)).

(** The result, and the bytes received. *)
Definition recv (length : Z) (flags : Z) : SK (Z * str) :=
  connected_or (-1, []) (s ← self; '(rt, bs, _) ← call (n_recv (m_sock s) length flags None); mret (i32 rt, bs)).
Definition recv_iov (lengths : list Z) (flags : Z) : SK (Z * str) := recv (foldr Z.add 0 lengths) flags.
(** [recvFrom] also gives the address it was passed, filled in. *)
Definition recvFrom (length : Z) (from : Address) (flags : Z) : SK (Z * str * Address) :=
  connected_or (-1, [], from)
    (s ← self;
     '(rt, bs, image) ← call (n_recv (m_sock s) length flags (Some (getAddr host from, getAddrLen from)));
     mret (i32 rt, bs, fill from image)).

(** ** Cancellation *)

Definition cancelRead : SK bool := s ← self; call (n_cancel (m_sock s) READ).
Definition cancelWrite : SK bool := s ← self; call (n_cancel (m_sock s) WRITE).
Definition cancelAccept : SK bool := s ← self; call (n_cancel (m_sock s) READ).
Definition cancelAll : SK bool := s ← self; call (n_cancelAll (m_sock s)).

(** ** Printing *)

Definition dump (s : Sock) : str :=
  lit "[Socket sock=" ++ print_dec (m_sock s) ++ lit " is_connected=" ++
  print_dec (if m_isConnected s then 1 else 0) ++ lit " family=" ++ print_dec (m_family s) ++
  lit " type=" ++ print_dec (m_type s) ++ lit " protocol=" ++ print_dec (m_protocol s) ++
  (match m_localAddress s with Some a => lit " local_address=" ++ Address.toString host a | None => [] end) ++
  (match m_remoteAddress s with Some a => lit " remote_address=" ++ Address.toString host a | None => [] end) ++
  lit "]".
End Socket.
