(* ===== verification/Stream.v ===== *)
(** * Streams: src/src/stream/stream.cc and SocketStream.cc

    [Stream] as an interface whose state is the transport, the fixed-size transfers over it,
    and its implementation on a [Socket].  A buffer passed by address is a byte string that
    a read returns changed. *)

From S2P Require Import Prelude Endians ByteArray ByteArrayIo Address Socket.
#[local] Set Default Goal Selector "!".

(** The virtual methods; [read] returns its result and the bytes it puts at the start of the
    buffer, the variants on a byte array change it. *)
Class Stream (T : Type) := {
  read : Z -> M T (Z * str);
  read_ba : Z -> M (ByteArray * T) Z;
  write : str -> M T Z;
  write_ba : Z -> M (ByteArray * T) Z
}.

Section Stream.
Context {T : Type} `{Stream T}.

(** A call is passed [left] bytes from [buffer + offset] on, to fill or to take: they must be in the
    buffer. *)
Definition room (buffer : str) (offset left : Z) : M T unit :=
  if (0 <=? offset) && (offset + left <=? Z.of_nat (length buffer)) then mret tt else crashed OutOfBounds.

(** The loop of [readFixSize(void*, size_t)]: [offset] and [left] are its locals; what [read] returns
    is an [int]. *)
Fixpoint read_loop (fuel : nat) (length offset left : Z) (buffer : str) : M T (Z * str) :=
  match fuel with
  | O => crashed OutOfFuel
  | S fuel =>
      if 0 <? left then
        room buffer offset left ;;
        '(len, bs) ← read left;
        let buffer := splice (Z.to_nat offset) bs buffer in
        if len <=? 0 then mret (len, buffer)
        else read_loop fuel length (u64 (offset + len)) (i64 (left - len)) buffer
      else mret (i32 length, buffer)
  end.

Definition readFixSize (fuel : nat) (buffer : str) (length : Z) : M T (Z * str) :=
  read_loop fuel length 0 (i64 length) buffer.

Fixpoint write_loop (fuel : nat) (length offset left : Z) (buffer : str) : M T Z :=
  match fuel with
  | O => crashed OutOfFuel
  | S fuel =>
      if 0 <? left then
        room buffer offset left ;;
        len ← write (slice (Z.to_nat offset) (Z.to_nat left) buffer);
        if len <=? 0 then mret len
        else write_loop fuel length (u64 (offset + len)) (i64 (left - len)) buffer
      else mret (i32 length)
  end.

Definition writeFixSize (fuel : nat) (buffer : str) (length : Z) : M T Z :=
  write_loop fuel length 0 (i64 length) buffer.

(** The loops over a byte array: [m] is the virtual call, [read_ba] or [write_ba]. *)
Fixpoint ba_loop (m : Z -> M (ByteArray * T) Z) (fuel : nat) (length left : Z) : M (ByteArray * T) Z :=
  match fuel with
  | O => crashed OutOfFuel
  | S fuel =>
      if 0 <? left then
        len ← m left;
        if len <=? 0 then mret len
        else ba_loop m fuel length (i64 (left - len))
      else mret (i32 length)
  end.

Definition readFixSize_ba (fuel : nat) (length : Z) : M (ByteArray * T) Z :=
  ba_loop read_ba fuel length (i64 length).
Definition writeFixSize_ba (fuel : nat) (length : Z) : M (ByteArray * T) Z :=
  ba_loop write_ba fuel length (i64 length).
End Stream.

(** ** SocketStream *)

Section SocketStream.
Context (host : byte_order) {K : Type} `{Net K} (uninit : nat -> nat -> byte).

(** [ss_socket] is [None] for the null pointer. *)
Record SocketStream := mkSS {
  ss_socket : option Sock;
  ss_owner : bool;
  ss_net : K
}.

Definition ss_connected (s : SocketStream) : bool :=
  match ss_socket s with Some sock => isConnected sock | None => false end.

(** A method of the socket, which is not null. *)
Definition on_socket {A} (m : M (Sock * K) A) : M SocketStream A :=
  fun s => match ss_socket s with
           | None => (Crash NullDeref, s)
           | Some sock => let '(r, (sock, k)) := m (sock, ss_net s) in (r, mkSS (Some sock) (ss_owner s) k)
           end.

Definition SocketStream_read (length : Z) : M SocketStream (Z * str) :=
  s ← get;
  if negb (ss_connected s) then mret (-1, []) else on_socket (recv length 0).

Definition SocketStream_write (buffer : str) : M SocketStream Z :=
  s ← get;
  if negb (ss_connected s) then mret (-1) else on_socket (send buffer 0).

Definition on_ba {A T} (m : M ByteArray A) : M (ByteArray * T) A :=
  fun p => let '(r, b) := m (fst p) in (r, (b, snd p)).
Definition on_stream {A T} (m : M T A) : M (ByteArray * T) A :=
  fun p => let '(r, t) := m (snd p) in (r, (fst p, t)).

(** The system puts the bytes received into the entries; the position is an unsigned 64-bit
    sum. *)
Definition SocketStream_read_ba (length : Z) : M (ByteArray * SocketStream) Z :=
  '(_, s) ← get;
  if negb (ss_connected s) then mret (-1) else
  '(_, iovs) ← on_ba (getWriteBuffers uninit (Z.to_nat length));
  '(rt, bs) ← on_stream (on_socket (recv_iov (Z.of_nat ∘ iov_len <$> iovs) 0));
  on_ba (modify (fun b => set_nodes (scatter (m_nodes b) iovs bs) b)) ;;
  when (0 <? rt) (on_ba (b ← get; setPosition (m_position b + Z.to_nat rt))) ;;
  mret rt.

(** With no entry at all [&iovs[0]] designates none. *)
Definition getReadBuffers_m (len : nat) : M ByteArray (nat * list iovec) :=
  fun b => (getReadBuffers len b, b).

Definition SocketStream_write_ba (length : Z) : M (ByteArray * SocketStream) Z :=
  '(_, s) ← get;
  if negb (ss_connected s) then mret (-1) else
  '(_, iovs) ← on_ba (getReadBuffers_m (Z.to_nat length));
  '(b, _) ← get;
  rt ← on_stream (on_socket (send_iov ((fun v => gather (m_nodes b) [v]) <$> iovs) 0));
  when (0 <? rt) (on_ba (setPosition (m_position b + Z.to_nat rt))) ;;
  mret rt.

#[export] Instance SocketStream_stream : Stream SocketStream := {|
  read := SocketStream_read;
  read_ba := SocketStream_read_ba;
  write := SocketStream_write;
  write_ba := SocketStream_write_ba
|}.

Definition SocketStream_close : M SocketStream unit :=
  s ← get;
  match ss_socket s with None => mret tt | Some _ => on_socket close ;; mret tt end.

(** The destructor. *)
Definition SocketStream_destroy : M SocketStream unit :=
  s ← get;
  if ss_owner s then SocketStream_close else mret tt.

Definition SocketStream_getRemoteAddress : M SocketStream (option Address) :=
  s ← get;
  match ss_socket s with None => mret None | Some _ => a ← on_socket (getRemoteAddress host); mret (Some a) end.

Definition SocketStream_getLocalAddress : M SocketStream (option Address) :=
  s ← get;
  match ss_socket s with None => mret None | Some _ => a ← on_socket (getLocalAddress host); mret (Some a) end.

Definition address_string (a : option Address) : str :=
  match a with Some a => Address.toString host a | None => [] end.
Definition getRemoteAddressString : M SocketStream str := a ← SocketStream_getRemoteAddress; mret (address_string a).
Definition getLocalAddressString : M SocketStream str := a ← SocketStream_getLocalAddress; mret (address_string a).
End SocketStream.
Arguments SocketStream : clear implicits.
