(* ===== verification/StreamTheorems.v ===== *)
(** * Streams: the properties

    [StreamLaws] is what a stream promises: a read gives a first part of what is coming, a
    write takes a first part of what is given.  The fixed-size transfers are proved against
    it, and a stream on a socket keeps it. *)

From S2P Require Import Prelude Endians ByteArray ByteArraySpec ByteArrayIo Address Socket Stream.
#[local] Set Default Goal Selector "!".

(** ** The contract *)

(** A result [len] with the bytes moved: some of at most [n], or none and no progress. *)
Definition moves (len n : Z) (bs : str) : Prop :=
  0 < len <= n /\ len = Z.of_nat (length bs) \/ len <= 0 /\ bs = [].

Class StreamLaws (T : Type) `{Stream T} (incoming outgoing : T -> str) : Prop := {
  read_law n t : 0 < n < 2 ^ 63 ->
    exists len bs t', read n t = (Ok (len, bs), t') /\ moves len n bs /\ incoming t = bs ++ incoming t';
  read_ba_law n b t : 0 < n < 2 ^ 63 -> wf b ->
    exists len bs b' t', read_ba n (b, t) = (Ok len, (b', t')) /\ moves len n bs /\
      incoming t = bs ++ incoming t' /\ wf b' /\ view b' = spec_write bs (view b);
  write_law buf t :
    exists len bs t', write buf t = (Ok len, t') /\ moves len (Z.of_nat (length buf)) bs /\
      bs `prefix_of` buf /\ outgoing t' = outgoing t ++ bs /\ incoming t' = incoming t;
  write_ba_law n b t : 0 < n < 2 ^ 63 -> wf b ->
    exists len bs b' t', write_ba n (b, t) = (Ok len, (b', t')) /\ moves len n bs /\
      outgoing t' = outgoing t ++ bs /\ wf b' /\ content b' = content b /\
      bs = slice (m_position b) (length bs) (content b) /\
      m_position b' = (m_position b + length bs)%nat
}.

Section client.
Context {T : Type} `{StreamLaws T}.

Lemma moves_pos len n bs : moves len n bs -> (len <=? 0) = false -> 0 < len <= n /\ length bs = Z.to_nat len.
Proof. intros [[? ?]|[? _]] Hl%Z.leb_gt; lia. Qed.

Lemma moves_stop len n bs : moves len n bs -> (len <=? 0) = true -> len <= 0 /\ bs = [].
Proof. intros [[? ?]|?] Hl%Z.leb_le; [lia|done]. Qed.

(** The calls a transfer is made of: [f left] is a call with [left] bytes to go and gives how many it
    moved.  There is a call as long as bytes are left, and the first that moves none is the last: its
    result is given. *)
Inductive calls {A} (f : Z -> M A Z) : Z -> A -> option Z -> A -> Prop :=
| calls_done s : calls f 0 s None s
| calls_stop left s len s' : 0 < left -> f left s = (Ok len, s') -> len <= 0 -> calls f left s (Some len) s'
| calls_more left s len s1 stop s' :
    0 < left -> f left s = (Ok len, s1) -> 0 < len -> calls f (left - len) s1 stop s' -> calls f left s stop s'.

(** What a transfer of [n] bytes returns. *)
Definition fix_result (n : Z) (stop : option Z) : Z := default n stop.

(** How many it has moved. *)
Definition ends (n : Z) (stop : option Z) (m : Z) : Prop :=
  match stop with None => m = n | Some len => len <= 0 /\ 0 <= m < n end.

(** A call on a buffer of [n] bytes to fill, or to send, when [left] are left. *)
Definition read_part (n left : Z) : M (str * T) Z := fun p =>
  let '(r, t) := read left (snd p) in
  match r with
  | Ok (len, bs) => (Ok len, (splice (Z.to_nat (n - left)) bs (fst p), t))
  | Throw e => (Throw e, (fst p, t))
  | Crash c => (Crash c, (fst p, t))
  end.
Definition write_part (n : Z) (buffer : str) (left : Z) : M T Z := write (slice (Z.to_nat (n - left)) (Z.to_nat left) buffer).

Lemma room_run buffer offset left (t : T) : 0 <= offset -> offset + left <= Z.of_nat (length buffer) -> room buffer offset left t = (Ok tt, t).
Proof. intros H1 H2. unfold room. by rewrite (proj2 (Z.leb_le _ _) H1), (proj2 (Z.leb_le _ _) H2). Qed.

Lemma read_loop_ok fuel n offset left buffer t :
  0 <= offset -> left = n - offset -> 0 <= left < Z.of_nat fuel -> n < 2 ^ 31 -> n <= Z.of_nat (length buffer) ->
  exists stop bs t', read_loop fuel n offset left buffer t =
      (Ok (fix_result n stop, splice (Z.to_nat offset) bs buffer), t') /\
    calls (read_part n) left (buffer, t) stop (splice (Z.to_nat offset) bs buffer, t') /\
    ends n stop (offset + Z.of_nat (length bs)) /\ incoming t = bs ++ incoming t'.
Proof.
  revert offset left buffer t. induction fuel as [|fuel IH]; intros offset left buffer t Ho Hleft Hf Hn Hbuf; [lia|].
  cbn [read_loop]. destruct (Z.ltb_spec 0 left).
  - rewrite (bind_ok _ _ _ _ _ (room_run buffer offset left t ltac:(lia) ltac:(lia))).
    destruct (read_law left t ltac:(lia)) as (len & bs & t1 & Hr & Hm & Hin).
    rewrite (bind_ok _ _ _ _ _ Hr).
    assert (Hpart : read_part n left (buffer, t) = (Ok len, (splice (Z.to_nat offset) bs buffer, t1))).
    { unfold read_part. cbn [fst snd]. rewrite Hr. by replace (n - left) with offset by lia. }
    destruct (len <=? 0) eqn:El.
    + destruct (moves_stop _ _ _ Hm El) as [Hl ->]. exists (Some len), [], t1. split; [done|]. split; [by eapply calls_stop|].
      split; [cbn; lia|done].
    + destruct (moves_pos _ _ _ Hm El) as [Hl Hlen].
      rewrite (wrap_small 64 (offset + len)) by (unfold unsigned_range; lia).
      rewrite (swrap_small 64 (left - len)) by (unfold signed_range; lia).
      destruct (IH (offset + len) (left - len) (splice (Z.to_nat offset) bs buffer) t1) as (stop & bs' & t' & Hrun & Hc & He & Hin');
        [lia|lia|lia|lia|rewrite length_splice by lia; lia|].
      assert (Hsp : splice (Z.to_nat (offset + len)) bs' (splice (Z.to_nat offset) bs buffer) = splice (Z.to_nat offset) (bs ++ bs') buffer).
      { rewrite splice_app by lia. f_equal. lia. }
      rewrite Hsp in Hrun, Hc. exists stop, (bs ++ bs'), t'. rewrite Hrun. split_and!; [done| | |].
      * eapply calls_more; [done|exact Hpart|lia|exact Hc].
      * rewrite length_app. by replace (offset + Z.of_nat (length bs + length bs')) with (offset + len + Z.of_nat (length bs')) by lia.
      * by rewrite Hin, Hin', <- app_assoc.
  - assert (left = 0) as -> by lia. exists None, [], t. rewrite splice_nil, swrap_small by (unfold signed_range; lia).
    split; [done|]. split; [constructor|]. split; [cbn; lia|done].
Qed.

Lemma write_loop_ok fuel n offset left buffer t :
  0 <= offset -> left = n - offset -> 0 <= left < Z.of_nat fuel -> n < 2 ^ 31 -> n <= Z.of_nat (length buffer) ->
  exists stop m t', write_loop fuel n offset left buffer t = (Ok (fix_result n stop), t') /\
    calls (write_part n buffer) left t stop t' /\
    ends n stop (offset + Z.of_nat m) /\ outgoing t' = outgoing t ++ slice (Z.to_nat offset) m buffer /\
    incoming t' = incoming t.
Proof.
  revert offset left t. induction fuel as [|fuel IH]; intros offset left t Ho Hleft Hf Hn Hbuf; [lia|].
  cbn [write_loop]. destruct (Z.ltb_spec 0 left).
  - rewrite (bind_ok _ _ _ _ _ (room_run buffer offset left t ltac:(lia) ltac:(lia))).
    destruct (write_law (slice (Z.to_nat offset) (Z.to_nat left) buffer) t) as (len & bs & t1 & Hr & Hm & [rest Hpre] & Hout & Hin).
    rewrite length_slice, Z2Nat.id in Hm by lia. rewrite (bind_ok _ _ _ _ _ Hr).
    assert (Hpart : write_part n buffer left t = (Ok len, t1)) by (unfold write_part; by replace (n - left) with offset by lia).
    destruct (len <=? 0) eqn:El.
    + destruct (moves_stop _ _ _ Hm El) as [Hl ->]. exists (Some len), 0%nat, t1.
      split; [done|]. split; [by eapply calls_stop|]. split; [cbn; lia|done].
    + destruct (moves_pos _ _ _ Hm El) as [Hl Hlen].
      rewrite (wrap_small 64 (offset + len)) by (unfold unsigned_range; lia).
      rewrite (swrap_small 64 (left - len)) by (unfold signed_range; lia).
      destruct (IH (offset + len) (left - len) t1) as (stop & m & t' & Hrun & Hc & He & Hout' & Hin'); [lia..|].
      exists stop, (length bs + m)%nat, t'. rewrite Hrun. split; [done|]. split; [|split; [|split]].
      * eapply calls_more; [done|exact Hpart|lia|exact Hc].
      * by replace (offset + Z.of_nat (length bs + m)) with (offset + len + Z.of_nat m) by lia.
      * rewrite Hout', Hout, <- app_assoc. f_equal. rewrite slice_add. f_equal; [|f_equal; lia].
        assert (Hb : bs = take (length bs) (slice (Z.to_nat offset) (Z.to_nat left) buffer))
          by by rewrite Hpre, take_app_length.
        rewrite Hb at 1. unfold slice. rewrite take_take. f_equal. lia.
      * congruence.
  - assert (left = 0) as -> by lia. exists None, 0%nat, t. rewrite swrap_small by (unfold signed_range; lia).
    split; [done|]. split; [constructor|]. split; [cbn; lia|]. split; [|done]. unfold slice. by rewrite take_0, app_nil_r.
Qed.

(** The loop over an array is its calls, whatever they do. *)
Lemma read_ba_loop_ok fuel n left b t :
  wf b -> 0 <= left <= n -> left < Z.of_nat fuel -> n < 2 ^ 31 ->
  exists stop bs b' t', ba_loop read_ba fuel n left (b, t) = (Ok (fix_result n stop), (b', t')) /\
    calls read_ba left (b, t) stop (b', t') /\
    ends n stop (n - left + Z.of_nat (length bs)) /\ incoming t = bs ++ incoming t' /\
    wf b' /\ view b' = spec_write bs (view b).
Proof.
  revert left b t. induction fuel as [|fuel IH]; intros left b t Hwf Hl Hf Hn; [lia|].
  cbn [ba_loop]. destruct (Z.ltb_spec 0 left).
  - destruct (read_ba_law left b t ltac:(lia) Hwf) as (len & bs & b1 & t1 & Hr & Hm & Hin & Hwf1 & Hv).
    rewrite (bind_ok _ _ _ _ _ Hr). destruct (len <=? 0) eqn:El.
    + destruct (moves_stop _ _ _ Hm El) as [? ->]. exists (Some len), [], b1, t1.
      split; [done|]. split; [by eapply calls_stop|]. split; [cbn; lia|]. by split_and!.
    + destruct (moves_pos _ _ _ Hm El) as [Hlen Hbs].
      rewrite (swrap_small 64 (left - len)) by (unfold signed_range; lia).
      destruct (IH (left - len) b1 t1) as (stop & bs' & b' & t' & Hrun & Hc & He & Hin' & Hwf' & Hv'); [done|lia..|].
      exists stop, (bs ++ bs'), b', t'. split; [done|]. split; [eapply calls_more; [done|exact Hr|lia|exact Hc]|]. split_and!.
      * rewrite length_app. by replace (n - left + _) with (n - (left - len) + Z.of_nat (length bs')) by lia.
      * by rewrite Hin, Hin', <- app_assoc.
      * done.
      * rewrite Hv', Hv. unfold view. rewrite spec_write_app; [done|]. rewrite length_content by done. apply Hwf.
  - assert (left = 0) as -> by lia. exists None, [], b, t. rewrite swrap_small by (unfold signed_range; lia).
    split; [done|]. split; [constructor|]. split; [cbn; lia|]. split_and!; try done.
    unfold view, spec_write. simpl. by rewrite splice_nil, Nat.add_0_r.
Qed.

Lemma write_ba_loop_ok fuel n left b t :
  wf b -> 0 <= left <= n -> left < Z.of_nat fuel -> n < 2 ^ 31 ->
  exists stop m b' t', ba_loop write_ba fuel n left (b, t) = (Ok (fix_result n stop), (b', t')) /\
    calls write_ba left (b, t) stop (b', t') /\
    ends n stop (n - left + Z.of_nat m) /\ outgoing t' = outgoing t ++ slice (m_position b) m (content b) /\
    wf b' /\ content b' = content b /\ m_position b' = (m_position b + m)%nat.
Proof.
  revert left b t. induction fuel as [|fuel IH]; intros left b t Hwf Hl Hf Hn; [lia|].
  cbn [ba_loop]. destruct (Z.ltb_spec 0 left).
  - destruct (write_ba_law left b t ltac:(lia) Hwf) as (len & bs & b1 & t1 & Hr & Hm & Hout & Hwf1 & Hc & Hb & Hp).
    rewrite (bind_ok _ _ _ _ _ Hr). destruct (len <=? 0) eqn:El.
    + destruct (moves_stop _ _ _ Hm El) as [? ->]. exists (Some len), 0%nat, b1, t1.
      split; [done|]. split; [by eapply calls_stop|]. split; [cbn; lia|]. by split_and!.
    + destruct (moves_pos _ _ _ Hm El) as [Hlen Hbs].
      rewrite (swrap_small 64 (left - len)) by (unfold signed_range; lia).
      destruct (IH (left - len) b1 t1) as (stop & m & b' & t' & Hrun & Hcs & He & Hout' & Hwf' & Hc' & Hp'); [done|lia..|].
      exists stop, (length bs + m)%nat, b', t'. split; [done|]. split; [eapply calls_more; [done|exact Hr|lia|exact Hcs]|]. split_and!.
      * by replace (n - left + _) with (n - (left - len) + Z.of_nat m) by lia.
      * rewrite Hout', Hout, Hc, Hp, slice_add, <- Hb. by rewrite <- app_assoc.
      * done.
      * congruence.
      * lia.
  - assert (left = 0) as -> by lia. exists None, 0%nat, b, t. rewrite swrap_small by (unfold signed_range; lia).
    split; [done|]. split; [constructor|]. split; [cbn; lia|]. split_and!; [|done|done|lia].
    unfold slice. by rewrite take_0, app_nil_r.
Qed.

(** C12: [readFixSize] and [writeFixSize] on a buffer of at least the length asked are exactly their
    calls: one on what is left of the buffer as long as something is, until one moves nothing, so at most
    one for each byte.  They return the length asked when every byte is moved, and otherwise the result
    of the call that stopped them, zero or an error.  In both cases the buffer, from its start, holds what
    the stream gave, in order, and the stream was given the start of the buffer: no byte is lost,
    repeated or moved, and nothing outside the buffer is touched. *)
Theorem fix_size_buffer n buffer t :
  0 <= n < 2 ^ 31 -> n <= Z.of_nat (length buffer) ->
  (exists stop bs t', readFixSize (S (Z.to_nat n)) buffer n t = (Ok (fix_result n stop, splice 0 bs buffer), t') /\
     calls (read_part n) n (buffer, t) stop (splice 0 bs buffer, t') /\
     ends n stop (Z.of_nat (length bs)) /\ incoming t = bs ++ incoming t') /\
  (exists stop m t', writeFixSize (S (Z.to_nat n)) buffer n t = (Ok (fix_result n stop), t') /\
     calls (write_part n buffer) n t stop t' /\
     ends n stop (Z.of_nat m) /\ outgoing t' = outgoing t ++ take m buffer /\ incoming t' = incoming t).
Proof.
  intros Hn Hbuf. unfold readFixSize, writeFixSize. rewrite swrap_small by (unfold signed_range; lia). split.
  - by destruct (read_loop_ok (S (Z.to_nat n)) n 0 n buffer t) as (stop & bs & t' & H'); [lia..|exists stop, bs, t'].
  - by destruct (write_loop_ok (S (Z.to_nat n)) n 0 n buffer t) as (stop & m & t' & H'); [lia..|exists stop, m, t'].
Qed.

(** C33: The same on a byte array, whose calls are the stream's own: what [readFixSize] receives is
    written at the array's position, as [ByteArray::write] would, and [writeFixSize] sends the bytes from
    the position on and moves it past them, the content unchanged. *)
Theorem fix_size_bytearray n b t :
  0 <= n < 2 ^ 31 -> wf b ->
  (exists stop bs b' t', readFixSize_ba (S (Z.to_nat n)) n (b, t) = (Ok (fix_result n stop), (b', t')) /\
     calls read_ba n (b, t) stop (b', t') /\
     ends n stop (Z.of_nat (length bs)) /\ incoming t = bs ++ incoming t' /\
     wf b' /\ view b' = spec_write bs (view b)) /\
  (exists stop m b' t', writeFixSize_ba (S (Z.to_nat n)) n (b, t) = (Ok (fix_result n stop), (b', t')) /\
     calls write_ba n (b, t) stop (b', t') /\
     ends n stop (Z.of_nat m) /\ outgoing t' = outgoing t ++ slice (m_position b) m (content b) /\
     wf b' /\ view b' = (content b, (m_position b + m)%nat)).
Proof.
  intros Hn Hwf. unfold readFixSize_ba, writeFixSize_ba. rewrite swrap_small by (unfold signed_range; lia).
  pose proof (read_ba_loop_ok (S (Z.to_nat n)) n n b t Hwf ltac:(lia) ltac:(lia) ltac:(lia)) as Hr.
  destruct (write_ba_loop_ok (S (Z.to_nat n)) n n b t Hwf) as (stop & m & b' & t' & H1 & Hc & H2 & H3 & H4 & H5 & H6); [lia..|].
  rewrite Z.sub_diag in *. split; [exact Hr|]. exists stop, m, b', t'. split_and!; try done. unfold view. by rewrite H5, H6.
Qed.
End client.

(** ** A stream on a socket *)

(** What the hooked [recv] and [send] promise, on each descriptor.  The system never transfers
    more than 0x7ffff000 bytes at once. *)
Class NetStream (K : Type) `{Net K} (inc out : Z -> K -> str) : Prop := {
  recv_law fd n fl k : 0 < n ->
    exists rt bs im k', n_recv fd n fl None k = ((rt, bs, im), k') /\ signed_range 32 rt /\ moves rt n bs /\
      inc fd k = bs ++ inc fd k' /\ out fd k' = out fd k;
  send_law fd buf fl k :
    exists rt bs k', n_send fd buf fl None k = (rt, k') /\ signed_range 32 rt /\ moves rt (Z.of_nat (length buf)) bs /\
      bs `prefix_of` buf /\ out fd k' = out fd k ++ bs /\ inc fd k' = inc fd k
}.

Section socket.
Context {K : Type} `{NetStream K} (uninit : nat -> nat -> byte).

(** What is coming on a stream, and what went out: nothing while it is not connected. *)
Definition ss_view (f : Z -> K -> str) (s : SocketStream K) : str :=
  match ss_socket s with Some sock => if isConnected sock then f (m_sock sock) (ss_net s) else [] | None => [] end.

Definition with_net (s : SocketStream K) (k : K) : SocketStream K := mkSS (ss_socket s) (ss_owner s) k.

Lemma total_iov l : foldr Z.add 0 (Z.of_nat ∘ iov_len <$> l) = Z.of_nat (iov_total l).
Proof.
  induction l as [|v l IH]; [done|]. rewrite iov_total_cons. cbn [fmap list_fmap foldr]. rewrite IH. unfold compose. lia.
Qed.

Lemma recv_ok sock (s : SocketStream K) n :
  ss_socket s = Some sock -> isConnected sock = true -> 0 < n ->
  exists rt bs k, on_socket (recv n 0) s = (Ok (rt, bs), with_net s k) /\ moves rt n bs /\
    inc (m_sock sock) (ss_net s) = bs ++ inc (m_sock sock) k.
Proof.
  intros Hs Hc Hn. destruct (recv_law (m_sock sock) n 0 (ss_net s) Hn) as (rt & bs & im & k & Hr & Hi & Hm & Hin & _).
  exists rt, bs, k. split_and!; try done. unfold on_socket, recv, connected_or. rewrite Hs.
  rewrite (bind_ok self _ _ sock (sock, ss_net s)) by done. rewrite Hc.
  rewrite (bind_ok self _ _ sock (sock, ss_net s)) by done.
  rewrite (bind_ok (call _) _ _ (rt, bs, im) (sock, k)).
  - unfold with_net. by rewrite Hs, swrap_small by (done || lia).
  - unfold call. cbn [fst snd]. by rewrite Hr.
Qed.

Lemma send_ok sock (s : SocketStream K) buf :
  ss_socket s = Some sock -> isConnected sock = true ->
  exists rt bs k, on_socket (send buf 0) s = (Ok rt, with_net s k) /\ moves rt (Z.of_nat (length buf)) bs /\
    bs `prefix_of` buf /\ out (m_sock sock) k = out (m_sock sock) (ss_net s) ++ bs /\
    inc (m_sock sock) k = inc (m_sock sock) (ss_net s).
Proof.
  intros Hs Hc. destruct (send_law (m_sock sock) buf 0 (ss_net s)) as (rt & bs & k & Hr & Hi & Hm & Hp & Ho & Hinc).
  exists rt, bs, k. split_and!; try done. unfold on_socket, send, connected_or. rewrite Hs.
  rewrite (bind_ok self _ _ sock (sock, ss_net s)) by done. rewrite Hc.
  rewrite (bind_ok self _ _ sock (sock, ss_net s)) by done. 
  rewrite (bind_ok (call _) _ _ rt (sock, k)).
  - unfold with_net. by rewrite Hs, swrap_small by (done || lia).
  - unfold call. cbn [fst snd]. by rewrite Hr.
Qed.

Lemma connected_socket (s : SocketStream K) :
  ss_connected s = true -> exists sock, ss_socket s = Some sock /\ isConnected sock = true.
Proof. unfold ss_connected. destruct (ss_socket s) as [sock|]; [by exists sock|done]. Qed.

Lemma view_connected f (s : SocketStream K) sock k :
  ss_socket s = Some sock -> isConnected sock = true -> ss_view f (with_net s k) = f (m_sock sock) k.
Proof. intros Hs Hc. unfold ss_view, with_net. cbn [ss_socket ss_net]. by rewrite Hs, Hc. Qed.

Lemma with_net_id (s : SocketStream K) : with_net s (ss_net s) = s.
Proof. by destruct s. Qed.

Lemma idle_moves n : moves (-1) n [].
Proof. by right. Qed.

Lemma read_keeps n (s : SocketStream K) : 0 < n ->
  exists len bs s', SocketStream_read n s = (Ok (len, bs), s') /\ moves len n bs /\
    ss_view inc s = bs ++ ss_view inc s'.
Proof.
  intros Hn. unfold SocketStream_read. rewrite (bind_ok get _ s s s) by done.
  destruct (ss_connected s) eqn:Ec; cbn [negb]; [|exists (-1), [], s; by split_and!; [|apply idle_moves|]].
  destruct (connected_socket s Ec) as (sock & Hs & Hc).
  destruct (recv_ok sock s n Hs Hc Hn) as (rt & bs & k & Hr & Hm & Hin). exists rt, bs, (with_net s k).
  split_and!; [done..|]. rewrite (view_connected inc s sock k Hs Hc), <- (with_net_id s) at 1.
  by rewrite (view_connected inc s sock _ Hs Hc).
Qed.

Lemma write_keeps buf (s : SocketStream K) :
  exists len bs s', SocketStream_write buf s = (Ok len, s') /\ moves len (Z.of_nat (length buf)) bs /\
    bs `prefix_of` buf /\ ss_view out s' = ss_view out s ++ bs /\ ss_view inc s' = ss_view inc s.
Proof.
  unfold SocketStream_write. rewrite (bind_ok get _ s s s) by done.
  destruct (ss_connected s) eqn:Ec; cbn [negb].
  2:{ exists (-1), [], s. split_and!; [done|apply idle_moves|apply prefix_nil|by rewrite app_nil_r|done]. }
  destruct (connected_socket s Ec) as (sock & Hs & Hc).
  destruct (send_ok sock s buf Hs Hc) as (rt & bs & k & Hr & Hm & Hp & Ho & Hin). exists rt, bs, (with_net s k).
  split_and!; [done..| |].
  - rewrite (view_connected out s sock k Hs Hc), Ho. f_equal.
    rewrite <- (with_net_id s) at 2. by rewrite (view_connected out s sock _ Hs Hc).
  - rewrite (view_connected inc s sock k Hs Hc), Hin. rewrite <- (with_net_id s) at 2. by rewrite (view_connected inc s sock _ Hs Hc).
Qed.

Lemma on_ba_run {A T} (m : M ByteArray A) (b : ByteArray) (t : T) a b' :
  m b = (Ok a, b') -> on_ba m (b, t) = (Ok a, (b', t)).
Proof. intros Hm. unfold on_ba. cbn [fst snd]. by rewrite Hm. Qed.

Lemma on_stream_run {A T} (m : M T A) (b : ByteArray) (t : T) a t' :
  m t = (Ok a, t') -> on_stream m (b, t) = (Ok a, (b, t')).
Proof. intros Hm. unfold on_stream. cbn [fst snd]. by rewrite Hm. Qed.

Lemma read_ba_keeps n b (s : SocketStream K) : 0 < n -> wf b ->
  exists len bs b' s', SocketStream_read_ba uninit n (b, s) = (Ok len, (b', s')) /\ moves len n bs /\
    ss_view inc s = bs ++ ss_view inc s' /\ wf b' /\ view b' = spec_write bs (view b).
Proof.
  intros Hn Hwf. unfold SocketStream_read_ba. rewrite (bind_ok get _ _ (b, s) (b, s)) by done.
  destruct (ss_connected s) eqn:Ec; cbn [negb].
  2:{ exists (-1), [], b, s. split_and!; try done; [apply idle_moves|].
      unfold view, spec_write. simpl. by rewrite splice_nil, Nat.add_0_r. }
  destruct (connected_socket s Ec) as (sock & Hs & Hc).
  destruct (receive_ok uninit b (Z.to_nat n) [] Hwf ltac:(simpl; lia)) as (b1 & l & _ & Hg & Ht & Hwf1 & Hv1 & _).
  rewrite (bind_ok _ _ _ _ _ (on_ba_run _ b s _ _ Hg)).
  destruct (recv_ok sock s n Hs Hc Hn) as (rt & bs & k & Hr & Hm & Hin).
  assert (Hrecv : on_socket (recv_iov (Z.of_nat ∘ iov_len <$> l) 0) s = (Ok (rt, bs), with_net s k)).
  { unfold recv_iov. rewrite total_iov, Ht, Z2Nat.id by lia. exact Hr. }
  rewrite (bind_ok _ _ _ _ _ (on_stream_run _ b1 s _ _ Hrecv)).
  assert (Hview : ss_view inc s = bs ++ ss_view inc (with_net s k)).
  { rewrite (view_connected inc s sock k Hs Hc), <- Hin, <- (with_net_id s) at 1. by rewrite (view_connected inc s sock _ Hs Hc). }
  set (b1' := set_nodes (scatter (m_nodes b1) l bs) b1).
  rewrite (bind_ok _ _ _ tt (b1', with_net s k)) by done.
  destruct (Z.ltb_spec 0 rt) as [Hrt|Hrt]; cbn [when].
  - destruct Hm as [[Hle Hlen]|[? _]]; [|lia].
    destruct (receive_ok uninit b (Z.to_nat n) bs Hwf ltac:(lia)) as (b2 & l2 & b3 & Hg2 & _ & _ & _ & Hset & Hwf3 & Hv3).
    rewrite Hg in Hg2. injection Hg2 as <- <-. exists rt, bs, b3, (with_net s k).
    rewrite (bind_ok _ _ _ tt (b3, with_net s k)).
    2:{ apply on_ba_run. rewrite (bind_ok get _ b1' b1' b1') by done.
        replace (Z.to_nat rt) with (length bs) by lia. exact Hset. }
    split_and!; try done. by left.
  - destruct Hm as [[? _]|[Hle ->]]; [lia|]. exists rt, [], b1, (with_net s k).
    unfold b1'. rewrite scatter_nothing. split_and!; try done; [by destruct b1|by right|].
    rewrite Hv1. unfold view, spec_write. simpl. by rewrite splice_nil, Nat.add_0_r.
Qed.

Lemma gather_concat nodes l : concat ((fun v => gather nodes [v]) <$> l) = gather nodes l.
Proof.
  induction l as [|v l IH]; [done|].
  change (gather nodes (v :: l)) with (slice (iov_off v) (iov_len v) (default [] (nodes !! iov_node v)) ++ gather nodes l).
  cbn [fmap list_fmap concat]. rewrite IH. unfold gather. cbn [fmap list_fmap concat]. by rewrite app_nil_r.
Qed.

Lemma write_ba_keeps n b (s : SocketStream K) : 0 < n -> wf b ->
  exists len bs b' s', SocketStream_write_ba n (b, s) = (Ok len, (b', s')) /\ moves len n bs /\
    ss_view out s' = ss_view out s ++ bs /\ wf b' /\ content b' = content b /\
    bs = slice (m_position b) (length bs) (content b) /\ m_position b' = (m_position b + length bs)%nat.
Proof.
  intros Hn Hwf. unfold SocketStream_write_ba. rewrite (bind_ok get _ _ (b, s) (b, s)) by done.
  destruct (ss_connected s) eqn:Ec; cbn [negb].
  2:{ exists (-1), [], b, s. split_and!; try done; try apply idle_moves; by rewrite app_nil_r. }
  destruct (connected_socket s Ec) as (sock & Hs & Hc).
  destruct (getReadBuffers_ok b (Z.to_nat n) Hwf) as (l & Hg & Hcov & Ht).
  assert (Hgm : getReadBuffers_m (Z.to_nat n) b = (Ok (clip b (Z.to_nat n), l), b)) by (unfold getReadBuffers_m; by rewrite Hg).
  rewrite (bind_ok _ _ _ _ _ (on_ba_run _ b s _ _ Hgm)), (bind_ok get _ _ (b, s) (b, s)) by done.
  pose proof (wf_position b Hwf) as Hpos. pose proof (wf_size b Hwf) as Hsize.
  assert (Hgat : gather (m_nodes b) l = slice (m_position b) (clip b (Z.to_nat n)) (content b)).
  { rewrite (gather_spec _ _ _ _ (wf_uniform b Hwf) Hcov), Ht. rewrite slice_content; [done|done|unfold clip, getReadSize; lia]. }
  set (buf := slice (m_position b) (clip b (Z.to_nat n)) (content b)) in *.
  assert (Hlen : length buf = clip b (Z.to_nat n)).
  { apply length_slice. rewrite length_content by done. unfold clip, getReadSize. lia. }
  destruct (send_ok sock s buf Hs Hc) as (rt & bs & k & Hr & Hm & [rest Hp] & Ho & _).
  assert (Hsend : on_socket (send_iov ((fun v => gather (m_nodes b) [v]) <$> l) 0) s = (Ok rt, with_net s k)).
  { unfold send_iov. by rewrite gather_concat, Hgat. }
  rewrite (bind_ok _ _ _ _ _ (on_stream_run _ b s _ _ Hsend)).
  assert (Hview : ss_view out (with_net s k) = ss_view out s ++ bs).
  { rewrite (view_connected out s sock k Hs Hc), Ho. f_equal.
    rewrite <- (with_net_id s) at 2. by rewrite (view_connected out s sock _ Hs Hc). }
  assert (Hbs : bs = slice (m_position b) (length bs) (content b)).
  { apply (f_equal (take (length bs))) in Hp. rewrite take_app_length in Hp. rewrite <- Hp at 1.
    unfold buf, slice. rewrite take_take. f_equal.
    assert (length bs <= length buf)%nat; [|lia]. destruct Hm as [[? ?]|[_ ->]]; simpl; lia. }
  assert (Hclip : (clip b (Z.to_nat n) <= m_size b - m_position b)%nat /\ (clip b (Z.to_nat n) <= Z.to_nat n)%nat)
    by (unfold clip, getReadSize; lia).
  destruct (Z.ltb_spec 0 rt) as [Hrt|Hrt]; cbn [when].
  - destruct Hm as [[Hle Hl]|[? _]]; [|lia].
    pose proof (setPosition_spec b (m_position b + Z.to_nat rt) Hwf) as Hset.
    destruct (Nat.ltb_spec (m_capacity b) (m_position b + Z.to_nat rt)); [lia|].
    rewrite (bind_ok _ _ _ _ _ (on_ba_run _ b (with_net s k) _ _ Hset)).
    eexists rt, bs, _, _. split; [reflexivity|]. split_and!; try done.
    + left. lia.
    + by eapply setPosition_wf.
    + unfold content. cbn [m_size set_cur set_pos set_size data m_nodes]. rewrite Nat.max_l by lia. done.
    + cbn [m_position set_cur set_pos]. lia.
  - destruct Hm as [[? _]|[Hle ->]]; [lia|]. exists rt, [], b, (with_net s k).
    split_and!; try done; by right.
Qed.

(** C11: A stream on a socket keeps the contract of streams, whatever its socket's state and whatever the
    system transfers: its reads on a byte array are the array's [write] of the bytes received, across
    blocks, and its writes send the array's next bytes and move past those sent. *)
Theorem socket_stream_laws :
  @StreamLaws (SocketStream K) (SocketStream_stream uninit) (ss_view inc) (ss_view out).
Proof.
  split.
  - intros n t Hn. apply read_keeps. lia.
  - intros n b t Hn. apply read_ba_keeps. lia.
  - apply write_keeps.
  - intros n b t Hn. apply write_ba_keeps. lia.
Qed.
End socket.

(** ** Witnesses *)

(** A system of one connection: what is to be received, and what was sent; each call
    transfers at most [w] bytes. *)
Definition pipe_of (w : Z) : Net (str * str) := {|
  n_socket _ _ _ k := (3, k);
  n_bind _ _ _ k := (0, k);
  n_listen _ _ k := (0, k);
  n_accept _ k := (-1, k);
  n_connect _ _ _ _ k := (0, k);
  n_close _ k := (0, k);
  n_getname _ _ bs len k := (-1, bs, len, k);
  n_setsockopt _ _ _ _ k := (0, k);
  n_getsockopt _ _ _ k := (0, 0, k);
  n_send _ buf _ _ k := (Z.of_nat (length (take (Z.to_nat w) buf)), (fst k, snd k ++ take (Z.to_nat w) buf));
  n_recv _ n _ _ k := let bs := take (Z.to_nat (Z.min w n)) (fst k) in
    (Z.of_nat (length bs), bs, [], (drop (Z.to_nat (Z.min w n)) (fst k), snd k));
  n_errno _ := 0;
  n_ctx _ _ := None;
  n_fs := Utils.mkFileSystem (str * str) (fun _ _ => false) (fun _ _ => false) (fun _ k => (0, k))
            (fun _ k => (0, k)) (fun _ k => (false, k));
  n_cancel _ _ k := (false, k);
  n_cancelAll _ k := (false, k)
|}.
Definition pipe_net : Net (str * str) := pipe_of 2.
#[local] Existing Instance pipe_net.

Lemma moves_take n (bs : str) : moves (Z.of_nat (length (take n bs))) (Z.of_nat n) (take n bs).
Proof.
  assert (Hl : length (take n bs) = (n `min` length bs)%nat) by apply length_take.
  destruct (take n bs) as [|c l]; [by right|]. left. cbn [length] in *. lia.
Qed.

Lemma pipe_of_stream w : 0 < w < 2 ^ 31 -> NetStream (H := pipe_of w) (str * str) (fun _ k => fst k) (fun _ k => snd k).
Proof.
  intros Hw. split.
  - intros fd n fl k Hn. eexists _, _, _, _. split; [reflexivity|]. split_and!.
    + unfold signed_range. rewrite length_take. lia.
    + destruct (moves_take (Z.to_nat (Z.min w n)) (fst k)) as [[? ?]|?]; [left|by right]. rewrite length_take in *. lia.
    + symmetry. apply take_drop.
    + done.
  - intros fd buf fl k. exists (Z.of_nat (length (take (Z.to_nat w) buf))), (take (Z.to_nat w) buf). eexists. split; [reflexivity|]. split_and!.
    + unfold signed_range. rewrite length_take. lia.
    + destruct (moves_take (Z.to_nat w) buf) as [[? ?]|?]; [left|by right]. rewrite length_take in *. lia.
    + exists (drop (Z.to_nat w) buf). by rewrite take_drop.
    + done.
    + done.
Qed.
#[local] Instance pipe_stream : NetStream (str * str) (fun _ k => fst k) (fun _ k => snd k).
Proof. by apply (pipe_of_stream 2). Qed.

Definition pipe : SocketStream (str * str) :=
  mkSS (Some (mkSock 3 2 1 0 true None None)) true (lit "hello", []).

Definition blank_blocks (_ _ : nat) : byte := x00.
Definition fresh_array : ByteArray := new_ByteArray blank_blocks 4.

Lemma fresh_array_wf : wf fresh_array.
Proof. apply new_ByteArray_wf. lia. Qed.

#[local] Instance pipe_ops : Stream (SocketStream (str * str)) := SocketStream_stream blank_blocks.
#[local] Instance pipe_laws :
  StreamLaws (SocketStream (str * str)) (ss_view (fun _ k => fst k)) (ss_view (fun _ k => snd k)).
Proof.
  split.
  - intros n t Hn. apply (read_keeps (out := fun _ k => snd k)). lia.
  - intros n b t Hn. apply (read_ba_keeps (out := fun _ k => snd k)). lia.
  - apply (write_keeps (inc := fun _ k => fst k)).
  - intros n b t Hn. apply (write_ba_keeps (inc := fun _ k => fst k)). lia.
Qed.

Lemma fix_size_buffer_witness :
  (exists stop bs t', readFixSize 5 (lit "......") 4 pipe = (Ok (fix_result 4 stop, splice 0 bs (lit "......")), t') /\
     calls (read_part 4) 4 (lit "......", pipe) stop (splice 0 bs (lit "......"), t') /\
     ends 4 stop (Z.of_nat (length bs)) /\
     ss_view (fun _ k => fst k) pipe = bs ++ ss_view (fun _ k => fst k) t') /\
  readFixSize 5 (lit "......") 4 pipe =
    (Ok (4, lit "hell.."), mkSS (ss_socket pipe) true (lit "o", [])).
Proof.
  split; [|reflexivity]. apply (fix_size_buffer 4 (lit "......") pipe); vm_compute; intuition congruence.
Defined.

Lemma fix_size_bytearray_witness :
  exists stop m b' t', writeFixSize_ba 6 5 (fresh_array, pipe) = (Ok (fix_result 5 stop), (b', t')) /\
    calls write_ba 5 (fresh_array, pipe) stop (b', t') /\
    ends 5 stop (Z.of_nat m) /\
    ss_view (fun _ k => snd k) t' =
      ss_view (fun _ k => snd k) pipe ++ slice (m_position fresh_array) m (content fresh_array) /\
    wf b' /\ view b' = (content fresh_array, (m_position fresh_array + m)%nat).
Proof. apply (fix_size_bytearray 5 fresh_array pipe); [lia|apply fresh_array_wf]. Defined.

Lemma socket_stream_laws_witness :
  exists len bs t', read 3 pipe = (Ok (len, bs), t') /\ moves len 3 bs /\
    ss_view (fun _ k => fst k) pipe = bs ++ ss_view (fun _ k => fst k) t'.
Proof.
  apply (@read_law _ _ _ _ (socket_stream_laws (inc := fun _ k => fst k) (out := fun _ k => snd k) blank_blocks) 3 pipe).
  lia.
Defined.
