(* ===== verification/TcpServer.v ===== *)
(** * The TCP server: src/src/tcpserver/tcpserver.cc

    The sockets a server listens on, and the tasks it hands to its two workers, recorded in
    the order of the calls of [schedule].  Sockets are shared between the server and the
    tasks, so they live in a heap.  The accept loop reads [m_isStop], which other threads
    change: an argument gives what each turn reads. *)

From S2P Require Import Prelude Endians Address Socket.
#[local] Set Default Goal Selector "!".

(** What the server schedules, with the sockets bound in it. *)
Inductive Task :=
| StartAccept (sock : nat)
| HandleClient (client : nat)
| CloseAll.

#[export] Instance Task_eq_dec : EqDecision Task.
Proof. solve_decision. Defined.

Record TcpServer := mkServer {
  m_socks : list nat;
  m_recvTimeout : Z;
  m_name : str;
  server_type : str;                 (** [m_type] *)
  m_isStop : bool;
  io_tasks : list Task;              (** scheduled on [m_ioWorker] *)
  accept_tasks : list Task           (** scheduled on [m_acceptWorker] *)
}.

Definition set_socks (l : list nat) (s : TcpServer) : TcpServer :=
  mkServer l (m_recvTimeout s) (m_name s) (server_type s) (m_isStop s) (io_tasks s) (accept_tasks s).
Definition set_stop (b : bool) (s : TcpServer) : TcpServer :=
  mkServer (m_socks s) (m_recvTimeout s) (m_name s) (server_type s) b (io_tasks s) (accept_tasks s).
Definition schedule_io (t : Task) (s : TcpServer) : TcpServer :=
  mkServer (m_socks s) (m_recvTimeout s) (m_name s) (server_type s) (m_isStop s) (io_tasks s ++ [t]) (accept_tasks s).
Definition schedule_accept (l : list Task) (s : TcpServer) : TcpServer :=
  mkServer (m_socks s) (m_recvTimeout s) (m_name s) (server_type s) (m_isStop s) (io_tasks s) (accept_tasks s ++ l).

(** [read_timeout] is the value of tcp_server.read_timeout, 120000 by default. *)
Definition new_TcpServer (read_timeout : Z) : TcpServer :=
  mkServer [] read_timeout (lit "phase0/1.0.0") (lit "tcp") true [] [].

(** The server, the sockets by address, and the system. *)
Record Site (K : Type) := mkSite { server : TcpServer; sockets : gmap nat Sock; net : K }.
Arguments mkSite {K}.
Arguments server {K}.
Arguments sockets {K}.
Arguments net {K}.

Section TcpServer.
Context (host : byte_order) {K : Type} `{Net K}.

Abbreviation TS := (M (Site K)).

Definition get_server : TS TcpServer := gets server.
Definition upd_server (f : TcpServer -> TcpServer) : TS unit :=
  modify (fun w => mkSite (f (server w)) (sockets w) (net w)).
Definition set_sockets (h : gmap nat Sock) (w : Site K) : Site K := mkSite (server w) h (net w).

Definition new_sock (s : Sock) : TS nat :=
  w ← get;
  let p := fresh (dom (sockets w)) in
  modify (set_sockets (<[p := s]> (sockets w))) ;;
  mret p.

(** A method of the socket at [p]. *)
Definition with_sock {A} (p : nat) (m : M (Sock * K) A) : TS A := fun w =>
  match sockets w !! p with
  | None => (Crash NullDeref, w)
  | Some s => let '(r, (s', k)) := m (s, net w) in (r, mkSite (server w) (<[p := s']> (sockets w)) k)
  end.

(** The last reference to a socket goes: its destructor runs. *)
Definition release (p : nat) : TS unit :=
  with_sock p close ;; modify (fun w => set_sockets (delete p (sockets w)) w).

(** [m_socks.clear()]: the sockets no task refers to are destroyed. *)
Fixpoint release_all (l : list nat) : TS unit :=
  match l with
  | [] => mret tt
  | p :: l =>
      s ← get_server;
      when (negb (bool_decide (StartAccept p ∈ accept_tasks s))) (release p) ;;
      release_all l
  end.

(** The loop of [bind]; the result is what is appended to [fails]. *)
Fixpoint bind_loop (addrs : list Address) : TS (list Address) :=
  match addrs with
  | [] => mret []
  | addr :: addrs =>
      sock ← new_sock (CreateTCP_for host addr);
      ok ← with_sock sock (bind host addr);
      if negb ok then release sock ;; fails ← bind_loop addrs; mret (addr :: fails) else
      ok ← with_sock sock (listen SOMAXCONN);
      if negb ok then release sock ;; fails ← bind_loop addrs; mret (addr :: fails) else
      upd_server (fun s => set_socks (m_socks s ++ [sock]) s) ;;
      bind_loop addrs
  end.

(** [fails]: what the vector passed by the caller holds, and holds at the end. *)
Definition bind_all (addrs fails : list Address) : TS (bool * list Address) :=
  more ← bind_loop addrs;
  let fails := fails ++ more in
  match fails with
  | [] => mret (true, fails)
  | _ =>
      s ← get_server;
      upd_server (set_socks []) ;;
      release_all (m_socks s) ;;
      mret (false, fails)
  end.

Definition bind_one (addr : Address) : TS bool := '(ok, _) ← bind_all [addr] []; mret ok.

Definition start : TS bool :=
  s ← get_server;
  if negb (m_isStop s) then mret true else
  upd_server (set_stop false) ;;
  upd_server (schedule_accept (StartAccept <$> m_socks s)) ;;
  mret true.

Definition stop : TS unit :=
  upd_server (set_stop true) ;;
  upd_server (schedule_accept [CloseAll]).

(** The task [stop] schedules; the sockets stay while tasks refer to them. *)
Fixpoint close_all (l : list nat) : TS unit :=
  match l with
  | [] => mret tt
  | p :: l => with_sock p cancelAll ;; with_sock p close ;; close_all l
  end.

Definition close_task : TS unit :=
  s ← get_server;
  close_all (m_socks s) ;;
  upd_server (set_socks []).

(** A turn of the loop of [startAccept]; the timeout is an [int64_t] parameter. *)
Definition accept_turn (sock : nat) : TS unit :=
  client ← with_sock sock (accept host);
  match client with
  | Some client =>
      p ← new_sock client;
      s ← get_server;
      with_sock p (setRecvTimeout (i64 (m_recvTimeout s))) ;;
      upd_server (schedule_io (HandleClient p))
  | None => mret tt
  end.

(** [stops] are the values that the readings of [m_isStop] at the head of the loop give: the loop waits in
    [accept], and other threads set the flag meanwhile, so they are not the flag of the state it starts in. *)
Fixpoint startAccept (stops : list bool) (sock : nat) : TS unit :=
  match stops with
  | [] => crashed OutOfFuel
  | true :: _ => mret tt
  | false :: stops => accept_turn sock ;; startAccept stops sock
  end.

(** The destructor. *)
Definition destroy : TS unit :=
  s ← get_server;
  (fix loop l := match l with [] => mret tt | p :: l => with_sock p close ;; loop l end) (m_socks s) ;;
  upd_server (set_socks []).

(** [toString]; [io] and [acc] are the names of the workers. *)
Definition toString (io acc prefix : str) (w : Site K) : str :=
  let s := server w in
  let pfx := if bool_decide (prefix = []) then lit "    " else prefix in
  prefix ++ lit "[type=" ++ server_type s ++ lit " name=" ++ m_name s ++ lit " ioWorker=" ++ io ++
  lit " accept=" ++ acc ++ lit " recv_timeout=" ++ print_dec (m_recvTimeout s) ++ lit "]" ++ [x0a] ++
  concat ((fun p => pfx ++ pfx ++ match sockets w !! p with Some s => dump host s | None => [] end ++ [x0a])
            <$> m_socks s).
End TcpServer.
