(* ===== verification/SocketTheorems.v ===== *)
(** * Sockets and the TCP server: the properties

    The accounting of descriptors: [NetLaws] says which calls open and close one, and every
    method of a socket is shown to keep the socket the owner of at most one. *)

From S2P Require Import Prelude Endians Utils Address FdManager Socket TcpServer.
#[local] Set Default Goal Selector "!".

(** The descriptors that are open.  Closing one that is not open has no law: nothing is known then of
    what is open afterwards, as another thread may just have been given its number. *)
Class NetLaws (K : Type) `{Net K} (live : K -> gset Z) : Prop := {
  socket_law f t p k :
    (fst (n_socket f t p k) = (-1) /\ live (snd (n_socket f t p k)) = live k) \/
    (0 <= fst (n_socket f t p k) /\ fst (n_socket f t p k) ∉ live k /\
     live (snd (n_socket f t p k)) = {[fst (n_socket f t p k)]} ∪ live k);
  accept_law fd k :
    (fst (n_accept fd k) = (-1) /\ live (snd (n_accept fd k)) = live k) \/
    (0 <= fst (n_accept fd k) /\ fst (n_accept fd k) ∉ live k /\
     live (snd (n_accept fd k)) = {[fst (n_accept fd k)]} ∪ live k);
  close_law fd k : fd ∈ live k -> live (snd (n_close fd k)) = live k ∖ {[fd]};
  bind_law fd a l k : live (snd (n_bind fd a l k)) = live k;
  listen_law fd b k : live (snd (n_listen fd b k)) = live k;
  connect_law fd a l t k : live (snd (n_connect fd a l t k)) = live k;
  getname_law b fd a l k : live (snd (n_getname b fd a l k)) = live k;
  setsockopt_law fd l o v k : live (snd (n_setsockopt fd l o v k)) = live k;
  getsockopt_law fd l o k : live (snd (n_getsockopt fd l o k)) = live k;
  net_send_law fd b fl t k : live (snd (n_send fd b fl t k)) = live k;
  net_recv_law fd n fl t k : live (snd (n_recv fd n fl t k)) = live k;
  unlink_law p k : live (snd (fs_unlink n_fs p k)) = live k;
  cancel_law fd e k : live (snd (n_cancel fd e k)) = live k;
  cancelAll_law fd k : live (snd (n_cancelAll fd k)) = live k
}.

Create HintDb keeps.

Section owns.
Context (host : byte_order) {K : Type} `{NetLaws K}.

(** [owns L (s, k)]: beside those of [L], the open descriptors are the socket's, if any. *)
Definition owns (L : gset Z) (p : Sock * K) : Prop :=
  m_sock (fst p) = (-1) /\ live (snd p) = L \/
  0 <= m_sock (fst p) /\ m_sock (fst p) ∉ L /\ live (snd p) = {[m_sock (fst p)]} ∪ L.

(** [keeps m]: [m] returns, and its socket goes on owning what it has. *)
Definition keeps {A} (m : M (Sock * K) A) : Prop :=
  forall L p, owns L p -> exists a p', m p = (Ok a, p') /\ owns L p'.

Lemma keeps_ret {A} (a : A) : keeps (mret a).
Proof. intros L p Hp. by exists a, p. Qed.

Lemma keeps_bind {A B} (m : M (Sock * K) A) (f : A -> M (Sock * K) B) :
  keeps m -> (forall a, keeps (f a)) -> keeps (m ≫= f).
Proof.
  intros Hm Hf L p Hp. destruct (Hm L p Hp) as (a & p1 & H1 & Hp1). rewrite (bind_ok _ _ _ _ _ H1). by apply Hf.
Qed.

Lemma keeps_self : keeps self.
Proof. intros L p Hp. by exists (fst p), p. Qed.

Lemma keeps_get : keeps get.
Proof. intros L p Hp. by exists p, p. Qed.

Lemma keeps_upd f : (forall s, m_sock (f s) = m_sock s) -> keeps (upd f).
Proof. intros Hf L [s k] Hp. exists tt, (f s, k). split; [done|]. unfold owns in *. cbn [fst snd] in *. by rewrite Hf. Qed.

Lemma keeps_call {A} (f : K -> A * K) : (forall k, live (snd (f k)) = live k) -> keeps (call f).
Proof.
  intros Hf L [s k] Hp. exists (fst (f k)), (s, snd (f k)). split.
  - unfold call. cbn [fst snd]. by destruct (f k).
  - unfold owns in *. cbn [fst snd] in *. by rewrite Hf.
Qed.

Lemma keeps_when b m : keeps m -> keeps (when b m).
Proof. intros Hm. destruct b; [done|apply keeps_ret]. Qed.

Lemma keeps_if {A} (b : bool) (m1 m2 : M (Sock * K) A) : keeps m1 -> keeps m2 -> keeps (if b then m1 else m2).
Proof. by destruct b. Qed.

(** The steps that never touch the descriptor, in any combination. *)
Ltac keeps_tac :=
  repeat first
    [ solve [eauto 1 with keeps]
    | apply keeps_ret | apply keeps_self | apply keeps_get
    | apply keeps_upd; intros ?; reflexivity
    | apply keeps_call; intros ?;
        first [ apply bind_law | apply listen_law | apply connect_law | apply getname_law | apply setsockopt_law
              | apply getsockopt_law | apply net_send_law | apply net_recv_law | apply cancel_law | apply cancelAll_law ]
    | apply keeps_bind; [|intros ?]
    | apply keeps_when | apply keeps_if
    | match goal with |- keeps (match ?x with _ => _ end) => destruct x end ].

Lemma keeps_setOption l o v : keeps (setOption l o v).
Proof. unfold setOption. keeps_tac. Qed.
#[local] Hint Resolve keeps_setOption : keeps.

Lemma keeps_initSock : keeps initSock.
Proof. unfold initSock. keeps_tac. Qed.
#[local] Hint Resolve keeps_initSock : keeps.

Lemma keeps_getRemoteAddress : keeps (getRemoteAddress host).
Proof. unfold getRemoteAddress. keeps_tac. Qed.
#[local] Hint Resolve keeps_getRemoteAddress : keeps.

Lemma keeps_getLocalAddress : keeps (getLocalAddress host).
Proof. unfold getLocalAddress. keeps_tac. Qed.
#[local] Hint Resolve keeps_getLocalAddress : keeps.

(** ** Opening and closing *)

Lemma call_run {A} (f : K -> A * K) s k : call f (s, k) = (Ok (fst (f k)), (s, snd (f k))).
Proof. unfold call. cbn [fst snd]. by destruct (f k). Qed.

Lemma newSock_owns L s k :
  m_sock s = (-1) -> live k = L ->
  exists p', newSock (s, k) = (Ok tt, p') /\ owns L p'.
Proof.
  intros Hs Hk. unfold newSock. rewrite (bind_ok self _ _ s (s, k)) by done.
  rewrite (bind_ok _ _ _ _ _ (call_run _ s k)).
  pose proof (socket_law (m_family s) (m_type s) (m_protocol s) k) as Hlaw.
  destruct (n_socket _ _ _ k) as [fd k1]. cbn [fst snd] in *.
  rewrite (bind_ok (upd (set_sock fd)) _ _ tt (set_sock fd s, k1)) by done.
  assert (Ho : owns L (set_sock fd s, k1)).
  { unfold owns. cbn [fst snd m_sock set_sock]. subst L.
    destruct Hlaw as [[-> ->]|(? & ? & ->)]; [by left|right]. by split_and!. }
  destruct (keeps_when (negb (fd =? -1)) initSock keeps_initSock L _ Ho) as ([] & p' & Hrun & Ho').
  by exists p'.
Qed.

(** What makes sure that there is a descriptor. *)
Lemma keeps_ensure {A} (m : M (Sock * K) A) :
  keeps m -> keeps (self ≫= (fun s => when (negb (isValid s)) newSock ≫= (fun _ => m))).
Proof.
  intros Hm L [s k] Hp. rewrite (bind_ok self _ _ s (s, k)) by done. unfold isValid.
  destruct (Z.eqb_spec (m_sock s) (-1)) as [Hs|Hs]; cbn [negb when].
  - destruct Hp as [[_ Hk]|[? _]]; cbn [fst snd] in *; [|lia].
    destruct (newSock_owns L s k Hs Hk) as (p1 & Hrun & Hp1). rewrite (bind_ok _ _ _ _ _ Hrun). by apply Hm.
  - rewrite (bind_ok (mret tt) _ _ tt (s, k)) by done. by apply Hm.
Qed.

(** Closing gives the descriptor back. *)
Lemma close_run L s k :
  owns L (s, k) -> exists b s' k', close (s, k) = (Ok b, (s', k')) /\ m_sock s' = (-1) /\ live k' = L /\
    m_isConnected s' = false.
Proof.
  intros Hp. unfold close. rewrite (bind_ok self _ _ s (s, k)) by done.
  destruct (Z.eqb_spec (m_sock s) (-1)) as [Hs|Hs].
  - destruct Hp as [[_ Hk]|[? _]]; cbn [fst snd] in *; [|lia]. destruct (m_isConnected s) eqn:Ec; cbn [negb andb].
    + by exists false, (set_connected false s), k.
    + by exists true, s, k.
  - destruct Hp as [[? _]|(? & Hn & Hk)]; cbn [fst snd] in *; [lia|]. rewrite andb_false_r.
    rewrite (bind_ok (upd _) _ _ tt (set_connected false s, k)) by done. cbn [negb when].
    exists false, (set_sock (-1) (set_connected false s)), (snd (n_close (m_sock s) k)).
    rewrite (bind_ok _ _ _ tt (set_sock (-1) (set_connected false s), snd (n_close (m_sock s) k))).
    + split_and!; [done..| |done]. rewrite close_law, Hk by set_solver. set_solver.
    + by rewrite (bind_ok _ _ _ _ _ (call_run _ _ k)).
Qed.

Lemma keeps_close : keeps close.
Proof.
  intros L [s k] Hp. destruct (close_run L s k Hp) as (b & s' & k' & Hrun & Hs & Hk & _).
  exists b, (s', k'). split; [done|]. by left.
Qed.
#[local] Hint Resolve keeps_close : keeps.

(** A socket made on the side: it owns what it opens beside all that was open. *)
Lemma side_run {A} (m : M (Sock * K) A) s p :
  keeps m -> m_sock s = (-1) ->
  exists a s' k', on_sock s m p = (Ok (a, s'), (fst p, k')) /\ owns (live (snd p)) (s', k').
Proof.
  intros Hm Hs. destruct (Hm (live (snd p)) (s, snd p)) as (a & [s' k'] & Hrun & Ho); [by left|].
  exists a, s', k'. split; [|done]. unfold on_sock. by rewrite Hrun.
Qed.

Lemma keeps_connect addr t : keeps (connect host addr t).
Proof.
  unfold connect. apply keeps_bind; [by apply keeps_upd|]. intros _. apply keeps_ensure.
  keeps_tac.
Qed.
#[local] Hint Resolve keeps_connect : keeps.

Lemma claim_path_run addr p :
  exists b k', claim_path host addr p = (Ok b, (fst p, k')) /\ live k' = live (snd p).
Proof.
  destruct p as [s k]. unfold claim_path. destruct addr as [m|m|m l|m]; try by exists true, k.
  destruct (side_run (connect host (UnixAddress m l) None) CreateUnixTCPSocket (s, k) (keeps_connect _ _) ltac:(done))
    as (used & t & k1 & Hrun & Ho). cbn [fst snd] in *. rewrite (bind_ok _ _ _ _ _ Hrun).
  set (unlink := if used then mret tt else _).
  assert (exists k2, unlink (s, k1) = (Ok tt, (s, k2)) /\ live k2 = live k1) as (k2 & Hun & Hk2).
  { unfold unlink. destruct used; [by exists k1|]. unfold Unlink. cbn [snd fst].
    rewrite (bind_ok get _ k1 k1 k1) by done. cbn [negb andb].
    pose proof (unlink_law (c_str (getPath m l)) k1) as Hlaw.
    destruct (fs_unlink n_fs (c_str (getPath m l)) k1) as [r k2]. by exists k2. }
  rewrite (bind_ok _ _ _ _ _ Hun).
  destruct (close_run (live k) t k2) as (b & t' & k3 & Hcl & _ & Hk3 & _).
  { unfold owns in *. cbn [fst snd] in *. by rewrite Hk2. }
  exists (negb used), k3. split; [|done].
  assert (Hon : on_sock t close (s, k2) = (Ok (b, t'), (s, k3))) by (unfold on_sock; cbn [fst snd]; by rewrite Hcl).
  by rewrite (bind_ok _ _ _ _ _ Hon).
Qed.

Lemma keeps_claim_path addr : keeps (claim_path host addr).
Proof.
  intros L p Hp. destruct (claim_path_run addr p) as (b & k' & Hrun & Hk). exists b, (fst p, k'). split; [done|].
  unfold owns in *. cbn [fst snd]. by rewrite Hk.
Qed.
#[local] Hint Resolve keeps_claim_path : keeps.

Lemma keeps_bind_addr addr : keeps (bind host addr).
Proof.
  unfold bind. apply keeps_bind; [by apply keeps_upd|]. intros _. apply keeps_ensure.
  keeps_tac.
Qed.
#[local] Hint Resolve keeps_bind_addr : keeps.

Lemma keeps_listen b : keeps (listen b).
Proof. unfold listen. keeps_tac. Qed.
#[local] Hint Resolve keeps_listen : keeps.

Lemma keeps_cancelAll : keeps cancelAll.
Proof. unfold cancelAll. keeps_tac. Qed.
#[local] Hint Resolve keeps_cancelAll : keeps.

(** ** Accepting *)

(** [stable m]: [m] returns, leaving all but the addresses of the socket, and the descriptors. *)
Definition stable {A} (m : M (Sock * K) A) : Prop :=
  forall s k, exists a l r k', m (s, k) = (Ok a, (set_local l (set_remote r s), k')) /\ live k' = live k.

Lemma stable_ret {A} (a : A) : stable (mret a).
Proof. intros s k. exists a, (m_localAddress s), (m_remoteAddress s), k. by destruct s. Qed.

Lemma stable_bind {A B} (m : M (Sock * K) A) (f : A -> M (Sock * K) B) :
  stable m -> (forall a, stable (f a)) -> stable (m ≫= f).
Proof.
  intros Hm Hf s k. destruct (Hm s k) as (a & l & r & k1 & H1 & Hk1). rewrite (bind_ok _ _ _ _ _ H1).
  destruct (Hf a (set_local l (set_remote r s)) k1) as (b & l' & r' & k2 & H2 & Hk2).
  exists b, l', r', k2. split; [exact H2|congruence].
Qed.

Lemma stable_self : stable self.
Proof. intros s k. exists s, (m_localAddress s), (m_remoteAddress s), k. by destruct s. Qed.

Lemma stable_call {A} (f : K -> A * K) : (forall k, live (snd (f k)) = live k) -> stable (call f).
Proof.
  intros Hf s k. exists (fst (f k)), (m_localAddress s), (m_remoteAddress s), (snd (f k)).
  rewrite call_run, Hf. by destruct s.
Qed.

Lemma stable_when b m : stable m -> stable (when b m).
Proof. intros Hm. destruct b; [done|apply stable_ret]. Qed.

Lemma stable_setOption l o v : stable (setOption l o v).
Proof.
  apply stable_bind; [apply stable_self|]. intros s. apply stable_bind; [|intros rt; apply stable_ret].
  apply stable_call. intros. apply setsockopt_law.
Qed.

Lemma stable_initSock : stable initSock.
Proof.
  apply stable_bind; [apply stable_self|]. intros s. apply stable_bind; [apply stable_setOption|]. intros _.
  apply stable_when, stable_bind; [apply stable_setOption|]. intros _. apply stable_ret.
Qed.

Lemma stable_getname b : stable (getname host b).
Proof.
  apply stable_bind; [apply stable_self|]. intros s. apply stable_bind; [|intros [[? ?] ?]; apply stable_ret].
  apply stable_call. intros. apply getname_law.
Qed.

Lemma stable_remote a : stable (upd (set_remote a)).
Proof. intros s k. exists tt, (m_localAddress s), a, k. by destruct s. Qed.

Lemma stable_local a : stable (upd (set_local a)).
Proof. intros s k. exists tt, a, (m_remoteAddress s), k. by destruct s. Qed.

Lemma stable_getRemoteAddress : stable (getRemoteAddress host).
Proof.
  apply stable_bind; [apply stable_self|]. intros s. destruct (m_remoteAddress s); [apply stable_ret|].
  apply stable_bind; [apply stable_getname|]. intros [a ok].
  apply stable_bind; [apply stable_when, stable_remote|]. intros _. apply stable_ret.
Qed.

Lemma stable_getLocalAddress : stable (getLocalAddress host).
Proof.
  apply stable_bind; [apply stable_self|]. intros s. destruct (m_localAddress s); [apply stable_ret|].
  apply stable_bind; [apply stable_getname|]. intros [a ok].
  apply stable_bind; [apply stable_when, stable_local|]. intros _. apply stable_ret.
Qed.

(** Whether the descriptor table has a descriptor as an open socket. *)
Definition registered (fd : Z) (k : K) : bool :=
  match n_ctx fd k with Some ctx => isSocket ctx && negb (isClose ctx) | None => false end.

Lemma init_fd_run s fd k :
  if registered fd k then
    exists l r k', init_fd host fd (s, k) =
      (Ok true, (set_local l (set_remote r (set_connected true (set_sock fd s))), k')) /\ live k' = live k
  else init_fd host fd (s, k) = (Ok false, (s, k)).
Proof.
  unfold init_fd, registered. rewrite (bind_ok get _ _ (s, k) (s, k)) by done.
  destruct (n_ctx fd k) as [ctx|]; [|done]. destruct (isSocket ctx && negb (isClose ctx)); [|done].
  rewrite (bind_ok (upd _) _ _ tt (set_sock fd s, k)) by done.
  rewrite (bind_ok (upd _) _ _ tt (set_connected true (set_sock fd s), k)) by done.
  destruct (stable_initSock (set_connected true (set_sock fd s)) k) as ([] & l1 & r1 & k1 & H1 & Hk1).
  rewrite (bind_ok _ _ _ _ _ H1).
  match type of H1 with _ = (_, (?s1, _)) =>
    destruct (stable_getLocalAddress s1 k1) as (a2 & l2 & r2 & k2 & H2 & Hk2) end.
  rewrite (bind_ok _ _ _ _ _ H2).
  match type of H2 with _ = (_, (?s2, _)) =>
    destruct (stable_getRemoteAddress s2 k2) as (a3 & l3 & r3 & k3 & H3 & Hk3) end.
  rewrite (bind_ok _ _ _ _ _ H3). exists l3, r3, k3. split; [done|congruence].
Qed.

Lemma accept_fails s k :
  fst (n_accept (m_sock s) k) = -1 -> accept host (s, k) = (Ok None, (s, snd (n_accept (m_sock s) k))).
Proof.
  intros Hfd. unfold accept. rewrite (bind_ok self _ _ s (s, k)) by done.
  by rewrite (bind_ok _ _ _ _ _ (call_run _ s k)), Hfd.
Qed.

(** [accept] returns null when the system's call fails; a connection whose descriptor is in the
    descriptor table as an open socket becomes a connected [Socket] of the same family, type and
    protocol that owns it; but the descriptor of a connection that is not there is neither handed out
    nor closed: it stays open.  The listening socket keeps its descriptor throughout. *)
Theorem accept_takes_or_leaks s k :
  let fd := fst (n_accept (m_sock s) k) in let k1 := snd (n_accept (m_sock s) k) in
  if fd =? -1 then accept host (s, k) = (Ok None, (s, k1)) /\ live k1 = live k
  else fd ∉ live k /\
    if registered fd k1 then
      exists c k2, accept host (s, k) = (Ok (Some c), (s, k2)) /\ m_sock c = fd /\
        m_isConnected c = true /\ m_family c = m_family s /\ m_type c = m_type s /\
        m_protocol c = m_protocol s /\ live k2 = {[fd]} ∪ live k
    else exists k2, accept host (s, k) = (Ok None, (s, k2)) /\ live k2 = {[fd]} ∪ live k.
Proof.
  cbv zeta. unfold accept. rewrite (bind_ok self _ _ s (s, k)) by done.
  rewrite (bind_ok _ _ _ _ _ (call_run _ s k)).
  pose proof (accept_law (m_sock s) k) as Hlaw.
  destruct (n_accept (m_sock s) k) as [fd k1]. cbn [fst snd] in *.
  destruct (Z.eqb_spec fd (-1)) as [Hfd|Hfd].
  - destruct Hlaw as [[_ Hk]|[? _]]; [done|lia].
  - destruct Hlaw as [[? _]|(? & Hn & Hk)]; [done|]. split; [done|].
    set (c0 := new_Socket (m_family s) (m_type s) (m_protocol s)).
    pose proof (init_fd_run c0 fd k1) as Hinit. destruct (registered fd k1).
    + destruct Hinit as (l & r & k2 & Hrun & Hk2).
      rewrite (bind_ok (on_sock c0 _) _ _ (true, set_local l (set_remote r (set_connected true (set_sock fd c0)))) (s, k2)).
      2:{ unfold on_sock. cbn [fst snd]. by rewrite Hrun. }
      eexists _, k2. split; [reflexivity|]. split_and!; try done. by rewrite Hk2.
    + rewrite (bind_ok (on_sock c0 _) _ _ (false, c0) (s, k1)).
      2:{ unfold on_sock. cbn [fst snd]. by rewrite Hinit. }
      by exists k1.
Qed.

(** ** The methods *)















End owns.

(** ** The server *)

Section server.
Context (host : byte_order) {K : Type} `{NetLaws K}.
Abbreviation own := (owns (live := live)).
Implicit Types (w : Site K) (L : gset Z).

(** [holds L ps w]: the sockets at [ps] own one descriptor each, and these and [L] are what is open. *)
Definition holds L (ps : list nat) w : Prop :=
  NoDup ps /\ exists fds, NoDup fds /\ (forall fd, fd ∈ fds -> fd ∉ L) /\
    Forall2 (fun p fd => 0 <= fd /\ exists s, sockets w !! p = Some s /\ m_sock s = fd) ps fds /\
    live (net w) = list_to_set fds ∪ L.

Lemma with_sock_run {A} (m : M (Sock * K) A) w p s a s' k' :
  sockets w !! p = Some s -> m (s, net w) = (Ok a, (s', k')) ->
  with_sock p m w = (Ok a, mkSite (server w) (<[p := s']> (sockets w)) k').
Proof. intros Hp Hm. unfold with_sock. by rewrite Hp, Hm. Qed.

Lemma listen_run b s k :
  exists ok k', listen b (s, k) = (Ok ok, (s, k')) /\ live k' = live k /\ (ok = true -> m_sock s <> -1).
Proof.
  unfold listen. rewrite (bind_ok self _ _ s (s, k)) by done. unfold isValid.
  destruct (Z.eqb_spec (m_sock s) (-1)); cbn [negb]; [by exists false, k|].
  rewrite (bind_ok _ _ _ _ _ (call_run _ s k)). eexists _, _. split; [reflexivity|]. split; [apply listen_law|done].
Qed.

Lemma holds_in L ps w p : holds L ps w -> p ∈ ps -> exists s, sockets w !! p = Some s.
Proof.
  intros (_ & fds & _ & _ & Hf & _) Hp. apply list_elem_of_lookup in Hp as [i Hi].
  destruct (Forall2_lookup_l _ _ _ _ _ Hf Hi) as (fd & _ & _ & s & Hs & _). by exists s.
Qed.

Lemma holds_frame L ps w w' :
  holds L ps w -> (forall q, q ∈ ps -> sockets w' !! q = sockets w !! q) -> live (net w') = live (net w) ->
  holds L ps w'.
Proof.
  intros (Hnd & fds & Hf1 & Hf2 & Hf & Hl) Hq Hk. split; [done|]. exists fds. split_and!; try done; [|congruence].
  clear -Hf Hq. induction Hf as [|p fd ps fds (Hfd & s & Hs & Hm) Hf IH]; constructor.
  - split; [done|]. exists s. by rewrite Hq by left.
  - apply IH. intros q Hin. apply Hq. by right.
Qed.

(** The first socket, apart from the others. *)
Lemma holds_take L p ps w :
  holds L (p :: ps) w -> p ∉ ps /\ exists s L', sockets w !! p = Some s /\ own L' (s, net w) /\
    forall w', (forall q, q ∈ ps -> sockets w' !! q = sockets w !! q) -> live (net w') = L' -> holds L ps w'.
Proof.
  intros (Hnd & fds & Hf1 & Hf2 & Hf & Hl). apply NoDup_cons in Hnd as [Hp Hnd]. split; [done|].
  inversion Hf as [|? fd ? fds' (Hfd & s & Hs & Hm) Hf']; subst. apply NoDup_cons in Hf1 as [Hfn Hf1].
  exists s, (list_to_set fds' ∪ L). split_and!; [done| |].
  - right. cbn [fst snd]. split_and!; [done| |].
    + rewrite elem_of_union, elem_of_list_to_set. intros [?|?]; [done|]. apply (Hf2 (m_sock s)); [by left|done].
    + rewrite Hl. cbn [list_to_set]. set_solver.
  - intros w' Hq Hk. split; [done|]. exists fds'. split_and!; try done.
    + intros fd Hin. apply Hf2. by right.
    + clear -Hf' Hq. induction Hf' as [|q fd ps fds (Hfd & t & Ht & Hm) Hf IH]; constructor.
      * split; [done|]. exists t. by rewrite Hq by left.
      * apply IH. intros r Hr. apply Hq. by right.
Qed.

Lemma holds_add L ps w w' p s :
  holds L ps w -> p ∉ ps -> (forall q, q ∈ ps -> sockets w' !! q = sockets w !! q) ->
  sockets w' !! p = Some s -> own (live (net w)) (s, net w') -> m_sock s <> -1 ->
  holds L (ps ++ [p]) w'.
Proof.
  intros (Hnd & fds & Hf1 & Hf2 & Hf & Hl) Hp Hq Hs Ho Hm.
  destruct Ho as [[? _]|(Hfd & Hn & Hk)]; cbn [fst snd] in *; [done|]. rewrite Hl, elem_of_union, elem_of_list_to_set in Hn.
  split; [apply NoDup_app; split_and!; [done|set_solver|apply NoDup_singleton]|].
  exists (fds ++ [m_sock s]). split_and!.
  - apply NoDup_app. split_and!; [done| |apply NoDup_singleton]. intros x Hx Hx'. apply list_elem_of_singleton in Hx' as ->. tauto.
  - intros x. rewrite elem_of_app, list_elem_of_singleton. intros [?| ->]; [by apply Hf2|tauto].
  - apply Forall2_app.
    + clear -Hf Hq. induction Hf as [|q fd ps fds (Hfd & t & Ht & Hm) Hf IH]; constructor.
      * split; [done|]. exists t. by rewrite Hq by left.
      * apply IH. intros r Hr. apply Hq. by right.
    + constructor; [|constructor]. split; [done|]. by exists s.
  - rewrite Hk, Hl, list_to_set_app_L. cbn [list_to_set]. set_solver.
Qed.

Lemma release_run p w s L :
  sockets w !! p = Some s -> own L (s, net w) ->
  exists k, release p w = (Ok tt, mkSite (server w) (delete p (sockets w)) k) /\ live k = L.
Proof.
  intros Hp Ho. destruct (close_run L s (net w) Ho) as (b & s' & k & Hcl & _ & Hk & _). exists k. split; [|done].
  unfold release. rewrite (bind_ok _ _ _ _ _ (with_sock_run _ w p s _ _ _ Hp Hcl)).
  unfold modify, set_sockets. cbn [server sockets net]. by rewrite delete_insert_eq.
Qed.

Lemma release_all_run L ps w :
  holds L ps w -> (forall p, p ∈ ps -> StartAccept p ∉ accept_tasks (server w)) ->
  exists h k, release_all ps w = (Ok tt, mkSite (server w) h k) /\ live k = L.
Proof.
  revert w. induction ps as [|p ps IH]; intros w Hw Ht.
  - destruct Hw as (_ & fds & _ & _ & Hf & Hl). inversion Hf; subst. exists (sockets w), (net w).
    split; [by destruct w|]. rewrite Hl. set_solver.
  - destruct (holds_take L p ps w Hw) as (Hp & s & L' & Hs & Ho & Hrest). cbn [release_all].
    rewrite (bind_ok get_server _ w (server w) w) by done. rewrite bool_decide_false by (apply Ht; by left). cbn [negb when].
    destruct (release_run p w s L' Hs Ho) as (k & Hrun & Hk). rewrite (bind_ok _ _ _ _ _ Hrun).
    destruct (IH (mkSite (server w) (delete p (sockets w)) k)) as (h & k' & Hall & Hk').
    + apply Hrest; [|done]. intros q Hq. cbn [sockets]. rewrite lookup_delete_ne; [done|]. by intros ->.
    + intros q Hq. apply Ht. by right.
    + exists h, k'. by rewrite Hall.
Qed.

(** What binding [addrs] by [m] from [w'], a state that has the server, sockets and descriptors of [w], comes to. *)
Definition binds L (addrs : list Address) w (m : M (Site K) (list Address)) w' : Prop :=
  exists fails ps h k, m w' = (Ok fails, mkSite (set_socks (m_socks (server w) ++ ps) (server w)) h k) /\
    holds L (m_socks (server w) ++ ps) (mkSite (set_socks (m_socks (server w) ++ ps) (server w)) h k) /\
    fails `sublist_of` addrs /\ (length ps + length fails = length addrs)%nat /\
    (forall p, p ∈ ps -> p ∉ dom (sockets w)).

(** An address whose socket is dropped. *)
Lemma bind_failed L addr addrs w p s k :
  p ∉ dom (sockets w) -> holds L (m_socks (server w)) w -> own (live (net w)) (s, k) ->
  (forall w, holds L (m_socks (server w)) w -> binds L addrs w (bind_loop host addrs) w) ->
  binds L (addr :: addrs) w (release p ;; fails ← bind_loop host addrs; mret (addr :: fails))
    (mkSite (server w) (<[p := s]> (sockets w)) k).
Proof.
  intros Hp Hw Ho IH.
  destruct (release_run p (mkSite (server w) (<[p := s]> (sockets w)) k) s _ (lookup_insert_eq _ _ _) Ho) as (k4 & Hrel & Hk4).
  cbn [server sockets] in Hrel. rewrite delete_insert_id in Hrel by by apply not_elem_of_dom.
  destruct (IH (mkSite (server w) (sockets w) k4)) as (fails & ps & h & k' & Hrun & Hh & Hsub & Hlen & Hfr).
  { by apply (holds_frame L _ w). }
  exists (addr :: fails), ps, h, k'. rewrite (bind_ok _ _ _ _ _ Hrel), (bind_ok _ _ _ _ _ Hrun). split_and!; try done.
  - by constructor.
  - cbn [length]. lia.
Qed.

Lemma bind_loop_run L addrs w :
  holds L (m_socks (server w)) w -> binds L addrs w (bind_loop host addrs) w.
Proof.
  revert w. induction addrs as [|addr addrs IH]; intros w Hw.
  { exists [], [], (sockets w), (net w). rewrite app_nil_r. destruct w as [[] h k]. split_and!; try done. set_solver. }
  set (p := fresh (dom (sockets w))). assert (Hp : p ∉ dom (sockets w)) by apply is_fresh.
  assert (Hpn : p ∉ m_socks (server w)).
  { intros Hin. destruct (holds_in _ _ _ _ Hw Hin) as [s Hs]. apply Hp. by apply elem_of_dom_2 in Hs. }
  destruct (keeps_bind_addr host addr (live (net w)) (CreateTCP_for host addr, net w)) as (ok & [s k] & Hb & Ho); [by left|].
  destruct (listen_run SOMAXCONN s k) as (ok2 & k2 & Hls & Hk2 & Hval).
  assert (Ho2 : own (live (net w)) (s, k2)) by (unfold own in *; cbn [fst snd] in *; by rewrite Hk2).
  pose proof (bind_failed L addr addrs w p s k Hp Hw Ho IH) as Hfail.
  pose proof (bind_failed L addr addrs w p s k2 Hp Hw Ho2 IH) as Hfail2.
  unfold binds in Hfail, Hfail2 |- *. cbn [bind_loop].
  set (w1 := set_sockets (<[p := CreateTCP_for host addr]> (sockets w)) w).
  rewrite (bind_ok (new_sock _) _ w p w1) by done.
  rewrite (bind_ok _ _ _ _ _ (with_sock_run _ w1 p _ ok s k (lookup_insert_eq _ _ _) Hb)).
  unfold w1. cbn [server sockets set_sockets]. rewrite insert_insert_eq. destruct ok; cbn [negb]; [|exact Hfail].
  rewrite (bind_ok _ _ _ _ _ (with_sock_run _ (mkSite (server w) _ k) p s ok2 s k2 (lookup_insert_eq _ _ _) Hls)).
  cbn [server sockets]. rewrite insert_insert_eq. destruct ok2; cbn [negb]; [|exact Hfail2]. clear Hfail Hfail2.
  set (w4 := mkSite (set_socks (m_socks (server w) ++ [p]) (server w)) (<[p := s]> (sockets w)) k2).
  rewrite (bind_ok (upd_server _) _ _ tt w4) by done.
  destruct (IH w4) as (fails & ps & h & k' & Hrun & Hh & Hsub & Hlen & Hfr).
  { apply (holds_add L (m_socks (server w)) w w4 p s); try done.
    - intros q Hq. apply lookup_insert_ne. by intros ->.
    - apply lookup_insert_eq.
    - by apply Hval. }
  cbn [w4 server set_socks m_socks] in Hrun, Hh. rewrite <- app_assoc in Hrun, Hh.
  exists fails, (p :: ps), h, k'. rewrite Hrun. split_and!; try done.
  - by apply sublist_cons.
  - cbn [length]. lia.
  - intros q [->|Hq]%elem_of_cons; [done|]. intros Hin. apply (Hfr q Hq). cbn. rewrite dom_insert. set_solver.
Qed.

(** Binding a server, not yet started, to a list of addresses is all or nothing: either every address
    has its own bound, listening socket, with a descriptor of its own; or some address failed, the
    failing ones are reported in order, and every socket, those of earlier calls included, is dropped
    with its descriptor closed. *)
Theorem bind_all_or_nothing L addrs w :
  holds L (m_socks (server w)) w -> accept_tasks (server w) = [] ->
  exists ok fails w', bind_all host addrs [] w = (Ok (ok, fails), w') /\ fails `sublist_of` addrs /\
    if ok : bool then fails = [] /\ (exists ps, m_socks (server w') = m_socks (server w) ++ ps /\
                        length ps = length addrs) /\ holds L (m_socks (server w')) w'
    else fails <> [] /\ m_socks (server w') = [] /\ live (net w') = L.
Proof.
  intros Hw Ht. destruct (bind_loop_run L addrs w Hw) as (fails & ps & h & k & Hrun & Hh & Hsub & Hlen & _).
  unfold bind_all. rewrite (bind_ok _ _ _ _ _ Hrun). cbn [app].
  set (w1 := mkSite _ h k) in *. destruct fails as [|f fails].
  - exists true, [], w1. split_and!; try done. exists ps. split; [done|]. simpl in Hlen. lia.
  - rewrite (bind_ok get_server _ w1 (server w1) w1) by done.
    set (w2 := mkSite (set_socks [] (server w1)) h k). rewrite (bind_ok (upd_server _) _ w1 tt w2) by done.
    destruct (release_all_run L (m_socks (server w1)) w2) as (h' & k' & Hrel & Hk').
    { by apply (holds_frame L _ w1). }
    { intros p _. cbn. rewrite Ht. set_solver. }
    exists false, (f :: fails), (mkSite (server w2) h' k'). rewrite (bind_ok _ _ _ _ _ Hrel). by split_and!.
Qed.

Lemma close_all_run L ps w :
  holds L ps w -> exists h k, close_all ps w = (Ok tt, mkSite (server w) h k) /\ live k = L /\
    (forall p, p ∈ ps -> exists s, h !! p = Some s /\ m_sock s = -1) /\
    (forall p, p ∉ ps -> h !! p = sockets w !! p).
Proof.
  revert w. induction ps as [|p ps IH]; intros w Hw.
  - destruct Hw as (_ & fds & _ & _ & Hf & Hl). inversion Hf; subst. exists (sockets w), (net w).
    split_and!; [by destruct w| |by intros p ?%elem_of_nil|done]. rewrite Hl. set_solver.
  - destruct (holds_take L p ps w Hw) as (Hp & s & L' & Hs & Ho & Hrest). cbn [close_all].
    destruct (keeps_cancelAll L' _ Ho) as (c & [s1 k1] & Hc & Ho1).
    rewrite (bind_ok _ _ _ _ _ (with_sock_run _ w p s c s1 k1 Hs Hc)).
    set (w1 := mkSite (server w) (<[p := s1]> (sockets w)) k1).
    assert (Hs1 : sockets w1 !! p = Some s1) by apply lookup_insert_eq.
    destruct (close_run L' s1 k1 Ho1) as (b & s2 & k2 & Hcl & Hm2 & Hk2 & _).
    rewrite (bind_ok _ _ _ _ _ (with_sock_run _ w1 p s1 b s2 k2 Hs1 Hcl)).
    cbn [w1 server sockets]. rewrite insert_insert_eq.
    destruct (IH (mkSite (server w) (<[p := s2]> (sockets w)) k2)) as (h & k & Hall & Hk & Hin & Hout).
    { apply Hrest; [|done]. intros q Hq. apply lookup_insert_ne. by intros ->. }
    exists h, k. rewrite Hall. split_and!; [done..| |].
    + intros q [->|Hq]%elem_of_cons; [|by apply Hin]. exists s2. rewrite Hout by done. cbn [sockets]. by rewrite lookup_insert_eq.
    + intros q Hq. rewrite Hout by set_solver. cbn [sockets]. apply lookup_insert_ne. set_solver.
Qed.

(** Accepting on a closed socket goes on failing. *)
Lemma accept_spins (Haccept : forall k, fst (n_accept (-1) k) = -1) n p s w :
  sockets w !! p = Some s -> m_sock s = -1 ->
  exists w', startAccept host (replicate n false) p w = (Crash OutOfFuel, w') /\ server w' = server w.
Proof.
  intros Hs Hm. revert w Hs. induction n as [|n IH]; intros w Hs; [by exists w|]. cbn [replicate startAccept].
  assert (Hturn : accept_turn host p w = (Ok tt, mkSite (server w) (<[p := s]> (sockets w)) (snd (n_accept (-1) (net w))))).
  { unfold accept_turn. pose proof (accept_fails host s (net w)) as Ha. rewrite Hm in Ha. specialize (Ha (Haccept _)).
    by rewrite (bind_ok _ _ _ _ _ (with_sock_run _ w p s _ _ _ Hs Ha)). }
  rewrite (bind_ok _ _ _ _ _ Hturn).
  destruct (IH (mkSite (server w) (<[p := s]> (sockets w)) (snd (n_accept (-1) (net w))))) as (w' & Hrun & Hsv);
    [apply lookup_insert_eq|]. by exists w'.
Qed.

(** C38: Stopping a server and running the task it schedules closes every listening socket and no other
    descriptor, and an accept loop ends at the turn that reads the flag; but a [start] before that task
    has run clears the flag again: then the task closes the sockets all the same, the server has none
    left, and a loop of [startAccept] on any of them never ends, failing at every turn, as long as the
    flag is clear. *)
Theorem stop_closes_or_spins L w :
  holds L (m_socks (server w)) w -> (forall k, fst (n_accept (-1) k) = -1) ->
  (exists w', (stop ;; close_task) w = (Ok tt, w') /\ m_socks (server w') = [] /\ live (net w') = L /\
     m_isStop (server w') = true /\ forall stops p, startAccept host (true :: stops) p w' = (Ok tt, w')) /\
  (exists w', (stop ;; start ;; close_task) w = (Ok tt, w') /\ m_socks (server w') = [] /\
     live (net w') = L /\ m_isStop (server w') = false /\
     forall p, p ∈ m_socks (server w) -> StartAccept p ∈ accept_tasks (server w') /\
       forall n, exists w'', startAccept host (replicate n false) p w' = (Crash OutOfFuel, w'')).
Proof.
  intros Hw Haccept.
  assert (Hrun : forall sv, m_socks sv = m_socks (server w) ->
    exists h k, close_task (mkSite sv (sockets w) (net w)) = (Ok tt, mkSite (set_socks [] sv) h k) /\ live k = L /\
      forall p, p ∈ m_socks (server w) -> exists s, h !! p = Some s /\ m_sock s = -1).
  { intros sv Hsv. destruct (close_all_run L (m_socks (server w)) (mkSite sv (sockets w) (net w))) as (h & k & Hall & Hk & Hin & _).
    { by apply (holds_frame L _ w). }
    exists h, k. split; [|by split]. unfold close_task. rewrite (bind_ok get_server _ _ sv (mkSite sv (sockets w) (net w))) by done.
    rewrite Hsv. by rewrite (bind_ok _ _ _ _ _ Hall). }
  assert (Hstop : stop w = (Ok tt, mkSite (schedule_accept [CloseAll] (set_stop true (server w))) (sockets w) (net w))) by done.
  split.
  - destruct (Hrun (schedule_accept [CloseAll] (set_stop true (server w)))) as (h & k & Hc & Hk & _); [done|].
    eexists. rewrite (bind_ok _ _ _ _ _ Hstop). split; [exact Hc|]. by split_and!.
  - set (sv := schedule_accept (StartAccept <$> m_socks (server w))
                 (set_stop false (schedule_accept [CloseAll] (set_stop true (server w))))).
    assert (Hstart : start (mkSite (schedule_accept [CloseAll] (set_stop true (server w))) (sockets w) (net w)) =
      (Ok true, mkSite sv (sockets w) (net w))) by done.
    destruct (Hrun sv) as (h & k & Hc & Hk & Hin); [done|].
    eexists. rewrite (bind_ok _ _ _ _ _ Hstop), (bind_ok _ _ _ _ _ Hstart). split; [exact Hc|]. split_and!; try done.
    intros p Hp. split.
    + cbn. apply elem_of_app. right. apply list_elem_of_fmap. by exists p.
    + intros n. destruct (Hin p Hp) as (s & Hs & Hm).
      destruct (accept_spins Haccept n p s (mkSite (set_socks [] sv) h k) Hs Hm) as (w' & Hsp & _). by exists w'.
Qed.
End server.

(** ** Witnesses *)

(** A system whose state is the list of open descriptors: it has no IPv6, and a descriptor is
    registered as a socket when it is even. *)
Definition next_fd (k : list Z) : Z := foldr Z.max 0 k + 1.
Definition opening (k : list Z) : Z * list Z := (next_fd k, next_fd k :: k).

Definition table_net : Net (list Z) := {|
  n_socket _ _ _ k := opening k;
  n_bind _ _ len k := (if len =? 28 then -1 else 0, k);
  n_listen _ _ k := (0, k);
  n_accept fd k := if fd =? -1 then (-1, k) else opening k;
  n_connect _ _ _ _ k := (0, k);
  n_close fd k := (0, filter (fun x => x <> fd) k);
  n_getname _ _ bs len k := (0, bs, len, k);
  n_setsockopt _ _ _ _ k := (0, k);
  n_getsockopt _ _ _ k := (0, 0, k);
  n_send _ buf _ _ k := (Z.of_nat (length buf), k);
  n_recv _ _ _ _ k := (0, [], [], k);
  n_errno _ := 0;
  n_ctx fd k := if Z.even fd then Some (mkFdCtx true true true false false fd (2 ^ 64 - 1) (2 ^ 64 - 1)) else None;
  n_fs := mkFileSystem (list Z) (fun _ _ => false) (fun _ _ => false) (fun _ k => (0, k))
            (fun _ k => (0, k)) (fun _ k => (false, k));
  n_cancel _ _ k := (false, k);
  n_cancelAll _ k := (false, k)
|}.
#[local] Existing Instance table_net.

Lemma next_fd_new k : 0 <= next_fd k /\ next_fd k ∉ k.
Proof.
  assert (Hmax : 0 <= foldr Z.max 0 k /\ forall x, x ∈ k -> x <= foldr Z.max 0 k).
  { induction k as [|y k [IH1 IH2]]; cbn [foldr]; split; [lia|by intros x ?%elem_of_nil|lia|].
    intros x [->|Hx]%elem_of_cons; [lia|]. specialize (IH2 x Hx). lia. }
  unfold next_fd. split; [lia|]. intros Hin%Hmax. lia.
Qed.

#[local] Instance table_laws : NetLaws (list Z) list_to_set.
Proof.
  split; try done; intros; unfold n_socket, n_accept, n_close; cbn.
  - right. destruct (next_fd_new k). split_and!; [done|by rewrite elem_of_list_to_set|done].
  - destruct (Z.eqb_spec fd (-1)); [by left|]. right. destruct (next_fd_new k).
    split_and!; [done|by rewrite elem_of_list_to_set|done].
  - apply set_eq. intros x. rewrite elem_of_difference, !elem_of_list_to_set, list_elem_of_filter, elem_of_singleton. tauto.
Qed.

(** A TCP socket listening on descriptor [fd], and a server with it. *)
Definition listening (fd : Z) : Sock := mkSock fd AF_INET SOCK_STREAM 0 false None None.

Definition serving : Site (list Z) :=
  mkSite (set_socks [5%nat] (new_TcpServer 120000)) {[5%nat := listening 4]} [4; 1].

Lemma serving_holds : holds (K := list Z) (live := list_to_set) {[1]} [5%nat] serving.
Proof.
  split; [apply NoDup_singleton|]. exists [4]. split_and!.
  - apply NoDup_singleton.
  - intros fd ->%list_elem_of_singleton. by rewrite elem_of_singleton.
  - constructor; [|constructor]. split; [lia|]. by exists (listening 4).
  - cbn. set_solver.
Qed.

(** The connection 4 is registered, the connection 5 is lost. *)
Lemma accept_takes_or_leaks_witness :
  (exists c k2, accept LittleEndian (listening 3, [3]) = (Ok (Some c), (listening 3, k2)) /\ m_sock c = 4) /\
  (exists k2, accept LittleEndian (listening 4, [4]) = (Ok None, (listening 4, k2)) /\
     list_to_set k2 =@{gset Z} {[5]} ∪ {[4]} ∪ ∅).
Proof.
  split.
  - destruct (accept_takes_or_leaks LittleEndian (listening 3) [3]) as [_ (c & k2 & H1 & H2 & _)].
    by exists c, k2.
  - destruct (accept_takes_or_leaks LittleEndian (listening 4) [4]) as [_ (k2 & H1 & H2)].
    exists k2. split; [exact H1|]. rewrite H2. set_solver.
Defined.



Lemma bind_all_or_nothing_witness :
  exists ok fails w', bind_all LittleEndian [new_IPv4 LittleEndian 0 80; new_IPv6_any] [] serving =
      (Ok (ok, fails), w') /\
    (ok = true /\ length (m_socks (server w')) = 3%nat \/
     ok = false /\ m_socks (server w') = [] /\ list_to_set (net w') =@{gset Z} {[1]}).
Proof.
  destruct (bind_all_or_nothing LittleEndian {[1]} [new_IPv4 LittleEndian 0 80; new_IPv6_any] serving
    serving_holds eq_refl) as (ok & fails & w' & H1 & _ & H2).
  exists ok, fails, w'. split; [exact H1|]. clear H1. destruct ok; [left|right].
  - destruct H2 as (_ & (ps & -> & Hl) & _). split; [done|]. cbn. by rewrite Hl.
  - destruct H2 as (_ & H3 & H4). split; [done|]. split; [exact H3|exact H4].
Defined.

Lemma stop_closes_or_spins_witness :
  exists w', (stop ;; start ;; close_task) serving = (Ok tt, w') /\ list_to_set (net w') =@{gset Z} {[1]} /\
    exists w'', startAccept LittleEndian (replicate 100 false) 5 w' = (Crash OutOfFuel, w'').
Proof.
  destruct (stop_closes_or_spins LittleEndian {[1]} serving serving_holds ltac:(done))
    as [_ (w' & H1 & _ & H2 & _ & H3)].
  exists w'. split_and!; [exact H1|exact H2|]. destruct (H3 5%nat) as [_ H4]; [by left|apply (H4 100%nat)].
Defined.
