(* ===== verification/Http.v ===== *)
(** * HTTP messages: src/src/http/http.cc

    Methods and statuses, the case-insensitive maps, requests with their lazily parsed
    parameters, responses, and the text of both.  The two tables are the macros of
    http_parser.h the file expands. *)

From S2P Require Import Prelude Utils.
#[local] Set Default Goal Selector "!".

(** ** Methods and statuses *)

Definition HTTP_METHOD_MAP : list (Z * str) :=
  [(0, lit "DELETE"); (1, lit "GET"); (2, lit "HEAD"); (3, lit "POST"); (4, lit "PUT");
   (5, lit "CONNECT"); (6, lit "OPTIONS"); (7, lit "TRACE"); (8, lit "COPY");
   (9, lit "LOCK"); (10, lit "MKCOL"); (11, lit "MOVE"); (12, lit "PROPFIND");
   (13, lit "PROPPATCH"); (14, lit "SEARCH"); (15, lit "UNLOCK"); (16, lit "BIND");
   (17, lit "REBIND"); (18, lit "UNBIND"); (19, lit "ACL"); (20, lit "REPORT");
   (21, lit "MKACTIVITY"); (22, lit "CHECKOUT"); (23, lit "MERGE"); (24, lit "M-SEARCH");
   (25, lit "NOTIFY"); (26, lit "SUBSCRIBE"); (27, lit "UNSUBSCRIBE"); (28, lit "PATCH");
   (29, lit "PURGE"); (30, lit "MKCALENDAR"); (31, lit "LINK"); (32, lit "UNLINK");
   (33, lit "SOURCE")].

Definition HTTP_STATUS_MAP : list (Z * str) :=
  [(100, lit "Continue"); (101, lit "Switching Protocols"); (102, lit "Processing");
   (200, lit "OK"); (201, lit "Created"); (202, lit "Accepted");
   (203, lit "Non-Authoritative Information"); (204, lit "No Content");
   (205, lit "Reset Content"); (206, lit "Partial Content"); (207, lit "Multi-Status");
   (208, lit "Already Reported"); (226, lit "IM Used"); (300, lit "Multiple Choices");
   (301, lit "Moved Permanently"); (302, lit "Found"); (303, lit "See Other");
   (304, lit "Not Modified"); (305, lit "Use Proxy"); (307, lit "Temporary Redirect");
   (308, lit "Permanent Redirect"); (400, lit "Bad Request"); (401, lit "Unauthorized");
   (402, lit "Payment Required"); (403, lit "Forbidden"); (404, lit "Not Found");
   (405, lit "Method Not Allowed"); (406, lit "Not Acceptable");
   (407, lit "Proxy Authentication Required"); (408, lit "Request Timeout");
   (409, lit "Conflict"); (410, lit "Gone"); (411, lit "Length Required");
   (412, lit "Precondition Failed"); (413, lit "Payload Too Large");
   (414, lit "URI Too Long"); (415, lit "Unsupported Media Type");
   (416, lit "Range Not Satisfiable"); (417, lit "Expectation Failed");
   (421, lit "Misdirected Request"); (422, lit "Unprocessable Entity"); (423, lit "Locked");
   (424, lit "Failed Dependency"); (426, lit "Upgrade Required");
   (428, lit "Precondition Required"); (429, lit "Too Many Requests");
   (431, lit "Request Header Fields Too Large"); (451, lit "Unavailable For Legal Reasons");
   (500, lit "Internal Server Error"); (501, lit "Not Implemented");
   (502, lit "Bad Gateway"); (503, lit "Service Unavailable"); (504, lit "Gateway Timeout");
   (505, lit "HTTP Version Not Supported"); (506, lit "Variant Also Negotiates");
   (507, lit "Insufficient Storage"); (508, lit "Loop Detected"); (510, lit "Not Extended");
   (511, lit "Network Authentication Required")].

Definition GET : Z := 1.
Definition INVALID_METHOD : Z := 34.
Definition OK : Z := 200.
Definition FOUND : Z := 302.
Definition NOT_FOUND : Z := 404.

(** The chain of [if]s the macros make: the first entry that passes. *)
Fixpoint first_entry (p : str -> bool) (l : list (Z * str)) : option Z :=
  match l with
  | [] => None
  | (num, name) :: l => if p name then Some num else first_entry p l
  end.

Definition StringToHttpMethod (m : str) : Z :=
  default INVALID_METHOD (first_entry (fun name => bool_decide (name = c_str m)) HTTP_METHOD_MAP).

(** [strncmp(name, m, strlen(name))]. *)
Definition CharsToHttpMethod (m : str) : Z :=
  default INVALID_METHOD
    (first_entry (fun name => bool_decide (take (length name) (c_str m) = name)) HTTP_METHOD_MAP).

(** [s_method_string] is indexed by the position in the table. *)
Definition HttpMethodToString (m : Z) : str :=
  let idx := u32 m in
  match HTTP_METHOD_MAP !! Z.to_nat idx with Some (_, name) => name | None => lit "<unknown>" end.

Fixpoint status_entry (s : Z) (l : list (Z * str)) : option str :=
  match l with
  | [] => None
  | (code, msg) :: l => if s =? code then Some msg else status_entry s l
  end.

Definition HttpStatusToString (s : Z) : str := default (lit "<unknown>") (status_entry s HTTP_STATUS_MAP).

(** ** Comparison without case *)

(** [strcasecmp] on what precedes the NULs. *)
Fixpoint casecmp (a b : str) : Z :=
  match a, b with
  | [], [] => 0
  | [], d :: _ => - b2z (tolower d)
  | c :: _, [] => b2z (tolower c)
  | c :: a, d :: b =>
      let diff := b2z (tolower c) - b2z (tolower d) in
      if diff =? 0 then casecmp a b else diff
  end.
Definition strcasecmp (a b : str) : Z := casecmp (c_str a) (c_str b).

(** Whether [strcasestr] finds [needle]. *)
Fixpoint case_in (needle hay : str) : bool :=
  bool_decide (tolower <$> needle = tolower <$> take (length needle) hay) ||
  match hay with [] => false | _ :: hay => case_in needle hay end.
Definition strcasestr (hay needle : str) : bool := case_in (c_str needle) (c_str hay).

Definition CaseInsensitiveLess (lhs rhs : str) : bool := strcasecmp lhs rhs <? 0.

(** ** The maps

    [std::map] with that order: the entries in order; two keys are the same when neither is
    less. *)
Abbreviation MapType := (list (str * str)).

Fixpoint map_find (key : str) (m : MapType) : option str :=
  match m with
  | [] => None
  | (k, v) :: m =>
      if CaseInsensitiveLess key k || CaseInsensitiveLess k key then map_find key m else Some v
  end.

(** [m[key] = val], and [m.insert(make_pair(key, val))] when [over] is false: the first keeps
    the spelling of a key that is there and replaces its value, the second keeps both. *)
Fixpoint map_put (over : bool) (key val : str) (m : MapType) : MapType :=
  match m with
  | [] => [(key, val)]
  | (k, v) :: m =>
      if CaseInsensitiveLess key k then (key, val) :: (k, v) :: m
      else if CaseInsensitiveLess k key then (k, v) :: map_put over key val m
      else (k, if over then val else v) :: m
  end.
Abbreviation map_set := (map_put true).
Abbreviation map_insert := (map_put false).

Fixpoint map_erase (key : str) (m : MapType) : MapType :=
  match m with
  | [] => []
  | (k, v) :: m =>
      if CaseInsensitiveLess key k || CaseInsensitiveLess k key then (k, v) :: map_erase key m else m
  end.

Section getAs.
Context {T : Type} (lexical_cast : str -> option T).

(** The result and the value left in [val]. *)
Definition checkGetAs (m : MapType) (key : str) (def : T) : bool * T :=
  match map_find key m with
  | None => (false, def)
  | Some s => match lexical_cast s with Some v => (true, v) | None => (false, def) end
  end.

Definition getAs (m : MapType) (key : str) (def : T) : T :=
  match map_find key m with
  | None => def
  | Some s => default def (lexical_cast s)
  end.
End getAs.

(** ** Requests *)

Record HttpRequest := mkRequest {
  m_method : Z;
  m_version : Z;
  m_close : bool;
  m_websocket : bool;
  m_parserParamFlag : Z;
  m_url : str;
  m_path : str;
  m_query : str;
  m_fragment : str;
  m_body : str;
  m_headers : MapType;
  m_params : MapType;
  m_cookies : MapType
}.

Definition setMethod (v : Z) (r : HttpRequest) : HttpRequest :=
  mkRequest v (m_version r) (m_close r) (m_websocket r) (m_parserParamFlag r) (m_url r) (m_path
    r) (m_query r) (m_fragment r) (m_body r) (m_headers r) (m_params r) (m_cookies r).
Definition setVersion (v : Z) (r : HttpRequest) : HttpRequest :=
  mkRequest (m_method r) v (m_close r) (m_websocket r) (m_parserParamFlag r) (m_url r) (m_path r)
    (m_query r) (m_fragment r) (m_body r) (m_headers r) (m_params r) (m_cookies r).
Definition setClose (v : bool) (r : HttpRequest) : HttpRequest :=
  mkRequest (m_method r) (m_version r) v (m_websocket r) (m_parserParamFlag r) (m_url r) (m_path
    r) (m_query r) (m_fragment r) (m_body r) (m_headers r) (m_params r) (m_cookies r).
Definition setWebsocket (v : bool) (r : HttpRequest) : HttpRequest :=
  mkRequest (m_method r) (m_version r) (m_close r) v (m_parserParamFlag r) (m_url r) (m_path r)
    (m_query r) (m_fragment r) (m_body r) (m_headers r) (m_params r) (m_cookies r).
Definition set_flag (v : Z) (r : HttpRequest) : HttpRequest :=
  mkRequest (m_method r) (m_version r) (m_close r) (m_websocket r) v (m_url r) (m_path r)
    (m_query r) (m_fragment r) (m_body r) (m_headers r) (m_params r) (m_cookies r).
Definition setPath (v : str) (r : HttpRequest) : HttpRequest :=
  mkRequest (m_method r) (m_version r) (m_close r) (m_websocket r) (m_parserParamFlag r) (m_url
    r) v (m_query r) (m_fragment r) (m_body r) (m_headers r) (m_params r) (m_cookies r).
Definition setQuery (v : str) (r : HttpRequest) : HttpRequest :=
  mkRequest (m_method r) (m_version r) (m_close r) (m_websocket r) (m_parserParamFlag r) (m_url
    r) (m_path r) v (m_fragment r) (m_body r) (m_headers r) (m_params r) (m_cookies r).
Definition setFragment (v : str) (r : HttpRequest) : HttpRequest :=
  mkRequest (m_method r) (m_version r) (m_close r) (m_websocket r) (m_parserParamFlag r) (m_url
    r) (m_path r) (m_query r) v (m_body r) (m_headers r) (m_params r) (m_cookies r).
Definition setBody (v : str) (r : HttpRequest) : HttpRequest :=
  mkRequest (m_method r) (m_version r) (m_close r) (m_websocket r) (m_parserParamFlag r) (m_url
    r) (m_path r) (m_query r) (m_fragment r) v (m_headers r) (m_params r) (m_cookies r).
Definition setHeaders (v : MapType) (r : HttpRequest) : HttpRequest :=
  mkRequest (m_method r) (m_version r) (m_close r) (m_websocket r) (m_parserParamFlag r) (m_url
    r) (m_path r) (m_query r) (m_fragment r) (m_body r) v (m_params r) (m_cookies r).
Definition setParams (v : MapType) (r : HttpRequest) : HttpRequest :=
  mkRequest (m_method r) (m_version r) (m_close r) (m_websocket r) (m_parserParamFlag r) (m_url
    r) (m_path r) (m_query r) (m_fragment r) (m_body r) (m_headers r) v (m_cookies r).
Definition setCookies (v : MapType) (r : HttpRequest) : HttpRequest :=
  mkRequest (m_method r) (m_version r) (m_close r) (m_websocket r) (m_parserParamFlag r) (m_url
    r) (m_path r) (m_query r) (m_fragment r) (m_body r) (m_headers r) (m_params r) v.

Definition new_HttpRequest (version : Z) (close : bool) : HttpRequest :=
  mkRequest GET version close false 0 [] (lit "/") [] [] [] [] [] [].

Definition appendBody (v : str) (r : HttpRequest) : HttpRequest := setBody (m_body r ++ v) r.
Definition getHeader (key def : str) (r : HttpRequest) : str := default def (map_find key (m_headers r)).
Definition setHeader (key val : str) (r : HttpRequest) : HttpRequest := setHeaders (map_set key val (m_headers r)) r.
Definition setParam (key val : str) (r : HttpRequest) : HttpRequest := setParams (map_set key val (m_params r)) r.
Definition setCookie (key val : str) (r : HttpRequest) : HttpRequest := setCookies (map_set key val (m_cookies r)) r.
Definition delHeader (key : str) (r : HttpRequest) : HttpRequest := setHeaders (map_erase key (m_headers r)) r.
Definition delParam (key : str) (r : HttpRequest) : HttpRequest := setParams (map_erase key (m_params r)) r.
Definition delCookie (key : str) (r : HttpRequest) : HttpRequest := setCookies (map_erase key (m_cookies r)) r.
(** [hasHeader] gives the value it stores through its pointer. *)
Definition hasHeader (key : str) (r : HttpRequest) : option str := map_find key (m_headers r).

(** The loop of [PARSE_PARAM]: [rest] is the string from [pos] on. *)
Fixpoint parse_param (fuel : nat) (flag : byte) (trim : str -> str) (rest : str) (m : MapType) : MapType :=
  match fuel with
  | O => m
  | S fuel =>
      match memchr "=" rest with
      | None => m
      | Some key =>
          let name := UrlDecode (trim (take key rest)) true in
          match memchr flag (drop key rest) with
          | None => map_insert name (UrlDecode (drop (S key) rest) true) m
          | Some n =>
              let m := map_insert name (UrlDecode (slice (S key) (n - 1) rest) true) m in
              parse_param fuel flag trim (drop (S (key + n)) rest) m
          end
      end
  end.

(** At least one byte is passed at each turn. *)
Definition PARSE_PARAM (s : str) (flag : byte) (trim : str -> str) (m : MapType) : MapType :=
  parse_param (S (length s)) flag trim s m.

Definition flag_set (bit : Z) (r : HttpRequest) : bool := negb (Z.land (m_parserParamFlag r) bit =? 0).
Definition raise_flag (bit : Z) (r : HttpRequest) : HttpRequest := set_flag (Z.lor (m_parserParamFlag r) bit) r.

Definition initQueryParam (r : HttpRequest) : HttpRequest :=
  if flag_set 1 r then r
  else raise_flag 1 (setParams (PARSE_PARAM (m_query r) "&" id (m_params r)) r).

Definition initBodyParam (r : HttpRequest) : HttpRequest :=
  if flag_set 2 r then r
  else if negb (strcasestr (getHeader (lit "content-type") [] r) (lit "application/x-www-form-urlencoded"))
  then raise_flag 2 r
  else raise_flag 2 (setParams (PARSE_PARAM (m_body r) "&" id (m_params r)) r).

Definition initCookies (r : HttpRequest) : HttpRequest :=
  if flag_set 4 r then r
  else
    let cookie := getHeader (lit "cookie") [] r in
    if bool_decide (cookie = []) then raise_flag 4 r
    else raise_flag 4 (setCookies (PARSE_PARAM cookie ";" (fun s => Trim s blanks) (m_cookies r)) r).

Definition init_params (r : HttpRequest) : HttpRequest := initBodyParam (initQueryParam r).

Definition getParam (key def : str) : M HttpRequest str :=
  modify init_params ;; r ← get; mret (default def (map_find key (m_params r))).
Definition hasParam (key : str) : M HttpRequest (option str) :=
  modify init_params ;; r ← get; mret (map_find key (m_params r)).
Definition getCookie (key def : str) : M HttpRequest str :=
  modify initCookies ;; r ← get; mret (default def (map_find key (m_cookies r))).
Definition hasCookie (key : str) : M HttpRequest (option str) :=
  modify initCookies ;; r ← get; mret (map_find key (m_cookies r)).

(** Values converted to a type: the result and what is left in [val], or the value. *)
Section typed.
Context {T : Type} (lexical_cast : str -> option T).

Definition checkGetHeaderAs (key : str) (def : T) (r : HttpRequest) : bool * T := checkGetAs lexical_cast (m_headers r) key def.
Definition getHeaderAs (key : str) (def : T) (r : HttpRequest) : T := getAs lexical_cast (m_headers r) key def.
Definition checkGetParamAs (key : str) (def : T) : M HttpRequest (bool * T) :=
  modify init_params ;; r ← get; mret (checkGetAs lexical_cast (m_params r) key def).
Definition getParamAs (key : str) (def : T) : M HttpRequest T :=
  modify init_params ;; r ← get; mret (getAs lexical_cast (m_params r) key def).
Definition checkGetCookieAs (key : str) (def : T) : M HttpRequest (bool * T) :=
  modify initCookies ;; r ← get; mret (checkGetAs lexical_cast (m_cookies r) key def).
Definition getCookieAs (key : str) (def : T) : M HttpRequest T :=
  modify initCookies ;; r ← get; mret (getAs lexical_cast (m_cookies r) key def).
End typed.

Definition init (r : HttpRequest) : HttpRequest :=
  let conn := getHeader (lit "connection") [] r in
  if bool_decide (conn = []) then r
  else setClose (negb (strcasecmp conn (lit "keep-alive") =? 0)) r.

(** ** Text *)

Definition crlf : str := [x0d; x0a].
Definition line (name val : str) : str := name ++ lit ": " ++ val ++ crlf.

(** [(uint32_t)(version >> 4) "." (uint32_t)(version & 0x0F)]. *)
Definition version_text (version : Z) : str :=
  lit "HTTP/" ++ print_dec (Z.shiftr version 4) ++ lit "." ++ print_dec (Z.land version 15).

Definition connection_line (websocket close : bool) : str :=
  if negb websocket then line (lit "connection") (if close then lit "close" else lit "keep-alive") else [].

(** The headers but those skipped. *)
Fixpoint header_lines (skip : str -> bool) (m : MapType) : str :=
  match m with
  | [] => []
  | (k, v) :: m => (if skip k then [] else line k v) ++ header_lines skip m
  end.

Definition body_text (body : str) : str :=
  if negb (bool_decide (body = []))
  then line (lit "content-length") (print_dec (Z.of_nat (length body))) ++ crlf ++ body
  else crlf.

Definition dump (r : HttpRequest) : str :=
  HttpMethodToString (m_method r) ++ lit " " ++ m_path r ++
  (if bool_decide (m_query r = []) then [] else lit "?") ++ m_query r ++
  (if bool_decide (m_fragment r = []) then [] else lit "#") ++ m_fragment r ++ lit " " ++
  version_text (m_version r) ++ crlf ++
  connection_line (m_websocket r) (m_close r) ++
  header_lines (fun k => (negb (m_websocket r) && (strcasecmp k (lit "connection") =? 0)) ||
                         (negb (bool_decide (m_body r = [])) && (strcasecmp k (lit "content-length") =? 0)))
    (m_headers r) ++
  body_text (m_body r).

(** ** Responses *)

Record HttpResponse := mkResponse {
  r_status : Z;
  r_version : Z;
  r_close : bool;
  r_websocket : bool;
  r_body : str;
  r_reason : str;
  r_headers : MapType;
  r_cookies : list str
}.

Definition setStatus (v : Z) (r : HttpResponse) : HttpResponse :=
  mkResponse v (r_version r) (r_close r) (r_websocket r) (r_body r) (r_reason r) (r_headers r)
    (r_cookies r).
Definition rsp_setVersion (v : Z) (r : HttpResponse) : HttpResponse :=
  mkResponse (r_status r) v (r_close r) (r_websocket r) (r_body r) (r_reason r) (r_headers r)
    (r_cookies r).
Definition rsp_setClose (v : bool) (r : HttpResponse) : HttpResponse :=
  mkResponse (r_status r) (r_version r) v (r_websocket r) (r_body r) (r_reason r) (r_headers r)
    (r_cookies r).
Definition rsp_setWebsocket (v : bool) (r : HttpResponse) : HttpResponse :=
  mkResponse (r_status r) (r_version r) (r_close r) v (r_body r) (r_reason r) (r_headers r)
    (r_cookies r).
Definition rsp_setBody (v : str) (r : HttpResponse) : HttpResponse :=
  mkResponse (r_status r) (r_version r) (r_close r) (r_websocket r) v (r_reason r) (r_headers r)
    (r_cookies r).
Definition setReason (v : str) (r : HttpResponse) : HttpResponse :=
  mkResponse (r_status r) (r_version r) (r_close r) (r_websocket r) (r_body r) v (r_headers r)
    (r_cookies r).
Definition rsp_setHeaders (v : MapType) (r : HttpResponse) : HttpResponse :=
  mkResponse (r_status r) (r_version r) (r_close r) (r_websocket r) (r_body r) (r_reason r) v
    (r_cookies r).
Definition rsp_set_cookies (v : list str) (r : HttpResponse) : HttpResponse :=
  mkResponse (r_status r) (r_version r) (r_close r) (r_websocket r) (r_body r) (r_reason r)
    (r_headers r) v.

Definition new_HttpResponse (version : Z) (close : bool) : HttpResponse :=
  mkResponse OK version close false [] [] [] [].

Definition createResponse (r : HttpRequest) : HttpResponse := new_HttpResponse (m_version r) (m_close r).

Definition rsp_appendBody (v : str) (r : HttpResponse) : HttpResponse := rsp_setBody (r_body r ++ v) r.
Definition rsp_getHeader (key def : str) (r : HttpResponse) : str := default def (map_find key (r_headers r)).
Definition rsp_checkGetHeaderAs {T} (lexical_cast : str -> option T) (key : str) (def : T) (r : HttpResponse) : bool * T :=
  checkGetAs lexical_cast (r_headers r) key def.
Definition rsp_getHeaderAs {T} (lexical_cast : str -> option T) (key : str) (def : T) (r : HttpResponse) : T :=
  getAs lexical_cast (r_headers r) key def.
Definition rsp_setHeader (key val : str) (r : HttpResponse) : HttpResponse :=
  rsp_setHeaders (map_set key val (r_headers r)) r.
Definition rsp_delHeader (key : str) (r : HttpResponse) : HttpResponse :=
  rsp_setHeaders (map_erase key (r_headers r)) r.

Definition setRedirect (uri : str) (r : HttpResponse) : HttpResponse :=
  rsp_setHeader (lit "Location") uri (setStatus FOUND r).

(** [Time2Str] prints a time in the given format. *)
Definition rsp_setCookie (Time2Str : Z -> str -> str) (key val : str) (expired : Z) (path domain : str)
    (secure : bool) (r : HttpResponse) : HttpResponse :=
  rsp_set_cookies (r_cookies r ++
    [key ++ lit "=" ++ val ++
     (if 0 <? expired then lit ";expires=" ++ Time2Str expired (lit "%a, %d %b %Y %H:%M:%S") ++ lit " GMT" else []) ++
     (if negb (bool_decide (domain = [])) then lit ";domain=" ++ domain else []) ++
     (if negb (bool_decide (path = [])) then lit ";path=" ++ path else []) ++
     (if secure then lit ";secure" else [])]) r.

Definition rsp_dump (r : HttpResponse) : str :=
  version_text (r_version r) ++ lit " " ++ print_dec (u32 (r_status r)) ++ lit " " ++
  (if bool_decide (r_reason r = []) then HttpStatusToString (r_status r) else r_reason r) ++ crlf ++
  header_lines (fun k => negb (r_websocket r) && (strcasecmp k (lit "connection") =? 0)) (r_headers r) ++
  concat ((fun c => line (lit "Set-Cookie") c) <$> r_cookies r) ++
  connection_line (r_websocket r) (r_close r) ++
  body_text (r_body r).
