(* ===== verification/HttpTheorems.v ===== *)
(** * HTTP messages: the properties *)

From Stdlib Require Import Sorting.Sorted.
From S2P Require Import Prelude Utils UtilsTheorems Http.
#[local] Set Default Goal Selector "!".

(** ** Methods *)

(** Every method's text is read back as that method, by [StringToHttpMethod] exactly and by
    [CharsToHttpMethod] from the start of any longer text; a number outside the table is printed as
    unknown, which is not a method. *)
Theorem method_roundtrip m rest :
  (0 <= m < 34 ->
     StringToHttpMethod (HttpMethodToString m) = m /\
     CharsToHttpMethod (HttpMethodToString m ++ rest) = m) /\
  (34 <= m < 2 ^ 32 -> StringToHttpMethod (HttpMethodToString m) = INVALID_METHOD).
Proof.
  split; intros Hm.
  - assert (Hin : Z.to_nat m ∈ seq 0 34) by (apply elem_of_seq; lia).
    rewrite <- (Z2Nat.id m) by lia. revert Hin. generalize (Z.to_nat m) as i. clear m Hm. intros i Hi.
    repeat (apply elem_of_cons in Hi as [->|Hi]; [by split|]). by apply elem_of_nil in Hi.
  - unfold HttpMethodToString. rewrite wrap_small by (unfold unsigned_range; lia).
    rewrite lookup_ge_None_2; [done|]. change (length HTTP_METHOD_MAP) with 34%nat. lia.
Qed.

Lemma method_roundtrip_witness : CharsToHttpMethod (lit "MKCALENDAR /x") = 30 /\ StringToHttpMethod (HttpMethodToString 40) = 34.
Proof.
  split; [apply (method_roundtrip 30 (lit " /x")); lia|apply (method_roundtrip 40 []); lia].
Defined.

(** ** Keys without case *)

(** Two keys are the same for the maps when they have the same [fold_key]. *)
Definition fold_key (s : str) : str := tolower <$> c_str s.

Lemma tolower_nul c : b2z (tolower c) = 0 -> c = x00.
Proof. destruct c; vm_compute; congruence. Qed.

Lemma casecmp_lex a b : x00 ∉ a -> x00 ∉ b -> (casecmp a b <? 0) = lex (tolower <$> a) (tolower <$> b).
Proof.
  revert b. induction a as [|c a IH]; intros [|d b] Ha Hb; cbn [casecmp fmap list_fmap lex]; try done.
  - apply not_elem_of_cons in Hb as [Hd _]. pose proof (b2z_range (tolower d)).
    apply Z.ltb_lt. destruct (Z.eq_dec (b2z (tolower d)) 0) as [H0%tolower_nul|]; [congruence|lia].
  - apply Z.ltb_ge. apply b2z_range.
  - apply not_elem_of_cons in Ha as [_ Ha]. apply not_elem_of_cons in Hb as [_ Hb]. cbv zeta.
    destruct (Z.eqb_spec (b2z (tolower c) - b2z (tolower d)) 0) as [He|He].
    + rewrite IH by done. replace (b2z (tolower c)) with (b2z (tolower d)) by lia. by rewrite Z.ltb_irrefl.
    + zcases; try done; lia.
Qed.

Lemma c_str_no_nul s : x00 ∉ c_str s.
Proof.
  induction s as [|c s IH]; cbn [c_str]; [apply not_elem_of_nil|]. case_bool_decide; [apply not_elem_of_nil|].
  apply not_elem_of_cons. by split; [congruence|].
Qed.

Lemma less_lex a b : CaseInsensitiveLess a b = lex (fold_key a) (fold_key b).
Proof. apply casecmp_lex; apply c_str_no_nul. Qed.

Lemma same_key a b :
  CaseInsensitiveLess a b || CaseInsensitiveLess b a = negb (bool_decide (fold_key a = fold_key b)).
Proof.
  rewrite !less_lex. case_bool_decide as Hk; cbn [negb]; [by rewrite Hk, lex_irrefl|].
  destruct (lex_total (fold_key a) (fold_key b)) as [->|[?| ->]]; [done|done|by rewrite orb_true_r].
Qed.

Lemma casecmp_zero a b : x00 ∉ a -> x00 ∉ b -> (casecmp a b =? 0) = bool_decide (tolower <$> a = tolower <$> b).
Proof.
  revert b. induction a as [|c a IH]; intros [|d b] Ha Hb; cbn [casecmp fmap list_fmap]; try done.
  - apply not_elem_of_cons in Hb as [Hd _].
    apply Z.eqb_neq. intros He. apply Hd. symmetry. apply tolower_nul. lia.
  - apply not_elem_of_cons in Ha as [Hc _]. apply Z.eqb_neq. intros He. apply Hc. symmetry. by apply tolower_nul.
  - apply not_elem_of_cons in Ha as [_ Ha]. apply not_elem_of_cons in Hb as [_ Hb]. cbv zeta.
    destruct (Z.eqb_spec (b2z (tolower c) - b2z (tolower d)) 0) as [He|He].
    + rewrite IH by done. assert (tolower c = tolower d) as -> by (apply b2z_inj; lia).
      repeat case_bool_decide; congruence.
    + rewrite bool_decide_false; [by apply Z.eqb_neq|]. intros [= Hc _]. rewrite Hc in He. lia.
Qed.

Lemma strcasecmp_zero a b : (strcasecmp a b =? 0) = bool_decide (fold_key a = fold_key b).
Proof. apply casecmp_zero; apply c_str_no_nul. Qed.

(** ** The maps *)

(** The entries of a map are in strict order, so that no key is there twice. *)
Definition ordered (m : MapType) : Prop := StronglySorted (fun e f => lex (fold_key e.1) (fold_key f.1) = true) m.

Lemma map_find_cons key k v m :
  map_find key ((k, v) :: m) = if bool_decide (fold_key key = fold_key k) then Some v else map_find key m.
Proof. cbn [map_find]. rewrite same_key. by case_bool_decide. Qed.

Lemma map_find_below key m :
  Forall (fun e => lex (fold_key key) (fold_key e.1) = true) m -> map_find key m = None.
Proof.
  induction 1 as [|[k v] m Hk _ IH]; [done|]. rewrite map_find_cons, bool_decide_false; [done|].
  intros He. cbn [fst] in Hk. by rewrite He, lex_irrefl in Hk.
Qed.

Lemma map_find_key a b m : fold_key a = fold_key b -> map_find a m = map_find b m.
Proof. intros Hab. induction m as [|[k v] m IH]; [done|]. by rewrite !map_find_cons, Hab, IH. Qed.

Lemma put_above over key val m k :
  lex (fold_key k) (fold_key key) = true -> Forall (fun e => lex (fold_key k) (fold_key e.1) = true) m ->
  Forall (fun e => lex (fold_key k) (fold_key e.1) = true) (map_put over key val m).
Proof.
  intros Hk. induction 1 as [|[k' v] m Hk' Hm IH]; cbn [map_put]; [by repeat constructor|].
  destruct (CaseInsensitiveLess key k'); [by repeat constructor|].
  destruct (CaseInsensitiveLess k' key); by constructor.
Qed.

Lemma put_ordered over key val m : ordered m -> ordered (map_put over key val m).
Proof.
  induction 1 as [|[k v] m Hm IH Hk]; cbn [map_put]; [by repeat constructor|].
  rewrite !less_lex. destruct (lex (fold_key key) (fold_key k)) eqn:E1.
  - constructor; [by constructor|]. constructor; [done|].
    eapply Forall_impl; [exact Hk|]. intros e He. by eapply lex_trans.
  - destruct (lex (fold_key k) (fold_key key)) eqn:E2; constructor; try done. by apply put_above.
Qed.

Lemma find_put over key key' val m :
  ordered m ->
  map_find key (map_put over key' val m) =
  if bool_decide (fold_key key = fold_key key')
  then Some (if over then val else default val (map_find key m)) else map_find key m.
Proof.
  induction 1 as [|[k v] m Hm IH Hk]; cbn [map_put].
  { rewrite map_find_cons. case_bool_decide; [by destruct over|done]. }
  rewrite !less_lex. destruct (lex (fold_key key') (fold_key k)) eqn:E1.
  - rewrite map_find_cons. case_bool_decide as He; [|done]. destruct over; [done|].
    rewrite map_find_below; [done|]. rewrite He. constructor; [done|].
    eapply Forall_impl; [exact Hk|]. intros e Hlt. by eapply lex_trans.
  - destruct (lex (fold_key k) (fold_key key')) eqn:E2.
    + rewrite !map_find_cons, IH. repeat case_bool_decide; try done. exfalso.
      assert (fold_key k = fold_key key') as Hkk by congruence. by rewrite Hkk, lex_irrefl in E2.
    + assert (Hkk : fold_key k = fold_key key').
      { destruct (lex_total (fold_key k) (fold_key key')) as [?|[?|?]]; congruence. }
      rewrite !map_find_cons, Hkk. case_bool_decide; [|done]. by destruct over.
Qed.

Lemma erase_above key m k :
  Forall (fun e => lex (fold_key k) (fold_key e.1) = true) m ->
  Forall (fun e => lex (fold_key k) (fold_key e.1) = true) (map_erase key m).
Proof.
  induction 1 as [|[k' v] m Hk' Hm IH]; cbn [map_erase]; [constructor|].
  destruct (_ || _); [by constructor|done].
Qed.

Lemma erase_ordered key m : ordered m -> ordered (map_erase key m).
Proof.
  induction 1 as [|[k v] m Hm IH Hk]; cbn [map_erase]; [constructor|].
  destruct (_ || _); [|done]. constructor; [done|]. by apply erase_above.
Qed.

Lemma find_erase key key' m :
  ordered m ->
  map_find key (map_erase key' m) = if bool_decide (fold_key key = fold_key key') then None else map_find key m.
Proof.
  induction 1 as [|[k v] m Hm IH Hk]; cbn [map_erase]; [by case_bool_decide|].
  rewrite same_key, (map_find_cons key k).
  destruct (decide (fold_key key' = fold_key k)) as [He|He].
  - rewrite (bool_decide_true (fold_key key' = _)), He by done. cbn [negb].
    destruct (decide (fold_key key = fold_key k)) as [Hk'|Hk']; [|by rewrite !bool_decide_false].
    rewrite bool_decide_true by done. apply map_find_below. rewrite Hk'. exact Hk.
  - rewrite (bool_decide_false (fold_key key' = _)) by done. cbn [negb]. rewrite map_find_cons, IH.
    repeat case_bool_decide; try done. congruence.
Qed.

(** C25: The headers of a request are a map on names without their case (and up to a NUL): in a request
    whose headers are in order, setting one makes any spelling of its name find the value, deleting one
    makes none find it, every other name finds what it did, the order is kept, and [hasHeader],
    [getHeader] and [getAs] agree.  A new request is in order. *)
Theorem header_map r key val key' def :
  ordered (m_headers r) ->
  (fold_key key' = fold_key key ->
     getHeader key' def (setHeader key val r) = val /\ hasHeader key' (setHeader key val r) = Some val /\
     getHeader key' def (delHeader key r) = def /\ hasHeader key' (delHeader key r) = None) /\
  (fold_key key' <> fold_key key ->
     hasHeader key' (setHeader key val r) = hasHeader key' r /\
     hasHeader key' (delHeader key r) = hasHeader key' r) /\
  getHeader key' def r = getAs Some (m_headers r) key' def /\
  ordered (m_headers (setHeader key val r)) /\ ordered (m_headers (delHeader key r)) /\
  forall version close, ordered (m_headers (new_HttpRequest version close)).
Proof.
  intros Ho. unfold getHeader, hasHeader, setHeader, delHeader. cbn [m_headers setHeaders].
  rewrite find_put, find_erase by done. split_and!.
  - intros Hk. by rewrite !bool_decide_true.
  - intros Hk. by rewrite !bool_decide_false.
  - unfold getAs. by destruct (map_find key' (m_headers r)).
  - by apply put_ordered.
  - by apply erase_ordered.
  - intros version close. constructor.
Qed.

Lemma header_map_witness :
  getHeader (lit "CONTENT-type") [] (setHeader (lit "Content-Type") (lit "text/html") (new_HttpRequest 17 true)) =
  lit "text/html".
Proof. apply (header_map (new_HttpRequest 17 true)); [constructor|reflexivity]. Defined.

(** ** Parameters *)

(** The text of a list of pairs, and the map of the pairs, the first of a key staying. *)
Definition pair_text (kv : str * str) : str := UrlEncode kv.1 true ++ "="%byte :: UrlEncode kv.2 true.
Fixpoint query_text (l : list (str * str)) : str :=
  match l with
  | [] => []
  | [kv] => pair_text kv
  | kv :: l => pair_text kv ++ "&"%byte :: query_text l
  end.
Definition pairs_map (l : list (str * str)) (m : MapType) : MapType :=
  fold_left (fun m kv => map_insert kv.1 kv.2 m) l m.

Lemma encode_no_amp s : "&"%byte ∉ UrlEncode s true.
Proof.
  rewrite UrlEncode_encode. intros Hin. pose proof (encode_safe true s) as Hs.
  rewrite forallb_forall in Hs. specialize (Hs "&"%byte). rewrite <- list_elem_of_In in Hs. by specialize (Hs Hin).
Qed.

Lemma encode_no_eq s : "="%byte ∉ s -> "="%byte ∉ UrlEncode s true.
Proof.
  rewrite UrlEncode_encode. unfold encode. induction s as [|c s IH]; [done|].
  intros [Hc Hs]%not_elem_of_cons. cbn [fmap list_fmap concat]. rewrite not_elem_of_app. split; [|by apply IH].
  clear -Hc. destruct c; try (by destruct Hc); vm_compute; intros Hin; by repeat (apply elem_of_cons in Hin as [|Hin]; [done|]); apply elem_of_nil in Hin.
Qed.

Lemma parse_one kv q :
  "="%byte ∉ kv.1 ->
  memchr "=" (pair_text kv ++ q) = Some (length (UrlEncode kv.1 true)) /\
  take (length (UrlEncode kv.1 true)) (pair_text kv ++ q) = UrlEncode kv.1 true /\
  drop (length (UrlEncode kv.1 true)) (pair_text kv ++ q) = "="%byte :: UrlEncode kv.2 true ++ q.
Proof.
  intros Hk. unfold pair_text. rewrite <- app_assoc. cbn [app].
  rewrite memchr_mid by by apply encode_no_eq. by rewrite take_app_length, drop_app_length.
Qed.

Lemma url_back s : UrlDecode (UrlEncode s true) true = s.
Proof. rewrite UrlEncode_encode, UrlDecode_decode. apply decode_encode. Qed.

Lemma drop_S_tail {A} n (l : list A) : drop (S n) l = tail (drop n l).
Proof. revert l. induction n as [|n IH]; intros [|x l]; try done. cbn [drop]. apply (IH l). Qed.

Lemma parse_query fuel l m :
  Forall (fun kv => "="%byte ∉ kv.1) l -> (length l < fuel)%nat ->
  parse_param fuel "&" id (query_text l) m = pairs_map l m.
Proof.
  revert l m. induction fuel as [|fuel IH]; intros l m Hl Hf; [lia|].
  destruct l as [|kv l]; [done|]. apply Forall_cons in Hl as [Hk Hl]. cbn [parse_param length] in *.
  assert (Hq : query_text (kv :: l) = pair_text kv ++ match l with [] => [] | _ => "&"%byte :: query_text l end).
  { destruct l; [|done]. cbn [query_text]. by rewrite app_nil_r. }
  rewrite Hq. set (q := match l with [] => [] | _ => _ end).
  destruct (parse_one kv q Hk) as (Hm & Ht & Hd). rewrite Hm, Ht, Hd.
  change (id (UrlEncode kv.1 true)) with (UrlEncode kv.1 true). rewrite url_back.
  change (pairs_map (kv :: l) m) with (pairs_map l (map_insert kv.1 kv.2 m)).
  set (k := length (UrlEncode kv.1 true)) in *.
  assert (Hd1 : drop (S k) (pair_text kv ++ q) = UrlEncode kv.2 true ++ q) by by rewrite drop_S_tail, Hd.
  destruct l as [|kv' l].
  - unfold q in *. rewrite Hd1, app_nil_r.
    rewrite memchr_none; [by rewrite url_back|].
    intros [Hc|Hin]%elem_of_cons; [done|]. by apply encode_no_amp in Hin.
  - assert (Hn : memchr "&" ("="%byte :: UrlEncode kv.2 true ++ q) = Some (S (length (UrlEncode kv.2 true)))).
    { unfold q. change ("="%byte :: UrlEncode kv.2 true ++ ?x) with (("="%byte :: UrlEncode kv.2 true) ++ x).
      rewrite memchr_mid; [done|]. intros [Hc|Hin]%elem_of_cons; [done|]. by apply encode_no_amp in Hin. }
    rewrite Hn. replace (S (length (UrlEncode kv.2 true)) - 1)%nat with (length (UrlEncode kv.2 true)) by lia.
    unfold slice. rewrite Hd1, take_app_length, url_back.
    replace (S (k + S (length (UrlEncode kv.2 true))))%nat with (S k + S (length (UrlEncode kv.2 true)))%nat by lia.
    rewrite <- drop_drop, Hd1. unfold q. rewrite drop_past.
    apply IH; [done|]. cbn [length] in *. lia.
Qed.

Lemma length_query l : (length l <= length (query_text l))%nat.
Proof.
  induction l as [|kv l IH]; [simpl; lia|]. destruct l as [|kv' l].
  - cbn [query_text length]. unfold pair_text. rewrite length_app. cbn [length]. lia.
  - change (query_text (kv :: kv' :: l)) with (pair_text kv ++ "&"%byte :: query_text (kv' :: l)).
    rewrite length_app. cbn [length] in *. lia.
Qed.

(** The first value a list has for a key. *)
Fixpoint first_value (key : str) (l : list (str * str)) : option str :=
  match l with
  | [] => None
  | (k, v) :: l => if bool_decide (fold_key key = fold_key k) then Some v else first_value key l
  end.

Lemma find_pairs key l m :
  ordered m ->
  map_find key (pairs_map l m) = match map_find key m with Some v => Some v | None => first_value key l end.
Proof.
  revert m. induction l as [|[k v] l IH]; intros m Hm; [cbn; by destruct (map_find key m)|].
  cbn [pairs_map fold_left fst snd]. fold (pairs_map l (map_insert k v m)).
  rewrite IH by by apply put_ordered. rewrite find_put by done. cbn [first_value].
  destruct (decide (fold_key key = fold_key k)); [rewrite !bool_decide_true by done|by rewrite !bool_decide_false by done].
  by destruct (map_find key m).
Qed.

Lemma parse_param_fuel flag trim fuel fuel' s m :
  flag <> "="%byte -> (length s < fuel)%nat -> (length s < fuel')%nat ->
  parse_param fuel flag trim s m = parse_param fuel' flag trim s m.
Proof.
  intros Hflag. revert fuel' s m. induction fuel as [|fuel IH]; intros [|fuel'] s m Hf Hf'; try lia.
  cbn [parse_param]. destruct (memchr "=" s) as [key|] eqn:Ek; [|done].
  destruct (memchr flag (drop key s)) as [n|] eqn:En; [|done].
  apply fmap_Some in Ek as ([i x] & (Hi & _)%list_find_Some & ->). apply lookup_lt_Some in Hi. cbn [fst] in *.
  apply IH; rewrite length_drop; lia.
Qed.

(** C34: Parsing the query of a request made of URL-encoded pairs gives back the pairs, the first one of a
    name prevailing and a parameter already set prevailing over all, provided no name holds an equals
    sign: [getParam] answers from them without regard to case, and parses once.  (The encoder leaves
    equals signs alone, so a name with one is cut there.)  The parser ends on any text. *)
Theorem query_roundtrip l r key def :
  Forall (fun kv => "="%byte ∉ kv.1) l -> m_query r = query_text l -> m_parserParamFlag r = 0 ->
  strcasestr (getHeader (lit "content-type") [] r) (lit "application/x-www-form-urlencoded") = false ->
  ordered (m_params r) ->
  (exists r', getParam key def r =
     (Ok (default def (match map_find key (m_params r) with Some v => Some v | None => first_value key l end)), r') /\
     m_params r' = pairs_map l (m_params r) /\ forall key' def', snd (getParam key' def' r') = r') /\
  PARSE_PARAM (query_text [(lit "a=b", lit "c")]) "&" id [] = [(lit "a", lit "b=c")] /\
  forall s fuel m, (length s < fuel)%nat -> parse_param fuel "&" id s m = PARSE_PARAM s "&" id m.
Proof.
  intros Hl Hq Hflag Hct Ho. split_and!.
  - set (r1 := raise_flag 1 (setParams (pairs_map l (m_params r)) r)).
    assert (H1 : initQueryParam r = r1).
    { unfold initQueryParam, flag_set. rewrite Hflag. cbn [Z.land Z.eqb negb]. unfold PARSE_PARAM.
      rewrite Hq, parse_query; [done|done|]. pose proof (length_query l). lia. }
    assert (H2 : initBodyParam r1 = raise_flag 2 r1).
    { unfold initBodyParam, flag_set, r1, raise_flag. cbn [m_parserParamFlag set_flag setParams]. rewrite Hflag.
      cbn [Z.lor Z.land Z.eqb negb Pos.lor Pos.land]. change (getHeader _ _ _) with (getHeader (lit "content-type") [] r).
      by rewrite Hct. }
    exists (raise_flag 2 r1). unfold getParam, init_params.
    rewrite (bind_ok (modify _) _ r tt (raise_flag 2 r1)) by (unfold modify; by rewrite H1, H2).
    split_and!.
    + rewrite (bind_ok get _ _ (raise_flag 2 r1) (raise_flag 2 r1)) by done.
      unfold r1, raise_flag. cbn [m_params set_flag setParams]. by rewrite find_pairs.
    + done.
    + intros key' def'. unfold mbind, M_bind, modify, get. cbn [snd]. unfold initBodyParam, initQueryParam, flag_set, r1, raise_flag.
      cbn [m_parserParamFlag set_flag setParams]. rewrite Hflag. reflexivity.
  - vm_compute. reflexivity.
  - intros s fuel m Hf. apply parse_param_fuel; [done|done|lia].
Qed.

Lemma query_roundtrip_witness :
  exists r', getParam (lit "KEY") [] (setQuery (query_text [(lit "a b", lit "1"); (lit "key", lit "x&y")]) (new_HttpRequest 17 true)) =
    (Ok (lit "x&y"), r').
Proof.
  destruct (query_roundtrip [(lit "a b", lit "1"); (lit "key", lit "x&y")]
    (setQuery (query_text [(lit "a b", lit "1"); (lit "key", lit "x&y")]) (new_HttpRequest 17 true)) (lit "KEY") [])
    as ((r' & H & _) & _ & _).
  - refine (bool_decide_unpack _ _). by vm_compute.
  - reflexivity.
  - reflexivity.
  - reflexivity.
  - constructor.
  - exists r'. exact H.
Defined.

(** ** Text *)

Definition named (name : str) (e : str * str) : bool := bool_decide (fold_key e.1 = fold_key name).
Definition text_of (fs : list (str * str)) : str := concat ((fun e => line e.1 e.2) <$> fs).
Abbreviation CONNECTION := (lit "connection").
Abbreviation CONTENT_LENGTH := (lit "content-length").

Definition keep (p : str * str -> bool) (m : list (str * str)) : list (str * str) := filter (fun e => p e = true) m.

Lemma keep_keep p q m : keep p (keep q m) = keep (fun e => p e && q e) m.
Proof.
  unfold keep. rewrite list_filter_filter. apply list_filter_iff. intros e. by rewrite andb_true_iff.
Qed.

Lemma keep_ext p q m : (forall e, p e = q e) -> keep p m = keep q m.
Proof. intros Hpq. apply list_filter_iff. intros e. by rewrite Hpq. Qed.

Lemma keep_app p l1 l2 : keep p (l1 ++ l2) = keep p l1 ++ keep p l2.
Proof. apply filter_app. Qed.

Lemma keep_none m : keep (fun _ => false) m = [].
Proof. apply filter_none. apply Forall_true. by intros. Qed.

Lemma header_lines_keep skip m : header_lines skip m = text_of (keep (fun e => negb (skip e.1)) m).
Proof.
  unfold text_of, keep. induction m as [|[k v] m IH]; [done|]. cbn [header_lines]. rewrite IH.
  destruct (skip k) eqn:Es.
  - by rewrite filter_cons_False by (cbn [fst]; by rewrite Es).
  - by rewrite filter_cons_True by (cbn [fst]; by rewrite Es).
Qed.

Lemma text_of_app l1 l2 : text_of (l1 ++ l2) = text_of l1 ++ text_of l2.
Proof. unfold text_of. by rewrite fmap_app, concat_app. Qed.

(** The field that announces a body, and the one about the connection. *)
Definition length_field (body : str) : list (str * str) :=
  if bool_decide (body = []) then [] else [(CONTENT_LENGTH, print_dec (Z.of_nat (length body)))].
Definition connection_field (websocket close : bool) : list (str * str) :=
  if websocket then [] else [(CONNECTION, if close then lit "close" else lit "keep-alive")].

Lemma body_text_eq body : body_text body = text_of (length_field body) ++ crlf ++ body.
Proof.
  unfold body_text, length_field, text_of. case_bool_decide as Hb; cbn [negb]; [by rewrite Hb, app_nil_r|].
  cbn [fmap list_fmap concat fst snd]. by rewrite app_nil_r.
Qed.

Lemma connection_line_eq websocket close : connection_line websocket close = text_of (connection_field websocket close).
Proof. unfold text_of. by destruct websocket, close. Qed.

Definition other (e : str * str) : bool := negb (named CONTENT_LENGTH e) && negb (named CONNECTION e).

Lemma named_both e : named CONTENT_LENGTH e && named CONNECTION e = false.
Proof.
  unfold named. case_bool_decide as H1; [|done]. case_bool_decide as H2; [|done]. rewrite H1 in H2. vm_compute in H2. congruence.
Qed.

Lemma keep_connection p ws close :
  keep p (connection_field ws close) =
  if ws || negb (p (CONNECTION, if close then lit "close" else lit "keep-alive")) then [] else connection_field ws close.
Proof.
  unfold connection_field, keep. destruct ws; [done|]. cbn [orb].
  destruct (p (CONNECTION, if close then lit "close" else lit "keep-alive")) eqn:E; cbn [negb].
  - by rewrite filter_cons_True.
  - rewrite filter_cons_False; [done|]. by rewrite E.
Qed.

Lemma keep_length p body :
  (forall v, p (CONTENT_LENGTH, v) = true) \/ (forall v, p (CONTENT_LENGTH, v) = false) ->
  keep p (length_field body) = if p (CONTENT_LENGTH, []) then length_field body else [].
Proof.
  intros Hp. unfold length_field, keep. case_bool_decide; [by destruct (p _)|].
  destruct Hp as [Hp|Hp]; rewrite Hp.
  - rewrite filter_cons_True by done. done.
  - rewrite filter_cons_False by (by rewrite Hp). done.
Qed.

Definition start_line (r : HttpRequest) : str :=
  HttpMethodToString (m_method r) ++ lit " " ++ m_path r ++
  (if bool_decide (m_query r = []) then [] else lit "?") ++ m_query r ++
  (if bool_decide (m_fragment r = []) then [] else lit "#") ++ m_fragment r ++ lit " " ++ version_text (m_version r).
Definition status_line (r : HttpResponse) : str :=
  version_text (r_version r) ++ lit " " ++ print_dec (u32 (r_status r)) ++ lit " " ++
  (if bool_decide (r_reason r = []) then HttpStatusToString (r_status r) else r_reason r).

Lemma request_fields ws close body m :
  let skip k := (negb ws && (strcasecmp k CONNECTION =? 0)) ||
                (negb (bool_decide (body = [])) && (strcasecmp k CONTENT_LENGTH =? 0)) in
  let fs := connection_field ws close ++ keep (fun e => negb (skip e.1)) m ++ length_field body in
  keep (named CONTENT_LENGTH) fs =
    (if bool_decide (body = []) then keep (named CONTENT_LENGTH) m else length_field body) /\
  keep (named CONNECTION) fs = (if ws then keep (named CONNECTION) m else connection_field ws close) /\
  keep other fs = keep other m.
Proof.
  intros skip fs. unfold fs. rewrite !keep_app, !keep_keep, !keep_connection.
  assert (Hskip : forall e, skip e.1 = (negb ws && named CONNECTION e) ||
    (negb (bool_decide (body = [])) && named CONTENT_LENGTH e)) by (intros e; unfold skip, named; by rewrite !strcasecmp_zero).
  rewrite !(keep_length) by (by (left + right)).
  assert (Hlf : bool_decide (body = []) = true -> length_field body = []) by (unfold length_field; by intros ->).
  split_and!.
  - cbn [orb negb app]. change (named CONTENT_LENGTH (CONNECTION, _)) with false. rewrite orb_true_r. cbn [app].
    change (named CONTENT_LENGTH (CONTENT_LENGTH, [])) with true. cbv iota.
    destruct (bool_decide (body = [])) eqn:Eb.
    + rewrite Hlf, app_nil_r by done. apply keep_ext. intros e. rewrite Hskip. pose proof (named_both e).
      cbn [negb andb orb]. by destruct (named CONTENT_LENGTH e), (named CONNECTION e), ws.
    + rewrite <- (app_nil_l (length_field body)) at 2. f_equal. rewrite <- (keep_none m). apply keep_ext. intros e.
      rewrite Hskip. by destruct (named CONTENT_LENGTH e), (named CONNECTION e), ws.
  - change (named CONNECTION (CONNECTION, _)) with true. change (named CONNECTION (CONTENT_LENGTH, [])) with false.
    cbv iota. rewrite app_nil_r, orb_false_r. destruct ws; cbn [app].
    + apply keep_ext. intros e. rewrite Hskip. pose proof (named_both e).
      by destruct (named CONTENT_LENGTH e), (named CONNECTION e), (bool_decide (body = [])).
    + rewrite <- (app_nil_r (connection_field false close)) at 2. f_equal. rewrite <- (keep_none m). apply keep_ext.
      intros e. rewrite Hskip. by destruct (named CONNECTION e).
  - change (other (CONNECTION, _)) with false. change (other (CONTENT_LENGTH, [])) with false.
    rewrite orb_true_r, app_nil_r. apply keep_ext. intros e. unfold other. rewrite Hskip.
    by destruct (named CONTENT_LENGTH e), (named CONNECTION e), ws, (bool_decide (body = [])).
Qed.

(** The text of a message is its first line, its fields one per line, an empty line and the body.  The
    fields of a request are its headers in order, but, outside websockets, exactly one about the
    connection, and with a body exactly one content-length, the size of the body.  A response adds its
    cookies, and puts its content-length after a content-length header it has, which then is sent too. *)
Theorem message_framing (r : HttpRequest) (p : HttpResponse) :
  (exists fs, dump r = start_line r ++ crlf ++ text_of fs ++ crlf ++ m_body r /\
     keep (named CONTENT_LENGTH) fs =
       (if bool_decide (m_body r = []) then keep (named CONTENT_LENGTH) (m_headers r) else length_field (m_body r)) /\
     keep (named CONNECTION) fs =
       (if m_websocket r then keep (named CONNECTION) (m_headers r)
        else connection_field (m_websocket r) (m_close r)) /\
     keep other fs = keep other (m_headers r)) /\
  (exists fs, rsp_dump p = status_line p ++ crlf ++ text_of fs ++ crlf ++ r_body p /\
     keep (named CONTENT_LENGTH) fs = keep (named CONTENT_LENGTH) (r_headers p) ++ length_field (r_body p) /\
     keep (named CONNECTION) fs =
       (if r_websocket p then keep (named CONNECTION) (r_headers p)
        else connection_field (r_websocket p) (r_close p)) /\
     keep other fs = keep other (r_headers p) ++ ((fun c => (lit "Set-Cookie", c)) <$> r_cookies p)).
Proof.
  split.
  - eexists. split; [|exact (request_fields (m_websocket r) (m_close r) (m_body r) (m_headers r))].
    unfold dump, start_line. rewrite header_lines_keep, body_text_eq, connection_line_eq, !text_of_app.
    by rewrite <- !app_assoc.
  - set (ws := r_websocket p). set (cookies := (fun c => (lit "Set-Cookie", c)) <$> r_cookies p).
    exists (keep (fun e => negb (negb ws && (strcasecmp e.1 CONNECTION =? 0))) (r_headers p) ++ cookies ++
       connection_field ws (r_close p) ++ length_field (r_body p)). split.
    { unfold rsp_dump, status_line. rewrite header_lines_keep, body_text_eq, connection_line_eq, !text_of_app.
      assert (concat (line (lit "Set-Cookie") <$> r_cookies p) = text_of cookies) as <-
        by (unfold text_of, cookies; by rewrite <- list_fmap_compose).
      by rewrite <- !app_assoc. }
    rewrite !keep_app, !keep_keep, !keep_connection, !keep_length by (by (left + right)).
    assert (Hcook : forall q, (forall v, q (lit "Set-Cookie", v) = false) -> keep q cookies = []).
    { intros q Hq. apply filter_none. apply Forall_fmap, Forall_true. intros c. cbn. by rewrite Hq. }
    assert (Hskip : forall e, (strcasecmp e.1 CONNECTION =? 0) = named CONNECTION e)
      by (intros e; unfold named; by rewrite strcasecmp_zero).
    split_and!.
    + rewrite Hcook by done. change (named CONTENT_LENGTH (CONNECTION, _)) with false.
      change (named CONTENT_LENGTH (CONTENT_LENGTH, [])) with true. rewrite orb_true_r. cbn [app].
      f_equal. apply keep_ext. intros e. rewrite Hskip. pose proof (named_both e).
      by destruct (named CONTENT_LENGTH e), (named CONNECTION e), ws.
    + rewrite Hcook by done. change (named CONNECTION (CONNECTION, _)) with true.
      change (named CONNECTION (CONTENT_LENGTH, [])) with false. rewrite orb_false_r, app_nil_r. cbn [app].
      destruct ws.
      * rewrite app_nil_r. apply keep_ext. intros e. cbn [negb andb]. by rewrite andb_true_r.
      * rewrite <- (app_nil_l (connection_field false (r_close p))) at 2. f_equal. rewrite <- (keep_none (r_headers p)).
        apply keep_ext. intros e. rewrite Hskip. by destruct (named CONNECTION e).
    + change (other (CONNECTION, _)) with false. change (other (CONTENT_LENGTH, [])) with false.
      rewrite orb_true_r, !app_nil_r. f_equal.
      * apply keep_ext. intros e. rewrite Hskip. unfold other.
        by destruct (named CONTENT_LENGTH e), (named CONNECTION e), ws.
      * apply filter_all. apply Forall_fmap, Forall_true. by intros c.
Qed.
