(* ===== verification/Servlet.v ===== *)
(** * Servlets: src/src/http/servlet.cc

    The servlets, the dispatch tables and the choice of a servlet for a path.  A servlet acts
    on the request, the response and the session, which are shared objects: the state of its
    [handle].  Each operation of the dispatcher holds its mutex throughout. *)

From S2P Require Import Prelude Http.
#[local] Set Default Goal Selector "!".

Section Servlet.
Context {S : Type}.                  (** the session *)

Record Exchange := mkExchange { request : HttpRequest; response : HttpResponse; session : S }.

Inductive Servlet :=
| FunctionServlet (m_cb : M Exchange Z)
| NotFoundServlet (m_name m_content : str).

(** A servlet pointer may be null. *)
Inductive IServletCreator :=
| HoldServletCreator (m_servlet : option Servlet)
| ServletCreator (make : Servlet).

Definition creator_get (c : IServletCreator) : option Servlet :=
  match c with HoldServletCreator s => s | ServletCreator make => Some make end.

Definition new_NotFoundServlet (name : str) : Servlet :=
  NotFoundServlet name
    (lit "<html><head><title>404 Not Found" ++
     lit "</title></head><body><center><h1>404 Not Found</h1></center>" ++
     lit "<hr><center>" ++ name ++ lit "</center></body></html>").

Definition upd_response (f : HttpResponse -> HttpResponse) : M Exchange unit :=
  modify (fun x => mkExchange (request x) (f (response x)) (session x)).

Definition servlet_handle (s : Servlet) : M Exchange Z :=
  match s with
  | FunctionServlet m_cb => m_cb
  | NotFoundServlet _ m_content =>
      upd_response (setStatus NOT_FOUND) ;;
      upd_response (rsp_setHeader (lit "Server") (lit "phase0/1.0.0")) ;;
      upd_response (rsp_setHeader (lit "Content-Type") (lit "text/html")) ;;
      upd_response (rsp_setBody m_content) ;;
      mret 0
  end.

Record ServletDispatch := mkDispatch {
  m_datas : gmap str IServletCreator;
  m_globs : list (str * IServletCreator);
  m_default : option Servlet
}.

Definition new_ServletDispatch : ServletDispatch := mkDispatch ∅ [] (Some (new_NotFoundServlet (lit "phase0/1.0"))).

Definition addServletCreator (uri : str) (c : IServletCreator) (d : ServletDispatch) : ServletDispatch :=
  mkDispatch (<[uri := c]> (m_datas d)) (m_globs d) (m_default d).
Definition addServlet (uri : str) (slt : option Servlet) : ServletDispatch -> ServletDispatch :=
  addServletCreator uri (HoldServletCreator slt).
Definition addFunctionServlet (uri : str) (cb : M Exchange Z) : ServletDispatch -> ServletDispatch :=
  addServlet uri (Some (FunctionServlet cb)).

(** The loop that erases the first entry of a pattern. *)
Fixpoint erase_glob (uri : str) (l : list (str * IServletCreator)) : list (str * IServletCreator) :=
  match l with
  | [] => []
  | (p, c) :: l => if bool_decide (p = uri) then l else (p, c) :: erase_glob uri l
  end.

Definition addGlobServletCreator (uri : str) (c : IServletCreator) (d : ServletDispatch) : ServletDispatch :=
  mkDispatch (m_datas d) (erase_glob uri (m_globs d) ++ [(uri, c)]) (m_default d).
Definition addGlobServlet (uri : str) (slt : option Servlet) : ServletDispatch -> ServletDispatch :=
  addGlobServletCreator uri (HoldServletCreator slt).
Definition addGlobFunctionServlet (uri : str) (cb : M Exchange Z) : ServletDispatch -> ServletDispatch :=
  addGlobServlet uri (Some (FunctionServlet cb)).

Definition delServlet (uri : str) (d : ServletDispatch) : ServletDispatch :=
  mkDispatch (delete uri (m_datas d)) (m_globs d) (m_default d).
Definition delGlobServlet (uri : str) (d : ServletDispatch) : ServletDispatch :=
  mkDispatch (m_datas d) (erase_glob uri (m_globs d)) (m_default d).
Definition setDefault (v : option Servlet) (d : ServletDispatch) : ServletDispatch :=
  mkDispatch (m_datas d) (m_globs d) v.

Definition getServlet (uri : str) (d : ServletDispatch) : option Servlet :=
  match m_datas d !! uri with Some c => creator_get c | None => None end.

(** The first entry whose pattern passes. *)
Fixpoint first_glob (p : str -> bool) (l : list (str * IServletCreator)) : option IServletCreator :=
  match l with
  | [] => None
  | (pattern, c) :: l => if p pattern then Some c else first_glob p l
  end.

Definition getGlobServlet (uri : str) (d : ServletDispatch) : option Servlet :=
  match first_glob (fun p => bool_decide (p = uri)) (m_globs d) with Some c => creator_get c | None => None end.

(** [listAllServletCreator] and [listAllGlobServletCreator], into the caller's map. *)
Definition listAllServletCreator (d : ServletDispatch) (infos : gmap str IServletCreator) : gmap str IServletCreator :=
  m_datas d ∪ infos.
Definition listAllGlobServletCreator (d : ServletDispatch) (infos : gmap str IServletCreator) : gmap str IServletCreator :=
  fold_left (fun infos e => <[e.1 := e.2]> infos) (m_globs d) infos.

Section match_.
(** Whether a pattern matches a path: [fnmatch] without flags, on C strings. *)
Context (fnmatch : str -> str -> bool).

Definition getMatchedServlet (uri : str) (d : ServletDispatch) : option Servlet :=
  match m_datas d !! uri with
  | Some c => creator_get c
  | None =>
      match first_glob (fun p => fnmatch (c_str p) (c_str uri)) (m_globs d) with
      | Some c => creator_get c
      | None => m_default d
      end
  end.

Definition dispatch_handle (d : ServletDispatch) : M Exchange Z :=
  x ← get;
  match getMatchedServlet (m_path (request x)) d with
  | Some slt => servlet_handle slt ;; mret 0
  | None => mret 0
  end.
End match_.
End Servlet.
Arguments Exchange : clear implicits.
Arguments Servlet : clear implicits.
Arguments IServletCreator : clear implicits.
Arguments ServletDispatch : clear implicits.
