(* ===== verification/ServletTheorems.v ===== *)
(** * Servlets: the properties *)

From S2P Require Import Prelude Http Servlet.
#[local] Set Default Goal Selector "!".

Section dispatch.
Context {S : Type} (fnmatch : str -> str -> bool).
Implicit Types (d : ServletDispatch S).

Lemma first_glob_app (p : str -> bool) (l l' : list (str * IServletCreator S)) :
  first_glob p (l ++ l') = match first_glob p l with Some c => Some c | None => first_glob p l' end.
Proof. induction l as [|[q c] l IH]; [done|]. cbn [app first_glob]. by destruct (p q). Qed.

Lemma erase_glob_patterns uri (l : list (str * IServletCreator S)) :
  NoDup l.*1 -> NoDup (erase_glob uri l).*1 /\ uri ∉ (erase_glob uri l).*1.
Proof.
  assert (Hsub : forall (l : list (str * IServletCreator S)) x, x ∈ (erase_glob uri l).*1 -> x ∈ l.*1).
  { clear. intros l x. induction l as [|[q c] l IH]; [done|]. cbn [erase_glob].
    case_bool_decide; cbn [fmap list_fmap fst]; rewrite !elem_of_cons; tauto. }
  induction l as [|[q c] l IH]; [by split; [constructor|apply not_elem_of_nil]|].
  cbn [erase_glob fmap list_fmap fst]. intros [Hq Hl]%NoDup_cons. case_bool_decide as He; [by subst|].
  destruct (IH Hl). cbn [fmap list_fmap fst]. split.
  - apply NoDup_cons. split; [|done]. intros Hin. by apply Hq, (Hsub l).
  - apply not_elem_of_cons. split; [congruence|done].
Qed.

(** Erasing a pattern only matters for what it matches. *)
Lemma first_erase (p : str -> bool) uri (l : list (str * IServletCreator S)) :
  p uri = false -> first_glob p (erase_glob uri l) = first_glob p l.
Proof.
  intros Hp. induction l as [|[q c] l IH]; [done|]. cbn [erase_glob first_glob].
  case_bool_decide as He; [by subst; rewrite Hp|]. cbn [first_glob]. by rewrite IH.
Qed.

(** The operations that change a dispatcher. *)
Inductive dispatch_op :=
| AddCreator (uri : str) (c : IServletCreator S)
| AddGlobCreator (uri : str) (c : IServletCreator S)
| DelServlet (uri : str)
| DelGlob (uri : str)
| SetDefault (v : option (Servlet S)).

Definition run_dispatch (o : dispatch_op) : ServletDispatch S -> ServletDispatch S :=
  match o with
  | AddCreator uri c => addServletCreator uri c
  | AddGlobCreator uri c => addGlobServletCreator uri c
  | DelServlet uri => delServlet uri
  | DelGlob uri => delGlobServlet uri
  | SetDefault v => setDefault v
  end.

Lemma patterns_unique ops : NoDup (m_globs (foldr run_dispatch new_ServletDispatch ops)).*1.
Proof.
  induction ops as [|o ops IH]; [constructor|]. cbn [foldr].
  destruct o; cbn [run_dispatch m_globs addServletCreator addGlobServletCreator delServlet delGlobServlet setDefault]; try done.
  - rewrite fmap_app. destruct (erase_glob_patterns uri _ IH) as [? ?].
    apply NoDup_app. split_and!; [done| |apply NoDup_singleton]. intros x Hx Hx'.
    apply list_elem_of_singleton in Hx'. cbn in Hx'. by subst.
  - by apply erase_glob_patterns.
Qed.

(** In a dispatcher built by any operations no pattern is there twice, and a path is served by the servlet
    added for it exactly, else by the oldest pattern that matches, else by the default: adding a servlet
    for a path serves that path alone; adding one for a pattern makes it the last choice among the
    patterns, under a new age if it was there; removing an exact servlet uncovers what the patterns
    give, and removing a pattern changes nothing for paths it does not match. *)
Theorem dispatch_choice ops uri path c :
  let d := foldr run_dispatch new_ServletDispatch ops in
  let globs d := first_glob (fun p => fnmatch (c_str p) (c_str path)) (m_globs d) in
  let fallback d := match globs d with Some c => creator_get c | None => m_default d end in
  NoDup (m_globs d).*1 /\
  getMatchedServlet fnmatch path d = (match m_datas d !! path with Some c => creator_get c | None => fallback d end) /\
  getMatchedServlet fnmatch path (addServletCreator uri c d) =
    (if decide (path = uri) then creator_get c else getMatchedServlet fnmatch path d) /\
  getMatchedServlet fnmatch path (delServlet uri d) =
    (if decide (path = uri) then fallback d else getMatchedServlet fnmatch path d) /\
  globs (addGlobServletCreator uri c d) =
    (match globs (delGlobServlet uri d) with
     | Some c' => Some c' | None => if fnmatch (c_str uri) (c_str path) then Some c else None end) /\
  (fnmatch (c_str uri) (c_str path) = false -> globs (delGlobServlet uri d) = globs d).
Proof.
  intros d globs fallback. split_and!.
  - apply patterns_unique.
  - done.
  - unfold getMatchedServlet. cbn [m_datas addServletCreator m_globs m_default].
    destruct (decide (path = uri)) as [->|Hne]; [by rewrite lookup_insert_eq|by rewrite lookup_insert_ne by congruence].
  - unfold getMatchedServlet. cbn [m_datas delServlet m_globs m_default].
    destruct (decide (path = uri)) as [->|Hne]; [by rewrite lookup_delete_eq|by rewrite lookup_delete_ne by congruence].
  - unfold globs. cbn [m_globs addGlobServletCreator delGlobServlet]. rewrite first_glob_app. done.
  - intros Hm. unfold globs. cbn [m_globs delGlobServlet]. by apply first_erase.
Qed.
End dispatch.

(** Patterns that end in a star match what starts with the rest. *)
Definition star_match (pattern path : str) : bool :=
  bool_decide (last pattern = Some "*"%byte) &&
  bool_decide (take (length pattern - 1) path = take (length pattern - 1) pattern).

Lemma dispatch_choice_witness :
  let page name := HoldServletCreator (S := unit) (Some (new_NotFoundServlet (lit name))) in
  getMatchedServlet star_match (lit "/a/b")
    (foldr run_dispatch new_ServletDispatch [AddGlobCreator (lit "/a/*") (page "new"); AddGlobCreator (lit "/*") (page "old")])
  = Some (new_NotFoundServlet (lit "old")).
Proof.
  destruct (dispatch_choice (S := unit) star_match
    [AddGlobCreator (lit "/a/*") (HoldServletCreator (Some (new_NotFoundServlet (lit "new"))));
     AddGlobCreator (lit "/*") (HoldServletCreator (Some (new_NotFoundServlet (lit "old"))))]
    (lit "/") (lit "/a/b") (HoldServletCreator None)) as (_ & H & _).
  cbv zeta. etransitivity; [exact H|]. reflexivity.
Defined.
