(* ===== verification/HttpSession.v ===== *)
(** * HTTP parsing, sessions and the server: src/src/http/HttpParser.cc, HttpSession.cc and HttpServer.cc

    The grammar is an interface here, the class [Grammar], whose instance is in [HttpParsing]:
    executing it on some bytes makes a sequence of callbacks, and tells how many bytes it took
    and whether it failed.  Of the callbacks of this program only the one on the URL can refuse, and does so
    for a text [http_parser_parse_url] refuses, so that the sequence is the grammar's to tell. *)

From S2P Require Import Prelude Endians Address Socket Stream Http Servlet TcpServer.
#[local] Set Default Goal Selector "!".

(** The parts of a URL that are there. *)
Record url_parts := mkUrl { u_path : option str; u_query : option str; u_fragment : option str }.

Inductive http_callback :=
| message_begin
| on_url (buf : str)
| on_status (buf : str) (status_code : Z)
| on_header_field (buf : str)
| on_header_value (buf : str)
| on_headers_complete (http_major http_minor code : Z)   (** [code]: the method, or the status *)
| on_body (buf : str)
| on_message_complete
| on_chunk_header
| on_chunk_complete.

Class Grammar (P : Type) := {
  hp_request : P;
  hp_response : P;
  hp_execute : P -> str -> list http_callback * nat * P;
  hp_upgrade : P -> bool;
  hp_errno : P -> Z;
  hp_parse_url : str -> option url_parts
}.

Definition HPE_UNKNOWN : Z := 32.

Section Parser.
Context {P : Type} `{Grammar P}.

(** [D] is [HttpRequest] or [HttpResponse]. *)
Record HttpParser (D : Type) := mkParser {
  m_parser : P;
  m_data : D;
  m_error : Z;
  m_finished : bool;
  m_field : str
}.
Arguments mkParser {D}.
Arguments m_parser {D}.
Arguments m_data {D}.
Arguments m_error {D}.
Arguments m_finished {D}.
Arguments m_field {D}.

Definition set_data {D} (f : D -> D) (p : HttpParser D) : HttpParser D :=
  mkParser (m_parser p) (f (m_data p)) (m_error p) (m_finished p) (m_field p).
Definition setError {D} (v : Z) (p : HttpParser D) : HttpParser D :=
  mkParser (m_parser p) (m_data p) v (m_finished p) (m_field p).
Definition setFinished {D} (v : bool) (p : HttpParser D) : HttpParser D :=
  mkParser (m_parser p) (m_data p) (m_error p) v (m_field p).
Definition setField {D} (v : str) (p : HttpParser D) : HttpParser D :=
  mkParser (m_parser p) (m_data p) (m_error p) (m_finished p) v.
Definition set_parser {D} (q : P) (p : HttpParser D) : HttpParser D :=
  mkParser q (m_data p) (m_error p) (m_finished p) (m_field p).
Definition hasError {D} (p : HttpParser D) : bool := negb (m_error p =? 0).

Definition new_HttpRequestParser : HttpParser HttpRequest :=
  mkParser hp_request (new_HttpRequest 17 true) 0 false [].
Definition new_HttpResponseParser : HttpParser HttpResponse :=
  mkParser hp_response (new_HttpResponse 17 true) 0 false [].

(** [((http_major) << 0x4) | (http_minor)], as a [uint8_t]. *)
Definition version_of (major minor : Z) : Z := u8 (Z.lor (Z.shiftl major 4) minor).

Definition on_request_url (buf : str) (p : HttpParser HttpRequest) : HttpParser HttpRequest :=
  match hp_parse_url buf with
  | None => p
  | Some u =>
      let p := match u_path u with Some v => set_data (setPath v) p | None => p end in
      let p := match u_query u with Some v => set_data (setQuery v) p | None => p end in
      match u_fragment u with Some v => set_data (setFragment v) p | None => p end
  end.

Definition request_callback (c : http_callback) (p : HttpParser HttpRequest) : HttpParser HttpRequest :=
  match c with
  | on_url buf => on_request_url buf p
  | on_header_field buf => setField buf p
  | on_header_value buf => set_data (setHeader (m_field p) buf) p
  | on_headers_complete major minor code =>
      set_data (setMethod code) (set_data (setVersion (version_of major minor)) p)
  | on_body buf => set_data (appendBody buf) p
  | on_message_complete => setFinished true p
  | _ => p
  end.

Definition response_callback (c : http_callback) (p : HttpParser HttpResponse) : HttpParser HttpResponse :=
  match c with
  | on_status _ status_code => set_data (setStatus status_code) p
  | on_header_field buf => setField buf p
  | on_header_value buf => set_data (rsp_setHeader (m_field p) buf) p
  | on_headers_complete major minor code =>
      set_data (setStatus code) (set_data (rsp_setVersion (version_of major minor)) p)
  | on_body buf => set_data (rsp_appendBody buf) p
  | on_message_complete => setFinished true p
  | _ => p
  end.

(** [memmove(data, data + nparsed, len - nparsed)]. *)
Definition shift_left (data : str) (len nparsed : nat) : str :=
  if (nparsed <? len)%nat then splice 0 (slice nparsed (len - nparsed) data) data else data.

(** [execute] of the two classes: the callbacks run, the errors, what is left moved to the
    front; the count and the buffer.  [requests] is whether upgrades are refused. *)
Definition execute {D} (callback : http_callback -> HttpParser D -> HttpParser D) (requests : bool)
    (data : str) (len : nat) (p : HttpParser D) : nat * str * HttpParser D :=
  let '(cbs, nparsed, q) := hp_execute (m_parser p) (take len data) in
  let p := set_parser q (fold_left (fun p c => callback c p) cbs p) in
  if requests && hp_upgrade q then (nparsed, data, setError HPE_UNKNOWN p)
  else if negb (hp_errno q =? 0) then (nparsed, data, setError (swrap 8 (hp_errno q)) p)
  else (nparsed, shift_left data len nparsed, p).

Definition request_execute := execute request_callback true.
Definition response_execute := execute response_callback false.

(** ** Sessions *)

Section Session.
Context {K : Type} `{Net K}.
Abbreviation SS := (SocketStream K).

(** The loop of [recvRequest]: [data] is the buffer, as long as [buff_size]; one turn per
    [read], which is given the rest of the buffer: a longer one stops the program. *)
Fixpoint recv_loop (fuel : nat) (data : str) (offset : nat) (p : HttpParser HttpRequest)
    : M SS (option HttpRequest) :=
  match fuel with
  | O => crashed OutOfFuel
  | S fuel =>
      let asked := Z.of_nat (length data - offset) in
      room data (Z.of_nat offset) asked ;;
      '(len, bs) ← SocketStream_read asked;
      if len <=? 0 then SocketStream_close ;; mret None else
      let data := splice offset bs data in
      let len := (Z.to_nat len + offset)%nat in
      let '(nparse, data, p) := request_execute data len p in
      if hasError p then SocketStream_close ;; mret None else
      let offset := (len - nparse)%nat in
      if (offset =? length data)%nat then SocketStream_close ;; mret None else
      if m_finished p then mret (Some (init (m_data p)))
      else recv_loop fuel data offset p
  end.

(** [fresh] is the content of the new buffer. *)
Definition recvRequest (fuel : nat) (fresh : str) : M SS (option HttpRequest) :=
  recv_loop fuel fresh 0 new_HttpRequestParser.

(** Writing goes through the stream's loop: the fuel is one turn per byte. *)
#[local] Instance session_stream : Stream SS := SocketStream_stream (fun _ _ => x00).
Definition sendResponse (rsp : HttpResponse) : M SS Z :=
  let data := rsp_dump rsp in
  writeFixSize (S (length data)) data (Z.of_nat (length data)).

(** ** The server *)

Record HttpServer := mkHttpServer {
  tcp : TcpServer;
  m_isKeepalive : bool;
  m_dispatch : ServletDispatch SS
}.

Definition new_HttpServer (read_timeout : Z) (keepalive : bool) : HttpServer :=
  let s := new_TcpServer read_timeout in
  mkHttpServer (mkServer (m_socks s) (m_recvTimeout s) (m_name s) (lit "http") (m_isStop s) (io_tasks s) (accept_tasks s))
    keepalive new_ServletDispatch.

Definition setName (v : str) (h : HttpServer) : HttpServer :=
  let s := tcp h in
  mkHttpServer (mkServer (m_socks s) (m_recvTimeout s) v (server_type s) (m_isStop s) (io_tasks s) (accept_tasks s))
    (m_isKeepalive h) (setDefault (Some (new_NotFoundServlet v)) (m_dispatch h)).

(** The dispatcher's [handle], between the session and the two messages. *)
Definition run_servlet (fnmatch : str -> str -> bool) (h : HttpServer) (req : HttpRequest) (rsp : HttpResponse)
    : M SS (HttpRequest * HttpResponse) :=
  fun s =>
    let '(r, x) := dispatch_handle fnmatch (m_dispatch h) (mkExchange req rsp s) in
    (match r with Ok _ => Ok (request x, response x) | Throw e => Throw e | Crash c => Crash c end, session x).

(** The loop of [handleClient]: the fuels are the requests it serves at most, and the reads of
    each; [fresh] are the contents of the new buffers. *)
Fixpoint serve (fnmatch : str -> str -> bool) (fuel reads : nat) (fresh : nat -> str) (h : HttpServer) : M SS unit :=
  match fuel with
  | O => crashed OutOfFuel
  | S fuel =>
      req ← recvRequest reads (fresh fuel);
      match req with
      | None => mret tt
      | Some req =>
          let rsp := new_HttpResponse (m_version req) (m_close req || negb (m_isKeepalive h)) in
          let rsp := rsp_setHeader (lit "Server") (m_name (tcp h)) rsp in
          '(req, rsp) ← run_servlet fnmatch h req rsp;
          sendResponse rsp ;;
          if negb (m_isKeepalive h) || m_close req then mret tt
          else serve fnmatch fuel reads fresh h
      end
  end.

Definition handleClient (fnmatch : str -> str -> bool) (fuel reads : nat) (fresh : nat -> str) (h : HttpServer) : M SS unit :=
  serve fnmatch fuel reads fresh h ;; SocketStream_close.
End Session.
End Parser.
Arguments HttpParser : clear implicits.
Arguments mkParser {P D}.
Arguments m_parser {P D}.
Arguments m_data {P D}.
Arguments m_error {P D}.
Arguments m_finished {P D}.
Arguments m_field {P D}.
