(* ===== verification/HttpSessionTheorems.v ===== *)
(** * HTTP parsing and sessions: the properties *)

From S2P Require Import Prelude Endians Address Socket Stream StreamTheorems Http HttpTheorems Servlet TcpServer HttpSession.
#[local] Set Default Goal Selector "!".

Section parser.
Context {P : Type} `{Grammar P}.
Implicit Types (p : HttpParser P HttpRequest) (cbs : list http_callback).

Definition run_callbacks cbs p : HttpParser P HttpRequest := fold_left (fun p c => request_callback c p) cbs p.

Lemma run_app cbs cbs' p : run_callbacks (cbs ++ cbs') p = run_callbacks cbs' (run_callbacks cbs p).
Proof. apply fold_left_app. Qed.

(** The callbacks of headers reported each in one piece, and of a body in pieces. *)
Definition header_callbacks (hs : list (str * str)) : list http_callback :=
  concat ((fun h => [on_header_field h.1; on_header_value h.2]) <$> hs).
Definition set_all (hs m : MapType) : MapType := fold_left (fun m h => map_set h.1 h.2 m) hs m.

Lemma run_headers hs p :
  run_callbacks (header_callbacks hs) p =
  setField (default (m_field p) (last hs.*1))
    (set_data (fun r => setHeaders (set_all hs (m_headers r)) r) p).
Proof.
  revert p. induction hs as [|[f v] hs IH]; intros p; [by destruct p as [? [] ? ? ?]|].
  change (header_callbacks ((f, v) :: hs)) with ([on_header_field f; on_header_value v] ++ header_callbacks hs).
  rewrite run_app, IH. cbn [fmap list_fmap]. rewrite last_cons. cbn [fst].
  destruct p as [? [] ? ? ?]. cbn. by destruct (last hs.*1).
Qed.

Lemma run_bodies bodies p :
  run_callbacks (on_body <$> bodies) p = set_data (fun r => setBody (m_body r ++ concat bodies) r) p.
Proof.
  revert p. induction bodies as [|b bodies IH]; intros p.
  - destruct p as [? [] ? ? ?]. unfold set_data. cbn [m_data]. unfold setBody. cbn. by rewrite app_nil_r.
  - change (run_callbacks (on_body <$> b :: bodies) p) with (run_callbacks (on_body <$> bodies) (request_callback (on_body b) p)).
    rewrite IH. destruct p as [? [] ? ? ?]. unfold set_data, request_callback, appendBody, setBody, set_data. cbn -[app]. by rewrite <- app_assoc.
Qed.

(** The request the callbacks make, when the URL and each header name and value come in one piece. *)
Lemma request_built q url u hs bodies major minor code :
  hp_parse_url url = Some u ->
  let p0 := set_parser q new_HttpRequestParser in
  let p := run_callbacks ([message_begin; on_url url] ++ header_callbacks hs ++
             [on_headers_complete major minor code] ++ (on_body <$> bodies) ++ [on_message_complete]) p0 in
  m_finished p = true /\ hasError p = false /\
  m_data p = mkRequest code (version_of major minor) true false 0 []
    (default (lit "/") (u_path u)) (default [] (u_query u)) (default [] (u_fragment u)) (concat bodies)
    (set_all hs []) [] [].
Proof.
  intros Hu p0 p. unfold p. rewrite !run_app, run_headers, run_bodies.
  assert (Hurl : run_callbacks [message_begin; on_url url] p0 =
    set_data (fun _ => mkRequest GET 17 true false 0 [] (default (lit "/") (u_path u)) (default [] (u_query u))
                         (default [] (u_fragment u)) [] [] [] []) p0).
  { cbn [run_callbacks fold_left request_callback]. unfold on_request_url. rewrite Hu.
    by destruct (u_path u), (u_query u), (u_fragment u). }
  rewrite Hurl. by split_and!.
Qed.

(** C15: The callbacks rebuild the request the grammar reports: with its URL and each header name and value
    in one piece, whatever the pieces of the body, the request has the parts of the URL, the method, the
    version, the headers (the last of a name, without its case) and the whole body, and the parser is
    finished.  But a name or a value reported in two pieces, which the grammar may do, is not put
    together: only the last pieces are kept. *)
Theorem callbacks_build_request q url u hs bodies major minor code f1 f2 v1 v2 :
  hp_parse_url url = Some u ->
  let p0 := set_parser q new_HttpRequestParser in
  let p := run_callbacks ([message_begin; on_url url] ++ header_callbacks hs ++
             [on_headers_complete major minor code] ++ (on_body <$> bodies) ++ [on_message_complete]) p0 in
  m_finished p = true /\ hasError p = false /\
  m_data p = mkRequest code (version_of major minor) true false 0 []
    (default (lit "/") (u_path u)) (default [] (u_query u)) (default [] (u_fragment u)) (concat bodies)
    (set_all hs []) [] [] /\
  m_headers (m_data (run_callbacks [on_header_field f1; on_header_field f2; on_header_value v1; on_header_value v2] p0)) =
    [(f2, v2)].
Proof.
  intros Hu p0 p. destruct (request_built q url u hs bodies major minor code Hu) as (H1 & H2 & H3). split_and!; [exact H1|exact H2|exact H3|].
  cbn -[CaseInsensitiveLess]. by rewrite !less_lex, !lex_irrefl.
Qed.
End parser.

(** ** Receiving *)

(** The grammar does not take more than it is given, for the parsers that [hp_reached] holds of:
    the new ones, and those that executing leaves. *)
Class GrammarLaws (P : Type) `{Grammar P} (hp_reached : P -> Prop) : Prop := {
  request_law : hp_reached hp_request;
  response_law : hp_reached hp_response;
  execute_law q data :
    hp_reached q -> data <> [] ->
    (snd (fst (hp_execute q data)) <= length data)%nat /\ hp_reached (snd (hp_execute q data))
}.

Section receive.
Context {P : Type} `{GrammarLaws P reached} {K : Type} `{NetStream K inc out}.
Implicit Types (s : SocketStream K) (p : HttpParser P HttpRequest).

Lemma close_disconnects s :
  exists s', SocketStream_close s = (Ok tt, s') /\ ss_connected s' = false.
Proof.
  unfold SocketStream_close. rewrite (bind_ok get _ s s s) by done. destruct (ss_socket s) as [sock|] eqn:Es.
  - assert (exists b sock' k, close (sock, ss_net s) = (Ok b, (sock', k)) /\ isConnected sock' = false) as (b & sock' & k & Hc & Hd).
    { unfold close. rewrite (bind_ok self _ _ sock (sock, ss_net s)) by done.
      destruct (m_isConnected sock) eqn:Ec; cbn [negb andb].
      - rewrite (bind_ok (upd _) _ _ tt (set_connected false sock, ss_net s)) by done.
        destruct (m_sock sock =? -1); cbn [negb when]; [by eexists _, _, _|].
        unfold call, upd, modify, mbind, M_bind, mret, M_ret. cbn [snd fst]. destruct (n_close _ _). by eexists _, _, _.
      - destruct (m_sock sock =? -1) eqn:Ef; [by eexists _, _, _|].
        rewrite (bind_ok (upd _) _ _ tt (set_connected false sock, ss_net s)) by done. cbn [negb when].
        unfold call, upd, modify, mbind, M_bind, mret, M_ret. cbn [snd fst]. destruct (n_close _ _). by eexists _, _, _. }
    exists (mkSS (Some sock') (ss_owner s) k). split; [|exact Hd].
    rewrite (bind_ok (on_socket close) _ s b (mkSS (Some sock') (ss_owner s) k)); [done|]. unfold on_socket. by rewrite Es, Hc.
  - exists s. split; [done|]. unfold ss_connected. by rewrite Es.
Qed.

Lemma request_execute_ok data len p :
  (0 < len <= length data)%nat -> reached (m_parser p) ->
  exists n data' p', request_execute data len p = (n, data', p') /\ (n <= len)%nat /\ length data' = length data /\
    reached (m_parser p').
Proof.
  intros Hlen Hr. unfold request_execute, execute.
  destruct (execute_law (m_parser p) (take len data) Hr) as [Hn Hr'].
  { intros E. apply (f_equal length) in E. rewrite length_take in E. simpl in E. lia. }
  destruct (hp_execute (m_parser p) (take len data)) as [[cbs n] q]. cbn [fst snd] in Hn, Hr'. rewrite length_take in Hn.
  destruct (true && hp_upgrade q); [eexists _, _, _; split_and!; [reflexivity|lia|done|done]|].
  destruct (negb (hp_errno q =? 0)); [eexists _, _, _; split_and!; [reflexivity|lia|done|done]|].
  eexists _, _, _. split_and!; [reflexivity|lia| |done]. unfold shift_left. destruct (Nat.ltb_spec n len); [|done].
  rewrite length_splice; [done|]. rewrite length_slice by lia. lia.
Qed.

Lemma recv_loop_ok fuel data offset p s :
  reached (m_parser p) -> (offset < length data)%nat -> (length (ss_view inc s) < fuel)%nat ->
  exists r s', recv_loop fuel data offset p s = (r, s') /\
    match r with
    | Ok None => ss_connected s' = false
    | Ok (Some req) => (exists p', m_finished p' = true /\ hasError p' = false /\ req = init (m_data p')) /\
        (length (ss_view inc s') < length (ss_view inc s))%nat
    | _ => False
    end.
Proof.
  revert data offset p s. induction fuel as [|fuel IH]; intros data offset p s Hp Ho Hf; [lia|].
  cbn [recv_loop]. cbv zeta. rewrite (bind_ok _ _ _ _ _ (room_run data (Z.of_nat offset) (Z.of_nat (length data - offset)) s ltac:(lia) ltac:(lia))).
  destruct (read_keeps (Z.of_nat (length data - offset)) s ltac:(lia)) as (len & bs & s1 & Hr & Hm & Hin).
  rewrite (bind_ok _ _ _ _ _ Hr).
  assert (Hclose : forall s2, exists r s', (SocketStream_close ;; mret None) s2 = (r, s') /\
    match r with Ok None => ss_connected s' = false | Ok (Some req) => (exists p', m_finished p' = true /\
      hasError p' = false /\ req = init (m_data p')) /\ (length (ss_view inc s') < length (ss_view inc s))%nat | _ => False end).
  { intros s2. destruct (close_disconnects s2) as (s3 & Hc & Hd). exists (Ok None), s3. by rewrite (bind_ok _ _ _ _ _ Hc). }
  destruct (len <=? 0) eqn:El; [apply Hclose|].
  destruct (moves_pos _ _ _ Hm El) as [Hlen Hbs].
  apply (f_equal length) in Hin. rewrite length_app in Hin.
  set (data1 := splice offset bs data). assert (Hd1 : length data1 = length data) by (apply length_splice; lia).
  destruct (request_execute_ok data1 (Z.to_nat len + offset) p) as (n & data2 & p2 & Hx & Hn & Hd2 & Hp2); [lia|done|].
  rewrite Hx. destruct (hasError p2) eqn:Ee; [apply Hclose|].
  destruct (Nat.eqb_spec (Z.to_nat len + offset - n) (length data2)); [apply Hclose|].
  destruct (m_finished p2) eqn:Ef.
  - eexists _, s1. split; [reflexivity|]. split; [by exists p2|lia].
  - destruct (IH data2 (Z.to_nat len + offset - n)%nat p2 s1) as (r & s' & Hrun & Hres); [done|lia..|].
    exists r, s'. split; [done|]. destruct r as [[req|]|e|c]; try done. destruct Hres. split; [done|lia].
Qed.

(** C13: Receiving a request ends, within a turn per byte still to come and one, and does not stop the
    program, as it would if a read were given more than the rest of its buffer, however the bytes arrive and
    whatever the grammar makes of them.  It ends in nothing, with the connection closed, or in the request
    of a parser that has finished without an error, having taken something. *)
Theorem recv_request_safe fuel fresh s :
  fresh <> [] -> (length (ss_view inc s) < fuel)%nat ->
  exists r s', recvRequest fuel fresh s = (r, s') /\
    match r with
    | Ok None => ss_connected s' = false
    | Ok (Some req) => (exists p, m_finished p = true /\ hasError p = false /\ req = init (m_data p)) /\
        (length (ss_view inc s') < length (ss_view inc s))%nat
    | _ => False
    end.
Proof. intros Hf Hfuel. apply recv_loop_ok; [apply request_law| |done]. destruct fresh; [done|simpl; lia]. Qed.

(** ** Serving *)

Context (fnmatch : str -> str -> bool).
Implicit Types (h : HttpServer (K := K)) (req : HttpRequest).

(** A call of [writeFixSize] on the rest of a text, when [left] bytes of it are left. *)
Definition send_part (data : str) (left : Z) : M (SocketStream K) Z :=
  SocketStream_write (slice (Z.to_nat (Z.of_nat (length data) - left)) (Z.to_nat left) data).

(** From [s] to [s'] the text [data] was sent: call after call, all of it, or its start when a call that
    moved nothing ended it; and nothing was received. *)
Definition sent (data : str) s (r : Z) s' : Prop :=
  exists stop, r = fix_result (Z.of_nat (length data)) stop /\
    calls (send_part data) (Z.of_nat (length data)) s stop s' /\
    match stop with
    | None => ss_view out s' = ss_view out s ++ data
    | Some len => len <= 0 /\ exists m, (m < length data)%nat /\ ss_view out s' = ss_view out s ++ take m data
    end /\
    ss_view inc s' = ss_view inc s.

Lemma sendResponse_run rsp s :
  Z.of_nat (length (rsp_dump rsp)) < 2 ^ 31 ->
  exists r s', sendResponse rsp s = (Ok r, s') /\ sent (rsp_dump rsp) s r s'.
Proof.
  intros Hl. unfold sendResponse. cbv zeta. set (data := rsp_dump rsp) in *. clearbody data.
  pose proof (socket_stream_laws (inc := inc) (out := out) (fun _ _ => x00)) as Hlaws.
  destruct (@fix_size_buffer _ _ _ _ Hlaws (Z.of_nat (length data)) data s) as [_ Hw]; [lia..|].
  rewrite Nat2Z.id in Hw. destruct Hw as (stop & m & s' & Hrun & Hc & He & Ho & Hi).
  eexists _, s'. split; [exact Hrun|]. exists stop. split; [done|]. split; [exact Hc|]. split; [|done].
  destruct stop as [len|]; cbn [ends] in He.
  - split; [lia|]. exists m. split; [lia|done].
  - by rewrite Ho, take_ge by lia.
Qed.

Lemma sent_inc data s r s' : sent data s r s' -> ss_view inc s' = ss_view inc s.
Proof. by intros (stop & _ & _ & _ & Hi). Qed.

(** The response a turn starts from. *)
Definition first_response h req : HttpResponse :=
  rsp_setHeader (lit "Server") (m_name (tcp h)) (new_HttpResponse (m_version req) (m_close req || negb (m_isKeepalive h))).

(** Servlets that answer: they return, leave the session to the server and the flags on
    closing as they are, and keep the text in the range of an [int]. *)
Definition answering h : Prop := forall req s,
  exists req' rsp, run_servlet fnmatch h req (first_response h req) s = (Ok (req', rsp), s) /\
    m_close req' = m_close req /\ r_close rsp = r_close (first_response h req) /\
    Z.of_nat (length (rsp_dump rsp)) < 2 ^ 31.

Lemma serve_turn fuel reads fresh h s req s1 :
  answering h -> recvRequest reads (fresh fuel) s = (Ok (Some req), s1) ->
  exists req' rsp r s2,
    run_servlet fnmatch h req (first_response h req) s1 = (Ok (req', rsp), s1) /\
    sendResponse rsp s1 = (Ok r, s2) /\ sent (rsp_dump rsp) s1 r s2 /\
    r_close rsp = m_close req || negb (m_isKeepalive h) /\
    serve fnmatch (S fuel) reads fresh h s = (if r_close rsp then (Ok tt, s2) else serve fnmatch fuel reads fresh h s2).
Proof.
  intros Ha Hr. cbn [serve]. rewrite (bind_ok _ _ _ _ _ Hr). fold (first_response h req).
  destruct (Ha req s1) as (req' & rsp & Hrun & Hc & Hrc & Hlen). cbv zeta. rewrite (bind_ok _ _ _ _ _ Hrun).
  destruct (sendResponse_run rsp s1 Hlen) as (r & s2 & Hsend & Hsent).
  rewrite (bind_ok _ _ _ _ _ Hsend). exists req', rsp, r, s2. rewrite Hc.
  assert (Hcl : r_close rsp = m_close req || negb (m_isKeepalive h)) by (rewrite Hrc; done).
  split; [done|]. split; [done|]. split; [done|]. split; [done|]. rewrite Hcl, orb_comm. by destruct (m_close req || negb (m_isKeepalive h)).
Qed.

Lemma serve_ends fuel reads fresh h s :
  answering h -> (forall n, fresh n <> []) ->
  (length (ss_view inc s) < fuel)%nat -> (length (ss_view inc s) < reads)%nat ->
  exists s', serve fnmatch fuel reads fresh h s = (Ok tt, s').
Proof.
  intros Ha Hfresh. revert s. induction fuel as [|fuel IH]; intros s Hf Hr; [lia|].
  destruct (recv_loop_ok reads (fresh fuel) 0 new_HttpRequestParser s) as (r & s1 & Hrun & Hres).
  { apply request_law. }
  { specialize (Hfresh fuel). destruct (fresh fuel); [done|simpl; lia]. }
  { done. }
  destruct r as [[req|]|e|c]; try done.
  - destruct Hres as [_ Hlen]. destruct (serve_turn fuel reads fresh h s req s1 Ha Hrun) as (req' & rsp & r & s2 & _ & _ & Hsent & _ & Hs).
    apply sent_inc in Hsent as Hin. rewrite Hs. destruct (r_close rsp); [by exists s2|]. apply IH; rewrite Hin; lia.
  - exists s1. cbn [serve]. unfold recvRequest. by rewrite (bind_ok _ _ _ _ _ Hrun).
Qed.

(** C14: Serving a client ends when the client's bytes do, at the latest, whatever they are, and always with
    the connection closed, when the servlets answer.  Each request received is given to the servlets once,
    and the response they make of it is what [sendResponse] is called with, once: its whole text is sent,
    or its start when a call of the stream that moves nothing stops the sending, which the server does not
    look at.  Its connection field is kept: the server closes after a response that says close, and receives
    again after one that says keep-alive. *)
Theorem client_served fuel reads fresh h s :
  answering h -> (forall n, fresh n <> []) ->
  (length (ss_view inc s) < fuel)%nat -> (length (ss_view inc s) < reads)%nat ->
  (exists s', handleClient fnmatch fuel reads fresh h s = (Ok tt, s') /\ ss_connected s' = false) /\
  (forall n s0 req s1, recvRequest reads (fresh n) s0 = (Ok (Some req), s1) ->
     exists req' rsp r s2,
       run_servlet fnmatch h req (first_response h req) s1 = (Ok (req', rsp), s1) /\
       sendResponse rsp s1 = (Ok r, s2) /\ sent (rsp_dump rsp) s1 r s2 /\
       r_close rsp = m_close req || negb (m_isKeepalive h) /\
       serve fnmatch (S n) reads fresh h s0 = (if r_close rsp then (Ok tt, s2) else serve fnmatch n reads fresh h s2) /\
       (r_websocket rsp = false -> exists a b, rsp_dump rsp =
          a ++ line (lit "connection") (if r_close rsp then lit "close" else lit "keep-alive") ++ b)).
Proof.
  intros Ha Hfresh Hf Hr. split.
  - destruct (serve_ends fuel reads fresh h s Ha Hfresh Hf Hr) as [s1 Hs]. destruct (close_disconnects s1) as (s2 & Hc & Hd).
    exists s2. unfold handleClient. by rewrite (bind_ok _ _ _ _ _ Hs).
  - intros n s0 req s1 Hreq. destruct (serve_turn n reads fresh h s0 req s1 Ha Hreq) as (req' & rsp & r & s2 & Hrun & Hsend & Hsent & Hclose & Hserve).
    exists req', rsp, r, s2. do 5 (split; [done|]). intros Hws. unfold rsp_dump, connection_line. rewrite Hws. cbn [negb].
    rewrite !app_assoc. rewrite <- (app_assoc _ (line (lit "connection") _)). by eexists _, _.
Qed.
End receive.

(** ** Witnesses *)

(** A grammar of one-line requests: all it is given is the URL of a finished request. *)
Definition line_grammar : Grammar bool := {|
  hp_request := false;
  hp_response := false;
  hp_execute q data := ([on_url data; on_headers_complete 1 1 GET; on_message_complete], length data, q);
  hp_upgrade _ := false;
  hp_errno _ := 0;
  hp_parse_url buf := Some (mkUrl (Some buf) None None)
|}.
#[local] Existing Instances line_grammar pipe_net pipe_stream.

#[local] Instance line_laws : GrammarLaws bool (fun _ => True).
Proof. by split. Qed.

Lemma callbacks_build_request_witness :
  let p0 := set_parser false new_HttpRequestParser in
  m_data (run_callbacks ([message_begin; on_url (lit "/a")] ++ header_callbacks [(lit "Host", lit "x")] ++
    [on_headers_complete 1 1 GET] ++ (on_body <$> [lit "b"; lit "c"]) ++ [on_message_complete]) p0) =
  mkRequest GET 17 true false 0 [] (lit "/a") [] [] (lit "bc") [(lit "Host", lit "x")] [] [].
Proof.
  destruct (callbacks_build_request (H := line_grammar) false (lit "/a") (mkUrl (Some (lit "/a")) None None) [(lit "Host", lit "x")]
    [lit "b"; lit "c"] 1 1 GET [] [] [] [] ltac:(reflexivity)) as (_ & _ & H & _).
  cbv zeta. rewrite H. reflexivity.
Defined.

Lemma recv_request_safe_witness :
  let s := mkSS (Some (mkSock 3 2 1 0 true None None)) true (lit "/x", []) : SocketStream (str * str) in
  recvRequest 3 (lit "........") s =
    (Ok (Some (setPath (lit "/x") (new_HttpRequest 17 true))), mkSS (ss_socket s) true ([], [])) /\
  exists r s', recvRequest 3 (lit "........") s = (r, s') /\ r <> Crash OutOfFuel.
Proof.
  intros s. split; [reflexivity|].
  destruct (recv_request_safe 3 (lit "........") s ltac:(done) ltac:(vm_compute; lia)) as (r & s' & H1 & H2).
  exists r, s'. split; [exact H1|]. intros ->. exact H2.
Defined.

Lemma length_print_dec z : (length (print_dec z) <= 65)%nat.
Proof.
  assert (Hd : forall fuel base z acc, (length (to_digits fuel base z acc) <= fuel + length acc)%nat).
  { induction fuel as [|fuel IH]; intros base z' acc; [done|]. cbn [to_digits]. destruct (_ =? 0); [simpl; lia|].
    specialize (IH base (z' / base) (digit (z' mod base) :: acc)). simpl in *. lia. }
  assert (Hu : forall z', (length (print_uint 10 z') <= 64)%nat) by (intros z'; apply (Hd 64%nat 10 z' [])).
  unfold print_dec. destruct (z <? 0); [|specialize (Hu z); lia].
  rewrite length_cons. specialize (Hu (- z)). lia.
Qed.

Definition no_match (_ _ : str) : bool := false.

(** The server that has no servlet but the default one. *)
Definition plain_server (keepalive : bool) : HttpServer (K := str * str) := new_HttpServer 0 keepalive.

(** What it answers, whatever the request; the version and the flag on closing are the request's. *)
Definition not_found : HttpResponse :=
  Eval vm_compute in
    (rsp_setBody (lit "<html><head><title>404 Not Found" ++
       lit "</title></head><body><center><h1>404 Not Found</h1></center>" ++
       lit "<hr><center>" ++ lit "phase0/1.0" ++ lit "</center></body></html>")
     (rsp_setHeader (lit "Content-Type") (lit "text/html")
     (rsp_setHeader (lit "Server") (lit "phase0/1.0.0")
     (setStatus NOT_FOUND (rsp_setHeader (lit "Server") (lit "phase0/1.0.0") (new_HttpResponse 17 true)))))).
Definition answer (version : Z) (close : bool) : HttpResponse :=
  mkResponse (r_status not_found) version close (r_websocket not_found) (r_body not_found)
    (r_reason not_found) (r_headers not_found) (r_cookies not_found).

Lemma answer_length version close : (length (rsp_dump (answer version close)) <= 1000)%nat.
Proof.
  unfold rsp_dump, version_text. rewrite !length_app.
  pose proof (length_print_dec (Z.shiftr version 4)). pose proof (length_print_dec (Z.land version 15)).
  cbn [answer r_version]. change (length (lit "HTTP/")) with 5%nat. change (length (lit ".")) with 1%nat.
  match goal with |- (_ + ?n <= _)%nat => assert (Hn : (n <= 800)%nat); [|lia] end.
  apply Nat.leb_le. destruct close; vm_compute; reflexivity.
Qed.

Lemma plain_answering keepalive : answering no_match (plain_server keepalive).
Proof.
  intros req s. exists req, (answer (m_version req) (m_close req || negb keepalive)).
  split; [destruct keepalive; vm_compute; reflexivity|].
  split; [done|]. split; [done|]. pose proof (answer_length (m_version req) (m_close req || negb keepalive)). lia.
Qed.

Lemma client_served_witness :
  let s := mkSS (Some (mkSock 3 2 1 0 true None None)) true (lit "/x", []) : SocketStream (str * str) in
  exists s', handleClient no_match 3 3 (fun _ => lit "........") (plain_server true) s = (Ok tt, s') /\ ss_connected s' = false.
Proof.
  intros s. apply (client_served no_match 3 3 (fun _ => lit "........") (plain_server true) s).
  - apply plain_answering.
  - discriminate.
  - vm_compute. lia.
  - vm_compute. lia.
Defined.
