(* ===== verification/LogFormat.v ===== *)
(** * Log levels, events and patterns: src/src/log/LogLevel.cc, Logger.cc (LogEvent,
    LogFormatter) and include/CommonFormatItem.h

    What [LogFormatter::init] makes of a pattern, position by position as the code reads it,
    and the text each item gives for an event.  The message it prints about a bad pattern is
    left out. *)

From S2P Require Import Prelude.
#[local] Set Default Goal Selector "!".

(** ** Levels *)

Inductive Level := UNKNOW | DEBUG | INFO | WARN | ERROR | FATAL.

#[export] Instance Level_eq_dec : EqDecision Level.
Proof. solve_decision. Defined.

Definition level_num (l : Level) : Z :=
  match l with UNKNOW => 0 | DEBUG => 1 | INFO => 2 | WARN => 3 | ERROR => 4 | FATAL => 5 end.

(** [a >= b] on levels. *)
Definition level_ge (a b : Level) : bool := level_num b <=? level_num a.

Definition Level_ToString (l : Level) : str :=
  match l with
  | DEBUG => lit "DEBUG"
  | INFO => lit "INFO"
  | WARN => lit "WARN"
  | ERROR => lit "ERROR"
  | FATAL => lit "FATAL"
  | UNKNOW => lit "UNKNOW"
  end.

Definition level_names : list (Level * str) :=
  [(DEBUG, lit "debug"); (INFO, lit "info"); (WARN, lit "warn"); (ERROR, lit "error"); (FATAL, lit "fatal");
   (DEBUG, lit "DEBUG"); (INFO, lit "INFO"); (WARN, lit "WARN"); (ERROR, lit "ERROR"); (FATAL, lit "FATAL")].

Fixpoint named_level (s : str) (l : list (Level * str)) : Level :=
  match l with
  | [] => UNKNOW
  | (level, v) :: l => if bool_decide (s = v) then level else named_level s l
  end.

Definition Level_FromString (s : str) : Level := named_level s level_names.

(** ** Events *)

(** [ev_logger] is the address of a logger, [ev_ss] what the stream holds. *)
Record LogEvent := mkEvent {
  ev_file : str;
  ev_line : Z;
  ev_elapse : Z;
  ev_threadId : Z;
  ev_fiberId : Z;
  ev_time : Z;
  ev_threadName : str;
  ev_ss : str;
  ev_logger : nat;
  ev_level : Level
}.

Definition new_LogEvent (logger : nat) (level : Level) (file : str) (line elapse threadId fiberId time : Z)
    (threadName : str) : LogEvent :=
  mkEvent file line elapse threadId fiberId time threadName [] logger level.

Definition ev_append (s : str) (e : LogEvent) : LogEvent :=
  mkEvent (ev_file e) (ev_line e) (ev_elapse e) (ev_threadId e) (ev_fiberId e) (ev_time e) (ev_threadName e)
    (ev_ss e ++ s) (ev_logger e) (ev_level e).

(** [format], from what [vasprintf] makes: nothing when it fails. *)
Definition LogEvent_format (printed : option str) (e : LogEvent) : LogEvent :=
  match printed with Some s => ev_append s e | None => e end.

(** ** Items *)

Inductive FormatItem :=
| MessageFormatItem
| LevelFormatItem
| ElapseFormatItem
| NameFormatItem
| ThreadIdFormatItem
| NewLineFormatItem
| DateTimeFormatItem (m_format : str)
| FilenameFormatItem
| LineFormatItem
| TabFormatItem
| FiberIdFormatItem
| ThreadNameFormatItem
| StringFormatItem (m_string : str).

#[export] Instance FormatItem_eq_dec : EqDecision FormatItem.
Proof. solve_decision. Defined.

Definition default_time : str := lit "%Y-%m-%d %H:%M:%S".

Definition new_DateTime (format : str) : FormatItem :=
  DateTimeFormatItem (if bool_decide (format = []) then default_time else format).

Definition esc (code : str) : str := x1b :: "["%byte :: code ++ lit "m".

(** [colorConsolePairVec]. *)
Definition color (l : Level) : str * str :=
  match l with
  | UNKNOW => ([], [])
  | DEBUG => (esc (lit "34"), esc (lit "0"))
  | INFO => (esc (lit "32"), esc (lit "0"))
  | WARN => (esc (lit "33"), esc (lit "0"))
  | ERROR => (esc (lit "31"), esc (lit "0"))
  | FATAL => (esc (lit "35"), esc (lit "0"))
  end.

Section format.
(** What [strftime] leaves, up to its NUL, in the 64 bytes it is given, for a format and a
    time; [name] is that of the event's logger. *)
Context (strftime : str -> Z -> str) (name : str).

Definition item_text (i : FormatItem) (level : Level) (e : LogEvent) : str :=
  match i with
  | MessageFormatItem => ev_ss e
  | LevelFormatItem => Level_ToString level
  | ElapseFormatItem => print_dec (ev_elapse e)
  | NameFormatItem => name
  | ThreadIdFormatItem => print_dec (ev_threadId e)
  | NewLineFormatItem => [x0a]
  | DateTimeFormatItem m_format => strftime (c_str m_format) (ev_time e)
  | FilenameFormatItem => c_str (ev_file e)
  | LineFormatItem => print_dec (ev_line e)
  | TabFormatItem => [x09]
  | FiberIdFormatItem => print_dec (ev_fiberId e)
  | ThreadNameFormatItem => ev_threadName e
  | StringFormatItem m_string => m_string
  end.

Definition format_item (i : FormatItem) (level : Level) (e : LogEvent) : str :=
  fst (color level) ++ item_text i level e ++ snd (color level).
End format.

(** ** Patterns *)

(** [isalpha] in the C locale. *)
Definition isalpha (c : byte) : bool :=
  (65 <=? b2z c) && (b2z c <=? 90) || (97 <=? b2z c) && (b2z c <=? 122).

(** [substr(pos, n)]. *)
Abbreviation substr := slice.

Section init.
Context (m_pattern : str).

(** The [while] loop on a specifier at [i]: [rest] is the pattern from [n] on; the result is
    [str], [fmt], whether [fmtStatus] is 1, and [n]. *)
Fixpoint spec_loop (rest : str) (i n : nat) (fmtStatus : bool) (fmtBegin : nat) (s : str) : str * str * bool * nat :=
  match rest with
  | [] => (s, [], fmtStatus, n)
  | c :: rest =>
      if negb fmtStatus && (negb (isalpha c) && negb (bool_decide (c = "{"%byte)) && negb (bool_decide (c = "}"%byte)))
      then (substr (i + 1) (n - i - 1) m_pattern, [], fmtStatus, n)
      else if negb fmtStatus && bool_decide (c = "{"%byte)
      then spec_loop rest i (S n) true n (substr (i + 1) (n - i - 1) m_pattern)
      else if fmtStatus && bool_decide (c = "}"%byte)
      then (s, substr (fmtBegin + 1) (n - fmtBegin - 1) m_pattern, false, S n)
      else
        let n := S n in
        let s := if (n =? length m_pattern)%nat && bool_decide (s = []) then drop (i + 1) m_pattern else s in
        spec_loop rest i n fmtStatus fmtBegin s
  end.

(** An entry of [vec]: the third component is whether the type is 1. *)
Abbreviation entry := (str * str * bool)%type.

(** The [for] loop from [i] on; [vec] is in order. *)
Fixpoint pattern_loop (fuel i : nat) (nstr : str) (vec : list entry) (m_error : bool) : str * list entry * bool :=
  match fuel with
  | O => (nstr, vec, m_error)
  | S fuel =>
      match m_pattern !! i with
      | None => (nstr, vec, m_error)
      | Some c =>
          if negb (bool_decide (c = "%"%byte)) then pattern_loop fuel (S i) (nstr ++ [c]) vec m_error
          else if bool_decide (m_pattern !! S i = Some "%"%byte) then pattern_loop fuel (S i) (nstr ++ ["%"%byte]) vec m_error
          else
            let '(s, fmt, fmtStatus, n) := spec_loop (drop (S i) m_pattern) i (S i) false 0 [] in
            if fmtStatus then pattern_loop fuel (S i) nstr (vec ++ [(lit "<<pattern_error>>", fmt, false)]) true
            else
              let vec := if bool_decide (nstr = []) then vec else vec ++ [(nstr, [], false)] in
              pattern_loop fuel n [] (vec ++ [(s, fmt, true)]) m_error
      end
  end.

(** Each turn passes at least one byte. *)
Definition pattern_entries : list entry * bool :=
  let '(nstr, vec, m_error) := pattern_loop (S (length m_pattern)) 0 [] [] false in
  (if bool_decide (nstr = []) then vec else vec ++ [(nstr, [], false)], m_error).
End init.

(** [s_format_items]. *)
Definition format_items (s fmt : str) : option FormatItem :=
  if bool_decide (s = lit "m") then Some MessageFormatItem
  else if bool_decide (s = lit "p") then Some LevelFormatItem
  else if bool_decide (s = lit "r") then Some ElapseFormatItem
  else if bool_decide (s = lit "c") then Some NameFormatItem
  else if bool_decide (s = lit "t") then Some ThreadIdFormatItem
  else if bool_decide (s = lit "n") then Some NewLineFormatItem
  else if bool_decide (s = lit "d") then Some (new_DateTime fmt)
  else if bool_decide (s = lit "f") then Some FilenameFormatItem
  else if bool_decide (s = lit "l") then Some LineFormatItem
  else if bool_decide (s = lit "T") then Some TabFormatItem
  else if bool_decide (s = lit "F") then Some FiberIdFormatItem
  else if bool_decide (s = lit "N") then Some ThreadNameFormatItem
  else None.

(** The item of an entry, and whether it is an error. *)
Definition entry_item (e : str * str * bool) : FormatItem * bool :=
  let '(s, fmt, spec) := e in
  if negb spec then (StringFormatItem s, false)
  else match format_items s fmt with
       | Some i => (i, false)
       | None => (StringFormatItem (lit "<<error_format %" ++ s ++ lit ">>"), true)
       end.

Record LogFormatter := mkFormatter { fm_pattern : str; fm_items : list FormatItem; fm_error : bool }.

#[export] Instance LogFormatter_eq_dec : EqDecision LogFormatter.
Proof. solve_decision. Defined.

(** The constructor, which runs [init]. *)
Definition new_LogFormatter (pattern : str) : LogFormatter :=
  let '(vec, m_error) := pattern_entries pattern in
  mkFormatter pattern (fst ∘ entry_item <$> vec) (m_error || existsb (snd ∘ entry_item) vec).

(** [format]: what it puts on the stream, or returns. *)
Definition format (strftime : str -> Z -> str) (name : str) (f : LogFormatter) (level : Level) (e : LogEvent) : str :=
  concat ((fun i => format_item strftime name i level e) <$> fm_items f).
