(* ===== verification/LogFormatTheorems.v ===== *)
(** * Log patterns: the properties *)

From S2P Require Import Prelude LogFormat.
#[local] Set Default Goal Selector "!".

(** What a pattern is made of: text, and specifiers with or without a format in braces. *)
Inductive token := PText (s : str) | PSpec (name : str) (fmt : option str).

Definition print_token (t : token) : str :=
  match t with
  | PText s => s
  | PSpec name None => "%"%byte :: name
  | PSpec name (Some fmt) => "%"%byte :: name ++ "{"%byte :: fmt ++ ["}"%byte]
  end.
Definition print_pattern (l : list token) : str := concat (print_token <$> l).

Definition token_entry (t : token) : str * str * bool :=
  match t with PText s => (s, [], false) | PSpec name fmt => (name, default [] fmt, true) end.

(** What may come right after a name: nothing the loop takes for a part of it. *)
Definition ends_name (s : str) : bool :=
  match s with
  | [] => true
  | c :: _ => negb (isalpha c) && negb (bool_decide (c = "{"%byte)) && negb (bool_decide (c = "}"%byte))
  end.

Fixpoint good_pattern (l : list token) : bool :=
  match l with
  | [] => true
  | PText s :: l =>
      negb (bool_decide (s = [])) && forallb (fun c => negb (bool_decide (c = "%"%byte))) s &&
      match l with PText _ :: _ => false | _ => true end && good_pattern l
  | PSpec name None :: l =>
      negb (bool_decide (name = [])) && forallb isalpha name && ends_name (print_pattern l) && good_pattern l
  | PSpec name (Some fmt) :: l =>
      negb (bool_decide (name = [])) && forallb isalpha name &&
      forallb (fun c => negb (bool_decide (c = "}"%byte))) fmt && good_pattern l
  end.

Lemma alpha_plain c : isalpha c = true -> c <> "{"%byte /\ c <> "}"%byte /\ c <> "%"%byte.
Proof. intros Hc. split_and!; intros ->; discriminate Hc. Qed.

Section spec.
Context (pre name tail : str).
Abbreviation pattern := (pre ++ "%"%byte :: name ++ tail).

Lemma spec_text : drop (length pre + 1) pattern = name ++ tail.
Proof. rewrite Nat.add_1_r. apply drop_past. Qed.

Lemma spec_name_slice : slice (length pre + 1) (length name) pattern = name.
Proof. unfold slice. rewrite spec_text. apply take_app_length. Qed.

(** The letters of the name are passed; at the end of the pattern the name is what was passed. *)
Lemma spec_loop_name a b :
  name = a ++ b -> forallb isalpha b = true -> a ++ b <> [] ->
  spec_loop pattern (b ++ tail) (length pre) (length pre + 1 + length a) false 0 [] =
  match tail with
  | [] => if bool_decide (b = []) then ([], [], false, length pattern) else (name, [], false, length pattern)
  | _ :: _ => spec_loop pattern tail (length pre) (length pre + 1 + length name) false 0 []
  end.
Proof.
  intros Hn Hb Hne. subst name. revert a Hne Hb. induction b as [|c b IH]; intros a Hne Hb.
  - rewrite app_nil_r in *. rewrite bool_decide_true by done. cbn [app]. destruct tail as [|d tl] eqn:Et; [|done].
    cbn [spec_loop]. f_equal. rewrite length_app. cbn [length]. rewrite app_nil_r. lia.
  - cbn [forallb] in Hb. apply andb_prop in Hb as [Hc Hb]. destruct (alpha_plain c Hc) as (H1 & H2 & _).
    cbn [app spec_loop]. rewrite Hc. cbn [negb andb].
    rewrite (bool_decide_false (c = "{"%byte)) by done. cbn [andb].
    specialize (IH (a ++ [c])). rewrite <- app_assoc in IH. cbn [app] in IH.
    rewrite length_app in IH. cbn [length] in IH.
    replace (length pre + 1 + (length a + 1))%nat with (S (length pre + 1 + length a)) in IH by lia.
    set (pat := pre ++ "%"%byte :: (a ++ c :: b) ++ tail) in *.
    destruct (Nat.eqb_spec (S (length pre + 1 + length a)) (length pat)) as [He|He]; cbn [andb].
    + assert (b = [] /\ tail = []) as [-> Ht].
      { unfold pat in He. rewrite length_app in He. cbn [length] in He. rewrite !length_app in He. cbn [length] in He.
        destruct b; [|simpl in He; lia]. destruct tail; [done|simpl in He; lia]. }
      rewrite Ht in *. cbn [app spec_loop]. rewrite bool_decide_true, bool_decide_false by done.
      rewrite He. unfold pat. by rewrite Nat.add_1_r, drop_past, Ht, app_nil_r.
    + rewrite IH by (done || by destruct a). destruct tail; [|done].
      destruct b; [|done]. exfalso. apply He. unfold pat. rewrite length_app. cbn [length]. rewrite !length_app. cbn [length]. lia.
Qed.

Lemma spec_loop_start :
  name <> [] -> forallb isalpha name = true ->
  spec_loop pattern (name ++ tail) (length pre) (length pre + 1) false 0 [] =
  match tail with
  | [] => (name, [], false, length pattern)
  | _ :: _ => spec_loop pattern tail (length pre) (length pre + 1 + length name) false 0 []
  end.
Proof.
  intros Hne Ha. pose proof (spec_loop_name [] name eq_refl Ha Hne) as H.
  cbn [length] in H. rewrite Nat.add_0_r in H. rewrite H. destruct tail; [|done]. by rewrite bool_decide_false.
Qed.

Lemma spec_loop_plain :
  name <> [] -> forallb isalpha name = true -> ends_name tail = true ->
  spec_loop pattern (name ++ tail) (length pre) (length pre + 1) false 0 [] =
    (name, [], false, (length pre + 1 + length name)%nat).
Proof.
  intros Hne Ha Ht. rewrite spec_loop_start by done. destruct tail as [|c tl] eqn:Et.
  - f_equal. rewrite length_app. cbn [length]. rewrite length_app. simpl. lia.
  - cbn [spec_loop negb andb]. cbn [ends_name] in Ht. rewrite Ht.
    replace (length pre + 1 + length name - length pre - 1)%nat with (length name) by lia.
    rewrite <- Et. by rewrite spec_name_slice.
Qed.
End spec.

(** The format: everything up to the first closing brace. *)
Lemma spec_loop_fmt pat i n fmtBegin s a b tail :
  s <> [] -> forallb (fun c => negb (bool_decide (c = "}"%byte))) b = true ->
  slice (fmtBegin + 1) (length (a ++ b)) pat = a ++ b -> n = (fmtBegin + 1 + length a)%nat ->
  spec_loop pat (b ++ "}"%byte :: tail) i n true fmtBegin s =
    (s, a ++ b, false, (fmtBegin + 1 + length (a ++ b) + 1)%nat).
Proof.
  intros Hs. revert a n. induction b as [|c b IH]; intros a n Hb Hsl Hn.
  - cbn [app spec_loop negb andb]. rewrite bool_decide_true by done. rewrite app_nil_r in *.
    replace (n - fmtBegin - 1)%nat with (length a) by lia. rewrite Hsl. f_equal. lia.
  - cbn [forallb] in Hb. apply andb_prop in Hb as [Hc Hb]. apply negb_true_iff in Hc.
    cbn [app spec_loop negb andb]. rewrite Hc. rewrite (bool_decide_false (s = [])) by done. rewrite andb_false_r.
    rewrite (IH (a ++ [c])); [by rewrite <- app_assoc|done|by rewrite <- app_assoc|].
    rewrite length_app. simpl. lia.
Qed.

Lemma spec_loop_braces pre name fmt tail :
  name <> [] -> forallb isalpha name = true -> forallb (fun c => negb (bool_decide (c = "}"%byte))) fmt = true ->
  spec_loop (pre ++ "%"%byte :: name ++ "{"%byte :: fmt ++ "}"%byte :: tail) (name ++ "{"%byte :: fmt ++ "}"%byte :: tail)
    (length pre) (length pre + 1) false 0 [] =
    (name, fmt, false, (length pre + length name + length fmt + 3)%nat).
Proof.
  intros Hne Ha Hf. rewrite spec_loop_start by done.
  change (spec_loop ?p ("{"%byte :: ?r) ?i ?n false 0 []) with
    (spec_loop p r i (S n) true n (substr (i + 1) (n - i - 1) p)).
  replace (length pre + 1 + length name - length pre - 1)%nat with (length name) by lia.
  rewrite spec_name_slice. rewrite (spec_loop_fmt _ _ _ _ _ [] fmt tail); [|done|done| |simpl; lia].
  - f_equal. simpl. lia.
  - cbn [app]. unfold slice.
    replace (length pre + 1 + length name + 1)%nat with (length (pre ++ "%"%byte :: name) + 1)%nat
      by (rewrite length_app; simpl; lia).
    replace (pre ++ "%"%byte :: name ++ "{"%byte :: fmt ++ "}"%byte :: tail)
      with ((pre ++ "%"%byte :: name) ++ "{"%byte :: fmt ++ "}"%byte :: tail) by (by rewrite <- app_assoc).
    rewrite Nat.add_1_r, drop_past. apply take_app_length.
Qed.

(** ** The outer loop *)

Lemma loop_text pre s rest fuel nstr vec e :
  forallb (fun c => negb (bool_decide (c = "%"%byte))) s = true ->
  pattern_loop (pre ++ s ++ rest) (length s + fuel) (length pre) nstr vec e =
  pattern_loop (pre ++ s ++ rest) fuel (length (pre ++ s)) (nstr ++ s) vec e.
Proof.
  revert pre nstr. induction s as [|c s IH]; intros pre nstr Hs; [by rewrite !app_nil_r|].
  cbn [forallb] in Hs. apply andb_prop in Hs as [Hc Hs]. cbn [app length Nat.add pattern_loop].
  rewrite list_lookup_middle by done. rewrite Hc.
  specialize (IH (pre ++ [c]) (nstr ++ [c]) Hs). rewrite <- !app_assoc in IH. cbn [app] in IH.
  rewrite length_app in IH. cbn [length] in IH. rewrite Nat.add_1_r in IH. by rewrite IH.
Qed.

(** One specifier, when what follows it is not a percent sign. *)
Lemma loop_spec pre name tail fuel nstr vec e s fmt n :
  name <> [] -> forallb isalpha name = true ->
  spec_loop (pre ++ "%"%byte :: name ++ tail) (name ++ tail) (length pre) (length pre + 1) false 0 [] = (s, fmt, false, n) ->
  pattern_loop (pre ++ "%"%byte :: name ++ tail) (S fuel) (length pre) nstr vec e =
  pattern_loop (pre ++ "%"%byte :: name ++ tail) fuel n []
    ((if bool_decide (nstr = []) then vec else vec ++ [(nstr, [], false)]) ++ [(s, fmt, true)]) e.
Proof.
  intros Hne Ha Hspec. cbn [pattern_loop]. rewrite list_lookup_middle by done.
  rewrite bool_decide_true by done. cbn [negb].
  destruct name as [|c nm]; [done|]. cbn [forallb] in Ha. apply andb_prop in Ha as [Hc _].
  destruct (alpha_plain c Hc) as (_ & _ & H3).
  rewrite bool_decide_false.
  2:{ rewrite lookup_app_r by lia. replace (S (length pre) - length pre)%nat with 1%nat by lia. cbn. congruence. }
  rewrite drop_past, <- Nat.add_1_r. cbn [app] in *. by rewrite Hspec.
Qed.

Definition flush (nstr : str) (vec : list (str * str * bool)) : list (str * str * bool) :=
  if bool_decide (nstr = []) then vec else vec ++ [(nstr, [], false)].

Definition starts_text (l : list token) : bool := match l with PText _ :: _ => true | _ => false end.

Lemma pattern_loop_ok l pre fuel nstr vec :
  good_pattern l = true -> (length (print_pattern l) < fuel)%nat -> (starts_text l = true -> nstr = []) ->
  exists nstr' vec', pattern_loop (pre ++ print_pattern l) fuel (length pre) nstr vec false = (nstr', vec', false) /\
    flush nstr' vec' = flush nstr vec ++ (token_entry <$> l).
Proof.
  revert pre fuel nstr vec. induction l as [|[s|name [fmt|]] l IH]; intros pre fuel nstr vec Hg Hf Hs.
  - exists nstr, vec. destruct fuel; [lia|]. cbn [pattern_loop print_pattern fmap list_fmap concat]. rewrite app_nil_r.
    rewrite lookup_ge_None_2 by lia. split; [done|]. cbn [fmap list_fmap]. by rewrite app_nil_r.
  - cbn [good_pattern] in Hg. apply andb_prop in Hg as [[[Hne Hp]%andb_prop Hl]%andb_prop Hg].
    rewrite (Hs eq_refl) in *. change (print_pattern (PText s :: l)) with (s ++ print_pattern l) in *.
    rewrite length_app in Hf. replace fuel with (length s + (fuel - length s))%nat by lia.
    rewrite loop_text by done. rewrite (app_assoc pre s). cbn [app].
    destruct (IH (pre ++ s) (fuel - length s)%nat s vec) as (nstr' & vec' & Hr & He); [done|lia|by destruct l as [|[]]|].
    exists nstr', vec'. split; [done|]. rewrite He. unfold flush. apply negb_true_iff in Hne.
    rewrite Hne, bool_decide_true by done. rewrite <- app_assoc. done.
  - cbn [good_pattern] in Hg. apply andb_prop in Hg as [[[Hne Ha]%andb_prop Hfm]%andb_prop Hg].
    apply negb_true_iff, bool_decide_eq_false_1 in Hne.
    change (print_pattern (PSpec name (Some fmt) :: l))
      with (("%"%byte :: name ++ "{"%byte :: fmt ++ ["}"%byte]) ++ print_pattern l) in *.
    rewrite length_app in Hf. destruct fuel as [|fuel]; [lia|].
    assert (He : (("%"%byte :: name ++ "{"%byte :: fmt ++ ["}"%byte]) ++ print_pattern l) =
                 "%"%byte :: name ++ "{"%byte :: fmt ++ "}"%byte :: print_pattern l).
    { cbn [app]. rewrite <- !app_assoc. cbn [app]. by rewrite <- app_assoc. }
    rewrite He in *. rewrite (loop_spec _ _ _ _ _ _ _ _ _ _ Hne Ha (spec_loop_braces pre name fmt _ Hne Ha Hfm)).
    destruct (IH (pre ++ "%"%byte :: name ++ "{"%byte :: fmt ++ ["}"%byte]) fuel [] (flush nstr vec ++ [(name, fmt, true)]))
      as (nstr' & vec' & Hr & Hfl); [done|cbn [length] in Hf; lia|done|].
    exists nstr', vec'. rewrite <- app_assoc, He in Hr. split.
    + rewrite <- Hr. f_equal. rewrite length_app. cbn [length]. rewrite !length_app. cbn [length]. rewrite length_app. simpl. lia.
    + rewrite Hfl. unfold flush at 1. rewrite bool_decide_true by done. by rewrite <- app_assoc.
  - cbn [good_pattern] in Hg. apply andb_prop in Hg as [[[Hne Ha]%andb_prop He]%andb_prop Hg].
    apply negb_true_iff, bool_decide_eq_false_1 in Hne.
    change (print_pattern (PSpec name None :: l)) with ("%"%byte :: name ++ print_pattern l) in *.
    destruct fuel as [|fuel]; [lia|]. cbn [length] in Hf. rewrite length_app in Hf.
    rewrite (loop_spec _ _ _ _ _ _ _ _ _ _ Hne Ha (spec_loop_plain pre name _ Hne Ha He)).
    destruct (IH (pre ++ "%"%byte :: name) fuel [] (flush nstr vec ++ [(name, [], true)]))
      as (nstr' & vec' & Hr & Hfl); [done|lia|done|].
    exists nstr', vec'. rewrite <- app_assoc in Hr. cbn [app] in Hr. split.
    + rewrite <- Hr. f_equal. rewrite length_app. simpl. lia.
    + rewrite Hfl. unfold flush at 1. rewrite bool_decide_true by done. by rewrite <- app_assoc.
Qed.

(** ** Any pattern *)

Lemma spec_loop_ge pat rest i n st fb s : (n <= (spec_loop pat rest i n st fb s).2)%nat.
Proof.
  revert n st fb s. induction rest as [|c rest IH]; intros n st fb s; [done|]. cbn [spec_loop].
  repeat match goal with |- context [if ?b then _ else _] => destruct b end; simpl; try lia;
    (etransitivity; [|apply IH]); lia.
Qed.

Lemma pattern_loop_fuel pat fuel fuel' i nstr vec e :
  (length pat < fuel + i)%nat -> (length pat < fuel' + i)%nat ->
  pattern_loop pat fuel i nstr vec e = pattern_loop pat fuel' i nstr vec e.
Proof.
  revert fuel' i nstr vec e. induction fuel as [|fuel IH]; intros [|fuel'] i nstr vec e Hf Hf'; [done| | |].
  1-2: cbn [pattern_loop]; by rewrite lookup_ge_None_2 by lia.
  cbn [pattern_loop]. destruct (pat !! i) as [c|] eqn:Ec; [|done]. apply lookup_lt_Some in Ec.
  case_bool_decide; [|apply IH; lia]. cbn [negb]. case_bool_decide; [apply IH; lia|].
  pose proof (spec_loop_ge pat (drop (S i) pat) i (S i) false 0 []) as Hn.
  destruct (spec_loop pat (drop (S i) pat) i (S i) false 0 []) as [[[s fmt] st] n]. cbn [snd] in Hn.
  destruct st; apply IH; lia.
Qed.

Definition known_name (name : str) : bool := bool_decide (is_Some (format_items name [])).

Definition token_item (t : token) : FormatItem :=
  match t with PText s => StringFormatItem s | PSpec name fmt => default TabFormatItem (format_items name (default [] fmt)) end.

Definition token_known (t : token) : bool := match t with PText _ => true | PSpec name _ => known_name name end.

Lemma known_any name fmt : known_name name = true -> exists i, format_items name fmt = Some i.
Proof.
  unfold known_name, format_items. intros [i Hi]%bool_decide_eq_true. revert Hi.
  repeat case_bool_decide; try done; intros; by eexists.
Qed.

Lemma entries_known l :
  forallb token_known l = true ->
  fst ∘ entry_item <$> (token_entry <$> l) = token_item <$> l /\ existsb (snd ∘ entry_item) (token_entry <$> l) = false.
Proof.
  induction l as [|t l IH]; [done|]. cbn [forallb]. intros [Ht Hl]%andb_prop. destruct (IH Hl) as [H1 H2].
  cbn [fmap list_fmap existsb]. rewrite H1, H2. destruct t as [s|name fmt]; [done|].
  destruct (known_any name (default [] fmt) Ht) as [i Hi]. unfold compose, token_entry, entry_item. cbn [negb].
  rewrite Hi. split; [|done]. cbn [fst]. f_equal. unfold token_item. by rewrite Hi.
Qed.

(** C35: Reading a pattern gives back what it was written from: texts and specifiers, with or without a
    format in braces, in order, none lost and none merged, provided a name without a format is not
    followed by a letter or a brace; and when the names are known, formatting an event is the texts of
    its parts one after the other.  Reading ends for any pattern.  A doubled percent sign is not an escape, though
    meant as one: after the sign it gives, the second still starts a specifier. *)
Theorem pattern_roundtrip l strftime name level e :
  good_pattern l = true ->
  pattern_entries (print_pattern l) = (token_entry <$> l, false) /\
  (forallb token_known l = true ->
     fm_error (new_LogFormatter (print_pattern l)) = false /\
     format strftime name (new_LogFormatter (print_pattern l)) level e =
       concat ((fun t => format_item strftime name (token_item t) level e) <$> l)) /\
  (forall pattern fuel, (length pattern < fuel)%nat ->
     pattern_loop pattern fuel 0 [] [] false = pattern_loop pattern (S (length pattern)) 0 [] [] false) /\
  fm_items (new_LogFormatter (lit "100%%")) = [StringFormatItem (lit "100%"); StringFormatItem (lit "<<error_format %>>")] /\
  fm_error (new_LogFormatter (lit "100%%")) = true.
Proof.
  intros Hg.
  assert (He : pattern_entries (print_pattern l) = (token_entry <$> l, false)).
  { unfold pattern_entries.
    destruct (pattern_loop_ok l [] (S (length (print_pattern l))) [] [] Hg) as (nstr & vec & Hr & Hf); [lia|done|].
    cbn [app length] in Hr. rewrite Hr. unfold flush in Hf. by rewrite Hf. }
  split_and!; [done| |intros; apply pattern_loop_fuel; lia|reflexivity..].
  intros Hk. destruct (entries_known l Hk) as [H1 H2]. unfold new_LogFormatter. rewrite He, H1, H2.
  split; [done|]. unfold format. cbn [fm_items]. by rewrite <- list_fmap_compose.
Qed.

(** The default pattern of a logger. *)
Lemma pattern_roundtrip_witness :
  let l := [PSpec (lit "d") (Some (lit "%H:%M")); PSpec (lit "T") None; PText (lit "["); PSpec (lit "p") None;
            PText (lit "] => "); PSpec (lit "m") None; PSpec (lit "n") None] in
  print_pattern l = lit "%d{%H:%M}%T[%p] => %m%n" /\
  fm_error (new_LogFormatter (lit "%d{%H:%M}%T[%p] => %m%n")) = false /\
  fm_items (new_LogFormatter (lit "%d{%H:%M}%T[%p] => %m%n")) =
    [DateTimeFormatItem (lit "%H:%M"); TabFormatItem; StringFormatItem (lit "["); LevelFormatItem;
     StringFormatItem (lit "] => "); MessageFormatItem; NewLineFormatItem].
Proof.
  intros l. split; [reflexivity|].
  destruct (pattern_roundtrip l (fun _ _ => []) [] INFO (new_LogEvent 0 INFO [] 0 0 0 0 0 []) ltac:(reflexivity)) as (_ & H & _).
  split; [exact (proj1 (H eq_refl))|reflexivity].
Defined.
