(* ===== verification/Log.v ===== *)
(** * Loggers and appenders: src/src/log/Logger.cc, LoggerManager.cc, StdoutLogAppender.cc,
    FileLogAppender.cc

    Loggers and appenders are shared objects, in two heaps; formatters do not change once
    made and are values.  The standard output is the text put on it; a file appender has a
    stream, whose writes reach the file at once.  Each operation holds the mutexes for its
    whole effect, and none takes one it holds. *)

From S2P Require Import Prelude Utils LogFormat.
#[local] Set Default Goal Selector "!".

Inductive Target :=
| Stdout
| File (m_filename : str) (m_filestream : ofstream) (m_lastTime : Z).

Record LogAppender := mkAppender {
  ap_target : Target;
  ap_level : Level;
  ap_hasFormatter : bool;
  ap_formatter : option LogFormatter
}.

Record Logger := mkLogger {
  lg_name : str;
  lg_level : Level;
  lg_appenders : list nat;
  lg_formatter : option LogFormatter;
  lg_root : option nat
}.

Definition default_pattern : str := lit "%d{%Y-%m-%d %H:%M:%S}%T%t%T%N%T%F%T[%p]%T[%c]%T%f:%l => %m%n".

Definition new_Logger (name : str) : Logger := mkLogger name DEBUG [] (Some (new_LogFormatter default_pattern)) None.

Definition set_target (t : Target) (a : LogAppender) : LogAppender :=
  mkAppender t (ap_level a) (ap_hasFormatter a) (ap_formatter a).
Definition set_formatter (f : option LogFormatter) (a : LogAppender) : LogAppender :=
  mkAppender (ap_target a) (ap_level a) (ap_hasFormatter a) f.
Definition set_appenders (l : list nat) (g : Logger) : Logger :=
  mkLogger (lg_name g) (lg_level g) l (lg_formatter g) (lg_root g).

(** The program's logging: the loggers by name and the root of the manager, the heaps, and
    what is outside. *)
Record LogState (FS : Type) := mkLog {
  loggers : gmap nat Logger;
  appenders : gmap nat LogAppender;
  m_loggers : gmap str nat;
  m_root : nat;
  out : str;                        (** what is on the standard output *)
  files : FS
}.
Arguments mkLog {FS}.
Arguments loggers {FS}.
Arguments appenders {FS}.
Arguments m_loggers {FS}.
Arguments m_root {FS}.
Arguments out {FS}.
Arguments files {FS}.

Section Log.
Context {FS : Type} (os : FileSystem FS).
(** Writing to an open file, at its end: whether it succeeds. *)
Context (fs_append : str -> str -> FS -> bool * FS) (strftime : str -> Z -> str).

Abbreviation LS := (M (LogState FS)).

Definition set_logger (l : nat) (g : Logger) (w : LogState FS) : LogState FS :=
  mkLog (<[l := g]> (loggers w)) (appenders w) (m_loggers w) (m_root w) (out w) (files w).
Definition set_appender (p : nat) (a : LogAppender) (w : LogState FS) : LogState FS :=
  mkLog (loggers w) (<[p := a]> (appenders w)) (m_loggers w) (m_root w) (out w) (files w).
Definition set_out (s : str) (w : LogState FS) : LogState FS :=
  mkLog (loggers w) (appenders w) (m_loggers w) (m_root w) s (files w).
Definition set_files (fs : FS) (w : LogState FS) : LogState FS :=
  mkLog (loggers w) (appenders w) (m_loggers w) (m_root w) (out w) fs.
Definition set_names (m : gmap str nat) (w : LogState FS) : LogState FS :=
  mkLog (loggers w) (appenders w) m (m_root w) (out w) (files w).

Definition deref {A} (o : option A) : LS A := match o with Some a => mret a | None => crashed NullDeref end.
Definition the_logger (l : nat) : LS Logger := w ← get; deref (loggers w !! l).
Definition the_appender (p : nat) : LS LogAppender := w ← get; deref (appenders w !! p).

(** ** Appenders *)

Definition LogAppender_setFormatter (p : nat) (val : option LogFormatter) : LS unit :=
  a ← the_appender p;
  modify (set_appender p (mkAppender (ap_target a) (ap_level a) (bool_decide (is_Some val)) val)).
Definition LogAppender_getFormatter (p : nat) : LS (option LogFormatter) := a ← the_appender p; mret (ap_formatter a).
Definition LogAppender_setLevel (p : nat) (val : Level) : LS unit :=
  a ← the_appender p;
  modify (set_appender p (mkAppender (ap_target a) val (ap_hasFormatter a) (ap_formatter a))).

(** [FileLogAppender::reopen]: a stream that is not in error is closed first; closing one
    that is not open puts it in error. *)
Definition reopen_stream (filename : str) : M (ofstream * FS) bool :=
  '(ofs, _) ← get;
  (if good ofs then modify (fun s => (mkOfs false (is_open ofs), snd s)) else mret tt) ;;
  OpenForWrite os filename.

Definition run_files {A} (o : ofstream) (m : M (ofstream * FS) A) : LS (A * ofstream) :=
  fun w => match m (o, files w) with
           | (Ok a, (o, fs)) => (Ok (a, o), set_files fs w)
           | (Throw e, (_, fs)) => (Throw e, set_files fs w)
           | (Crash c, (_, fs)) => (Crash c, set_files fs w)
           end.

Definition reopen (p : nat) : LS bool :=
  a ← the_appender p;
  match ap_target a with
  | Stdout => mret false
  | File filename ofs lastTime =>
      '(r, ofs) ← run_files ofs (reopen_stream filename);
      modify (set_appender p (set_target (File filename ofs lastTime) a)) ;;
      mret r
  end.

(** [format] into the file stream, an item at a time: nothing once it is in error. *)
Fixpoint put_items (filename : str) (items : list str) (ofs : ofstream) (fs : FS) : ofstream * FS :=
  match items with
  | [] => (ofs, fs)
  | s :: items =>
      if good ofs then
        let '(ok, fs) := (if is_open ofs then fs_append filename s fs else (false, fs)) in
        put_items filename items (mkOfs (is_open ofs) ok) fs
      else (ofs, fs)
  end.

(** [log] of the two kinds of appender. *)
Definition LogAppender_log (p : nat) (level : Level) (e : LogEvent) : LS unit :=
  a ← the_appender p;
  if negb (level_ge level (ap_level a)) then mret tt else
  match ap_target a with
  | Stdout =>
      g ← the_logger (ev_logger e);
      f ← deref (ap_formatter a);
      modify (fun w => set_out (out w ++ format strftime (lg_name g) f level e) w)
  | File filename _ lastTime =>
      let now := ev_time e in
      (if u64 (lastTime + 3) <=? now then
         reopen p ;;
         a ← the_appender p;
         match ap_target a with
         | File filename ofs _ => modify (set_appender p (set_target (File filename ofs now) a))
         | Stdout => mret tt
         end
       else mret tt) ;;
      a ← the_appender p;
      g ← the_logger (ev_logger e);
      f ← deref (ap_formatter a);
      match ap_target a with
      | File filename ofs lastTime =>
          w ← get;
          let '(ofs, fs) := put_items filename ((fun i => format_item strftime (lg_name g) i level e) <$> fm_items f)
                              ofs (files w) in
          modify (set_files fs) ;;
          modify (set_appender p (set_target (File filename ofs lastTime) a)) ;;
          when (negb (good ofs)) (modify (fun w => set_out (out w ++ lit "error" ++ [x0a]) w))
      | Stdout => mret tt
      end
  end.

(** A new appender at a fresh address. *)
Definition alloc_appender (t : Target) : LS nat :=
  w ← get;
  let p := fresh (dom (appenders w)) in
  modify (set_appender p (mkAppender t DEBUG false None)) ;;
  mret p.
Definition new_StdoutLogAppender : LS nat := alloc_appender Stdout.
Definition new_FileLogAppender (filename : str) : LS nat :=
  p ← alloc_appender (File filename (mkOfs false true) 0);
  reopen p ;;
  mret p.

(** ** Loggers *)

Definition Logger_setLevel (l : nat) (val : Level) : LS unit :=
  g ← the_logger l;
  modify (set_logger l (mkLogger (lg_name g) val (lg_appenders g) (lg_formatter g) (lg_root g))).
Definition Logger_getFormatter (l : nat) : LS (option LogFormatter) := g ← the_logger l; mret (lg_formatter g).

Fixpoint share_formatter (val : option LogFormatter) (ps : list nat) : LS unit :=
  match ps with
  | [] => mret tt
  | p :: ps =>
      a ← the_appender p;
      when (negb (ap_hasFormatter a)) (modify (set_appender p (set_formatter val a))) ;;
      share_formatter val ps
  end.

Definition Logger_setFormatter (l : nat) (val : option LogFormatter) : LS unit :=
  g ← the_logger l;
  modify (set_logger l (mkLogger (lg_name g) (lg_level g) (lg_appenders g) val (lg_root g))) ;;
  share_formatter val (lg_appenders g).

(** From a pattern: a bad one changes nothing. *)
Definition Logger_setPattern (l : nat) (val : str) : LS unit :=
  let newVal := new_LogFormatter val in
  if fm_error newVal then mret tt else Logger_setFormatter l (Some newVal).

Definition addAppender (l p : nat) : LS unit :=
  g ← the_logger l;
  a ← the_appender p;
  when (negb (bool_decide (is_Some (ap_formatter a)))) (modify (set_appender p (set_formatter (lg_formatter g) a))) ;;
  modify (set_logger l (set_appenders (lg_appenders g ++ [p]) g)).

(** The loop of [delAppender]: the first occurrence is erased. *)
Fixpoint erase_first (p : nat) (l : list nat) : list nat :=
  match l with
  | [] => []
  | q :: l => if (q =? p)%nat then l else q :: erase_first p l
  end.

Definition delAppender (l p : nat) : LS unit :=
  g ← the_logger l;
  modify (set_logger l (set_appenders (erase_first p (lg_appenders g)) g)).

Definition clearAppenders (l : nat) : LS unit :=
  g ← the_logger l;
  modify (set_logger l (set_appenders [] g)).

Fixpoint log_all (ps : list nat) (level : Level) (e : LogEvent) : LS unit :=
  match ps with
  | [] => mret tt
  | p :: ps => LogAppender_log p level e ;; log_all ps level e
  end.

(** The recursion goes along [m_root]. *)
Fixpoint Logger_log (fuel l : nat) (level : Level) (e : LogEvent) : LS unit :=
  match fuel with
  | O => crashed OutOfFuel
  | S fuel =>
      g ← the_logger l;
      if negb (level_ge level (lg_level g)) then mret tt
      else match lg_appenders g with
           | _ :: _ => log_all (lg_appenders g) level e
           | [] => match lg_root g with Some r => Logger_log fuel r level e | None => mret tt end
           end
  end.

(** A logger made by the manager is the root or one below it. *)
Definition log_fuel : nat := 2.

Definition Logger_debug (l : nat) (e : LogEvent) : LS unit := Logger_log log_fuel l DEBUG e.
Definition Logger_info (l : nat) (e : LogEvent) : LS unit := Logger_log log_fuel l INFO e.
Definition Logger_warn (l : nat) (e : LogEvent) : LS unit := Logger_log log_fuel l WARN e.
Definition Logger_error (l : nat) (e : LogEvent) : LS unit := Logger_log log_fuel l ERROR e.
Definition Logger_fatal (l : nat) (e : LogEvent) : LS unit := Logger_log log_fuel l FATAL e.

(** The destructor of [LogEventWrap]. *)
Definition LogEventWrap_destroy (e : LogEvent) : LS unit := Logger_log log_fuel (ev_logger e) (ev_level e) e.

(** The macro [PHASE0_LOG_LEVEL]: [text] is what the statement puts on the stream of the
    event, which is logged when it is destroyed. *)
Definition LOG_LEVEL (l : nat) (level : Level) (file : str) (line threadId fiberId time : Z) (threadName text : str)
    : LS unit :=
  g ← the_logger l;
  if level_ge level (lg_level g) then
    let e := ev_append text (new_LogEvent l level file line 0 threadId fiberId time threadName) in
    LogEventWrap_destroy e
  else mret tt.

(** ** The manager *)

Definition getLogger (name : str) : LS nat :=
  w ← get;
  match m_loggers w !! name with
  | Some l => mret l
  | None =>
      let l := fresh (dom (loggers w)) in
      let g := new_Logger name in
      modify (set_logger l (mkLogger (lg_name g) (lg_level g) (lg_appenders g) (lg_formatter g) (Some (m_root w)))) ;;
      modify (set_names (<[name := l]> (m_loggers w))) ;;
      mret l
  end.
End Log.

(** The constructor of [LoggerManager]: the root logger has the address 0. *)
Definition new_LoggerManager {FS} (fs : FS) : res unit * LogState FS :=
  let w := mkLog {[0%nat := new_Logger (lit "root")]} ∅ ∅ 0 [] fs in
  (p ← new_StdoutLogAppender;
   addAppender 0 p ;;
   g ← the_logger 0;
   modify (set_names {[lg_name g := 0%nat]})) w.
