(* ===== verification/LogTheorems.v ===== *)
(** * Logging: the properties *)

From S2P Require Import Prelude Utils UtilsTheorems LogFormat Log.
#[local] Set Default Goal Selector "!".

Section Log.
Context {FS : Type} (os : FileSystem FS) (fs_append : str -> str -> FS -> bool * FS) (strftime : str -> Z -> str).
Implicit Types (w : LogState FS) (a : LogAppender) (g : Logger).

(** ** The state *)

Definition good_target (t : Target) : Prop := match t with Stdout => True | File filename _ _ => x00 ∉ filename end.

(** Every appender of a logger is there and can format; the root of a logger is the
    manager's, which has none; names are those of the table. *)
Record wf w : Prop := {
  wf_targets p a : appenders w !! p = Some a -> good_target (ap_target a);
  wf_formatters l g : loggers w !! l = Some g -> is_Some (lg_formatter g);
  wf_appenders l g p : loggers w !! l = Some g -> p ∈ lg_appenders g ->
    exists a, appenders w !! p = Some a /\ is_Some (ap_formatter a);
  wf_roots l g : loggers w !! l = Some g -> lg_root g = None \/ lg_root g = Some (m_root w);
  wf_root : exists g, loggers w !! m_root w = Some g /\ lg_root g = None;
  wf_names name l : m_loggers w !! name = Some l -> exists g, loggers w !! l = Some g /\ lg_name g = name
}.

(** What one appender does changes its own stream, the files and the output. *)
Definition stream_change (a a' : LogAppender) : Prop :=
  ap_level a' = ap_level a /\ ap_hasFormatter a' = ap_hasFormatter a /\ ap_formatter a' = ap_formatter a /\
  match ap_target a, ap_target a' with
  | Stdout, Stdout => True
  | File f _ _, File f' _ _ => f = f'
  | _, _ => False
  end.

Lemma stream_refl a : stream_change a a.
Proof. split_and!; [done..|]. by destruct (ap_target a). Qed.

Lemma stream_trans a1 a2 a3 : stream_change a1 a2 -> stream_change a2 a3 -> stream_change a1 a3.
Proof.
  intros (H1 & H2 & H3 & H4) (H5 & H6 & H7 & H8). split_and!; try congruence.
  destruct (ap_target a1), (ap_target a2), (ap_target a3); try done. congruence.
Qed.

Definition frame w w' : Prop :=
  loggers w' = loggers w /\ m_loggers w' = m_loggers w /\ m_root w' = m_root w /\
  forall p, match appenders w !! p with
            | Some a => exists a', appenders w' !! p = Some a' /\ stream_change a a'
            | None => appenders w' !! p = None
            end.

Lemma frame_refl w : frame w w.
Proof.
  split_and!; [done..|]. intros p. destruct (appenders w !! p) as [a|]; [|done]. exists a. split; [done|apply stream_refl].
Qed.

Lemma frame_trans w1 w2 w3 : frame w1 w2 -> frame w2 w3 -> frame w1 w3.
Proof.
  intros (H1 & H2 & H3 & H4) (H5 & H6 & H7 & H8). split_and!; [congruence..|]. intros p.
  specialize (H4 p). specialize (H8 p). destruct (appenders w1 !! p) as [a|].
  - destruct H4 as (a' & E & Ha). rewrite E in H8. destruct H8 as (a'' & E' & Ha'). exists a''. split; [done|].
    by eapply stream_trans.
  - by rewrite H4 in H8.
Qed.

Lemma frame_wf w w' : frame w w' -> wf w -> wf w'.
Proof.
  intros (H1 & H2 & H3 & H4) Hw. split.
  - intros p a' Ha'. specialize (H4 p). destruct (appenders w !! p) as [a|] eqn:E; [|congruence].
    destruct H4 as (a'' & E' & _ & _ & _ & Ht). rewrite Ha' in E'. injection E' as <-. pose proof (wf_targets w Hw p a E) as Hg.
    destruct (ap_target a), (ap_target a'); try done. simpl in *. by subst.
  - rewrite H1. apply (wf_formatters w Hw).
  - rewrite H1. intros l g p Hl Hp. destruct (wf_appenders w Hw l g p Hl Hp) as (a & Ea & Hf).
    specialize (H4 p). rewrite Ea in H4. destruct H4 as (a' & E' & _ & _ & Hf' & _). exists a'. by rewrite Hf'.
  - rewrite H1, H3. apply (wf_roots w Hw).
  - rewrite H1, H3. apply (wf_root w Hw).
  - rewrite H1, H2. apply (wf_names w Hw).
Qed.

(** Storing the new stream of an appender is such a change, whatever else happens outside. *)
Lemma frame_target w p a t s fs :
  appenders w !! p = Some a -> stream_change a (set_target t a) ->
  frame w (set_out s (set_files fs (set_appender p (set_target t a) w))).
Proof.
  intros Ha Ht. split_and!; [done..|]. intros q. cbn. destruct (decide (q = p)) as [->|Hq].
  - rewrite Ha, lookup_insert_eq. by eexists.
  - rewrite lookup_insert_ne by done. destruct (appenders w !! q) as [b|]; [|done]. exists b. split; [done|apply stream_refl].
Qed.

(** ** Running *)

Lemma the_appender_run p a w : appenders w !! p = Some a -> the_appender p w = (Ok a, w).
Proof. intros Ha. unfold the_appender. rewrite (bind_ok get _ w w w) by done. by rewrite Ha. Qed.

Lemma the_logger_run l g w : loggers w !! l = Some g -> the_logger l w = (Ok g, w).
Proof. intros Hg. unfold the_logger. rewrite (bind_ok get _ w w w) by done. by rewrite Hg. Qed.

(** The stream after [reopen]: unless it is stuck, open and in error, it is open and good or
    closed and in error. *)
Lemma reopen_stream_run filename o fs :
  x00 ∉ filename ->
  (is_open o = true -> good o = false ->
     reopen_stream os filename (o, fs) = (Ok true, (mkOfs true false, fs))) /\
  (is_open o = false \/ good o = true ->
     exists r fs', reopen_stream os filename (o, fs) = (Ok r, (mkOfs r r, fs')) /\
       OpenForWrite os filename (mkOfs false (is_open o), fs) = (Ok r, (mkOfs r r, fs'))).
Proof.
  intros Hf. unfold reopen_stream. rewrite (bind_ok get _ _ (o, fs) (o, fs)) by done.
  destruct o as [op gd]. cbn [is_open good]. split.
  - intros -> ->. rewrite (bind_ok (mret tt) _ _ tt (mkOfs true false, fs)) by done.
    by destruct (OpenForWrite_returns os filename false fs Hf) as (_ & H & _).
  - intros Ho. destruct gd.
    + rewrite (bind_ok (modify _) _ _ tt (mkOfs false op, fs)) by done.
      destruct (OpenForWrite_returns os filename op fs Hf) as ((r & fs' & H) & _). by exists r, fs'.
    + destruct op; [by destruct Ho|]. rewrite (bind_ok (mret tt) _ _ tt (mkOfs false false, fs)) by done.
      destruct (OpenForWrite_returns os filename false fs Hf) as ((r & fs' & H) & _). by exists r, fs'.
Qed.

Lemma reopen_stream_returns filename o fs :
  x00 ∉ filename -> exists r o' fs', reopen_stream os filename (o, fs) = (Ok r, (o', fs')).
Proof.
  intros Hf. destruct (reopen_stream_run filename o fs Hf) as [H1 H2]. destruct (is_open o) eqn:E1.
  - destruct (good o) eqn:E2.
    + destruct H2 as (r & fs' & H & _); [by right|]. by eexists _, _, _.
    + rewrite H1 by done. by eexists _, _, _.
  - destruct H2 as (r & fs' & H & _); [by left|]. by eexists _, _, _.
Qed.

Lemma reopen_run p a filename o t w r o' fs' :
  appenders w !! p = Some a -> ap_target a = File filename o t ->
  reopen_stream os filename (o, files w) = (Ok r, (o', fs')) ->
  reopen os p w = (Ok r, set_files fs' (set_appender p (set_target (File filename o' t) a) w)).
Proof.
  intros Ha Ht Hr. unfold reopen. rewrite (bind_ok _ _ _ _ _ (the_appender_run p a w Ha)). rewrite Ht.
  rewrite (bind_ok (run_files _ _) _ _ (r, o') (set_files fs' w)); [done|]. unfold run_files. by rewrite Hr.
Qed.

(** What the reopening step of [log] leaves. *)
Definition reopens (now t : Z) : bool := u64 (t + 3) <=? now.

Definition texts (f : LogFormatter) (name : str) (level : Level) (e : LogEvent) : list str :=
  (fun i => format_item strftime name i level e) <$> fm_items f.

(** [log] on a file: the stream and time after the possible reopening, then the items, then
    the complaint. *)
Lemma file_log_run p a filename o t w level e g f o1 t1 fs1 :
  appenders w !! p = Some a -> ap_target a = File filename o t -> level_ge level (ap_level a) = true ->
  loggers w !! ev_logger e = Some g -> ap_formatter a = Some f ->
  (if reopens (ev_time e) t
   then exists r, reopen_stream os filename (o, files w) = (Ok r, (o1, fs1)) /\ t1 = ev_time e
   else o1 = o /\ t1 = t /\ fs1 = files w) ->
  let '(o2, fs2) := put_items fs_append filename (texts f (lg_name g) level e) o1 fs1 in
  LogAppender_log os fs_append strftime p level e w =
    (Ok tt, set_out (if good o2 then out w else out w ++ lit "error" ++ [x0a])
              (set_files fs2 (set_appender p (set_target (File filename o2 t1) a) w))).
Proof.
  intros Ha Ht Hl Hg Hf Hre. destruct (put_items fs_append filename _ o1 fs1) as [o2 fs2] eqn:Eput.
  unfold LogAppender_log. rewrite (bind_ok _ _ _ _ _ (the_appender_run p a w Ha)). rewrite Hl, Ht. cbn [negb].
  set (w1 := set_files fs1 (set_appender p (set_target (File filename o1 t1) a) w)).
  assert (Hid : set_files (files w) (set_appender p a w) = w).
  { destruct w. unfold set_files, set_appender. cbn in *. by rewrite insert_id. }
  rewrite (bind_ok _ _ w tt w1).
  2:{ unfold reopens in Hre. destruct (u64 (t + 3) <=? ev_time e).
      - destruct Hre as (r & Hr & ->).
        rewrite (bind_ok _ _ _ _ _ (reopen_run p a filename o t w r o1 fs1 Ha Ht Hr)).
        set (a1 := set_target (File filename o1 t) a). set (w0 := set_files fs1 (set_appender p a1 w)).
        rewrite (bind_ok _ _ w0 a1 w0) by (apply the_appender_run; apply lookup_insert_eq).
        cbn [a1 ap_target set_target]. unfold modify, w1, w0, set_appender, set_files. cbn [loggers appenders m_loggers m_root out files].
        by rewrite insert_insert_eq.
      - destruct Hre as (-> & -> & ->). unfold w1, mret, M_ret. do 2 f_equal. rewrite <- Ht.
        replace (set_target (ap_target a) a) with a by (by destruct a). by rewrite Hid. }
  set (a1 := set_target (File filename o1 t1) a).
  rewrite (bind_ok _ _ w1 a1 w1) by (apply the_appender_run; apply lookup_insert_eq).
  rewrite (bind_ok _ _ w1 g w1) by (by apply the_logger_run).
  rewrite (bind_ok _ _ w1 f w1) by (cbn [ap_formatter a1 set_target]; by rewrite Hf).
  cbn [a1 ap_target set_target]. rewrite (bind_ok get _ w1 w1 w1) by done.
  change (files w1) with fs1. unfold texts in Eput. rewrite Eput.
  unfold modify, when, mbind, M_bind, mret, M_ret, w1, set_appender, set_files, set_out.
  cbn [loggers appenders m_loggers m_root out files]. rewrite insert_insert_eq. by destruct (good o2).
Qed.

Lemma stdout_log_run p a w level e g f :
  appenders w !! p = Some a -> ap_target a = Stdout -> level_ge level (ap_level a) = true ->
  loggers w !! ev_logger e = Some g -> ap_formatter a = Some f ->
  LogAppender_log os fs_append strftime p level e w =
    (Ok tt, set_out (out w ++ format strftime (lg_name g) f level e) w).
Proof.
  intros Ha Ht Hl Hg Hf. unfold LogAppender_log. rewrite (bind_ok _ _ _ _ _ (the_appender_run p a w Ha)).
  rewrite Hl, Ht. cbn [negb]. rewrite (bind_ok _ _ _ _ _ (the_logger_run _ g w Hg)).
  by rewrite (bind_ok _ _ w f w) by (by rewrite Hf).
Qed.

Lemma quiet_log_run p a w level e :
  appenders w !! p = Some a -> level_ge level (ap_level a) = false ->
  LogAppender_log os fs_append strftime p level e w = (Ok tt, w).
Proof.
  intros Ha Hl. unfold LogAppender_log. rewrite (bind_ok _ _ _ _ _ (the_appender_run p a w Ha)). by rewrite Hl.
Qed.

Lemma frame_out w s : frame w (set_out s w).
Proof. destruct (frame_refl w) as (H1 & H2 & H3 & H4). by split_and!. Qed.

(** An appender of a logger always returns, and leaves the rest alone. *)
Lemma appender_log_keeps p a w level e :
  appenders w !! p = Some a -> is_Some (ap_formatter a) -> good_target (ap_target a) ->
  is_Some (loggers w !! ev_logger e) ->
  exists w', LogAppender_log os fs_append strftime p level e w = (Ok tt, w') /\ frame w w'.
Proof.
  intros Ha [f Hf] Ht [g Hg]. destruct (level_ge level (ap_level a)) eqn:Hl.
  2:{ rewrite (quiet_log_run p a) by done. eexists. split; [done|apply frame_refl]. }
  destruct (ap_target a) as [|filename o t] eqn:Et.
  - rewrite (stdout_log_run p a w level e g f) by done. eexists. split; [done|apply frame_out].
  - assert (Hre : exists o1 t1 fs1, if reopens (ev_time e) t
      then exists r, reopen_stream os filename (o, files w) = (Ok r, (o1, fs1)) /\ t1 = ev_time e
      else o1 = o /\ t1 = t /\ fs1 = files w).
    { destruct (reopens (ev_time e) t); [|by eexists _, _, _].
      destruct (reopen_stream_returns filename o (files w) Ht) as (r & o1 & fs1 & Hr). exists o1, (ev_time e), fs1. by exists r. }
    destruct Hre as (o1 & t1 & fs1 & Hre).
    pose proof (file_log_run p a filename o t w level e g f o1 t1 fs1 Ha Et Hl Hg Hf Hre) as Hrun.
    destruct (put_items _ _ _ o1 fs1) as [o2 fs2]. rewrite Hrun. eexists. split; [done|].
    apply frame_target; [done|]. split_and!; try done. by rewrite Et.
Qed.

Lemma log_all_keeps ps w level e :
  wf w -> (forall p, p ∈ ps -> exists a, appenders w !! p = Some a /\ is_Some (ap_formatter a)) ->
  is_Some (loggers w !! ev_logger e) ->
  exists w', log_all os fs_append strftime ps level e w = (Ok tt, w') /\ frame w w'.
Proof.
  revert w. induction ps as [|p ps IH]; intros w Hw Hps Hev; [exists w; split; [done|apply frame_refl]|].
  destruct (Hps p ltac:(left)) as (a & Ha & Hf). cbn [log_all].
  destruct (appender_log_keeps p a w level e Ha Hf (wf_targets w Hw p a Ha) Hev) as (w1 & Hrun & Hfr).
  rewrite (bind_ok _ _ _ _ _ Hrun). destruct (IH w1) as (w2 & Hrun2 & Hfr2).
  - by eapply frame_wf.
  - intros q Hq. destruct (Hps q ltac:(by right)) as (b & Hb & Hbf). destruct Hfr as (_ & _ & _ & Hap).
    specialize (Hap q). rewrite Hb in Hap. destruct Hap as (b' & Hb' & _ & _ & Hf' & _). exists b'. by rewrite Hf'.
  - destruct Hfr as (-> & _). done.
  - exists w2. split; [done|]. by eapply frame_trans.
Qed.

Lemma Logger_log_keeps l w level e :
  wf w -> is_Some (loggers w !! l) -> is_Some (loggers w !! ev_logger e) ->
  exists w', Logger_log os fs_append strftime log_fuel l level e w = (Ok tt, w') /\ frame w w'.
Proof.
  intros Hw [g Hg] Hev. unfold log_fuel. cbn [Logger_log]. rewrite (bind_ok _ _ _ _ _ (the_logger_run l g w Hg)).
  destruct (level_ge level (lg_level g)); cbn [negb]; [|exists w; split; [done|apply frame_refl]].
  destruct (lg_appenders g) as [|p ps] eqn:Eps.
  2:{ rewrite <- Eps. apply log_all_keeps; [done| |done]. intros q Hq. by apply (wf_appenders w Hw l g q). }
  destruct (wf_roots w Hw l g Hg) as [->| ->]; [exists w; split; [done|apply frame_refl]|].
  destruct (wf_root w Hw) as (r & Hr & Hnone). rewrite (bind_ok _ _ _ _ _ (the_logger_run _ r w Hr)).
  destruct (level_ge level (lg_level r)); cbn [negb]; [|exists w; split; [done|apply frame_refl]].
  destruct (lg_appenders r) as [|p ps] eqn:Er; [rewrite Hnone; exists w; split; [done|apply frame_refl]|].
  rewrite <- Er. apply log_all_keeps; [done| |done]. intros q Hq. by apply (wf_appenders w Hw (m_root w) r q).
Qed.

(** ** Every use of the program's logging *)

Inductive log_op :=
| NewStdout
| NewFile (filename : str)
| AddAppender (l p : nat)
| DelAppender (l p : nat)
| ClearAppenders (l : nat)
| SetLevel (l : nat) (level : Level)
| AppenderSetLevel (p : nat) (level : Level)
| SetFormatter (l : nat) (f : LogFormatter)
| SetPattern (l : nat) (pattern : str)
| AppenderSetFormatter (p : nat) (f : LogFormatter)
| GetLogger (name : str)
| LogStatement (l : nat) (level : Level) (file : str) (line threadId fiberId time : Z) (threadName text : str).

Definition run_op (op : log_op) : M (LogState FS) unit :=
  match op with
  | NewStdout => new_StdoutLogAppender ;; mret tt
  | NewFile filename => new_FileLogAppender os filename ;; mret tt
  | AddAppender l p => addAppender l p
  | DelAppender l p => delAppender l p
  | ClearAppenders l => clearAppenders l
  | SetLevel l level => Logger_setLevel l level
  | AppenderSetLevel p level => LogAppender_setLevel p level
  | SetFormatter l f => Logger_setFormatter l (Some f)
  | SetPattern l pattern => Logger_setPattern l pattern
  | AppenderSetFormatter p f => LogAppender_setFormatter p (Some f)
  | GetLogger name => getLogger name ;; mret tt
  | LogStatement l level file line threadId fiberId time threadName text =>
      LOG_LEVEL os fs_append strftime l level file line threadId fiberId time threadName text
  end.

(** The loggers and appenders are those the program was given, the names those the system
    takes. *)
Definition valid_op w (op : log_op) : Prop :=
  match op with
  | NewFile filename => x00 ∉ filename
  | AddAppender l p => is_Some (loggers w !! l) /\ is_Some (appenders w !! p)
  | DelAppender l _ | ClearAppenders l | SetLevel l _ | SetFormatter l _ | SetPattern l _
  | LogStatement l _ _ _ _ _ _ _ _ => is_Some (loggers w !! l)
  | AppenderSetLevel p _ | AppenderSetFormatter p _ => is_Some (appenders w !! p)
  | NewStdout | GetLogger _ => True
  end.

Inductive log_reachable : LogState FS -> Prop :=
| log_start fs w : new_LoggerManager fs = (Ok tt, w) -> log_reachable w
| log_step w op w' : log_reachable w -> valid_op w op -> run_op op w = (Ok tt, w') -> log_reachable w'.

(** An appender is replaced by one that can format, if it could. *)
Lemma set_appender_wf p a a' w :
  wf w -> appenders w !! p = Some a -> good_target (ap_target a') ->
  (is_Some (ap_formatter a) -> is_Some (ap_formatter a')) -> wf (set_appender p a' w).
Proof.
  intros Hw Ha Ht Hf. destruct Hw as [H1 H2 H3 H4 H5 H6]. split; try done; cbn.
  - intros q b. rewrite lookup_insert_Some. intros [[-> <-]|[_ Hb]]; [done|by eapply H1].
  - intros l g q Hl Hq. destruct (H3 l g q Hl Hq) as (b & Hb & Hbf). destruct (decide (q = p)) as [->|Hne].
    + exists a'. rewrite lookup_insert_eq. split; [done|]. apply Hf. by simplify_eq.
    + exists b. by rewrite lookup_insert_ne.
Qed.

Lemma new_appender_wf p a w : wf w -> appenders w !! p = None -> good_target (ap_target a) -> wf (set_appender p a w).
Proof.
  intros Hw Hp Ht. destruct Hw as [H1 H2 H3 H4 H5 H6]. split; try done; cbn.
  - intros q b. rewrite lookup_insert_Some. intros [[-> <-]|[_ Hb]]; [done|by eapply H1].
  - intros l g q Hl Hq. destruct (H3 l g q Hl Hq) as (b & Hb & Hbf). exists b.
    rewrite lookup_insert_ne; [done|]. intros ->. congruence.
Qed.

(** A logger is replaced by one of the same name and root. *)
Lemma set_logger_wf l g g' w :
  wf w -> loggers w !! l = Some g -> lg_name g' = lg_name g -> lg_root g' = lg_root g -> is_Some (lg_formatter g') ->
  (forall p, p ∈ lg_appenders g' -> exists a, appenders w !! p = Some a /\ is_Some (ap_formatter a)) ->
  wf (set_logger l g' w).
Proof.
  intros Hw Hl Hn Hr Hf Hps. destruct Hw as [H1 H2 H3 H4 H5 H6]. split; try done; cbn.
  - intros l' g1. rewrite lookup_insert_Some. intros [[-> <-]|[_ Hg]]; [done|by eapply H2].
  - intros l' g1 p. rewrite lookup_insert_Some. intros [[-> <-]|[_ Hg]]; [by apply Hps|by eapply H3].
  - intros l' g1. rewrite lookup_insert_Some. intros [[-> <-]|[_ Hg]]; [rewrite Hr; by eapply H4|by eapply H4].
  - destruct H5 as (g0 & Hg0 & Hnone). destruct (decide (m_root w = l)) as [He|Hne].
    + exists g'. rewrite He, lookup_insert_eq. split; [done|]. rewrite Hr. rewrite He in Hg0. by simplify_eq.
    + exists g0. by rewrite lookup_insert_ne.
  - intros name l' Hname. destruct (H6 name l' Hname) as (g1 & Hg1 & Hg1n). destruct (decide (l' = l)) as [->|Hne].
    + exists g'. rewrite lookup_insert_eq. split; [done|]. simplify_eq. congruence.
    + exists g1. by rewrite lookup_insert_ne.
Qed.

Lemma share_formatter_ok f ps w :
  wf w -> (forall p, p ∈ ps -> is_Some (appenders w !! p)) ->
  exists w', share_formatter (Some f) ps w = (Ok tt, w') /\ wf w' /\ loggers w' = loggers w /\
    forall p, is_Some (appenders w !! p) -> is_Some (appenders w' !! p).
Proof.
  revert w. induction ps as [|p ps IH]; intros w Hw Hps; [by exists w|]. cbn [share_formatter].
  destruct (Hps p ltac:(left)) as [a Ha]. rewrite (bind_ok _ _ _ _ _ (the_appender_run p a w Ha)).
  destruct (ap_hasFormatter a); cbn [negb when].
  - rewrite (bind_ok (mret tt) _ w tt w) by done. apply IH; [done|]. intros q Hq. apply Hps. by right.
  - set (w1 := set_appender p (set_formatter (Some f) a) w). rewrite (bind_ok (modify _) _ w tt w1) by done.
    assert (Hdom : forall q, is_Some (appenders w !! q) -> is_Some (appenders w1 !! q)).
    { intros q Hq. cbn. apply lookup_insert_is_Some. destruct (decide (p = q)); [by left|by right]. }
    destruct (IH w1) as (w2 & Hrun & Hw2 & Hlg & Hd).
    + apply (set_appender_wf p a); [done|done|apply (wf_targets w Hw p a Ha)|by eexists].
    + intros q Hq. apply Hdom, Hps. by right.
    + exists w2. split_and!; try done. intros q Hq. by apply Hd, Hdom.
Qed.

Lemma set_formatter_ok l f w :
  wf w -> is_Some (loggers w !! l) -> exists w', Logger_setFormatter l (Some f) w = (Ok tt, w') /\ wf w'.
Proof.
  intros Hw [g Hg]. unfold Logger_setFormatter. rewrite (bind_ok _ _ _ _ _ (the_logger_run l g w Hg)).
  set (g' := mkLogger _ _ _ _ _). rewrite (bind_ok (modify _) _ w tt (set_logger l g' w)) by done.
  destruct (share_formatter_ok f (lg_appenders g) (set_logger l g' w)) as (w' & Hrun & Hw' & _).
  - apply (set_logger_wf l g); try done. intros p Hp. by apply (wf_appenders w Hw l g p).
  - intros p Hp. destruct (wf_appenders w Hw l g p Hg Hp) as (a & Ha & _). by exists a.
  - by exists w'.
Qed.

Lemma add_appender_ok l p w :
  wf w -> is_Some (loggers w !! l) -> is_Some (appenders w !! p) ->
  exists w', addAppender l p w = (Ok tt, w') /\ wf w'.
Proof.
  intros Hw [g Hg] [a Ha]. unfold addAppender. rewrite (bind_ok _ _ _ _ _ (the_logger_run l g w Hg)).
  rewrite (bind_ok _ _ _ _ _ (the_appender_run p a w Ha)).
  assert (Hgood : forall w1 a1, wf w1 -> loggers w1 = loggers w -> appenders w1 !! p = Some a1 -> is_Some (ap_formatter a1) ->
    wf (set_logger l (set_appenders (lg_appenders g ++ [p]) g) w1)).
  { intros w1 a1 Hw1 Hl1 Ha1 Hf1. rewrite <- Hl1 in Hg. apply (set_logger_wf l g); try done; [by apply (wf_formatters w1 Hw1 l g)|].
    cbn [lg_appenders set_appenders]. intros q [Hq| ->%list_elem_of_singleton]%elem_of_app; [by apply (wf_appenders w1 Hw1 l g q)|by exists a1]. }
  case_bool_decide as Hf; cbn [negb when].
  - rewrite (bind_ok (mret tt) _ w tt w) by done. eexists. split; [done|]. by apply (Hgood w a).
  - set (w1 := set_appender p (set_formatter (lg_formatter g) a) w).
    rewrite (bind_ok (modify _) _ w tt w1) by done. eexists. split; [done|].
    apply (Hgood w1 (set_formatter (lg_formatter g) a)); [|done|apply lookup_insert_eq|by apply (wf_formatters w Hw l g)].
    apply (set_appender_wf p a); [done|done|apply (wf_targets w Hw p a Ha)|done].
Qed.

Lemma alloc_appender_ok t w :
  wf w -> good_target t -> exists p w', alloc_appender t w = (Ok p, w') /\ wf w' /\
    appenders w' !! p = Some (mkAppender t DEBUG false None).
Proof.
  intros Hw Ht. set (p := fresh (dom (appenders w))). exists p, (set_appender p (mkAppender t DEBUG false None) w). split; [done|]. split.
  - apply new_appender_wf; [done| |done]. apply not_elem_of_dom, is_fresh.
  - apply lookup_insert_eq.
Qed.

Lemma getLogger_ok name w :
  wf w -> exists l w' g, getLogger name w = (Ok l, w') /\ wf w' /\
    m_loggers w' !! name = Some l /\ loggers w' !! l = Some g /\ lg_name g = name /\
    (m_loggers w !! name = Some l /\ w' = w \/ m_loggers w !! name = None /\ lg_root g = Some (m_root w)).
Proof.
  intros Hw. unfold getLogger. rewrite (bind_ok get _ w w w) by done. destruct (m_loggers w !! name) as [l|] eqn:En.
  - destruct (wf_names w Hw name l En) as (g & Hg & Hn). exists l, w, g. split_and!; try done. by left.
  - set (l := fresh (dom (loggers w))). set (g := mkLogger name DEBUG [] (Some (new_LogFormatter default_pattern)) (Some (m_root w))).
    assert (Hl : loggers w !! l = None) by apply not_elem_of_dom, is_fresh.
    exists l, (set_names (<[name := l]> (m_loggers w)) (set_logger l g w)), g. split; [done|]. split.
    + destruct Hw as [H1 H2 H3 H4 H5 H6]. split; cbn; try done.
      * intros l' g1. rewrite lookup_insert_Some. intros [[-> <-]|[_ ?]]; [by eexists|by eapply H2].
      * intros l' g1 p. rewrite lookup_insert_Some. intros [[-> <-]|[_ ?]]; [intros Hp; by apply elem_of_nil in Hp|by eapply H3].
      * intros l' g1. rewrite lookup_insert_Some. intros [[-> <-]|[_ ?]]; [by right|by eapply H4].
      * destruct H5 as (g0 & Hg0 & Hr). exists g0. rewrite lookup_insert_ne; [done|]. intros He. congruence.
      * intros nm l'. rewrite lookup_insert_Some. intros [[<- <-]|[_ Hnm]].
        -- exists g. by rewrite lookup_insert_eq.
        -- destruct (H6 nm l' Hnm) as (g1 & Hg1 & Hn1). exists g1. rewrite lookup_insert_ne; [done|]. intros He. congruence.
    + cbn. rewrite !lookup_insert_eq. split_and!; try done. by right.
Qed.

Lemma erase_first_sub p l : erase_first p l ⊆ l.
Proof. induction l as [|q l IH]; [done|]. cbn [erase_first]. destruct (q =? p)%nat; set_solver. Qed.

Lemma run_log_op_ok op w : wf w -> valid_op w op -> exists w', run_op op w = (Ok tt, w') /\ wf w'.
Proof.
  intros Hw Hv. destruct op as [|filename|l p|l p|l|l level|p level|l f|l pattern|p f|name|l level file line tid fid tm tn text];
    cbn [run_op valid_op] in *.
  - destruct (alloc_appender_ok Stdout w Hw I) as (p & w' & Hrun & Hw' & _). rewrite (bind_ok _ _ _ _ _ Hrun). by exists w'.
  - unfold new_FileLogAppender.
    destruct (alloc_appender_ok (File filename (mkOfs false true) 0) w Hw Hv) as (p & w1 & Hrun & Hw1 & Ha).
    destruct (reopen_stream_returns filename (mkOfs false true) (files w1) Hv) as (r & o & fs & Hre).
    pose proof (reopen_run p _ filename _ 0 w1 r o fs Ha eq_refl Hre) as Hreo.
    eexists. rewrite (bind_ok _ _ w p (set_files fs (set_appender p (set_target (File filename o 0) (mkAppender (File filename (mkOfs false true) 0) DEBUG false None)) w1))).
    2:{ rewrite (bind_ok _ _ _ _ _ Hrun). by rewrite (bind_ok _ _ _ _ _ Hreo). }
    split; [done|]. eapply frame_wf; [|exact Hw1].
    apply (frame_target w1 p _ (File filename o 0) (out w1) fs Ha). by split_and!.
  - destruct Hv. by apply add_appender_ok.
  - destruct Hv as [g Hg]. unfold delAppender. rewrite (bind_ok _ _ _ _ _ (the_logger_run l g w Hg)). eexists. split; [done|].
    apply (set_logger_wf l g); try done; [by apply (wf_formatters w Hw l g)|].
    intros q Hq. apply (wf_appenders w Hw l g q Hg). by apply (erase_first_sub p).
  - destruct Hv as [g Hg]. unfold clearAppenders. rewrite (bind_ok _ _ _ _ _ (the_logger_run l g w Hg)). eexists. split; [done|].
    apply (set_logger_wf l g); try done; [by apply (wf_formatters w Hw l g)|]. intros q Hq. by apply elem_of_nil in Hq.
  - destruct Hv as [g Hg]. unfold Logger_setLevel. rewrite (bind_ok _ _ _ _ _ (the_logger_run l g w Hg)). eexists. split; [done|].
    apply (set_logger_wf l g); try done; [by apply (wf_formatters w Hw l g)|]. intros q Hq. by apply (wf_appenders w Hw l g q Hg).
  - destruct Hv as [a Ha]. unfold LogAppender_setLevel. rewrite (bind_ok _ _ _ _ _ (the_appender_run p a w Ha)). eexists.
    split; [done|]. by apply (set_appender_wf p a); [|done|apply (wf_targets w Hw p a Ha)|].
  - by apply set_formatter_ok.
  - unfold Logger_setPattern. destruct (fm_error _); [by exists w|by apply set_formatter_ok].
  - destruct Hv as [a Ha]. unfold LogAppender_setFormatter. rewrite (bind_ok _ _ _ _ _ (the_appender_run p a w Ha)). eexists.
    split; [done|]. apply (set_appender_wf p a); [done|done|apply (wf_targets w Hw p a Ha)|]. intros _. by eexists.
  - destruct (getLogger_ok name w Hw) as (l & w' & g & Hrun & Hw' & _). rewrite (bind_ok _ _ _ _ _ Hrun). by exists w'.
  - destruct Hv as [g Hg]. unfold LOG_LEVEL. rewrite (bind_ok _ _ _ _ _ (the_logger_run l g w Hg)).
    destruct (level_ge level (lg_level g)); [|by exists w]. cbn [ev_logger ev_level new_LogEvent ev_append].
    destruct (Logger_log_keeps l w level (ev_append text (new_LogEvent l level file line 0 tid fid tm tn))) as (w' & Hrun & Hfr);
      [done|by exists g|by exists g|]. exists w'. split; [exact Hrun|]. by eapply frame_wf.
Qed.

Lemma manager_wf fs : exists w, new_LoggerManager fs = (Ok tt, w) /\ wf w.
Proof.
  set (g := set_appenders [0%nat] (new_Logger (lit "root"))).
  set (a := set_formatter (lg_formatter g) (mkAppender Stdout DEBUG false None)).
  exists (mkLog {[0%nat := g]} {[0%nat := a]} {[lit "root" := 0%nat]} 0 [] fs). split; [reflexivity|].
  split; cbn [loggers appenders m_loggers m_root].
  - intros p b [<- <-]%lookup_singleton_Some. done.
  - intros l g' [<- <-]%lookup_singleton_Some. by eexists.
  - intros l g' p [<- <-]%lookup_singleton_Some ->%list_elem_of_singleton. exists a. by rewrite lookup_singleton_eq.
  - intros l g' [<- <-]%lookup_singleton_Some. by left.
  - exists g. by rewrite lookup_singleton_eq.
  - intros name l [<- <-]%lookup_singleton_Some. exists g. by rewrite lookup_singleton_eq.
Qed.

Lemma log_reachable_wf w : log_reachable w -> wf w.
Proof.
  induction 1 as [fs w H|w op w' _ IH Hv H].
  - destruct (manager_wf fs) as (w1 & H1 & Hw1). congruence.
  - destruct (run_log_op_ok op w IH Hv) as (w1 & H1 & Hw1). congruence.
Qed.

(** C27: Whatever a program does with its loggers and appenders, in any order, it never dereferences a null
    pointer and logging returns, the chain of roots being at most one long: every appender of a logger can
    format, and the root of a logger is the manager's.  [getLogger] gives the one logger of a name, the
    same each time, a new one below the root.  But an appender stripped of its formatter stops the
    program at the next event it lets pass. *)
Theorem logging_reachable_safe w :
  log_reachable w ->
  (forall op, valid_op w op -> exists w', run_op op w = (Ok tt, w') /\ log_reachable w') /\
  (forall name, exists l w' g, getLogger name w = (Ok l, w') /\ loggers w' !! l = Some g /\ lg_name g = name /\
     getLogger name w' = (Ok l, w') /\ (m_loggers w !! name = None -> lg_root g = Some (m_root w))) /\
  (forall p a level e, appenders w !! p = Some a -> ap_target a = Stdout -> level_ge level (ap_level a) = true ->
     is_Some (loggers w !! ev_logger e) ->
     fst ((LogAppender_setFormatter p None ;; LogAppender_log os fs_append strftime p level e) w) = Crash NullDeref).
Proof.
  intros Hr. pose proof (log_reachable_wf w Hr) as Hw. split_and!.
  - intros op Hv. destruct (run_log_op_ok op w Hw Hv) as (w' & Hrun & _). exists w'. split; [done|]. by eapply log_step.
  - intros name. destruct (getLogger_ok name w Hw) as (l & w' & g & Hrun & Hw' & Hn & Hg & Hname & Hor).
    exists l, w', g. split_and!; try done.
    + unfold getLogger. rewrite (bind_ok get _ w' w' w') by done. by rewrite Hn.
    + destruct Hor as [[He _]|[_ ?]]; [congruence|done].
  - intros p a level e Ha Ht Hl [g Hg]. set (a' := mkAppender (ap_target a) (ap_level a) false None).
    rewrite (bind_ok _ _ w tt (set_appender p a' w)).
    2:{ unfold LogAppender_setFormatter. by rewrite (bind_ok _ _ _ _ _ (the_appender_run p a w Ha)). }
    unfold LogAppender_log. rewrite (bind_ok _ _ _ a' (set_appender p a' w)) by (apply the_appender_run; apply lookup_insert_eq).
    cbn [a' ap_level ap_target]. rewrite Hl, Ht. cbn [negb].
    by rewrite (bind_ok _ _ _ g (set_appender p a' w)) by (by apply the_logger_run).
Qed.

(** ** What reaches the outputs *)

(** A disk that works: opening for appending keeps the files, and appending adds to one. *)
Definition disk_works (content : FS -> str -> str) : Prop :=
  (forall file fs, exists fs', fs_open os file fs = (true, fs') /\ forall n, content fs' n = content fs n) /\
  (forall file s fs, exists fs', fs_append file s fs = (true, fs') /\
     content fs' file = content fs file ++ s /\ forall n, n <> file -> content fs' n = content fs n).

Definition healthy w : Prop :=
  forall p a file o t, appenders w !! p = Some a -> ap_target a = File file o t -> o = mkOfs true true.

(** The appenders an event passed to a logger goes to, in order. *)
Definition effective w (l : nat) (level : Level) : list nat :=
  match loggers w !! l with
  | None => []
  | Some g =>
      if level_ge level (lg_level g) then
        match lg_appenders g, lg_root g with
        | [], Some r => match loggers w !! r with
                        | Some gr => if level_ge level (lg_level gr) then lg_appenders gr else []
                        | None => []
                        end
        | ps, _ => ps
        end
      else []
  end.

Definition text_of (a : LogAppender) (name : str) (level : Level) (e : LogEvent) : str :=
  match ap_formatter a with
  | Some f => if level_ge level (ap_level a) then format strftime name f level e else []
  | None => []
  end.

(** What an appender puts on the standard output, and in a file. *)
Definition to_stdout w (name : str) (level : Level) (e : LogEvent) (p : nat) : str :=
  match appenders w !! p with
  | Some a => match ap_target a with Stdout => text_of a name level e | File _ _ _ => [] end
  | None => []
  end.
Definition to_file w (file : str) (name : str) (level : Level) (e : LogEvent) (p : nat) : str :=
  match appenders w !! p with
  | Some a => match ap_target a with
              | Stdout => []
              | File file' _ _ => if bool_decide (file' = file) then text_of a name level e else []
              end
  | None => []
  end.

Lemma frame_to w w' name level e :
  frame w w' -> forall p, to_stdout w' name level e p = to_stdout w name level e p /\
    forall file, to_file w' file name level e p = to_file w file name level e p.
Proof.
  intros (_ & _ & _ & Hf) p. unfold to_stdout, to_file. specialize (Hf p).
  destruct (appenders w !! p) as [a|]; [|by rewrite Hf].
  destruct Hf as (a' & -> & Hl & Hh & Hfm & Ht). unfold text_of. rewrite Hl, Hfm.
  destruct (ap_target a), (ap_target a'); try done. subst. done.
Qed.

Section delivery.
Context (content : FS -> str -> str) (Hdisk : disk_works content).

Lemma open_works file b fs :
  exists fs', OpenForWrite os file (mkOfs false b, fs) = (Ok true, (mkOfs true true, fs')) /\
    forall n, content fs' n = content fs n.
Proof.
  destruct Hdisk as [Hopen _]. destruct (Hopen (c_str file) fs) as (fs' & Ho & Hc). exists fs'. split; [|done].
  unfold OpenForWrite. rewrite (bind_ok (open os file) _ _ tt (mkOfs true true, fs')); [done|].
  unfold open. cbn [fst snd is_open]. by rewrite Ho.
Qed.

Lemma put_items_works file ss fs :
  exists fs', put_items fs_append file ss (mkOfs true true) fs = (mkOfs true true, fs') /\
    content fs' file = content fs file ++ concat ss /\ forall n, n <> file -> content fs' n = content fs n.
Proof.
  revert fs. induction ss as [|s ss IH]; intros fs; [exists fs; by rewrite app_nil_r|]. cbn [put_items good is_open].
  destruct (proj2 Hdisk file s fs) as (fs1 & -> & Hc & Ho). destruct (IH fs1) as (fs2 & Hrun & Hc2 & Ho2).
  exists fs2. split_and!; [done| |].
  - cbn [concat]. by rewrite Hc2, Hc, <- app_assoc.
  - intros n Hn. by rewrite Ho2, Ho.
Qed.

Lemma healthy_set p t a w s fs :
  healthy w -> appenders w !! p = Some a ->
  match t with Stdout => True | File _ o _ => o = mkOfs true true end ->
  healthy (set_out s (set_files fs (set_appender p (set_target t a) w))).
Proof.
  intros Hh Ha Ht q b file o tm. cbn. rewrite lookup_insert_Some. intros [[-> <-]|[_ Hb]].
  - cbn. by intros ->.
  - by eapply Hh.
Qed.

Lemma appender_delivers p a w level e g :
  wf w -> healthy w -> appenders w !! p = Some a -> is_Some (ap_formatter a) -> loggers w !! ev_logger e = Some g ->
  exists w', LogAppender_log os fs_append strftime p level e w = (Ok tt, w') /\ frame w w' /\ healthy w' /\
    out w' = out w ++ to_stdout w (lg_name g) level e p /\
    forall file, content (files w') file = content (files w) file ++ to_file w file (lg_name g) level e p.
Proof.
  intros Hw Hh Ha [f Hf] Hg. unfold to_stdout, to_file. rewrite Ha. unfold text_of. rewrite Hf.
  destruct (level_ge level (ap_level a)) eqn:Hl.
  2:{ exists w. rewrite (quiet_log_run p a) by done. split_and!; try done; [apply frame_refl|by destruct (ap_target a); rewrite app_nil_r|].
      intros file. destruct (ap_target a); [|case_bool_decide]; by rewrite app_nil_r. }
  destruct (ap_target a) as [|filename o t] eqn:Et.
  - rewrite (stdout_log_run p a w level e g f) by done. eexists. split; [done|]. split_and!; try done; [apply frame_out|].
    intros file. by rewrite app_nil_r.
  - pose proof (Hh p a filename o t Ha Et) as ->.
    assert (Hre : exists t1 fs1, (if reopens (ev_time e) t
      then exists r, reopen_stream os filename (mkOfs true true, files w) = (Ok r, (mkOfs true true, fs1)) /\ t1 = ev_time e
      else mkOfs true true = mkOfs true true /\ t1 = t /\ fs1 = files w) /\ forall n, content fs1 n = content (files w) n).
    { destruct (reopens (ev_time e) t); [|by exists t, (files w)].
      pose proof (wf_targets w Hw p a Ha) as Hn. rewrite Et in Hn.
      destruct (reopen_stream_run filename (mkOfs true true) (files w) Hn) as [_ H2].
      destruct H2 as (r & fs' & Hr & Ho); [by right|]. destruct (open_works filename true (files w)) as (fs1 & Ho' & Hc).
      cbn [is_open] in Ho. assert (r = true /\ fs1 = fs') as [-> ->] by (split; congruence). exists (ev_time e), fs'. split; [by exists true|done]. }
    destruct Hre as (t1 & fs1 & Hre & Hc1).
    pose proof (file_log_run p a filename (mkOfs true true) t w level e g f (mkOfs true true) t1 fs1 Ha Et Hl Hg Hf Hre) as Hrun.
    destruct (put_items_works filename (texts f (lg_name g) level e) fs1) as (fs2 & Hput & Hc2 & Ho2).
    rewrite Hput in Hrun. cbn [good] in Hrun. rewrite Hrun. eexists. split; [done|]. split_and!.
    + apply frame_target; [done|]. split_and!; try done. by rewrite Et.
    + by apply healthy_set.
    + by rewrite app_nil_r.
    + intros file. cbn. case_bool_decide as Hfile; [subst; by rewrite Hc2, Hc1|rewrite Ho2, Hc1, app_nil_r by done; done].
Qed.

Lemma log_all_delivers ps w level e g :
  wf w -> healthy w -> (forall p, p ∈ ps -> exists a, appenders w !! p = Some a /\ is_Some (ap_formatter a)) ->
  loggers w !! ev_logger e = Some g ->
  exists w', log_all os fs_append strftime ps level e w = (Ok tt, w') /\ frame w w' /\ healthy w' /\
    out w' = out w ++ concat (to_stdout w (lg_name g) level e <$> ps) /\
    forall file, content (files w') file = content (files w) file ++ concat (to_file w file (lg_name g) level e <$> ps).
Proof.
  revert w. induction ps as [|p ps IH]; intros w Hw Hh Hps Hg.
  { exists w. split_and!; try done; [apply frame_refl|by rewrite app_nil_r|]. intros file. by rewrite app_nil_r. }
  destruct (Hps p ltac:(left)) as (a & Ha & Hf). cbn [log_all].
  destruct (appender_delivers p a w level e g Hw Hh Ha Hf Hg) as (w1 & Hrun & Hfr & Hh1 & Ho1 & Hc1).
  rewrite (bind_ok _ _ _ _ _ Hrun). pose proof (frame_to w w1 (lg_name g) level e Hfr) as Hto.
  destruct (IH w1) as (w2 & Hrun2 & Hfr2 & Hh2 & Ho2 & Hc2).
  - by eapply frame_wf.
  - done.
  - intros q Hq. destruct (Hps q ltac:(by right)) as (b & Hb & Hbf). destruct Hfr as (_ & _ & _ & Hap).
    specialize (Hap q). rewrite Hb in Hap. destruct Hap as (b' & Hb' & _ & _ & Hf' & _). exists b'. by rewrite Hf'.
  - destruct Hfr as (-> & _). done.
  - exists w2. split_and!; try done; [by eapply frame_trans| |].
    + rewrite Ho2, Ho1, <- app_assoc. cbn [fmap list_fmap concat]. do 2 f_equal. f_equal. apply list_fmap_ext. intros i q _. apply Hto.
    + intros file. rewrite Hc2, Hc1, <- app_assoc. cbn [fmap list_fmap concat]. do 2 f_equal. f_equal. apply list_fmap_ext.
      intros i q _. apply Hto.
Qed.

(** C26: With files that can be written, an event passed to a logger whose level lets it pass is formatted
    exactly once by each of the logger's appenders whose own level lets it pass, in the order they were
    added, on the standard output or at the end of the appender's file; a logger without appenders passes
    it to the root, under the root's level; nothing else is written anywhere, and below the level nothing
    at all. *)
Theorem log_delivery w l level e g :
  log_reachable w -> healthy w -> is_Some (loggers w !! l) -> loggers w !! ev_logger e = Some g ->
  exists w', Logger_log os fs_append strftime log_fuel l level e w = (Ok tt, w') /\ healthy w' /\ loggers w' = loggers w /\
    out w' = out w ++ concat (to_stdout w (lg_name g) level e <$> effective w l level) /\
    forall file, content (files w') file =
      content (files w) file ++ concat (to_file w file (lg_name g) level e <$> effective w l level).
Proof.
  intros Hr Hh [gl Hgl] Hg. pose proof (log_reachable_wf w Hr) as Hw.
  assert (Hnone : forall ps, ps = [] -> exists w', (mret tt : M (LogState FS) unit) w = (Ok tt, w') /\ healthy w' /\ loggers w' = loggers w /\
    out w' = out w ++ concat (to_stdout w (lg_name g) level e <$> ps) /\
    forall file, content (files w') file = content (files w) file ++ concat (to_file w file (lg_name g) level e <$> ps)).
  { intros ps ->. exists w. split_and!; try done; [by rewrite app_nil_r|]. intros file. by rewrite app_nil_r. }
  assert (Hall : forall l0 g0, loggers w !! l0 = Some g0 -> exists w', log_all os fs_append strftime (lg_appenders g0) level e w = (Ok tt, w') /\
    healthy w' /\ loggers w' = loggers w /\
    out w' = out w ++ concat (to_stdout w (lg_name g) level e <$> lg_appenders g0) /\
    forall file, content (files w') file = content (files w) file ++ concat (to_file w file (lg_name g) level e <$> lg_appenders g0)).
  { intros l0 g0 Hg0. destruct (log_all_delivers (lg_appenders g0) w level e g) as (w' & H1 & H2 & H3 & H4 & H5); try done.
    { intros q Hq. by apply (wf_appenders w Hw l0 g0 q). } exists w'. split_and!; try done. by destruct H2. }
  unfold log_fuel, effective. cbn [Logger_log]. rewrite (bind_ok _ _ _ _ _ (the_logger_run l gl w Hgl)). rewrite Hgl.
  destruct (level_ge level (lg_level gl)); cbn [negb]; [|by apply Hnone].
  specialize (Hall l gl Hgl) as Hl. destruct (lg_appenders gl) as [|p ps]; [|exact Hl].
  destruct (wf_roots w Hw l gl Hgl) as [->| ->]; [by apply Hnone|].
  destruct (wf_root w Hw) as (r & Hroot & Hn). rewrite (bind_ok _ _ _ _ _ (the_logger_run _ r w Hroot)). rewrite Hroot.
  destruct (level_ge level (lg_level r)); cbn [negb]; [|by apply Hnone].
  specialize (Hall _ r Hroot) as Hl'. destruct (lg_appenders r) as [|p ps]; [rewrite Hn; by apply Hnone|exact Hl'].
Qed.

(** C37: A file appender whose stream is closed, because the file could not be opened, opens it again once
    three seconds have passed and then writes; but one whose stream met a write error while open is stuck
    for ever: it is neither closed nor opened again, the files stay as they are, and each event is
    answered by the word error on the standard output. *)
Theorem file_appender_errors w p a filename o t level e g f :
  wf w -> appenders w !! p = Some a -> ap_target a = File filename o t -> ap_formatter a = Some f ->
  loggers w !! ev_logger e = Some g -> level_ge level (ap_level a) = true ->
  (is_open o = true -> good o = false -> exists w', LogAppender_log os fs_append strftime p level e w = (Ok tt, w') /\
     files w' = files w /\ (exists t', appenders w' !! p = Some (set_target (File filename o t') a)) /\
     out w' = out w ++ lit "error" ++ [x0a]) /\
  (is_open o = false -> good o = false -> u64 (t + 3) <= ev_time e ->
     exists w', LogAppender_log os fs_append strftime p level e w = (Ok tt, w') /\ out w' = out w /\
       appenders w' !! p = Some (set_target (File filename (mkOfs true true) (ev_time e)) a) /\
       content (files w') filename = content (files w) filename ++ format strftime (lg_name g) f level e) /\
  (good o = false -> ev_time e < u64 (t + 3) ->
     LogAppender_log os fs_append strftime p level e w = (Ok tt, set_out (out w ++ lit "error" ++ [x0a]) w)).
Proof.
  intros Hw Ha Ht Hf Hg Hl. pose proof (wf_targets w Hw p a Ha) as Hn. rewrite Ht in Hn. cbn in Hn.
  destruct (reopen_stream_run filename o (files w) Hn) as [H1 H2].
  assert (Hput : forall o ss fs, good o = false -> put_items fs_append filename ss o fs = (o, fs)).
  { intros o' [|s ss] fs Hgood; [done|]. cbn [put_items]. by rewrite Hgood. }
  split_and!.
  - intros Hop Hgd. assert (o = mkOfs true false) as -> by (destruct o; cbn in *; congruence).
    pose proof (file_log_run p a filename (mkOfs true false) t w level e g f (mkOfs true false)
      (if reopens (ev_time e) t then ev_time e else t) (files w) Ha Ht Hl Hg Hf) as Hrun.
    rewrite Hput in Hrun by done. eexists. split; [apply Hrun|].
    + destruct (reopens (ev_time e) t); [exists true; split; [by apply H1|done]|done].
    + cbn. split; [done|]. split; [|done]. eexists. apply lookup_insert_eq.
  - intros Hop Hgd Htime. destruct H2 as (r & fs1 & Hr & Ho); [by left|]. rewrite Hop in Ho.
    destruct (open_works filename false (files w)) as (fs1' & Ho' & Hc). assert (r = true /\ fs1' = fs1) as [-> ->] by (split; congruence).
    pose proof (file_log_run p a filename o t w level e g f (mkOfs true true) (ev_time e) fs1 Ha Ht Hl Hg Hf) as Hrun.
    destruct (put_items_works filename (texts f (lg_name g) level e) fs1) as (fs2 & Hp & Hc2 & _).
    rewrite Hp in Hrun. eexists. split; [apply Hrun|].
    + unfold reopens. destruct (Z.leb_spec (u64 (t + 3)) (ev_time e)); [|lia]. by exists true.
    + cbn. split_and!; [done|apply lookup_insert_eq|]. by rewrite Hc2, Hc.
  - intros Hgd Htime. pose proof (file_log_run p a filename o t w level e g f o t (files w) Ha Ht Hl Hg Hf) as Hrun.
    rewrite Hput, Hgd in Hrun by done. rewrite Hrun.
    + do 2 f_equal. rewrite <- Ht. replace (set_target (ap_target a) a) with a by (by destruct a).
      destruct w. unfold set_files, set_appender. cbn in *. by rewrite insert_id.
    + unfold reopens. by destruct (Z.leb_spec (u64 (t + 3)) (ev_time e)); [lia|].
Qed.
End delivery.
End Log.

(** ** Witnesses *)

(** A disk of files by name on which everything works. *)
Definition disk : FileSystem (gmap str str) := {|
  fs_lstat _ _ := true;
  fs_access _ _ := true;
  fs_mkdir _ fs := (0, fs);
  fs_unlink _ fs := (0, fs);
  fs_open _ fs := (true, fs)
|}.
Definition disk_append (file s : str) (fs : gmap str str) : bool * gmap str str :=
  (true, <[file := default [] (fs !! file) ++ s]> fs).
Definition disk_content (fs : gmap str str) (file : str) : str := default [] (fs !! file).

Lemma disk_ok : disk_works disk disk_append disk_content.
Proof.
  split; [intros file fs; by exists fs|]. intros file s fs. eexists. split; [reflexivity|]. unfold disk_content. split.
  - by rewrite lookup_insert_eq.
  - intros n Hn. by rewrite lookup_insert_ne.
Qed.

Definition no_time (_ : str) (_ : Z) : str := [].
Definition start : LogState (gmap str str) := snd (new_LoggerManager ∅).

Lemma start_reachable : log_reachable disk disk_append no_time start.
Proof. by eapply (log_start disk disk_append no_time ∅). Qed.

Lemma logging_reachable_safe_witness :
  (exists w', run_op disk disk_append no_time (SetPattern 0 (lit "%m")) start = (Ok tt, w') /\
     log_reachable disk disk_append no_time w') /\
  exists l w' g, getLogger (lit "system") start = (Ok l, w') /\ loggers w' !! l = Some g /\ lg_root g = Some 0%nat.
Proof.
  destruct (logging_reachable_safe disk disk_append no_time start start_reachable) as (H1 & H2 & _). split.
  - apply (H1 (SetPattern 0 (lit "%m"))). by eexists.
  - destruct (H2 (lit "system")) as (l & w' & g & Hl & Hg & _ & _ & Hr). exists l, w', g. split_and!; [done..|by apply Hr].
Defined.

Definition plain : LogState (gmap str str) := snd (run_op disk disk_append no_time (SetPattern 0 (lit "%m")) start).

Lemma plain_reachable : log_reachable disk disk_append no_time plain.
Proof. eapply (log_step _ _ _ start (SetPattern 0 (lit "%m"))); [apply start_reachable|by eexists|reflexivity]. Qed.

Definition hi : LogEvent := ev_append (lit "hi") (new_LogEvent 0 INFO (lit "a.cc") 1 0 1 0 7 (lit "main")).

Lemma log_delivery_witness :
  exists w', Logger_log disk disk_append no_time log_fuel 0 INFO hi plain = (Ok tt, w') /\
    out w' = esc (lit "32") ++ lit "hi" ++ esc (lit "0").
Proof.
  destruct (log_delivery disk disk_append no_time disk_content disk_ok plain 0 INFO hi
    (set_appenders [0%nat] (mkLogger (lit "root") DEBUG [] (Some (new_LogFormatter (lit "%m"))) None))) as (w' & H1 & _ & _ & H2 & _).
  - apply plain_reachable.
  - intros p a file o t Hp Ht.
    assert (He : appenders plain = {[0%nat := mkAppender Stdout DEBUG false (Some (new_LogFormatter (lit "%m")))]})
      by (vm_compute; reflexivity).
    rewrite He in Hp. apply lookup_singleton_Some in Hp as [_ <-]. discriminate Ht.
  - by eexists.
  - reflexivity.
  - exists w'. split; [exact H1|]. rewrite H2. reflexivity.
Defined.

Definition stuck : LogAppender :=
  mkAppender (File (lit "f") (mkOfs true false) 0) DEBUG false (Some (new_LogFormatter (lit "%m"))).

Lemma file_appender_errors_witness :
  let w := set_appender 1 stuck plain in
  exists w', LogAppender_log disk disk_append no_time 1 INFO hi w = (Ok tt, w') /\ files w' = ∅ /\
    out w' = lit "error" ++ [x0a].
Proof.
  intros w.
  destruct (file_appender_errors disk disk_append no_time disk_content disk_ok w 1 stuck (lit "f") (mkOfs true false) 0 INFO hi
    (set_appenders [0%nat] (mkLogger (lit "root") DEBUG [] (Some (new_LogFormatter (lit "%m"))) None))
    (new_LogFormatter (lit "%m"))) as (H1 & _ & _); try reflexivity.
  - apply new_appender_wf; [apply (log_reachable_wf _ _ _ _ plain_reachable)|reflexivity|].
    apply (bool_decide_unpack _). by vm_compute.
  - destruct (H1 eq_refl eq_refl) as (w' & Hr & Hf & _ & Ho). exists w'. by split_and!.
Defined.
