(* ===== verification/Config.v ===== *)
(** * Configuration: src/src/config/include/ConfigVar.hpp and Config.hpp

    Typed variables with change listeners, the registry that names them, loading a YAML
    document into it, and the conversions of containers through YAML.  The template
    parameter of a variable is a run-time type here ([Ty]) and its values have one carrier
    ([V]); a pointer to a variable is the name it is registered under, since none is ever
    removed or replaced; listeners act on what is outside.  yaml-cpp is the class [Yaml].  The error messages are left out. *)

From S2P Require Import Prelude Utils.
#[local] Set Default Goal Selector "!".

(** ** YAML

    What the code calls: the kinds of a node, its text when it is a scalar, [node[i]] for the
    indices below [size()], the pairs of a map, emission, loading ([None]: it throws), and
    the nodes made by [push_back] and by [node[key] = ...]. *)
Class Yaml (N : Type) := {
  y_IsScalar : N -> bool;
  y_IsMap : N -> bool;
  y_Scalar : N -> str;
  y_elems : N -> list N;
  y_members : N -> list (N * N);
  y_emit : N -> str;
  y_Load : str -> option N;
  y_Sequence : list N -> N;
  y_Map : list (str * N) -> N
}.

(** ** Conversions of containers

    [LexicalCast] between a container and its text, over the conversion of its elements;
    [None] is an exception. *)
Section casts.
Context {N : Type} `{Yaml N}.

(** The conversions of [T]: to text and back. *)
Class Cast (T : Type) := { to_text : T -> option str; of_text : str -> option T }.

Context {T : Type} `{TC : Cast T}.

(** The loops over the elements stop at the first exception. *)
Fixpoint cast_elems (nodes : list N) : option (list T) :=
  match nodes with
  | [] => Some []
  | n :: nodes =>
      match of_text (y_emit n) with
      | None => None
      | Some x => match cast_elems nodes with None => None | Some l => Some (x :: l) end
      end
  end.

Fixpoint load_elems (l : list T) : option (list N) :=
  match l with
  | [] => Some []
  | x :: l =>
      match to_text x with
      | None => None
      | Some s => match y_Load s with
                  | None => None
                  | Some n => match load_elems l with None => None | Some ns => Some (n :: ns) end
                  end
      end
  end.

(** [std::vector] and [std::list]. *)
Definition list_of_text (v : str) : option (list T) :=
  match y_Load v with None => None | Some node => cast_elems (y_elems node) end.
Definition list_to_text (v : list T) : option str :=
  match load_elems v with None => None | Some ns => Some (y_emit (y_Sequence ns)) end.
Definition list_cast : Cast (list T) := {| to_text := list_to_text; of_text := list_of_text |}.

Section sets.
Context `{Countable T} (iteration : gset T -> list T).

(** [std::set] and [std::unordered_set]: [iteration] is the order they are run through. *)
Definition set_of_text (v : str) : option (gset T) :=
  match list_of_text v with
  | None => None
  | Some l => Some (fold_left (fun s x => {[x]} ∪ s) l ∅)
  end.
Definition set_to_text (v : gset T) : option str := list_to_text (iteration v).
Definition set_cast : Cast (gset T) := {| to_text := set_to_text; of_text := set_of_text |}.
End sets.

Section maps.
Context (iteration : gmap str T -> list (str * T)).

(** [std::map] and [std::unordered_map] from strings: [insert] keeps the value of a key that
    is there. *)
Fixpoint cast_members (members : list (N * N)) (m : gmap str T) : option (gmap str T) :=
  match members with
  | [] => Some m
  | (k, n) :: members =>
      match of_text (y_emit n) with
      | None => None
      | Some x => cast_members members (if bool_decide (is_Some (m !! y_Scalar k)) then m else <[y_Scalar k := x]> m)
      end
  end.

Fixpoint load_members (l : list (str * T)) : option (list (str * N)) :=
  match l with
  | [] => Some []
  | (k, x) :: l =>
      match to_text x with
      | None => None
      | Some s => match y_Load s with
                  | None => None
                  | Some n => match load_members l with None => None | Some ns => Some ((k, n) :: ns) end
                  end
      end
  end.

Definition map_of_text (v : str) : option (gmap str T) :=
  match y_Load v with None => None | Some node => cast_members (y_members node) ∅ end.
Definition map_to_text (v : gmap str T) : option str :=
  match load_members (iteration v) with None => None | Some ns => Some (y_emit (y_Map ns)) end.
Definition map_cast : Cast (gmap str T) := {| to_text := map_to_text; of_text := map_of_text |}.
End maps.
End casts.

(** ** Variables *)

Section Config.
Context {Ty V : Type} `{EqDecision Ty} `{EqDecision V}.
(** The conversions of a type: [None] is an exception. *)
Context (FromStr : Ty -> str -> option V) (ToStr : Ty -> V -> option str).
(** What the listeners act on, and the order a table of listeners is run through. *)
Context {W : Type} (iteration : gmap Z (V -> V -> M W unit) -> list (Z * (V -> V -> M W unit))).

Abbreviation OnChange := (V -> V -> M W unit).

(** [cv_type] is the [T] of a [ConfigVar<T>]. *)
Record ConfigVar := mkVar {
  cv_type : Ty;
  name_ : str;
  description_ : str;
  m_val : V;
  m_onChangeMap : gmap Z OnChange
}.

Definition new_ConfigVar (t : Ty) (name description : str) (defaultVal : V) : ConfigVar :=
  mkVar t (tolower <$> name) description defaultVal ∅.

Definition set_val (v : V) (c : ConfigVar) : ConfigVar :=
  mkVar (cv_type c) (name_ c) (description_ c) v (m_onChangeMap c).
Definition set_listeners (m : gmap Z OnChange) (c : ConfigVar) : ConfigVar :=
  mkVar (cv_type c) (name_ c) (description_ c) (m_val c) m.

(** The registry, the counter of listeners each type has, and what is outside. *)
Record Config := mkConfig { datas : gmap str ConfigVar; funcId : Ty -> Z; world : W }.

Definition set_datas (d : gmap str ConfigVar) (s : Config) : Config := mkConfig d (funcId s) (world s).
Definition set_world (w : W) (s : Config) : Config := mkConfig (datas s) (funcId s) w.
Definition store (p : str) (c : ConfigVar) (s : Config) : Config := set_datas (<[p := c]> (datas s)) s.

Abbreviation CM := (M Config).

Definition the_var (p : str) : CM ConfigVar :=
  s ← get; match datas s !! p with Some c => mret c | None => crashed NullDeref end.

Definition outside {A} (m : M W A) : CM A := fun s => let '(r, w) := m (world s) in (r, set_world w s).

(** The calls of [setValue], one listener after the other. *)
Fixpoint notify (l : list (Z * OnChange)) (old new : V) : CM unit :=
  match l with
  | [] => mret tt
  | (_, cb) :: l => outside (cb old new) ;; notify l old new
  end.

Definition setValue (p : str) (val : V) : CM unit :=
  c ← the_var p;
  if bool_decide (val = m_val c) then mret tt else
  notify (iteration (m_onChangeMap c)) (m_val c) val ;;
  modify (store p (set_val val c)).

(** A [catch] of every [std::exception], which is what [m] throws. *)
Definition try_catch {S A} (m handler : M S A) : M S A :=
  fun s => match m s with (Throw _, s) => handler s | r => r end.

(** Always true, even when the text cannot be converted. *)
Definition fromString (p : str) (val : str) : CM bool :=
  c ← the_var p;
  try_catch (match FromStr (cv_type c) val with
             | None => throw bad_cast
             | Some v => setValue p v
             end) (mret tt) ;;
  mret true.

Definition toString (p : str) : CM str := c ← the_var p; mret (default [] (ToStr (cv_type c) (m_val c))).
Definition getValue (p : str) : CM V := c ← the_var p; mret (m_val c).

(** The counter is a static of the member function: one for all the variables of a type. *)
Definition addListener (p : str) (cb : OnChange) : CM Z :=
  c ← the_var p;
  s ← get;
  let id := u64 (funcId s (cv_type c) + 1) in
  modify (fun s => mkConfig (datas s) (fun t => if decide (t = cv_type c) then id else funcId s t) (world s)) ;;
  modify (store p (set_listeners (<[id := cb]> (m_onChangeMap c)) c)) ;;
  mret id.

Definition deleteListener (p : str) (id : Z) : CM unit :=
  c ← the_var p;
  modify (store p (set_listeners (delete id (m_onChangeMap c)) c)).

(** [clearListener] has a result and returns none. *)
Definition clearListener (p : str) : CM unit :=
  c ← the_var p;
  modify (store p (set_listeners ∅ c)) ;;
  crashed Undefined.

(** ** The registry *)

Definition legalChar : str := lit "abcdefghikjlmnopqrstuvwxyz._012345678".

Definition verifyName {S} (name : str) : M S unit :=
  match find_first_not_of legalChar name with Some _ => throw invalid_argument | None => mret tt end.

(** The pointer, null when the variable has another type. *)
Definition lookup_add (t : Ty) (name : str) (defaultVal : V) (description : str) (add : bool) : CM (option str) :=
  s ← get;
  match datas s !! name with
  | Some c => mret (if decide (cv_type c = t) then Some name else None)
  | None =>
      if add then
        verifyName name ;;
        modify (store name (new_ConfigVar t name description defaultVal)) ;;
        mret (Some name)
      else mret None
  end.

Definition lookup_default (t : Ty) (name : str) (defaultVal : V) (description : str) : CM (option str) :=
  lookup_add t name defaultVal description true.

(** With a name alone the end iterator is dereferenced for want of a test. *)
Definition lookup_name (t : Ty) (name : str) : CM (option str) :=
  s ← get;
  match datas s !! name with
  | Some c => mret (if decide (cv_type c = t) then Some name else None)
  | None => crashed Undefined
  end.

Definition LookupBase (name : str) : CM (option str) :=
  s ← get; mret (match datas s !! name with Some _ => Some name | None => None end).

(** [visit]: [order] is the order the registry is run through. *)
Fixpoint visit_all (cb : str -> CM unit) (ps : list str) : CM unit :=
  match ps with [] => mret tt | p :: ps => cb p ;; visit_all cb ps end.
Definition visit (order : gmap str ConfigVar -> list str) (cb : str -> CM unit) : CM unit :=
  s ← get; visit_all cb (order (datas s)).

(** ** Loading *)

Section load.
Context {N : Type} `{Yaml N}.

(** The loop over the pairs of a map; [list_member] is the recursive call. *)
Fixpoint list_members (list_member : str -> N -> M (list (str * N)) unit) (prefix : str) (l : list (N * N))
    : M (list (str * N)) unit :=
  match l with
  | [] => mret tt
  | (k, v) :: l =>
      list_member (if bool_decide (prefix = []) then y_Scalar k else prefix ++ lit "." ++ y_Scalar k) v ;;
      list_members list_member prefix l
  end.

(** The recursion goes down the document, as deep as the fuel. *)
Fixpoint listAllMember (fuel : nat) (prefix : str) (node : N) : M (list (str * N)) unit :=
  match fuel with
  | O => crashed OutOfFuel
  | S fuel =>
      verifyName prefix ;;
      modify (fun output => output ++ [(prefix, node)]) ;;
      if y_IsMap node then list_members (listAllMember fuel) prefix (y_members node) else mret tt
  end.

Definition node_text (node : N) : str := if y_IsScalar node then y_Scalar node else y_emit node.

Fixpoint load_nodes (allNodes : list (str * N)) : CM unit :=
  match allNodes with
  | [] => mret tt
  | (key, node) :: allNodes =>
      (if bool_decide (key = []) then mret tt else
       var ← LookupBase (tolower <$> key);
       match var with
       | None => mret tt
       | Some p => fromString p (node_text node) ;; mret tt
       end) ;;
      load_nodes allNodes
  end.

Definition LoadFromYaml (fuel : nat) (root : N) : CM unit := fun s =>
  match listAllMember fuel (y_Scalar root) root [] with
  | (Ok _, allNodes) => load_nodes allNodes s
  | (Throw e, _) => (Throw e, s)
  | (Crash c, _) => (Crash c, s)
  end.

(** [file] is what [YAML::LoadFile] gives, [None] when it throws. *)
Definition LoadFromConf (fuel : nat) (file : option N) : CM unit :=
  try_catch (match file with None => throw runtime_error | Some root => LoadFromYaml fuel root end) (mret tt).
End load.
End Config.

Arguments ConfigVar : clear implicits.
Arguments Config : clear implicits.
