(* ===== verification/ConfigTheorems.v ===== *)
(** * Configuration: the properties *)

From S2P Require Import Prelude Utils Config.
#[local] Set Default Goal Selector "!".

(** ** Conversions of containers *)

(** What is relied on of YAML: a node made from parts has those parts, and loading what a node
    was emitted as gives a node of the same parts. *)
Class YamlLaws (N : Type) `{Yaml N} : Prop := {
  elems_law (l : list N) : y_emit <$> y_elems (y_Sequence l) = y_emit <$> l;
  members_law (l : list (str * N)) :
    NoDup l.*1 -> prod_map y_Scalar y_emit <$> y_members (y_Map l) = prod_map id y_emit <$> l;
  load_law (n : N) : exists n', y_Load (y_emit n) = Some n' /\ y_emit n' = y_emit n /\
    y_emit <$> y_elems n' = y_emit <$> y_elems n /\
    prod_map y_Scalar y_emit <$> y_members n' = prod_map y_Scalar y_emit <$> y_members n
}.

Section casts.
Context {N : Type} `{YamlLaws N}.

(** A type whose values survive being put in a document and read back. *)
Class CastLaws (T : Type) `{Cast T} : Prop := {
  cast_law (x : T) : exists s n, to_text x = Some s /\ y_Load s = Some n /\ of_text (y_emit n) = Some x
}.

Section elems.
Context {T : Type} `{CastLaws T}.

Lemma load_elems_ok (l : list T) :
  exists ns, load_elems l = Some ns /\ Forall2 (fun x n => of_text (y_emit n) = Some x) l ns.
Proof.
  induction l as [|x l (ns & Hns & Hf)]; [by exists []|]. destruct (cast_law x) as (s & n & Ht & Hl & Ho).
  exists (n :: ns). cbn [load_elems]. rewrite Ht, Hl, Hns. split; [done|by constructor].
Qed.

Lemma cast_elems_ok (l : list T) ns :
  Forall2 (fun x s => of_text s = Some x) l (y_emit <$> ns) -> cast_elems ns = Some l.
Proof.
  revert l. induction ns as [|n ns IH]; intros l Hl; inversion Hl as [|x s l' ss Hx Hr]; subst; [done|].
  cbn [cast_elems]. by rewrite Hx, (IH l').
Qed.

Lemma list_law (l : list T) :
  exists s n, list_to_text l = Some s /\ y_Load s = Some n /\ y_emit n = s /\ list_of_text s = Some l.
Proof.
  destruct (load_elems_ok l) as (ns & Hns & Hf). unfold list_to_text. rewrite Hns.
  destruct (load_law (y_Sequence ns)) as (n & Hn & He & Hel & _). exists (y_emit (y_Sequence ns)), n.
  split_and!; [done..|]. unfold list_of_text. rewrite Hn. apply cast_elems_ok.
  rewrite Hel, elems_law. clear -Hf. induction Hf; constructor; auto.
Qed.

Lemma load_members_ok (l : list (str * T)) :
  exists ns, load_members l = Some ns /\ Forall2 (fun kx kn => kx.1 = kn.1 /\ of_text (y_emit kn.2) = Some kx.2) l ns.
Proof.
  induction l as [|[k x] l (ns & Hns & Hf)]; [by exists []|]. destruct (cast_law x) as (s & n & Ht & Hl & Ho).
  exists ((k, n) :: ns). cbn [load_members]. rewrite Ht, Hl, Hns. split; [done|by constructor].
Qed.

Lemma cast_members_ok (l : list (str * T)) ms m :
  Forall2 (fun kx ks => kx.1 = ks.1 /\ of_text ks.2 = Some kx.2) l (prod_map y_Scalar y_emit <$> ms) ->
  NoDup l.*1 -> (forall k, k ∈ l.*1 -> m !! k = None) ->
  exists m', cast_members ms m = Some m' /\ forall k, m' !! k = match list_to_map (M := gmap str T) l !! k with Some x => Some x | None => m !! k end.
Proof.
  revert l m. induction ms as [|[kn n] ms IH]; intros l m Hl Hnd Hm; inversion Hl as [|[k x] ks l' ss [Hk Hx] Hr]; subst.
  { exists m. split; [done|]. intros k. by rewrite list_to_map_nil, lookup_empty. }
  cbn in Hk, Hx, Hnd. subst k. apply NoDup_cons in Hnd as [Hni Hnd]. cbn [cast_members]. rewrite Hx.
  rewrite bool_decide_false by (rewrite Hm by (cbn; by left); by intros []).
  destruct (IH l' (<[y_Scalar kn := x]> m)) as (m' & Hm' & Hlk); [done|done| |].
  - intros k Hkl. rewrite lookup_insert_ne by (by intros <-). apply Hm. cbn. by right.
  - exists m'. split; [done|]. intros k. rewrite Hlk, list_to_map_cons. cbn [fst snd].
    destruct (decide (k = y_Scalar kn)) as [->|Hne].
    + rewrite !lookup_insert_eq. by rewrite not_elem_of_list_to_map_1.
    + rewrite !lookup_insert_ne by done. done.
Qed.

Lemma map_law (iteration : gmap str T -> list (str * T)) m :
  iteration m ≡ₚ map_to_list m ->
  exists s, map_to_text iteration m = Some s /\ map_of_text s = Some m.
Proof.
  intros Hit. destruct (load_members_ok (iteration m)) as (ns & Hns & Hf). unfold map_to_text. rewrite Hns.
  destruct (load_law (y_Map ns)) as (n & Hn & _ & _ & Hme). exists (y_emit (y_Map ns)).
  split; [done|]. unfold map_of_text. rewrite Hn.
  assert (Hnd : NoDup (iteration m).*1) by (rewrite Hit; apply NoDup_fst_map_to_list).
  assert (Hkeys : ns.*1 = (iteration m).*1) by (clear -Hf; induction Hf as [|[] [] ? ? [] ? IH]; cbn in *; congruence).
  destruct (cast_members_ok (iteration m) (y_members n) ∅) as (m' & Hm' & Hlk); [|done|by intros; apply lookup_empty|].
  - rewrite Hme, members_law by by rewrite Hkeys. clear -Hf. induction Hf as [|[] [] ? ? [] ? IH]; constructor; auto.
  - rewrite Hm'. f_equal. apply map_eq. intros k. rewrite Hlk, lookup_empty.
    rewrite (list_to_map_proper (iteration m) (map_to_list m)) by done. rewrite list_to_map_to_list. by destruct (m !! k).
Qed.
End elems.

#[local] Existing Instance list_cast.
#[export] Instance list_cast_laws {T} `{CastLaws T} : CastLaws (list T).
Proof. split. intros l. destruct (list_law l) as (s & n & Ht & Hl & He & Ho). exists s, n. by rewrite He. Qed.

Lemma fold_union `{Countable T} (l : list T) (s : gset T) : fold_left (fun s x => {[x]} ∪ s) l s = list_to_set l ∪ s.
Proof. revert s. induction l as [|x l IH]; intros s; cbn [fold_left list_to_set foldr]; [set_solver|]. rewrite IH. set_solver. Qed.

(** C36: A configured container is read back from the text it is written as, for a vector or list with its
    order, a set, and a map from strings, ordered or not, whatever the order it is run through, when its
    elements are; so also for containers of containers. *)
Theorem container_roundtrip {T} `{CastLaws T} `{Countable T} (run_set : gset T -> list T) (run_map : gmap str T -> list (str * T)) :
  (forall s, run_set s ≡ₚ elements s) -> (forall m, run_map m ≡ₚ map_to_list m) ->
  (forall l : list T, exists s, list_to_text l = Some s /\ list_of_text s = Some l) /\
  (forall v : gset T, exists s, set_to_text run_set v = Some s /\ set_of_text s = Some v) /\
  (forall m : gmap str T, exists s, map_to_text run_map m = Some s /\ map_of_text s = Some m) /\
  (forall l : list (list T), exists s, list_to_text (TC := list_cast) l = Some s /\ list_of_text (TC := list_cast) s = Some l).
Proof.
  intros Hs Hm. split_and!.
  - intros l. destruct (list_law l) as (s & n & ? & _ & _ & ?). by exists s.
  - intros v. destruct (list_law (run_set v)) as (s & n & Ht & _ & _ & Ho). exists s. split; [done|].
    unfold set_of_text. rewrite Ho. f_equal. rewrite fold_union. apply leibniz_equiv.
    rewrite Hs. intros x. rewrite elem_of_union, elem_of_list_to_set, elem_of_elements. set_solver.
  - intros m. by apply map_law.
  - intros l. destruct (list_law (T := list T) l) as (s & n & ? & _ & _ & ?). by exists s.
Qed.
End casts.

(** ** Variables and listeners *)

Section Config.
Context {Ty V : Type} `{EqDecision Ty} `{EqDecision V}.
Context (FromStr : Ty -> str -> option V) {W : Type}.
Context (iteration : gmap Z (V -> V -> M W unit) -> list (Z * (V -> V -> M W unit))).
Context (iteration_perm : forall m, iteration m ≡ₚ map_to_list m).
Abbreviation OnChange := (V -> V -> M W unit).
Implicit Types (s : Config Ty V W) (c : ConfigVar Ty V W).

Lemma the_var_run p c s : datas s !! p = Some c -> the_var p s = (Ok c, s).
Proof. intros Hc. unfold the_var. rewrite (bind_ok get _ s s s) by done. by rewrite Hc. Qed.

Lemma set_world_id s : set_world (world s) s = s.
Proof. by destruct s. Qed.

(** The listeners that are called, and only what is outside changes. *)
Lemma notify_keeps (l : list (Z * OnChange)) old new s :
  exists r w, notify l old new s = (r, set_world w s).
Proof.
  revert s. induction l as [|[id cb] l IH]; intros s; [exists (Ok tt), (world s); by rewrite set_world_id|]. cbn [notify].
  unfold outside at 1, mbind, M_bind. destruct (cb old new (world s)) as [[[]|e|cr] w]; [|by eexists _, _..].
  destruct (IH (set_world w s)) as (r & w' & Hr). unfold outside in Hr. rewrite Hr. by exists r, w'.
Qed.

Lemma setValue_run p c v s :
  datas s !! p = Some c ->
  (v = m_val c -> setValue iteration p v s = (Ok tt, s)) /\
  (v <> m_val c -> setValue iteration p v s =
     match notify (iteration (m_onChangeMap c)) (m_val c) v s with
     | (Ok _, s') => (Ok tt, store p (set_val v c) s')
     | (Throw e, s') => (Throw e, s')
     | (Crash cr, s') => (Crash cr, s')
     end).
Proof.
  intros Hc. unfold setValue. rewrite (bind_ok _ _ _ _ _ (the_var_run p c s Hc)). split; intros Hv.
  - by rewrite bool_decide_true.
  - rewrite bool_decide_false by done. unfold mbind, M_bind, modify.
    by destruct (notify _ _ _ s) as [[[]|e|cr] s'].
Qed.

(** The order the ids of a table are run through. *)
Definition ids (m : gmap Z OnChange) : list Z := (iteration m).*1.

Lemma ids_perm m : ids m ≡ₚ elements (dom m).
Proof.
  unfold ids. rewrite iteration_perm. apply NoDup_Permutation; [apply NoDup_fst_map_to_list|apply NoDup_elements|].
  intros id. rewrite elem_of_elements, elem_of_dom, list_elem_of_fmap. split.
  - intros ([i cb] & -> & Hi). apply elem_of_map_to_list in Hi. by eexists.
  - intros [cb Hcb]. exists (id, cb). by rewrite elem_of_map_to_list.
Qed.

Lemma notify_effect (effect : Z -> V -> V -> W -> W) (l : list (Z * OnChange)) old new s :
  (forall id cb, (id, cb) ∈ l -> forall w, cb old new w = (Ok tt, effect id old new w)) ->
  notify l old new s = (Ok tt, set_world (fold_left (fun w id => effect id old new w) l.*1 (world s)) s).
Proof.
  revert s. induction l as [|[id cb] l IH]; intros s Hcb; [cbn; by rewrite set_world_id|]. cbn [notify].
  rewrite (bind_ok (outside _) _ s tt (set_world (effect id old new (world s)) s)).
  2:{ unfold outside. by rewrite (Hcb id cb ltac:(left)). }
  rewrite IH by (intros; apply Hcb; by right). done.
Qed.

(** Listeners have the numbers their type's counter has given. *)
Definition ids_ok s : Prop :=
  (forall t, 0 <= funcId s t) /\
  forall p c id, datas s !! p = Some c -> is_Some (m_onChangeMap c !! id) -> 1 <= id <= funcId s (cv_type c).

Lemma addListener_run p c cb s :
  datas s !! p = Some c -> ids_ok s -> funcId s (cv_type c) + 1 < 2 ^ 64 ->
  exists id s', addListener p cb s = (Ok id, s') /\ m_onChangeMap c !! id = None /\ ids_ok s' /\
    datas s' = <[p := set_listeners (<[id := cb]> (m_onChangeMap c)) c]> (datas s) /\ world s' = world s /\
    forall t, funcId s' t = if decide (t = cv_type c) then funcId s t + 1 else funcId s t.
Proof.
  intros Hc [Hpos Hids] Hf. set (id := funcId s (cv_type c) + 1).
  assert (Hwrap : u64 (funcId s (cv_type c) + 1) = id) by (apply wrap_small; unfold unsigned_range; specialize (Hpos (cv_type c)); lia).
  assert (Hfresh : m_onChangeMap c !! id = None).
  { destruct (m_onChangeMap c !! id) eqn:E; [|done]. specialize (Hids p c id Hc (ex_intro _ _ E)). lia. }
  exists id. eexists. split.
  { unfold addListener. rewrite (bind_ok _ _ _ _ _ (the_var_run p c s Hc)). rewrite (bind_ok get _ s s s) by done.
    cbv zeta. rewrite Hwrap. reflexivity. }
  split; [done|]. split; [split; cbn|split; [done|split; [done|]]].
  - intros t. destruct (decide (t = cv_type c)); specialize (Hpos t); [|done]. subst. lia.
  - intros q d i. rewrite lookup_insert_Some. intros [[-> <-]|[_ Hd]]; cbn.
    + rewrite lookup_insert_is_Some. intros [<-|[_ Hi]]; rewrite decide_True by done; [specialize (Hpos (cv_type c)); lia|].
      specialize (Hids q c i Hc Hi). lia.
    + intros Hi. specialize (Hids q d i Hd Hi). destruct (decide (cv_type d = cv_type c)) as [He|]; [|done]. rewrite He in Hids. lia.
  - intros t. cbn. destruct (decide (t = cv_type c)) as [->|]; done.
Qed.

(** Setting a variable to the value it has does nothing; to another, it calls every listener of the
    variable exactly once with the old value and the new, in some order, before the value changes.  If a
    listener throws, the exception comes out and the value stays; through [fromString] it is swallowed
    and true returned all the same.  Adding a listener replaces none, as long as the counter of its type
    has not gone round. *)
Theorem listener_protocol p c v s :
  datas s !! p = Some c ->
  setValue iteration p (m_val c) s = (Ok tt, s) /\
  (v <> m_val c -> forall effect : Z -> V -> V -> W -> W,
     (forall id cb, m_onChangeMap c !! id = Some cb ->
        forall w, cb (m_val c) v w = (Ok tt, effect id (m_val c) v w)) ->
     exists l, l ≡ₚ elements (dom (m_onChangeMap c)) /\
       setValue iteration p v s =
         (Ok tt, store p (set_val v c) (set_world (fold_left (fun w id => effect id (m_val c) v w) l (world s)) s))) /\
  (forall e s', setValue iteration p v s = (Throw e, s') ->
     datas s' = datas s /\ forall text, FromStr (cv_type c) text = Some v -> fromString FromStr iteration p text s = (Ok true, s')) /\
  (ids_ok s -> funcId s (cv_type c) + 1 < 2 ^ 64 -> forall cb,
     exists id s', addListener p cb s = (Ok id, s') /\ m_onChangeMap c !! id = None /\ ids_ok s' /\
       datas s' !! p = Some (set_listeners (<[id := cb]> (m_onChangeMap c)) c)).
Proof.
  intros Hc. destruct (setValue_run p c v s Hc) as [_ Hset]. split_and!.
  - by apply (setValue_run p c).
  - intros Hv effect Hcb. exists (ids (m_onChangeMap c)). split; [apply ids_perm|]. rewrite Hset by done.
    rewrite (notify_effect effect); [done|]. intros id cb Hin. apply Hcb.
    rewrite iteration_perm in Hin. by apply elem_of_map_to_list in Hin.
  - intros e s' Ht. assert (Hd : datas s' = datas s).
    { destruct (decide (v = m_val c)) as [->|Hv]; [by rewrite (proj1 (setValue_run p c (m_val c) s Hc) eq_refl) in Ht|].
      rewrite Hset in Ht by done. destruct (notify_keeps (iteration (m_onChangeMap c)) (m_val c) v s) as (r & w & Hn).
      rewrite Hn in Ht. destruct r; simplify_eq. done. }
    split; [done|]. intros text Htext. unfold fromString. rewrite (bind_ok _ _ _ _ _ (the_var_run p c s Hc)).
    rewrite Htext. rewrite (bind_ok (try_catch _ _) _ s tt s'); [done|]. unfold try_catch. by rewrite Ht.
  - intros Hids Hf cb. destruct (addListener_run p c cb s Hc Hids Hf) as (id & s' & H1 & H2 & H3 & H4 & _).
    exists id, s'. split_and!; try done. by rewrite H4, lookup_insert_eq.
Qed.

(** ** The registry *)

Definition legal (name : str) : bool := bool_decide (find_first_not_of legalChar name = None).

Lemma verifyName_run {S} name (s : S) :
  verifyName name s = if legal name then (Ok tt, s) else (Throw invalid_argument, s).
Proof. unfold verifyName, legal. by destruct (find_first_not_of legalChar name). Qed.

Lemma legal_chars name : legal name = true -> Forall (fun ch => ch ∈ legalChar) name.
Proof.
  unfold legal, find_first_not_of. intros Hl%bool_decide_eq_true. apply fmap_None, list_find_None in Hl.
  eapply Forall_impl; [exact Hl|]. intros ch Hc. by apply dec_stable.
Qed.

(** The letters of a legal name are small already. *)
Lemma legal_lower name : legal name = true -> tolower <$> name = name.
Proof.
  intros Hl%legal_chars. induction Hl as [|ch name Hc Hl IH]; [done|]. cbn [fmap list_fmap]. f_equal; [|done].
  revert ch Hc. apply Forall_forall. by apply (bool_decide_unpack _); vm_compute.
Qed.

Lemma lookup_default_run t name v description s :
  lookup_default t name v description s =
  match datas s !! name with
  | Some c => (Ok (if decide (cv_type c = t) then Some name else None), s)
  | None => if legal name then (Ok (Some name), store name (new_ConfigVar t name description v) s)
            else (Throw invalid_argument, s)
  end.
Proof.
  unfold lookup_default, lookup_add. rewrite (bind_ok get _ s s s) by done. destruct (datas s !! name); [done|].
  unfold mbind, M_bind. rewrite verifyName_run. by destruct (legal name).
Qed.

(** A name has one variable: looking it up with a default makes it, with that default and no listener,
    only when the name is new and legal, and then and ever after gives the same variable, whatever
    defaults later calls bring; with another type it gives null.  An illegal name throws and registers nothing, and
    illegal are not only capitals but also the digit 9, left out of the list; looking up an unknown
    name without a default is undefined. *)
Theorem config_lookup t name v description s :
  (datas s !! name = None -> legal name = true ->
     exists s', lookup_default t name v description s = (Ok (Some name), s') /\
       datas s' = <[name := mkVar t name description v ∅]> (datas s) /\
       forall t' v' d', lookup_default t' name v' d' s' = (Ok (if decide (t = t') then Some name else None), s')) /\
  (forall c, datas s !! name = Some c ->
     lookup_default t name v description s = (Ok (if decide (cv_type c = t) then Some name else None), s)) /\
  (datas s !! name = None -> legal name = false ->
     lookup_default t name v description s = (Throw invalid_argument, s)) /\
  (datas s !! name = None -> fst (lookup_name t name s) = Crash Undefined) /\
  (forall a b ch, legal (a ++ ch :: b) = true -> ch <> "9"%byte /\ tolower ch = ch).
Proof.
  split_and!.
  - intros Hn Hl. rewrite lookup_default_run, Hn, Hl. eexists. split; [done|]. cbn. unfold new_ConfigVar.
    rewrite legal_lower by done. split; [done|]. intros t' v' d'. rewrite lookup_default_run. cbn. by rewrite lookup_insert_eq.
  - intros c Hc. by rewrite lookup_default_run, Hc.
  - intros Hn Hl. by rewrite lookup_default_run, Hn, Hl.
  - intros Hn. unfold lookup_name. rewrite (bind_ok get _ s s s) by done. by rewrite Hn.
  - intros a b ch Hl%legal_chars. apply Forall_app in Hl as [_ Hl]. apply Forall_cons in Hl as [Hc _].
    revert ch Hc. apply Forall_forall. by apply (bool_decide_unpack _); vm_compute.
Qed.

(** ** Loading *)

Section load.
Context {N : Type} `{Yaml N}.

(** The document with its dotted names, in the order it is written. *)
Definition join (prefix : str) (key : str) : str := if bool_decide (prefix = []) then key else prefix ++ lit "." ++ key.

Fixpoint flatten (fuel : nat) (prefix : str) (node : N) : list (str * N) :=
  match fuel with
  | O => []
  | S fuel =>
      (prefix, node) :: (if y_IsMap node then concat ((fun kv => flatten fuel (join prefix (y_Scalar kv.1)) kv.2) <$> y_members node) else [])
  end.

(** A document less deep than [fuel]. *)
Fixpoint depth (fuel : nat) (node : N) : Prop :=
  match fuel with
  | O => False
  | S fuel => y_IsMap node = true -> Forall (fun kv => depth fuel kv.2) (y_members node)
  end.

Definition all_legal (l : list (str * N)) : bool := forallb (fun kn => legal kn.1) l.

Lemma list_members_run fuel prefix l out :
  (forall prefix node out, depth fuel node ->
     if all_legal (flatten fuel prefix node)
     then listAllMember fuel prefix node out = (Ok tt, out ++ flatten fuel prefix node)
     else exists out', listAllMember fuel prefix node out = (Throw invalid_argument, out')) ->
  Forall (fun kv => depth fuel kv.2) l ->
  let all := concat ((fun kv => flatten fuel (join prefix (y_Scalar kv.1)) kv.2) <$> l) in
  if all_legal all then list_members (listAllMember fuel) prefix l out = (Ok tt, out ++ all)
  else exists out', list_members (listAllMember fuel) prefix l out = (Throw invalid_argument, out').
Proof.
  intros IH Hd. revert out. induction Hd as [|[k v] l Hv Hl IHl]; intros out; [cbn; by rewrite app_nil_r|].
  cbn [fmap list_fmap concat fst snd list_members]. cbv zeta. unfold all_legal. rewrite forallb_app.
  specialize (IH (join prefix (y_Scalar k)) v out Hv). unfold all_legal in IH. fold (join prefix (y_Scalar k)).
  destruct (forallb _ (flatten fuel (join prefix (y_Scalar k)) v)); cbn [andb].
  - rewrite (bind_ok _ _ _ _ _ IH). specialize (IHl (out ++ flatten fuel (join prefix (y_Scalar k)) v)).
    cbv zeta in IHl. unfold all_legal in IHl. destruct (forallb _ (concat _)); [|exact IHl].
    by rewrite IHl, <- app_assoc.
  - destruct IH as [out' IH]. exists out'. by apply bind_throw.
Qed.

Lemma listAllMember_run fuel prefix node out :
  depth fuel node ->
  if all_legal (flatten fuel prefix node)
  then listAllMember fuel prefix node out = (Ok tt, out ++ flatten fuel prefix node)
  else exists out', listAllMember fuel prefix node out = (Throw invalid_argument, out').
Proof.
  revert prefix node out. induction fuel as [|fuel IH]; intros prefix node out Hd; [done|].
  cbn [flatten listAllMember all_legal forallb fst]. unfold mbind at 1 3, M_bind at 1 3. rewrite verifyName_run.
  destruct (legal prefix); cbn [andb]; [|by exists out].
  rewrite (bind_ok (modify _) _ out tt (out ++ [(prefix, node)])) by done.
  destruct (y_IsMap node) eqn:Em; [|done].
  pose proof (list_members_run fuel prefix (y_members node) (out ++ [(prefix, node)]) IH (Hd Em)) as Hm.
  cbv zeta in Hm. unfold all_legal in Hm. destruct (forallb _ (concat _)); [|exact Hm].
  by rewrite Hm, <- app_assoc.
Qed.

Definition listeners_return s : Prop :=
  forall p c id cb, datas s !! p = Some c -> m_onChangeMap c !! id = Some cb ->
  forall old new w, exists w', cb old new w = (Ok tt, w').

Lemma notify_returns (l : list (Z * OnChange)) old new s :
  (forall id cb, (id, cb) ∈ l -> forall old new w, exists w', cb old new w = (Ok tt, w')) ->
  exists w, notify l old new s = (Ok tt, set_world w s).
Proof.
  revert s. induction l as [|[id cb] l IH]; intros s Hcb; [exists (world s); by rewrite set_world_id|]. cbn [notify].
  destruct (Hcb id cb ltac:(left) old new (world s)) as [w Hw].
  rewrite (bind_ok (outside _) _ s tt (set_world w s)) by (unfold outside; by rewrite Hw).
  destruct (IH (set_world w s)) as [w' Hr]; [intros; eapply Hcb; by right|]. by exists w'.
Qed.

(** The value a text leaves in a variable: its own when it cannot be converted. *)
Definition read_value (c : ConfigVar Ty V W) (v : V) (text : str) : V := default v (FromStr (cv_type c) text).

Lemma fromString_run p c text s :
  datas s !! p = Some c -> listeners_return s ->
  exists s', fromString FromStr iteration p text s = (Ok true, s') /\
    datas s' = <[p := set_val (read_value c (m_val c) text) c]> (datas s).
Proof.
  intros Hc Hl. unfold fromString. rewrite (bind_ok _ _ _ _ _ (the_var_run p c s Hc)). unfold read_value.
  assert (Hid : datas s = <[p := set_val (m_val c) c]> (datas s)).
  { replace (set_val (m_val c) c) with c by (by destruct c). by rewrite insert_id. }
  destruct (FromStr (cv_type c) text) as [v|]; cbn [default]; [|exists s; by split].
  destruct (setValue_run p c v s Hc) as [Hsame Hdiff]. destruct (decide (v = m_val c)) as [He|Hne].
  - exists s. unfold try_catch. rewrite (bind_ok _ _ s tt s) by (by rewrite Hsame). subst v. by split.
  - destruct (notify_returns (iteration (m_onChangeMap c)) (m_val c) v s) as [w Hw].
    { intros id cb Hin. rewrite iteration_perm in Hin. apply elem_of_map_to_list in Hin. by apply (Hl p c id). }
    exists (store p (set_val v c) (set_world w s)).
    rewrite (bind_ok _ _ s tt (store p (set_val v c) (set_world w s))); [done|]. unfold try_catch. by rewrite Hdiff, Hw.
Qed.

(** The texts of a document for a variable, in order, and the value they leave. *)
Definition texts_for (p : str) (l : list (str * N)) : list str :=
  node_text ∘ snd <$> filter (fun kn => kn.1 = p /\ kn.1 <> []) l.
Definition loaded (l : list (str * N)) (p : str) (c : ConfigVar Ty V W) : ConfigVar Ty V W :=
  set_val (fold_left (read_value c) (texts_for p l) (m_val c)) c.

Lemma loaded_nil p c : loaded [] p c = c.
Proof. by destruct c. Qed.

Lemma load_nodes_run l s :
  all_legal l = true -> listeners_return s ->
  exists s', load_nodes FromStr iteration l s = (Ok tt, s') /\ forall p, datas s' !! p = loaded l p <$> datas s !! p.
Proof.
  revert s. induction l as [|[key node] l IH]; intros s Hl Hs.
  { exists s. split; [done|]. intros p. destruct (datas s !! p); [|done]. cbn. by rewrite loaded_nil. }
  cbn [all_legal forallb fst] in Hl. apply andb_prop in Hl as [Hk Hl]. cbn [load_nodes]. rewrite legal_lower by done.
  assert (Hskip : forall s1, (forall p, datas s1 !! p = loaded [(key, node)] p <$> datas s !! p) -> listeners_return s1 ->
    exists s', load_nodes FromStr iteration l s1 = (Ok tt, s') /\ forall p, datas s' !! p = loaded ((key, node) :: l) p <$> datas s !! p).
  { intros s1 Hd Hs1. destruct (IH s1 Hl Hs1) as (s' & Hrun & Hd'). exists s'. split; [done|]. intros p. rewrite Hd', Hd.
    destruct (datas s !! p) as [c|]; [|done]. cbn [fmap option_fmap option_map]. f_equal. unfold loaded, texts_for.
    rewrite !filter_cons. cbn [fst]. destruct (decide (key = p /\ key <> [])); cbn; done. }
  case_bool_decide as He.
  - rewrite (bind_ok (mret tt) _ s tt s) by done. apply Hskip; [|done]. intros p. destruct (datas s !! p) as [c|]; [|done].
    cbn. unfold loaded, texts_for. rewrite filter_cons_False by (by intros [_ ?]). by rewrite <- (loaded_nil p c) at 1.
  - destruct (datas s !! key) as [c|] eqn:Ec.
    + destruct (fromString_run key c (node_text node) s Ec Hs) as (s1 & Hf & Hd).
      rewrite (bind_ok _ _ s tt s1).
      2:{ unfold LookupBase. rewrite (bind_ok _ _ s (Some key) s) by (rewrite (bind_ok get _ s s s) by done; by rewrite Ec).
          by rewrite (bind_ok _ _ _ _ _ Hf). }
      apply Hskip.
      * intros p. rewrite Hd. destruct (decide (p = key)) as [->|Hne].
        -- rewrite lookup_insert_eq, Ec. cbn. unfold loaded, texts_for. by rewrite filter_cons_True.
        -- rewrite lookup_insert_ne by done. destruct (datas s !! p) as [d|]; [|done]. cbn. unfold loaded, texts_for.
           rewrite filter_cons_False by (cbn; intros [? _]; congruence). by rewrite <- (loaded_nil p d) at 1.
      * intros q d id cb. rewrite Hd, lookup_insert_Some. intros [[<- <-]|[_ Hq]]; [by apply (Hs key c)|by apply (Hs q d)].
    + rewrite (bind_ok _ _ s tt s).
      2:{ unfold LookupBase. by rewrite (bind_ok _ _ s None s) by (rewrite (bind_ok get _ s s s) by done; by rewrite Ec). }
      apply Hskip; [|done]. intros p. destruct (decide (p = key)) as [->|Hne]; [by rewrite Ec|].
      destruct (datas s !! p) as [d|]; [|done]. cbn. unfold loaded, texts_for.
      rewrite filter_cons_False by (cbn; intros [? _]; congruence). by rewrite <- (loaded_nil p d) at 1.
Qed.

(** C28: Loading a configuration file ends and never throws, and is all or nothing in its names: one illegal
    name anywhere in the document, a capital included, and nothing is changed, silently; otherwise
    each registered variable gets the texts the document has under its dotted name, in order, each
    one that can be converted, and keeps its value without one; no variable is made or lost. *)
Theorem config_load fuel root s :
  depth fuel root -> listeners_return s ->
  let doc := flatten fuel (y_Scalar root) root in
  (all_legal doc = false -> LoadFromConf FromStr iteration fuel (Some root) s = (Ok tt, s)) /\
  (all_legal doc = true -> exists s', LoadFromConf FromStr iteration fuel (Some root) s = (Ok tt, s') /\
     forall p, datas s' !! p = loaded doc p <$> datas s !! p) /\
  LoadFromConf FromStr iteration fuel (None : option N) s = (Ok tt, s).
Proof.
  intros Hd Hs doc. pose proof (listAllMember_run fuel (y_Scalar root) root [] Hd) as Hrun. fold doc in Hrun.
  unfold LoadFromConf, LoadFromYaml, try_catch. split_and!; [intros Hl|intros Hl|done]; rewrite Hl in Hrun.
  - destruct Hrun as [out Hrun]. by rewrite Hrun.
  - rewrite Hrun. cbn [app]. destruct (load_nodes_run doc s Hl Hs) as (s' & Hload & Hdat). exists s'. by rewrite Hload.
Qed.
End load.
End Config.

(** ** Witnesses *)

(** Documents as texts: a sequence is its elements one after the other, each escaped. *)
Definition enc_str (s : str) : str := concat ((fun b => [x01; b]) <$> s) ++ [x00].
Definition enc (l : list str) : str := concat (enc_str <$> l).
Fixpoint dec (acc s : str) : list str :=
  match s with
  | [] => []
  | x00 :: s => acc :: dec [] s
  | x01 :: b :: s => dec (acc ++ [b]) s
  | _ :: s => dec acc s
  end.
Fixpoint pairs (l : list str) : list (str * str) :=
  match l with a :: b :: l => (a, b) :: pairs l | _ => [] end.

Lemma dec_enc l : dec [] (enc l) = l.
Proof.
  assert (Hs : forall s acc r, dec acc (enc_str s ++ r) = (acc ++ s) :: dec [] r).
  { induction s as [|b s IH]; intros acc r; [cbn; by rewrite app_nil_r|].
    change (enc_str (b :: s) ++ r) with (x01 :: b :: enc_str s ++ r). cbn [dec]. rewrite IH. by rewrite <- app_assoc. }
  induction l as [|s l IH]; [done|]. change (enc (s :: l)) with (enc_str s ++ enc l). by rewrite Hs, IH.
Qed.

Definition text_yaml : Yaml str := {|
  y_IsScalar _ := true;
  y_IsMap _ := false;
  y_Scalar n := n;
  y_elems n := dec [] n;
  y_members n := pairs (dec [] n);
  y_emit n := n;
  y_Load s := Some s;
  y_Sequence l := enc l;
  y_Map l := enc (concat ((fun kv => [kv.1; kv.2]) <$> l))
|}.
#[local] Existing Instance text_yaml.

#[local] Instance text_laws : YamlLaws str.
Proof.
  split.
  - intros l. cbn. by rewrite dec_enc.
  - intros l _. cbn. rewrite dec_enc. f_equal. induction l as [|[k v] l IH]; [done|]. cbn. by rewrite IH.
  - intros n. by exists n.
Qed.

#[local] Instance bool_cast : Cast bool := {|
  to_text := fun b : bool => Some (if b then lit "1" else lit "0");
  of_text := fun s => Some (bool_decide (s = lit "1"))
|}.
#[local] Instance bool_laws : CastLaws bool.
Proof. split. intros b. exists (if b then lit "1" else lit "0"), (if b then lit "1" else lit "0"). by destruct b. Qed.

Lemma container_roundtrip_witness :
  exists s, list_to_text [true; false; true] = Some s /\ list_of_text s = Some [true; false; true].
Proof.
  destruct (container_roundtrip (T := bool) elements map_to_list ltac:(done) ltac:(done)) as [Hl _]. apply Hl.
Defined.

(** Variables of one type, numbers; a listener records its number and the values. *)
Definition digits_of (_ : unit) (s : str) : option Z := if bool_decide (s = []) then None else Some (of_digits 10 s).
Abbreviation Log := (list (Z * Z * Z)).
Definition recorder (id : Z) : Z -> Z -> M Log unit := fun old new w => (Ok tt, w ++ [(id, old, new)]).
Definition port : ConfigVar unit Z Log := mkVar tt (lit "http.port") [] 80 {[1 := recorder 1; 2 := recorder 2]}.
Definition one_var : Config unit Z Log := mkConfig {[lit "http.port" := port]} (fun _ => 2) [].

Lemma listener_protocol_witness :
  exists l s1, l ≡ₚ [1; 2] /\ setValue map_to_list (lit "http.port") 8080 one_var = (Ok tt, s1) /\
    world s1 = (fun id => (id, 80, 8080)) <$> l.
Proof.
  destruct (listener_protocol digits_of map_to_list ltac:(done) (lit "http.port") port 8080 one_var ltac:(reflexivity))
    as (_ & H & _).
  destruct (H ltac:(discriminate) (fun id old new w => w ++ [(id, old, new)])) as (l & Hl & Hrun).
  - intros id cb Hcb w. unfold port in Hcb. cbn in Hcb.
    apply lookup_insert_Some in Hcb as [[<- <-]|[_ Hcb]]; [done|]. by apply lookup_singleton_Some in Hcb as [<- <-].
  - exists l. eexists. split; [etransitivity; [exact Hl|]; vm_compute; first [reflexivity|apply Permutation_swap]|]. split; [exact Hrun|]. cbn [world store set_datas set_world].
    change (world one_var) with ([] : Log). change (m_val port) with 80.
    assert (Hf : forall w, fold_left (fun (w : Log) id => w ++ [(id, 80, 8080)]) l w = w ++ ((fun id => (id, 80, 8080)) <$> l)).
    { clear. induction l as [|i l IH]; intros w; [by rewrite app_nil_r|]. cbn. rewrite IH. by rewrite <- app_assoc. }
    apply Hf.
Defined.

Lemma config_lookup_witness :
  lookup_default tt (lit "log9") 1 [] one_var = (Throw invalid_argument, one_var) /\
  exists s', lookup_default tt (lit "log.level") 1 [] one_var = (Ok (Some (lit "log.level")), s').
Proof.
  destruct (config_lookup tt (lit "log9") 1 [] one_var) as (_ & _ & H & _). split.
  - by apply H.
  - destruct (config_lookup tt (lit "log.level") 1 [] one_var) as (H1 & _).
    destruct (H1 eq_refl eq_refl) as (s' & Hs & _). by exists s'.
Defined.

Inductive doc := Leaf (s : str) | Tree (l : list (doc * doc)).

Definition doc_yaml : Yaml doc := {|
  y_IsScalar n := match n with Leaf _ => true | Tree _ => false end;
  y_IsMap n := match n with Leaf _ => false | Tree _ => true end;
  y_Scalar n := match n with Leaf s => s | Tree _ => [] end;
  y_elems _ := [];
  y_members n := match n with Leaf _ => [] | Tree l => l end;
  y_emit _ := [];
  y_Load _ := None;
  y_Sequence _ := Tree [];
  y_Map _ := Tree []
|}.

Definition conf : doc := Tree [(Leaf (lit "http"), Tree [(Leaf (lit "port"), Leaf (lit "8080"))]); (Leaf (lit "x"), Leaf (lit "1"))].

Lemma config_load_witness :
  exists s', LoadFromConf (H := doc_yaml) digits_of map_to_list 3 (Some conf) one_var = (Ok tt, s') /\
    datas s' !! lit "http.port" = Some (set_val 8080 port).
Proof.
  destruct (config_load (H := doc_yaml) digits_of map_to_list ltac:(done) 3 conf one_var) as (_ & H & _).
  - cbn. intros _. repeat constructor; cbn; intros; repeat constructor; done.
  - intros p c id cb Hc Hcb old new w. cbn in Hc. apply lookup_singleton_Some in Hc as [_ <-].
    cbn in Hcb. apply lookup_insert_Some in Hcb as [[<- <-]|[_ Hcb]]; [by eexists|].
    apply lookup_singleton_Some in Hcb as [<- <-]. by eexists.
  - destruct (H eq_refl) as (s' & Hr & Hd). exists s'. split; [exact Hr|]. by rewrite Hd.
Defined.
