(* ===== verification/Settings.v ===== *)
(** * Configured globals: src/src/hook/hook.cc, http/HttpParser.cc, fiber/fiber.cc, tcpserver.cc

    The static variables and static initialisers by which the components take their settings
    from [Config]: each such source file is a unit, which makes its configuration
    variables, copies their values into globals, and follows their changes with listeners.
    A program is any order of the units.  What the other listeners act on is [U]; the message
    the listener of hook.cc logs is left out. *)

From S2P Require Import Prelude Config.
#[local] Set Default Goal Selector "!".

(** The types the variables of these units have; a value is its number. *)
Inductive Ty := TInt | TUint32 | TUint64.

#[export] Instance Ty_eq_dec : EqDecision Ty.
Proof. solve_decision. Defined.

Record Settings := mkSettings {
  ConnectTimeout : Z;
  s_http_request_buffer_size : Z;
  s_http_request_max_body_size : Z;
  s_http_response_buffer_size : Z;
  s_http_response_max_body_size : Z
}.

(** Before the initialisers run. *)
Definition initial_settings : Settings := mkSettings (u64 (-1)) 0 0 0 0.

(** Which global. *)
Inductive Setting := Connect | RequestBuffer | RequestMaxBody | ResponseBuffer | ResponseMaxBody.

#[export] Instance Setting_eq_dec : EqDecision Setting.
Proof. solve_decision. Defined.

Definition get_setting (k : Setting) (w : Settings) : Z :=
  match k with
  | Connect => ConnectTimeout w
  | RequestBuffer => s_http_request_buffer_size w
  | RequestMaxBody => s_http_request_max_body_size w
  | ResponseBuffer => s_http_response_buffer_size w
  | ResponseMaxBody => s_http_response_max_body_size w
  end.

Definition set_setting (k : Setting) (v : Z) (w : Settings) : Settings :=
  match k with
  | Connect => mkSettings v (s_http_request_buffer_size w) (s_http_request_max_body_size w)
      (s_http_response_buffer_size w) (s_http_response_max_body_size w)
  | RequestBuffer => mkSettings (ConnectTimeout w) v (s_http_request_max_body_size w)
      (s_http_response_buffer_size w) (s_http_response_max_body_size w)
  | RequestMaxBody => mkSettings (ConnectTimeout w) (s_http_request_buffer_size w) v
      (s_http_response_buffer_size w) (s_http_response_max_body_size w)
  | ResponseBuffer => mkSettings (ConnectTimeout w) (s_http_request_buffer_size w) (s_http_request_max_body_size w)
      v (s_http_response_max_body_size w)
  | ResponseMaxBody => mkSettings (ConnectTimeout w) (s_http_request_buffer_size w) (s_http_request_max_body_size w)
      (s_http_response_buffer_size w) v
  end.

Definition setting_name (k : Setting) : str :=
  match k with
  | Connect => lit "tcp.connect.timeout"
  | RequestBuffer => lit "http.request.buffer_size"
  | RequestMaxBody => lit "http.request.max_body_size"
  | ResponseBuffer => lit "http.response.buffer_size"
  | ResponseMaxBody => lit "http.response.max_body_size"
  end.

Section Settings.
Context {U : Type}.
Abbreviation W := (Settings * U)%type.
Abbreviation CM := (M (Config Ty Z W)).

(** [global = value], the conversion to [uint64_t] with it. *)
Definition assign (k : Setting) (v : Z) : M W unit := modify (fun w => (set_setting k (u64 v) w.1, w.2)).

(** The listeners. *)
Definition on_change (k : Setting) (_ new : Z) : M W unit := assign k new.

(** Through a pointer to a variable. *)
Definition deref_var (p : option str) : CM str := match p with Some p => mret p | None => crashed NullDeref end.

Definition copy (k : Setting) (p : option str) : CM unit := p ← deref_var p; v ← getValue p; outside (assign k v).
Definition follow (k : Setting) (p : option str) : CM unit := p ← deref_var p; addListener p (on_change k) ;; mret tt.

(** hook.cc: [DefaultTcpConnectTimeout] and [_HookIniter]. *)
Definition hook_unit : CM unit :=
  timeout ← lookup_default TInt (lit "tcp.connect.timeout") 5000 (lit "tcp connect timeout");
  copy Connect timeout ;;
  follow Connect timeout.

(** HttpParser.cc: the four variables and [_RequestSizeIniter]. *)
Definition http_unit : CM unit :=
  request_buffer ← lookup_default TUint64 (lit "http.request.buffer_size") (4 * 1024) (lit "http request buffer size");
  request_max_body ← lookup_default TUint64 (lit "http.request.max_body_size") (64 * 1024 * 1024) (lit "http request max body size");
  response_buffer ← lookup_default TUint64 (lit "http.response.buffer_size") (4 * 1024) (lit "http response buffer size");
  response_max_body ← lookup_default TUint64 (lit "http.response.max_body_size") (64 * 1024 * 1024) (lit "http response max body size");
  copy RequestBuffer request_buffer ;;
  copy RequestMaxBody request_max_body ;;
  copy ResponseBuffer response_buffer ;;
  copy ResponseMaxBody response_max_body ;;
  follow RequestBuffer request_buffer ;;
  follow RequestMaxBody request_max_body ;;
  follow ResponseBuffer response_buffer ;;
  follow ResponseMaxBody response_max_body.

(** fiber.cc and tcpserver.cc only make theirs, and read them when they need them. *)
Definition fiber_unit : CM unit :=
  lookup_default TUint32 (lit "fiber.stack_size") (128 * 1024) (lit "fiber stack size") ;; mret tt.
Definition tcpserver_unit : CM unit :=
  lookup_default TUint64 (lit "tcp_server.read_timeout") (60 * 1000 * 2) (lit "tcp server read timeout") ;; mret tt.

(** The 32-bit size of a fiber's stack, for the argument of the constructor. *)
Definition stack_size (stacksize : Z) : CM Z :=
  if negb (stacksize =? 0) then mret (u32 stacksize) else getValue (lit "fiber.stack_size").

(** The initialisation of a program, its units in some order. *)
Fixpoint static_init (units : list (CM unit)) : CM unit :=
  match units with [] => mret tt | u :: units => u ;; static_init units end.

Definition units : list (CM unit) := [hook_unit; http_unit; fiber_unit; tcpserver_unit].
End Settings.
