(* ===== verification/SettingsTheorems.v ===== *)
(** * Configured globals: the properties *)

From stdpp Require Import relations.
From S2P Require Import Prelude Config ConfigTheorems Settings.
#[local] Set Default Goal Selector "!".

Section settings.
Context {U : Type}.
Abbreviation W := (Settings * U)%type.
Abbreviation OnChange := (Z -> Z -> M W unit).
Context (FromStr : Ty -> str -> option Z).
Context (iteration : gmap Z OnChange -> list (Z * OnChange)) (iteration_perm : forall m, iteration m ≡ₚ map_to_list m).
Implicit Types (s : Config Ty Z W) (c : ConfigVar Ty Z W) (k : Setting) (cb : OnChange).

Lemma setting_name_inj k k' : setting_name k = setting_name k' -> k = k'.
Proof. by destruct k, k'. Qed.

Lemma get_set_setting k k' v w : get_setting k (set_setting k' v w) = if decide (k = k') then v else get_setting k w.
Proof. by destruct k, k'. Qed.

(** A listener of the variable [p] that returns and changes no global but that of [p], to the
    new value if at all; and one that does change it. *)
Definition listener_ok (p : str) cb : Prop := forall old new w, exists w', cb old new w = (Ok tt, w') /\
  forall k, get_setting k w'.1 = get_setting k w.1 \/ (setting_name k = p /\ get_setting k w'.1 = u64 new).
Definition sets k cb : Prop := forall old new w, exists w', cb old new w = (Ok tt, w') /\ get_setting k w'.1 = u64 new.

Lemma on_change_ok k : listener_ok (setting_name k) (on_change k) /\ sets k (on_change k).
Proof.
  split; intros old new w; eexists; (split; [reflexivity|]); cbn.
  - intros k'. rewrite get_set_setting. case_decide as Hk; [right; by subst|by left].
  - rewrite get_set_setting. by rewrite decide_True.
Qed.

(** The globals in [V] have the values of their variables, and listeners follow those in [L];
    at most [n] listeners have been added to a type. *)
Record settled (n : Z) (V L : list Setting) s : Prop := {
  st_ids : ids_ok s;
  st_count t : funcId s t <= n;
  st_ok p c id cb : datas s !! p = Some c -> m_onChangeMap c !! id = Some cb -> listener_ok p cb;
  st_val k : k ∈ V -> exists c, datas s !! setting_name k = Some c /\ get_setting k (world s).1 = u64 (m_val c);
  st_set k : k ∈ L -> exists c id cb, datas s !! setting_name k = Some c /\ m_onChangeMap c !! id = Some cb /\ sets k cb
}.

Lemma notify_settings (l : list (Z * OnChange)) old new p s :
  (forall id cb, (id, cb) ∈ l -> listener_ok p cb) ->
  exists w, notify l old new s = (Ok tt, set_world w s) /\
    forall k, (get_setting k w.1 = get_setting k (world s).1 \/ (setting_name k = p /\ get_setting k w.1 = u64 new)) /\
      ((exists id cb, (id, cb) ∈ l /\ sets k cb) -> get_setting k w.1 = u64 new).
Proof.
  revert s. induction l as [|[id cb] l IH]; intros s Hok.
  { exists (world s). cbn. rewrite set_world_id. split; [done|]. intros k. split; [by left|].
    intros (id & cb & Hin & _). by apply elem_of_nil in Hin. }
  cbn [notify]. destruct (Hok id cb ltac:(left) old new (world s)) as (w1 & H1 & Hk1).
  rewrite (bind_ok (outside _) _ s tt (set_world w1 s)) by (unfold outside; by rewrite H1).
  destruct (IH (set_world w1 s)) as (w & Hw & Hk); [intros; eapply Hok; by right|]. exists w. split; [done|].
  intros k. destruct (Hk k) as [Ha Hb]. cbn [world set_world] in Ha. split.
  - destruct Ha as [->|]; [apply Hk1|by right].
  - intros (i & cb' & [[= -> ->]|Hin]%elem_of_cons & Hs); [|by apply Hb; eauto].
    destruct Ha as [->|[_ ?]]; [|done]. destruct (Hs old new (world s)) as (w1' & H1' & Hg). congruence.
Qed.

(** ** Changes keep the globals in step *)

(** What keeps every global followed. *)
Definition keeps {A} (m : M (Config Ty Z W) A) : Prop :=
  forall n V s r s', settled n V V s -> m s = (r, s') -> settled n V V s'.

Lemma keeps_step_bind {A B} (m : M (Config Ty Z W) A) (f : A -> M _ B) : keeps m -> (forall a, keeps (f a)) -> keeps (m ≫= f).
Proof.
  intros Hm Hf n V s r s' Hs Hr. unfold mbind, M_bind in Hr. destruct (m s) as [[a|e|c] s1] eqn:E; specialize (Hm n V s _ _ Hs E).
  - by apply (Hf a n V s1 r).
  - by injection Hr as _ <-.
  - by injection Hr as _ <-.
Qed.

Lemma keeps_same {A} (m : M (Config Ty Z W) A) : (forall s, snd (m s) = s) -> keeps m.
Proof. intros Hm n V s r s' Hs Hr. specialize (Hm s). rewrite Hr in Hm. cbn in Hm. by subst. Qed.

Lemma keeps_catch {A} (m h : M (Config Ty Z W) A) : keeps m -> keeps h -> keeps (try_catch m h).
Proof.
  intros Hm Hh n V s r s' Hs Hr. unfold try_catch in Hr. destruct (m s) as [r1 s1] eqn:E. specialize (Hm n V s _ _ Hs E).
  destruct r1; [by injection Hr as _ <-|by apply (Hh n V s1 r)|by injection Hr as _ <-].
Qed.

(** A variable's new value, with the global after it. *)
Lemma store_settled n V p c v w s :
  settled n V V s -> datas s !! p = Some c ->
  (forall k, (get_setting k w.1 = get_setting k (world s).1 \/ (setting_name k = p /\ get_setting k w.1 = u64 v)) /\
     (k ∈ V -> setting_name k = p -> get_setting k w.1 = u64 v)) ->
  settled n V V (store p (set_val v c) (set_world w s)).
Proof.
  intros [[Hpos Hids] Hcount Hok Hval Hset] Hc Hw. split; [split| | | |]; cbn [store set_datas set_world datas funcId world]; try done.
  - intros q d id. rewrite lookup_insert_Some. intros [[<- <-]|[_ Hd]]; cbn; by eapply Hids.
  - intros q d id cb. rewrite lookup_insert_Some. intros [[<- <-]|[_ Hd]]; cbn; by eapply Hok.
  - intros k Hk. destruct (Hval k Hk) as (d & Hd & Hg). destruct (decide (setting_name k = p)) as [He|Hne].
    + exists (set_val v c). rewrite He, lookup_insert_eq. split; [done|]. by apply Hw.
    + exists d. rewrite lookup_insert_ne by done. split; [done|]. destruct (Hw k) as [[->|[? _]] _]; done.
  - intros k Hk. destruct (Hset k Hk) as (d & id & cb & Hd & Hcb & Hs). destruct (decide (setting_name k = p)) as [He|Hne].
    + exists (set_val v c), id, cb. rewrite He, lookup_insert_eq. cbn. split_and!; try done. congruence.
    + exists d, id, cb. by rewrite lookup_insert_ne.
Qed.

Lemma setValue_keeps p v : keeps (setValue iteration p v).
Proof.
  intros n V s r s' Hs Hr. destruct (datas s !! p) as [c|] eqn:Hc.
  2:{ unfold setValue, the_var, mbind, M_bind, get in Hr. rewrite Hc in Hr. by injection Hr as _ <-. }
  destruct (setValue_run iteration p c v s Hc) as [Hsame Hdiff].
  destruct (decide (v = m_val c)) as [He|Hne]; [rewrite Hsame in Hr by done; by injection Hr as _ <-|].
  destruct (notify_settings (iteration (m_onChangeMap c)) (m_val c) v p s) as (w & Hn & Hk).
  { intros id cb Hin. rewrite iteration_perm in Hin. apply elem_of_map_to_list in Hin. by apply (st_ok n V V s Hs p c id). }
  rewrite Hdiff, Hn in Hr by done. injection Hr as _ <-. apply (store_settled n V p c v w s Hs Hc). intros k.
  split; [apply Hk|]. intros HV He. apply Hk. destruct (st_set n V V s Hs k HV) as (d & id & cb & Hd & Hcb & Hsets).
  exists id, cb. split; [|done]. rewrite iteration_perm. apply elem_of_map_to_list. congruence.
Qed.

Lemma the_var_keeps p : keeps (the_var p).
Proof. apply keeps_same. intros s. unfold the_var, mbind, M_bind, get. by destruct (datas s !! p). Qed.

Lemma fromString_keeps p text : keeps (fromString FromStr iteration p text).
Proof.
  apply keeps_step_bind; [apply the_var_keeps|]. intros c. apply keeps_step_bind; [|intros; by apply keeps_same].
  apply keeps_catch; [|by apply keeps_same]. destruct (FromStr _ _); [apply setValue_keeps|by apply keeps_same].
Qed.

Section load.
Context {N : Type} `{Yaml N}.

Lemma load_nodes_keeps (l : list (str * N)) : keeps (load_nodes FromStr iteration l).
Proof.
  induction l as [|[key node] l IH]; [by apply keeps_same|]. cbn [load_nodes]. apply keeps_step_bind; [|done].
  case_bool_decide; [by apply keeps_same|]. apply keeps_step_bind.
  - apply keeps_same. intros s. unfold LookupBase, mbind, M_bind, get. done.
  - intros [p|]; [|by apply keeps_same]. apply keeps_step_bind; [apply fromString_keeps|]. intros _. by apply keeps_same.
Qed.

Lemma LoadFromConf_keeps fuel (file : option N) : keeps (LoadFromConf FromStr iteration fuel file).
Proof.
  apply keeps_catch; [|by apply keeps_same]. destruct file as [root|]; [|by apply keeps_same].
  intros n V s r s' Hs Hr. unfold LoadFromYaml in Hr. destruct (listAllMember _ _ _ _) as [[u|e|c] l].
  - by eapply load_nodes_keeps.
  - by injection Hr as _ <-.
  - by injection Hr as _ <-.
Qed.
End load.

(** ** The units *)

Lemma lookup_settled n V L t name v description s :
  settled n V L s -> name ∉ dom (datas s) -> legal name = true ->
  exists s', lookup_default t name v description s = (Ok (Some name), s') /\ settled n V L s' /\
    dom (datas s') = dom (datas s) ∪ {[name]}.
Proof.
  intros [[Hpos Hids] Hcount Hok Hval Hset] Hn%not_elem_of_dom Hl. rewrite lookup_default_run, Hn, Hl. eexists. split; [done|].
  assert (Hother : forall k c, datas s !! setting_name k = Some c -> setting_name k <> name) by (intros k c Hc He; congruence).
  split; [|cbn; rewrite dom_insert_L; set_solver].
  split; [split| | | |]; cbn [store set_datas datas funcId world]; try done.
  - intros q d id. rewrite lookup_insert_Some. intros [[<- <-]|[_ Hd]]; [|by eapply Hids]. by intros [? ?].
  - intros q d id cb. rewrite lookup_insert_Some. intros [[<- <-]|[_ Hd]]; [done|by eapply Hok].
  - intros k Hk. destruct (Hval k Hk) as (c & Hc & Hg). exists c. by rewrite lookup_insert_ne by (intros He; by eapply Hother).
  - intros k Hk. destruct (Hset k Hk) as (c & id & cb & Hc & Hcb). exists c, id, cb.
    by rewrite lookup_insert_ne by (intros He; by eapply Hother).
Qed.

Lemma copy_settled n V L k s :
  settled n V L s -> setting_name k ∈ dom (datas s) ->
  exists s', copy k (Some (setting_name k)) s = (Ok tt, s') /\ settled n (k :: V) L s' /\ dom (datas s') = dom (datas s).
Proof.
  intros [Hids Hcount Hok Hval Hset] [c Hc]%elem_of_dom. unfold copy. cbn [deref_var].
  rewrite (bind_ok (mret _) _ s (setting_name k) s) by done.
  rewrite (bind_ok (getValue _) _ s (m_val c) s) by (unfold getValue; by rewrite (bind_ok _ _ _ _ _ (the_var_run _ c s Hc))).
  eexists. split; [reflexivity|]. split; [|done]. split; [done..| |done].
  intros k' [->|Hk]%elem_of_cons; cbn [world set_world fst datas]; rewrite ?get_set_setting.
  - exists c. by rewrite decide_True.
  - destruct (Hval k' Hk) as (d & Hd & Hg). exists d. split; [done|]. case_decide as He; [|done]. subst. congruence.
Qed.

Lemma follow_settled n V L k s :
  settled n V L s -> setting_name k ∈ dom (datas s) -> n + 1 < 2 ^ 64 ->
  exists s', follow k (Some (setting_name k)) s = (Ok tt, s') /\ settled (n + 1) V (k :: L) s' /\ dom (datas s') = dom (datas s).
Proof.
  intros [Hids Hcount Hok Hval Hset] [c Hc]%elem_of_dom Hn.
  destruct (addListener_run (setting_name k) c (on_change k) s Hc Hids) as (id & s' & Hrun & Hfresh & Hids' & Hd & Hw & Hf).
  { specialize (Hcount (cv_type c)). lia. }
  exists s'. split.
  { unfold follow. cbn [deref_var]. rewrite (bind_ok (mret _) _ s (setting_name k) s) by done. by rewrite (bind_ok _ _ _ _ _ Hrun). }
  destruct (on_change_ok k) as [Hl Hs].
  split; [|rewrite Hd; apply dom_insert_lookup_L; by eexists]. split; [done| | | |].
  - intros t. rewrite Hf. specialize (Hcount t). case_decide; lia.
  - intros q d i cb. rewrite Hd, lookup_insert_Some. intros [[<- <-]|[_ Hq]]; [|by eapply Hok]. cbn.
    rewrite lookup_insert_Some. intros [[<- <-]|[_ Hi]]; [done|by apply (Hok _ c i)].
  - intros k' Hk. destruct (Hval k' Hk) as (d & Hdd & Hg). rewrite Hd, Hw.
    destruct (decide (k' = k)) as [->|Hne]; [|exists d; rewrite lookup_insert_ne by (intros He%setting_name_inj; congruence); done].
    eexists. rewrite lookup_insert_eq. split; [done|]. cbn. by simplify_eq.
  - intros k' Hk. rewrite Hd. destruct (decide (k' = k)) as [->|Hne].
    + eexists _, id, (on_change k). rewrite lookup_insert_eq. split; [done|]. cbn. by rewrite lookup_insert_eq.
    + apply elem_of_cons in Hk as [->|Hk]; [done|]. destruct (Hset k' Hk) as (d & i & cb & Hdd & Hcb & Hss).
      exists d, i, cb. by rewrite lookup_insert_ne by (intros He%setting_name_inj; congruence).
Qed.
Lemma settled_weaken n n' V V' L L' s : settled n V L s -> n <= n' -> V' ⊆ V -> L' ⊆ L -> settled n' V' L' s.
Proof.
  intros [Hids Hcount Hok Hval Hset] Hn HV HL. split; try done; [|by auto..].
  intros t. specialize (Hcount t). lia.
Qed.

(** A unit makes its variables, whose names are new, and puts its globals in step. *)
Definition unit_ok (u : M (Config Ty Z W) unit) (names : list str) (ks : list Setting) : Prop :=
  forall n V L s, settled n V L s -> n + 4 < 2 ^ 64 -> (forall name, name ∈ names -> name ∉ dom (datas s)) ->
  exists s', u s = (Ok tt, s') /\ settled (n + 4) (ks ++ V) (ks ++ L) s' /\ dom (datas s') = dom (datas s) ∪ list_to_set names.

(** A [lookup], a [copy] or a [follow] at the head of a unit. *)
Ltac unit_step lemma H s' H' D' :=
  let R := fresh "R" in
  edestruct lemma as (s' & R & H' & D'); [exact H|..|try rewrite (bind_ok _ _ _ _ _ R)].
Ltac global_step lem k H s' H' D' :=
  let R := fresh "R" in
  edestruct (lem _ _ _ k _ H) as (s' & R & H' & D'); [..|try rewrite (bind_ok _ _ _ _ _ R)].

(** Membership in what the steps so far have made of the registry. *)
Ltac doms := repeat match goal with Hd : dom (datas ?s) = _ |- context [dom (datas ?s)] => rewrite Hd end.
Ltac in_dom := doms; rewrite ?elem_of_union, ?elem_of_singleton; auto 10.
Ltac new_name Hnew :=
  doms; rewrite ?not_elem_of_union, ?not_elem_of_singleton; repeat apply conj;
  first [apply Hnew; rewrite ?elem_of_cons; by auto 10 | by intros He%setting_name_inj].
Ltac unit_end H :=
  eexists; split; [eassumption || reflexivity|]; split;
  [eapply settled_weaken; [exact H|lia|intros k; rewrite ?elem_of_app, ?elem_of_cons, ?elem_of_nil; tauto..]
  |doms; apply set_eq; intros x; rewrite ?elem_of_union, elem_of_list_to_set, ?elem_of_singleton, ?elem_of_cons, ?elem_of_nil; tauto].

Lemma hook_unit_ok : unit_ok hook_unit [setting_name Connect] [Connect].
Proof.
  intros n V L s H0 Hn Hnew. unfold hook_unit.
  unit_step (lookup_settled n V L TInt (setting_name Connect)) H0 s1 H1 D1; [new_name Hnew|reflexivity|].
  global_step copy_settled Connect H1 s2 H2 D2; [in_dom|].
  global_step follow_settled Connect H2 s3 H3 D3; [in_dom|lia|].
  unit_end H3.
Qed.

Lemma plain_unit_ok t name v d : legal name = true -> unit_ok (lookup_default t name v d ;; mret tt) [name] [].
Proof.
  intros Hl n V L s H0 Hn Hnew. unit_step (lookup_settled n V L t name v d) H0 s1 H1 D1; [new_name Hnew|done|].
  unit_end H1.
Qed.

Abbreviation http_settings := [RequestBuffer; RequestMaxBody; ResponseBuffer; ResponseMaxBody].

Lemma http_unit_ok : unit_ok http_unit (setting_name <$> http_settings) http_settings.
Proof.
  intros n V L s H0 Hn Hnew. unfold http_unit. cbn [fmap list_fmap] in *.
  unit_step (lookup_settled n V L TUint64 (setting_name RequestBuffer)) H0 s1 H1 D1; [new_name Hnew|reflexivity|].
  unit_step (lookup_settled n V L TUint64 (setting_name RequestMaxBody)) H1 s2 H2 D2; [new_name Hnew|reflexivity|].
  unit_step (lookup_settled n V L TUint64 (setting_name ResponseBuffer)) H2 s3 H3 D3; [new_name Hnew|reflexivity|].
  unit_step (lookup_settled n V L TUint64 (setting_name ResponseMaxBody)) H3 s4 H4 D4; [new_name Hnew|reflexivity|].
  global_step copy_settled RequestBuffer H4 s5 H5 D5; [in_dom|].
  global_step copy_settled RequestMaxBody H5 s6 H6 D6; [in_dom|].
  global_step copy_settled ResponseBuffer H6 s7 H7 D7; [in_dom|].
  global_step copy_settled ResponseMaxBody H7 s8 H8 D8; [in_dom|].
  global_step follow_settled RequestBuffer H8 s9 H9 D9; [in_dom|lia|].
  global_step follow_settled RequestMaxBody H9 s10 H10 D10; [in_dom|lia|].
  global_step follow_settled ResponseBuffer H10 s11 H11 D11; [in_dom|lia|].
  global_step follow_settled ResponseMaxBody H11 s12 H12 D12; [in_dom|lia|].
  unit_end H12.
Qed.
(** The units with the names and globals of each. *)
Abbreviation spec := (M (Config Ty Z W) unit * list str * list Setting)%type.
Definition specs : list spec :=
  [(hook_unit, [setting_name Connect], [Connect]); (http_unit, setting_name <$> http_settings, http_settings);
   (fiber_unit, [lit "fiber.stack_size"], []); (tcpserver_unit, [lit "tcp_server.read_timeout"], [])].

Lemma specs_ok : Forall (fun x : spec => unit_ok x.1.1 x.1.2 x.2) specs.
Proof.
  repeat constructor; [apply hook_unit_ok|apply http_unit_ok|by apply plain_unit_ok..].
Qed.

Lemma static_init_ok (l : list spec) n V L s :
  Forall (fun x : spec => unit_ok x.1.1 x.1.2 x.2) l -> NoDup (concat ((fun x : spec => x.1.2) <$> l)) ->
  settled n V L s -> n + 4 * Z.of_nat (length l) < 2 ^ 64 ->
  (forall name, name ∈ concat ((fun x : spec => x.1.2) <$> l) -> name ∉ dom (datas s)) ->
  exists n' V' L' s', static_init ((fun x : spec => x.1.1) <$> l) s = (Ok tt, s') /\ settled n' V' L' s' /\
    V ++ concat (l.*2) ⊆ V' /\ L ++ concat (l.*2) ⊆ L'.
Proof.
  intros Hl. revert n V L s. induction Hl as [|[[u names] ks] l Hu Hl IH]; intros n V L s Hnd Hs Hn Hnew.
  { exists n, V, L, s. cbn. rewrite !app_nil_r. done. }
  cbn [fmap list_fmap concat fst snd] in *. apply NoDup_app in Hnd as (_ & Hdis & Hnd). cbn [length] in Hn.
  destruct (Hu n V L s Hs) as (s1 & R1 & H1 & D1); [lia|intros name Hin; apply Hnew, elem_of_app; by left|].
  destruct (IH (n + 4) (ks ++ V) (ks ++ L) s1 Hnd H1) as (n' & V' & L' & s' & R & Hs' & HV & HL); [lia| |].
  { intros name Hin. rewrite D1, not_elem_of_union, elem_of_list_to_set. split; [apply Hnew, elem_of_app; by right|].
    intros Hin'. by apply (Hdis name Hin'). }
  exists n', V', L', s'. cbn [static_init]. rewrite (bind_ok _ _ _ _ _ R1). split; [done|]. split; [done|].
  split; intros k Hk; [apply HV|apply HL]; revert Hk; rewrite !elem_of_app; tauto.
Qed.

(** ** What a program does with its configuration *)

Context {N : Type} `{Yaml N}.

Inductive change : Config Ty Z W -> Config Ty Z W -> Prop :=
| change_set p v r s s' : setValue iteration p v s = (r, s') -> change s s'
| change_text p text r s s' : fromString FromStr iteration p text s = (r, s') -> change s s'
| change_load fuel (file : option N) r s s' : LoadFromConf FromStr iteration fuel file s = (r, s') -> change s s'
| change_lookup t name v d r s s' : lookup_default t name v d s = (r, s') -> change s s'
| change_listen p c cb r s s' : datas s !! p = Some c -> funcId s (cv_type c) + 1 < 2 ^ 64 -> listener_ok p cb ->
    addListener p cb s = (r, s') -> change s s'.

(** The start of a program: no variables, the globals as they are declared. *)
Definition new_registry (u : U) : Config Ty Z W := mkConfig ∅ (fun _ => 0) (initial_settings, u).

Definition in_step s : Prop := forall k, exists c, datas s !! setting_name k = Some c /\ get_setting k (world s).1 = u64 (m_val c).

Abbreviation all_settings := (Connect :: http_settings).

Lemma change_keeps s s' n : settled n all_settings all_settings s -> change s s' -> exists n', settled n' all_settings all_settings s'.
Proof.
  intros Hs Hc. destruct Hc as [p v r s s' R|p text r s s' R|fuel file r s s' R|t name v d r s s' R|p c cb r s s' Hc Hn Hok R].
  - exists n. by eapply setValue_keeps.
  - exists n. by eapply fromString_keeps.
  - exists n. by eapply LoadFromConf_keeps.
  - exists n. destruct (datas s !! name) as [c|] eqn:Hd; [|destruct (legal name) eqn:Hl].
    + rewrite lookup_default_run, Hd in R. by injection R as _ <-.
    + destruct (lookup_settled n _ _ t name v d s Hs) as (s1 & R1 & H1 & _); [by apply not_elem_of_dom|done|]. congruence.
    + rewrite lookup_default_run, Hd, Hl in R. by injection R as _ <-.
  - exists (n + 1). destruct Hs as [Hids Hcount Hoks Hval Hset].
    destruct (addListener_run p c cb s Hc Hids Hn) as (id & s1 & R1 & Hfresh & Hids' & Hd & Hw & Hf).
    assert (s1 = s') as <- by congruence. split; [done| | | |].
    + intros t. rewrite Hf. specialize (Hcount t). case_decide; lia.
    + intros q d i cb'. rewrite Hd, lookup_insert_Some. intros [[<- <-]|[_ Hq]]; [|by eapply Hoks]. cbn.
      rewrite lookup_insert_Some. intros [[<- <-]|[_ Hi]]; [done|by eapply Hoks].
    + intros k Hk. destruct (Hval k Hk) as (d & Hdd & Hg). rewrite Hd, Hw. destruct (decide (p = setting_name k)) as [->|Hne].
      * eexists. rewrite lookup_insert_eq. split; [done|]. cbn. congruence.
      * exists d. by rewrite lookup_insert_ne.
    + intros k Hk. destruct (Hset k Hk) as (d & i & cb' & Hdd & Hcb & Hss). rewrite Hd. destruct (decide (p = setting_name k)) as [->|Hne].
      * eexists _, i, cb'. rewrite lookup_insert_eq. split; [done|]. cbn. split; [|done]. rewrite lookup_insert_ne; congruence.
      * exists d, i, cb'. by rewrite lookup_insert_ne.
Qed.

(** C29: In whatever order the files of the program are initialised, the initialisation succeeds, and from then on,
    whatever is set, read from texts, loaded from files, looked up or listened to, each of the configured globals
    (the time limit of connect and the sizes of the HTTP parser) has the value of its variable, as long
    as other listeners return and leave the globals alone. *)
Theorem settings_follow order u :
  order ≡ₚ units ->
  exists s0, static_init order (new_registry u) = (Ok tt, s0) /\ in_step s0 /\ forall s, rtc change s0 s -> in_step s.
Proof.
  intros Hperm. assert (H0 : settled 0 [] [] (new_registry u)).
  { split; [split| | | |]; cbn; try done; intros ? ?%elem_of_nil; done. }
  destruct (Permutation.Permutation_map_inv (fun x : spec => x.1.1) specs Hperm) as (l & -> & Hl).
  destruct (static_init_ok l 0 [] [] (new_registry u)) as (n & V & L & s0 & R & Hs & HV & HL).
  - rewrite <- Hl. apply specs_ok.
  - rewrite <- Hl. apply (bool_decide_unpack _). by vm_compute.
  - done.
  - rewrite <- (Permutation_length Hl). done.
  - intros name _. by apply not_elem_of_dom.
  - assert (Hall : forall k, k ∈ concat l.*2) by (intros k; rewrite <- Hl; destruct k; cbn; set_solver).
    assert (Hs0 : settled n all_settings all_settings s0).
    { eapply settled_weaken; [exact Hs|done|intros k _; apply HV; by apply elem_of_app; right; apply Hall|].
      intros k _. apply HL, elem_of_app. right. apply Hall. }
    assert (Hin : forall s n, settled n all_settings all_settings s -> in_step s).
    { intros s m Hm k. apply (st_val m _ _ s Hm). destruct k; set_solver. }
    exists s0. split; [done|]. split; [by eapply Hin|]. intros s Hrtc. clear R Hs. revert n Hs0.
    induction Hrtc as [s|s1 s2 s3 Hc _ IH]; intros n Hs; [by eapply Hin|]. destruct (change_keeps _ _ _ Hs Hc) as [n' Hn']. by apply (IH n').
Qed.
End settings.

(** ** A witness *)

(** The files in another order than [units]; a time limit of 300 ms is set. *)
Definition other_order {U} : list (M (Config Ty Z (Settings * U)) unit) := [tcpserver_unit; http_unit; fiber_unit; hook_unit].
Definition digits_of_ty (_ : Ty) (s : str) : option Z := if bool_decide (s = []) then None else Some (of_digits 10 s).

Lemma settings_follow_witness :
  exists s0, static_init other_order (new_registry tt) = (Ok tt, s0) /\
    get_setting Connect (world s0).1 = 5000 /\
    get_setting Connect (world (snd (setValue map_to_list (setting_name Connect) 300 s0))).1 = 300.
Proof.
  destruct (settings_follow (H := doc_yaml) digits_of_ty map_to_list ltac:(done) other_order tt) as (s0 & R & Hin & Hall).
  { assert (Hswap : forall A (a b c d : A), [d; b; c; a] ≡ₚ [a; b; c; d]) by (intros; solve_Permutation). apply Hswap. }
  pose proof (Hall _ (rtc_once _ _ (change_set _ _ (setting_name Connect) 300 _ s0 _ (surjective_pairing _))) Connect) as (c & Hc & Hg).
  destruct (Hin Connect) as (c0 & Hc0 & Hg0). exists s0. rewrite Hg, Hg0.
  apply (f_equal snd) in R as Hs0. cbn [snd] in Hs0. rewrite <- Hs0 in Hc, Hc0.
  split; [exact R|]. apply (f_equal (fmap m_val)) in Hc, Hc0.
  assert (H1 : (m_val <$> datas (snd (static_init other_order (new_registry tt))) !! setting_name Connect) = Some 5000) by (vm_compute; reflexivity).
  assert (H2 : (m_val <$> datas (snd (setValue map_to_list (setting_name Connect) 300
    (snd (static_init other_order (new_registry tt))))) !! setting_name Connect) = Some 300) by (vm_compute; reflexivity).
  rewrite H1 in Hc0. rewrite H2 in Hc. injection Hc0 as <-. injection Hc as <-. split; reflexivity.
Defined.
