(* ===== verification/HttpGrammar.v ===== *)
(** * The HTTP grammar, data: src/src/http/http_parser.cc and include/http_parser.h

    The tables, the classes of characters, the enumerations, the parser's record, and the
    functions that only read it.  [HTTP_PARSER_STRICT] is 1, as the header sets it.  A [char]
    is a byte: where the code compares signed ones, the bounds are below 128. *)

From S2P Require Import Prelude Http.
#[local] Set Default Goal Selector "!".

(** ** Characters *)

Abbreviation CR := x0d.
Abbreviation LF := x0a.

Definition eqc (c d : byte) : bool := bool_decide (c = d).
Definition between (lo hi : Z) (c : byte) : bool := (lo <=? b2z c) && (b2z c <=? hi).

(** [(unsigned char)(c | 0x20)]. *)
Definition LOWER (c : byte) : byte := z2b (Z.lor (b2z c) 32).
Definition IS_ALPHA (c : byte) : bool := between 97 122 (LOWER c).
Definition IS_NUM (c : byte) : bool := between 48 57 c.
Definition IS_ALPHANUM (c : byte) : bool := IS_ALPHA c || IS_NUM c.
Definition IS_HEX (c : byte) : bool := IS_NUM c || between 97 102 (LOWER c).
Definition IS_MARK (c : byte) : bool := existsb (eqc c) (lit "-_.!~*'()").
Definition IS_USERINFO_CHAR (c : byte) : bool :=
  IS_ALPHANUM c || IS_MARK c || existsb (eqc c) (lit "%;:&=+$,").

(** What a table leaves out is 0. *)
Definition tokens : list byte :=
  replicate 32 x00 ++
  [" "; "!"; x00; "#"; "$"; "%"; "&"; "'";
   x00; x00; "*"; "+"; x00; "-"; "."; x00;
   "0"; "1"; "2"; "3"; "4"; "5"; "6"; "7";
   "8"; "9"; x00; x00; x00; x00; x00; x00;
   x00; "a"; "b"; "c"; "d"; "e"; "f"; "g";
   "h"; "i"; "j"; "k"; "l"; "m"; "n"; "o";
   "p"; "q"; "r"; "s"; "t"; "u"; "v"; "w";
   "x"; "y"; "z"; x00; x00; x00; "^"; "_";
   "`"; "a"; "b"; "c"; "d"; "e"; "f"; "g";
   "h"; "i"; "j"; "k"; "l"; "m"; "n"; "o";
   "p"; "q"; "r"; "s"; "t"; "u"; "v"; "w";
   "x"; "y"; "z"; x00; "|"; x00; "~"; x00]%byte ++
  replicate 128 x00.

(** The array has 256 elements, and its initializer 128: the others are 0. *)
Definition unhex_table : list Z :=
  replicate 48 (-1) ++
  [0; 1; 2; 3; 4; 5; 6; 7; 8; 9; -1; -1; -1; -1; -1; -1] ++
  [-1; 10; 11; 12; 13; 14; 15; -1; -1; -1; -1; -1; -1; -1; -1; -1] ++
  replicate 16 (-1) ++
  [-1; 10; 11; 12; 13; 14; 15; -1; -1; -1; -1; -1; -1; -1; -1; -1] ++
  replicate 16 (-1) ++
  replicate 128 0.
Definition unhex (c : byte) : Z := default 0 (unhex_table !! Z.to_nat (b2z c)).

Definition normal_url_char : list Z :=
  [0; 0; 0; 0; 246; 255; 255; 127; 255; 255; 255; 255; 255; 255; 255; 127] ++ replicate 16 0.

Definition BIT_AT (a : list Z) (i : Z) : bool :=
  Z.testbit (default 0 (a !! Z.to_nat (Z.shiftr i 3))) (Z.land i 7).

Definition STRICT_TOKEN (c : byte) : byte :=
  if eqc c " " then x00 else default x00 (tokens !! Z.to_nat (b2z c)).
Definition TOKEN (c : byte) : byte := STRICT_TOKEN c.
Definition IS_URL_CHAR (c : byte) : bool := BIT_AT normal_url_char (b2z c).
Definition IS_HOST_CHAR (c : byte) : bool := IS_ALPHANUM c || eqc c "." || eqc c "-".
Definition IS_HEADER_CHAR (c : byte) : bool :=
  eqc c CR || eqc c LF || (b2z c =? 9) || ((31 <? b2z c) && negb (b2z c =? 127)).

(** ** States *)

Inductive state :=
  | s_dead | s_start_req_or_res | s_res_or_resp_H | s_start_res | s_res_H | s_res_HT
  | s_res_HTT | s_res_HTTP | s_res_http_major | s_res_http_dot | s_res_http_minor
  | s_res_http_end | s_res_first_status_code | s_res_status_code | s_res_status_start
  | s_res_status | s_res_line_almost_done | s_start_req | s_req_method
  | s_req_spaces_before_url | s_req_schema | s_req_schema_slash | s_req_schema_slash_slash
  | s_req_server_start | s_req_server | s_req_server_with_at | s_req_path
  | s_req_query_string_start | s_req_query_string | s_req_fragment_start | s_req_fragment
  | s_req_http_start | s_req_http_H | s_req_http_HT | s_req_http_HTT | s_req_http_HTTP
  | s_req_http_I | s_req_http_IC | s_req_http_major | s_req_http_dot | s_req_http_minor
  | s_req_http_end | s_req_line_almost_done | s_header_field_start | s_header_field
  | s_header_value_discard_ws | s_header_value_discard_ws_almost_done
  | s_header_value_discard_lws | s_header_value_start | s_header_value | s_header_value_lws
  | s_header_almost_done | s_chunk_size_start | s_chunk_size | s_chunk_parameters
  | s_chunk_size_almost_done | s_headers_almost_done | s_headers_done | s_chunk_data
  | s_chunk_data_almost_done | s_chunk_data_done | s_body_identity | s_body_identity_eof
  | s_message_done.

(** The value of the enumerator: the first is 1. *)
Definition state_num (s : state) : Z :=
  match s with
  | s_dead => 1 | s_start_req_or_res => 2 | s_res_or_resp_H => 3 | s_start_res => 4
  | s_res_H => 5 | s_res_HT => 6 | s_res_HTT => 7 | s_res_HTTP => 8 | s_res_http_major => 9
  | s_res_http_dot => 10 | s_res_http_minor => 11 | s_res_http_end => 12
  | s_res_first_status_code => 13 | s_res_status_code => 14 | s_res_status_start => 15
  | s_res_status => 16 | s_res_line_almost_done => 17 | s_start_req => 18 | s_req_method => 19
  | s_req_spaces_before_url => 20 | s_req_schema => 21 | s_req_schema_slash => 22
  | s_req_schema_slash_slash => 23 | s_req_server_start => 24 | s_req_server => 25
  | s_req_server_with_at => 26 | s_req_path => 27 | s_req_query_string_start => 28
  | s_req_query_string => 29 | s_req_fragment_start => 30 | s_req_fragment => 31
  | s_req_http_start => 32 | s_req_http_H => 33 | s_req_http_HT => 34 | s_req_http_HTT => 35
  | s_req_http_HTTP => 36 | s_req_http_I => 37 | s_req_http_IC => 38 | s_req_http_major => 39
  | s_req_http_dot => 40 | s_req_http_minor => 41 | s_req_http_end => 42
  | s_req_line_almost_done => 43 | s_header_field_start => 44 | s_header_field => 45
  | s_header_value_discard_ws => 46 | s_header_value_discard_ws_almost_done => 47
  | s_header_value_discard_lws => 48 | s_header_value_start => 49 | s_header_value => 50
  | s_header_value_lws => 51 | s_header_almost_done => 52 | s_chunk_size_start => 53
  | s_chunk_size => 54 | s_chunk_parameters => 55 | s_chunk_size_almost_done => 56
  | s_headers_almost_done => 57 | s_headers_done => 58 | s_chunk_data => 59
  | s_chunk_data_almost_done => 60 | s_chunk_data_done => 61 | s_body_identity => 62
  | s_body_identity_eof => 63 | s_message_done => 64
  end.

Definition PARSING_HEADER (s : state) : bool := state_num s <=? state_num s_headers_done.

Inductive header_states :=
  | h_general | h_C | h_CO | h_CON | h_matching_connection | h_matching_proxy_connection
  | h_matching_content_length | h_matching_transfer_encoding | h_matching_upgrade
  | h_connection | h_content_length | h_content_length_num | h_content_length_ws
  | h_transfer_encoding | h_upgrade | h_matching_transfer_encoding_chunked
  | h_matching_connection_token_start | h_matching_connection_keep_alive
  | h_matching_connection_close | h_matching_connection_upgrade | h_matching_connection_token
  | h_transfer_encoding_chunked | h_connection_keep_alive | h_connection_close
  | h_connection_upgrade.

(** ** Errors *)

Inductive http_errno :=
  | HPE_OK | HPE_CB_message_begin | HPE_CB_url | HPE_CB_header_field | HPE_CB_header_value
  | HPE_CB_headers_complete | HPE_CB_body | HPE_CB_message_complete | HPE_CB_status
  | HPE_CB_chunk_header | HPE_CB_chunk_complete | HPE_INVALID_EOF_STATE | HPE_HEADER_OVERFLOW
  | HPE_CLOSED_CONNECTION | HPE_INVALID_VERSION | HPE_INVALID_STATUS | HPE_INVALID_METHOD
  | HPE_INVALID_URL | HPE_INVALID_HOST | HPE_INVALID_PORT | HPE_INVALID_PATH
  | HPE_INVALID_QUERY_STRING | HPE_INVALID_FRAGMENT | HPE_LF_EXPECTED
  | HPE_INVALID_HEADER_TOKEN | HPE_INVALID_CONTENT_LENGTH | HPE_UNEXPECTED_CONTENT_LENGTH
  | HPE_INVALID_CHUNK_SIZE | HPE_INVALID_CONSTANT | HPE_INVALID_INTERNAL_STATE | HPE_STRICT
  | HPE_PAUSED | HPE_UNKNOWN.

(** The value of the enumerator. *)
Definition errno_num (e : http_errno) : Z :=
  match e with
  | HPE_OK => 0 | HPE_CB_message_begin => 1 | HPE_CB_url => 2 | HPE_CB_header_field => 3
  | HPE_CB_header_value => 4 | HPE_CB_headers_complete => 5 | HPE_CB_body => 6
  | HPE_CB_message_complete => 7 | HPE_CB_status => 8 | HPE_CB_chunk_header => 9
  | HPE_CB_chunk_complete => 10 | HPE_INVALID_EOF_STATE => 11 | HPE_HEADER_OVERFLOW => 12
  | HPE_CLOSED_CONNECTION => 13 | HPE_INVALID_VERSION => 14 | HPE_INVALID_STATUS => 15
  | HPE_INVALID_METHOD => 16 | HPE_INVALID_URL => 17 | HPE_INVALID_HOST => 18
  | HPE_INVALID_PORT => 19 | HPE_INVALID_PATH => 20 | HPE_INVALID_QUERY_STRING => 21
  | HPE_INVALID_FRAGMENT => 22 | HPE_LF_EXPECTED => 23 | HPE_INVALID_HEADER_TOKEN => 24
  | HPE_INVALID_CONTENT_LENGTH => 25 | HPE_UNEXPECTED_CONTENT_LENGTH => 26
  | HPE_INVALID_CHUNK_SIZE => 27 | HPE_INVALID_CONSTANT => 28
  | HPE_INVALID_INTERNAL_STATE => 29 | HPE_STRICT => 30 | HPE_PAUSED => 31 | HPE_UNKNOWN => 32
  end.

Definition http_strerror_tab : list (str * str) :=
  [(lit "HPE_OK", lit "success");
   (lit "HPE_CB_message_begin", lit "the on_message_begin callback failed");
   (lit "HPE_CB_url", lit "the on_url callback failed");
   (lit "HPE_CB_header_field", lit "the on_header_field callback failed");
   (lit "HPE_CB_header_value", lit "the on_header_value callback failed");
   (lit "HPE_CB_headers_complete", lit "the on_headers_complete callback failed");
   (lit "HPE_CB_body", lit "the on_body callback failed");
   (lit "HPE_CB_message_complete", lit "the on_message_complete callback failed");
   (lit "HPE_CB_status", lit "the on_status callback failed");
   (lit "HPE_CB_chunk_header", lit "the on_chunk_header callback failed");
   (lit "HPE_CB_chunk_complete", lit "the on_chunk_complete callback failed");
   (lit "HPE_INVALID_EOF_STATE", lit "stream ended at an unexpected time");
   (lit "HPE_HEADER_OVERFLOW", lit "too many header bytes seen; overflow detected");
   (lit "HPE_CLOSED_CONNECTION", lit "data received after completed connection: close message");
   (lit "HPE_INVALID_VERSION", lit "invalid HTTP version");
   (lit "HPE_INVALID_STATUS", lit "invalid HTTP status code");
   (lit "HPE_INVALID_METHOD", lit "invalid HTTP method");
   (lit "HPE_INVALID_URL", lit "invalid URL");
   (lit "HPE_INVALID_HOST", lit "invalid host");
   (lit "HPE_INVALID_PORT", lit "invalid port");
   (lit "HPE_INVALID_PATH", lit "invalid path");
   (lit "HPE_INVALID_QUERY_STRING", lit "invalid query string");
   (lit "HPE_INVALID_FRAGMENT", lit "invalid fragment");
   (lit "HPE_LF_EXPECTED", lit "LF character expected");
   (lit "HPE_INVALID_HEADER_TOKEN", lit "invalid character in header");
   (lit "HPE_INVALID_CONTENT_LENGTH", lit "invalid character in content-length header");
   (lit "HPE_UNEXPECTED_CONTENT_LENGTH", lit "unexpected content-length header");
   (lit "HPE_INVALID_CHUNK_SIZE", lit "invalid character in chunk size header");
   (lit "HPE_INVALID_CONSTANT", lit "invalid constant string");
   (lit "HPE_INVALID_INTERNAL_STATE", lit "encountered unexpected internal state");
   (lit "HPE_STRICT", lit "strict mode assertion failed");
   (lit "HPE_PAUSED", lit "parser is paused");
   (lit "HPE_UNKNOWN", lit "an unknown error occurred")].

(** The assertion fails on what is not an enumerator. *)
Definition http_errno_name (err : Z) : option str :=
  if (0 <=? err) && (err <? Z.of_nat (length http_strerror_tab))
  then fst <$> http_strerror_tab !! Z.to_nat err else None.
Definition http_errno_description (err : Z) : option str :=
  if (0 <=? err) && (err <? Z.of_nat (length http_strerror_tab))
  then snd <$> http_strerror_tab !! Z.to_nat err else None.

(** ** The flags and the methods *)

Definition F_CHUNKED : Z := 1.
Definition F_CONNECTION_KEEP_ALIVE : Z := 2.
Definition F_CONNECTION_CLOSE : Z := 4.
Definition F_CONNECTION_UPGRADE : Z := 8.
Definition F_TRAILING : Z := 16.
Definition F_UPGRADE : Z := 32.
Definition F_SKIPBODY : Z := 64.
Definition F_CONTENTLENGTH : Z := 128.

Definition HTTP_DELETE : Z := 0.
Definition HTTP_GET : Z := 1.
Definition HTTP_HEAD : Z := 2.
Definition HTTP_POST : Z := 3.
Definition HTTP_PUT : Z := 4.
Definition HTTP_CONNECT : Z := 5.
Definition HTTP_OPTIONS : Z := 6.
Definition HTTP_TRACE : Z := 7.
Definition HTTP_COPY : Z := 8.
Definition HTTP_LOCK : Z := 9.
Definition HTTP_MKCOL : Z := 10.
Definition HTTP_MOVE : Z := 11.
Definition HTTP_PROPFIND : Z := 12.
Definition HTTP_PROPPATCH : Z := 13.
Definition HTTP_SEARCH : Z := 14.
Definition HTTP_UNLOCK : Z := 15.
Definition HTTP_BIND : Z := 16.
Definition HTTP_REBIND : Z := 17.
Definition HTTP_UNBIND : Z := 18.
Definition HTTP_ACL : Z := 19.
Definition HTTP_REPORT : Z := 20.
Definition HTTP_MKACTIVITY : Z := 21.
Definition HTTP_CHECKOUT : Z := 22.
Definition HTTP_MERGE : Z := 23.
Definition HTTP_MSEARCH : Z := 24.
Definition HTTP_NOTIFY : Z := 25.
Definition HTTP_SUBSCRIBE : Z := 26.
Definition HTTP_UNSUBSCRIBE : Z := 27.
Definition HTTP_PATCH : Z := 28.
Definition HTTP_PURGE : Z := 29.
Definition HTTP_MKCALENDAR : Z := 30.
Definition HTTP_LINK : Z := 31.
Definition HTTP_UNLINK : Z := 32.
Definition HTTP_SOURCE : Z := 33.

Definition method_strings : list str := snd <$> HTTP_METHOD_MAP.

(** [ELEM_AT]: the method is an unsigned index. *)
Definition http_method_str (m : Z) : str := default (lit "<unknown>") (method_strings !! Z.to_nat (u32 m)).
Definition http_status_str (s : Z) : str := default (lit "<unknown>") (status_entry s HTTP_STATUS_MAP).

(** ** The parser *)

Inductive http_parser_type := HTTP_REQUEST | HTTP_RESPONSE | HTTP_BOTH.

(** The bit-fields [flags], [index], [status_code] and [method] have 8, 7, 16 and 8 bits; the
    application's pointer [data] is left out. *)
Record http_parser := mkHP {
  pr_type : http_parser_type;
  pr_flags : Z;
  pr_state : state;
  pr_header_state : header_states;
  pr_index : Z;
  pr_lenient : bool;
  pr_nread : Z;
  pr_content_length : Z;
  pr_http_major : Z;
  pr_http_minor : Z;
  pr_status_code : Z;
  pr_method : Z;
  pr_errno : http_errno;
  pr_upgrade : bool
}.

Definition set_type (v : http_parser_type) (q : http_parser) : http_parser :=
  mkHP v (pr_flags q) (pr_state q) (pr_header_state q) (pr_index q) (pr_lenient q) (pr_nread q)
  (pr_content_length q) (pr_http_major q) (pr_http_minor q) (pr_status_code q) (pr_method q)
  (pr_errno q) (pr_upgrade q).
Definition set_flags (v : Z) (q : http_parser) : http_parser :=
  mkHP (pr_type q) (wrap 8 v) (pr_state q) (pr_header_state q) (pr_index q) (pr_lenient q)
  (pr_nread q) (pr_content_length q) (pr_http_major q) (pr_http_minor q) (pr_status_code q)
  (pr_method q) (pr_errno q) (pr_upgrade q).
Definition set_state (v : state) (q : http_parser) : http_parser :=
  mkHP (pr_type q) (pr_flags q) v (pr_header_state q) (pr_index q) (pr_lenient q) (pr_nread q)
  (pr_content_length q) (pr_http_major q) (pr_http_minor q) (pr_status_code q) (pr_method q)
  (pr_errno q) (pr_upgrade q).
Definition set_header_state (v : header_states) (q : http_parser) : http_parser :=
  mkHP (pr_type q) (pr_flags q) (pr_state q) v (pr_index q) (pr_lenient q) (pr_nread q)
  (pr_content_length q) (pr_http_major q) (pr_http_minor q) (pr_status_code q) (pr_method q)
  (pr_errno q) (pr_upgrade q).
Definition set_index (v : Z) (q : http_parser) : http_parser :=
  mkHP (pr_type q) (pr_flags q) (pr_state q) (pr_header_state q) (wrap 7 v) (pr_lenient q)
  (pr_nread q) (pr_content_length q) (pr_http_major q) (pr_http_minor q) (pr_status_code q)
  (pr_method q) (pr_errno q) (pr_upgrade q).
Definition set_nread (v : Z) (q : http_parser) : http_parser :=
  mkHP (pr_type q) (pr_flags q) (pr_state q) (pr_header_state q) (pr_index q) (pr_lenient q) v
  (pr_content_length q) (pr_http_major q) (pr_http_minor q) (pr_status_code q) (pr_method q)
  (pr_errno q) (pr_upgrade q).
Definition set_content_length (v : Z) (q : http_parser) : http_parser :=
  mkHP (pr_type q) (pr_flags q) (pr_state q) (pr_header_state q) (pr_index q) (pr_lenient q)
  (pr_nread q) v (pr_http_major q) (pr_http_minor q) (pr_status_code q) (pr_method q) (pr_errno q)
  (pr_upgrade q).
Definition set_http_major (v : Z) (q : http_parser) : http_parser :=
  mkHP (pr_type q) (pr_flags q) (pr_state q) (pr_header_state q) (pr_index q) (pr_lenient q)
  (pr_nread q) (pr_content_length q) v (pr_http_minor q) (pr_status_code q) (pr_method q)
  (pr_errno q) (pr_upgrade q).
Definition set_http_minor (v : Z) (q : http_parser) : http_parser :=
  mkHP (pr_type q) (pr_flags q) (pr_state q) (pr_header_state q) (pr_index q) (pr_lenient q)
  (pr_nread q) (pr_content_length q) (pr_http_major q) v (pr_status_code q) (pr_method q)
  (pr_errno q) (pr_upgrade q).
Definition set_status_code (v : Z) (q : http_parser) : http_parser :=
  mkHP (pr_type q) (pr_flags q) (pr_state q) (pr_header_state q) (pr_index q) (pr_lenient q)
  (pr_nread q) (pr_content_length q) (pr_http_major q) (pr_http_minor q) (wrap 16 v) (pr_method q)
  (pr_errno q) (pr_upgrade q).
Definition set_method (v : Z) (q : http_parser) : http_parser :=
  mkHP (pr_type q) (pr_flags q) (pr_state q) (pr_header_state q) (pr_index q) (pr_lenient q)
  (pr_nread q) (pr_content_length q) (pr_http_major q) (pr_http_minor q) (pr_status_code q)
  (wrap 8 v) (pr_errno q) (pr_upgrade q).
Definition set_errno (v : http_errno) (q : http_parser) : http_parser :=
  mkHP (pr_type q) (pr_flags q) (pr_state q) (pr_header_state q) (pr_index q) (pr_lenient q)
  (pr_nread q) (pr_content_length q) (pr_http_major q) (pr_http_minor q) (pr_status_code q)
  (pr_method q) v (pr_upgrade q).
Definition set_upgrade (v : bool) (q : http_parser) : http_parser :=
  mkHP (pr_type q) (pr_flags q) (pr_state q) (pr_header_state q) (pr_index q) (pr_lenient q)
  (pr_nread q) (pr_content_length q) (pr_http_major q) (pr_http_minor q) (pr_status_code q)
  (pr_method q) (pr_errno q) v.

Definition flag_on (f : Z) (q : http_parser) : bool := negb (Z.land (pr_flags q) f =? 0).
Definition raise (f : Z) (q : http_parser) : http_parser := set_flags (Z.lor (pr_flags q) f) q.
(** [parser->flags = 0; parser->content_length = ULLONG_MAX]. *)
Definition ULLONG_MAX : Z := 2 ^ 64 - 1.
Definition new_message (q : http_parser) : http_parser := set_content_length ULLONG_MAX (set_flags 0 q).

(** [memset] gives [type] 0, which is [HTTP_REQUEST], before it is set. *)
Definition http_parser_init (t : http_parser_type) : http_parser :=
  mkHP t 0
    (match t with HTTP_REQUEST => s_start_req | HTTP_RESPONSE => s_start_res | HTTP_BOTH => s_start_req_or_res end)
    h_general 0 false 0 0 0 0 0 0 HPE_OK false.

Definition is_request (q : http_parser) : bool := match pr_type q with HTTP_REQUEST => true | _ => false end.
Definition is_ok (q : http_parser) : bool := match pr_errno q with HPE_OK => true | _ => false end.

Definition http_message_needs_eof (q : http_parser) : bool :=
  if is_request q then false
  else if (Z.quot (pr_status_code q) 100 =? 1) || (pr_status_code q =? 204) || (pr_status_code q =? 304) ||
          flag_on F_SKIPBODY q then false
  else if flag_on F_CHUNKED q || negb (pr_content_length q =? ULLONG_MAX) then false
  else true.

Definition http_should_keep_alive (q : http_parser) : bool :=
  if (0 <? pr_http_major q) && (0 <? pr_http_minor q) then
    if flag_on F_CONNECTION_CLOSE q then false else negb (http_message_needs_eof q)
  else
    if negb (flag_on F_CONNECTION_KEEP_ALIVE q) then false else negb (http_message_needs_eof q).

Definition start_state (q : http_parser) : state := if is_request q then s_start_req else s_start_res.
Definition NEW_MESSAGE (q : http_parser) : state := if http_should_keep_alive q then start_state q else s_dead.

(** The assertion fails for a parser in error. *)
Definition http_parser_pause (paused : bool) (q : http_parser) : option http_parser :=
  match pr_errno q with
  | HPE_OK | HPE_PAUSED => Some (set_errno (if paused then HPE_PAUSED else HPE_OK) q)
  | _ => None
  end.

Definition http_body_is_final (q : http_parser) : bool :=
  match pr_state q with s_message_done => true | _ => false end.

Definition http_parser_version : Z := Z.lor (Z.lor (2 * 65536) (9 * 256)) (2 * 1).

(** The default of [max_header_size]. *)
Definition HTTP_MAX_HEADER_SIZE : Z := 80 * 1024.

(** ** The URL automaton *)

(** The cases of a state that do not pass are the last line's [s_dead]. *)
Definition parse_url_char (s : state) (ch : byte) : state :=
  if eqc ch " " || eqc ch CR || eqc ch LF then s_dead
  else if eqc ch x09 || eqc ch x0c then s_dead
  else match s with
  | s_req_spaces_before_url =>
      if eqc ch "/" || eqc ch "*" then s_req_path
      else if IS_ALPHA ch then s_req_schema else s_dead
  | s_req_schema =>
      if IS_ALPHA ch then s else if eqc ch ":" then s_req_schema_slash else s_dead
  | s_req_schema_slash => if eqc ch "/" then s_req_schema_slash_slash else s_dead
  | s_req_schema_slash_slash => if eqc ch "/" then s_req_server_start else s_dead
  | s_req_server_with_at | s_req_server_start | s_req_server =>
      if match s with s_req_server_with_at => eqc ch "@" | _ => false end then s_dead
      else if eqc ch "/" then s_req_path
      else if eqc ch "?" then s_req_query_string_start
      else if eqc ch "@" then s_req_server_with_at
      else if IS_USERINFO_CHAR ch || eqc ch "[" || eqc ch "]" then s_req_server else s_dead
  | s_req_path =>
      if IS_URL_CHAR ch then s
      else if eqc ch "?" then s_req_query_string_start
      else if eqc ch "#" then s_req_fragment_start else s_dead
  | s_req_query_string_start | s_req_query_string =>
      if IS_URL_CHAR ch then s_req_query_string
      else if eqc ch "?" then s_req_query_string
      else if eqc ch "#" then s_req_fragment_start else s_dead
  | s_req_fragment_start =>
      if IS_URL_CHAR ch then s_req_fragment
      else if eqc ch "?" then s_req_fragment
      else if eqc ch "#" then s else s_dead
  | s_req_fragment =>
      if IS_URL_CHAR ch then s
      else if eqc ch "?" || eqc ch "#" then s else s_dead
  | _ => s_dead
  end.
