(* ===== verification/HttpExecute.v ===== *)
(** * The HTTP grammar, execution: http_parser_execute of src/src/http/http_parser.cc

    One definition for each group of states of the [switch], over the function's local
    variables: a pointer into the data is the offset, a mark the offset or nothing.  What the
    code leaves by [goto error] or [return] is a stop; a failed assertion or an access out of
    the data is a crash.  The callbacks are arguments, called with the parser as the code has
    it then; each call is recorded in [trace]. *)

From S2P Require Import Prelude Http HttpGrammar.
#[local] Set Default Goal Selector "!".

Inductive notify := cb_message_begin | cb_headers_complete | cb_message_complete | cb_chunk_header | cb_chunk_complete.
Inductive data_cb := cb_url | cb_status | cb_header_field | cb_header_value | cb_body.

(** A callback returns an [int] and may change the parser, as [http_parser_pause] does; it may
    be absent. *)
Record http_parser_settings := mkSettings {
  on_notify : notify -> option (http_parser -> Z * http_parser);
  on_data : data_cb -> option (http_parser -> str -> Z * http_parser)
}.

(** [http_parser_settings_init]. *)
Definition http_parser_settings_init : http_parser_settings := mkSettings (fun _ => None) (fun _ => None).

Definition notify_errno (f : notify) : http_errno :=
  match f with
  | cb_message_begin => HPE_CB_message_begin
  | cb_headers_complete => HPE_CB_headers_complete
  | cb_message_complete => HPE_CB_message_complete
  | cb_chunk_header => HPE_CB_chunk_header
  | cb_chunk_complete => HPE_CB_chunk_complete
  end.
Definition data_errno (f : data_cb) : http_errno :=
  match f with
  | cb_url => HPE_CB_url
  | cb_status => HPE_CB_status
  | cb_header_field => HPE_CB_header_field
  | cb_header_value => HPE_CB_header_value
  | cb_body => HPE_CB_body
  end.

Inductive event :=
| Notify (f : notify) (q : http_parser)
| Data (f : data_cb) (bytes : str) (q : http_parser).

(** The local variables, and the parser pointed to. *)
Record locals := mkX {
  parser : http_parser;
  p_state : state;
  nread : Z;
  p : nat;
  ch : byte;
  header_field_mark : option nat;
  header_value_mark : option nat;
  url_mark : option nat;
  body_mark : option nat;
  status_mark : option nat;
  trace : list event
}.

Definition x_parser (f : http_parser -> http_parser) (x : locals) : locals :=
  mkX (f (parser x)) (p_state x) (nread x) (p x) (ch x) (header_field_mark x) (header_value_mark x)
    (url_mark x) (body_mark x) (status_mark x) (trace x).
Definition x_state (s : state) (x : locals) : locals :=
  mkX (parser x) s (nread x) (p x) (ch x) (header_field_mark x) (header_value_mark x)
    (url_mark x) (body_mark x) (status_mark x) (trace x).
Definition x_nread (n : Z) (x : locals) : locals :=
  mkX (parser x) (p_state x) n (p x) (ch x) (header_field_mark x) (header_value_mark x)
    (url_mark x) (body_mark x) (status_mark x) (trace x).
Definition x_p (f : nat -> nat) (x : locals) : locals :=
  mkX (parser x) (p_state x) (nread x) (f (p x)) (ch x) (header_field_mark x) (header_value_mark x)
    (url_mark x) (body_mark x) (status_mark x) (trace x).
Definition x_ch (c : byte) (x : locals) : locals :=
  mkX (parser x) (p_state x) (nread x) (p x) c (header_field_mark x) (header_value_mark x)
    (url_mark x) (body_mark x) (status_mark x) (trace x).
Definition x_event (e : event) (x : locals) : locals :=
  mkX (parser x) (p_state x) (nread x) (p x) (ch x) (header_field_mark x) (header_value_mark x)
    (url_mark x) (body_mark x) (status_mark x) (trace x ++ [e]).

Definition mark (f : data_cb) (x : locals) : option nat :=
  match f with
  | cb_url => url_mark x
  | cb_status => status_mark x
  | cb_header_field => header_field_mark x
  | cb_header_value => header_value_mark x
  | cb_body => body_mark x
  end.
Definition x_mark (f : data_cb) (m : option nat) (x : locals) : locals :=
  mkX (parser x) (p_state x) (nread x) (p x) (ch x)
    (match f with cb_header_field => m | _ => header_field_mark x end)
    (match f with cb_header_value => m | _ => header_value_mark x end)
    (match f with cb_url => m | _ => url_mark x end)
    (match f with cb_body => m | _ => body_mark x end)
    (match f with cb_status => m | _ => status_mark x end) (trace x).

(** ** Control *)

Inductive stop := goto_error | returned (n : nat) | crashing (c : crash).

Definition X (A : Type) : Type := locals -> (A + stop) * locals.
#[export] Instance X_ret : MRet X := fun A a x => (inl a, x).
#[export] Instance X_bind : MBind X := fun A B f m x =>
  match m x with
  | (inl a, x) => f a x
  | (inr s, x) => (inr s, x)
  end.

Definition stops {A} (s : stop) : X A := fun x => (inr s, x).
Definition the {A} (f : locals -> A) : X A := fun x => (inl (f x), x).
Definition upd (f : locals -> locals) : X unit := fun x => (inl tt, f x).
Definition with_parser (f : http_parser -> http_parser) : X unit := upd (x_parser f).
Definition check (b : bool) : X unit := if b then mret tt else stops (crashing AssertFail).
Definition only_if (b : bool) (m : X unit) : X unit := if b then m else mret tt.

(** What follows the [switch] for this byte: the next byte, or the same one again. *)
Inductive turn := Break | Reexecute.

Definition UPDATE_STATE (s : state) : X unit := upd (x_state s).
Definition SET_ERRNO (e : http_errno) : X unit := upd (fun x => x_parser (fun q => set_errno e (set_nread (nread x) q)) x).
Definition RETURN {A} (n : nat) : X A :=
  upd (fun x => x_parser (fun q => set_state (p_state x) (set_nread (nread x) q)) x) ;; stops (returned n).
Definition fails {A} (e : http_errno) : X A := SET_ERRNO e ;; stops goto_error.
Definition STRICT_CHECK (cond : bool) : X unit := only_if cond (fails HPE_STRICT).
Definition next (s : state) : X turn := UPDATE_STATE s ;; mret Break.

Section execute.
Context (settings : http_parser_settings) (max_header_size : Z) (data : str) (lenient : bool).

Definition len : nat := length data.

(** [ch = *p]. *)
Definition read_ch : X unit := fun x =>
  match data !! p x with
  | Some c => (inl tt, x_ch c x)
  | None => (inr (crashing OutOfBounds), x)
  end.

Definition COUNT_HEADER_SIZE (v : nat) : X unit :=
  upd (fun x => x_nread (u32 (nread x + u32 (Z.of_nat v))) x) ;;
  n ← the nread; only_if (max_header_size <? n) (fails HPE_HEADER_OVERFLOW).

Definition MARK (f : data_cb) : X unit :=
  upd (fun x => match mark f x with None => x_mark f (Some (p x)) x | Some _ => x end).

(** What the two macros do with the callback's result. *)
Definition after_callback (failed : bool) (e : http_errno) (er : nat) : X unit :=
  only_if failed (SET_ERRNO e) ;;
  s ← the (fun x => pr_state (parser x)); UPDATE_STATE s ;;
  ok ← the (fun x => is_ok (parser x)); only_if (negb ok) (stops (returned er)).

Definition CALLBACK_NOTIFY_ (f : notify) (er : nat) : X unit :=
  ok ← the (fun x => is_ok (parser x)); check ok ;;
  match on_notify settings f with
  | None => mret tt
  | Some cb =>
      s ← the p_state; with_parser (set_state s) ;;
      q ← the parser;
      upd (x_event (Notify f q)) ;;
      with_parser (fun _ => snd (cb q)) ;;
      after_callback (negb (fst (cb q) =? 0)) (notify_errno f) er
  end.
Definition CALLBACK_NOTIFY (f : notify) : X unit := n ← the p; CALLBACK_NOTIFY_ f (S n).
Definition CALLBACK_NOTIFY_NOADVANCE (f : notify) : X unit := n ← the p; CALLBACK_NOTIFY_ f n.

(** [span] is the length as a function of the mark; the bytes it designates are read. *)
Definition CALLBACK_DATA_ (f : data_cb) (span : nat -> Z) (er : nat) : X unit :=
  ok ← the (fun x => is_ok (parser x)); check ok ;;
  m ← the (mark f);
  match m with
  | None => mret tt
  | Some m =>
      only_if (negb ((0 <=? span m) && (Z.of_nat m + span m <=? Z.of_nat len))) (stops (crashing OutOfBounds)) ;;
      match on_data settings f with
      | None => mret tt
      | Some cb =>
          s ← the p_state; with_parser (set_state s) ;;
          q ← the parser;
          let bytes := slice m (Z.to_nat (span m)) data in
          upd (x_event (Data f bytes q)) ;;
          with_parser (fun _ => snd (cb q bytes)) ;;
          after_callback (negb (fst (cb q bytes) =? 0)) (data_errno f) er
      end ;;
      upd (x_mark f None)
  end.
Definition CALLBACK_DATA (f : data_cb) : X unit :=
  n ← the p; CALLBACK_DATA_ f (fun m => Z.of_nat n - Z.of_nat m) (S n).
Definition CALLBACK_DATA_NOADVANCE (f : data_cb) : X unit :=
  n ← the p; CALLBACK_DATA_ f (fun m => Z.of_nat n - Z.of_nat m) n.

Definition unhandled : X turn := stops (crashing AssertFail).

(** ** The start of a message *)

Definition start_line (s : state) (c : byte) : X turn :=
  match s with
  | s_dead => if eqc c CR || eqc c LF then mret Break else fails HPE_CLOSED_CONNECTION
  | s_start_req_or_res =>
      if eqc c CR || eqc c LF then mret Break
      else
        with_parser new_message ;;
        if eqc c "H" then
          UPDATE_STATE s_res_or_resp_H ;; CALLBACK_NOTIFY cb_message_begin ;; mret Break
        else
          with_parser (set_type HTTP_REQUEST) ;; UPDATE_STATE s_start_req ;; mret Reexecute
  | s_res_or_resp_H =>
      if eqc c "T" then with_parser (set_type HTTP_RESPONSE) ;; next s_res_HT
      else
        only_if (negb (eqc c "E")) (fails HPE_INVALID_CONSTANT) ;;
        with_parser (fun q => set_index 2 (set_method HTTP_HEAD (set_type HTTP_REQUEST q))) ;;
        next s_req_method
  | s_start_res =>
      if eqc c CR || eqc c LF then mret Break
      else
        with_parser new_message ;;
        (if eqc c "H" then UPDATE_STATE s_res_H else fails HPE_INVALID_CONSTANT) ;;
        CALLBACK_NOTIFY cb_message_begin ;; mret Break
  | _ => unhandled
  end.

(** ** The status line *)

Definition digit_of (c : byte) : Z := b2z c - 48.

Definition status_line (s : state) (c : byte) : X turn :=
  match s with
  | s_res_H => STRICT_CHECK (negb (eqc c "T")) ;; next s_res_HT
  | s_res_HT => STRICT_CHECK (negb (eqc c "T")) ;; next s_res_HTT
  | s_res_HTT => STRICT_CHECK (negb (eqc c "P")) ;; next s_res_HTTP
  | s_res_HTTP => STRICT_CHECK (negb (eqc c "/")) ;; next s_res_http_major
  | s_res_http_major =>
      only_if (negb (IS_NUM c)) (fails HPE_INVALID_VERSION) ;;
      with_parser (set_http_major (digit_of c)) ;; next s_res_http_dot
  | s_res_http_dot => only_if (negb (eqc c ".")) (fails HPE_INVALID_VERSION) ;; next s_res_http_minor
  | s_res_http_minor =>
      only_if (negb (IS_NUM c)) (fails HPE_INVALID_VERSION) ;;
      with_parser (set_http_minor (digit_of c)) ;; next s_res_http_end
  | s_res_http_end => only_if (negb (eqc c " ")) (fails HPE_INVALID_VERSION) ;; next s_res_first_status_code
  | s_res_first_status_code =>
      if negb (IS_NUM c) then if eqc c " " then mret Break else fails HPE_INVALID_STATUS
      else with_parser (set_status_code (digit_of c)) ;; next s_res_status_code
  | s_res_status_code =>
      if negb (IS_NUM c) then
        if eqc c " " then next s_res_status_start
        else if eqc c CR || eqc c LF then UPDATE_STATE s_res_status_start ;; mret Reexecute
        else fails HPE_INVALID_STATUS
      else
        with_parser (fun q => set_status_code (pr_status_code q * 10) q) ;;
        with_parser (fun q => set_status_code (pr_status_code q + digit_of c) q) ;;
        v ← the (fun x => pr_status_code (parser x));
        only_if (999 <? v) (fails HPE_INVALID_STATUS) ;; mret Break
  | s_res_status_start =>
      MARK cb_status ;; UPDATE_STATE s_res_status ;; with_parser (set_index 0) ;;
      if eqc c CR || eqc c LF then mret Reexecute else mret Break
  | s_res_status =>
      if eqc c CR then UPDATE_STATE s_res_line_almost_done ;; CALLBACK_DATA cb_status ;; mret Break
      else if eqc c LF then UPDATE_STATE s_header_field_start ;; CALLBACK_DATA cb_status ;; mret Break
      else mret Break
  | s_res_line_almost_done => STRICT_CHECK (negb (eqc c LF)) ;; next s_header_field_start
  | _ => unhandled
  end.

(** ** The request line *)

(** The method its first letter suggests. *)
Definition first_method (c : byte) : option Z :=
  match c with
  | "A" => Some HTTP_ACL | "B" => Some HTTP_BIND | "C" => Some HTTP_CONNECT | "D" => Some HTTP_DELETE
  | "G" => Some HTTP_GET | "H" => Some HTTP_HEAD | "L" => Some HTTP_LOCK | "M" => Some HTTP_MKCOL
  | "N" => Some HTTP_NOTIFY | "O" => Some HTTP_OPTIONS | "P" => Some HTTP_POST | "R" => Some HTTP_REPORT
  | "S" => Some HTTP_SUBSCRIBE | "T" => Some HTTP_TRACE | "U" => Some HTTP_UNLOCK
  | _ => None
  end%byte.

Definition start_req (c : byte) : X turn :=
  if eqc c CR || eqc c LF then mret Break
  else
    with_parser new_message ;;
    only_if (negb (IS_ALPHA c)) (fails HPE_INVALID_METHOD) ;;
    with_parser (fun q => set_index 1 (set_method 0 q)) ;;
    match first_method c with
    | Some m => with_parser (set_method m)
    | None => fails HPE_INVALID_METHOD
    end ;;
    UPDATE_STATE s_req_method ;; CALLBACK_NOTIFY cb_message_begin ;; mret Break.

(** The table [XX(meth, pos, ch, new_meth)]. *)
Definition method_switch : list (Z * Z * byte * Z) :=
  [(HTTP_POST, 1, "U", HTTP_PUT); (HTTP_POST, 1, "A", HTTP_PATCH); (HTTP_POST, 1, "R", HTTP_PROPFIND);
   (HTTP_PUT, 2, "R", HTTP_PURGE); (HTTP_CONNECT, 1, "H", HTTP_CHECKOUT); (HTTP_CONNECT, 2, "P", HTTP_COPY);
   (HTTP_MKCOL, 1, "O", HTTP_MOVE); (HTTP_MKCOL, 1, "E", HTTP_MERGE); (HTTP_MKCOL, 1, "-", HTTP_MSEARCH);
   (HTTP_MKCOL, 2, "A", HTTP_MKACTIVITY); (HTTP_MKCOL, 3, "A", HTTP_MKCALENDAR);
   (HTTP_SUBSCRIBE, 1, "E", HTTP_SEARCH); (HTTP_SUBSCRIBE, 1, "O", HTTP_SOURCE);
   (HTTP_REPORT, 2, "B", HTTP_REBIND); (HTTP_PROPFIND, 4, "P", HTTP_PROPPATCH);
   (HTTP_LOCK, 1, "I", HTTP_LINK); (HTTP_UNLOCK, 2, "S", HTTP_UNSUBSCRIBE);
   (HTTP_UNLOCK, 2, "B", HTTP_UNBIND); (HTTP_UNLOCK, 3, "I", HTTP_UNLINK)]%byte.

Fixpoint switched (m i : Z) (c : byte) (l : list (Z * Z * byte * Z)) : option Z :=
  match l with
  | [] => None
  | (meth, pos, d, new_meth) :: l =>
      if (meth =? m) && (pos =? i) && eqc d c then Some new_meth else switched m i c l
  end.

(** [matcher[parser->index]]: the terminator is at the length; nothing is beyond it. *)
Definition matcher_at (m i : Z) : option byte :=
  matcher ← method_strings !! Z.to_nat m; (matcher ++ [x00]) !! Z.to_nat i.

(** The method [parser->method] becomes with this character, [inr] when the word ends. *)
Definition req_method (c : byte) : X turn :=
  only_if (eqc c x00) (fails HPE_INVALID_METHOD) ;;
  m ← the (fun x => pr_method (parser x)); i ← the (fun x => pr_index (parser x));
  match matcher_at m i with
  | None => stops (crashing OutOfBounds)
  | Some d =>
      (if eqc c " " && eqc d x00 then UPDATE_STATE s_req_spaces_before_url
       else if eqc c d then mret tt
       else if between 65 90 c || eqc c "-" then
         match switched m i c method_switch with
         | Some m => with_parser (set_method m)
         | None => fails HPE_INVALID_METHOD
         end
       else fails HPE_INVALID_METHOD) ;;
      with_parser (fun q => set_index (pr_index q + 1) q) ;; mret Break
  end.

(** [UPDATE_STATE(parse_url_char(CURRENT_STATE(), ch))] with the check. *)
Definition url_char (c : byte) : X turn :=
  s ← the p_state; UPDATE_STATE (parse_url_char s c) ;;
  s ← the p_state;
  match s with
  | s_dead => fails HPE_INVALID_URL
  | _ => mret Break
  end.

Definition request_url (s : state) (c : byte) : X turn :=
  match s with
  | s_req_spaces_before_url =>
      if eqc c " " then mret Break
      else
        MARK cb_url ;;
        m ← the (fun x => pr_method (parser x));
        only_if (m =? HTTP_CONNECT) (UPDATE_STATE s_req_server_start) ;;
        url_char c
  | s_req_schema | s_req_schema_slash | s_req_schema_slash_slash | s_req_server_start =>
      if eqc c " " || eqc c CR || eqc c LF then fails HPE_INVALID_URL else url_char c
  | s_req_server | s_req_server_with_at | s_req_path | s_req_query_string_start | s_req_query_string
  | s_req_fragment_start | s_req_fragment =>
      if eqc c " " then UPDATE_STATE s_req_http_start ;; CALLBACK_DATA cb_url ;; mret Break
      else if eqc c CR || eqc c LF then
        with_parser (fun q => set_http_minor 9 (set_http_major 0 q)) ;;
        UPDATE_STATE (if eqc c CR then s_req_line_almost_done else s_header_field_start) ;;
        CALLBACK_DATA cb_url ;; mret Break
      else url_char c
  | _ => unhandled
  end.

Definition request_version (s : state) (c : byte) : X turn :=
  match s with
  | s_req_http_start =>
      m ← the (fun x => pr_method (parser x));
      if eqc c " " then mret Break
      else if eqc c "H" then next s_req_http_H
      else if eqc c "I" && (m =? HTTP_SOURCE) then next s_req_http_I
      else fails HPE_INVALID_CONSTANT
  | s_req_http_H => STRICT_CHECK (negb (eqc c "T")) ;; next s_req_http_HT
  | s_req_http_HT => STRICT_CHECK (negb (eqc c "T")) ;; next s_req_http_HTT
  | s_req_http_HTT => STRICT_CHECK (negb (eqc c "P")) ;; next s_req_http_HTTP
  | s_req_http_I => STRICT_CHECK (negb (eqc c "C")) ;; next s_req_http_IC
  | s_req_http_IC => STRICT_CHECK (negb (eqc c "E")) ;; next s_req_http_HTTP
  | s_req_http_HTTP => STRICT_CHECK (negb (eqc c "/")) ;; next s_req_http_major
  | s_req_http_major =>
      only_if (negb (IS_NUM c)) (fails HPE_INVALID_VERSION) ;;
      with_parser (set_http_major (digit_of c)) ;; next s_req_http_dot
  | s_req_http_dot => only_if (negb (eqc c ".")) (fails HPE_INVALID_VERSION) ;; next s_req_http_minor
  | s_req_http_minor =>
      only_if (negb (IS_NUM c)) (fails HPE_INVALID_VERSION) ;;
      with_parser (set_http_minor (digit_of c)) ;; next s_req_http_end
  | s_req_http_end =>
      if eqc c CR then next s_req_line_almost_done
      else if eqc c LF then next s_header_field_start
      else fails HPE_INVALID_VERSION
  | s_req_line_almost_done => only_if (negb (eqc c LF)) (fails HPE_LF_EXPECTED) ;; next s_header_field_start
  | _ => unhandled
  end.

(** ** Header fields *)

(** One step of matching [word], [index] already raised: the state on a mismatch, at the last
    character, and between. *)
Definition match_word (word : str) (index : Z) (c : byte) (mismatch found cur : header_states) : header_states :=
  if (Z.of_nat (length word) <? index) || negb (eqc c (default x00 (word !! Z.to_nat index))) then mismatch
  else if index =? Z.of_nat (length word) - 1 then found else cur.

Definition CONNECTION : str := lit "connection".
Definition PROXY_CONNECTION : str := lit "proxy-connection".
Definition CONTENT_LENGTH : str := lit "content-length".
Definition TRANSFER_ENCODING : str := lit "transfer-encoding".
Definition UPGRADE : str := lit "upgrade".
Definition CHUNKED : str := lit "chunked".
Definition KEEP_ALIVE : str := lit "keep-alive".
Definition CLOSE : str := lit "close".

Definition set_hs (h : header_states) : X unit := with_parser (set_header_state h).
Definition next_index : X Z := with_parser (fun q => set_index (pr_index q + 1) q) ;; the (fun x => pr_index (parser x)).

Definition header_field_start (c : byte) : X turn :=
  if eqc c CR then next s_headers_almost_done
  else if eqc c LF then UPDATE_STATE s_headers_almost_done ;; mret Reexecute
  else
    let t := TOKEN c in
    only_if (eqc t x00) (fails HPE_INVALID_HEADER_TOKEN) ;;
    MARK cb_header_field ;; with_parser (set_index 0) ;; UPDATE_STATE s_header_field ;;
    set_hs (if eqc t "c" then h_C else if eqc t "p" then h_matching_proxy_connection
            else if eqc t "t" then h_matching_transfer_encoding else if eqc t "u" then h_matching_upgrade
            else h_general) ;;
    mret Break.

(** [p + MIN(left, max_header_size)]. *)
Definition far_end (x : locals) : nat := (p x + Z.to_nat (Z.min (Z.of_nat (len - p x)) max_header_size))%nat.

(** [while (p+1 < pe && TOKEN(p[1])) p++]. *)
Fixpoint skip_tokens (fuel pe : nat) : X unit :=
  match fuel with
  | O => stops (crashing OutOfFuel)
  | S fuel =>
      n ← the p;
      if (S n <? pe)%nat then
        match data !! S n with
        | None => stops (crashing OutOfBounds)
        | Some c => if eqc (TOKEN c) x00 then mret tt else upd (x_p S) ;; skip_tokens fuel pe
        end
      else mret tt
  end.

(** The [switch] for one character of the name: [c] is its token. *)
Definition field_char (fuel : nat) (c t : byte) : X unit :=
  h ← the (fun x => pr_header_state (parser x));
  match h with
  | h_general => pe ← the far_end; skip_tokens fuel pe
  | h_C => next_index ;; set_hs (if eqc t "o" then h_CO else h_general)
  | h_CO => next_index ;; set_hs (if eqc t "n" then h_CON else h_general)
  | h_CON =>
      next_index ;;
      set_hs (if eqc t "n" then h_matching_connection else if eqc t "t" then h_matching_content_length else h_general)
  | h_matching_connection => i ← next_index; set_hs (match_word CONNECTION i t h_general h_connection h)
  | h_matching_proxy_connection => i ← next_index; set_hs (match_word PROXY_CONNECTION i t h_general h_connection h)
  | h_matching_content_length => i ← next_index; set_hs (match_word CONTENT_LENGTH i t h_general h_content_length h)
  | h_matching_transfer_encoding => i ← next_index; set_hs (match_word TRANSFER_ENCODING i t h_general h_transfer_encoding h)
  | h_matching_upgrade => i ← next_index; set_hs (match_word UPGRADE i t h_general h_upgrade h)
  | h_connection | h_content_length | h_transfer_encoding | h_upgrade =>
      only_if (negb (eqc c " ")) (set_hs h_general)
  | _ => stops (crashing AssertFail)
  end.

(** The [for] loop of the state; each turn moves on. *)
Fixpoint field_loop (fuel : nat) : X unit :=
  match fuel with
  | O => stops (crashing OutOfFuel)
  | S fuel =>
      n ← the p;
      if (n =? len)%nat then mret tt
      else
        read_ch ;; c ← the ch;
        if eqc (TOKEN c) x00 then mret tt
        else field_char (S len) c (TOKEN c) ;; upd (x_p S) ;; field_loop fuel
  end.

Definition header_field : X turn :=
  start ← the p;
  field_loop (S len) ;;
  n ← the p;
  if (n =? len)%nat then
    upd (x_p pred) ;; n ← the p; COUNT_HEADER_SIZE (n - start) ;; mret Break
  else
    COUNT_HEADER_SIZE (n - start) ;;
    c ← the ch;
    if eqc c ":" then
      UPDATE_STATE s_header_value_discard_ws ;; CALLBACK_DATA cb_header_field ;; mret Break
    else fails HPE_INVALID_HEADER_TOKEN.

(** ** Header values *)

Definition header_value_start (c : byte) : X turn :=
  MARK cb_header_value ;; UPDATE_STATE s_header_value ;; with_parser (set_index 0) ;;
  let l := LOWER c in
  h ← the (fun x => pr_header_state (parser x));
  match h with
  | h_upgrade => with_parser (raise F_UPGRADE) ;; set_hs h_general
  | h_transfer_encoding => set_hs (if eqc l "c" then h_matching_transfer_encoding_chunked else h_general)
  | h_content_length =>
      only_if (negb (IS_NUM c)) (fails HPE_INVALID_CONTENT_LENGTH) ;;
      given ← the (fun x => flag_on F_CONTENTLENGTH (parser x));
      only_if given (fails HPE_UNEXPECTED_CONTENT_LENGTH) ;;
      with_parser (raise F_CONTENTLENGTH) ;;
      with_parser (set_content_length (digit_of c)) ;; set_hs h_content_length_num
  | h_content_length_ws => mret tt
  | h_connection =>
      set_hs (if eqc l "k" then h_matching_connection_keep_alive
              else if eqc l "c" then h_matching_connection_close
              else if eqc l "u" then h_matching_connection_upgrade else h_matching_connection_token)
  | h_matching_connection_token_start => mret tt
  | _ => set_hs h_general
  end ;;
  mret Break.

Definition header_value_discard_ws (c : byte) : X turn :=
  if eqc c " " || eqc c x09 then mret Break
  else if eqc c CR then next s_header_value_discard_ws_almost_done
  else if eqc c LF then next s_header_value_discard_lws
  else header_value_start c.

(** The inner loop of [h_general], up to [pe]. *)
Fixpoint value_skip (fuel pe : nat) : X unit :=
  match fuel with
  | O => stops (crashing OutOfFuel)
  | S fuel =>
      n ← the p;
      if (n =? pe)%nat then mret tt
      else
        read_ch ;; c ← the ch;
        if eqc c CR || eqc c LF then upd (x_p pred)
        else
          only_if (negb lenient && negb (IS_HEADER_CHAR c)) (fails HPE_INVALID_HEADER_TOKEN) ;;
          upd (x_p S) ;; value_skip fuel pe
  end.

(** [SET_ERRNO(e); parser->header_state = h_state; goto error]. *)
Definition fails_in {A} (h : header_states) (e : http_errno) : X A := SET_ERRNO e ;; set_hs h ;; stops goto_error.

Definition content_length_digit (c : byte) : X header_states :=
  if eqc c " " then mret h_content_length_ws
  else
    only_if (negb (IS_NUM c)) (fails_in h_content_length_num HPE_INVALID_CONTENT_LENGTH) ;;
    v ← the (fun x => pr_content_length (parser x));
    let t := u64 (u64 (v * 10) + digit_of c) in
    only_if (Z.quot (ULLONG_MAX - 10) 10 <? v) (fails_in h_content_length_num HPE_INVALID_CONTENT_LENGTH) ;;
    with_parser (set_content_length t) ;; mret h_content_length_num.

(** The flag of a complete token of [Connection]. *)
Definition connection_flag (h : header_states) : Z :=
  match h with
  | h_connection_keep_alive => F_CONNECTION_KEEP_ALIVE
  | h_connection_close => F_CONNECTION_CLOSE
  | _ => F_CONNECTION_UPGRADE
  end.

(** The [switch] for one character of the value, [l] in lower case: the new [h_state]. *)
Definition value_char (fuel : nat) (h : header_states) (c l : byte) : X header_states :=
  match h with
  | h_general =>
      pe ← the far_end; value_skip fuel pe ;;
      n ← the p; only_if (n =? len)%nat (upd (x_p pred)) ;; mret h_general
  | h_connection | h_transfer_encoding => stops (crashing AssertFail)
  | h_content_length => if eqc c " " then mret h else content_length_digit c
  | h_content_length_num => content_length_digit c
  | h_content_length_ws => if eqc c " " then mret h else fails_in h HPE_INVALID_CONTENT_LENGTH
  | h_matching_transfer_encoding_chunked =>
      i ← next_index; mret (match_word CHUNKED i l h_general h_transfer_encoding_chunked h)
  | h_matching_connection_token_start =>
      mret (if eqc l "k" then h_matching_connection_keep_alive
            else if eqc l "c" then h_matching_connection_close
            else if eqc l "u" then h_matching_connection_upgrade
            else if negb (eqc (STRICT_TOKEN l) x00) then h_matching_connection_token
            else if eqc l " " || eqc l x09 then h
            else h_general)
  | h_matching_connection_keep_alive =>
      i ← next_index; mret (match_word KEEP_ALIVE i l h_matching_connection_token h_connection_keep_alive h)
  | h_matching_connection_close =>
      i ← next_index; mret (match_word CLOSE i l h_matching_connection_token h_connection_close h)
  | h_matching_connection_upgrade =>
      i ← next_index; mret (match_word UPGRADE i l h_matching_connection_token h_connection_upgrade h)
  | h_matching_connection_token =>
      if eqc c "," then with_parser (set_index 0) ;; mret h_matching_connection_token_start else mret h
  | h_transfer_encoding_chunked => mret (if negb (eqc c " ") then h_general else h)
  | h_connection_keep_alive | h_connection_close | h_connection_upgrade =>
      if eqc c "," then
        with_parser (raise (connection_flag h)) ;; with_parser (set_index 0) ;; mret h_matching_connection_token_start
      else mret (if negb (eqc c " ") then h_matching_connection_token else h)
  | _ => UPDATE_STATE s_header_value ;; mret h_general
  end.

(** The [for] loop of the state: [h_state] where it ends, nothing where it leaves for
    [reexecute]. *)
Fixpoint value_loop (fuel start : nat) (h : header_states) : X (option header_states) :=
  match fuel with
  | O => stops (crashing OutOfFuel)
  | S fuel =>
      n ← the p;
      if (n =? len)%nat then mret (Some h)
      else
        read_ch ;; c ← the ch;
        if eqc c CR then
          UPDATE_STATE s_header_almost_done ;; set_hs h ;; CALLBACK_DATA cb_header_value ;; mret (Some h)
        else if eqc c LF then
          UPDATE_STATE s_header_almost_done ;; COUNT_HEADER_SIZE (n - start) ;; set_hs h ;;
          CALLBACK_DATA_NOADVANCE cb_header_value ;; mret None
        else
          only_if (negb lenient && negb (IS_HEADER_CHAR c)) (fails HPE_INVALID_HEADER_TOKEN) ;;
          h ← value_char (S len) h c (LOWER c);
          upd (x_p S) ;; value_loop fuel start h
  end.

Definition header_value : X turn :=
  start ← the p;
  h ← the (fun x => pr_header_state (parser x));
  h ← value_loop (S len) start h;
  match h with
  | None => mret Reexecute
  | Some h =>
      set_hs h ;;
      n ← the p; only_if (n =? len)%nat (upd (x_p pred)) ;;
      n ← the p; COUNT_HEADER_SIZE (n - start) ;; mret Break
  end.

(** The flag a finished header raises. *)
Definition header_flag (h : header_states) : Z :=
  match h with
  | h_connection_keep_alive => F_CONNECTION_KEEP_ALIVE
  | h_connection_close => F_CONNECTION_CLOSE
  | h_transfer_encoding_chunked => F_CHUNKED
  | h_connection_upgrade => F_CONNECTION_UPGRADE
  | _ => 0
  end.

Definition header_end (s : state) (c : byte) : X turn :=
  match s with
  | s_header_almost_done => only_if (negb (eqc c LF)) (fails HPE_LF_EXPECTED) ;; next s_header_value_lws
  | s_header_value_lws =>
      h ← the (fun x => pr_header_state (parser x));
      if eqc c " " || eqc c x09 then
        only_if (match h with h_content_length_num => true | _ => false end) (set_hs h_content_length_ws) ;;
        UPDATE_STATE s_header_value_start ;; mret Reexecute
      else
        with_parser (raise (header_flag h)) ;; UPDATE_STATE s_header_field_start ;; mret Reexecute
  | s_header_value_discard_ws_almost_done =>
      STRICT_CHECK (negb (eqc c LF)) ;; next s_header_value_discard_lws
  | s_header_value_discard_lws =>
      if eqc c " " || eqc c x09 then next s_header_value_discard_ws
      else
        h ← the (fun x => pr_header_state (parser x));
        only_if (match h with h_content_length => true | _ => false end) (fails HPE_INVALID_CONTENT_LENGTH) ;;
        with_parser (raise (header_flag h)) ;;
        MARK cb_header_value ;; UPDATE_STATE s_header_field_start ;;
        CALLBACK_DATA_NOADVANCE cb_header_value ;; mret Reexecute
  | _ => unhandled
  end.

(** ** The end of the headers *)

Definition headers_almost_done (c : byte) : X turn :=
  STRICT_CHECK (negb (eqc c LF)) ;;
  q ← the parser;
  if flag_on F_TRAILING q then
    UPDATE_STATE s_message_done ;; CALLBACK_NOTIFY_NOADVANCE cb_chunk_complete ;; mret Reexecute
  else
    only_if (flag_on F_CHUNKED q && flag_on F_CONTENTLENGTH q) (fails HPE_UNEXPECTED_CONTENT_LENGTH) ;;
    UPDATE_STATE s_headers_done ;;
    with_parser (fun q =>
      set_upgrade
        (if flag_on F_UPGRADE q && flag_on F_CONNECTION_UPGRADE q
         then is_request q || (pr_status_code q =? 101)
         else pr_method q =? HTTP_CONNECT) q) ;;
    n ← the p;
    match on_notify settings cb_headers_complete with
    | None => mret tt
    | Some cb =>
        q ← the parser;
        upd (x_event (Notify cb_headers_complete q)) ;;
        with_parser (fun _ => snd (cb q)) ;;
        if fst (cb q) =? 0 then mret tt
        else if fst (cb q) =? 1 then with_parser (raise F_SKIPBODY)
        else if fst (cb q) =? 2 then with_parser (set_upgrade true) ;; with_parser (raise F_SKIPBODY)
        else SET_ERRNO HPE_CB_headers_complete ;; RETURN n
    end ;;
    ok ← the (fun x => is_ok (parser x));
    if (ok : bool) then mret Reexecute else RETURN n.

(** [UPDATE_STATE(NEW_MESSAGE()); CALLBACK_NOTIFY(message_complete)]. *)
Definition message_complete : X unit :=
  q ← the parser; UPDATE_STATE (NEW_MESSAGE q) ;; CALLBACK_NOTIFY cb_message_complete.

Definition reset_nread : X unit := with_parser (set_nread 0) ;; upd (x_nread 0).

Definition headers_done (c : byte) : X turn :=
  STRICT_CHECK (negb (eqc c LF)) ;;
  reset_nread ;;
  q ← the parser;
  let hasBody := flag_on F_CHUNKED q || ((0 <? pr_content_length q) && negb (pr_content_length q =? ULLONG_MAX)) in
  if pr_upgrade q && ((pr_method q =? HTTP_CONNECT) || flag_on F_SKIPBODY q || negb hasBody) then
    message_complete ;; n ← the p; RETURN (S n)
  else if flag_on F_SKIPBODY q then message_complete ;; mret Break
  else if flag_on F_CHUNKED q then next s_chunk_size_start
  else if pr_content_length q =? 0 then message_complete ;; mret Break
  else if negb (pr_content_length q =? ULLONG_MAX) then next s_body_identity
  else if negb (http_message_needs_eof q) then message_complete ;; mret Break
  else next s_body_identity_eof.

(** ** Bodies *)

(** [to_read] bytes marked, taken from [content_length], and passed but for the last. *)
Definition take_body : X unit :=
  v ← the (fun x => pr_content_length (parser x)); n ← the p;
  let to_read := Z.min v (Z.of_nat (len - n)) in
  check (negb (v =? 0) && negb (v =? ULLONG_MAX)) ;;
  MARK cb_body ;;
  with_parser (set_content_length (v - to_read)) ;;
  upd (x_p (fun n => n + Z.to_nat to_read - 1)%nat).

Definition body (s : state) : X turn :=
  match s with
  | s_body_identity =>
      take_body ;;
      v ← the (fun x => pr_content_length (parser x)); n ← the p;
      if v =? 0 then
        UPDATE_STATE s_message_done ;; CALLBACK_DATA_ cb_body (fun m => Z.of_nat n - Z.of_nat m + 1) n ;; mret Reexecute
      else mret Break
  | s_body_identity_eof => MARK cb_body ;; upd (x_p (fun _ => len - 1)%nat) ;; mret Break
  | s_message_done =>
      message_complete ;;
      n ← the p; up ← the (fun x => pr_upgrade (parser x));
      if (up : bool) then RETURN (S n) else mret Break
  | _ => unhandled
  end.

Definition assert_chunked : X unit := on ← the (fun x => flag_on F_CHUNKED (parser x)); check on.

Definition chunked (s : state) (c : byte) : X turn :=
  match s with
  | s_chunk_size_start =>
      n ← the nread; check (n =? 1) ;; assert_chunked ;;
      only_if (unhex c =? -1) (fails HPE_INVALID_CHUNK_SIZE) ;;
      with_parser (set_content_length (unhex c)) ;; next s_chunk_size
  | s_chunk_size =>
      assert_chunked ;;
      if eqc c CR then next s_chunk_size_almost_done
      else if unhex c =? -1 then
        if eqc c ";" || eqc c " " then next s_chunk_parameters else fails HPE_INVALID_CHUNK_SIZE
      else
        v ← the (fun x => pr_content_length (parser x));
        let t := u64 (u64 (v * 16) + unhex c) in
        only_if (Z.quot (ULLONG_MAX - 16) 16 <? v) (fails HPE_INVALID_CONTENT_LENGTH) ;;
        with_parser (set_content_length t) ;; mret Break
  | s_chunk_parameters =>
      assert_chunked ;; if eqc c CR then next s_chunk_size_almost_done else mret Break
  | s_chunk_size_almost_done =>
      assert_chunked ;; STRICT_CHECK (negb (eqc c LF)) ;; reset_nread ;;
      v ← the (fun x => pr_content_length (parser x));
      (if v =? 0 then with_parser (raise F_TRAILING) ;; UPDATE_STATE s_header_field_start
       else UPDATE_STATE s_chunk_data) ;;
      CALLBACK_NOTIFY cb_chunk_header ;; mret Break
  | s_chunk_data =>
      assert_chunked ;; take_body ;;
      v ← the (fun x => pr_content_length (parser x));
      only_if (v =? 0) (UPDATE_STATE s_chunk_data_almost_done) ;; mret Break
  | s_chunk_data_almost_done =>
      assert_chunked ;;
      v ← the (fun x => pr_content_length (parser x)); check (v =? 0) ;;
      STRICT_CHECK (negb (eqc c CR)) ;;
      UPDATE_STATE s_chunk_data_done ;; CALLBACK_DATA cb_body ;; mret Break
  | s_chunk_data_done =>
      assert_chunked ;; STRICT_CHECK (negb (eqc c LF)) ;; reset_nread ;;
      UPDATE_STATE s_chunk_size_start ;; CALLBACK_NOTIFY cb_chunk_complete ;; mret Break
  | _ => unhandled
  end.

(** ** The loop *)

Definition switch : X turn :=
  s ← the p_state; c ← the ch;
  match s with
  | s_dead | s_start_req_or_res | s_res_or_resp_H | s_start_res => start_line s c
  | s_res_H | s_res_HT | s_res_HTT | s_res_HTTP | s_res_http_major | s_res_http_dot | s_res_http_minor
  | s_res_http_end | s_res_first_status_code | s_res_status_code | s_res_status_start | s_res_status
  | s_res_line_almost_done => status_line s c
  | s_start_req => start_req c
  | s_req_method => req_method c
  | s_req_spaces_before_url | s_req_schema | s_req_schema_slash | s_req_schema_slash_slash | s_req_server_start
  | s_req_server | s_req_server_with_at | s_req_path | s_req_query_string_start | s_req_query_string
  | s_req_fragment_start | s_req_fragment => request_url s c
  | s_req_http_start | s_req_http_H | s_req_http_HT | s_req_http_HTT | s_req_http_HTTP | s_req_http_I | s_req_http_IC
  | s_req_http_major | s_req_http_dot | s_req_http_minor | s_req_http_end | s_req_line_almost_done =>
      request_version s c
  | s_header_field_start => header_field_start c
  | s_header_field => header_field
  | s_header_value_discard_ws => header_value_discard_ws c
  | s_header_value_start => header_value_start c
  | s_header_value => header_value
  | s_header_almost_done | s_header_value_lws | s_header_value_discard_ws_almost_done | s_header_value_discard_lws =>
      header_end s c
  | s_headers_almost_done => headers_almost_done c
  | s_headers_done => headers_done c
  | s_body_identity | s_body_identity_eof | s_message_done => body s
  | s_chunk_size_start | s_chunk_size | s_chunk_parameters | s_chunk_size_almost_done | s_chunk_data
  | s_chunk_data_almost_done | s_chunk_data_done => chunked s c
  end.

(** The [switch], again as long as it says so. *)
Fixpoint reexecute (fuel : nat) : X unit :=
  match fuel with
  | O => stops (crashing OutOfFuel)
  | S fuel =>
      t ← switch;
      match t with
      | Break => mret tt
      | Reexecute => reexecute fuel
      end
  end.

(** One turn of the loop on the data.  A byte is executed four times at most. *)
Definition one_byte : X unit :=
  read_ch ;;
  s ← the p_state; only_if (PARSING_HEADER s) (COUNT_HEADER_SIZE 1) ;;
  reexecute 5 ;;
  upd (x_p S).

Fixpoint main_loop (fuel : nat) : X unit :=
  match fuel with
  | O => stops (crashing OutOfFuel)
  | S fuel =>
      n ← the p;
      if (n =? len)%nat then mret tt else one_byte ;; main_loop fuel
  end.

Definition marks (x : locals) : nat :=
  length (filter (fun f => is_Some (mark f x)) [cb_header_field; cb_header_value; cb_url; cb_body; cb_status]).

Definition start_marks (s : state) (x : locals) : locals :=
  match s with
  | s_header_field => x_mark cb_header_field (Some 0%nat) x
  | s_header_value => x_mark cb_header_value (Some 0%nat) x
  | s_req_path | s_req_schema | s_req_schema_slash | s_req_schema_slash_slash | s_req_server_start | s_req_server
  | s_req_server_with_at | s_req_query_string_start | s_req_query_string | s_req_fragment_start | s_req_fragment =>
      x_mark cb_url (Some 0%nat) x
  | s_res_status => x_mark cb_status (Some 0%nat) x
  | _ => x
  end.

(** [len == 0]: the end of the stream. *)
Definition at_eof : X unit :=
  s ← the p_state;
  match s with
  | s_body_identity_eof => CALLBACK_NOTIFY_NOADVANCE cb_message_complete ;; stops (returned 0)
  | s_dead | s_start_req_or_res | s_start_res | s_start_req => stops (returned 0)
  | _ => SET_ERRNO HPE_INVALID_EOF_STATE ;; stops (returned 1)
  end.

Definition execute_body : X unit :=
  ok ← the (fun x => is_ok (parser x));
  only_if (negb ok) (stops (returned 0)) ;;
  only_if (len =? 0)%nat at_eof ;;
  s ← the p_state; upd (start_marks s) ;;
  main_loop (S len) ;;
  m ← the marks; check (m <=? 1)%nat ;;
  CALLBACK_DATA_NOADVANCE cb_header_field ;;
  CALLBACK_DATA_NOADVANCE cb_header_value ;;
  CALLBACK_DATA_NOADVANCE cb_url ;;
  CALLBACK_DATA_NOADVANCE cb_body ;;
  CALLBACK_DATA_NOADVANCE cb_status ;;
  RETURN len.
End execute.

Definition entry (q : http_parser) : locals :=
  mkX q (pr_state q) (pr_nread q) 0 x00 None None None None None [].

(** The result, the parser and the callbacks that were called. *)
Definition http_parser_execute (settings : http_parser_settings) (max_header_size : Z) (q : http_parser) (data : str)
    : res nat * http_parser * list event :=
  match execute_body settings max_header_size data (pr_lenient q) (entry q) with
  | (inl _, x) => (Crash Undefined, parser x, trace x)
  | (inr (returned n), x) => (Ok n, parser x, trace x)
  | (inr (crashing c), x) => (Crash c, parser x, trace x)
  | (inr goto_error, x) =>
      let x := if is_ok (parser x) then snd (SET_ERRNO HPE_UNKNOWN x) else x in
      let q := set_state (p_state x) (set_nread (nread x) (parser x)) in
      (Ok (p x), q, trace x)
  end.
