(* ===== verification/HttpUrl.v ===== *)
(** * The HTTP grammar, URLs: http_parser_parse_url of src/src/http/http_parser.cc

    The host automaton, and the splitting of a URL into its fields.  Offsets and lengths of
    fields are [uint16_t], as in the structure. *)

From S2P Require Import Prelude Http HttpGrammar.
#[local] Set Default Goal Selector "!".

(** ** Hosts *)

Inductive http_host_state :=
| s_http_host_dead | s_http_userinfo_start | s_http_userinfo | s_http_host_start | s_http_host_v6_start
| s_http_host | s_http_host_v6 | s_http_host_v6_end | s_http_host_v6_zone_start | s_http_host_v6_zone
| s_http_host_port_start | s_http_host_port.

Definition host_eqb (s t : http_host_state) : bool :=
  match s, t with
  | s_http_host_v6, s_http_host_v6 | s_http_host, s_http_host | s_http_host_port, s_http_host_port
  | s_http_userinfo, s_http_userinfo => true
  | _, _ => false
  end.

Definition http_parse_host_char (s : http_host_state) (ch : byte) : http_host_state :=
  match s with
  | s_http_userinfo | s_http_userinfo_start =>
      if eqc ch "@" then s_http_host_start
      else if IS_USERINFO_CHAR ch then s_http_userinfo else s_http_host_dead
  | s_http_host_start =>
      if eqc ch "[" then s_http_host_v6_start
      else if IS_HOST_CHAR ch then s_http_host else s_http_host_dead
  | s_http_host =>
      if IS_HOST_CHAR ch then s_http_host
      else if eqc ch ":" then s_http_host_port_start else s_http_host_dead
  | s_http_host_v6_end => if eqc ch ":" then s_http_host_port_start else s_http_host_dead
  | s_http_host_v6 =>
      if eqc ch "]" then s_http_host_v6_end
      else if IS_HEX ch || eqc ch ":" || eqc ch "." then s_http_host_v6
      else if eqc ch "%" then s_http_host_v6_zone_start else s_http_host_dead
  | s_http_host_v6_start =>
      if IS_HEX ch || eqc ch ":" || eqc ch "." then s_http_host_v6 else s_http_host_dead
  | s_http_host_v6_zone | s_http_host_v6_zone_start =>
      if match s with s_http_host_v6_zone => eqc ch "]" | _ => false end then s_http_host_v6_end
      else if IS_ALPHANUM ch || existsb (eqc ch) (lit "%.-_~") then s_http_host_v6_zone else s_http_host_dead
  | s_http_host_port | s_http_host_port_start => if IS_NUM ch then s_http_host_port else s_http_host_dead
  | s_http_host_dead => s_http_host_dead
  end.

(** ** The structure *)

Definition UF_SCHEMA : nat := 0.
Definition UF_HOST : nat := 1.
Definition UF_PORT : nat := 2.
Definition UF_PATH : nat := 3.
Definition UF_QUERY : nat := 4.
Definition UF_FRAGMENT : nat := 5.
Definition UF_USERINFO : nat := 6.
Definition UF_MAX : nat := 7.

(** [field_data] holds the offset and the length of each field. *)
Record http_parser_url := mkHPUrl { field_set : Z; port : Z; field_data : list (Z * Z) }.

Definition http_parser_url_init : http_parser_url := mkHPUrl 0 0 (replicate UF_MAX (0, 0)).

Definition is_set (f : nat) (u : http_parser_url) : bool := negb (Z.land (field_set u) (Z.shiftl 1 (Z.of_nat f)) =? 0).
Definition off (f : nat) (u : http_parser_url) : Z := (default (0, 0) (field_data u !! f)).1.
Definition len_of (f : nat) (u : http_parser_url) : Z := (default (0, 0) (field_data u !! f)).2.

Definition set_off (f : nat) (v : Z) (u : http_parser_url) : http_parser_url :=
  mkHPUrl (field_set u) (port u) (<[f := (u16 v, len_of f u)]> (field_data u)).
Definition set_len (f : nat) (v : Z) (u : http_parser_url) : http_parser_url :=
  mkHPUrl (field_set u) (port u) (<[f := (off f u, u16 v)]> (field_data u)).
Definition add_field (f : nat) (u : http_parser_url) : http_parser_url :=
  mkHPUrl (u16 (Z.lor (field_set u) (Z.shiftl 1 (Z.of_nat f)))) (port u) (field_data u).
Definition incr_len (f : nat) (u : http_parser_url) : http_parser_url := set_len f (len_of f u + 1) u.
Definition set_port (v : Z) (u : http_parser_url) : http_parser_url := mkHPUrl (field_set u) (u16 v) (field_data u).

(** [u->field_data[f].off = p - buf; u->field_data[f].len = n; u->field_set |= (1 << f)]. *)
Definition start_field (f : nat) (i : nat) (n : Z) (u : http_parser_url) : http_parser_url :=
  add_field f (set_len f n (set_off f (Z.of_nat i) u)).

Abbreviation U := (M http_parser_url).

(** The [switch] on the new state of the host. *)
Definition host_char (i : nat) (s new_s : http_host_state) (u : http_parser_url) : http_parser_url :=
  match new_s with
  | s_http_host | s_http_host_v6 =>
      incr_len UF_HOST (if negb (host_eqb s new_s) then set_off UF_HOST (Z.of_nat i) u else u)
  | s_http_host_v6_zone_start | s_http_host_v6_zone => incr_len UF_HOST u
  | s_http_host_port =>
      incr_len UF_PORT (if negb (host_eqb s new_s) then start_field UF_PORT i 0 u else u)
  | s_http_userinfo =>
      incr_len UF_USERINFO (if negb (host_eqb s new_s) then start_field UF_USERINFO i 0 u else u)
  | _ => u
  end.

Definition host_unfinished (s : http_host_state) : bool :=
  match s with
  | s_http_host_start | s_http_host_v6_start | s_http_host_v6 | s_http_host_v6_zone_start | s_http_host_v6_zone
  | s_http_host_port_start | s_http_userinfo | s_http_userinfo_start => true
  | _ => false
  end.

(** [n] characters from offset [i]. *)
Fixpoint host_loop (buf : str) (n i : nat) (s : http_host_state) : U Z :=
  match n with
  | O => mret (if host_unfinished s then 1 else 0)
  | S n =>
      match buf !! i with
      | None => crashed OutOfBounds
      | Some c =>
          let new_s := http_parse_host_char s c in
          match new_s with
          | s_http_host_dead => mret 1
          | _ => modify (host_char i s new_s) ;; host_loop buf n (S i) new_s
          end
      end
  end.

Definition http_parse_host (buf : str) (found_at : bool) : U Z :=
  u ← get;
  assert (is_set UF_HOST u) ;;
  modify (set_len UF_HOST 0) ;;
  host_loop buf (Z.to_nat (len_of UF_HOST u)) (Z.to_nat (off UF_HOST u))
    (if found_at then s_http_userinfo_start else s_http_host_start).

(** ** URLs *)

(** The field a state belongs to, nothing for the delimiters. *)
Definition field_of (s : state) : option nat :=
  match s with
  | s_req_schema => Some UF_SCHEMA
  | s_req_server_with_at | s_req_server => Some UF_HOST
  | s_req_path => Some UF_PATH
  | s_req_query_string => Some UF_QUERY
  | s_req_fragment => Some UF_FRAGMENT
  | _ => None
  end.

Definition is_delimiter (s : state) : bool :=
  match s with
  | s_req_schema_slash | s_req_schema_slash_slash | s_req_server_start | s_req_query_string_start
  | s_req_fragment_start => true
  | _ => false
  end.

(** The loop on the characters, [rest] from offset [i] on: nothing for a dead state, or
    whether an at sign was found. *)
Fixpoint url_loop (rest : str) (i : nat) (s : state) (old_uf : nat) (found_at : bool) : U (option bool) :=
  match rest with
  | [] => mret (Some found_at)
  | c :: rest =>
      let s := parse_url_char s c in
      let found_at := found_at || match s with s_req_server_with_at => true | _ => false end in
      match s with
      | s_dead => mret None
      | _ =>
          if is_delimiter s then url_loop rest (S i) s old_uf found_at
          else
            match field_of s with
            | None => crashed AssertFail
            | Some uf =>
                if (uf =? old_uf)%nat
                then modify (incr_len uf) ;; url_loop rest (S i) s old_uf found_at
                else modify (start_field uf i 1) ;; url_loop rest (S i) s uf found_at
            end
      end
  end.

(** The digits of the port: nothing beyond 65535. *)
Fixpoint port_loop (digits : str) (v : Z) : option Z :=
  match digits with
  | [] => Some v
  | c :: digits =>
      let v := u64 (u64 (v * 10) + (swrap 8 (b2z c) - 48)) in
      if 65535 <? v then None else port_loop digits v
  end.

Definition parse_port (buf : str) : U Z :=
  u ← get;
  if is_set UF_PORT u then
    assert (off UF_PORT u + len_of UF_PORT u <=? Z.of_nat (length buf)) ;;
    match port_loop (slice (Z.to_nat (off UF_PORT u)) (Z.to_nat (len_of UF_PORT u)) buf) 0 with
    | None => mret 1
    | Some v => modify (set_port v) ;; mret 0
    end
  else mret 0.

Definition http_parser_parse_url (buf : str) (is_connect : bool) : U Z :=
  if (length buf =? 0)%nat then mret 1
  else
    modify (fun u => mkHPUrl 0 0 (field_data u)) ;;
    r ← url_loop buf 0 (if is_connect then s_req_server_start else s_req_spaces_before_url) UF_MAX false;
    match r with
    | None => mret 1
    | Some found_at =>
        u ← get;
        if is_set UF_SCHEMA u && negb (is_set UF_HOST u) then mret 1
        else
          e ← (if is_set UF_HOST u then http_parse_host buf found_at else mret 0);
          if negb (e =? 0) then mret 1
          else
            u ← get;
            if is_connect && negb (field_set u =? Z.lor (Z.shiftl 1 (Z.of_nat UF_HOST)) (Z.shiftl 1 (Z.of_nat UF_PORT)))
            then mret 1
            else parse_port buf
    end.
