(* ===== verification/HttpWords.v ===== *)
(** * The words of the HTTP grammar: methods, and the names of the headers it knows

    The automata that recognize them, as functions of the character alone, and what they
    recognize. *)

From S2P Require Import Prelude Http HttpGrammar HttpExecute.
#[local] Set Default Goal Selector "!".

(** ** Methods *)

(** The method after [c], at index [i]; [req_method] goes on with it. *)
Definition method_next (m i : Z) (c : byte) : option Z :=
  match matcher_at m i with
  | None => None
  | Some d =>
      if eqc c d then Some m
      else if between 65 90 c || eqc c "-" then switched m i c method_switch else None
  end.

Fixpoint method_run (m i : Z) (cs : str) : option Z :=
  match cs with
  | [] => Some m
  | c :: cs => m' ← method_next m i c; method_run m' (i + 1) cs
  end.

Definition method_word (w : str) : option Z :=
  match w with
  | [] => None
  | c :: cs =>
      m0 ← first_method c; m ← method_run m0 1 cs;
      if bool_decide (matcher_at m (Z.of_nat (length w)) = Some x00) then Some m else None
  end.

Definition is_word (w : str) : Prop := Forall (fun c => c <> x00) w.

(** The name of the method, up to [i], is what has been read. *)
Definition reads (m : Z) (w : str) : Prop :=
  0 <= m /\ exists name, method_strings !! Z.to_nat m = Some name /\ take (length w) name = w.

Lemma switched_reads m i c m' :
  switched m i c method_switch = Some m' ->
  forall name, method_strings !! Z.to_nat m = Some name ->
  exists name', method_strings !! Z.to_nat m' = Some name' /\ 0 <= m' /\ 0 <= i /\
    take (Z.to_nat i) name' = take (Z.to_nat i) name /\ name' !! Z.to_nat i = Some c.
Proof.
  unfold method_switch. cbn [switched].
  repeat (destruct (_ && eqc _ c) eqn:E in |- *;
    [intros [= <-]; apply andb_true_iff in E as [[<-%Z.eqb_eq <-%Z.eqb_eq]%andb_true_iff <-%bool_decide_eq_true];
     intros name [= <-]; eexists; by split_and!|clear E]).
  done.
Qed.

Lemma take_snoc {A} (l : list A) n c : l !! n = Some c -> take (S n) l = take n l ++ [c].
Proof. apply take_S_r. Qed.

Lemma method_next_reads m w c m' :
  c <> x00 -> reads m w -> method_next m (Z.of_nat (length w)) c = Some m' -> reads m' (w ++ [c]).
Proof.
  intros Hc (Hm & name & Hn & Hw). unfold method_next, matcher_at. rewrite Hn. cbn [mbind option_bind]. rewrite Nat2Z.id.
  assert (Hlen : forall k, length (w ++ [k]) = S (length w)) by (intros k; rewrite length_app; simpl; lia).
  destruct ((name ++ [x00]) !! length w) as [d|] eqn:Ed; [|done]. destruct (eqc c d) eqn:Ecd.
  - intros [= <-]. apply bool_decide_eq_true in Ecd as <-. split; [done|]. exists name. split; [done|].
    apply lookup_app_Some in Ed as [Ed|[Hlt Ed]].
    + rewrite Hlen. by rewrite (take_snoc _ _ c), Hw.
    + destruct (length w - length name)%nat as [|j] eqn:Ej; [by injection Ed as <-|by destruct j].
  - destruct (_ || _); [|done]. intros Hsw. destruct (switched_reads _ _ _ _ Hsw name Hn) as (name' & Hn' & Hm' & _ & Ht & Hc').
    rewrite Nat2Z.id in Ht, Hc'. split; [done|]. exists name'. split; [done|]. rewrite Hlen. by rewrite (take_snoc _ _ c), Ht, Hw.
Qed.

Lemma method_run_reads m w cs m' :
  is_word cs -> reads m w -> method_run m (Z.of_nat (length w)) cs = Some m' -> reads m' (w ++ cs).
Proof.
  intros Hcs. revert m w. induction Hcs as [|c cs Hc _ IH]; intros m w Hr.
  { intros [= <-]. by rewrite app_nil_r. }
  cbn [method_run]. destruct (method_next m _ c) as [m1|] eqn:En; [|done]. cbn [mbind option_bind].
  pose proof (method_next_reads m w c m1 Hc Hr En) as Hr1.
  replace (Z.of_nat (length w) + 1) with (Z.of_nat (length (w ++ [c]))) by (rewrite length_app; simpl; lia).
  intros Hrun. specialize (IH m1 (w ++ [c]) Hr1 Hrun). by rewrite <- app_assoc in IH.
Qed.

Lemma first_method_reads c m : first_method c = Some m -> reads m [c].
Proof. destruct c; intros [= <-]; (split; [done|]); eexists; by split. Qed.

Lemma names_words : Forall is_word method_strings.
Proof. unfold is_word. by repeat (apply Forall_cons; split; [repeat (apply Forall_cons; split; [done|]); apply Forall_nil|]). Qed.

Lemma matcher_end m name i :
  method_strings !! Z.to_nat m = Some name -> matcher_at m (Z.of_nat i) = Some x00 -> i = length name.
Proof.
  intros Hn. unfold matcher_at. rewrite Hn. cbn [mbind option_bind]. rewrite Nat2Z.id. intros Hl.
  apply lookup_app_Some in Hl as [Hl|[Hlt Hl]].
  - pose proof (proj1 (Forall_lookup _ _) names_words _ _ Hn) as Hw. by apply (proj1 (Forall_lookup _ _) Hw) in Hl.
  - destruct (i - length name)%nat as [|j] eqn:Ej; [lia|by destruct j].
Qed.

(** The automaton recognizes the names of the methods and nothing else. *)
Lemma method_word_exact w m : is_word w -> 0 <= m -> method_word w = Some m <-> method_strings !! Z.to_nat m = Some w.
Proof.
  intros Hw Hm. split.
  - unfold method_word. destruct w as [|c cs]; [done|]. destruct (first_method c) as [m0|] eqn:Ef; [|done]. cbn [mbind option_bind].
    destruct (method_run m0 1 cs) as [m1|] eqn:Er; [|done]. cbn [mbind option_bind].
    case_bool_decide as He; [|done]. intros [= <-]. apply Forall_cons in Hw as [Hc Hcs].
    destruct (method_run_reads m0 [c] cs m1 Hcs (first_method_reads c m0 Ef) Er) as (_ & name & Hn & Ht).
    assert (length (c :: cs) = length name) as Hl by by eapply matcher_end.
    change ([c] ++ cs) with (c :: cs) in Ht. rewrite Hn, <- Ht, Hl. by rewrite firstn_all.
  - remember (Z.to_nat m) as k eqn:Ek. assert (m = Z.of_nat k) as -> by lia. clear Ek Hm Hw.
    do 34 (destruct k as [|k]; [by intros [= <-]|]). done.
Qed.

(** ** The names of headers *)

(** The header state and the index after the token [t]. *)
Definition field_next (hi : header_states * Z) (t : byte) : header_states * Z :=
  let '(h, i) := hi in
  let i' := wrap 7 (i + 1) in
  match h with
  | h_general => (h_general, i)
  | h_C => (if eqc t "o" then h_CO else h_general, i')
  | h_CO => (if eqc t "n" then h_CON else h_general, i')
  | h_CON =>
      (if eqc t "n" then h_matching_connection else if eqc t "t" then h_matching_content_length else h_general, i')
  | h_matching_connection => (match_word CONNECTION i' t h_general h_connection h, i')
  | h_matching_proxy_connection => (match_word PROXY_CONNECTION i' t h_general h_connection h, i')
  | h_matching_content_length => (match_word CONTENT_LENGTH i' t h_general h_content_length h, i')
  | h_matching_transfer_encoding => (match_word TRANSFER_ENCODING i' t h_general h_transfer_encoding h, i')
  | h_matching_upgrade => (match_word UPGRADE i' t h_general h_upgrade h, i')
  | _ => (h_general, i)
  end.

Definition field_first (t : byte) : header_states :=
  if eqc t "c" then h_C else if eqc t "p" then h_matching_proxy_connection
  else if eqc t "t" then h_matching_transfer_encoding else if eqc t "u" then h_matching_upgrade
  else h_general.

Definition field_run (hi : header_states * Z) (ts : list byte) : header_states * Z := fold_left field_next ts hi.

(** The header state after the name whose tokens are these. *)
Definition name_state (ts : list byte) : header_states :=
  match ts with
  | [] => h_general
  | t :: ts => fst (field_run (field_first t, 0) ts)
  end.

Definition known_names : list (str * header_states) :=
  [(CONNECTION, h_connection); (PROXY_CONNECTION, h_connection); (CONTENT_LENGTH, h_content_length);
   (TRANSFER_ENCODING, h_transfer_encoding); (UPGRADE, h_upgrade)].

(** The states that a value is read for. *)
Definition special (h : header_states) : bool :=
  match h with h_connection | h_content_length | h_transfer_encoding | h_upgrade => true | _ => false end.

Fixpoint prefixes (s : str) : list str :=
  match s with [] => [[]] | c :: s => [] :: (cons c <$> prefixes s) end.
Definition known_prefixes : list str := concat (prefixes <$> known_names.*1).
Definition all_bytes : list byte := z2b <$> (Z.of_nat <$> seq 0 256).

Lemma all_bytes_all c : c ∈ all_bytes.
Proof.
  unfold all_bytes. apply list_elem_of_fmap. exists (b2z c). split; [by rewrite z2b_b2z|].
  apply list_elem_of_fmap. exists (Z.to_nat (b2z c)). pose proof (b2z_range c). split; [lia|]. apply elem_of_seq. lia.
Qed.

Definition is_general (h : header_states) : bool := match h with h_general => true | _ => false end.

Lemma is_general_true h : is_general h = true -> h = h_general.
Proof. by destruct h. Qed.

Lemma known_prefixes_check :
  forallb (fun s => bool_decide (s = []) || forallb (fun t =>
    bool_decide (s ++ [t] ∈ known_prefixes) ||
    is_general (fst (field_next (field_run (field_first (hd x00 s), 0) (tl s)) t))) all_bytes) known_prefixes = true.
Proof. vm_compute. reflexivity. Qed.

(** A prefix of a known name grows to another, or the header is not a known one. *)
Lemma prefix_grows s t :
  s ∈ known_prefixes -> s <> [] ->
  s ++ [t] ∈ known_prefixes \/ fst (field_next (field_run (field_first (hd x00 s), 0) (tl s)) t) = h_general.
Proof.
  intros Hs Hne. pose proof (proj1 (forallb_forall _ _) known_prefixes_check s) as H1.
  rewrite <- list_elem_of_In in H1. specialize (H1 Hs). rewrite bool_decide_false in H1 by done.
  pose proof (proj1 (forallb_forall _ _) H1 t) as H2. rewrite <- list_elem_of_In in H2.
  specialize (H2 (all_bytes_all t)). apply orb_true_iff in H2 as [H2|H2].
  - left. by apply bool_decide_eq_true in H2.
  - right. by apply is_general_true.
Qed.

Lemma first_known t : [t] ∈ known_prefixes \/ field_first t = h_general.
Proof.
  assert (Hall : forallb (fun t => bool_decide ([t] ∈ known_prefixes) || is_general (field_first t)) all_bytes = true)
    by (vm_compute; reflexivity).
  pose proof (proj1 (forallb_forall _ _) Hall t) as H. rewrite <- list_elem_of_In in H.
  specialize (H (all_bytes_all t)). apply orb_true_iff in H as [H|H]; [left; by apply bool_decide_eq_true in H|right; by apply is_general_true].
Qed.

Lemma field_run_snoc hi ts t : field_run hi (ts ++ [t]) = field_next (field_run hi ts) t.
Proof. unfold field_run. by rewrite fold_left_app. Qed.

Lemma unknown_general ts : ts <> [] -> ts ∈ known_prefixes \/ name_state ts = h_general.
Proof.
  induction ts as [|t ts IH] using rev_ind; intros Hne; [done|].
  destruct ts as [|t0 ts]; [apply first_known|]. destruct (IH ltac:(done)) as [Hk|Hg].
  - destruct (prefix_grows _ t Hk ltac:(done)) as [?|Hg]; [by left|right]. cbn [hd tl] in Hg.
    cbn [name_state app]. by rewrite field_run_snoc.
  - right. cbn [name_state app] in Hg |- *. rewrite field_run_snoc.
    destruct (field_run (field_first t0, 0) ts) as [h i]. cbn [fst] in Hg. subst h. done.
Qed.

#[export] Instance header_states_eq_dec : EqDecision header_states.
Proof. solve_decision. Defined.

Lemma known_complete :
  forallb (fun s => negb (special (name_state s)) || bool_decide ((s, name_state s) ∈ known_names)) known_prefixes = true.
Proof. vm_compute. reflexivity. Qed.

(** The automaton recognizes the known names and nothing else. *)
Lemma name_state_exact ts h : special h = true -> name_state ts = h <-> (ts, h) ∈ known_names.
Proof.
  intros Hh. split.
  - intros Hs. destruct (decide (ts = [])) as [->|Hne]; [by subst h|]. destruct (unknown_general ts Hne) as [Hk|Hg]; [|by rewrite Hg in Hs; subst h].
    pose proof (proj1 (forallb_forall _ _) known_complete ts) as H. rewrite <- list_elem_of_In in H.
    specialize (H Hk). rewrite Hs, Hh in H. by apply bool_decide_eq_true in H.
  - unfold known_names. intros Hin. rewrite !elem_of_cons in Hin.
    repeat destruct Hin as [[= -> ->]|Hin]; try (vm_compute; reflexivity). by apply not_elem_of_nil in Hin.
Qed.
