(* ===== verification/HttpGrammarTheorems.v ===== *)
(** * The HTTP grammar: every reachable parser is safe *)

From S2P Require Import Prelude Http HttpGrammar HttpExecute.
#[local] Set Default Goal Selector "!".

(** ** Running computations *)

Lemma xb {A B} (m : X A) (f : A -> X B) x a x' : m x = (inl a, x') -> (m ≫= f) x = f a x'.
Proof. intros H. unfold mbind, X_bind. by rewrite H. Qed.
Ltac xstep := erewrite xb by reflexivity.

Lemma xstop {A B} (m : X A) (f : A -> X B) s x x' : m x = (inr s, x') -> (m ≫= f) x = (inr s, x').
Proof. intros H. unfold mbind, X_bind. by rewrite H. Qed.

Lemma x_assoc {A B C} (m : X A) (f : A -> X B) (g : B -> X C) x : ((m ≫= f) ≫= g) x = (m ≫= (fun a => f a ≫= g)) x.
Proof. unfold mbind, X_bind. by destruct (m x) as [[a|s] x']. Qed.

(** ** Specifications of computations *)

(** [m] from [x] ends in [Q], or stops in [E]. *)
Definition wp {A} (m : X A) (Q : A -> locals -> Prop) (E : stop -> locals -> Prop) (x : locals) : Prop :=
  match m x with
  | (inl a, x) => Q a x
  | (inr s, x) => E s x
  end.

Section wp.
Context (E : stop -> locals -> Prop).
Implicit Types x : locals.

Lemma wp_ret {A} (a : A) Q x : Q a x -> wp (mret a) Q E x.
Proof. done. Qed.
Lemma wp_bind {A B} (m : X A) (f : A -> X B) Q x :
  wp m (fun a => wp (f a) Q E) E x -> wp (m ≫= f) Q E x.
Proof. unfold wp, mbind, X_bind. by destruct (m x) as [[a|s] x']. Qed.
Lemma wp_mono {A} (m : X A) (Q Q' : A -> locals -> Prop) x :
  wp m Q E x -> (forall a x, Q a x -> Q' a x) -> wp m Q' E x.
Proof. unfold wp. destruct (m x) as [[a|s] x']; auto. Qed.
Lemma wp_the {A} (f : locals -> A) Q x : Q (f x) x -> wp (the f) Q E x.
Proof. done. Qed.
Lemma wp_upd f Q x : Q tt (f x) -> wp (upd f) Q E x.
Proof. done. Qed.
Lemma wp_stops {A} s (Q : A -> _) x : E s x -> wp (stops s) Q E x.
Proof. done. Qed.
Lemma wp_check b (Q : unit -> _) x : b = true -> Q tt x -> wp (check b) Q E x.
Proof. by intros ->. Qed.
Lemma wp_only_if b m Q x :
  (b = true -> wp m Q E x) -> (b = false -> Q tt x) -> wp (only_if b m) Q E x.
Proof. destruct b; cbn; auto. Qed.
End wp.

(** One step of a computation of known shape. *)
Ltac wp_step :=
  cbv beta zeta;
  lazymatch goal with
  | |- wp (_ ≫= _) _ _ _ => apply wp_bind
  | |- wp (mret _) _ _ _ => apply wp_ret
  | |- wp (the _) _ _ _ => apply wp_the
  | |- wp (upd _) _ _ _ => apply wp_upd
  | |- wp (with_parser _) _ _ _ => apply wp_upd
  | |- wp (UPDATE_STATE _) _ _ _ => apply wp_upd
  | |- wp (SET_ERRNO _) _ _ _ => apply wp_upd
  | |- wp (stops _) _ _ _ => apply wp_stops
  | |- wp (only_if _ _) _ _ _ => apply wp_only_if; intros ?
  end; cbv beta zeta.

(** ** The invariant *)

(** The header states of a name, and those of a value. *)
Definition field_state (h : header_states) : bool :=
  match h with
  | h_general | h_C | h_CO | h_CON | h_matching_connection | h_matching_proxy_connection | h_matching_content_length
  | h_matching_transfer_encoding | h_matching_upgrade | h_connection | h_content_length | h_transfer_encoding
  | h_upgrade => true
  | _ => false
  end.
Definition value_state (h : header_states) : bool :=
  match h with h_connection | h_transfer_encoding => false | _ => true end.

(** What holds of a parser in state [s]; [n] is what has been read since the headers, at the
    start of a chunk's size. *)
Definition parser_ok (s : state) (nread n : Z) (q : http_parser) : Prop :=
  let chunked := flag_on F_CHUNKED q = true in
  let v := pr_content_length q in
  0 <= v <= ULLONG_MAX /\
  match s with
  | s_req_method => exists w, method_strings !! Z.to_nat (pr_method q) = Some w /\ 0 <= pr_index q <= Z.of_nat (length w)
  | s_header_field => field_state (pr_header_state q) = true
  | s_header_value => value_state (pr_header_state q) = true
  | s_chunk_size_start => chunked /\ nread = n
  | s_chunk_size | s_chunk_parameters | s_chunk_size_almost_done => chunked /\ v < ULLONG_MAX
  | s_chunk_data => chunked /\ 0 < v < ULLONG_MAX
  | s_chunk_data_almost_done => chunked /\ v = 0
  | s_chunk_data_done => chunked
  | s_body_identity => 0 < v < ULLONG_MAX
  | _ => True
  end.

(** The states in which a mark may be set. *)
Definition allowed (f : data_cb) (s : state) : bool :=
  match f, s with
  | cb_url, (s_req_path | s_req_schema | s_req_schema_slash | s_req_schema_slash_slash | s_req_server_start
    | s_req_server | s_req_server_with_at | s_req_query_string_start | s_req_query_string | s_req_fragment_start
    | s_req_fragment) => true
  | cb_status, s_res_status => true
  | cb_header_field, s_header_field => true
  | cb_header_value, s_header_value => true
  | cb_body, (s_body_identity | s_body_identity_eof | s_chunk_data | s_chunk_data_almost_done) => true
  | _, _ => false
  end.
Definition marks_ok (x : locals) : Prop :=
  forall f m, mark f x = Some m -> allowed f (p_state x) = true /\ (m <= p x)%nat.

Record inv (n : Z) (x : locals) : Prop := mkInv {
  inv_errno : is_ok (parser x) = true;
  inv_parser : parser_ok (p_state x) (nread x) n (parser x);
  inv_marks : marks_ok x
}.

(** A parser between two calls: in error, or in order, paused or not. *)
Definition is_error (e : http_errno) : bool := match e with HPE_OK | HPE_PAUSED => false | _ => true end.
Definition resting (q : http_parser) : Prop := is_error (pr_errno q) = true \/ parser_ok (pr_state q) (pr_nread q) 0 q.

(** [http_parser_execute] neither changes the parser nor pauses in its callbacks. *)
Definition passive (settings : http_parser_settings) : Prop :=
  (forall f cb q, on_notify settings f = Some cb -> snd (cb q) = q) /\
  (forall f cb q bytes, on_data settings f = Some cb -> snd (cb q bytes) = q).

(** The order in which the states execute one byte again. *)
Definition rank (s : state) : nat :=
  match s with
  | s_header_value_lws | s_header_value_discard_lws | s_chunk_size_start => 4
  | s_header_field_start | s_res_status_code => 3
  | s_start_req_or_res | s_header_value | s_res_status_start | s_body_identity | s_headers_almost_done => 2
  | _ => 1
  end.

#[local] Arguments method_strings : simpl never.
#[local] Arguments wrap : simpl never.

Section safe.
Context (settings : http_parser_settings) (max_header_size : Z) (data : str) (lenient : bool).
Context (Hpassive : passive settings).
Abbreviation len := (length data).
Implicit Types x : locals.

Definition stop_ok (s : stop) x : Prop :=
  match s with
  | goto_error => is_error (pr_errno (parser x)) = true /\ (p x <= len)%nat
  | returned n => (n <= len)%nat /\ resting (parser x)
  | crashing _ => False
  end.

(** What a handler promises: the invariant again, in the data, in a state of lower rank if it
    is for the same byte. *)
Definition turn_ok (n : nat) (s : state) (t : turn) x : Prop :=
  inv 0 x /\ (n <= p x < len)%nat /\ match t with Break => True | Reexecute => (rank (p_state x) < rank s)%nat end.

Abbreviation W m Q x := (wp m Q stop_ok x).

Lemma turn_intro n s t x :
  inv 0 x -> (n <= p x < len)%nat -> match t with Break => True | Reexecute => (rank (p_state x) < rank s)%nat end ->
  turn_ok n s t x.
Proof. done. Qed.

Lemma is_ok_true q : is_ok q = true -> pr_errno q = HPE_OK.
Proof. unfold is_ok. by destruct (pr_errno q). Qed.

Lemma wp_fails {A} e (Q : A -> _) x : is_error e = true -> (p x <= len)%nat -> W (fails e) Q x.
Proof. intros He Hp. split; [|done]. cbn. by destruct e. Qed.

Definition x_cb (s : state) (tr : list event) (x : locals) : locals :=
  mkX (set_state s (parser x)) (p_state x) (nread x) (p x) (ch x) (header_field_mark x) (header_value_mark x)
    (url_mark x) (body_mark x) (status_mark x) tr.

Lemma x_cb_id x : x_cb (pr_state (parser x)) (trace x) x = x.
Proof. by destruct x as [[] ? ? ? ? ? ? ? ? ? ?]. Qed.

Lemma wp_after (failed : bool) e er Q x :
  is_error e = true -> is_ok (parser x) = true -> (er <= len)%nat -> pr_state (parser x) = p_state x ->
  Q tt x -> W (after_callback failed e er) Q x.
Proof.
  intros He Hok Her Hs HQ. unfold after_callback. wp_step. wp_step; repeat wp_step; cbn in *.
  - split; [done|]. by left.
  - unfold is_ok in *. cbn in *. by destruct e.
  - by rewrite Hok in H0.
  - rewrite Hs. by replace (x_state (p_state x) x) with x by by destruct x.
Qed.

Lemma wp_notify f er Q x :
  is_ok (parser x) = true -> (er <= len)%nat ->
  (forall s tr, s = p_state x \/ s = pr_state (parser x) -> Q tt (x_cb s tr x)) ->
  W (CALLBACK_NOTIFY_ settings f er) Q x.
Proof.
  intros Hok Her HQ. unfold CALLBACK_NOTIFY_. do 2 wp_step. wp_step. apply wp_check; [done|].
  destruct (on_notify settings f) as [cb|] eqn:Ef; [|wp_step; rewrite <- (x_cb_id x); apply HQ; by right].
  repeat wp_step. cbn. rewrite (proj1 Hpassive f cb _ Ef).
  apply wp_after; [by destruct f|done|done|done|]. apply (HQ (p_state x) (trace x ++ [_])). by left.
Qed.

Lemma wp_data f span er Q x :
  is_ok (parser x) = true -> (er <= len)%nat ->
  (forall m, mark f x = Some m -> 0 <= span m /\ Z.of_nat m + span m <= Z.of_nat len) ->
  (forall s tr, Q tt (x_mark f None (x_cb s tr x))) -> W (CALLBACK_DATA_ settings data f span er) Q x.
Proof.
  intros Hok Her Hspan HQ. unfold CALLBACK_DATA_. do 3 wp_step. apply wp_check; [done|]. do 2 wp_step.
  destruct (mark f x) as [m|] eqn:Em.
  2:{ wp_step. specialize (HQ (pr_state (parser x)) (trace x)). rewrite x_cb_id in HQ.
      replace (x_mark f None x) with x in HQ by (destruct x, f; cbn in Em |- *; by subst). done. }
  destruct (Hspan m eq_refl) as [H1 H2]. do 2 wp_step; [unfold HttpExecute.len in *; lia|].
  destruct (on_data settings f) as [cb|] eqn:Ef.
  - repeat wp_step. cbn. rewrite (proj2 Hpassive f cb _ _ Ef).
    apply wp_after; [by destruct f|done|done|done|]. wp_step. apply (HQ (p_state x) (trace x ++ [_])).
  - repeat wp_step. rewrite <- (x_cb_id x) at 1. apply HQ.
Qed.

Lemma wp_count v (Q : unit -> _) x :
  (p x <= len)%nat -> (forall n, n = u32 (nread x + u32 (Z.of_nat v)) -> Q tt (x_nread n x)) ->
  W (COUNT_HEADER_SIZE max_header_size v) Q x.
Proof.
  intros Hp HQ. unfold COUNT_HEADER_SIZE. repeat wp_step; [by apply wp_fails|by apply HQ].
Qed.

(** What may be assumed of a state's parser when the state is left for another. *)
Lemma parser_ok_length s n m q : parser_ok s n m q -> 0 <= pr_content_length q <= ULLONG_MAX.
Proof. by intros []. Qed.

(** Steps that need the invariant. *)
Ltac x_step :=
  first [ wp_step | cbv beta zeta;
  lazymatch goal with
  | |- wp (fails _) _ _ _ => apply wp_fails; [reflexivity|cbn; lia]
  | |- wp (STRICT_CHECK _) _ _ _ => unfold STRICT_CHECK
  | |- wp (next _) _ _ _ => unfold next
  | |- wp (MARK ?f) _ _ _ => unfold MARK; wp_step; destruct (mark f _) eqn:?
  | |- wp (CALLBACK_NOTIFY _ _) _ _ _ => unfold CALLBACK_NOTIFY; wp_step; wp_step; apply wp_notify; [assumption|cbn; lia|intros ? ? _]
  | |- wp (CALLBACK_NOTIFY_NOADVANCE _ _) _ _ _ => unfold CALLBACK_NOTIFY_NOADVANCE; wp_step; wp_step; apply wp_notify; [assumption|cbn; lia|intros ? ? _]
  | |- wp (CALLBACK_DATA_ _ _ ?f _ _) _ _ _ =>
      apply wp_data; [assumption|cbn; lia|let m := fresh "m" in let Hmark := fresh in
        intros m Hmark; first [injection Hmark as <-; cbn; lia|idtac]; match goal with H : forall f m, _ |- _ => destruct (H f m Hmark) as [? ?]; cbn; lia end|intros ? ?]
  | |- wp (if ?b then _ else _) _ _ _ => destruct b eqn:?
  end ].

(** Each mark that is set is one the state allows. *)
Ltac marks_done Hm :=
  let f := fresh "f" in let m := fresh "m" in let H := fresh "H" in
  unfold marks_ok; cbn; repeat match goal with H : p_state ?x = _ |- context [p_state ?x] => rewrite H end;
  intros f m H; pose proof (Hm f m) as Hfm; destruct f; cbn in H, Hfm |- *; simplify_eq; try discriminate;
  first [ destruct (Hfm ltac:(assumption)) as [? ?]; first [discriminate | split; [first [assumption|reflexivity]|lia]]
        | split; [reflexivity|lia] ].

(** A turn that ends in a state whose parser is as before, or as the steps made it. *)
Ltac turn_done Hq Hm :=
  apply turn_intro; [split; [assumption| |marks_done Hm]|cbn; lia|cbn; first [exact I|lia]];
  cbn; repeat match goal with H : p_state ?x = _ |- context [p_state ?x] => rewrite H end;
  unfold parser_ok in *; cbn in Hq |- *; unfold ULLONG_MAX in *; destruct Hq as [? ?];
  split; [try lia|try first [lia|tauto|split; [assumption|lia]]].

(** The start of a proof on a handler: [s] becomes the states of the group. *)
Ltac handler_start s Hs Hq Hm :=
  destruct s; try done; unfold marks_ok in Hm; rewrite Hs in Hm, Hq; repeat x_step.

Lemma start_line_ok s c x :
  p_state x = s -> inv 1 x -> (p x < len)%nat ->
  (match s with s_dead | s_start_req_or_res | s_res_or_resp_H | s_start_res => True | _ => False end) ->
  W (start_line settings s c) (turn_ok (p x) s) x.
Proof.
  intros Hs [Hok Hq Hm] Hp Hg. unfold start_line. handler_start s Hs Hq Hm; turn_done Hq Hm.
  exists (lit "HEAD"). split; [done|]. rewrite wrap_small by done. cbn. lia.
Qed.

Lemma status_line_ok s c x :
  p_state x = s -> inv 1 x -> (p x < len)%nat ->
  (match s with
   | s_res_H | s_res_HT | s_res_HTT | s_res_HTTP | s_res_http_major | s_res_http_dot | s_res_http_minor
   | s_res_http_end | s_res_first_status_code | s_res_status_code | s_res_status_start | s_res_status
   | s_res_line_almost_done => True
   | _ => False
   end) ->
  W (status_line settings data s c) (turn_ok (p x) s) x.
Proof.
  intros Hs [Hok Hq Hm] Hp Hg. unfold status_line, CALLBACK_DATA. handler_start s Hs Hq Hm; turn_done Hq Hm.
Qed.

Lemma first_method_ok c m :
  first_method c = Some m -> exists w, method_strings !! Z.to_nat (wrap 8 m) = Some w /\ 1 <= Z.of_nat (length w).
Proof. destruct c; intros [= <-]; eexists; (split; [reflexivity|cbn; lia]). Qed.

Lemma start_req_ok c x :
  p_state x = s_start_req -> inv 1 x -> (p x < len)%nat -> W (start_req settings c) (turn_ok (p x) s_start_req) x.
Proof.
  intros Hs [Hok Hq Hm] Hp. unfold start_req, marks_ok in *. rewrite Hs in Hm, Hq. repeat x_step.
  { turn_done Hq Hm. }
  destruct (first_method c) as [m|] eqn:Em; repeat x_step. turn_done Hq Hm.
  destruct (first_method_ok _ _ Em) as (w & Hw & Hl). exists w. split; [done|]. rewrite wrap_small by done. lia.
Qed.

Lemma parse_url_char_url s c : parse_url_char s c = s_dead \/ allowed cb_url (parse_url_char s c) = true.
Proof.
  unfold parse_url_char. destruct (_ || _ || _); [by left|]. destruct (_ || _); [by left|].
  destruct s; try (by left); repeat first [by left|by right|case_match].
Qed.

Lemma url_char_ok s c x :
  is_ok (parser x) = true -> (p x < len)%nat -> 0 <= pr_content_length (parser x) <= ULLONG_MAX ->
  (forall f m, mark f x = Some m -> f = cb_url /\ (m <= p x)%nat) ->
  W (url_char c) (turn_ok (p x) s) x.
Proof.
  intros Hok Hp Hv Hm. unfold url_char. repeat wp_step. cbn.
  destruct (parse_url_char_url (p_state x) c) as [->|Ha]; [apply wp_fails; [done|cbn; lia]|].
  destruct (parse_url_char (p_state x) c); try done; wp_step; (apply turn_intro; [split; [done|by split|]|cbn; lia|done]);
    intros f m Hf; replace (mark f (x_state _ x)) with (mark f x) in Hf by (by destruct f); by destruct (Hm f m Hf) as [-> ?].
Qed.

Lemma request_url_ok s c x :
  p_state x = s -> inv 1 x -> (p x < len)%nat ->
  (match s with
   | s_req_spaces_before_url | s_req_schema | s_req_schema_slash | s_req_schema_slash_slash | s_req_server_start
   | s_req_server | s_req_server_with_at | s_req_path | s_req_query_string_start | s_req_query_string
   | s_req_fragment_start | s_req_fragment => True
   | _ => False
   end) ->
  W (request_url settings data s c) (turn_ok (p x) s) x.
Proof.
  intros Hs [Hok Hq Hm] Hp Hg. unfold request_url, CALLBACK_DATA. handler_start s Hs Hq Hm; try turn_done Hq Hm.
  all: try by destruct (eqc c CR).
  all: destruct Hq as [Hv _]; lazymatch goal with |- wp _ _ _ ?y => apply (url_char_ok _ c y) end; [done|cbn; lia|done|].
  all: intros f m Hf; pose proof (Hm f m) as Hfm; destruct f; cbn in Hf, Hfm |- *; simplify_eq; try done.
  all: destruct (Hfm ltac:(assumption)) as [? ?]; done.
Qed.

Lemma request_version_ok s c x :
  p_state x = s -> inv 1 x -> (p x < len)%nat ->
  (match s with
   | s_req_http_start | s_req_http_H | s_req_http_HT | s_req_http_HTT | s_req_http_HTTP | s_req_http_I | s_req_http_IC
   | s_req_http_major | s_req_http_dot | s_req_http_minor | s_req_http_end | s_req_line_almost_done => True
   | _ => False
   end) ->
  W (request_version s c) (turn_ok (p x) s) x.
Proof.
  intros Hs [Hok Hq Hm] Hp Hg. unfold request_version. handler_start s Hs Hq Hm; turn_done Hq Hm.
Qed.

(** Switching from one method to another keeps the part of the word that is passed. *)
Lemma switched_ok m i c m' :
  switched m i c method_switch = Some m' ->
  exists w', method_strings !! Z.to_nat (wrap 8 m') = Some w' /\ i + 1 <= Z.of_nat (length w').
Proof.
  unfold method_switch. cbn [switched].
  repeat (destruct (_ && eqc _ c) eqn:E in |- *;
    [intros [= <-]; apply andb_true_iff in E as [[_ <-%Z.eqb_eq]%andb_true_iff _];
     eexists; split; [reflexivity|cbn; lia]|clear E]).
  done.
Qed.

Lemma method_length m w : method_strings !! m = Some w -> (length w < 100)%nat.
Proof. do 34 (destruct m as [|m]; [intros [= <-]; cbn; lia|]). done. Qed.

Lemma req_method_ok c x :
  p_state x = s_req_method -> inv 1 x -> (p x < len)%nat -> W (req_method c) (turn_ok (p x) s_req_method) x.
Proof.
  intros Hs [Hok Hq Hm] Hp. unfold req_method, marks_ok in *. rewrite Hs in Hm, Hq.
  destruct Hq as [Hv (w & Hw & Hi)]. pose proof (method_length _ _ Hw). x_step. x_step; [x_step|]. do 4 x_step. cbn [only_if].
  unfold matcher_at. rewrite Hw. cbn [mbind option_bind].
  destruct ((w ++ [x00]) !! Z.to_nat (pr_index (parser x))) as [d|] eqn:Ed.
  2:{ apply lookup_ge_None in Ed. rewrite length_app in Ed. simpl in Ed. lia. }
  assert (Hd : d <> x00 -> pr_index (parser x) < Z.of_nat (length w)).
  { intros Hd. apply lookup_lt_Some in Ed as Hlt. rewrite length_app in Hlt. simpl in Hlt.
    destruct (decide (Z.to_nat (pr_index (parser x)) = length w)) as [E|]; [|lia].
    rewrite E, lookup_app_r, Nat.sub_diag in Ed by done. by injection Ed as <-. }
  x_step.
  assert (Hrest : forall m', (exists w', method_strings !! Z.to_nat (wrap 8 m') = Some w' /\ pr_index (parser x) + 1 <= Z.of_nat (length w')) ->
    turn_ok (p x) s_req_method Break (x_parser (fun q => set_index (pr_index q + 1) q) (x_parser (set_method m') x))).
  { intros m' (w' & Hw' & Hl). pose proof (method_length _ _ Hw'). 
    assert (Hq : parser_ok s_req_method (nread x) 1 (parser x)) by (split; eauto).
    turn_done Hq Hm. exists w'. split; [done|]. rewrite wrap_small by (unfold unsigned_range; lia). lia. }
  x_step.
  - repeat x_step. assert (Hq : parser_ok s_req_method (nread x) 1 (parser x)) by (split; eauto). turn_done Hq Hm.
  - x_step.
    + repeat x_step. assert (Hq : parser_ok s_req_method (nread x) 1 (parser x)) by (split; eauto). turn_done Hq Hm.
      exists w. split; [done|]. apply bool_decide_eq_true in Heqb0 as ->.
      assert (d <> x00) by (intros ->; discriminate). specialize (Hd ltac:(done)).
      rewrite wrap_small by (unfold unsigned_range; lia). lia.
    + x_step; [|by repeat x_step]. destruct (switched _ _ _ _) as [m'|] eqn:Esw; [|by repeat x_step].
      repeat x_step. apply Hrest. by apply switched_ok in Esw.
Qed.

Lemma header_field_start_ok c x :
  p_state x = s_header_field_start -> inv 1 x -> (p x < len)%nat ->
  W (header_field_start c) (turn_ok (p x) s_header_field_start) x.
Proof.
  intros Hs [Hok Hq Hm] Hp. unfold header_field_start, set_hs, marks_ok in *. rewrite Hs in Hm, Hq. repeat x_step.
  all: turn_done Hq Hm.
  all: by repeat case_match.
Qed.

Lemma digit_range c : negb (IS_NUM c) = false -> 0 <= digit_of c <= 9.
Proof. unfold IS_NUM, between, digit_of. intros H%negb_false_iff. lia. Qed.

Lemma unhex_range c : (unhex c =? -1) = false -> 0 <= unhex c <= 15.
Proof. destruct c; vm_compute; intuition congruence. Qed.

Lemma NEW_MESSAGE_cases q : NEW_MESSAGE q = s_dead \/ NEW_MESSAGE q = s_start_req \/ NEW_MESSAGE q = s_start_res.
Proof.
  unfold NEW_MESSAGE, start_state. destruct (http_should_keep_alive q); [|by left]. destruct (is_request q); auto.
Qed.
#[local] Arguments NEW_MESSAGE : simpl never.
#[local] Arguments digit_of : simpl never.
#[local] Arguments unhex : simpl never.
#[local] Arguments Z.quot : simpl never.

Lemma header_value_start_ok s c x :
  p_state x = s -> inv 1 x -> (p x < len)%nat ->
  (match s with s_header_value_discard_ws | s_header_value_start => True | _ => False end) ->
  W (header_value_start c) (turn_ok (p x) s) x.
Proof.
  intros Hs [Hok Hq Hm] Hp Hg. unfold header_value_start, set_hs.
  destruct s; try done; unfold marks_ok in Hm; rewrite Hs in Hm, Hq; do 8 x_step;
    try (destruct (pr_header_state _) eqn:Hh; repeat x_step; 
      repeat match goal with H : negb (IS_NUM _) = false |- _ => apply digit_range in H end; turn_done Hq Hm).
  all: try by repeat case_match.
  all: cbn in Hh; by rewrite Hh.
Qed.

Lemma header_value_discard_ws_ok c x :
  p_state x = s_header_value_discard_ws -> inv 1 x -> (p x < len)%nat ->
  W (header_value_discard_ws c) (turn_ok (p x) s_header_value_discard_ws) x.
Proof.
  intros Hs Hi Hp. unfold header_value_discard_ws.
  do 3 (x_step; [destruct Hi as [Hok Hq Hm]; unfold marks_ok in Hm; rewrite Hs in Hm, Hq; repeat x_step; turn_done Hq Hm|]).
  by apply header_value_start_ok.
Qed.

Lemma header_end_ok s c x :
  p_state x = s -> inv 1 x -> (p x < len)%nat ->
  (match s with
   | s_header_almost_done | s_header_value_lws | s_header_value_discard_ws_almost_done | s_header_value_discard_lws => True
   | _ => False
   end) ->
  W (header_end settings data s c) (turn_ok (p x) s) x.
Proof.
  intros Hs [Hok Hq Hm] Hp Hg. unfold header_end, set_hs, CALLBACK_DATA_NOADVANCE. handler_start s Hs Hq Hm; turn_done Hq Hm.
Qed.


Lemma wp_return {A} n (Q : A -> _) x :
  (n <= len)%nat -> (is_error (pr_errno (parser x)) = true \/ parser_ok (p_state x) (nread x) 0 (parser x)) -> W (RETURN n) Q x.
Proof.
  intros Hn Hq. unfold RETURN. do 3 wp_step. split; [done|]. destruct Hq as [|Hq]; [by left|by right].
Qed.

Lemma headers_almost_done_ok c x :
  p_state x = s_headers_almost_done -> inv 1 x -> (p x < len)%nat ->
  W (headers_almost_done settings c) (turn_ok (p x) s_headers_almost_done) x.
Proof.
  intros Hs [Hok Hq Hm] Hp. unfold headers_almost_done, marks_ok in *. rewrite Hs in Hm, Hq.
  do 6 x_step; [repeat x_step; turn_done Hq Hm|]. do 8 x_step.
  set (x1 := x_parser _ (x_state s_headers_done x)). cbn [p].
  assert (Hend : forall x', p_state x' = s_headers_done -> is_ok (parser x') = true ->
    0 <= pr_content_length (parser x') <= ULLONG_MAX -> p x' = p x -> (forall f, mark f x' = mark f x) ->
    W (ok ← the (fun x => is_ok (parser x)); if (ok : bool) then mret Reexecute else RETURN (p x1))
      (turn_ok (p x) s_headers_almost_done) x').
  { intros x' Hs' Hok' Hv' Hp' Hm'. do 2 x_step. rewrite Hok'. x_step. apply turn_intro; [split; [done| |]|cbn in *; lia|by rewrite Hs'; cbn; lia].
    - rewrite Hs'. by split.
    - intros f m Hf. rewrite Hm' in Hf. destruct (Hm f m Hf) as [Ha _]. by destruct f. }
  destruct Hq as [Hv _]. x_step.
  destruct (on_notify settings cb_headers_complete) as [cb|] eqn:Ef; [|x_step; apply Hend; done || by intros []].
  do 6 x_step. cbn. rewrite (proj1 Hpassive _ cb _ Ef).
  do 2 (x_step; [x_step; apply Hend; done || by intros []|]).
  x_step; [do 3 x_step; apply Hend; done || by intros []|].
  do 2 x_step. apply wp_return; [cbn; lia|by left].
Qed.

Lemma wp_message_complete (Q : unit -> _) x :
  is_ok (parser x) = true -> (p x < len)%nat ->
  (forall s st tr, st = s_dead \/ st = s_start_req \/ st = s_start_res -> Q tt (x_cb s tr (x_state st x))) ->
  W (message_complete settings) Q x.
Proof.
  intros Hok Hp HQ. unfold message_complete. do 4 x_step. x_step. apply HQ, NEW_MESSAGE_cases.
Qed.

Lemma no_marks x s : marks_ok x -> p_state x = s -> (forall f, allowed f s = false) -> forall f, mark f x = None.
Proof.
  intros Hm Hs Ha f. destruct (mark f x) as [m|] eqn:E; [|done]. destruct (Hm f m E) as [H _]. by rewrite Hs, Ha in H.
Qed.

(** The two ends of a message that is complete. *)
Lemma complete_break n s x :
  is_ok (parser x) = true -> (n <= p x < len)%nat -> 0 <= pr_content_length (parser x) <= ULLONG_MAX ->
  (forall f, mark f x = None) -> W (message_complete settings ;; mret Break) (turn_ok n s) x.
Proof.
  intros Hok Hp Hv Hm. wp_step. apply wp_message_complete; [done|lia|]. intros s' st tr Hst. wp_step.
  apply turn_intro; [split; [done| |]|cbn; lia|done].
  - destruct Hst as [->|[->| ->]]; by split.
  - intros f m Hf. specialize (Hm f). destruct f; cbn in Hf, Hm; congruence.
Qed.
Lemma complete_return n s x :
  is_ok (parser x) = true -> (n <= p x < len)%nat -> 0 <= pr_content_length (parser x) <= ULLONG_MAX ->
  W (message_complete settings ;; n ← the p; RETURN (S n)) (turn_ok n s) x.
Proof.
  intros Hok Hp Hv. wp_step. apply wp_message_complete; [done|lia|]. intros s' st tr Hst. do 2 wp_step.
  apply wp_return; [cbn; lia|right]. destruct Hst as [->|[->| ->]]; by split.
Qed.

Lemma headers_done_ok c x :
  p_state x = s_headers_done -> inv 1 x -> (p x < len)%nat ->
  W (headers_done settings c) (turn_ok (p x) s_headers_done) x.
Proof.
  intros Hs [Hok Hq Hm] Hp. unfold headers_done, reset_nread. pose proof (no_marks x _ Hm Hs ltac:(by intros [])) as Hnone.
  unfold marks_ok in *. rewrite Hs in Hm, Hq. do 9 x_step. cbn [parser x_nread x_parser].
  assert (Hv : 0 <= pr_content_length (parser x) <= ULLONG_MAX) by apply Hq.
  assert (Hb : W (message_complete settings ;; mret Break) (turn_ok (p x) s_headers_done) (x_nread 0 (x_parser (set_nread 0) x)))
    by (apply complete_break; [done|cbn; lia|done|]; intros f; specialize (Hnone f); by destruct f).
  x_step; [apply complete_return; [done|cbn; lia|done]|]. x_step; [done|]. x_step; [x_step; turn_done Hq Hm|].
  x_step; [done|]. x_step; [x_step; turn_done Hq Hm|x_step; [done|x_step; turn_done Hq Hm]].
  cbn in Heqb2, Heqb3. lia.
Qed.

(** What [take_body] leaves: the rest of the length, at the last byte taken. *)
Lemma wp_take_body (Q : unit -> _) x :
  (p x < len)%nat -> 0 < pr_content_length (parser x) < ULLONG_MAX ->
  (forall m r n, mark cb_body x = Some m \/ mark cb_body x = None /\ m = p x ->
     0 <= r < pr_content_length (parser x) -> (p x <= n < len)%nat ->
     Q tt (x_p (fun _ => n) (x_parser (set_content_length r) (x_mark cb_body (Some m) x)))) ->
  W (take_body data) Q x.
Proof.
  intros Hp Hv HQ. unfold take_body. do 5 x_step. apply wp_check; [unfold ULLONG_MAX in *; lia|].
  set (v := pr_content_length (parser x)) in *. unfold HttpExecute.len.
  assert (Hn : forall m, mark cb_body x = Some m \/ mark cb_body x = None /\ m = p x ->
    Q tt (x_p (fun n => n + Z.to_nat (v `min` Z.of_nat (len - p x)) - 1)%nat
            (x_parser (set_content_length (v - v `min` Z.of_nat (len - p x))) (x_mark cb_body (Some m) x)))).
  { intros m Hm. apply (HQ m _ (p x + Z.to_nat (v `min` Z.of_nat (len - p x)) - 1)%nat Hm); lia. }
  do 2 x_step; do 2 x_step.
  - assert (x_mark cb_body (Some n) x = x) as Hx by (destruct x; cbn in *; by subst).
    specialize (Hn n ltac:(by left)). by rewrite Hx in Hn.
  - apply Hn. by right.
Qed.

Lemma body_ok s x :
  p_state x = s -> inv 1 x -> (p x < len)%nat ->
  (match s with s_body_identity | s_body_identity_eof | s_message_done => True | _ => False end) ->
  W (body settings data s) (turn_ok (p x) s) x.
Proof.
  intros Hs [Hok Hq Hm] Hp Hg. destruct s; try done; cbn [body].
  - unfold marks_ok in *. rewrite Hs in Hm, Hq. x_step. destruct Hq as [Hv Hv'].
    apply wp_take_body; [done|done|]. intros m r n Hmark Hr Hn.
    assert ((m <= p x)%nat) by (destruct Hmark as [Hf|[_ ->]]; [by apply (Hm cb_body)|done]).
    do 5 x_step.
    + do 3 x_step. apply wp_data; [done|cbn; lia|intros ? [= <-]; cbn; lia|]. intros s' tr. x_step.
      assert (Hq : parser_ok s_body_identity (nread x) 1 (parser x)) by by split.
      turn_done Hq Hm.
    + x_step. assert (Hq : parser_ok s_body_identity (nread x) 1 (parser x)) by by split.
      cbn in Heqb. turn_done Hq Hm.
  - unfold marks_ok in *. rewrite Hs in Hm, Hq. unfold HttpExecute.len. repeat x_step; turn_done Hq Hm.
  - pose proof (no_marks x _ Hm Hs ltac:(by intros [])) as Hnone. destruct Hq as [Hv _].
    x_step. apply wp_message_complete; [done..|]. intros s' st tr Hst.
    assert (Hok' : parser_ok st (nread x) 0 (parser x)) by (destruct Hst as [->|[->| ->]]; by split).
    do 4 x_step. destruct (pr_upgrade _).
    + apply wp_return; [cbn; lia|by right].
    + x_step. apply turn_intro; [split; [done|done|]|cbn; lia|done]. intros f m Hf. specialize (Hnone f). destruct f; cbn in Hf, Hnone; congruence.
Qed.

Lemma wp_assert_chunked (Q : unit -> _) x : flag_on F_CHUNKED (parser x) = true -> Q tt x -> W assert_chunked Q x.
Proof. intros Hc HQ. unfold assert_chunked. do 2 wp_step. by apply wp_check. Qed.

Lemma chunked_ok s c x :
  p_state x = s -> inv 1 x -> (p x < len)%nat ->
  (match s with
   | s_chunk_size_start | s_chunk_size | s_chunk_parameters | s_chunk_size_almost_done | s_chunk_data
   | s_chunk_data_almost_done | s_chunk_data_done => True
   | _ => False
   end) ->
  W (chunked settings data s c) (turn_ok (p x) s) x.
Proof.
  intros Hs [Hok Hq Hm] Hp Hg. destruct s; try done; unfold marks_ok in Hm; rewrite Hs in Hm, Hq; cbn [chunked];
    pose proof Hq as [Hv Hc]; cbn in Hc.
  - destruct Hc as [Hc Hn]. do 2 x_step. x_step. apply wp_check; [by rewrite Hn|]. x_step. apply wp_assert_chunked; [done|].
    repeat x_step. apply unhex_range in H. turn_done Hq Hm.
  - destruct Hc as [Hc Hlt]. x_step. apply wp_assert_chunked; [done|].
    repeat x_step; [turn_done Hq Hm|turn_done Hq Hm|]. apply unhex_range in Heqb0. cbn in H.
    assert (pr_content_length (parser x) <= 1152921504606846974) by (vm_compute Z.quot in H; lia).
    assert (Ht : u64 (u64 (pr_content_length (parser x) * 16) + unhex c) = pr_content_length (parser x) * 16 + unhex c).
    { rewrite (wrap_small 64 (_ * 16)) by (unfold unsigned_range; lia). apply wrap_small. unfold unsigned_range. lia. }
    turn_done Hq Hm; rewrite Ht; lia || (split; [done|lia]).
  - destruct Hc as [Hc Hlt]. x_step. apply wp_assert_chunked; [done|]. repeat x_step; turn_done Hq Hm.
  - destruct Hc as [Hc Hlt]. x_step. apply wp_assert_chunked; [done|]. unfold reset_nread.
    repeat x_step; turn_done Hq Hm. cbn in Heqb. split; [done|lia].
  - destruct Hc as [Hc Hlt]. x_step. apply wp_assert_chunked; [done|]. x_step.
    apply wp_take_body; [done|done|]. intros m r n Hmark Hr Hn.
    assert ((m <= p x)%nat) by (destruct Hmark as [Hf|[_ ->]]; [by apply (Hm cb_body)|done]).
    repeat x_step; cbn in H0; turn_done Hq Hm.
  - destruct Hc as [Hc Hv0]. x_step. apply wp_assert_chunked; [done|]. do 3 x_step. apply wp_check; [cbn; lia|].
    unfold CALLBACK_DATA. repeat x_step. turn_done Hq Hm.
  - x_step. apply wp_assert_chunked; [done|]. unfold reset_nread. repeat x_step. turn_done Hq Hm.
Qed.

(** ** The loops on header names and values *)

Lemma inv_p n x f : inv n x -> (p x <= f (p x))%nat -> inv n (x_p f x).
Proof.
  intros [Hok Hq Hm] Hp. split; [done|done|]. intros g m Hg.
  destruct (Hm g m ltac:(by destruct g)) as [? ?]. split; [done|cbn; lia].
Qed.

Lemma x_p_id x : x_p (fun n => n) x = x.
Proof. by destruct x. Qed.

Lemma skip_tokens_ok fuel pe (Q : unit -> _) x :
  (pe <= len)%nat -> (p x < len)%nat -> (len - p x < fuel)%nat ->
  (forall k, (p x + k < len)%nat -> Q tt (x_p (fun n => n + k)%nat x)) -> W (skip_tokens data fuel pe) Q x.
Proof.
  intros Hpe. revert x. induction fuel as [|fuel IH]; intros x Hp Hf HQ; [lia|]. cbn [skip_tokens].
  assert (H0 : Q tt x) by (specialize (HQ 0%nat ltac:(lia)); unfold x_p in HQ; rewrite Nat.add_0_r in HQ; by destruct x).
  do 2 wp_step. destruct (Nat.ltb_spec (S (p x)) pe); [|by wp_step].
  destruct (data !! S (p x)) as [c|] eqn:Ec; [|apply lookup_ge_None in Ec; lia].
  destruct (eqc _ _); [by wp_step|]. do 2 wp_step. apply IH; [cbn; lia|cbn; lia|].
  intros k Hk. specialize (HQ (S k)). cbn in Hk |- *. unfold x_p in HQ |- *. cbn.
  rewrite <- Nat.add_succ_r. apply HQ. lia.
Qed.

Lemma read_ch_ok (Q : unit -> _) x : (p x < len)%nat -> (forall c, data !! p x = Some c -> Q tt (x_ch c x)) -> W (read_ch data) Q x.
Proof.
  intros Hp HQ. unfold wp, read_ch. destruct (data !! p x) as [c|] eqn:Ec; [by apply HQ|].
  apply lookup_ge_None in Ec. lia.
Qed.

(** In the states of names and values, the invariant is about the header state only. *)
Lemma inv_header n s q x :
  inv n x -> p_state x = s -> is_ok q = true -> 0 <= pr_content_length q <= ULLONG_MAX ->
  match s with
  | s_header_field => field_state (pr_header_state q)
  | s_header_value => value_state (pr_header_state q)
  | _ => false
  end = true ->
  inv n (x_parser (fun _ => q) x).
Proof.
  intros [_ _ Hm] Hs Hok Hv Hh. split; [done| |].
  - cbn. rewrite Hs. split; [done|]. by destruct s.
  - intros f m Hf. apply Hm. by destruct f.
Qed.

Lemma match_word_cases word i c m f h :
  match_word word i c m f h = m \/ match_word word i c m f h = f \/ match_word word i c m f h = h.
Proof. unfold match_word. destruct (_ || _); [auto|]. destruct (_ =? _); auto. Qed.

Lemma field_char_ok fuel c t x (Q : unit -> _) :
  inv 0 x -> p_state x = s_header_field -> (p x < len)%nat -> (len < fuel)%nat ->
  (forall x', inv 0 x' -> p_state x' = s_header_field -> (p x <= p x' < len)%nat ->
     (forall f, mark f x' = mark f x) -> Q tt x') ->
  W (field_char max_header_size data fuel c t) Q x.
Proof.
  intros Hi Hs Hp Hf HQ. unfold field_char, set_hs, next_index.
  assert (Hn : forall h q, field_state h = true -> is_ok q = true ->
      pr_content_length q = pr_content_length (parser x) -> Q tt (x_parser (fun _ => set_header_state h q) x)).
  { intros h q Hh Hok Hv. apply HQ; [|done|done|by intros []]. apply (inv_header 0 s_header_field); [done|done|done| |done].
    cbn. rewrite Hv. apply (inv_parser 0 x Hi). }
  pose proof (inv_errno 0 x Hi) as Hok. pose proof (inv_parser 0 x Hi) as Hq.
  rewrite Hs in Hq. destruct Hq as [Hv Hh]. cbn in Hh.
  do 2 wp_step. destruct (pr_header_state (parser x)) eqn:Ehs; try discriminate; repeat wp_step.
  1: { apply skip_tokens_ok; [unfold far_end, HttpExecute.len; lia|done|lia|]. intros k Hk.
       apply HQ; [apply inv_p; [done|lia]|done|cbn; lia|by intros []]. }
  all: try (match goal with |- _ (x_parser (set_header_state ?h) _) => apply (Hn h) end;
            [repeat case_match; try done|done|done];
            match goal with |- context [match_word ?w ?i ?c ?m ?f ?h] => destruct (match_word_cases w i c m f h) as [->|[->| ->]]; done end).
  all: apply HQ; [done|done|lia|done].
Qed.

Lemma inv_ch c n x : inv n x -> inv n (x_ch c x).
Proof. intros [? ? Hm]. split; [done..|]. intros f m Hf. apply Hm. by destruct f. Qed.

Lemma field_loop_ok fuel (Q : unit -> _) x :
  inv 0 x -> p_state x = s_header_field -> (p x <= len)%nat -> (len - p x < fuel)%nat ->
  (forall x', inv 0 x' -> p_state x' = s_header_field -> (p x <= p x' <= len)%nat ->
     (forall f, mark f x' = mark f x) -> Q tt x') ->
  W (field_loop max_header_size data fuel) Q x.
Proof.
  revert x. induction fuel as [|fuel IH]; intros x Hi Hs Hp Hf HQ; [lia|]. cbn [field_loop]. unfold HttpExecute.len.
  do 2 wp_step. destruct (Nat.eqb_spec (p x) len); [wp_step; apply HQ; [done..|lia|done]|].
  wp_step. apply read_ch_ok; [lia|]. intros c _.
  pose proof (inv_ch c 0 x Hi) as Hi'.
  do 2 wp_step. cbn [ch x_ch]. destruct (eqc _ _); [wp_step; apply HQ; [done..|cbn; lia|by intros []]|].
  wp_step. apply field_char_ok; [done|done|cbn; lia|lia|]. intros x1 Hi1 Hs1 Hp1 Hm1. cbn in Hp1.
  do 2 wp_step. apply IH; [apply inv_p; [done|lia]|done|cbn; lia|cbn; lia|].
  intros x2 Hi2 Hs2 Hp2 Hm2. cbn in Hp2. apply HQ; [done|done|lia|].
  intros f. rewrite Hm2. specialize (Hm1 f). by destruct f.
Qed.

Lemma inv_nread n x : inv 0 x -> p_state x <> s_chunk_size_start -> inv 0 (x_nread n x).
Proof.
  intros [Hok Hq Hm] Hs. split; [done| |].
  - cbn. destruct Hq as [Hv Hq]. split; [done|]. by destruct (p_state x).
  - intros f m Hf. apply Hm. by destruct f.
Qed.

Lemma header_field_ok x :
  p_state x = s_header_field -> inv 1 x -> (p x < len)%nat ->
  W (header_field settings max_header_size data) (turn_ok (p x) s_header_field) x.
Proof.
  intros Hs Hi Hp. unfold header_field.
  assert (Hi0 : inv 0 x) by (destruct Hi as [? Hq ?]; split; [done| |done]; rewrite Hs in *; exact Hq).
  do 3 wp_step. apply field_loop_ok; [done|done|lia|unfold HttpExecute.len; lia|]. intros x1 Hi1 Hs1 Hp1 Hm1.
  do 2 wp_step. unfold HttpExecute.len. destruct (Nat.eqb_spec (p x1) len).
  - do 5 wp_step. apply wp_count; [cbn; lia|]. intros r _. wp_step.
    apply turn_intro; [|cbn; lia|done]. apply inv_nread; [|cbn; by rewrite Hs1].
    destruct Hi1 as [? ? Hmk]. split; [done..|]. intros f m Hf. assert (Hfx : mark f x1 = Some m) by by destruct f.
    destruct (Hmk f m Hfx) as [? _]. rewrite Hm1 in Hfx. destruct (inv_marks 0 x Hi0 f m Hfx) as [_ ?]. split; [done|cbn; lia].
  - wp_step. apply wp_count; [lia|]. intros r _. do 2 wp_step.
    assert (Hi2 : inv 0 (x_nread r x1)) by (apply inv_nread; [done|by rewrite Hs1]).
    destruct Hi2 as [Hok Hq Hm]. cbn [p_state x_nread] in Hq. rewrite Hs1 in Hq. unfold marks_ok in Hm. cbn in Hm. rewrite Hs1 in Hm.
    unfold CALLBACK_DATA. repeat x_step. turn_done Hq Hm.
Qed.

(** A moved pointer does not go back before [p0]. *)
Lemma value_skip_ok p0 fuel pe (Q : unit -> _) x :
  (p0 <= p x <= pe)%nat -> (pe <= len)%nat -> (pe - p x < fuel)%nat ->
  (p0 = p x -> forall c, data !! p x = Some c -> eqc c CR || eqc c LF = false) ->
  (forall c n, (p0 <= n <= pe)%nat -> Q tt (x_p (fun _ => n) (x_ch c x))) -> W (value_skip data lenient fuel pe) Q x.
Proof.
  revert x. induction fuel as [|fuel IH]; intros x Hp Hpe Hf H0 HQ; [lia|]. cbn [value_skip].
  assert (Hx : Q tt x) by (specialize (HQ (ch x) (p x) ltac:(lia)); by destruct x).
  do 2 wp_step. destruct (Nat.eqb_spec (p x) pe); [by wp_step|]. wp_step.
  apply read_ch_ok; [lia|]. intros c Ec. do 2 wp_step. cbn [ch x_ch]. destruct (_ || _) eqn:Eend.
  - wp_step. destruct (decide (p0 = p x)) as [E|]; [by rewrite (H0 E c Ec) in Eend|].
    apply (HQ c (pred (p x))). lia.
  - wp_step. wp_step; [by apply wp_fails; [done|cbn; lia]|]. do 2 wp_step.
    apply IH; [cbn; lia|done|cbn; lia|cbn; lia|]. intros c' k Hk. exact (HQ c' k Hk).
Qed.

Lemma wp_fails_in {A} h e (Q : A -> _) x : is_error e = true -> (p x <= len)%nat -> W (fails_in h e) Q x.
Proof. intros He Hp. split; [|done]. cbn. by destruct e. Qed.

(** Where the value's loop stands. *)
Record in_value (x0 : locals) (h : header_states) x : Prop := mkInValue {
  v_inv : inv 0 x;
  v_state : p_state x = s_header_value;
  v_header : value_state h = true;
  v_le : (p x0 <= p x)%nat;
  v_mark : forall f, mark f x = mark f x0
}.

(** A change of the parser that keeps the loop's invariant. *)
Lemma in_value_parser x0 h h' q x :
  in_value x0 h x -> value_state h' = true -> is_ok q = true -> pr_header_state q = pr_header_state (parser x) ->
  0 <= pr_content_length q <= ULLONG_MAX -> in_value x0 h' (x_parser (fun _ => q) x).
Proof.
  intros [Hi Hs Hh Hp Hm] Hh' Hok Hhs Hv. split; [|done|done|done|intros f; rewrite <- Hm; by destruct f].
  apply (inv_header 0 s_header_value); [done..|]. rewrite Hhs.
  pose proof (inv_parser 0 x Hi) as Hq. rewrite Hs in Hq. apply Hq.
Qed.

Lemma in_value_p x0 h c n x : in_value x0 h x -> (p x <= n)%nat -> in_value x0 h (x_p (fun _ => n) (x_ch c x)).
Proof.
  intros [Hi Hs Hh Hp Hm] Hn. split; [|done|done|cbn; lia|intros f; rewrite <- Hm; by destruct f].
  apply inv_p; [by apply inv_ch|done].
Qed.

Lemma content_length_digit_ok c x0 h x (Q : header_states -> locals -> Prop) :
  in_value x0 h x -> (p x <= len)%nat ->
  (forall h' x', in_value x0 h' x' -> p x' = p x -> Q h' x') -> W (content_length_digit c) Q x.
Proof.
  intros Hi Hp HQ. unfold content_length_digit. x_step.
  { x_step. apply HQ; [|done]. by destruct Hi. }
  x_step. x_step; [by apply wp_fails_in|]. apply digit_range in H.
  do 3 x_step. x_step; [by apply wp_fails_in|]. do 3 x_step. apply HQ; [|done].
  set (v := pr_content_length (parser x)) in *.
  assert (v <= 1844674407370955160) by (vm_compute Z.quot in H0; lia).
  pose proof (inv_parser 0 x (v_inv _ _ _ Hi)) as [Hv _]. fold v in Hv.
  assert (Ht : u64 (u64 (v * 10) + digit_of c) = v * 10 + digit_of c).
  { rewrite (wrap_small 64 (v * 10)) by (unfold unsigned_range; lia). apply wrap_small. unfold unsigned_range. lia. }
  apply (in_value_parser x0 h h_content_length_num _ x Hi); [done|apply Hi|done|].
  cbn. rewrite Ht. unfold ULLONG_MAX. lia.
Qed.

Lemma value_char_ok fuel h c l x0 x (Q : header_states -> locals -> Prop) :
  in_value x0 h x -> (p x < len)%nat -> (len < fuel)%nat -> data !! p x = Some c -> eqc c CR || eqc c LF = false ->
  (forall h' x', in_value x0 h' x' -> (p x <= p x' < len)%nat -> Q h' x') ->
  W (value_char max_header_size data lenient fuel h c l) Q x.
Proof.
  intros Hi Hp Hf Hc Hend HQ.
  assert (Hq : forall h' q, value_state h' = true -> is_ok q = is_ok (parser x) ->
      pr_header_state q = pr_header_state (parser x) -> pr_content_length q = pr_content_length (parser x) ->
      Q h' (x_parser (fun _ => q) x)).
  { intros h' q Hh' Hok Hhs Hv. apply HQ; [|done]. apply (in_value_parser x0 h h' q x Hi); [done| |done|].
    - rewrite Hok. apply Hi.
    - rewrite Hv. apply (inv_parser 0 x (v_inv _ _ _ Hi)). }
  assert (Hx : forall h', value_state h' = true -> Q h' x) by (intros h' Hh'; apply HQ; [by destruct Hi|done]).
  assert (Hd : W (content_length_digit c) Q x).
  { apply (content_length_digit_ok c x0 h); [done|lia|]. intros h' x' Hi' Hp'. apply HQ; [done|lia]. }
  pose proof (v_header _ _ _ Hi) as Hh. unfold value_char, next_index.
  assert (Hst : x_state s_header_value x = x) by (rewrite <- (v_state _ _ _ Hi); by destruct x).
  destruct h; try discriminate; repeat x_step; try done.
  1: { apply (value_skip_ok (p x)); [unfold far_end, HttpExecute.len; lia..| |].
       - intros _ c' Hc'. by simplify_eq.
       - intros c' n Hn. do 4 wp_step; unfold far_end, HttpExecute.len in *; cbn in H; repeat wp_step.
         + apply Nat.eqb_eq in H. apply HQ; [|cbn in *; lia].
           apply (in_value_p x0 h_general c' (pred n) x Hi). lia.
         + apply Nat.eqb_neq in H. apply HQ; [|cbn in *; lia]. apply (in_value_p x0 h_general c' n x Hi). lia. }
  all: rewrite ?Hst.
  all: try (apply Hx; by repeat case_match).
  all: try (apply wp_fails_in; [done|lia]).
  all: try (apply (Hq _ (set_index _ _)); [|done..]; try done;
            match goal with |- context [match_word ?w ?i ?c ?m ?f ?h] => destruct (match_word_cases w i c m f h) as [->|[->| ->]]; done end).
Qed.

(** Where the loop ends: out of data, at the end of the line, or at the line feed that is
    executed again. *)
Definition value_end x0 (r : option header_states) x : Prop :=
  match r with
  | Some h => in_value x0 h x /\ p x = len \/ inv 0 x /\ p_state x = s_header_almost_done /\ (p x0 <= p x < len)%nat
  | None => inv 0 x /\ p_state x = s_header_almost_done /\ (p x0 <= p x < len)%nat
  end.

Lemma value_done x0 h q r st tr x :
  in_value x0 h x -> is_ok q = true -> 0 <= pr_content_length q <= ULLONG_MAX ->
  inv 0 (x_mark cb_header_value None (x_cb st tr (x_parser (fun _ => q) (x_nread r (x_state s_header_almost_done x))))).
Proof.
  intros [[_ _ Hm] Hs _ _ _] Hok Hv. split; [done|by split|]. unfold marks_ok in *. rewrite Hs in Hm.
  intros f m Hf. specialize (Hm f m). destruct f; cbn in Hf, Hm; try done; by destruct (Hm Hf).
Qed.

Lemma value_loop_ok fuel start h x0 (Q : option header_states -> locals -> Prop) x :
  in_value x0 h x -> (p x <= len)%nat -> (len - p x < fuel)%nat ->
  (forall r x', value_end x0 r x' -> Q r x') ->
  W (value_loop settings max_header_size data lenient fuel start h) Q x.
Proof.
  revert h x. induction fuel as [|fuel IH]; intros h x Hi Hp Hf HQ; [lia|]. cbn [value_loop]. unfold HttpExecute.len.
  do 2 wp_step. destruct (Nat.eqb_spec (p x) len); [wp_step; apply HQ; by left|].
  wp_step. apply read_ch_ok; [lia|]. intros c Hc.
  pose proof (in_value_p x0 h c (p x) x Hi ltac:(lia)) as Hi1. change (x_p (fun _ => p x) (x_ch c x)) with (x_ch c x) in Hi1.
  assert (p x < len)%nat by lia. pose proof (v_le _ _ _ Hi). pose proof (inv_errno 0 x (v_inv _ _ _ Hi)) as Hok.
  pose proof (inv_parser 0 x (v_inv _ _ _ Hi)) as [Hv _].
  assert (Hm : forall m, mark cb_header_value x = Some m -> (m <= p x)%nat).
  { intros m Hf'. by apply (inv_marks 0 x (v_inv _ _ _ Hi) cb_header_value). }
  do 2 wp_step. cbn [ch x_ch]. destruct (eqc c CR) eqn:Ecr; [|destruct (eqc c LF) eqn:Elf].
  - unfold set_hs, CALLBACK_DATA. do 7 wp_step.
    apply wp_data; [done|cbn; lia|intros m Hf'; specialize (Hm m Hf'); cbn; lia|]. intros st tr. wp_step. apply HQ. right.
    split; [|cbn; by split; [done|lia]].
    exact (value_done x0 h (set_header_state h (parser x)) (nread x) st tr (x_ch c x) Hi1 Hok Hv).
  - unfold set_hs, CALLBACK_DATA_NOADVANCE. do 3 wp_step. apply wp_count; [cbn; lia|]. intros r _. do 5 wp_step.
    apply wp_data; [done|cbn; lia|intros m Hf'; specialize (Hm m Hf'); cbn; lia|]. intros st tr. wp_step. apply HQ.
    split; [|cbn; by split; [done|lia]]. exact (value_done x0 h (set_header_state h (parser x)) r st tr (x_ch c x) Hi1 Hok Hv).
  - wp_step. wp_step; [apply wp_fails; [done|cbn; lia]|]. wp_step.
    apply (value_char_ok _ h c _ x0); [done|cbn; lia|lia|done|by rewrite Ecr, Elf|]. intros h' x' Hi' Hp'. cbn in Hp'.
    do 2 wp_step. apply IH; [|cbn; lia|cbn; lia|done].
    destruct Hi' as [Hi'' Hs' Hh' Hle Hmk]. split; [apply inv_p; [done|lia]|done|done|cbn; lia|].
    intros f. rewrite <- Hmk. by destruct f.
Qed.

Lemma header_value_ok x :
  p_state x = s_header_value -> inv 1 x -> (p x < len)%nat ->
  W (header_value settings max_header_size data lenient) (turn_ok (p x) s_header_value) x.
Proof.
  intros Hs Hi Hp. unfold header_value.
  assert (Hi0 : inv 0 x) by (destruct Hi as [? Hq ?]; split; [done| |done]; rewrite Hs in *; exact Hq).
  assert (Hh : value_state (pr_header_state (parser x)) = true).
  { pose proof (inv_parser 0 x Hi0) as Hq. rewrite Hs in Hq. apply Hq. }
  do 5 wp_step. apply (value_loop_ok _ _ _ x); [by split|lia|unfold HttpExecute.len; lia|]. intros [h|] x' He.
  2:{ destruct He as (Hi' & Hs' & Hp'). wp_step. apply turn_intro; [done|lia|]. rewrite Hs'. cbn. lia. }
  assert (Hend : exists x2, inv 0 x2 /\ (p x2 < len)%nat /\ (p x <= p x2)%nat /\ p_state x2 <> s_chunk_size_start /\
    x2 = x_p (fun _ => if (p x' =? len)%nat then pred (p x') else p x') (x_parser (set_header_state h) x')).
  { eexists. split_and!; [| | | |reflexivity]; destruct He as [[[Hi' Hs' Hh' Hle Hm] He]|(Hi' & Hs' & Hp')].
    - assert (Hi2 : inv 0 (x_parser (set_header_state h) x')).
      { apply (inv_header 0 s_header_value (set_header_state h (parser x')) x'); [done|done|by apply Hi'| |done].
        by apply (inv_parser 0 x' Hi'). }
      destruct Hi2 as [? ? Hmk]. split; [done|done|]. intros f m Hf. cbn [p x_p x_parser]. rewrite He, Nat.eqb_refl.
      destruct (Hmk f m ltac:(by destruct f)) as [Ha _]. split; [done|].
      assert (mark f x = Some m) as Hfx by (rewrite <- Hm; by destruct f).
      destruct (inv_marks 0 x Hi0 f m Hfx). lia.
    - destruct Hi' as [Hok Hq Hm]. cbn [p_state x_p x_parser] in *. split; [done| |].
      + cbn. rewrite Hs' in *. exact Hq.
      + intros f m Hf. cbn. destruct (Nat.eqb_spec (p x') len); [lia|]. apply Hm. by destruct f.
    - cbn. rewrite He, Nat.eqb_refl. lia.
    - cbn. destruct (Nat.eqb_spec (p x') len); lia.
    - cbn. rewrite He, Nat.eqb_refl. lia.
    - cbn. destruct (Nat.eqb_spec (p x') len); lia.
    - cbn. by rewrite Hs'.
    - cbn. by rewrite Hs'. }
  destruct Hend as (x2 & Hi2 & Hp2 & Hle2 & Hs2 & Ex2). unfold set_hs, HttpExecute.len. do 5 wp_step.
  assert (Hcount : W (n ← the p; COUNT_HEADER_SIZE max_header_size (n - p x) ;; mret Break) (turn_ok (p x) s_header_value) x2).
  { do 3 wp_step. apply wp_count; [lia|]. intros r _. wp_step. apply turn_intro; [by apply inv_nread|cbn; lia|done]. }
  wp_step; cbn [p x_parser] in H; rewrite H in Ex2; rewrite Ex2 in Hcount; [wp_step|]; exact Hcount.
Qed.

(** ** The loop on the data *)

Lemma switch_ok x :
  inv 1 x -> (p x < len)%nat -> W (switch settings max_header_size data lenient) (turn_ok (p x) (p_state x)) x.
Proof.
  intros Hi Hp. unfold switch. do 4 wp_step.
  destruct (p_state x) eqn:Hs;
    first [ by apply start_line_ok | by apply status_line_ok | by apply start_req_ok | by apply req_method_ok
          | by apply request_url_ok | by apply request_version_ok | by apply header_field_start_ok
          | by apply header_field_ok | by apply header_value_discard_ws_ok | by apply header_value_start_ok
          | by apply header_value_ok | by apply header_end_ok | by apply headers_almost_done_ok
          | by apply headers_done_ok | by apply body_ok | by apply chunked_ok ].
Qed.

Lemma inv_other n x : inv 0 x -> p_state x <> s_chunk_size_start -> inv n x.
Proof.
  intros [Hok [Hv Hq] Hm] Hs. split; [done| |done]. split; [done|]. by destruct (p_state x).
Qed.

Lemma rank_bounds s : (1 <= rank s <= 4)%nat.
Proof. destruct s; cbn; lia. Qed.

Lemma reexecute_ok fuel (Q : unit -> _) x :
  inv 1 x -> (p x < len)%nat -> (rank (p_state x) <= fuel)%nat ->
  (forall x', inv 0 x' -> (p x <= p x' < len)%nat -> Q tt x') ->
  W (reexecute settings max_header_size data lenient fuel) Q x.
Proof.
  revert x. induction fuel as [|fuel IH]; intros x Hi Hp Hr HQ; [pose proof (rank_bounds (p_state x)); lia|].
  cbn [reexecute]. wp_step. eapply wp_mono; [by apply switch_ok|]. intros [|] x' (Hi' & Hp' & Hr').
  - wp_step. by apply HQ.
  - pose proof (rank_bounds (p_state x)). apply IH; [|lia|lia|intros x2 Hi2 Hp2; apply HQ; [done|lia]]. apply inv_other; [done|].
    intros E. rewrite E in Hr'. cbn in Hr'. lia.
Qed.

Lemma one_byte_ok (Q : unit -> _) x :
  inv 0 x -> (p x < len)%nat -> (forall x', inv 0 x' -> (p x < p x' <= len)%nat -> Q tt x') ->
  W (one_byte settings max_header_size data lenient) Q x.
Proof.
  intros Hi Hp HQ. unfold one_byte. wp_step. apply read_ch_ok; [done|]. intros c _. pose proof (inv_ch c 0 x Hi) as Hi'.
  assert (Hrest : forall r, (p_state x = s_chunk_size_start -> r = 1) ->
    W (reexecute settings max_header_size data lenient 5 ;; upd (x_p S)) Q (x_nread r (x_ch c x))).
  { intros r Hr. wp_step. apply reexecute_ok; [|done| |].
    - destruct Hi' as [Hok [Hv Hq] Hm]. split; [done| |].
      + cbn. split; [done|]. cbn in Hq. destruct (p_state x) eqn:Hs; try done. destruct Hq as [Hc _]. split; [done|by apply Hr].
      + intros f m Hf. apply Hm. by destruct f.
    - cbn. pose proof (rank_bounds (p_state x)). lia.
    - intros x' Hi1 Hp1. cbn in Hp1. wp_step. apply HQ; [apply inv_p; [done|lia]|cbn; lia]. }
  do 3 wp_step. wp_step.
  - apply wp_count; [cbn; lia|]. intros r ->. apply Hrest. intros Hs. cbn.
    pose proof (inv_parser 0 x Hi) as [_ Hq]. rewrite Hs in Hq. by destruct Hq as [_ ->].
  - replace (x_ch c x) with (x_nread (nread x) (x_ch c x)) by by destruct x. apply Hrest. intros Hs. cbn in H. by rewrite Hs in H.
Qed.

Lemma main_loop_ok fuel (Q : unit -> _) x :
  inv 0 x -> (p x <= len)%nat -> (len - p x < fuel)%nat ->
  (forall x', inv 0 x' -> p x' = len -> Q tt x') ->
  W (main_loop settings max_header_size data lenient fuel) Q x.
Proof.
  revert x. induction fuel as [|fuel IH]; intros x Hi Hp Hf HQ; [lia|]. cbn [main_loop]. unfold HttpExecute.len.
  do 2 wp_step. destruct (Nat.eqb_spec (p x) len); [wp_step; by apply HQ|].
  wp_step. apply one_byte_ok; [done|lia|]. intros x' Hi' Hp'. apply IH; [done|lia|lia|done].
Qed.

(** ** Execution *)

Lemma start_inv q : is_ok q = true -> parser_ok (pr_state q) (pr_nread q) 0 q -> inv 0 (start_marks (pr_state q) (entry q)).
Proof.
  intros Hok Hq. assert (He : forall s, p_state (start_marks s (entry q)) = pr_state q /\ parser (start_marks s (entry q)) = q /\
    nread (start_marks s (entry q)) = pr_nread q) by by intros [].
  split; [by rewrite (proj1 (proj2 (He _)))|destruct (He (pr_state q)) as (-> & -> & ->); done|].
  intros f m Hf. rewrite (proj1 (He _)). destruct (pr_state q), f; cbn in Hf; simplify_eq; by split.
Qed.

(** At most one mark is set. *)
Lemma marks_le x : marks_ok x -> (marks x <= 1)%nat.
Proof.
  intros Hm. unfold marks.
  assert (Hone : forall f g, is_Some (mark f x) -> is_Some (mark g x) -> f = g).
  { intros f g [m Hf] [n Hg]. destruct (Hm f m Hf) as [Hf' _], (Hm g n Hg) as [Hg' _].
    by destruct (p_state x), f, g. }
  assert (Hdup : forall l : list data_cb, NoDup l -> (forall f g, f ∈ l -> g ∈ l -> f = g) -> (length l <= 1)%nat).
  { intros [|f [|g l]] Hnd Hl; cbn; [lia|lia|]. apply NoDup_cons in Hnd as [Hn _]. destruct Hn.
    rewrite (Hl f g) by set_solver. set_solver. }
  apply Hdup; [apply NoDup_filter; repeat constructor; set_solver|].
  intros f g Hf Hg. apply list_elem_of_filter in Hf as [Hf _], Hg as [Hg _]. by apply Hone.
Qed.

Lemma flush_ok f (Q : unit -> _) x :
  inv 0 x -> p x = len -> (forall x', inv 0 x' -> p x' = len -> Q tt x') ->
  W (CALLBACK_DATA_NOADVANCE settings data f) Q x.
Proof.
  intros [Hok Hq Hm] Hp HQ. unfold CALLBACK_DATA_NOADVANCE. do 2 wp_step.
  apply wp_data; [done|lia|intros m Hf; destruct (Hm f m Hf); lia|]. intros s tr. apply HQ; [|done].
  split; [done|done|]. intros g m Hg. apply Hm. by destruct f, g.
Qed.

(** What a call stops with: at the end of the stream it may return 1. *)
Definition call_ok (s : stop) x : Prop :=
  match s with
  | returned n => (n <= len \/ data = [] /\ n = 1)%nat /\ resting (parser x)
  | s => stop_ok s x
  end.

Lemma wp_weaken {A} (m : X A) Q x : wp m Q stop_ok x -> wp m Q call_ok x.
Proof.
  unfold wp. destruct (m x) as [[a|[| |]] x']; try done. intros [? ?]. split; [by left|done].
Qed.

Lemma at_eof_ok q (Q : unit -> _) :
  is_ok q = true -> parser_ok (pr_state q) (pr_nread q) 0 q -> data = [] -> wp (at_eof settings) Q call_ok (entry q).
Proof.
  intros Hok Hq Hd. unfold at_eof, CALLBACK_NOTIFY_NOADVANCE. do 2 wp_step. cbn [p_state entry].
  assert (Hr : resting q) by by right.
  destruct (pr_state q) eqn:Hs; try (wp_step; split; [left; lia|done]).
  all: try (do 3 wp_step; split; [by right|by left]).
  apply wp_weaken. do 3 wp_step. apply wp_notify; [done|cbn; lia|]. intros s tr [->| ->]; wp_step; (split; [lia|right]); cbn;
    by rewrite ?Hs.
Qed.

Lemma execute_body_ok q :
  resting q -> wp (execute_body settings max_header_size data lenient) (fun _ _ => False) call_ok (entry q).
Proof.
  intros Hr. unfold execute_body. do 3 wp_step. wp_step.
  { wp_step. split; [left; lia|done]. }
  destruct (is_ok q) eqn:Hok; [|by cbn in H; rewrite Hok in H].
  assert (Hq : parser_ok (pr_state q) (pr_nread q) 0 q).
  { destruct Hr as [He|Hq]; [|done]. unfold is_ok in Hok. by destruct (pr_errno q). }
  wp_step. wp_step.
  { apply at_eof_ok; [done|done|]. apply Nat.eqb_eq in H0. by apply nil_length_inv. }
  assert (Hp0 : forall st, p (start_marks st (entry q)) = 0%nat) by by intros [].
  apply wp_weaken. do 3 wp_step. wp_step. wp_step. unfold HttpExecute.len. apply main_loop_ok; [by apply start_inv| | |].
  { rewrite Hp0. cbn. lia. }
  { rewrite Hp0. cbn. lia. }
  intros x Hi Hp. do 3 wp_step. apply wp_check; [by apply Nat.leb_le, marks_le; apply Hi|].
  do 5 (wp_step; apply flush_ok; [done|done|]; clear dependent x; intros x Hi Hp).
  apply wp_return; [lia|]. right. apply Hi.
Qed.
End safe.

(** ** The theorem *)

(** The parsers a program can have: new, after a call, paused or resumed between calls. *)
Inductive reachable : http_parser -> Prop :=
| reachable_init t : reachable (http_parser_init t)
| reachable_execute settings max_header_size q data r q' tr :
    reachable q -> passive settings ->
    http_parser_execute settings max_header_size q data = (r, q', tr) -> reachable q'
| reachable_pause b q q' : reachable q -> http_parser_pause b q = Some q' -> reachable q'.

Lemma execute_resting settings max_header_size q data :
  passive settings -> resting q ->
  exists n q' tr, http_parser_execute settings max_header_size q data = (Ok n, q', tr) /\ resting q' /\
    (n <= length data \/ data = [] /\ n = 1)%nat.
Proof.
  intros Hs Hr. pose proof (execute_body_ok settings max_header_size data (pr_lenient q) Hs q Hr) as Hw.
  unfold wp in Hw. unfold http_parser_execute.
  destruct (execute_body settings max_header_size data (pr_lenient q) (entry q)) as [[a|[|n|c]] x]; try done.
  - destruct Hw as [He Hp]. assert (is_ok (parser x) = false) as -> by (unfold is_ok; by destruct (pr_errno (parser x))).
    do 3 eexists. split; [reflexivity|]. split; [by left|by left].
  - destruct Hw as [Hn Hq]. do 3 eexists. by split.
Qed.

Lemma reachable_resting q : reachable q -> resting q.
Proof.
  induction 1 as [t|settings mx q data r q' tr _ IH Hs He|b q q' _ IH Hp].
  - right. destruct t; (split; [cbn; unfold ULLONG_MAX; lia|done]).
  - destruct (execute_resting settings mx q data Hs IH) as (n & q2 & tr2 & He2 & Hr & _). congruence.
  - unfold http_parser_pause in Hp. destruct IH as [He|Hq]; destruct (pr_errno q) eqn:E; try done; injection Hp as <-; by right.
Qed.

(** C19: Whatever a program feeds a parser, in whatever pieces and whatever its callbacks return, a call
    ends: no assertion fails, nothing outside the data is read, the loops and the [goto]s stop; and it
    takes no more bytes than it was given, except that it returns 1 when the stream ends in the middle
    of a message.  The callbacks must leave the parser alone. *)
Theorem grammar_safe settings max_header_size q data :
  passive settings -> reachable q ->
  exists n q' tr, http_parser_execute settings max_header_size q data = (Ok n, q', tr) /\ reachable q' /\
    (n <= length data \/ data = [] /\ n = 1)%nat.
Proof.
  intros Hs Hr. destruct (execute_resting settings max_header_size q data Hs (reachable_resting q Hr)) as (n & q' & tr & He & _ & Hn).
  exists n, q', tr. split_and!; [done| |done]. by eapply reachable_execute.
Qed.

(** ** Witness *)

Lemma grammar_safe_witness :
  let data := lit "GET /a HTTP/1.1" ++ [x0d; x0a; x0d; x0a] in
  exists n q' tr, http_parser_execute http_parser_settings_init HTTP_MAX_HEADER_SIZE (http_parser_init HTTP_BOTH) data = (Ok n, q', tr) /\
    reachable q' /\ (n <= length data \/ data = [] /\ n = 1)%nat.
Proof.
  apply (grammar_safe http_parser_settings_init HTTP_MAX_HEADER_SIZE (http_parser_init HTTP_BOTH)).
  - by split.
  - constructor.
Defined.
