(* ===== verification/HttpUrlTheorems.v ===== *)
(** * URLs: the fields of a URL lie in it, and of a path, a query and a fragment they are the parts *)

From S2P Require Import Prelude Http HttpGrammar HttpUrl.
#[local] Set Default Goal Selector "!".

(** ** The structure *)

Section fields.
Implicit Types u : http_parser_url.

(** Seven fields. *)
Definition shaped u : Prop := length (field_data u) = UF_MAX.

Lemma shaped_set_off f v u : shaped u -> shaped (set_off f v u).
Proof. unfold shaped. cbn. by rewrite length_insert. Qed.
Lemma shaped_set_len f v u : shaped u -> shaped (set_len f v u).
Proof. unfold shaped. cbn. by rewrite length_insert. Qed.
Lemma shaped_add f u : shaped u -> shaped (add_field f u).
Proof. done. Qed.

Lemma off_set_off f g v u :
  shaped u -> (g < UF_MAX)%nat -> off f (set_off g v u) = if decide (f = g) then u16 v else off f u.
Proof.
  intros Hu Hg. unfold off. cbn. destruct (decide (f = g)) as [->|].
  - rewrite list_lookup_insert_eq by (rewrite Hu; done). done.
  - by rewrite list_lookup_insert_ne.
Qed.
Lemma off_set_len f g v u : shaped u -> (g < UF_MAX)%nat -> off f (set_len g v u) = off f u.
Proof.
  intros Hu Hg. unfold off. cbn. destruct (decide (f = g)) as [->|].
  - rewrite list_lookup_insert_eq by (rewrite Hu; done). done.
  - by rewrite list_lookup_insert_ne.
Qed.
Lemma len_set_off f g v u : shaped u -> (g < UF_MAX)%nat -> len_of f (set_off g v u) = len_of f u.
Proof.
  intros Hu Hg. unfold len_of. cbn. destruct (decide (f = g)) as [->|].
  - rewrite list_lookup_insert_eq by (rewrite Hu; done). done.
  - by rewrite list_lookup_insert_ne.
Qed.
Lemma len_set_len f g v u :
  shaped u -> (g < UF_MAX)%nat -> len_of f (set_len g v u) = if decide (f = g) then u16 v else len_of f u.
Proof.
  intros Hu Hg. unfold len_of. cbn. destruct (decide (f = g)) as [->|].
  - rewrite list_lookup_insert_eq by (rewrite Hu; done). done.
  - by rewrite list_lookup_insert_ne.
Qed.

Lemma is_set_add f g u :
  (f < UF_MAX)%nat -> (g < UF_MAX)%nat -> is_set f (add_field g u) = bool_decide (f = g) || is_set f u.
Proof.
  intros Hf Hg. unfold is_set, add_field. cbn [field_set].
  assert (Hbit : forall v, Z.land v (Z.shiftl 1 (Z.of_nat f)) = 0 <-> Z.testbit v (Z.of_nat f) = false).
  { intros v. split.
    - intros E. apply (f_equal (fun w => Z.testbit w (Z.of_nat f))) in E.
      rewrite Z.land_spec, Z.shiftl_spec, Z.sub_diag, Z.testbit_0_l in E by lia. cbn in E. by rewrite andb_true_r in E.
    - intros E. apply Z.bits_inj'. intros n Hn. rewrite Z.land_spec, Z.shiftl_spec, Z.testbit_0_l by lia.
      destruct (Z.eqb_spec n (Z.of_nat f)) as [->|Hne]; [by rewrite E|].
      apply andb_false_iff. right. change 1 with (2 ^ 0). apply Z.pow2_bits_false. lia. }
  assert (Hset : forall v, negb (Z.land v (Z.shiftl 1 (Z.of_nat f)) =? 0) = Z.testbit v (Z.of_nat f)).
  { intros v. destruct (Z.eqb_spec (Z.land v (Z.shiftl 1 (Z.of_nat f))) 0) as [E|E]; [by apply Hbit in E as ->|].
    destruct (Z.testbit v (Z.of_nat f)) eqn:E'; [done|]. by apply Hbit in E'. }
  rewrite !Hset. unfold wrap. unfold UF_MAX in *. rewrite Z.mod_pow2_bits_low, Z.lor_spec by lia. rewrite orb_comm. f_equal.
  rewrite Z.shiftl_spec by lia. case_bool_decide as Hfg; [by subst; rewrite Z.sub_diag|].
  change 1 with (2 ^ 0). apply Z.pow2_bits_false. lia.
Qed.
End fields.

Create Rewrite HintDb url.
#[export] Hint Rewrite off_set_off off_set_len len_set_off len_set_len is_set_add
  using first [assumption | (unfold UF_SCHEMA, UF_HOST, UF_PORT, UF_PATH, UF_QUERY, UF_FRAGMENT, UF_USERINFO, UF_MAX in *; lia)
              | auto using shaped_set_off, shaped_set_len, shaped_add ] : url.

(** ** The fields lie in the URL *)

Definition bounded (n : nat) (f : nat) (u : http_parser_url) : Prop :=
  0 <= off f u /\ 0 <= len_of f u /\ off f u + len_of f u <= Z.of_nat n.
Definition inside (n : nat) (u : http_parser_url) : Prop :=
  shaped u /\ forall f, (f < UF_MAX)%nat -> is_set f u = true -> bounded n f u.

Lemma u16_le v : 0 <= v -> 0 <= u16 v <= v.
Proof. intros Hv. unfold wrap. pose proof (Z.mod_pos_bound v (2 ^ 16) ltac:(lia)). pose proof (Z.mod_le v (2 ^ 16)). lia. Qed.

Lemma bounded_mono n m f u : bounded n f u -> (n <= m)%nat -> bounded m f u.
Proof. intros (? & ? & ?) ?. split_and!; lia. Qed.

Lemma shaped_start f i n u : shaped u -> shaped (start_field f i n u).
Proof. intros. by apply shaped_add, shaped_set_len, shaped_set_off. Qed.

Lemma start_other f g i n u :
  shaped u -> (f < UF_MAX)%nat -> f <> g -> off g (start_field f i n u) = off g u /\ len_of g (start_field f i n u) = len_of g u.
Proof.
  intros Hu Hf Hne. unfold start_field. unfold add_field.
  change (off g (set_len f n (set_off f (Z.of_nat i) u)) = off g u /\ len_of g (set_len f n (set_off f (Z.of_nat i) u)) = len_of g u).
  rewrite off_set_len, off_set_off, len_set_len, len_set_off by auto using shaped_set_off. by rewrite !decide_False by congruence.
Qed.
Lemma start_same f i n u :
  shaped u -> (f < UF_MAX)%nat -> off f (start_field f i n u) = u16 (Z.of_nat i) /\ len_of f (start_field f i n u) = u16 n.
Proof.
  intros Hu Hf. unfold start_field, add_field.
  change (off f (set_len f n (set_off f (Z.of_nat i) u)) = u16 (Z.of_nat i) /\ len_of f (set_len f n (set_off f (Z.of_nat i) u)) = u16 n).
  rewrite off_set_len, off_set_off, len_set_len by auto using shaped_set_off. by rewrite !decide_True.
Qed.

Lemma incr_other f g u :
  shaped u -> (f < UF_MAX)%nat -> f <> g -> off g (incr_len f u) = off g u /\ len_of g (incr_len f u) = len_of g u.
Proof. intros. unfold incr_len. rewrite off_set_len, len_set_len by done. by rewrite decide_False by congruence. Qed.
Lemma incr_same f u :
  shaped u -> (f < UF_MAX)%nat -> off f (incr_len f u) = off f u /\ len_of f (incr_len f u) = u16 (len_of f u + 1).
Proof. intros. unfold incr_len. rewrite off_set_len, len_set_len by done. by rewrite decide_True. Qed.

Lemma start_bounded f g i n m u :
  shaped u -> (f < UF_MAX)%nat -> 0 <= n <= 1 -> (i + Z.to_nat n <= m)%nat -> (f <> g -> bounded m g u) ->
  bounded m g (start_field f i n u).
Proof.
  intros Hu Hf Hn Hm Hg. unfold bounded. destruct (decide (f = g)) as [<-|Hne].
  - destruct (start_same f i n u Hu Hf) as [-> ->]. pose proof (u16_le (Z.of_nat i) ltac:(lia)).
    rewrite (wrap_small 16 n) by (unfold unsigned_range; lia). lia.
  - destruct (start_other f g i n u Hu Hf Hne) as [-> ->]. by apply Hg.
Qed.

Lemma incr_bounded f g n m u :
  shaped u -> (f < UF_MAX)%nat -> bounded n f u -> (n < m)%nat -> (f <> g -> bounded m g u) -> bounded m g (incr_len f u).
Proof.
  intros Hu Hf (H1 & H2 & H3) Hm Hg. unfold bounded. destruct (decide (f = g)) as [<-|Hne].
  - destruct (incr_same f u Hu Hf) as [-> ->]. pose proof (u16_le (len_of f u + 1) ltac:(lia)). lia.
  - destruct (incr_other f g u Hu Hf Hne) as [-> ->]. by apply Hg.
Qed.

Lemma field_of_lt s f : field_of s = Some f -> (f < UF_MAX)%nat.
Proof. destruct s; cbn; intros [= <-]; unfold UF_MAX, UF_HOST, UF_PATH, UF_SCHEMA, UF_QUERY, UF_FRAGMENT; lia. Qed.

Lemma is_set_start f g i n u :
  (f < UF_MAX)%nat -> (g < UF_MAX)%nat -> is_set g (start_field f i n u) = bool_decide (g = f) || is_set g u.
Proof. intros. unfold start_field. by rewrite is_set_add. Qed.

(** A state the automaton goes to is a delimiter, or in a field, or dead. *)
Lemma parse_url_char_field s c :
  let t := parse_url_char s c in t = s_dead \/ is_delimiter t = true \/ is_Some (field_of t).
Proof.
  cbv zeta. unfold parse_url_char. destruct (_ || _ || _); [by left|]. destruct (_ || _); [by left|].
  destruct s; try (by left); repeat case_match; first [by left|by right; left|by right; right; eexists].
Qed.

Lemma url_loop_ok rest i s old_uf found_at u :
  inside i u ->
  exists r u', url_loop rest i s old_uf found_at u = (Ok r, u') /\ inside (i + length rest) u'.
Proof.
  revert i s old_uf found_at u. induction rest as [|c rest IH]; intros i s old_uf found_at u Hi.
  { eexists _, _. split; [reflexivity|]. by rewrite Nat.add_0_r. }
  cbn [url_loop length]. rewrite Nat.add_succ_r. set (t := parse_url_char s c).
  assert (Hskip : inside (S i) u) by (destruct Hi as [Hu Hb]; split; [done|]; intros f Hf Hs; eapply bounded_mono; [by apply Hb|lia]).
  destruct (parse_url_char_field s c) as [Ht|[Ht|[uf Ht]]]; fold t in Ht.
  - rewrite Ht. eexists _, _. split; [reflexivity|]. destruct Hi as [Hu Hb]. split; [done|].
    intros f Hf Hs. eapply bounded_mono; [by apply Hb|lia].
  - set (found := found_at || _). clearbody found.
    destruct t; try discriminate; apply (IH (S i)); done.
  - assert (Hnd : is_delimiter t = false) by by destruct t. assert (Hlt := field_of_lt _ _ Ht).
    set (found := found_at || _). clearbody found.
    destruct Hi as [Hu Hb].
    assert (Hgo : exists r u', (if (uf =? old_uf)%nat then modify (incr_len uf) ;; url_loop rest (S i) t old_uf found
      else modify (start_field uf i 1) ;; url_loop rest (S i) t uf found) u = (Ok r, u') /\ inside (S (i + length rest)) u').
    { destruct (uf =? old_uf)%nat.
      - unfold mbind, M_bind, modify. apply (IH (S i)). split; [by apply shaped_set_len|]. intros f Hf Hs.
        change (is_set f u = true) in Hs. destruct (decide (uf = f)) as [->|Hne].
        + apply (incr_bounded f f i); [done|done|by apply Hb|lia|done].
        + destruct (incr_other uf f u Hu Hlt Hne) as [E1 E2]. unfold bounded. rewrite E1, E2. eapply bounded_mono; [by apply Hb|lia].
      - unfold mbind, M_bind, modify. apply (IH (S i)). split; [by apply shaped_start|]. intros f Hf Hs.
        rewrite is_set_start in Hs by done. apply start_bounded; [done|done|lia|simpl; lia|]. intros Hne.
        rewrite bool_decide_false in Hs by congruence. eapply bounded_mono; [by apply Hb|lia]. }
    destruct t; try discriminate; rewrite Ht; exact Hgo.
Qed.

(** *** Hosts *)

(** Before the host's name, its length is 0; a run that goes on ends where the loop stands. *)
Record host_inv (n i : nat) (s : http_host_state) (u : http_parser_url) : Prop := mkHostInv {
  h_inside : inside n u;
  h_host : bounded i UF_HOST u;
  h_before : match s with
    | s_http_userinfo_start | s_http_userinfo | s_http_host_start | s_http_host_v6_start => len_of UF_HOST u = 0
    | _ => True
    end;
  h_run : match s with
    | s_http_userinfo => bounded i UF_USERINFO u
    | s_http_host_port => bounded i UF_PORT u
    | _ => True
    end
}.

Lemma host_extends n i f u :
  inside n u -> (i < n)%nat -> (f < UF_MAX)%nat -> bounded i f u -> inside n (incr_len f u).
Proof.
  intros [Hu Hb] Hi Hf Hbf. split; [by apply shaped_set_len|]. intros g Hg Hs. change (is_set g u = true) in Hs.
  apply (incr_bounded f g i); [done|done|done|lia|]. intros Hne. by apply Hb.
Qed.

Lemma host_starts n i f u :
  inside n u -> (i < n)%nat -> (f < UF_MAX)%nat -> f <> UF_HOST ->
  inside n (start_field f i 0 u) /\ bounded i f (start_field f i 0 u) /\
  off UF_HOST (start_field f i 0 u) = off UF_HOST u /\ len_of UF_HOST (start_field f i 0 u) = len_of UF_HOST u.
Proof.
  intros [Hu Hb] Hi Hf Hne. split; [split; [by apply shaped_start|]|split; [by apply start_bounded; [..|simpl; lia|]|by apply start_other]].
  intros g Hg Hs. rewrite is_set_start in Hs by done. apply start_bounded; [done|done|lia|simpl; lia|]. intros Hfg.
  rewrite bool_decide_false in Hs by congruence. by apply Hb.
Qed.

(** The host's offset moves to where its name starts. *)
Lemma host_moves n i u :
  inside n u -> (i < n)%nat -> len_of UF_HOST u = 0 ->
  inside n (set_off UF_HOST (Z.of_nat i) u) /\ bounded i UF_HOST (set_off UF_HOST (Z.of_nat i) u).
Proof.
  intros [Hu Hb] Hi Hz. assert (Hh : (UF_HOST < UF_MAX)%nat) by (unfold UF_HOST, UF_MAX; lia).
  pose proof (u16_le (Z.of_nat i) ltac:(lia)).
  assert (Hbd : bounded i UF_HOST (set_off UF_HOST (Z.of_nat i) u)).
  { unfold bounded. rewrite off_set_off, len_set_off by done. rewrite decide_True, Hz by done. lia. }
  split; [split; [by apply shaped_set_off|]|done]. intros g Hg Hs. change (is_set g u = true) in Hs.
  destruct (decide (g = UF_HOST)) as [->|Hne]; [eapply bounded_mono; [done|lia]|].
  unfold bounded. rewrite off_set_off, len_set_off by done. rewrite decide_False by done. by apply Hb.
Qed.

Ltac uf := unfold UF_SCHEMA, UF_HOST, UF_PORT, UF_PATH, UF_QUERY, UF_FRAGMENT, UF_USERINFO, UF_MAX in *; lia.

Lemma incr_runs i f u : shaped u -> (f < UF_MAX)%nat -> bounded i f u -> bounded (S i) f (incr_len f u).
Proof. intros. by apply (incr_bounded f f i); [..|lia|]. Qed.

Lemma incr_keeps i f g u : shaped u -> (f < UF_MAX)%nat -> f <> g -> bounded i g u -> bounded (S i) g (incr_len f u).
Proof.
  intros Hu Hf Hne Hb. destruct (incr_other f g u Hu Hf Hne) as [E1 E2]. unfold bounded. rewrite E1, E2.
  eapply bounded_mono; [done|lia].
Qed.

(** A run of another field that starts, and one that goes on, leave the host alone. *)
Lemma run_starts n i f u :
  inside n u -> bounded i UF_HOST u -> (i < n)%nat -> f <> UF_HOST -> (f < UF_MAX)%nat ->
  inside n (incr_len f (start_field f i 0 u)) /\ bounded (S i) UF_HOST (incr_len f (start_field f i 0 u)) /\
  bounded (S i) f (incr_len f (start_field f i 0 u)) /\ len_of UF_HOST (incr_len f (start_field f i 0 u)) = len_of UF_HOST u.
Proof.
  intros Hin Hh Hi Hne Hf. destruct (host_starts n i f u Hin Hi Hf Hne) as (H1 & H2 & H3 & H4).
  destruct (incr_other f UF_HOST _ (proj1 H1) Hf Hne) as [E1 E2].
  split; [by apply (host_extends n i)|]. split; [|split; [apply incr_runs; [apply H1|done|done]|by rewrite E2, H4]].
  unfold bounded. rewrite E1, E2, H3, H4. eapply bounded_mono; [exact Hh|lia].
Qed.
Lemma run_goes_on n i f u :
  inside n u -> bounded i UF_HOST u -> (i < n)%nat -> f <> UF_HOST -> (f < UF_MAX)%nat -> bounded i f u ->
  inside n (incr_len f u) /\ bounded (S i) UF_HOST (incr_len f u) /\ bounded (S i) f (incr_len f u) /\
  len_of UF_HOST (incr_len f u) = len_of UF_HOST u.
Proof.
  intros Hin Hh Hi Hne Hf Hbf. split; [by apply (host_extends n i)|].
  split; [apply incr_keeps; [apply Hin|done|done|done]|].
  split; [apply incr_runs; [apply Hin|done|done]|]. by apply incr_other; [apply Hin|..].
Qed.

Lemma host_char_ok n i s c u :
  host_inv n i s u -> (i < n)%nat -> http_parse_host_char s c <> s_http_host_dead ->
  host_inv n (S i) (http_parse_host_char s c) (host_char i s (http_parse_host_char s c) u).
Proof.
  intros [Hin Hh Hb Hr] Hi Hd.
  assert (Hstay : bounded (S i) UF_HOST u) by (eapply bounded_mono; [done|lia]).
  assert (Hext : bounded (S i) UF_HOST (incr_len UF_HOST u)) by (apply incr_runs; [apply Hin|uf|done]).
  assert (Hein : inside n (incr_len UF_HOST u)) by (apply (host_extends n i); [done|done|uf|done]).
  assert (Hmove : len_of UF_HOST u = 0 ->
    inside n (incr_len UF_HOST (set_off UF_HOST (Z.of_nat i) u)) /\
    bounded (S i) UF_HOST (incr_len UF_HOST (set_off UF_HOST (Z.of_nat i) u))).
  { intros Hz. destruct (host_moves n i u Hin Hi Hz) as [H1 H2].
    split; [apply (host_extends n i); [done|done|uf|done]|apply incr_runs; [apply H1|uf|done]]. }
  unfold http_parse_host_char in *. destruct s; try done; repeat case_match; try done; cbn [host_char host_eqb negb].
  - destruct (run_starts n i UF_USERINFO u Hin Hh Hi) as (? & ? & ? & E); [done|uf|]. split; [done|done|congruence|done].
  - destruct (run_goes_on n i UF_USERINFO u Hin Hh Hi) as (? & ? & ? & E); [done|uf|done|]. split; [done|done|congruence|done].
  - destruct (Hmove Hb). by split.
  - destruct (Hmove Hb). by split.
  - destruct (run_starts n i UF_PORT u Hin Hh Hi) as (? & ? & ? & E); [done|uf|]. by split.
  - destruct (run_goes_on n i UF_PORT u Hin Hh Hi) as (? & ? & ? & E); [done|uf|done|]. by split.
Qed.

Lemma host_loop_ok buf n i s u :
  host_inv (length buf) i s u -> (i + n <= length buf)%nat ->
  exists r u', host_loop buf n i s u = (Ok r, u') /\ (r = 0 \/ r = 1) /\ inside (length buf) u'.
Proof.
  revert i s u. induction n as [|n IH]; intros i s u Hi Hn.
  { eexists _, u. split; [reflexivity|]. split; [destruct (host_unfinished s); auto|apply Hi]. }
  cbn [host_loop]. destruct (buf !! i) as [c|] eqn:Ec; [|apply lookup_ge_None in Ec; lia].
  pose proof (host_char_ok (length buf) i s c u Hi ltac:(lia)) as Hnext.
  destruct (http_parse_host_char s c) eqn:Es; try (eexists _, u; split; [reflexivity|split; [auto|apply Hi]]).
  all: unfold mbind, M_bind, modify; apply IH; [by apply Hnext|lia].
Qed.

Lemma parse_host_ok buf found_at u :
  inside (length buf) u -> is_set UF_HOST u = true ->
  exists r u', http_parse_host buf found_at u = (Ok r, u') /\ (r = 0 \/ r = 1) /\ inside (length buf) u'.
Proof.
  intros Hin Hs. unfold http_parse_host. rewrite (bind_ok get _ u u u) by done.
  rewrite (bind_ok (assert _) _ u tt u) by (unfold assert; by rewrite Hs).
  rewrite (bind_ok (modify _) _ u tt (set_len UF_HOST 0 u)) by done.
  destruct Hin as [Hu Hb]. destruct (Hb UF_HOST ltac:(uf) Hs) as (H1 & H2 & H3).
  assert (Hh : (UF_HOST < UF_MAX)%nat) by uf.
  apply host_loop_ok; [|lia].
  assert (Hz : len_of UF_HOST (set_len UF_HOST 0 u) = 0) by (rewrite len_set_len by done; by rewrite decide_True).
  assert (Hbound : forall m, (Z.to_nat (off UF_HOST u) <= m)%nat -> bounded m UF_HOST (set_len UF_HOST 0 u)).
  { intros m Hm. unfold bounded. rewrite Hz, off_set_len by done. lia. }
  split; [split; [by apply shaped_set_len|]|by apply Hbound|by destruct found_at|by destruct found_at].
  intros f Hf Hset. change (is_set f u = true) in Hset. destruct (decide (f = UF_HOST)) as [->|Hne].
  - apply Hbound. lia.
  - unfold bounded. rewrite len_set_len, off_set_len by done. rewrite decide_False by done. by apply Hb.
Qed.

Lemma parse_port_ok buf u :
  inside (length buf) u ->
  exists r u', parse_port buf u = (Ok r, u') /\ (r = 0 \/ r = 1) /\ inside (length buf) u'.
Proof.
  intros [Hu Hb]. unfold parse_port. rewrite (bind_ok get _ u u u) by done.
  destruct (is_set UF_PORT u) eqn:Hs; [|exists 0, u; split; [done|split; [auto|done]]].
  destruct (Hb UF_PORT ltac:(uf) Hs) as (H1 & H2 & H3).
  rewrite (bind_ok (assert _) _ u tt u) by (unfold assert; by rewrite (proj2 (Z.leb_le _ _) H3)).
  destruct (port_loop _ 0) as [v|]; [|exists 1, u; split; [done|split; [auto|done]]].
  exists 0, (set_port v u). split; [done|]. split; [auto|]. split; [exact Hu|]. intros f Hf Hset. by apply Hb.
Qed.

(** C24: Parsing a URL never fails an assertion and never reads outside it, whatever the text and its length,
    although offsets and lengths are kept in 16 bits: it returns 0 or 1, and every field it has set lies
    in the text. *)
Theorem url_fields_inside buf is_connect u :
  shaped u ->
  exists r u', http_parser_parse_url buf is_connect u = (Ok r, u') /\ (r = 0 \/ r = 1) /\
    (r = 0 -> forall f, (f < UF_MAX)%nat -> is_set f u' = true ->
       0 <= off f u' /\ 0 <= len_of f u' /\ off f u' + len_of f u' <= Z.of_nat (length buf)).
Proof.
  intros Hu. unfold http_parser_parse_url.
  destruct (length buf =? 0)%nat; [exists 1, u; by split_and!; [|right|]|].
  rewrite (bind_ok (modify _) _ u tt (mkHPUrl 0 0 (field_data u))) by done.
  destruct (url_loop_ok buf 0 (if is_connect then s_req_server_start else s_req_spaces_before_url) UF_MAX false
    (mkHPUrl 0 0 (field_data u))) as (r & u1 & Hrun & Hin).
  { split; [done|]. intros f Hf Hs. unfold is_set in Hs. cbn [field_set] in Hs. by rewrite Z.land_0_l in Hs. }
  rewrite (bind_ok _ _ _ _ _ Hrun). destruct r as [found_at|]; [|exists 1, u1; by split_and!; [|right|]].
  rewrite (bind_ok get _ u1 u1 u1) by done.
  destruct (is_set UF_SCHEMA u1 && negb (is_set UF_HOST u1)); [exists 1, u1; by split_and!; [|right|]|].
  assert (exists e u2, (if is_set UF_HOST u1 then http_parse_host buf found_at else mret 0) u1 = (Ok e, u2) /\
    (e = 0 \/ e = 1) /\ inside (length buf) u2) as (e & u2 & He & _ & Hin2).
  { destruct (is_set UF_HOST u1) eqn:Hs; [by apply parse_host_ok|exists 0, u1; by split_and!; [|left|]]. }
  rewrite (bind_ok _ _ _ _ _ He). destruct (negb (e =? 0)); [exists 1, u2; by split_and!; [|right|]|].
  rewrite (bind_ok get _ u2 u2 u2) by done. destruct (_ && _); [exists 1, u2; by split_and!; [|right|]|].
  destruct (parse_port_ok buf u2 Hin2) as (e' & u3 & Hp & He' & [_ Hb]). exists e', u3. by split_and!; [| |intros _].
Qed.

(** ** A path, a query and a fragment *)

Definition tail_char (c : byte) : bool := IS_URL_CHAR c || eqc c "?".
Definition is_path (s : str) : Prop :=
  exists c cs, s = c :: cs /\ eqc c "/" || eqc c "*" = true /\ Forall (fun c => IS_URL_CHAR c = true) cs.
Definition is_tail (s : str) : Prop := Forall (fun c => tail_char c = true) s.
Definition part (mark : byte) (s : str) : str := if bool_decide (s = []) then [] else mark :: s.
Definition url_text (path query fragment : str) : str := path ++ part "?" query ++ part "#" fragment.

Lemma incr_start f i n u :
  shaped u -> (f < UF_MAX)%nat -> incr_len f (start_field f i n u) = start_field f i (n + 1) u.
Proof.
  intros Hu Hf. unfold incr_len at 1. destruct (start_same f i n u Hu Hf) as [E1 E2]. rewrite E2.
  unfold set_len at 1. rewrite E1. unfold start_field, add_field. cbn -[wrap Z.add]. f_equal.
  unfold set_len. cbn -[wrap Z.add]. rewrite off_set_off by done. rewrite decide_True by done.
  rewrite list_insert_insert_eq, list_insert_insert_eq, list_insert_insert_eq.
  do 2 f_equal. unfold wrap. by rewrite Zplus_mod_idemp_l.
Qed.

(** The loop over characters that keep the state and its field. *)
Lemma url_run s f cs rest i k j found u :
  field_of s = Some f -> is_delimiter s = false -> Forall (fun c => parse_url_char s c = s) cs ->
  match s with s_req_server_with_at => False | _ => True end -> shaped u ->
  url_loop (cs ++ rest) i s f found (start_field f j k u) =
  url_loop rest (i + length cs) s f found (start_field f j (k + Z.of_nat (length cs)) u).
Proof.
  intros Hs Hd Hcs Hat Hu. revert i k. induction Hcs as [|c cs Hc _ IH]; intros i k.
  { cbn [length app]. by rewrite Nat.add_0_r, Z.add_0_r. }
  cbn [app url_loop length]. rewrite Hc, Hs, Hd, Nat.eqb_refl.
  assert (Hlt := field_of_lt _ _ Hs).
  replace (found || _) with found by (destruct s; try done; by rewrite orb_false_r).
  replace (i + S (length cs))%nat with (S i + length cs)%nat by lia.
  replace (k + Z.of_nat (S (length cs))) with (k + 1 + Z.of_nat (length cs)) by lia.
  rewrite <- IH, <- incr_start by done.
  destruct s; try done; by unfold mbind, M_bind, modify.
Qed.

(** A new field of a run of characters: the first one changes the field. *)
Lemma url_new s s' f g c cs rest i found u :
  parse_url_char s c = s' -> field_of s' = Some f -> is_delimiter s' = false -> f <> g ->
  Forall (fun c => parse_url_char s' c = s') cs ->
  match s' with s_req_server_with_at => False | _ => True end -> shaped u ->
  url_loop ((c :: cs) ++ rest) i s g found u =
  url_loop rest (i + length (c :: cs)) s' f found (start_field f i (Z.of_nat (length (c :: cs))) u).
Proof.
  intros Hc Hs Hd Hne Hcs Hat Hu. cbn [app url_loop length]. rewrite Hc, Hs, Hd.
  rewrite (proj2 (Nat.eqb_neq f g)) by done.
  replace (found || _) with found by (destruct s'; try done; by rewrite orb_false_r).
  replace (i + S (length cs))%nat with (S i + length cs)%nat by lia.
  replace (Z.of_nat (S (length cs))) with (1 + Z.of_nat (length cs)) by lia.
  rewrite <- url_run by done.
  destruct s'; try done; by unfold mbind, M_bind, modify.
Qed.

(** A delimiter is skipped. *)
Lemma url_delimiter s s' g c rest i found u :
  parse_url_char s c = s' -> is_delimiter s' = true ->
  url_loop (c :: rest) i s g found u = url_loop rest (S i) s' g found u.
Proof.
  intros Hc Hd. cbn [url_loop]. rewrite Hc.
  replace (found || _) with found by (destruct s'; try done; by rewrite orb_false_r). rewrite Hd. by destruct s'.
Qed.

Lemma url_char_path c : IS_URL_CHAR c = true -> parse_url_char s_req_path c = s_req_path.
Proof. destruct c; vm_compute; congruence. Qed.
Lemma tail_char_query c :
  tail_char c = true ->
  parse_url_char s_req_query_string_start c = s_req_query_string /\ parse_url_char s_req_query_string c = s_req_query_string.
Proof. destruct c; vm_compute; intuition congruence. Qed.
Lemma tail_char_fragment c :
  tail_char c = true ->
  parse_url_char s_req_fragment_start c = s_req_fragment /\ parse_url_char s_req_fragment c = s_req_fragment.
Proof. destruct c; vm_compute; intuition congruence. Qed.
Lemma path_first c :
  eqc c "/" || eqc c "*" = true -> parse_url_char s_req_spaces_before_url c = s_req_path.
Proof. destruct c; vm_compute; congruence. Qed.

(** What the loop makes of a part: nothing, or its field. *)
Definition part_field (f i : nat) (s : str) (u : http_parser_url) : http_parser_url :=
  if bool_decide (s = []) then u else start_field f i (Z.of_nat (length s)) u.

Lemma fragment_part s g fragment i found u :
  is_tail fragment -> parse_url_char s "#" = s_req_fragment_start -> g <> UF_FRAGMENT -> shaped u ->
  url_loop (part "#" fragment) i s g found u = (Ok (Some found), part_field UF_FRAGMENT (S i) fragment u).
Proof.
  intros Hf Hs Hg Hu. unfold part, part_field. destruct fragment as [|c cs]; [done|]. cbn [bool_decide decide].
  rewrite bool_decide_false by done. rewrite (url_delimiter _ s_req_fragment_start) by done.
  apply Forall_cons in Hf as [Hc Hcs]. rewrite <- (app_nil_r (c :: cs)) at 1.
  rewrite (url_new _ s_req_fragment UF_FRAGMENT); try done.
  - by apply tail_char_fragment.
  - eapply Forall_impl; [exact Hcs|]. intros d Hd. by apply tail_char_fragment.
Qed.

Lemma shaped_part f i s u : shaped u -> shaped (part_field f i s u).
Proof. intros Hu. unfold part_field. case_bool_decide; [done|by apply shaped_start]. Qed.

Lemma url_loop_parts path query fragment found u :
  is_path path -> is_tail query -> is_tail fragment -> shaped u ->
  url_loop (url_text path query fragment) 0 s_req_spaces_before_url UF_MAX found u =
  (Ok (Some found),
   part_field UF_FRAGMENT (S (length path + length (part "?" query))) fragment
     (part_field UF_QUERY (S (length path)) query (start_field UF_PATH 0 (Z.of_nat (length path)) u))).
Proof.
  intros (c & cs & -> & Hc & Hcs) Hq Hf Hu. unfold url_text.
  rewrite (url_new _ s_req_path UF_PATH); [|by apply path_first|done|done|uf| |done|done].
  2:{ eapply Forall_impl; [exact Hcs|]. apply url_char_path. }
  rewrite Nat.add_0_l. set (u1 := start_field UF_PATH _ _ u). assert (Hu1 : shaped u1) by by apply shaped_start.
  unfold part at 1 3, part_field at 2. destruct query as [|d ds].
  { rewrite bool_decide_true, app_nil_l, Nat.add_0_r by done. by apply fragment_part. }
  rewrite !bool_decide_false by done. rewrite <- app_comm_cons, (url_delimiter _ s_req_query_string_start) by done.
  apply Forall_cons in Hq as [Hd Hds].
  rewrite (url_new _ s_req_query_string UF_QUERY); [|by apply tail_char_query|done|done|uf| |done|done].
  2:{ eapply Forall_impl; [exact Hds|]. intros e He. by apply tail_char_query. }
  rewrite fragment_part; [|done|done|uf|by apply shaped_start]. do 3 f_equal. simpl. lia.
Qed.

Lemma is_set_part f g i s u :
  (f < UF_MAX)%nat -> (g < UF_MAX)%nat ->
  is_set f (part_field g i s u) = (bool_decide (f = g) && negb (bool_decide (s = []))) || is_set f u.
Proof.
  intros Hf Hg. unfold part_field. case_bool_decide; [by rewrite andb_false_r|]. rewrite andb_true_r. by apply is_set_start.
Qed.

Lemma part_other f g i s u :
  shaped u -> (f < UF_MAX)%nat -> f <> g -> off g (part_field f i s u) = off g u /\ len_of g (part_field f i s u) = len_of g u.
Proof. intros Hu Hf Hfg. unfold part_field. destruct (bool_decide (s = [])); [done|by apply start_other]. Qed.

Lemma part_same f i s u :
  shaped u -> (f < UF_MAX)%nat -> s <> [] ->
  off f (part_field f i s u) = u16 (Z.of_nat i) /\ len_of f (part_field f i s u) = u16 (Z.of_nat (length s)).
Proof. intros Hu Hf Hs. unfold part_field. rewrite bool_decide_false by done. by apply start_same. Qed.

(** Parsing the text, and the fields it sets. *)
Lemma url_fields path query fragment :
  is_path path -> is_tail query -> is_tail fragment ->
  exists u, http_parser_parse_url (url_text path query fragment) false http_parser_url_init = (Ok 0, u) /\
    (forall f, (f < UF_MAX)%nat -> is_set f u =
       bool_decide (f = UF_PATH) || (bool_decide (f = UF_QUERY) && negb (bool_decide (query = []))) ||
       (bool_decide (f = UF_FRAGMENT) && negb (bool_decide (fragment = [])))) /\
    (off UF_PATH u = 0 /\ len_of UF_PATH u = u16 (Z.of_nat (length path))) /\
    (query <> [] -> off UF_QUERY u = u16 (Z.of_nat (S (length path))) /\ len_of UF_QUERY u = u16 (Z.of_nat (length query))) /\
    (fragment <> [] -> off UF_FRAGMENT u = u16 (Z.of_nat (S (length path + length (part "?" query)))) /\
       len_of UF_FRAGMENT u = u16 (Z.of_nat (length fragment))).
Proof.
  intros Hp Hq Hf. unfold http_parser_parse_url.
  assert (Hne : (length (url_text path query fragment) =? 0)%nat = false).
  { destruct Hp as (c & cs & -> & _). done. }
  rewrite Hne. rewrite (bind_ok (modify _) _ _ tt http_parser_url_init) by done.
  rewrite (bind_ok _ _ _ _ _ (url_loop_parts path query fragment false http_parser_url_init Hp Hq Hf eq_refl)).
  set (u1 := start_field UF_PATH 0 _ http_parser_url_init). set (u2 := part_field UF_QUERY _ query u1).
  set (u3 := part_field UF_FRAGMENT _ fragment u2).
  assert (H1 : shaped u1) by by apply shaped_start. assert (H2 : shaped u2) by by apply shaped_part.
  assert (Hset : forall f, (f < UF_MAX)%nat -> is_set f u3 =
       bool_decide (f = UF_PATH) || (bool_decide (f = UF_QUERY) && negb (bool_decide (query = []))) ||
       (bool_decide (f = UF_FRAGMENT) && negb (bool_decide (fragment = [])))).
  { intros f Hlt. unfold u3, u2, u1. rewrite !is_set_part by (done || uf). rewrite is_set_start by (done || uf).
    assert (is_set f http_parser_url_init = false) as -> by (unfold is_set; by rewrite Z.land_0_l).
    rewrite orb_false_r, orb_comm. f_equal. apply orb_comm. }
  exists u3. split; [|split; [exact Hset|]].
  - assert (is_set UF_SCHEMA u3 = false /\ is_set UF_HOST u3 = false /\ is_set UF_PORT u3 = false) as (E1 & E2 & E3)
      by (rewrite !Hset by uf; done).
    rewrite (bind_ok get _ u3 u3 u3) by done. rewrite E1, E2. cbn [andb].
    rewrite (bind_ok (mret 0) _ u3 0 u3) by done. change (negb (0 =? 0)) with false. cbv iota.
    rewrite (bind_ok get _ u3 u3 u3) by done. cbn [andb].
    unfold parse_port. rewrite (bind_ok get _ u3 u3 u3) by done. by rewrite E3.
  - unfold u3. split; [|split; [intros Hn|intros Hn; apply part_same; [done|uf|done]]].
    + destruct (part_other UF_FRAGMENT UF_PATH (S (length path + length (part "?" query))) fragment u2 H2 ltac:(uf) ltac:(done)) as [-> ->].
      unfold u2. destruct (part_other UF_QUERY UF_PATH (S (length path)) query u1 H1 ltac:(uf) ltac:(done)) as [-> ->].
      apply start_same; [done|uf].
    + destruct (part_other UF_FRAGMENT UF_QUERY (S (length path + length (part "?" query))) fragment u2 H2 ltac:(uf) ltac:(done)) as [-> ->].
      apply part_same; [done|uf|done].
Qed.

(** Of a path with a query and a fragment, when they are not empty, the fields set are those three and no
    other, at the parts, with offsets and lengths modulo 65536: exact in a text shorter than that. *)
Theorem url_parts path query fragment :
  is_path path -> is_tail query -> is_tail fragment ->
  exists u, http_parser_parse_url (url_text path query fragment) false http_parser_url_init = (Ok 0, u) /\
    (forall f, (f < UF_MAX)%nat -> is_set f u =
       bool_decide (f = UF_PATH) || (bool_decide (f = UF_QUERY) && negb (bool_decide (query = []))) ||
       (bool_decide (f = UF_FRAGMENT) && negb (bool_decide (fragment = [])))) /\
    (off UF_PATH u = 0 /\ len_of UF_PATH u = u16 (Z.of_nat (length path))) /\
    (query <> [] -> off UF_QUERY u = u16 (Z.of_nat (S (length path))) /\ len_of UF_QUERY u = u16 (Z.of_nat (length query))) /\
    (fragment <> [] -> off UF_FRAGMENT u = u16 (Z.of_nat (S (length path + length (part "?" query)))) /\
       len_of UF_FRAGMENT u = u16 (Z.of_nat (length fragment))).
Proof. apply url_fields. Qed.

(** ** Witnesses *)

Lemma url_fields_inside_witness :
  exists u', http_parser_parse_url (lit "http://h:80/x?y") false http_parser_url_init = (Ok 0, u') /\
    off UF_HOST u' = 7 /\ len_of UF_HOST u' = 1 /\ port u' = 80 /\ off UF_HOST u' + len_of UF_HOST u' <= 15.
Proof.
  destruct (url_fields_inside (lit "http://h:80/x?y") false http_parser_url_init eq_refl) as (r & u' & Hu & _ & Hin).
  exists u'. revert Hu Hin. vm_compute. intros [= <- <-] Hin. split; [done|]. split; [done|]. split; [done|]. split; [done|].
  by destruct (Hin eq_refl 1%nat ltac:(lia) eq_refl) as (_ & _ & ?).
Defined.

Lemma url_parts_witness :
  exists u, http_parser_parse_url (lit "/a?b=c#d") false http_parser_url_init = (Ok 0, u) /\
    off UF_QUERY u = 3 /\ len_of UF_QUERY u = 3 /\ off UF_FRAGMENT u = 7 /\ len_of UF_FRAGMENT u = 1.
Proof.
  destruct (url_parts (lit "/a") (lit "b=c") (lit "d")) as (u & Hu & _ & _ & Hq & Hf).
  - exists "/"%byte, ["a"%byte]. split; [done|]. split; [done|]. by repeat constructor.
  - unfold is_tail. by repeat constructor.
  - unfold is_tail. by repeat constructor.
  - exists u. split; [exact Hu|]. destruct Hq as [-> ->]; [done|]. destruct Hf as [-> ->]; [done|]. done.
Defined.
