(* ===== verification/HttpParsing.v ===== *)
(** * HTTP parsing: the grammar with the callbacks of src/src/http/HttpParser.cc

    The settings the two parsers of HttpParser.cc give to [http_parser_execute], and with them
    the instance of the class [Grammar] of [HttpSession].  The type of a parser says which
    settings it is executed with. *)

From S2P Require Import Prelude Http HttpGrammar HttpExecute HttpUrl HttpSession.
#[local] Set Default Goal Selector "!".

(** [std::string(buf + field_data[f].off, field_data[f].len)], when the field is there. *)
Definition url_field (buf : str) (f : nat) (u : http_parser_url) : option str :=
  if is_set f u then Some (slice (Z.to_nat (off f u)) (Z.to_nat (len_of f u)) buf) else None.

(** The parts of the URL that [on_request_url_cb] reads; nothing where it returns 1. *)
Definition parse_url (buf : str) : option url_parts :=
  match http_parser_parse_url buf false http_parser_url_init with
  | (Ok 0, u) => Some (mkUrl (url_field buf UF_PATH u) (url_field buf UF_QUERY u) (url_field buf UF_FRAGMENT u))
  | _ => None
  end.

(** What the callbacks return; what they store is in [HttpSession]. *)
Definition on_request_url_cb (buf : str) : Z := match parse_url buf with None => 1 | Some _ => 0 end.

Definition s_request_settings : http_parser_settings :=
  mkSettings (fun _ => Some (fun q => (0, q)))
    (fun f => Some (fun q buf => (match f with cb_url => on_request_url_cb buf | _ => 0 end, q))).
Definition s_response_settings : http_parser_settings :=
  mkSettings (fun _ => Some (fun q => (0, q))) (fun _ => Some (fun q _ => (0, q))).

(** What a callback reads of the parser and its arguments. *)
Definition seen (e : event) : http_callback :=
  match e with
  | Notify cb_message_begin _ => message_begin
  | Notify cb_headers_complete q =>
      on_headers_complete (pr_http_major q) (pr_http_minor q) (if is_request q then pr_method q else pr_status_code q)
  | Notify cb_message_complete _ => on_message_complete
  | Notify cb_chunk_header _ => on_chunk_header
  | Notify cb_chunk_complete _ => on_chunk_complete
  | Data cb_url bytes _ => on_url bytes
  | Data cb_status bytes q => on_status bytes (pr_status_code q)
  | Data cb_header_field bytes _ => on_header_field bytes
  | Data cb_header_value bytes _ => on_header_value bytes
  | Data cb_body bytes _ => on_body bytes
  end.

Definition execute_parser (q : http_parser) (data : str) : list http_callback * nat * http_parser :=
  let '(r, q', tr) :=
    http_parser_execute (if is_request q then s_request_settings else s_response_settings) HTTP_MAX_HEADER_SIZE q data in
  (seen <$> tr, match r with Ok n => n | _ => 0%nat end, q').

#[export] Instance http_grammar : Grammar http_parser := {|
  hp_request := http_parser_init HTTP_REQUEST;
  hp_response := http_parser_init HTTP_RESPONSE;
  hp_execute := execute_parser;
  hp_upgrade := pr_upgrade;
  hp_errno q := errno_num (pr_errno q);
  hp_parse_url := parse_url
|}.
