(* ===== verification/HttpParsingTheorems.v ===== *)
(** * HTTP parsing: the grammar keeps the laws the sessions rely on *)

From S2P Require Import Prelude Http HttpGrammar HttpExecute HttpGrammarTheorems HttpUrl HttpSession HttpSessionTheorems HttpParsing.
#[local] Set Default Goal Selector "!".

Lemma passive_request : passive s_request_settings.
Proof. split; [by intros f cb q [= <-]|by intros f cb q bytes [= <-]]. Qed.
Lemma passive_response : passive s_response_settings.
Proof. split; [by intros f cb q [= <-]|by intros f cb q bytes [= <-]]. Qed.

Lemma execute_parser_ok q data :
  reachable q ->
  exists n q' tr,
    http_parser_execute (if is_request q then s_request_settings else s_response_settings) HTTP_MAX_HEADER_SIZE q data = (Ok n, q', tr) /\
    execute_parser q data = (seen <$> tr, n, q') /\ reachable q' /\ (data <> [] -> n <= length data)%nat.
Proof.
  intros Hr. set (st := if is_request q then s_request_settings else s_response_settings).
  assert (Hp : passive st) by (unfold st; destruct (is_request q); [apply passive_request|apply passive_response]).
  destruct (execute_resting st HTTP_MAX_HEADER_SIZE q data Hp (reachable_resting q Hr)) as (n & q' & tr & He & _ & Hn).
  exists n, q', tr. split; [done|]. unfold execute_parser. fold st. rewrite He. split; [done|].
  split; [by eapply reachable_execute|]. intros Hd. destruct Hn as [?|[? _]]; [lia|done].
Qed.

#[export] Instance http_laws : GrammarLaws http_parser reachable.
Proof.
  split; [apply reachable_init..|]. intros q data Hq Hd.
  destruct (execute_parser_ok q data Hq) as (n & q' & tr & _ & He & Hr & Hn).
  change (hp_execute q data) with (execute_parser q data). rewrite He. split; [by apply Hn|done].
Qed.
