(* ===== verification/HttpRuns.v ===== *)
(** * Runs of the HTTP grammar on the text of a message

    Where the loop of [http_parser_execute] stands in the data, with the callbacks of
    either parser, and how it moves over the parts of a message. *)

From S2P Require Import Prelude Http HttpTheorems HttpGrammar HttpExecute HttpGrammarTheorems HttpWords HttpUrl HttpUrlTheorems HttpSession HttpParsing.
#[local] Set Default Goal Selector "!".

(** The settings of the two parsers. *)
Definition settings_of (rq : bool) : http_parser_settings := if rq then s_request_settings else s_response_settings.

Section runs.
Context (rq : bool) (data : str).
Abbreviation mx := HTTP_MAX_HEADER_SIZE.
Abbreviation loop := (main_loop (settings_of rq) mx data false).
Abbreviation byte_step := (one_byte (settings_of rq) mx data false).
Abbreviation exec := (reexecute (settings_of rq) mx data false).
Implicit Types (x : locals) (q : http_parser).

(** The loop goes from [x] to [x']. *)
Definition runs x x' : Prop :=
  forall fuel, (length data - p x < fuel)%nat ->
    exists fuel', (length data - p x' < fuel')%nat /\ loop fuel x = loop fuel' x'.
Definition leads x (P : locals -> Prop) : Prop := exists x', runs x x' /\ P x'.

Lemma runs_refl x : runs x x.
Proof. intros fuel Hf. by exists fuel. Qed.
Lemma leads_now x (P : locals -> Prop) : P x -> leads x P.
Proof. intros HP. exists x. split; [apply runs_refl|done]. Qed.
Lemma leads_trans x (P Q : locals -> Prop) : leads x P -> (forall x', P x' -> leads x' Q) -> leads x Q.
Proof.
  intros (x1 & Hr1 & HP) HQ. destruct (HQ x1 HP) as (x2 & Hr2 & H2). exists x2. split; [|done].
  intros fuel Hf. destruct (Hr1 fuel Hf) as (f1 & Hf1 & E1). destruct (Hr2 f1 Hf1) as (f2 & Hf2 & E2).
  exists f2. split; [done|congruence].
Qed.

Lemma runs_byte x x' : (p x < length data)%nat -> (p x < p x')%nat -> byte_step x = (inl tt, x') -> runs x x'.
Proof.
  intros Hp Hp' Hb fuel Hf. destruct fuel as [|fuel]; [lia|]. exists fuel. split; [lia|].
  cbn [main_loop]. unfold mbind, X_bind, the. unfold HttpExecute.len. rewrite (proj2 (Nat.eqb_neq (p x) (length data))) by lia.
  by rewrite Hb.
Qed.

(** At most one mark is set. *)
Definition at_mark (f : data_cb) (ms : option (data_cb * nat)) : option nat :=
  match ms with
  | Some (g, m) =>
      match f, g with
      | cb_url, cb_url | cb_status, cb_status | cb_header_field, cb_header_field
      | cb_header_value, cb_header_value | cb_body, cb_body => Some m
      | _, _ => None
      end
  | None => None
  end.

(** The locals with the parser [q], but for the fields that the function saves. *)
Definition loc q (st : state) (nr : Z) (s : state) (n : Z) (k : nat) (c : byte) (ms : option (data_cb * nat)) (t : list event) : locals :=
  mkX (set_nread nr (set_state st q)) s n k c (at_mark cb_header_field ms) (at_mark cb_header_value ms)
    (at_mark cb_url ms) (at_mark cb_body ms) (at_mark cb_status ms) t.

(** The loop is at offset [k], before [rest], in state [s]; [n] header bytes are counted, and
    the callbacks have seen [tr]. *)
Definition conf q (s : state) (n : Z) (k : nat) (rest : str) (ms : option (data_cb * nat)) (tr : list http_callback) x : Prop :=
  drop k data = rest /\ exists st nr c t, x = loc q st nr s n k c ms t /\ seen <$> t = tr.

Lemma rest_lookup k c rest : drop k data = c :: rest -> data !! k = Some c /\ (k < length data)%nat /\ drop (S k) data = rest.
Proof.
  intros E. assert (data !! k = Some c) as Hk by (by rewrite <- (Nat.add_0_r k), <- lookup_drop, E).
  split; [done|]. split; [by eapply lookup_lt_Some|]. rewrite <- Nat.add_1_r, <- drop_drop, E. done.
Qed.

Lemma rest_app k a b : drop k data = a ++ b -> drop (k + length a) data = b /\ slice k (length a) data = a.
Proof.
  intros E. split; [by rewrite <- drop_drop, E, drop_app_length|]. unfold slice. by rewrite E, take_app_length.
Qed.

(** A byte of the header. *)
Lemma byte_in_header q s n k c rest ms tr x (P : locals -> Prop) :
  conf q s n k (c :: rest) ms tr x -> PARSING_HEADER s = true -> 0 <= n -> n + 1 <= mx ->
  (forall st nr t, seen <$> t = tr ->
     exists x', exec 5 (loc q st nr s (n + 1) k c ms t) = (inl tt, x') /\ (k <= p x')%nat /\ P (x_p S x')) ->
  leads x P.
Proof.
  intros [Hd (st & nr & c' & t & -> & Ht)] Hs Hn Hmx Hex. destruct (rest_lookup _ _ _ Hd) as (Hc & Hlt & _).
  destruct (Hex st nr t Ht) as (x' & Hx & Hp & HP). exists (x_p S x'). split; [|done].
  apply runs_byte; [done|cbn; lia|]. unfold one_byte, mbind, X_bind, read_ch. cbn [p loc]. rewrite Hc.
  unfold the. cbn [p_state x_ch loc]. rewrite Hs. cbn [only_if]. unfold COUNT_HEADER_SIZE, mbind, X_bind, upd, the.
  cbn [nread x_nread x_ch loc]. assert (u32 (n + u32 (Z.of_nat 1)) = n + 1) as ->.
  { change (u32 (Z.of_nat 1)) with 1. apply wrap_small. unfold unsigned_range, HTTP_MAX_HEADER_SIZE in *. lia. }
  assert ((mx <? n + 1) = false) as -> by lia. cbn [only_if].
  change (match exec 5 (loc q st nr s (n + 1) k c ms t) with
          | (inl _, x0) => (inl (), x_p S x0) | (inr e, x0) => (inr e, x0) end = (inl tt : () + stop, x_p S x')).
  by rewrite Hx.
Qed.

(** A byte after the header, which is not counted. *)
Lemma byte_in_body q s n k c rest ms tr x (P : locals -> Prop) :
  conf q s n k (c :: rest) ms tr x -> PARSING_HEADER s = false ->
  (forall st nr t, seen <$> t = tr ->
     exists x', exec 5 (loc q st nr s n k c ms t) = (inl tt, x') /\ (k <= p x')%nat /\ P (x_p S x')) ->
  leads x P.
Proof.
  intros [Hd (st & nr & c' & t & -> & Ht)] Hs Hex. destruct (rest_lookup _ _ _ Hd) as (Hc & Hlt & _).
  destruct (Hex st nr t Ht) as (x' & Hx & Hp & HP). exists (x_p S x'). split; [|done].
  apply runs_byte; [done|cbn; lia|]. unfold one_byte, mbind, X_bind, read_ch. cbn [p loc]. rewrite Hc.
  unfold the. cbn [p_state x_ch loc]. rewrite Hs. cbn [only_if].
  change (match exec 5 (loc q st nr s n k c ms t) with
          | (inl _, x0) => (inl (), x_p S x0) | (inr e, x0) => (inr e, x0) end = (inl tt : () + stop, x_p S x')).
  by rewrite Hx.
Qed.

(** A byte that only changes the parser and the state. *)
Lemma byte_step_plain q s n k c rest ms tr x q' s' :
  conf q s n k (c :: rest) ms tr x -> PARSING_HEADER s = true -> 0 <= n -> n + 1 <= mx ->
  (forall st nr t, exec 5 (loc q st nr s (n + 1) k c ms t) = (inl tt, loc q' st nr s' (n + 1) k c ms t)) ->
  leads x (conf q' s' (n + 1) (S k) rest ms tr).
Proof.
  intros Hc Hs Hn Hmx Hex. eapply byte_in_header; [done..|]. intros st nr t Ht. eexists. split; [apply Hex|].
  split; [done|]. destruct Hc as [Hd _]. split; [by apply rest_lookup in Hd as (_ & _ & ?)|]. by exists st, nr, c, t.
Qed.

Lemma exec_break fuel x x' : switch (settings_of rq) mx data false x = (inl Break, x') -> exec (S fuel) x = (inl tt, x').
Proof. intros H. cbn [reexecute]. unfold mbind, X_bind. by rewrite H. Qed.
Lemma exec_again fuel x x' : switch (settings_of rq) mx data false x = (inl Reexecute, x') -> exec (S fuel) x = exec fuel x'.
Proof. intros H. cbn [reexecute]. unfold mbind, X_bind. by rewrite H. Qed.

(** ** The request line *)

(** The parser in the middle of a method. *)
Definition at_method q (m i : Z) : http_parser := set_index i (set_method m q).

Lemma req_method_next q m i c st nr n k ms t m' :
  0 <= m < 34 -> 0 <= i < 100 -> c <> x00 -> c <> " "%byte -> method_next m i c = Some m' ->
  exec 5 (loc (at_method q m i) st nr s_req_method n k c ms t) =
  (inl tt, loc (at_method q m' (i + 1)) st nr s_req_method n k c ms t).
Proof.
  intros Hm Hi H0 Hsp Hn. unfold method_next in Hn.
  cbn [reexecute]. unfold switch, mbind, X_bind, the. cbn [p_state ch loc]. unfold req_method, mbind, X_bind, the.
  unfold eqc at 1. rewrite bool_decide_false by done. cbn [only_if]. unfold mret, X_ret. cbn [parser loc].
  cbn [pr_method pr_index set_index set_method set_nread set_state at_method].
  rewrite (wrap_small 8 m), (wrap_small 7 i) by (unfold unsigned_range; lia).
  destruct (matcher_at m i) as [d|]; [|done]. unfold eqc at 1. rewrite bool_decide_false by done. cbn [andb].
  destruct (eqc c d) eqn:Ec; [injection Hn as <-|destruct (_ || _); [rewrite Hn|done]].
  all: unfold with_parser, upd, loc, x_parser, at_method; cbn; rewrite (wrap_small 7 i) by (unfold unsigned_range; lia); done.
Qed.

Lemma start_req_first q c m0 st nr n k t :
  pr_errno q = HPE_OK -> first_method c = Some m0 ->
  exists st' e, exec 5 (loc q st nr s_start_req n k c None t) =
    (inl tt, loc (at_method (new_message q) m0 1) st' nr s_req_method n k c None (t ++ [e])) /\ seen e = message_begin.
Proof.
  intros Hok Hf. destruct q. cbn in Hok. subst pr_errno.
  exists s_req_method, (Notify cb_message_begin (set_nread nr (set_state s_req_method (at_method (new_message (mkHP pr_type pr_flags pr_state
    pr_header_state pr_index pr_lenient pr_nread pr_content_length pr_http_major pr_http_minor pr_status_code pr_method HPE_OK pr_upgrade)) m0 1)))).
  destruct rq; destruct c; try discriminate; injection Hf as <-; (split; [vm_compute; reflexivity|done]).
Qed.

Lemma method_end q m i st nr n k ms t :
  0 <= m < 34 -> 0 <= i < 100 -> matcher_at m i = Some x00 ->
  exec 5 (loc (at_method q m i) st nr s_req_method n k " " ms t) =
  (inl tt, loc (at_method q m (i + 1)) st nr s_req_spaces_before_url n k " " ms t).
Proof.
  intros Hm Hi Hd. apply exec_break. unfold switch, mbind, X_bind, the. cbn [p_state ch loc].
  unfold req_method, mbind, X_bind, the. change (eqc " " x00) with false. cbn [only_if].
  unfold mret, X_ret. cbn [parser loc].
  cbn [pr_method pr_index set_index set_method set_nread set_state at_method].
  rewrite (wrap_small 8 m), (wrap_small 7 i) by (unfold unsigned_range; lia). rewrite Hd.
  change (eqc " " " " && eqc x00 x00) with true. cbv iota.
  unfold with_parser, UPDATE_STATE, upd, loc, x_parser, x_state, at_method. cbn. rewrite (wrap_small 7 i) by (unfold unsigned_range; lia). done.
Qed.

Lemma method_next_valid m i c m' : 0 <= m < 34 -> method_next m i c = Some m' -> 0 <= m' < 34.
Proof.
  intros Hm. unfold method_next. destruct (matcher_at m i) as [d|]; [|done].
  destruct (eqc c d); [by intros [= <-]|]. destruct (_ || _); [|done]. unfold method_switch. cbn [switched].
  repeat (destruct (_ && eqc _ c); [intros [= <-]; unfold HTTP_PUT, HTTP_PATCH, HTTP_PROPFIND, HTTP_PURGE, HTTP_CHECKOUT, HTTP_COPY, HTTP_MOVE,
    HTTP_MERGE, HTTP_MSEARCH, HTTP_MKACTIVITY, HTTP_MKCALENDAR, HTTP_SEARCH, HTTP_SOURCE, HTTP_REBIND, HTTP_PROPPATCH, HTTP_LINK,
    HTTP_UNSUBSCRIBE, HTTP_UNBIND, HTTP_UNLINK; lia|]). done.
Qed.

Lemma run_method_rest q m i cs n k rest ms tr x m' :
  Forall (fun c => c <> x00 /\ c <> " "%byte) cs -> 0 <= m < 34 -> 0 <= i -> i + Z.of_nat (length cs) < 100 ->
  0 <= n -> n + Z.of_nat (length cs) + 1 <= mx ->
  method_run m i cs = Some m' -> matcher_at m' (i + Z.of_nat (length cs)) = Some x00 ->
  conf (at_method q m i) s_req_method n k (cs ++ (" "%byte :: rest)) ms tr x ->
  leads x (conf (at_method q m' (i + Z.of_nat (length cs) + 1)) s_req_spaces_before_url (n + Z.of_nat (length cs) + 1)
    (k + length cs + 1) rest ms tr).
Proof.
  intros Hcs. revert m i n k x. induction Hcs as [|c cs [H0 Hsp] _ IH]; intros m i n k x Hm Hi Hl Hn Hmx Hr He Hc.
  - injection Hr as <-. cbn [length app] in *. rewrite Z.add_0_r in *. rewrite Nat.add_0_r, Nat.add_1_r.
    replace (n + Z.of_nat 0) with n by lia. eapply byte_step_plain; [done..|lia|]. intros. apply method_end; [done|lia|done].
  - cbn [method_run] in Hr. destruct (method_next m i c) as [m1|] eqn:En; [|done]. cbn [mbind option_bind] in Hr.
    cbn [length app] in *. eapply leads_trans.
    { eapply byte_step_plain; [exact Hc|done|done|lia|]. intros. apply req_method_next; [done|lia|done|done|exact En]. }
    intros x1 Hc1. cbv beta in Hc1.
    replace (i + Z.of_nat (S (length cs))) with (i + 1 + Z.of_nat (length cs)) in He |- * by lia.
    replace (n + Z.of_nat (S (length cs))) with (n + 1 + Z.of_nat (length cs)) by lia.
    replace (k + S (length cs) + 1)%nat with (S k + length cs + 1)%nat by lia.
    apply (IH m1 (i + 1)); try done; try lia. by eapply method_next_valid.
Qed.

Definition wordy (w : str) : Prop := Forall (fun c => c <> x00 /\ c <> " "%byte) w.

Lemma method_wordy : Forall wordy method_strings.
Proof. unfold wordy. by repeat (apply Forall_cons; split; [repeat (apply Forall_cons; split; [done|]); apply Forall_nil|]). Qed.
Lemma method_short : Forall (fun w => length w < 50)%nat method_strings.
Proof. repeat (apply Forall_cons; split; [vm_compute; lia|]). apply Forall_nil. done. Qed.

(** The first letter. *)
Lemma run_first q c m0 n k rest tr x :
  pr_errno q = HPE_OK -> first_method c = Some m0 -> 0 <= n -> n + 1 <= mx ->
  conf q s_start_req n k (c :: rest) None tr x ->
  leads x (conf (at_method (new_message q) m0 1) s_req_method (n + 1) (S k) rest None (tr ++ [message_begin])).
Proof.
  intros Hok Ef Hn Hmx Hc. eapply byte_in_header; [exact Hc|done|done|lia|].
  intros st nr t Ht. destruct (start_req_first q c m0 st nr (n + 1) k t Hok Ef) as (st' & e & Hex & Hs).
  eexists. split; [exact Hex|]. split; [done|]. split; [by destruct Hc as [Hd _]; apply rest_lookup in Hd as (_ & _ & ?)|].
  exists st', nr, c, (t ++ [e]). split; [done|]. rewrite fmap_app. cbn. by rewrite Ht, Hs.
Qed.

(** From the start of a request over its method and the space. *)
Lemma run_method q w m n k rest tr x :
  pr_errno q = HPE_OK -> wordy w -> method_word w = Some m -> (length w < 50)%nat -> 0 <= n -> n + Z.of_nat (length w) + 1 <= mx ->
  conf q s_start_req n k (w ++ (" "%byte :: rest)) None tr x ->
  leads x (conf (at_method (new_message q) m (Z.of_nat (length w) + 1)) s_req_spaces_before_url
    (n + Z.of_nat (length w) + 1) (k + length w + 1) rest None (tr ++ [message_begin])).
Proof.
  intros Hok Hw Hm Hl Hn Hmx Hc. destruct w as [|c cs]; [done|]. unfold method_word in Hm.
  destruct (first_method c) as [m0|] eqn:Ef; [|done]. cbn [mbind option_bind] in Hm.
  destruct (method_run m0 1 cs) as [m1|] eqn:Er; [|done]. cbn [mbind option_bind] in Hm.
  case_bool_decide as He; [|done]. injection Hm as ->. apply Forall_cons in Hw as [_ Hcs]. cbn [length app] in *.
  eapply leads_trans; [eapply run_first; [exact Hok|exact Ef|done|lia|exact Hc]|].
  intros x1 Hc1. cbv beta in Hc1.
  replace (Z.of_nat (S (length cs)) + 1) with (1 + Z.of_nat (length cs) + 1) by lia.
  replace (n + Z.of_nat (S (length cs)) + 1) with (n + 1 + Z.of_nat (length cs) + 1) by lia.
  replace (k + S (length cs) + 1)%nat with (S k + length cs + 1)%nat by lia.
  apply (run_method_rest _ m0 1); try done; try lia.
  - destruct c; try discriminate; injection Ef as <-; cbv; split; congruence.
  - by replace (1 + Z.of_nat (length cs)) with (Z.of_nat (S (length cs))) by lia.
Qed.

(** *** Callbacks that return 0 *)

Definition accepted (f : data_cb) (bytes : str) : Prop := match f with cb_url => rq = true -> parse_url bytes <> None | _ => True end.

Lemma on_notify_0 f : on_notify (settings_of rq) f = Some (fun q => (0, q)).
Proof. unfold settings_of. by destruct rq. Qed.

Lemma accepted_0 f bytes :
  accepted f bytes -> exists cb, on_data (settings_of rq) f = Some cb /\ forall q, cb q bytes = (0, q).
Proof.
  unfold accepted, settings_of. intros Ha. destruct rq; (eexists; split; [reflexivity|]; intros q); [|done].
  destruct f; try done. unfold on_request_url_cb. specialize (Ha eq_refl). by destruct (parse_url bytes).
Qed.

Definition x_called (e : http_parser -> event) x : locals :=
  x_event (e (set_state (p_state x) (parser x))) (x_parser (set_state (p_state x)) x).

Lemma after_0 e er x : is_ok (parser x) = true -> pr_state (parser x) = p_state x -> after_callback false e er x = (inl tt, x).
Proof.
  intros Hok Hs. destruct x as [q s n k c m1 m2 m3 m4 m5 t]. cbn in Hok, Hs. subst s.
  unfold after_callback, mbind, X_bind, the, UPDATE_STATE, upd, mret, X_ret. cbn. by rewrite Hok.
Qed.

Lemma notify_0 f er x :
  is_ok (parser x) = true -> CALLBACK_NOTIFY_ (settings_of rq) f er x = (inl tt, x_called (Notify f) x).
Proof.
  intros Hok. unfold CALLBACK_NOTIFY_. rewrite (xb _ _ x true x) by (unfold the; by rewrite Hok).
  rewrite (xb _ _ x tt x) by done. rewrite on_notify_0.
  do 4 (xstep). by apply after_0.
Qed.

Lemma data_0 f span er x m bytes :
  is_ok (parser x) = true -> mark f x = Some m -> 0 <= span m -> Z.of_nat m + span m <= Z.of_nat (length data) ->
  slice m (Z.to_nat (span m)) data = bytes -> accepted f bytes ->
  CALLBACK_DATA_ (settings_of rq) data f span er x = (inl tt, x_mark f None (x_called (Data f bytes) x)).
Proof.
  intros Hok Hm H1 H2 Hb Ha. unfold CALLBACK_DATA_. rewrite (xb _ _ x true x) by (unfold the; by rewrite Hok).
  rewrite (xb _ _ x tt x) by done. rewrite (xb _ _ x (Some m) x) by (unfold the; by rewrite Hm). cbv beta iota.
  rewrite (xb _ _ x tt x).
  2:{ unfold HttpExecute.len. rewrite (proj2 (Z.leb_le _ _) H1), (proj2 (Z.leb_le _ _) H2). done. }
  destruct (accepted_0 f bytes Ha) as (cb & -> & Hcb). cbv zeta. rewrite Hb.
  rewrite (xb _ _ x tt (x_called (Data f bytes) x)); [done|].
  do 4 (xstep). rewrite Hcb. by apply after_0.
Qed.

(** *** The URL *)

(** The states in which a URL may end. *)
Definition url_end (s : state) : bool :=
  match s with
  | s_req_server | s_req_server_with_at | s_req_path | s_req_query_string_start | s_req_query_string
  | s_req_fragment_start | s_req_fragment => true
  | _ => false
  end.

Fixpoint url_walk (s : state) (cs : str) : option state :=
  match cs with
  | [] => Some s
  | c :: cs => let s' := parse_url_char s c in if allowed cb_url s' then url_walk s' cs else None
  end.

Lemma parse_url_char_visible s c :
  allowed cb_url (parse_url_char s c) = true -> eqc c " " || eqc c CR || eqc c LF = false.
Proof. unfold parse_url_char. by destruct (eqc c " " || eqc c CR || eqc c LF). Qed.

Lemma url_char_exec q st nr s n k c ms t :
  allowed cb_url (parse_url_char s c) = true ->
  url_char c (loc q st nr s n k c ms t) = (inl Break, loc q st nr (parse_url_char s c) n k c ms t).
Proof.
  intros Ha. unfold url_char, mbind, X_bind, the, UPDATE_STATE, upd. cbn [p_state loc x_state].
  by destruct (parse_url_char s c).
Qed.

Lemma url_exec q st nr s n k c m t :
  allowed cb_url s = true -> allowed cb_url (parse_url_char s c) = true ->
  exec 5 (loc q st nr s n k c (Some (cb_url, m)) t) = (inl tt, loc q st nr (parse_url_char s c) n k c (Some (cb_url, m)) t).
Proof.
  intros Hs Ha. apply exec_break. pose proof (parse_url_char_visible s c Ha) as Hv.
  apply orb_false_iff in Hv as [[Hsp Hcr]%orb_false_iff Hlf].
  unfold switch, mbind, X_bind, the. cbn [p_state ch loc].
  destruct s; try discriminate; unfold request_url; rewrite Hsp, Hcr, Hlf; cbn [orb]; by rewrite url_char_exec.
Qed.

Lemma url_first_exec q st nr n k c t :
  (pr_method q =? HTTP_CONNECT) = false -> eqc c "/" || eqc c "*" = true ->
  exec 5 (loc q st nr s_req_spaces_before_url n k c None t) =
  (inl tt, loc q st nr s_req_path n k c (Some (cb_url, k)) t).
Proof.
  intros Hm Hc. apply exec_break. pose proof (path_first c Hc) as Hp.
  unfold switch, mbind, X_bind, the. cbn [p_state ch loc]. unfold request_url.
  assert (eqc c " " = false) as ->.
  { unfold parse_url_char in Hp. by destruct (eqc c " "). }
  unfold MARK, mbind, X_bind, upd, the. cbn [mark loc url_mark at_mark]. cbn [parser x_mark loc pr_method set_nread set_state].
  rewrite Hm. cbn [only_if]. unfold mret, X_ret.
  change (x_mark cb_url _ _) with (loc q st nr s_req_spaces_before_url n k c (Some (cb_url, k)) t).
  rewrite url_char_exec by by rewrite Hp. by rewrite Hp.
Qed.

(** The callback on the bytes from a mark. *)
Lemma callback_run f q st nr s n k c m bytes t :
  pr_errno q = HPE_OK -> (m <= k <= length data)%nat -> slice m (k - m) data = bytes -> accepted f bytes ->
  CALLBACK_DATA (settings_of rq) data f (loc q st nr s n k c (Some (f, m)) t) =
  (inl tt, loc q s nr s n k c None (t ++ [Data f bytes (set_nread nr (set_state s q))])).
Proof.
  intros Hok Hk Hb Ha. unfold CALLBACK_DATA. xstep. cbn [p loc]. rewrite (data_0 _ _ _ _ m bytes).
  - by destruct f.
  - unfold is_ok. cbn. by rewrite Hok.
  - by destruct f.
  - lia.
  - lia.
  - by replace (Z.to_nat (Z.of_nat k - Z.of_nat m)) with (k - m)%nat by lia.
  - done.
Qed.

Lemma data_run f q st nr s s' n k c m bytes t :
  pr_errno q = HPE_OK -> (m <= k <= length data)%nat -> slice m (k - m) data = bytes -> accepted f bytes ->
  (UPDATE_STATE s' ;; CALLBACK_DATA (settings_of rq) data f) (loc q st nr s n k c (Some (f, m)) t) =
  (inl tt, loc q s' nr s' n k c None (t ++ [Data f bytes (set_nread nr (set_state s' q))])).
Proof. intros. rewrite (xb _ _ _ tt (loc q st nr s' n k c (Some (f, m)) t)) by done. by apply callback_run. Qed.

Lemma count_run v q st nr s n k c ms t :
  0 <= n -> n + Z.of_nat v <= mx ->
  COUNT_HEADER_SIZE mx v (loc q st nr s n k c ms t) = (inl tt, loc q st nr s (n + Z.of_nat v) k c ms t).
Proof.
  intros Hn Hv. assert (E : u32 (n + u32 (Z.of_nat v)) = n + Z.of_nat v).
  { unfold HTTP_MAX_HEADER_SIZE in *. rewrite (wrap_small 32 (Z.of_nat v)) by (unfold unsigned_range; lia).
    apply wrap_small. unfold unsigned_range. lia. }
  unfold COUNT_HEADER_SIZE. rewrite (xb _ _ _ tt (loc q st nr s (n + Z.of_nat v) k c ms t)) by (unfold upd, x_nread, loc; cbn -[u32]; by rewrite E).
  xstep. cbn [nread loc]. by assert ((mx <? n + Z.of_nat v) = false) as -> by lia.
Qed.

Lemma url_last_exec q st nr s n k m url t :
  pr_errno q = HPE_OK -> url_end s = true -> (m <= k <= length data)%nat -> slice m (k - m) data = url -> parse_url url <> None ->
  exec 5 (loc q st nr s n k " " (Some (cb_url, m)) t) =
  (inl tt, loc q s_req_http_start nr s_req_http_start n k " " None
     (t ++ [Data cb_url url (set_nread nr (set_state s_req_http_start q))])).
Proof.
  intros Hok Hs Hk Hu Hp. apply exec_break. unfold switch. do 2 xstep. cbn [p_state ch loc].
  pose proof (data_run cb_url q st nr s s_req_http_start n k " "%byte m url t Hok Hk Hu (fun _ => Hp)) as E.
  destruct s; try discriminate; unfold request_url; change (eqc " " " ") with true; cbv iota; rewrite <- x_assoc; by rewrite (xb _ _ _ _ _ E).
Qed.

Lemma run_url_chars q s s' cs n k m rest tr x :
  allowed cb_url s = true -> url_walk s cs = Some s' -> 0 <= n -> n + Z.of_nat (length cs) <= mx ->
  conf q s n k (cs ++ rest) (Some (cb_url, m)) tr x ->
  leads x (conf q s' (n + Z.of_nat (length cs)) (k + length cs) rest (Some (cb_url, m)) tr).
Proof.
  revert s n k x. induction cs as [|c cs IH]; intros s n k x Hs Hw Hn Hmx Hc.
  { injection Hw as <-. cbn [length]. rewrite Z.add_0_r, Nat.add_0_r. by apply leads_now. }
  cbn [url_walk] in Hw. destruct (allowed cb_url (parse_url_char s c)) eqn:Ha; [|done]. cbn [length app] in *.
  eapply leads_trans.
  { eapply byte_step_plain; [exact Hc|by destruct s|done|lia|]. intros. by apply url_exec. }
  intros x1 Hc1. cbv beta in Hc1.
  replace (n + Z.of_nat (S (length cs))) with (n + 1 + Z.of_nat (length cs)) by lia.
  replace (k + S (length cs))%nat with (S k + length cs)%nat by lia.
  by apply (IH (parse_url_char s c)); [..|lia|lia|].
Qed.

Lemma run_url q url s' n k rest tr x :
  pr_errno q = HPE_OK -> (pr_method q =? HTTP_CONNECT) = false ->
  (exists c cs, url = c :: cs /\ eqc c "/" || eqc c "*" = true /\ url_walk s_req_path cs = Some s') -> url_end s' = true ->
  parse_url url <> None -> 0 <= n -> n + Z.of_nat (length url) + 1 <= mx ->
  conf q s_req_spaces_before_url n k (url ++ (" "%byte :: rest)) None tr x ->
  leads x (conf q s_req_http_start (n + Z.of_nat (length url) + 1) (k + length url + 1) rest None (tr ++ [on_url url])).
Proof.
  intros Hok Hm (c & cs & -> & Hc & Hw) Hs' Hu Hn Hmx Hconf. cbn [length app] in *.
  pose proof (proj1 Hconf) as Hd. eapply leads_trans.
  { eapply (byte_in_header q _ n k c _ None tr x (conf q s_req_path (n + 1) (S k) (cs ++ (" "%byte :: rest)) (Some (cb_url, k)) tr));
      [exact Hconf|done|done|lia|].
    intros st nr t Ht. eexists. split; [by apply url_first_exec|]. split; [done|].
    split; [by apply rest_lookup in Hd as (_ & _ & ?)|]. by exists st, nr, c, t. }
  intros x1 H1. eapply leads_trans; [by eapply run_url_chars; [..|exact H1]; [|exact Hw|lia|lia]|].
  clear H1. intros x2 H2. cbv beta in H2.
  replace (n + Z.of_nat (S (length cs)) + 1) with (n + 1 + Z.of_nat (length cs) + 1) by lia.
  replace (k + S (length cs) + 1)%nat with (S (S k + length cs)) by lia.
  pose proof (rest_lookup _ _ _ (proj1 H2)) as (_ & Hlt & Hr).
  eapply byte_in_header; [exact H2|by destruct s'|lia|lia|]. intros st nr t Ht.
  destruct (rest_app k (c :: cs) (" "%byte :: rest) Hd) as [_ Hslice]. cbn [length] in Hslice.
  eexists. split; [apply (url_last_exec q st nr s' _ _ k (c :: cs)); [done|done|lia| |done]|].
  { by replace (S k + length cs - k)%nat with (S (length cs)) by lia. }
  split; [done|]. split; [done|]. eexists s_req_http_start, nr, " "%byte, (t ++ [_]). split; [reflexivity|]. by rewrite fmap_app, Ht.
Qed.

(** *** The version *)

Lemma run_word w ss q n k rest ms tr x s :
  length ss = length w ->
  (forall i c s0 s1, w !! i = Some c -> (s :: ss) !! i = Some s0 -> ss !! i = Some s1 ->
     PARSING_HEADER s0 = true /\
     forall st nr n k t, exec 5 (loc q st nr s0 n k c ms t) = (inl tt, loc q st nr s1 n k c ms t)) ->
  0 <= n -> n + Z.of_nat (length w) <= mx ->
  conf q s n k (w ++ rest) ms tr x ->
  leads x (conf q (List.last ss s) (n + Z.of_nat (length w)) (k + length w) rest ms tr).
Proof.
  revert w s n k x. induction ss as [|s1 ss IH]; intros [|c w] s n k x Hl Hstep Hn Hmx Hc; try done.
  - cbn [length List.last]. rewrite Z.add_0_r, Nat.add_0_r. by apply leads_now.
  - destruct (Hstep 0%nat c s s1 eq_refl eq_refl eq_refl) as [Hp Hex]. cbn [length] in *. eapply leads_trans.
    { eapply byte_step_plain; [exact Hc|done|done|lia|]. intros. apply Hex. }
    intros x1 H1. cbv beta in H1.
    replace (n + Z.of_nat (S (length w))) with (n + 1 + Z.of_nat (length w)) by lia.
    replace (k + S (length w))%nat with (S k + length w)%nat by lia.
    assert (List.last (s1 :: ss) s = List.last ss s1) as -> by (clear; revert s1; induction ss as [|a l IH]; [done|intros s1; cbn in *; by destruct l]).
    apply IH; [lia| |lia|lia|done]. intros i d sa sb H2 H3 H4. by apply (Hstep (S i) d sa sb).
Qed.

Lemma version_start q st nr n k ms t i c s0 s1 :
  lit "HTTP/" !! i = Some c ->
  [s_req_http_start; s_req_http_H; s_req_http_HT; s_req_http_HTT; s_req_http_HTTP; s_req_http_major] !! i = Some s0 ->
  [s_req_http_H; s_req_http_HT; s_req_http_HTT; s_req_http_HTTP; s_req_http_major] !! i = Some s1 ->
  exec 5 (loc q st nr s0 n k c ms t) = (inl tt, loc q st nr s1 n k c ms t).
Proof.
  intros H1 H2 H3. apply exec_break.
  do 5 (destruct i as [|i]; [injection H1 as <-; injection H2 as <-; injection H3 as <-; reflexivity|]). done.
Qed.

Definition digit_char (d : Z) : byte := z2b (48 + d).

Lemma digit_char_num d : 0 <= d <= 9 -> IS_NUM (digit_char d) = true /\ digit_of (digit_char d) = d.
Proof.
  intros Hd. unfold IS_NUM, between, digit_of, digit_char. rewrite b2z_z2b, Z.mod_small by lia. split; [|lia].
  apply andb_true_iff. split; apply Z.leb_le; lia.
Qed.

Lemma digit_exec (s s' : state) (f : Z -> http_parser -> http_parser) q st nr n k d ms t :
  (s, s', f) ∈ [(s_req_http_major, s_req_http_dot, set_http_major); (s_req_http_minor, s_req_http_end, set_http_minor)] ->
  0 <= d <= 9 ->
  exec 5 (loc q st nr s n k (digit_char d) ms t) = (inl tt, loc (f d q) st nr s' n k (digit_char d) ms t).
Proof.
  intros Hs Hd. destruct (digit_char_num d Hd) as [H1 H2]. apply exec_break.
  rewrite !elem_of_cons in Hs. destruct Hs as [[= -> -> ->]|[[= -> -> ->]|Hs]]; [| |by apply not_elem_of_nil in Hs].
  all: unfold switch, mbind, X_bind, the; cbn [p_state ch loc]; unfold request_version; rewrite H1; cbn [negb only_if];
    rewrite H2; reflexivity.
Qed.

(** From the version over the end of the line. *)
Lemma run_version q a b n k rest tr x :
  0 <= a <= 9 -> 0 <= b <= 9 -> 0 <= n -> n + 10 <= mx ->
  conf q s_req_http_start n k (lit "HTTP/" ++ (digit_char a :: "."%byte :: digit_char b :: crlf ++ rest)) None tr x ->
  leads x (conf (set_http_minor b (set_http_major a q)) s_header_field_start (n + 10) (k + 10) rest None tr).
Proof.
  intros Ha Hb Hn Hmx Hc. eapply leads_trans.
  { eapply (run_word (lit "HTTP/") [s_req_http_H; s_req_http_HT; s_req_http_HTT; s_req_http_HTTP; s_req_http_major]);
      [done| |exact Hn|cbn; lia|exact Hc].
    intros i c s0 s1 H1 H2 H3. split; [|by intros; eapply version_start].
    do 6 (destruct i as [|i]; [by injection H2 as <-|]). done. }
  clear Hc. intros x1 H1. change (length (lit "HTTP/")) with 5%nat in H1. cbn [List.last] in H1.
  eapply leads_trans.
  { eapply (byte_step_plain _ _ _ _ _ _ _ _ _ _ s_req_http_dot); [exact H1|done|lia|lia|].
    intros. apply (digit_exec s_req_http_major s_req_http_dot set_http_major); [by left|done]. }
  clear H1. intros x2 H2. eapply leads_trans.
  { eapply (byte_step_plain _ _ _ _ _ _ _ _ _ _ s_req_http_minor); [exact H2|done|lia|lia|]. intros. by apply exec_break. }
  clear H2. intros x3 H3. eapply leads_trans.
  { eapply (byte_step_plain _ _ _ _ _ _ _ _ _ _ s_req_http_end); [exact H3|done|lia|lia|].
    intros. apply (digit_exec s_req_http_minor s_req_http_end set_http_minor); [by right; left|done]. }
  clear H3. intros x4 H4. eapply leads_trans.
  { eapply (byte_step_plain _ _ _ _ _ _ _ _ _ _ s_req_line_almost_done); [exact H4|done|lia|lia|]. intros. by apply exec_break. }
  clear H4. intros x5 H5.
  replace (n + 10) with (n + Z.of_nat 5 + 1 + 1 + 1 + 1 + 1) by lia. replace (k + 10)%nat with (S (S (S (S (S (k + 5)))))) by lia.
  eapply byte_step_plain; [exact H5|done|lia|lia|]. intros. by apply exec_break.
Qed.
End runs.

Lemma url_walk_app s cs ds : url_walk s (cs ++ ds) = s' ← url_walk s cs; url_walk s' ds.
Proof.
  revert s. induction cs as [|c cs IH]; intros s; [done|]. cbn [url_walk app].
  destruct (allowed cb_url (parse_url_char s c)); [apply IH|done].
Qed.

(** Characters that keep the automaton in a state. *)
Lemma url_walk_stays s cs :
  allowed cb_url s = true -> Forall (fun c => parse_url_char s c = s) cs -> url_walk s cs = Some s.
Proof. intros Hs. induction 1 as [|c cs Hc _ IH]; [done|]. cbn [url_walk]. rewrite Hc, Hs. exact IH. Qed.

Lemma url_walk_part s s1 s2 m cs :
  parse_url_char s m = s1 -> allowed cb_url s1 = true -> allowed cb_url s2 = true -> cs <> [] ->
  Forall (fun c => parse_url_char s1 c = s2 /\ parse_url_char s2 c = s2) cs -> url_walk s (m :: cs) = Some s2.
Proof.
  intros H1 Ha1 Ha2 Hne Hcs. destruct cs as [|c cs]; [done|]. apply Forall_cons in Hcs as [[Hc _] Hcs].
  cbn [url_walk]. rewrite H1, Ha1, Hc, Ha2. apply url_walk_stays; [done|]. eapply Forall_impl; [exact Hcs|]. by intros d [_ ?].
Qed.

Lemma url_walk_text path query fragment :
  is_path path -> is_tail query -> is_tail fragment ->
  exists c cs s', url_text path query fragment = c :: cs /\ eqc c "/" || eqc c "*" = true /\
    url_walk s_req_path cs = Some s' /\ url_end s' = true.
Proof.
  intros (c & cs & -> & Hc & Hcs) Hq Hf.
  assert (H1 : exists s1, url_walk s_req_path (cs ++ part "?" query) = Some s1 /\ (s1 = s_req_path \/ s1 = s_req_query_string)).
  { rewrite url_walk_app, url_walk_stays; [|done|eapply Forall_impl; [exact Hcs|apply url_char_path]].
    cbn [mbind option_bind]. unfold part. case_bool_decide as Hne; [by exists s_req_path; split; [|left]|].
    exists s_req_query_string. split; [|by right]. apply (url_walk_part _ s_req_query_string_start); try done.
    eapply Forall_impl; [exact Hq|apply tail_char_query]. }
  destruct H1 as (s1 & H1 & Hs1).
  assert (H2 : exists s2, url_walk s1 (part "#" fragment) = Some s2 /\ url_end s2 = true).
  { unfold part. case_bool_decide as Hne; [exists s1; split; [done|by destruct Hs1 as [-> | ->]]|].
    exists s_req_fragment. split; [|done].
    apply (url_walk_part _ s_req_fragment_start); try done; [by destruct Hs1 as [-> | ->]|].
    eapply Forall_impl; [exact Hf|apply tail_char_fragment]. }
  destruct H2 as (s2 & H2 & Hs2). exists c, (cs ++ part "?" query ++ part "#" fragment), s2. split_and!; [done|done| |done].
  by rewrite app_assoc, url_walk_app, H1.
Qed.

(** What [on_request_url_cb] makes of the text. *)
Lemma parse_url_text path query fragment :
  is_path path -> is_tail query -> is_tail fragment -> Z.of_nat (length (url_text path query fragment)) < 65536 ->
  parse_url (url_text path query fragment) =
  Some (mkUrl (Some path) (if bool_decide (query = []) then None else Some query)
                (if bool_decide (fragment = []) then None else Some fragment)).
Proof.
  intros Hp Hq Hf Hl. destruct (url_fields path query fragment Hp Hq Hf) as (u & Hu & Hset & [Ho1 Hl1] & Hquery & Hfragment).
  unfold parse_url. rewrite Hu.
  assert (Hlen : length (url_text path query fragment) = (length path + length (part "?" query) + length (part "#" fragment))%nat)
    by (unfold url_text; rewrite !length_app; lia).
  assert (Hpart : forall m s, s <> [] -> part m s = m :: s) by (intros m s Hs; unfold part; by rewrite bool_decide_false).
  assert (Hu16 : forall k, (k <= length (url_text path query fragment))%nat -> Z.to_nat (u16 (Z.of_nat k)) = k)
    by (intros k Hk; rewrite wrap_small by (unfold unsigned_range; lia); lia).
  unfold url_field. rewrite !Hset by (vm_compute; lia). f_equal. f_equal.
  - cbn [bool_decide decide orb]. rewrite bool_decide_true by done. cbn [orb]. rewrite Ho1, Hl1. rewrite Hu16 by lia.
    unfold slice, url_text. by rewrite drop_0, take_app_length.
  - rewrite (bool_decide_false (UF_QUERY = UF_PATH)), bool_decide_true, (bool_decide_false (UF_QUERY = UF_FRAGMENT)) by done.
    destruct (bool_decide (query = [])) eqn:E; [done|]. cbn [negb andb orb]. apply bool_decide_eq_false in E.
    destruct (Hquery E) as [-> ->]. rewrite (Hpart _ _ E) in Hlen. cbn [length] in Hlen.
    rewrite !Hu16 by lia. unfold slice, url_text. rewrite (Hpart _ _ E), <- app_comm_cons.
    change ((?a ++ ?m :: ?b)) with (a ++ [m] ++ b). rewrite app_assoc.
    rewrite drop_app_length' by (rewrite length_app; simpl; lia). by rewrite take_app_length.
  - rewrite (bool_decide_false (UF_FRAGMENT = UF_PATH)), (bool_decide_false (UF_FRAGMENT = UF_QUERY)),
      (bool_decide_true (UF_FRAGMENT = UF_FRAGMENT)) by done.
    destruct (bool_decide (fragment = [])) eqn:E; [done|]. cbn [negb andb orb]. apply bool_decide_eq_false in E.
    destruct (Hfragment E) as [-> ->]. rewrite (Hpart "#"%byte _ E) in Hlen. cbn [length] in Hlen.
    rewrite !Hu16 by lia. unfold slice, url_text. rewrite (Hpart "#"%byte _ E).
    change (part "?" query ++ "#"%byte :: fragment) with (part "?" query ++ ["#"%byte] ++ fragment).
    rewrite !app_assoc. rewrite drop_app_length' by (rewrite !length_app; simpl; lia). by rewrite firstn_all.
Qed.

(** ** A call *)

(** The first steps of a call on some data. *)
Lemma execute_starts rq data q :
  data <> [] -> pr_errno q = HPE_OK -> pr_lenient q = false -> start_marks (pr_state q) (entry q) = entry q ->
  execute_body (settings_of rq) HTTP_MAX_HEADER_SIZE data false (entry q) =
  (main_loop (settings_of rq) HTTP_MAX_HEADER_SIZE data false (S (length data)) ;;
   m ← the marks; check (m <=? 1)%nat ;;
   CALLBACK_DATA_NOADVANCE (settings_of rq) data cb_header_field ;;
   CALLBACK_DATA_NOADVANCE (settings_of rq) data cb_header_value ;;
   CALLBACK_DATA_NOADVANCE (settings_of rq) data cb_url ;;
   CALLBACK_DATA_NOADVANCE (settings_of rq) data cb_body ;;
   CALLBACK_DATA_NOADVANCE (settings_of rq) data cb_status ;;
   RETURN (length data)) (entry q).
Proof.
  intros Hne Hok Hl Hm. assert (Hlen : length data <> 0%nat) by by destruct data.
  unfold execute_body. set (x0 := entry q) in *. unfold HttpExecute.len.
  rewrite (xb _ _ x0 true x0) by (unfold the, is_ok; cbn; by rewrite Hok). rewrite (xb _ _ x0 tt x0) by done.
  rewrite (xb _ _ x0 tt x0) by (by rewrite (proj2 (Nat.eqb_neq _ _) Hlen)).
  rewrite (xb _ _ x0 (pr_state q) x0) by done.
  by rewrite (xb _ _ x0 tt x0) by (unfold upd; by rewrite Hm).
Qed.

(** When the loop gets to the end of the data, with no mark set. *)
Definition init_of (rq : bool) : http_parser := http_parser_init (if rq then HTTP_REQUEST else HTTP_RESPONSE).

Lemma call_ends rq data q0 (Q : http_parser -> state -> Prop) tr :
  data <> [] -> pr_errno q0 = HPE_OK -> pr_lenient q0 = false -> start_marks (pr_state q0) (entry q0) = entry q0 ->
  leads rq data (entry q0) (fun x => exists q s n,
    Q q s /\ pr_errno q = HPE_OK /\ conf data q s n (length data) [] None tr x) ->
  exists q s n t, Q q s /\ http_parser_execute (settings_of rq) HTTP_MAX_HEADER_SIZE q0 data =
      (Ok (length data), set_state s (set_nread n q), t) /\ seen <$> t = tr.
Proof.
  intros Hne Hok0 Hl Hm (x & Hruns & q & s & n & HQ & Hok & _ & st & nr & c & t & -> & Ht).
  destruct (Hruns (S (length data)) ltac:(cbn; lia)) as (fuel & Hf & Hrun).
  exists q, s, n, t. split; [done|]. split; [|done].
  unfold http_parser_execute. rewrite Hl, execute_starts by done.
  rewrite (xb _ _ _ tt (loc q st nr s n (length data) c None t)).
  2:{ rewrite Hrun. destruct fuel as [|fuel]; [cbn in Hf; lia|]. cbn [main_loop]. xstep. cbn [p loc]. unfold HttpExecute.len. by rewrite Nat.eqb_refl. }
  set (x1 := loc q st nr s n (length data) c None t).
  rewrite (xb _ _ x1 0%nat x1) by done. rewrite (xb _ _ x1 tt x1) by done.
  assert (Hnone : forall f, CALLBACK_DATA_NOADVANCE (settings_of rq) data f x1 = (inl tt, x1)).
  { intros f. unfold CALLBACK_DATA_NOADVANCE, CALLBACK_DATA_. xstep.
    rewrite (xb _ _ x1 true x1) by (unfold the, is_ok; cbn; by rewrite Hok). rewrite (xb _ _ x1 tt x1) by done.
    by rewrite (xb _ _ x1 None x1) by by destruct f. }
  do 5 rewrite (xb _ _ _ _ _ (Hnone _)). done.
Qed.

Lemma execute_ends rq data (Q : http_parser -> state -> Prop) tr :
  data <> [] ->
  leads rq data (entry (init_of rq)) (fun x => exists q s n,
    Q q s /\ pr_errno q = HPE_OK /\ conf data q s n (length data) [] None tr x) ->
  exists q s n t, Q q s /\ http_parser_execute (settings_of rq) HTTP_MAX_HEADER_SIZE (init_of rq) data =
      (Ok (length data), set_state s (set_nread n q), t) /\ seen <$> t = tr.
Proof. intros Hne. by apply call_ends; destruct rq. Qed.

(** *** Calls that end in error *)

Section breaks.
Context (rq : bool) (data : str).
Abbreviation mx := HTTP_MAX_HEADER_SIZE.
Abbreviation exec := (reexecute (settings_of rq) mx data false).

(** The loop stops in error. *)
Definition breaks (e : http_errno) (x : locals) : Prop :=
  forall fuel, (length data - p x < fuel)%nat ->
    exists x', main_loop (settings_of rq) mx data false fuel x = (inr goto_error, x') /\ pr_errno (parser x') = e.

Lemma leads_breaks e x : leads rq data x (breaks e) -> breaks e x.
Proof.
  intros (x1 & Hruns & Hb) fuel Hf. destruct (Hruns fuel Hf) as (f1 & Hf1 & ->). by apply Hb.
Qed.

Lemma byte_breaks e q s n k c rest ms tr x :
  conf data q s n k (c :: rest) ms tr x -> PARSING_HEADER s = true -> 0 <= n -> n + 1 <= mx ->
  (forall st nr t, exists x', exec 5 (loc q st nr s (n + 1) k c ms t) = (inr goto_error, x') /\ pr_errno (parser x') = e) ->
  breaks e x.
Proof.
  intros [Hd (st & nr & c' & t & -> & Ht)] Hs Hn Hmx Hex fuel Hf. destruct (rest_lookup _ _ _ _ Hd) as (Hk & Hlt & _).
  destruct (Hex st nr t) as (x' & Hx & He). exists x'. split; [|done].
  destruct fuel as [|fuel]; [lia|]. cbn [main_loop]. xstep. cbn [p loc]. unfold HttpExecute.len.
  rewrite (proj2 (Nat.eqb_neq k (length data))) by lia. unfold one_byte. rewrite x_assoc.
  rewrite (xb _ _ _ tt (loc q st nr s n k c ms t)) by (unfold read_ch; cbn [p loc]; by rewrite Hk).
  rewrite x_assoc. xstep. cbn [p_state loc]. rewrite Hs. cbn [only_if]. rewrite x_assoc.
  assert (H1 : n + Z.of_nat 1 <= mx) by lia.
  rewrite (xb _ _ _ _ _ (count_run 1 q st nr s n k c ms t Hn H1)). rewrite x_assoc. unfold mbind, X_bind.
  change (Z.of_nat 1) with 1. by rewrite Hx.
Qed.

Lemma exec_error e fuel x x' :
  switch (settings_of rq) mx data false x = (inr goto_error, x') -> pr_errno (parser x') = e ->
  exists x', exec (S fuel) x = (inr goto_error, x') /\ pr_errno (parser x') = e.
Proof. intros Hs He. exists x'. split; [|done]. cbn [reexecute]. unfold mbind, X_bind. by rewrite Hs. Qed.

Lemma call_breaks q0 e :
  data <> [] -> pr_errno q0 = HPE_OK -> pr_lenient q0 = false -> start_marks (pr_state q0) (entry q0) = entry q0 ->
  is_error e = true -> breaks e (entry q0) ->
  exists r q t, http_parser_execute (settings_of rq) mx q0 data = (Ok r, q, t) /\ pr_errno q = e.
Proof.
  intros Hne Hok Hl Hm He Hb. destruct (Hb (S (length data)) ltac:(cbn; lia)) as (x & Hrun & Hx).
  exists (p x), (set_state (p_state x) (set_nread (nread x) (parser x))), (trace x).
  split; [|done]. unfold http_parser_execute. rewrite Hl, execute_starts by done.
  unfold mbind, X_bind. rewrite Hrun. assert (is_ok (parser x) = false) as -> by (unfold is_ok; rewrite Hx; by destruct e). done.
Qed.
End breaks.
