(* ===== verification/HttpFields.v ===== *)
(** * Runs of the HTTP grammar over header fields

    The loops of [http_parser_execute] over the name and the value of a field, and what a line
    of the header makes of the parser. *)

From S2P Require Import Prelude Http HttpTheorems HttpGrammar HttpExecute HttpGrammarTheorems HttpWords HttpSession HttpParsing HttpRuns.
#[local] Set Default Goal Selector "!".

(** The parser reading a field; what it was before does not matter for [header_state] and
    [index]. *)
Definition hq (q : http_parser) (h : header_states) (i : Z) : http_parser := set_header_state h (set_index i q).
Definition norm (q : http_parser) : http_parser := hq q h_general 0.

Lemma hq_norm q q' h i : norm q = norm q' -> hq q h i = hq q' h i.
Proof. intros E. change (hq (norm q) h i = hq (norm q') h i). by rewrite E. Qed.
Lemma norm_hq q h i : norm (hq q h i) = norm q.
Proof. done. Qed.

Definition is_token (c : byte) : Prop := TOKEN c <> x00.
Lemma token_char c :
  is_token c -> eqc c CR = false /\ eqc c LF = false /\ eqc c " " = false /\ eqc c x09 = false /\ eqc (TOKEN c) x00 = false.
Proof. unfold is_token. destruct c; vm_compute; intuition congruence. Qed.

Section fields.
Context (rq : bool) (data : str).
Abbreviation mx := HTTP_MAX_HEADER_SIZE.
Abbreviation exec := (reexecute (settings_of rq) mx data false).
Abbreviation conf := (HttpRuns.conf data).
Abbreviation leads := (HttpRuns.leads rq data).
Implicit Types (x : locals) (q : http_parser).

(** At the start of a line, where the flag of the field before may still be to raise. *)
Definition line_start q (n : Z) (k : nat) (rest : str) (tr : list http_callback) x : Prop :=
  (exists q', norm q' = norm q /\ conf q' s_header_field_start n k rest None tr x) \/
  (exists q', norm (raise (header_flag (pr_header_state q')) q') = norm q /\ conf q' s_header_value_lws n k rest None tr x).

Lemma line_byte q n k c rest tr x (P : locals -> Prop) :
  line_start q n k (c :: rest) tr x -> eqc c " " || eqc c x09 = false -> 0 <= n -> n + 1 <= mx ->
  (forall fuel q' st nr t, (3 <= fuel)%nat -> norm q' = norm q -> seen <$> t = tr ->
     exists x', exec fuel (loc q' st nr s_header_field_start (n + 1) k c None t) = (inl tt, x') /\ (k <= p x')%nat /\ P (x_p S x')) ->
  leads x P.
Proof.
  intros [(q' & Hq & Hc)|(q' & Hq & Hc)] Hb Hn Hmx Hex; (eapply byte_in_header; [exact Hc|done|done|done|]); intros st nr t Ht.
  - apply (Hex 5%nat); [lia|done|done].
  - rewrite (exec_again rq data 4 _ (loc (raise (header_flag (pr_header_state q')) q') st nr s_header_field_start (n + 1) k c None t)).
    { apply (Hex 4%nat); [lia|done|done]. }
    unfold switch, mbind, X_bind, the. cbn [p_state ch loc]. unfold header_end, mbind, X_bind, the. rewrite Hb. done.
Qed.

Lemma read_run q st nr s n k c d ms t :
  data !! k = Some c -> read_ch data (loc q st nr s n k d ms t) = (inl tt, loc q st nr s n k c ms t).
Proof. intros Hk. unfold read_ch. cbn [p loc]. by rewrite Hk. Qed.

(** ** Names *)

Lemma field_first_state t : field_state (field_first t) = true.
Proof. unfold field_first. repeat (destruct (eqc _ _); [done|]). done. Qed.

Lemma skip_tokens_run cs fuel pe q st nr s n k d c rest ms t :
  drop k data = c :: cs ++ ":"%byte :: rest -> Forall is_token cs -> (k + length cs < pe)%nat -> (length cs < fuel)%nat ->
  skip_tokens data fuel pe (loc q st nr s n k d ms t) = (inl tt, loc q st nr s n (k + length cs) d ms t).
Proof.
  intros Hd Hcs. revert fuel k c Hd. induction Hcs as [|e cs He _ IH]; intros fuel k c Hd Hpe Hf; (destruct fuel as [|fuel]; [lia|]);
    cbn [skip_tokens]; xstep; cbn [p loc].
  - rewrite Nat.add_0_r. destruct (S k <? pe)%nat; [|done]. destruct (rest_lookup _ _ _ _ Hd) as (_ & _ & Hd').
    destruct (rest_lookup _ _ _ _ Hd') as (Hk & _ & _). by rewrite Hk.
  - cbn [length app] in *. rewrite (proj2 (Nat.ltb_lt (S k) pe)) by lia. destruct (rest_lookup _ _ _ _ Hd) as (_ & _ & Hd').
    destruct (rest_lookup _ _ _ _ Hd') as (Hk & _ & _). rewrite Hk.
    destruct (token_char e He) as (_ & _ & _ & _ & ->). rewrite (xb _ _ _ tt (loc q st nr s n (S k) d ms t)) by done.
    rewrite (IH fuel (S k) e Hd'); [|lia|lia]. by replace (S k + length cs)%nat with (k + S (length cs))%nat by lia.
Qed.

Lemma wrap_wrap w v : 0 <= w -> wrap w (wrap w v) = wrap w v.
Proof. intros. unfold wrap. apply Z.mod_mod. lia. Qed.

Lemma next_index_run q h i st nr s n k c ms t :
  0 <= i < 128 ->
  next_index (loc (hq q h i) st nr s n k c ms t) = (inl (wrap 7 (i + 1)), loc (hq q h (wrap 7 (i + 1))) st nr s n k c ms t).
Proof.
  intros Hi. unfold next_index, with_parser, upd, the, mbind, X_bind, x_parser, loc, hq. cbn.
  rewrite (wrap_small 7 i) by (unfold unsigned_range; lia). unfold set_header_state. cbn. by rewrite (wrap_wrap 7) by lia.
Qed.

Lemma set_hs_run q h h' i st nr s n k c ms t :
  set_hs h' (loc (hq q h i) st nr s n k c ms t) = (inl tt, loc (hq q h' i) st nr s n k c ms t).
Proof. done. Qed.

(** A character of a name that has not gone off the known names. *)
Lemma field_char_run q h i st nr s n k c ms t fuel :
  field_state h = true -> h <> h_general -> is_token c -> 0 <= i < 128 ->
  field_char mx data fuel c (TOKEN c) (loc (hq q h i) st nr s n k c ms t) =
  (inl tt, loc (hq q (fst (field_next (h, i) (TOKEN c))) (snd (field_next (h, i) (TOKEN c)))) st nr s n k c ms t).
Proof.
  intros Hh Hg Hc Hi. destruct (token_char c Hc) as (_ & _ & Hsp & _ & _).
  unfold field_char. rewrite (xb _ _ _ h (loc (hq q h i) st nr s n k c ms t)) by done.
  destruct h; try discriminate; try done; cbn [field_next fst snd]; try (rewrite Hsp; cbn [negb only_if]; apply set_hs_run);
    (rewrite (xb _ _ _ _ _ (next_index_run q _ i st nr s n k c ms t Hi))); apply set_hs_run.
Qed.

Lemma field_next_state h i t : field_state h = true -> 0 <= i < 128 ->
  field_state (fst (field_next (h, i) t)) = true /\ 0 <= snd (field_next (h, i) t) < 128.
Proof.
  intros Hh Hi. assert (0 <= wrap 7 (i + 1) < 128) by (apply (Z.mod_pos_bound (i + 1) 128); lia).
  destruct h; try discriminate; cbn [field_next fst snd]; (split; [|done]); unfold match_word;
    repeat match goal with |- context [if ?b then _ else _] => destruct b end; done.
Qed.

Lemma field_run_general i ts : field_run (h_general, i) ts = (h_general, i).
Proof. unfold field_run. by induction ts. Qed.

Lemma field_loop_run cs fuel q h i st nr s n k d rest ms t :
  drop k data = cs ++ ":"%byte :: rest -> Forall is_token cs -> field_state h = true -> 0 <= i < 128 ->
  (length cs < fuel)%nat -> Z.of_nat (length cs) <= mx ->
  let hi := field_run (h, i) (TOKEN <$> cs) in
  field_loop mx data fuel (loc (hq q h i) st nr s n k d ms t) =
  (inl tt, loc (hq q (fst hi) (snd hi)) st nr s n (k + length cs) ":" ms t).
Proof.
  cbv zeta. intros Hd Hcs. revert fuel h i k d Hd. induction Hcs as [|c cs Hc Hcs IH]; intros fuel h i k d Hd Hh Hi Hf Hmx;
    (destruct fuel as [|fuel]; [lia|]); cbn [field_loop]; xstep; unfold HttpExecute.len; cbn [p loc];
    destruct (rest_lookup _ _ _ _ Hd) as (Hk & Hlt & Hd'); rewrite (proj2 (Nat.eqb_neq k (length data))) by lia.
  all: rewrite (xb _ _ _ _ _ (read_run (hq q h i) st nr s n k _ d ms t Hk)); xstep; cbn [ch loc].
  - by rewrite Nat.add_0_r.
  - cbn [length app] in *. destruct (token_char c Hc) as (_ & _ & _ & _ & ->). destruct (decide (h = h_general)) as [->|Hg].
    + assert (El : length (drop k data) = length (c :: cs ++ ":"%byte :: rest)) by by rewrite Hd.
      rewrite length_drop in El. cbn [length] in El. rewrite length_app in El. cbn [length] in El.
      rewrite (xb (field_char _ _ _ _ _) _ _ tt (loc (hq q h_general i) st nr s n (k + length cs) c ms t)).
      2:{ unfold field_char. rewrite (xb _ _ _ h_general (loc (hq q h_general i) st nr s n k c ms t)) by done. xstep. eapply skip_tokens_run; [exact Hd|done| |].
          all: unfold far_end, HttpExecute.len; cbn [p loc]; lia. }
      rewrite (xb _ _ _ tt (loc (hq q h_general i) st nr s n (k + S (length cs)) c ms t))
        by (rewrite Nat.add_succ_r; reflexivity).
      rewrite !field_run_general. cbn [fst snd].
      assert (Hd2 : drop (k + S (length cs)) data = ":"%byte :: rest) by by apply (rest_app data k (c :: cs)).
      destruct (rest_lookup _ _ _ _ Hd2) as (Hk2 & Hlt2 & _).
      destruct fuel as [|fuel]; [lia|]. cbn [field_loop]. xstep. unfold HttpExecute.len. cbn [p loc].
      rewrite (proj2 (Nat.eqb_neq _ (length data))) by lia.
      by rewrite (xb _ _ _ _ _ (read_run (hq q h_general i) st nr s n _ _ c ms t Hk2)).
    + rewrite (xb _ _ _ _ _ (field_char_run q h i st nr s n k c ms t _ Hh Hg Hc Hi)).
      destruct (field_next_state h i (TOKEN c) Hh Hi) as [Hh' Hi'].
      rewrite (xb _ _ _ tt (loc (hq q (fst (field_next (h, i) (TOKEN c))) (snd (field_next (h, i) (TOKEN c)))) st nr s n (S k) c ms t)) by done.
      rewrite (IH fuel _ _ (S k) c Hd' Hh' Hi'); [|lia|lia]. replace (S k + length cs)%nat with (k + S (length cs))%nat by lia.
      rewrite <- surjective_pairing. done.
Qed.

(** The whole name, over the colon. *)
Lemma header_field_run cs q h i st nr n k d m name rest t :
  drop k data = cs ++ ":"%byte :: rest -> Forall is_token cs -> field_state h = true -> 0 <= i < 128 ->
  pr_errno q = HPE_OK -> 0 <= n -> n + Z.of_nat (length cs) <= mx -> (m <= k)%nat -> slice m (k + length cs - m) data = name ->
  let hi := field_run (h, i) (TOKEN <$> cs) in
  let s := s_header_value_discard_ws in
  header_field (settings_of rq) mx data (loc (hq q h i) st nr s_header_field n k d (Some (cb_header_field, m)) t) =
  (inl Break, loc (hq q (fst hi) (snd hi)) s nr s (n + Z.of_nat (length cs)) (k + length cs) ":" None
     (t ++ [Data cb_header_field name (set_nread nr (set_state s (hq q (fst hi) (snd hi))))])).
Proof.
  cbv zeta. intros Hd Hcs Hh Hi Hok Hn Hmx Hm Hname.
  assert (El : length (drop k data) = length (cs ++ ":"%byte :: rest)) by by rewrite Hd.
  rewrite length_drop, length_app in El. cbn [length] in El.
  assert (Hk : (m <= k + length cs <= length data)%nat) by lia.
  unfold header_field. xstep.
  rewrite (xb _ _ _ _ _ (field_loop_run cs (S (length data)) q h i st nr s_header_field n k d rest (Some (cb_header_field, m)) t
    Hd Hcs Hh Hi ltac:(lia) ltac:(lia))). cbv zeta.
  set (hi := field_run _ _). xstep. cbn [p loc]. unfold HttpExecute.len.
  rewrite (proj2 (Nat.eqb_neq (k + length cs) (length data))) by lia.
  replace (k + length cs - k)%nat with (length cs) by lia.
  rewrite (xb _ _ _ _ _ (count_run _ _ _ _ _ _ _ _ _ _ Hn Hmx)). xstep. cbn [ch loc]. change (eqc ":" ":") with true. cbv iota.
  rewrite <- x_assoc.
  by rewrite (xb _ _ _ _ _ (data_run rq data cb_header_field (hq q (fst hi) (snd hi)) _ _ _ _ _ _ _ m name t Hok Hk Hname I)).
Qed.

Definition tokens_of (name : str) : list byte := TOKEN <$> name.
Definition is_name (name : str) : Prop := name <> [] /\ Forall is_token name.

Lemma run_name q name n k rest tr x :
  is_name name -> pr_errno q = HPE_OK -> 0 <= n -> n + Z.of_nat (length name) + 1 <= mx ->
  line_start q n k (name ++ ":"%byte :: rest) tr x ->
  leads x (fun x => exists i, conf (hq q (name_state (tokens_of name)) i) s_header_value_discard_ws (n + Z.of_nat (length name) + 1)
    (k + length name + 1) rest None (tr ++ [on_header_field name]) x).
Proof.
  intros [Hne Hall] Hok Hn Hmx Hls. destruct name as [|c cs]; [done|]. apply Forall_cons in Hall as [Hc Hcs]. cbn [length app] in *.
  destruct (token_char c Hc) as (Hcr & Hlf & Hsp & Htab & Htok).
  assert (Hd : drop k data = c :: cs ++ ":"%byte :: rest) by by destruct Hls as [(q' & _ & [Hd _])|(q' & _ & [Hd _])].
  destruct (rest_lookup _ _ _ _ Hd) as (_ & _ & Hd').
  eapply (leads_trans rq data x (conf (hq q (field_first (TOKEN c)) 0) s_header_field (n + 1) (S k) (cs ++ ":"%byte :: rest)
    (Some (cb_header_field, k)) tr)).
  { eapply line_byte; [exact Hls|by rewrite Hsp, Htab|done|lia|]. intros fuel q' st nr t Hf Hq Ht. destruct fuel as [|fuel]; [lia|].
    exists (loc (hq q' (field_first (TOKEN c)) 0) st nr s_header_field (n + 1) k c (Some (cb_header_field, k)) t). split; [|split; [done|]].
    - apply exec_break. unfold switch. do 2 xstep. cbn [p_state ch loc]. unfold header_field_start. rewrite Hcr, Hlf. cbv zeta.
      rewrite Htok. reflexivity.
    - split; [exact Hd'|]. exists st, nr, c, t. split; [|done]. by rewrite (hq_norm q' q). }
  intros x1 H1. set (hi := field_run (field_first (TOKEN c), 0) (TOKEN <$> cs)).
  assert (Hlk : exists d r, cs ++ ":"%byte :: rest = d :: r) by (destruct cs; by eexists _, _).
  destruct Hlk as (d & r & Hlk). rewrite Hlk in H1.
  eapply byte_in_header; [exact H1|done|lia|lia|]. intros st nr t Ht. eexists. split.
  { apply exec_break. unfold switch. do 2 xstep. cbn [p_state ch loc].
    apply (header_field_run cs q _ 0 st nr (n + 1 + 1) (S k) d k (c :: cs) rest t); try done; try lia.
    - apply field_first_state.
    - replace (S k + length cs - k)%nat with (length (c :: cs)) by (cbn; lia). by apply (rest_app data k (c :: cs) _ Hd). }
  split; [cbn [p loc]; lia|]. exists (snd hi). cbn [length]. split.
  - replace (k + S (length cs) + 1)%nat with (k + length (c :: cs) + length [":"%byte])%nat by (cbn; lia).
    rewrite <- drop_drop, (proj1 (rest_app data k (c :: cs) _ Hd)). done.
  - exists s_header_value_discard_ws, nr, ":"%byte, (t ++ [Data cb_header_field (c :: cs) (set_nread nr
      (set_state s_header_value_discard_ws (hq q (fst hi) (snd hi))))]).
    split; [|by rewrite fmap_app, Ht]. unfold x_p, loc. cbn [nread p]. f_equal; cbn [nread p]; lia.
Qed.

(** ** Values *)

Definition value_byte (c : byte) : bool := IS_HEADER_CHAR c && negb (eqc c CR) && negb (eqc c LF).
Lemma value_byte_true c : value_byte c = true -> eqc c CR = false /\ eqc c LF = false /\ IS_HEADER_CHAR c = true.
Proof. unfold value_byte. by destruct (IS_HEADER_CHAR c), (eqc c CR), (eqc c LF). Qed.

Lemma value_skip_run cs fuel pe q st nr s n k d rest ms t :
  drop k data = cs ++ CR :: rest -> Forall (fun c => value_byte c = true) cs -> (k + length cs < pe)%nat -> (length cs < fuel)%nat ->
  value_skip data false fuel pe (loc q st nr s n k d ms t) = (inl tt, loc q st nr s n (pred (k + length cs)) CR ms t).
Proof.
  intros Hd Hcs. revert fuel k d Hd. induction Hcs as [|c cs Hc _ IH]; intros fuel k d Hd Hpe Hf; (destruct fuel as [|fuel]; [lia|]);
    cbn [value_skip length app] in *; xstep; cbn [p loc]; rewrite (proj2 (Nat.eqb_neq k pe)) by lia;
    destruct (rest_lookup _ _ _ _ Hd) as (Hk & _ & Hd'); rewrite (xb _ _ _ _ _ (read_run q st nr s n k _ d ms t Hk)); xstep; cbn [ch loc].
  - change (eqc CR CR || eqc CR LF) with true. cbv iota. by rewrite Nat.add_0_r.
  - destruct (value_byte_true c Hc) as (-> & -> & ->). cbn [orb negb andb only_if].
    rewrite (xb _ _ _ tt (loc q st nr s n k c ms t)) by done.
    rewrite (xb _ _ _ tt (loc q st nr s n (S k) c ms t)) by done.
    rewrite (IH fuel (S k) c Hd'); [|lia|lia]. by replace (S k + length cs)%nat with (k + S (length cs))%nat by lia.
Qed.

(** What one character, then several, make of the parser and of [h_state]. *)
Definition one_char q h i c q' h' i' : Prop :=
  forall fuel h0 st nr s n k ms t,
    value_char mx data false fuel h c (LOWER c) (loc (hq q h0 i) st nr s n k c ms t) =
    (inl h', loc (hq q' h0 i') st nr s n k c ms t).

Inductive walk : http_parser -> header_states -> Z -> str -> http_parser -> header_states -> Z -> Prop :=
| walk_end q h i : walk q h i [] q h i
| walk_char q h i c cs q1 h1 i1 q2 h2 i2 : one_char q h i c q1 h1 i1 -> walk q1 h1 i1 cs q2 h2 i2 -> walk q h i (c :: cs) q2 h2 i2
| walk_general q i cs : walk q h_general i cs q h_general i.

Lemma value_end q h0 h i st nr s n k m val fuel start t rest d :
  drop k data = CR :: rest -> pr_errno q = HPE_OK -> (m <= k)%nat -> slice m (k - m) data = val ->
  value_loop (settings_of rq) mx data false (S fuel) start h (loc (hq q h0 i) st nr s n k d (Some (cb_header_value, m)) t) =
  (inl (Some h), loc (hq q h i) s_header_almost_done nr s_header_almost_done n k CR None
     (t ++ [Data cb_header_value val (set_nread nr (set_state s_header_almost_done (hq q h i)))])).
Proof.
  intros Hd Hok Hm Hv. destruct (rest_lookup _ _ _ _ Hd) as (Hk & Hlt & _). cbn [value_loop]. xstep. cbn [p loc]. unfold HttpExecute.len.
  rewrite (proj2 (Nat.eqb_neq k (length data))) by lia. rewrite (xb _ _ _ _ _ (read_run _ st nr s n k _ d _ t Hk)). xstep. cbn [ch loc].
  change (eqc CR CR) with true. cbv iota.
  rewrite (xb _ _ _ tt (loc (hq q h0 i) st nr s_header_almost_done n k CR (Some (cb_header_value, m)) t)) by done.
  rewrite (xb _ _ _ _ _ (set_hs_run q h0 h i st nr _ n k CR _ t)).
  assert (Hk' : (m <= k <= length data)%nat) by lia.
  by rewrite (xb _ _ _ _ _ (callback_run rq data cb_header_value (hq q h i) st nr _ n k CR m val t Hok Hk' Hv I)).
Qed.

Lemma value_loop_run cs q h i q' h' i' :
  walk q h i cs q' h' i' -> Forall (fun c => value_byte c = true) cs -> pr_errno q' = HPE_OK ->
  forall fuel start h0 st nr s n k m val t rest d,
  drop k data = cs ++ CR :: rest -> (m <= k)%nat -> slice m (k + length cs - m) data = val ->
  (length cs + 1 < fuel)%nat -> Z.of_nat (length cs) < mx ->
  value_loop (settings_of rq) mx data false fuel start h (loc (hq q h0 i) st nr s n k d (Some (cb_header_value, m)) t) =
  (inl (Some h'), loc (hq q' h' i') s_header_almost_done nr s_header_almost_done n (k + length cs) CR None
     (t ++ [Data cb_header_value val (set_nread nr (set_state s_header_almost_done (hq q' h' i')))])).
Proof.
  induction 1 as [q h i|q h i c cs q1 h1 i1 q2 h2 i2 Hone _ IH|q i cs]; intros Hcs Hok fuel start h0 st nr s n k m val t rest d Hd Hm Hv Hf Hmx.
  - destruct fuel as [|fuel]; [lia|]. rewrite Nat.add_0_r in *. by eapply value_end.
  - apply Forall_cons in Hcs as [Hc Hcs]. cbn [length app] in *. destruct fuel as [|fuel]; [lia|]. cbn [value_loop]. xstep. cbn [p loc].
    destruct (rest_lookup _ _ _ _ Hd) as (Hk & Hlt & Hd'). unfold HttpExecute.len at 1.
    rewrite (proj2 (Nat.eqb_neq k (length data))) by lia. rewrite (xb _ _ _ _ _ (read_run _ st nr s n k _ d _ t Hk)). xstep. cbn [ch loc].
    destruct (value_byte_true c Hc) as (-> & -> & ->). cbn [negb andb only_if].
    rewrite (xb _ _ _ tt (loc (hq q h0 i) st nr s n k c (Some (cb_header_value, m)) t)) by done.
    rewrite (xb _ _ _ _ _ (Hone _ h0 st nr s n k _ t)).
    rewrite (xb _ _ _ tt (loc (hq q1 h0 i1) st nr s n (S k) c (Some (cb_header_value, m)) t)) by done.
    rewrite (IH Hcs Hok fuel start h0 st nr s n (S k) m val t rest c Hd'); [|lia| |lia|lia].
    + by replace (S k + length cs)%nat with (k + S (length cs))%nat by lia.
    + by replace (S k + length cs - m)%nat with (k + S (length cs) - m)%nat by lia.
  - destruct cs as [|c cs]; [rewrite Nat.add_0_r in *; destruct fuel as [|fuel]; [lia|]; by eapply value_end|].
    destruct fuel as [|fuel]; [lia|]. cbn [value_loop]. xstep. cbn [p loc].
    destruct (rest_lookup _ _ _ _ Hd) as (Hk & Hlt & _). unfold HttpExecute.len at 1.
    rewrite (proj2 (Nat.eqb_neq k (length data))) by lia. rewrite (xb _ _ _ _ _ (read_run _ st nr s n k _ d _ t Hk)). xstep. cbn [ch loc].
    destruct (value_byte_true c (Forall_inv Hcs)) as (-> & -> & ->). cbn [negb andb only_if].
    rewrite (xb _ _ _ tt (loc (hq q h0 i) st nr s n k c (Some (cb_header_value, m)) t)) by done.
    destruct (rest_app data k (c :: cs) (CR :: rest) Hd) as [Hend _]. destruct (rest_lookup _ _ _ _ Hend) as (_ & Hlt' & _).
    rewrite (xb _ _ _ h_general (loc (hq q h0 i) st nr s n (pred (k + length (c :: cs))) CR (Some (cb_header_value, m)) t)).
    2:{ unfold value_char. xstep.
        erewrite xb by (eapply (value_skip_run (c :: cs)); [exact Hd|exact Hcs|unfold far_end, HttpExecute.len; cbn [p loc]; lia|
          unfold HttpExecute.len; lia]).
        xstep. cbn [p loc]. unfold HttpExecute.len.
        by rewrite (proj2 (Nat.eqb_neq (pred (k + length (c :: cs))) (length data))) by lia. }
    rewrite (xb _ _ _ tt (loc (hq q h0 i) st nr s n (k + length (c :: cs)) CR (Some (cb_header_value, m)) t)).
    2:{ unfold upd, x_p, loc. cbn [p length]. by replace (S (pred (k + S (length cs)))) with (k + S (length cs))%nat by lia. }
    destruct fuel as [|fuel]; [cbn [length] in Hf; lia|]. eapply value_end; [exact Hend|done|lia|exact Hv].
Qed.

Lemma header_value_run cs q h i q' h' i' st nr n k d m val rest t :
  walk q h i cs q' h' i' -> Forall (fun c => value_byte c = true) cs -> pr_errno q' = HPE_OK ->
  drop k data = cs ++ CR :: rest -> 0 <= n -> n + Z.of_nat (length cs) < mx -> (m <= k)%nat -> slice m (k + length cs - m) data = val ->
  let s := s_header_almost_done in
  header_value (settings_of rq) mx data false (loc (hq q h i) st nr s_header_value n k d (Some (cb_header_value, m)) t) =
  (inl Break, loc (hq q' h' i') s nr s (n + Z.of_nat (length cs)) (k + length cs) CR None
     (t ++ [Data cb_header_value val (set_nread nr (set_state s (hq q' h' i')))])).
Proof.
  cbv zeta. intros Hw Hcs Hok Hd Hn Hmx Hm Hv.
  destruct (rest_app data k cs (CR :: rest) Hd) as [Hend _]. destruct (rest_lookup _ _ _ _ Hend) as (_ & Hlt & _).
  unfold header_value. xstep. rewrite (xb _ _ _ h (loc (hq q h i) st nr s_header_value n k d (Some (cb_header_value, m)) t)) by done.
  erewrite xb.
  2:{ eapply (value_loop_run cs q h i q' h' i' Hw Hcs Hok); [exact Hd|exact Hm|exact Hv|unfold HttpExecute.len; lia|lia]. }
  cbn beta iota. rewrite (xb _ _ _ _ _ (set_hs_run q' h' h' i' _ _ _ _ _ _ _ _)). xstep. cbn [p loc]. unfold HttpExecute.len.
  rewrite (proj2 (Nat.eqb_neq (k + length cs) (length data))) by lia. cbn [only_if]. xstep. xstep. cbn [p loc].
  replace (k + length cs - k)%nat with (length cs) by lia.
  assert (Hmx' : n + Z.of_nat (length cs) <= mx) by lia.
  by rewrite (xb _ _ _ _ _ (count_run _ _ _ _ _ _ _ _ _ _ Hn Hmx')).
Qed.

(** The first character of the value. *)
Definition first_char q h i c q1 h1 : Prop :=
  forall st nr n k t,
    header_value_start c (loc (hq q h i) st nr s_header_value_discard_ws n k c None t) =
    (inl Break, loc (hq q1 h1 0) st nr s_header_value n k c (Some (cb_header_value, k)) t).

Definition is_value (val : str) : Prop :=
  exists c cs, val = c :: cs /\ eqc c " " || eqc c x09 = false /\ Forall (fun c => value_byte c = true) val.

(** From the blank after the colon over the end of the line. *)
Lemma run_value q h i c cs q1 h1 q2 h2 i2 n k rest tr x :
  is_value (c :: cs) -> first_char q h i c q1 h1 -> walk q1 h1 0 cs q2 h2 i2 -> pr_errno q2 = HPE_OK ->
  0 <= n -> n + Z.of_nat (length (c :: cs)) + 3 <= mx ->
  conf (hq q h i) s_header_value_discard_ws n k (" "%byte :: (c :: cs) ++ crlf ++ rest) None tr x ->
  leads x (line_start (raise (header_flag h2) q2) (n + Z.of_nat (length (c :: cs)) + 3) (k + length (c :: cs) + 3) rest
    (tr ++ [on_header_value (c :: cs)])).
Proof.
  intros (c' & cs' & [= <- <-] & Hb & Hall) Hfirst Hw Hok Hn Hmx Hc. apply Forall_cons in Hall as [Hc0 Hcs].
  destruct (value_byte_true c Hc0) as (Hcr & Hlf & _).
  eapply leads_trans.
  { eapply byte_step_plain; [exact Hc|done|done|lia|]. intros. by apply exec_break. }
  clear Hc. intros x1 H1. cbn [app length] in *. pose proof (rest_lookup _ _ _ _ (proj1 H1)) as (_ & _ & Hd').
  eapply (leads_trans rq data x1 (conf (hq q1 h1 0) s_header_value (n + 1 + 1) (S (S k)) (cs ++ crlf ++ rest) (Some (cb_header_value, S k)) tr)).
  { eapply byte_in_header; [exact H1|done|lia|lia|]. intros st nr t Ht. eexists. split.
    { apply exec_break. unfold switch. do 2 xstep. cbn [p_state ch loc]. unfold header_value_discard_ws. rewrite Hb, Hcr, Hlf. apply Hfirst. }
    split; [done|]. split; [exact Hd'|]. by exists st, nr, c, t. }
  pose proof (proj1 H1) as Hd1. clear H1. intros x2 H2.
  assert (Hlk : exists d r, cs ++ crlf ++ rest = d :: r) by (destruct cs; by eexists _, _). destruct Hlk as (d & r & Hlk). rewrite Hlk in H2.
  destruct (rest_app data (S k) (c :: cs) (crlf ++ rest) Hd1) as [Hend Hval].
  eapply (leads_trans rq data x2 (conf (hq q2 h2 i2) s_header_almost_done (n + 1 + 1 + 1 + Z.of_nat (length cs)) (S k + length (c :: cs) + 1)
    (LF :: rest) None (tr ++ [on_header_value (c :: cs)]))).
  { eapply byte_in_header; [exact H2|done|lia|lia|]. intros st nr t Ht. eexists. split.
    { apply exec_break. unfold switch. do 2 xstep. cbn [p_state ch loc].
      apply (header_value_run cs q1 h1 0 q2 h2 i2 st nr _ (S (S k)) d (S k) (c :: cs) (LF :: rest) t Hw Hcs Hok Hd'); [lia|lia|lia|].
      by replace (S (S k) + length cs - S k)%nat with (length (c :: cs)) by (cbn; lia). }
    split; [cbn [p loc]; lia|]. split.
    - rewrite <- drop_drop, Hend. done.
    - exists s_header_almost_done, nr, CR, (t ++ [Data cb_header_value (c :: cs) (set_nread nr (set_state s_header_almost_done (hq q2 h2 i2)))]).
      split; [|by rewrite fmap_app, Ht]. unfold x_p, loc. cbn [nread p length]. f_equal; cbn [nread p]; lia. }
  clear H2. intros x3 H3. eapply (leads_trans rq data x3 (conf (hq q2 h2 i2) s_header_value_lws (n + Z.of_nat (S (length cs)) + 3) (k + S (length cs) + 3) rest None
    (tr ++ [on_header_value (c :: cs)]))).
  { replace (n + Z.of_nat (S (length cs)) + 3) with (n + 1 + 1 + 1 + Z.of_nat (length cs) + 1) by lia.
    replace (k + S (length cs) + 3)%nat with (S (S k + length (c :: cs) + 1)) by (cbn [length]; lia).
    eapply byte_step_plain; [exact H3|done|lia|lia|]. intros. by apply exec_break. }
  intros x4 H4. apply leads_now. right. by exists (hq q2 h2 i2).
Qed.

(** A line of the header. *)
Lemma run_field q name c cs q1 h1 q2 h2 i2 n k rest tr x :
  is_name name -> is_value (c :: cs) -> pr_errno q = HPE_OK -> pr_errno q2 = HPE_OK ->
  (forall i, first_char q (name_state (tokens_of name)) i c q1 h1) -> walk q1 h1 0 cs q2 h2 i2 ->
  0 <= n -> n + Z.of_nat (length (line name (c :: cs))) <= mx ->
  line_start q n k (line name (c :: cs) ++ rest) tr x ->
  leads x (line_start (raise (header_flag h2) q2) (n + Z.of_nat (length (line name (c :: cs)))) (k + length (line name (c :: cs))) rest
    (tr ++ [on_header_field name; on_header_value (c :: cs)])).
Proof.
  intros Hname Hval Hok Hok2 Hfirst Hw Hn Hmx Hl.
  assert (El : length (line name (c :: cs)) = (length name + 1 + length (c :: cs) + 3)%nat).
  { unfold line. rewrite !length_app. change (length (lit ": ")) with 2%nat. change (length crlf) with 2%nat. lia. }
  rewrite El in Hmx |- *. unfold line in Hl. change (lit ": ") with [":"; " "]%byte in Hl. rewrite <- !app_assoc in Hl.
  eapply leads_trans; [eapply run_name; [exact Hname|exact Hok|exact Hn|lia|exact Hl]|]. clear Hl.
  intros x1 [i H1]. cbv beta in H1. change (tr ++ [?a; ?b]) with (tr ++ [a] ++ [b]). rewrite app_assoc.
  replace (n + Z.of_nat (length name + 1 + length (c :: cs) + 3)) with (n + Z.of_nat (length name) + 1 + Z.of_nat (length (c :: cs)) + 3) by lia.
  replace (k + (length name + 1 + length (c :: cs) + 3))%nat with (k + length name + 1 + length (c :: cs) + 3)%nat by lia.
  eapply run_value; [exact Hval|apply Hfirst|exact Hw|exact Hok2|lia|lia|exact H1].
Qed.
End fields.
