(* ===== verification/HttpRoundTrip.v ===== *)
(** * The text of a message, parsed

    The fields of either message one by one, the end of the header, and
    the body. *)

From S2P Require Import Prelude Http HttpTheorems HttpGrammar HttpExecute HttpGrammarTheorems HttpWords HttpUrl HttpUrlTheorems HttpSession HttpSessionTheorems HttpParsing HttpParsingTheorems HttpRuns HttpFields.
#[local] Set Default Goal Selector "!".

(** ** The fields *)

Lemma field_run_state ts h i : field_state h = true -> 0 <= i < 128 -> field_state (fst (field_run (h, i) ts)) = true.
Proof.
  revert h i. induction ts as [|t ts IH]; intros h i Hh Hi; [done|]. unfold field_run. cbn [fold_left].
  destruct (field_next_state h i t Hh Hi) as [Hh' Hi']. destruct (field_next (h, i) t) as [h' i']. by apply IH.
Qed.

Lemma name_state_field name : field_state (name_state (tokens_of name)) = true.
Proof.
  unfold name_state. destruct (tokens_of name) as [|t ts]; [done|]. apply field_run_state; [apply field_first_state|lia].
Qed.

Section values.
Implicit Types q : http_parser.

Lemma plain_first q h i c : field_state h = true -> special h = false -> first_char q h i c q h_general.
Proof. intros Hf Hs st nr n k t. by destruct h. Qed.

Lemma keep_alive_first q i : first_char q h_connection i "k" q h_matching_connection_keep_alive.
Proof. intros st nr n k t. done. Qed.
Lemma close_first q i : first_char q h_connection i "c" q h_matching_connection_close.
Proof. intros st nr n k t. done. Qed.

Context (data : str).
(** The automaton of a word, once its first letter has chosen it. *)
Ltac walk_word :=
  repeat (eapply walk_char;
    [intros fuel h0 st nr s n k ms t; unfold value_char; erewrite xb by (apply next_index_run; lia); reflexivity|];
     match goal with |- walk _ _ ?h ?i _ _ _ _ =>
       let h' := eval vm_compute in h in let i' := eval vm_compute in i in change h with h'; change i with i' end);
  apply walk_end.

Lemma keep_alive_walk q :
  walk data q h_matching_connection_keep_alive 0 (lit "eep-alive") q h_connection_keep_alive 9.
Proof. change (lit "eep-alive") with ["e"; "e"; "p"; "-"; "a"; "l"; "i"; "v"; "e"]%byte. walk_word. Qed.
Lemma close_walk q : walk data q h_matching_connection_close 0 (lit "lose") q h_connection_close 4.
Proof. change (lit "lose") with ["l"; "o"; "s"; "e"]%byte. walk_word. Qed.

(** The digits of a number, the first apart. *)
Definition digits_value (v : Z) (ds : str) : Z := fold_left (fun v c => v * 10 + digit_of c) ds v.
Definition is_digits (ds : str) : Prop := Forall (fun c => IS_NUM c = true) ds.

Lemma digit_of_range c : IS_NUM c = true -> 0 <= digit_of c <= 9.
Proof. intros Hc. apply digit_range. by rewrite Hc. Qed.

Lemma digits_value_ge v ds : 0 <= v -> is_digits ds -> v <= digits_value v ds /\ (ds <> [] -> v * 10 <= digits_value v ds).
Proof.
  intros Hv Hds. revert v Hv. induction Hds as [|c ds Hc _ IH]; intros v Hv; [by split; [unfold digits_value; simpl; lia|]|].
  pose proof (digit_of_range c Hc). destruct (IH (v * 10 + digit_of c) ltac:(lia)) as [H1 _].
  change (digits_value v (c :: ds)) with (digits_value (v * 10 + digit_of c) ds). lia.
Qed.

(** Whole numbers up to the limit are read. *)
Definition length_limit : Z := 18446744073709551609.

Lemma digits_walk q v ds :
  0 <= v -> is_digits ds -> digits_value v ds <= length_limit ->
  walk data (set_content_length v q) h_content_length_num 0 ds (set_content_length (digits_value v ds) q) h_content_length_num 0.
Proof.
  intros Hv Hds. revert v Hv. induction Hds as [|c ds Hc Hds IH]; intros v Hv Hmax; [apply walk_end|].
  pose proof (digit_of_range c Hc) as Hd.
  destruct (digits_value_ge v (c :: ds) Hv ltac:(by constructor)) as [_ Hge]. specialize (Hge ltac:(done)).
  change (digits_value v (c :: ds)) with (digits_value (v * 10 + digit_of c) ds) in *.
  pose proof (proj1 (digits_value_ge (v * 10 + digit_of c) ds ltac:(lia) Hds)) as Hnext. unfold length_limit in Hmax.
  eapply walk_char; [|apply IH; [lia|exact Hmax]].
  intros fuel h0 st nr s n k ms t. cbn [value_char]. unfold content_length_digit.
  assert (eqc c " " = false) as -> by (revert Hc; destruct c; vm_compute; congruence). rewrite Hc. cbn [negb only_if].
  rewrite (xb _ _ _ tt (loc (hq (set_content_length v q) h0 0) st nr s n k c ms t)) by done.
  rewrite (xb _ _ _ v (loc (hq (set_content_length v q) h0 0) st nr s n k c ms t)) by done. cbv zeta.
  assert ((Z.quot (ULLONG_MAX - 10) 10 <? v) = false) as -> by (apply Z.ltb_ge; change (Z.quot (ULLONG_MAX - 10) 10) with 1844674407370955160; lia).
  rewrite (xb _ _ _ tt (loc (hq (set_content_length v q) h0 0) st nr s n k c ms t)) by done.
  assert (u64 (u64 (v * 10) + digit_of c) = v * 10 + digit_of c) as ->.
  { rewrite (wrap_small 64 (v * 10)) by (unfold unsigned_range; lia). apply wrap_small. unfold unsigned_range; lia. }
  reflexivity.
Qed.

Lemma length_first q i c :
  IS_NUM c = true -> flag_on F_CONTENTLENGTH q = false ->
  first_char q h_content_length i c (set_content_length (digit_of c) (raise F_CONTENTLENGTH q)) h_content_length_num.
Proof.
  intros Hc Hf st nr n k t. unfold header_value_start.
  rewrite (xb _ _ _ tt (loc (hq q h_content_length i) st nr s_header_value_discard_ws n k c (Some (cb_header_value, k)) t)) by done.
  rewrite (xb _ _ _ tt (loc (hq q h_content_length i) st nr s_header_value n k c (Some (cb_header_value, k)) t)) by done.
  rewrite (xb _ _ _ tt (loc (hq q h_content_length 0) st nr s_header_value n k c (Some (cb_header_value, k)) t)) by done.
  cbv zeta.
  rewrite (xb _ _ _ h_content_length (loc (hq q h_content_length 0) st nr s_header_value n k c (Some (cb_header_value, k)) t)) by done.
  cbv iota. rewrite Hc. cbn [negb only_if].
  rewrite (xb _ _ _ tt (loc (hq (set_content_length (digit_of c) (raise F_CONTENTLENGTH q)) h_content_length_num 0) st nr s_header_value n k c
    (Some (cb_header_value, k)) t)); [done|].
  rewrite (xb _ _ _ tt (loc (hq q h_content_length 0) st nr s_header_value n k c (Some (cb_header_value, k)) t)) by done.
  rewrite (xb _ _ _ false (loc (hq q h_content_length 0) st nr s_header_value n k c (Some (cb_header_value, k)) t)); [done|].
  unfold the. by f_equal; f_equal.
Qed.
End values.

(** ** The header *)

Lemma raise_0 q : 0 <= pr_flags q < 256 -> raise 0 q = q.
Proof.
  intros Hf. unfold raise, set_flags. rewrite Z.lor_0_r, wrap_small by (unfold unsigned_range; lia). by destruct q.
Qed.

(** A field, and the parser after its line. *)
Inductive reads_field (q : http_parser) : str * str -> http_parser -> Prop :=
| reads_plain name val :
    is_name name -> is_value val -> special (name_state (tokens_of name)) = false -> reads_field q (name, val) q
| reads_keep_alive name :
    is_name name -> name_state (tokens_of name) = h_connection ->
    reads_field q (name, lit "keep-alive") (raise F_CONNECTION_KEEP_ALIVE q)
| reads_close name :
    is_name name -> name_state (tokens_of name) = h_connection -> reads_field q (name, lit "close") (raise F_CONNECTION_CLOSE q)
| reads_length name ds :
    is_name name -> name_state (tokens_of name) = h_content_length -> flag_on F_CONTENTLENGTH q = false ->
    ds <> [] -> is_digits ds -> digits_value 0 ds < 10 ^ 18 ->
    reads_field q (name, ds) (set_content_length (digits_value 0 ds) (raise F_CONTENTLENGTH q)).

Inductive reads_fields : http_parser -> list (str * str) -> http_parser -> Prop :=
| reads_none q : reads_fields q [] q
| reads_more q f fs q1 q2 : reads_field q f q1 -> reads_fields q1 fs q2 -> reads_fields q (f :: fs) q2.

(** A parser that has no error. *)
Definition fine (rq : bool) (q : http_parser) : Prop := pr_errno q = HPE_OK /\ 0 <= pr_flags q < 256 /\ is_request q = rq.

Lemma fine_raise rq f q : fine rq q -> fine rq (raise f q).
Proof. intros (H1 & _ & H3). split; [done|]. split; [|done]. apply (Z.mod_pos_bound _ 256). lia. Qed.

Lemma reads_fine rq q f q' : reads_field q f q' -> fine rq q -> fine rq q'.
Proof. destruct 1; intros Hq; [done|by apply fine_raise..|]. by destruct (fine_raise rq F_CONTENTLENGTH q Hq) as (? & ? & ?). Qed.

Lemma digits_values ds : is_digits ds -> Forall (fun c => value_byte c = true) ds.
Proof. intros H. eapply Forall_impl; [exact H|]. intros c. destruct c; vm_compute; congruence. Qed.

Section header.
Context (rq : bool) (data : str).
Abbreviation mx := HTTP_MAX_HEADER_SIZE.
Abbreviation exec := (reexecute (settings_of rq) mx data false).
Abbreviation conf := (HttpRuns.conf data).
Abbreviation leads := (HttpRuns.leads rq data).
Abbreviation line_start := (HttpFields.line_start data).

Lemma run_reads q f q' n k rest tr x :
  reads_field q f q' -> fine rq q -> 0 <= n -> n + Z.of_nat (length (line f.1 f.2)) <= mx ->
  line_start q n k (line f.1 f.2 ++ rest) tr x ->
  leads x (line_start q' (n + Z.of_nat (length (line f.1 f.2))) (k + length (line f.1 f.2)) rest
    (tr ++ [on_header_field f.1; on_header_value f.2])).
Proof.
  intros Hf Hq Hn Hmx Hl. assert (Hq' := reads_fine rq _ _ _ Hf Hq).
  destruct Hf as [name val Hname Hval Hs|name Hname Hs|name Hname Hs|name ds Hname Hs Hgiven Hne Hds Hv]; cbn [fst snd] in *.
  - rewrite <- (raise_0 q) by apply Hq. destruct Hval as (c & cs & -> & Hval).
    eapply (run_field rq data q name c cs q h_general q h_general 0); try done; [by exists c, cs|apply Hq..| |apply walk_general].
    intros i. apply plain_first; [apply name_state_field|done].
  - eapply (run_field rq data q name "k" (lit "eep-alive") q _ q h_connection_keep_alive 9); try done;
      [by eexists _, _; split; [reflexivity|]; split; [done|]; repeat constructor|apply Hq..| |apply keep_alive_walk].
    intros i. rewrite Hs. apply keep_alive_first.
  - eapply (run_field rq data q name "c" (lit "lose") q _ q h_connection_close 4); try done;
      [by eexists _, _; split; [reflexivity|]; split; [done|]; repeat constructor|apply Hq..| |apply close_walk].
    intros i. rewrite Hs. apply close_first.
  - destruct ds as [|c ds]; [done|]. pose proof (Forall_inv Hds) as Hc. apply Forall_cons in Hds as [_ Hds'].
    change (digits_value 0 (c :: ds)) with (digits_value (digit_of c) ds) in *.
    rewrite <- (raise_0 (set_content_length _ _)) by apply Hq'.
    set (q1 := raise F_CONTENTLENGTH q).
    eapply (run_field rq data q name c ds (set_content_length (digit_of c) q1) h_content_length_num
      (set_content_length (digits_value (digit_of c) ds) q1) h_content_length_num 0); try done; [|apply Hq..| |apply digits_walk; [|done|unfold length_limit; lia]].
    + exists c, ds. split; [done|]. split; [revert Hc; by destruct c|]. apply digits_values. by constructor.
    + intros i. rewrite Hs. by apply length_first.
    + by apply digit_of_range in Hc as [? _].
Qed.

Lemma run_fields q fs q' n k rest tr x :
  reads_fields q fs q' -> fine rq q -> 0 <= n -> n + Z.of_nat (length (text_of fs)) <= mx ->
  line_start q n k (text_of fs ++ rest) tr x ->
  leads x (line_start q' (n + Z.of_nat (length (text_of fs))) (k + length (text_of fs)) rest (tr ++ header_callbacks fs)).
Proof.
  intros Hr. revert n k tr x. induction Hr as [q|q f fs q1 q2 Hf _ IH]; intros n k tr x Hq Hn Hmx Hl.
  - unfold text_of, header_callbacks. cbn [fmap list_fmap concat length]. rewrite Z.add_0_r, Nat.add_0_r, app_nil_r. by apply leads_now.
  - change (text_of (f :: fs)) with (line f.1 f.2 ++ text_of fs) in *. rewrite length_app in *. rewrite <- app_assoc in Hl.
    eapply leads_trans; [eapply run_reads; [exact Hf|exact Hq|exact Hn|lia|exact Hl]|].
    intros x1 H1. change (header_callbacks (f :: fs)) with ([on_header_field f.1; on_header_value f.2] ++ header_callbacks fs).
    rewrite app_assoc. replace (n + Z.of_nat (length (line f.1 f.2) + length (text_of fs))) with
      (n + Z.of_nat (length (line f.1 f.2)) + Z.of_nat (length (text_of fs))) by lia.
    rewrite Nat.add_assoc. apply IH; [by eapply reads_fine|lia|lia|done].
Qed.

(** ** The end of the header, and the body *)

(** A message that is neither chunked, nor an upgrade, nor a CONNECT. *)
Definition plain_message q : Prop :=
  fine rq q /\ flag_on F_TRAILING q = false /\ flag_on F_CHUNKED q = false /\ flag_on F_UPGRADE q = false /\
  flag_on F_SKIPBODY q = false /\ (pr_method q =? HTTP_CONNECT) = false.

Lemma plain_norm q q' : norm q' = norm q -> plain_message q -> plain_message q'.
Proof.
  intros E. change (plain_message q) with (plain_message (norm q)). rewrite <- E. done.
Qed.

Definition headers_complete_of q : http_callback :=
  on_headers_complete (pr_http_major q) (pr_http_minor q) (if is_request q then pr_method q else pr_status_code q).

Lemma headers_almost_done_run q st nr n k t :
  plain_message q ->
  exists e, headers_almost_done (settings_of rq) LF (loc q st nr s_headers_almost_done n k LF None t) =
  (inl Reexecute, loc (set_upgrade false q) st nr s_headers_done n k LF None (t ++ [e])) /\ seen e = headers_complete_of q.
Proof.
  intros ((Hok & _ & Hreq) & H1 & H2 & H3 & H4 & H5). exists (Notify cb_headers_complete (set_nread nr (set_state st (set_upgrade false q)))).
  split; [|done].
  unfold headers_almost_done. rewrite (xb _ _ _ tt (loc q st nr s_headers_almost_done n k LF None t)) by done. xstep. cbn [parser loc].
  change (flag_on F_TRAILING _) with (flag_on F_TRAILING q). rewrite H1.
  change (flag_on F_CHUNKED _) with (flag_on F_CHUNKED q). rewrite H2. cbn [andb only_if].
  rewrite (xb _ _ _ tt (loc q st nr s_headers_almost_done n k LF None t)) by done.
  rewrite (xb _ _ _ tt (loc q st nr s_headers_done n k LF None t)) by done.
  rewrite (xb _ _ _ tt (loc (set_upgrade false q) st nr s_headers_done n k LF None t)).
  2:{ unfold with_parser, upd, x_parser. cbn [parser loc].
      change (flag_on F_UPGRADE _) with (flag_on F_UPGRADE q). rewrite H3. cbn [andb].
      change (pr_method (set_nread _ _)) with (pr_method q). by rewrite H5. }
  xstep. cbn [p loc]. rewrite on_notify_0.
  rewrite (xb _ _ _ tt (loc (set_upgrade false q) st nr s_headers_done n k LF None
    (t ++ [Notify cb_headers_complete (set_nread nr (set_state st (set_upgrade false q)))]))) by done.
  xstep. change (is_ok _) with (is_ok q). unfold is_ok. by rewrite Hok.
Qed.

Lemma headers_done_run q st nr n k t :
  plain_message q -> pr_upgrade q = false -> pr_content_length q <> 0 ->
  headers_done (settings_of rq) LF (loc q st nr s_headers_done n k LF None t) =
  (inl Break,
   if pr_content_length q =? ULLONG_MAX
   then if http_message_needs_eof q then loc q st 0 s_body_identity_eof 0 k LF None t
        else loc q (NEW_MESSAGE q) 0 (NEW_MESSAGE q) 0 k LF None
          (t ++ [Notify cb_message_complete (set_nread 0 (set_state (NEW_MESSAGE q) q))])
   else loc q st 0 s_body_identity 0 k LF None t).
Proof.
  intros ((Hok & _ & Hreq) & H1 & H2 & H3 & H4 & H5) Hup Hv.
  unfold headers_done. rewrite (xb _ _ _ tt (loc q st nr s_headers_done n k LF None t)) by done.
  rewrite (xb _ _ _ tt (loc q st 0 s_headers_done 0 k LF None t)) by done.
  rewrite (xb _ _ _ (set_nread 0 (set_state st q)) (loc q st 0 s_headers_done 0 k LF None t)) by done. cbv zeta.
  change (pr_upgrade (set_nread 0 (set_state st q))) with (pr_upgrade q). rewrite Hup. cbn [andb].
  change (flag_on F_SKIPBODY (set_nread 0 (set_state st q))) with (flag_on F_SKIPBODY q). rewrite H4.
  change (flag_on F_CHUNKED (set_nread 0 (set_state st q))) with (flag_on F_CHUNKED q). rewrite H2.
  change (pr_content_length (set_nread 0 (set_state st q))) with (pr_content_length q). rewrite (proj2 (Z.eqb_neq _ _) Hv).
  destruct (Z.eqb_spec (pr_content_length q) ULLONG_MAX) as [Ev|Ev]; cbn [negb]; [|done].
  change (http_message_needs_eof (set_nread 0 (set_state st q))) with (http_message_needs_eof q).
  destruct (http_message_needs_eof q); [done|]. cbn [negb]. unfold message_complete. rewrite x_assoc. xstep. cbn [parser loc]. rewrite x_assoc.
  change (NEW_MESSAGE (set_nread 0 (set_state st q))) with (NEW_MESSAGE q).
  rewrite (xb _ _ _ tt (loc q st 0 (NEW_MESSAGE q) 0 k LF None t)) by done.
  unfold CALLBACK_NOTIFY. rewrite x_assoc. xstep. erewrite xb by (apply notify_0; unfold is_ok; cbn; by rewrite Hok).
  done.
Qed.

Lemma body_run q st nr n k c body t :
  plain_message q -> pr_upgrade q = false -> pr_content_length q = Z.of_nat (length body) -> body <> [] ->
  Z.of_nat (length body) < 10 ^ 18 -> (k + length body <= length data)%nat -> slice k (length body) data = body ->
  exists q' s e, pr_errno q' = HPE_OK /\ pr_upgrade q' = false /\ seen <$> e = [on_body body; on_message_complete] /\
    exec 5 (loc q st nr s_body_identity n k c None t) = (inl tt, loc q' s nr s n (pred (k + length body)) c None (t ++ e)).
Proof.
  intros ((Hok & _) & _) Hup Hv Hne Hmax Hk Hb. assert (Hpos : (0 < length body)%nat) by (destruct body; [done|cbn; lia]).
  set (q1 := set_content_length 0 q). set (s1 := NEW_MESSAGE q1). set (b := pred (k + length body)).
  exists q1, s1, [Data cb_body body (set_nread nr (set_state s_message_done q1)); Notify cb_message_complete (set_nread nr (set_state s1 q1))].
  split_and!; [done|done|done|].
  rewrite (exec_again rq data 4 _ (loc q1 s_message_done nr s_message_done n b c None (t ++ [Data cb_body body (set_nread nr (set_state s_message_done q1))]))).
  - apply exec_break. unfold switch. do 2 xstep. cbn [p_state ch loc HttpExecute.body]. unfold message_complete.
    rewrite x_assoc. xstep. rewrite x_assoc. cbn [parser loc]. change (NEW_MESSAGE (set_nread nr (set_state s_message_done q1))) with s1.
    rewrite (xb _ _ _ tt (loc q1 s_message_done nr s1 n b c None (t ++ [Data cb_body body (set_nread nr (set_state s_message_done q1))]))) by done.
    unfold CALLBACK_NOTIFY. rewrite x_assoc. xstep. erewrite xb by (apply notify_0; unfold is_ok; cbn; by rewrite Hok).
    xstep. xstep. cbn [parser x_called x_event x_parser]. change (pr_upgrade _) with (pr_upgrade q). rewrite Hup.
    change (_ ++ [?a; ?b]) with (t ++ [a] ++ [b]). by rewrite app_assoc.
  - unfold switch. do 2 xstep. cbn [p_state ch loc HttpExecute.body]. unfold take_body. rewrite x_assoc.
    rewrite (xb _ _ _ (Z.of_nat (length body)) (loc q st nr s_body_identity n k c None t)) by (rewrite <- Hv; done).
    rewrite x_assoc. xstep. cbn [p loc]. cbv zeta. unfold HttpExecute.len.
    assert (Z.min (Z.of_nat (length body)) (Z.of_nat (length data - k)) = Z.of_nat (length body)) as -> by lia.
    rewrite x_assoc, (xb _ _ _ tt (loc q st nr s_body_identity n k c None t)).
    2:{ assert ((Z.of_nat (length body) =? 0) = false) as -> by lia.
        assert ((Z.of_nat (length body) =? ULLONG_MAX) = false) as -> by (unfold ULLONG_MAX; lia). done. }
    rewrite x_assoc, (xb _ _ _ tt (loc q st nr s_body_identity n k c (Some (cb_body, k)) t)) by done.
    rewrite x_assoc, (xb _ _ _ tt (loc q1 st nr s_body_identity n k c (Some (cb_body, k)) t)) by (rewrite Z.sub_diag; done).
    rewrite (xb _ _ _ tt (loc q1 st nr s_body_identity n b c (Some (cb_body, k)) t)).
    2:{ unfold upd, x_p, loc. cbn [p]. rewrite Nat2Z.id. by replace (k + length body - 1)%nat with b by lia. }
    rewrite (xb _ _ _ 0 (loc q1 st nr s_body_identity n b c (Some (cb_body, k)) t)) by done. xstep. cbn [p loc]. cbn [Z.eqb].
    rewrite (xb _ _ _ tt (loc q1 st nr s_message_done n b c (Some (cb_body, k)) t)) by done.
    erewrite xb by (apply (data_0 _ _ _ _ _ _ k body); [unfold is_ok; cbn; by rewrite Hok|done|lia|lia| |done];
      replace (Z.to_nat (Z.of_nat b - Z.of_nat k + 1)) with (length body) by lia; done).
    done.
Qed.

(** The body to the end of the message. *)
Lemma run_body q body n k rest tr x :
  plain_message q -> pr_upgrade q = false -> pr_content_length q = Z.of_nat (length body) -> body <> [] ->
  Z.of_nat (length body) < 10 ^ 18 -> conf q s_body_identity n k (body ++ rest) None tr x ->
  leads x (fun x => exists q' s, pr_errno q' = HPE_OK /\ pr_upgrade q' = false /\
    conf q' s n (k + length body) rest None (tr ++ [on_body body; on_message_complete]) x).
Proof.
  intros Hq Hup Hv Hne Hmax Hc. destruct (rest_app data k body rest (proj1 Hc)) as [Hd Hslice].
  assert (Hle : (k + length body <= length data)%nat).
  { assert (length (drop k data) = length (body ++ rest)) as El by by rewrite (proj1 Hc). rewrite length_drop, length_app in El.
    destruct body; [done|]. cbn [length] in *. lia. }
  destruct body as [|c cs]; [done|]. set (body := c :: cs) in *. change (body ++ rest) with (c :: cs ++ rest) in Hc.
  eapply byte_in_body; [exact Hc|done|]. intros st nr t Ht.
  destruct (body_run q st nr n k c body t Hq Hup Hv Hne Hmax Hle Hslice) as (q' & s & e & Hok & Hup' & He & Hrun).
  eexists. split; [exact Hrun|]. split; [cbn [p loc]; unfold body; cbn [length]; lia|]. exists q', s. split_and!; [done|done|].
  split; [done|]. exists s, nr, c, (t ++ e). split; [|by rewrite fmap_app, Ht, He].
  unfold x_p, loc. cbn [p]. f_equal. unfold body. cbn [length]. lia.
Qed.

(** The line feed of the empty line: the header is complete. *)
Lemma run_headers_done q n k rest tr x :
  plain_message q -> pr_content_length q <> 0 -> 0 <= n -> n + 1 <= mx ->
  conf q s_headers_almost_done n k (LF :: rest) None tr x ->
  let q' := set_upgrade false q in
  leads x (if pr_content_length q =? ULLONG_MAX
           then if http_message_needs_eof q then conf q' s_body_identity_eof 0 (S k) rest None (tr ++ [headers_complete_of q])
                else conf q' (NEW_MESSAGE q') 0 (S k) rest None (tr ++ [headers_complete_of q; on_message_complete])
           else conf q' s_body_identity 0 (S k) rest None (tr ++ [headers_complete_of q])).
Proof.
  intros Hq Hv Hn Hmx Hc q'. eapply byte_in_header; [exact Hc|done|lia|lia|]. intros st nr t Ht.
  destruct (headers_almost_done_run q st nr (n + 1) k t Hq) as (e & He & Hs).
  eexists. split.
  { rewrite (exec_again rq data 4 _ (loc q' st nr s_headers_done (n + 1) k LF None (t ++ [e]))) by (unfold switch; do 2 xstep; exact He).
    apply exec_break. unfold switch. do 2 xstep. cbn [p_state ch loc]. by apply headers_done_run. }
  pose proof (rest_lookup _ _ _ _ (proj1 Hc)) as (_ & _ & Hd). change (pr_content_length q') with (pr_content_length q).
  change (http_message_needs_eof q') with (http_message_needs_eof q).
  destruct (pr_content_length q =? ULLONG_MAX); [destruct (http_message_needs_eof q)|]; (split; [done|]; split; [exact Hd|]).
  - exists st, 0, LF, (t ++ [e]). split; [done|]. rewrite fmap_app. cbn. by rewrite Ht, Hs.
  - exists (NEW_MESSAGE q'), 0, LF, ((t ++ [e]) ++ [Notify cb_message_complete (set_nread 0 (set_state (NEW_MESSAGE q') q'))]).
    split; [done|]. rewrite !fmap_app. cbn. by rewrite Ht, Hs, <- app_assoc.
  - exists st, 0, LF, (t ++ [e]). split; [done|]. rewrite fmap_app. cbn. by rewrite Ht, Hs.
Qed.

(** From the empty line to the end of the message. *)
Lemma run_message_end q body n k rest tr x :
  plain_message q -> pr_content_length q = (if bool_decide (body = []) then ULLONG_MAX else Z.of_nat (length body)) ->
  Z.of_nat (length body) < 10 ^ 18 -> 0 <= n -> n + 2 <= mx ->
  line_start q n k (crlf ++ body ++ rest) tr x ->
  leads x (fun x => exists q' s n', pr_errno q' = HPE_OK /\ pr_upgrade q' = false /\
    conf q' s n' (k + 2 + length body) rest None
      (tr ++ [headers_complete_of q] ++ (if bool_decide (body = []) then [] else [on_body body]) ++
        (if bool_decide (body = []) && http_message_needs_eof q then [] else [on_message_complete])) x).
Proof.
  intros Hq Hv Hmax Hn Hmx Hl.
  assert (Hd : drop k data = CR :: LF :: body ++ rest) by by destruct Hl as [(q0 & _ & [Hd _])|(q0 & _ & [Hd _])].
  destruct (rest_lookup _ _ _ _ Hd) as (_ & _ & Hd1).
  eapply (leads_trans rq data x (fun x => exists q', norm q' = norm q /\ conf q' s_headers_almost_done (n + 1) (S k) (LF :: body ++ rest) None tr x)).
  { eapply line_byte; [exact Hl|done|done|lia|]. intros fuel q' st nr t Hf Hq' Ht. destruct fuel as [|fuel]; [lia|].
    exists (loc q' st nr s_headers_almost_done (n + 1) k CR None t). split; [by apply exec_break|]. split; [done|].
    exists q'. split; [done|]. split; [done|]. by exists st, nr, CR, t. }
  intros x1 (q' & Hqq & H1). pose proof (plain_norm q q' Hqq Hq) as Hq'.
  assert (Hv' : pr_content_length q' = pr_content_length q) by (change (pr_content_length (norm q') = pr_content_length (norm q)); by rewrite Hqq).
  assert (Hhc : headers_complete_of q' = headers_complete_of q) by (change (headers_complete_of (norm q') = headers_complete_of (norm q)); by rewrite Hqq).
  assert (Heof : http_message_needs_eof q' = http_message_needs_eof q)
    by (change (http_message_needs_eof (norm q') = http_message_needs_eof (norm q)); by rewrite Hqq).
  assert (Hne : pr_content_length q' <> 0).
  { rewrite Hv', Hv. unfold ULLONG_MAX. case_bool_decide; [lia|]. destruct body; [done|cbn; lia]. }
  eapply leads_trans; [eapply (run_headers_done q' (n + 1) (S k)); [exact Hq'|exact Hne|lia|lia|exact H1]|]. clear H1.
  rewrite Hv', Hv, Hhc, Heof. intros x2 H2. destruct (bool_decide (body = [])) eqn:Eb.
  - apply bool_decide_eq_true in Eb as ->. rewrite Z.eqb_refl in H2. apply leads_now. cbn [length app andb] in *. replace (k + 2 + 0)%nat with (S (S k)) by lia.
    destruct (http_message_needs_eof q); [exists (set_upgrade false q'), s_body_identity_eof, 0|
      exists (set_upgrade false q'), (NEW_MESSAGE (set_upgrade false q')), 0]; (split; [apply Hq'|]; split; [done|]; exact H2).
  - apply bool_decide_eq_false in Eb. assert ((Z.of_nat (length body) =? ULLONG_MAX) = false) as E by (unfold ULLONG_MAX; lia). rewrite E in H2.
    replace (k + 2 + length body)%nat with (S (S k) + length body)%nat by lia.
    eapply leads_trans; [eapply (run_body (set_upgrade false q') body); [exact Hq'|done|exact (eq_trans Hv' Hv)|exact Eb|exact Hmax|exact H2]|].
    intros x3 (q3 & s3 & Hok & Hup & H3). apply leads_now. exists q3, s3, 0. split; [done|]. split; [done|].
    cbn [app]. by rewrite <- app_assoc in H3.
Qed.
End header.
