(* ===== verification/HttpMethodTheorems.v ===== *)
(** * The HTTP grammar: methods

    Which methods [http_parser_execute] accepts. *)

From S2P Require Import Prelude Http HttpTheorems HttpGrammar HttpExecute HttpGrammarTheorems HttpWords HttpSession HttpParsing HttpRuns.
#[local] Set Default Goal Selector "!".

(** ** Methods *)

Section methods.
Context (data : str).
Abbreviation mx := HTTP_MAX_HEADER_SIZE.
Abbreviation loop := (main_loop (settings_of true) mx data false).
Abbreviation exec := (reexecute (settings_of true) mx data false).
Abbreviation conf := (HttpRuns.conf data).
Abbreviation leads := (HttpRuns.leads true data).
Implicit Types (x : locals) (q : http_parser).

Abbreviation breaks := (HttpRuns.breaks true data).

Lemma method_reads_matcher m w : reads m w -> is_Some (matcher_at m (Z.of_nat (length w))).
Proof.
  intros (_ & name & Hn & Ht). unfold matcher_at. rewrite Hn. cbn [mbind option_bind]. rewrite Nat2Z.id.
  apply lookup_lt_is_Some_2. rewrite length_app. cbn [length]. apply (f_equal length) in Ht. rewrite length_take in Ht. lia.
Qed.

Lemma reads_bounds m w : reads m w -> 0 <= m < 34 /\ (length w < 50)%nat.
Proof.
  intros (Hm & name & Hn & Ht). pose proof (lookup_lt_Some _ _ _ Hn) as Hl. change (length method_strings) with 34%nat in Hl. split; [lia|].
  pose proof (proj1 (Forall_lookup _ _) method_short _ _ Hn) as Hs. cbv beta in Hs. apply (f_equal length) in Ht. rewrite length_take in Ht. lia.
Qed.

Lemma method_word_reads w m : is_word w -> method_word w = Some m -> reads m w /\ w <> [].
Proof.
  intros Hw. unfold method_word. destruct w as [|c cs]; [done|]. destruct (first_method c) as [m0|] eqn:Ef; [|done]. cbn [mbind option_bind].
  destruct (method_run m0 1 cs) as [m1|] eqn:Er; [|done]. cbn [mbind option_bind]. case_bool_decide; [|done]. intros [= <-].
  apply Forall_cons in Hw as [_ Hcs]. split; [|done]. by apply (method_run_reads m0 [c] cs m1 Hcs (first_method_reads c m0 Ef)).
Qed.

Lemma no_space m i : matcher_at m i <> Some " "%byte.
Proof.
  unfold matcher_at. destruct (method_strings !! Z.to_nat m) as [name|] eqn:Hn; [|done]. cbn [mbind option_bind].
  pose proof (proj1 (Forall_lookup _ _) method_wordy _ _ Hn) as Hw. intros Hl. apply lookup_app_Some in Hl as [Hl|[_ Hl]].
  - by apply (proj1 (Forall_lookup _ _) Hw) in Hl as [_ ?].
  - apply list_lookup_singleton_Some in Hl as [_ [=]].
Qed.

(** A character no method has there, the space included. *)
Lemma method_error q m i c d st nr n k ms t :
  0 <= m < 34 -> 0 <= i < 100 -> c <> x00 -> matcher_at m i = Some d ->
  (c = " "%byte -> d <> x00) -> method_next m i c = None ->
  exists x', exec 5 (loc (at_method q m i) st nr s_req_method n k c ms t) = (inr goto_error, x') /\ pr_errno (parser x') = HPE_INVALID_METHOD.
Proof.
  intros Hm Hi H0 Hd Hsp Hn. eapply exec_error.
  - unfold switch. do 2 xstep. cbn [p_state ch loc]. unfold req_method.
    assert (eqc c x00 = false) as -> by (unfold eqc; by rewrite bool_decide_false). cbn [only_if].
    rewrite (xb _ _ _ tt (loc (at_method q m i) st nr s_req_method n k c ms t)) by done.
    rewrite (xb _ _ _ m (loc (at_method q m i) st nr s_req_method n k c ms t))
      by (unfold the; cbn; by rewrite (wrap_small 8 m) by (unfold unsigned_range; lia)).
    rewrite (xb _ _ _ i (loc (at_method q m i) st nr s_req_method n k c ms t))
      by (unfold the; cbn; by rewrite (wrap_small 7 i) by (unfold unsigned_range; lia)).
    rewrite Hd. unfold method_next in Hn. rewrite Hd in Hn.
    assert (eqc c " " && eqc d x00 = false) as ->.
    { unfold eqc. destruct (decide (c = " "%byte)) as [->|]; [|by rewrite bool_decide_false].
      rewrite (bool_decide_false (d = x00)) by by apply Hsp. apply andb_false_r. }
    destruct (eqc c d); [done|]. destruct (between 65 90 c || eqc c "-"); [rewrite Hn|]; reflexivity.
  - done.
Qed.

Lemma start_error q c st nr n k t :
  eqc c CR = false -> eqc c LF = false -> first_method c = None ->
  exists x', exec 5 (loc q st nr s_start_req n k c None t) = (inr goto_error, x') /\ pr_errno (parser x') = HPE_INVALID_METHOD.
Proof.
  intros Hcr Hlf Hf. destruct (IS_ALPHA c) eqn:Ha; (eapply exec_error;
    [unfold switch; do 2 xstep; cbn [p_state ch loc]; unfold start_req; rewrite Hcr, Hlf, Ha, Hf; reflexivity|done]).
Qed.

Lemma rest_breaks q m w0 cs n k rest ms tr x :
  Forall (fun c => c <> x00 /\ c <> " "%byte) cs -> reads m w0 -> w0 <> [] -> 0 <= n -> n + Z.of_nat (length cs) + 1 <= mx ->
  (forall m', method_run m (Z.of_nat (length w0)) cs = Some m' -> matcher_at m' (Z.of_nat (length (w0 ++ cs))) <> Some x00) ->
  conf (at_method q m (Z.of_nat (length w0))) s_req_method n k (cs ++ " "%byte :: rest) ms tr x ->
  breaks HPE_INVALID_METHOD x.
Proof.
  intros Hcs. revert m w0 n k x. induction Hcs as [|c cs [H0 Hsp] _ IH]; intros m w0 n k x Hr Hne Hn Hmx Hno Hc.
  all: destruct (method_reads_matcher m w0 Hr) as [d Hd]; destruct (reads_bounds m w0 Hr) as [Hm Hi].
  - specialize (Hno m eq_refl). rewrite app_nil_r in Hno. eapply byte_breaks; [exact Hc|done|done|cbn in Hmx; lia|].
    intros. eapply (method_error q m _ " " d); [done|lia|done|done|congruence|].
    unfold method_next. rewrite Hd. unfold eqc. rewrite bool_decide_false; [done|]. intros <-.
    by apply (no_space m _ Hd).
  - cbn [length app method_run] in *. destruct (method_next m (Z.of_nat (length w0)) c) as [m1|] eqn:En.
    + cbn [mbind option_bind] in Hno. apply leads_breaks. eapply leads_trans.
      { eapply byte_step_plain; [exact Hc|done|done|lia|]. intros. apply req_method_next; [done|lia|done|done|exact En]. }
      intros x1 H1. apply leads_now. assert (El : Z.of_nat (length w0) + 1 = Z.of_nat (length (w0 ++ [c]))) by (rewrite length_app; cbn; lia).
      rewrite El in *. apply (IH m1 (w0 ++ [c]) (n + 1) (S k)); try done; try lia.
      * by eapply method_next_reads.
      * by destruct w0.
      * intros m' Hm'. rewrite <- app_assoc. by apply Hno.
    + eapply byte_breaks; [exact Hc|done|done|lia|]. intros. by eapply (method_error q m _ c d); [done|lia|..].
Qed.
End methods.

(** C21: The methods a request may begin with are the 34 of the table, and no other word: after a word and a
    space, the parser has the number of the word in the table, or the error on methods when it is not
    there.  The word is recognized without being kept: from its first letter the parser guesses a method,
    and corrects the guess at the characters where methods part. *)
Theorem methods_recognized w :
  w <> [] -> wordy w -> eqc (hd x00 w) CR || eqc (hd x00 w) LF = false -> Z.of_nat (length w) < HTTP_MAX_HEADER_SIZE ->
  exists r q t,
    http_parser_execute s_request_settings HTTP_MAX_HEADER_SIZE (http_parser_init HTTP_REQUEST) (w ++ lit " ") = (Ok r, q, t) /\
    (forall m, 0 <= m -> method_strings !! Z.to_nat m = Some w ->
       r = S (length w) /\ pr_errno q = HPE_OK /\ pr_method q = m /\ pr_state q = s_req_spaces_before_url) /\
    ((forall m, method_strings !! m <> Some w) -> pr_errno q = HPE_INVALID_METHOD).
Proof.
  intros Hne Hw Hfirst Hl. set (data := w ++ lit " ").
  assert (Hword : is_word w) by (eapply Forall_impl; [exact Hw|]; by intros c [? _]).
  assert (Hc0 : conf data (http_parser_init HTTP_REQUEST) s_start_req 0 0 (w ++ " "%byte :: []) None [] (entry (http_parser_init HTTP_REQUEST)))
    by (split; [done|]; by exists s_start_req, 0, x00, []).
  destruct (method_word w) as [m|] eqn:Em.
  - assert (Hm : 0 <= m < 34 /\ (length w < 50)%nat) by (destruct (method_word_reads w m Hword Em); by eapply reads_bounds).
    pose proof (proj1 (method_word_exact w m Hword (proj1 (proj1 Hm))) Em) as Htab.
    destruct (execute_ends true data (fun q s => q = at_method (new_message (http_parser_init HTTP_REQUEST)) m (Z.of_nat (length w) + 1) /\
      s = s_req_spaces_before_url) [message_begin]) as (q & s & n & t & [-> ->] & Hx & _).
    { unfold data. by destruct w. }
    { eapply leads_trans; [eapply (run_method true data (http_parser_init HTTP_REQUEST) w m 0 0 []); [done|done|done|lia|lia|lia|exact Hc0]|].
      intros x1 H1. apply leads_now. eexists _, s_req_spaces_before_url, _. split; [by split|]. split; [done|].
      unfold data. rewrite length_app. exact H1. }
    eexists _, _, t. split; [exact Hx|]. split.
    + intros m2 Hm2 Htab2. assert (m2 = m) as -> by (apply (method_word_exact w m2 Hword Hm2) in Htab2; congruence).
      split; [unfold data; rewrite length_app; cbn; lia|]. split; [done|]. split; [|done].
      cbn. apply wrap_small. unfold unsigned_range. lia.
    + intros Hno. by destruct (Hno _ Htab).
  - destruct (call_breaks true data (http_parser_init HTTP_REQUEST) HPE_INVALID_METHOD) as (r & q & t & Hx & He); [unfold data; by destruct w|done|done|done|done| |].
    { destruct w as [|c cs]; [done|]. apply orb_false_iff in Hfirst as [Hcr Hlf]. cbn [hd] in Hcr, Hlf. pose proof (proj2 (proj1 (Forall_cons _ _ _) Hw)) as Hcs.
      destruct (first_method c) as [m0|] eqn:Ef.
      - apply leads_breaks. eapply leads_trans; [eapply (run_first true data (http_parser_init HTTP_REQUEST) c m0 0 0); [done|exact Ef|lia|cbn in *; lia|exact Hc0]|].
        intros x1 H1. apply leads_now. eapply (rest_breaks data _ m0 [c] cs (0 + 1)); [exact Hcs|by apply first_method_reads|done|lia|cbn in *; lia| |exact H1].
        intros m' Hrun He. unfold method_word in Em. rewrite Ef in Em. cbn [mbind option_bind] in Em.
        change (Z.of_nat (length [c])) with 1 in Hrun. rewrite Hrun in Em. cbn [mbind option_bind] in Em.
        by rewrite bool_decide_true in Em.
      - eapply byte_breaks; [exact Hc0|done|done|cbn in *; lia|]. intros st nr t. by apply start_error. }
    exists r, q, t. split; [exact Hx|]. split; [|done]. intros m Hm Htab. by apply (method_word_exact w m Hword Hm) in Htab; rewrite Em in Htab.
Qed.

(** ** Witnesses *)

Lemma methods_recognized_witness :
  (exists r q t, http_parser_execute s_request_settings HTTP_MAX_HEADER_SIZE (http_parser_init HTTP_REQUEST) (lit "PATCH" ++ lit " ") = (Ok r, q, t) /\
    pr_method q = 28) /\
  exists r q t, http_parser_execute s_request_settings HTTP_MAX_HEADER_SIZE (http_parser_init HTTP_REQUEST) (lit "PATH" ++ lit " ") = (Ok r, q, t) /\
    pr_errno q = HPE_INVALID_METHOD.
Proof.
  split.
  - destruct (methods_recognized (lit "PATCH")) as (r & q & t & Hx & Hm & _); [done|unfold wordy; by repeat constructor|done|done|].
    exists r, q, t. split; [exact Hx|]. by destruct (Hm 28 ltac:(lia) eq_refl) as (_ & _ & ? & _).
  - destruct (methods_recognized (lit "PATH")) as (r & q & t & Hx & _ & Hno); [done|unfold wordy; by repeat constructor|done|done|].
    exists r, q, t. split; [exact Hx|]. apply Hno. intros m Hm. apply list_elem_of_lookup_2 in Hm. revert Hm. by apply (bool_decide_unpack _).
Defined.
