(* ===== verification/HttpRequestTheorems.v ===== *)
(** * Requests sent and received: what the parser makes of the text of [dump] *)

From S2P Require Import Prelude Http HttpTheorems HttpGrammar HttpExecute HttpGrammarTheorems HttpWords HttpUrl HttpUrlTheorems HttpSession HttpSessionTheorems HttpParsing HttpParsingTheorems HttpRuns HttpFields HttpRoundTrip.
#[local] Set Default Goal Selector "!".

Abbreviation mx := HTTP_MAX_HEADER_SIZE.

(** ** The whole of a call *)

(** The parser after the first line. *)
Definition after_line (m a b i : Z) : http_parser :=
  set_http_minor b (set_http_major a (at_method (new_message (http_parser_init HTTP_REQUEST)) m i)).

(** The text of a request whose parts are well formed, and what the callbacks see. *)
Lemma request_executes m method url s' a b fs q body :
  0 <= m < 34 -> (m =? HTTP_CONNECT) = false -> method_strings !! Z.to_nat m = Some method ->
  (exists c cs, url = c :: cs /\ eqc c "/" || eqc c "*" = true /\ url_walk s_req_path cs = Some s') -> url_end s' = true ->
  parse_url url <> None -> 0 <= a <= 9 -> 0 <= b <= 9 ->
  reads_fields (after_line m a b (Z.of_nat (length method) + 1)) fs q -> plain_message true q ->
  pr_content_length q = (if bool_decide (body = []) then ULLONG_MAX else Z.of_nat (length body)) ->
  Z.of_nat (length body) < 10 ^ 18 ->
  let version := lit "HTTP/" ++ (digit_char a :: "."%byte :: digit_char b :: crlf) in
  let head := method ++ lit " " ++ url ++ lit " " ++ version ++ text_of fs ++ crlf in
  Z.of_nat (length head) <= mx ->
  exists q' t, http_parser_execute s_request_settings mx (http_parser_init HTTP_REQUEST) (head ++ body) =
      (Ok (length (head ++ body)), q', t) /\
    pr_errno q' = HPE_OK /\ pr_upgrade q' = false /\
    seen <$> t = [message_begin; on_url url] ++ header_callbacks fs ++ [headers_complete_of q] ++
      (if bool_decide (body = []) then [] else [on_body body]) ++ [on_message_complete].
Proof.
  intros Hm Hcon Hmethod Hurl Hs' Hparse Ha Hb Hfs Hq Hv Hmax version head Hmx.
  assert (Hlm : (length method < 50)%nat /\ wordy method /\ is_word method).
  { split_and!; [|apply (proj1 (Forall_lookup _ _) method_wordy _ _ Hmethod)|apply (proj1 (Forall_lookup _ _) names_words _ _ Hmethod)].
    apply (proj1 (Forall_lookup _ _) method_short _ _ Hmethod). }
  destruct Hlm as (Hshort & Hwordy & Hword).
  assert (Hcon' : (wrap 8 m =? HTTP_CONNECT) = false) by by rewrite wrap_small by (unfold unsigned_range; lia).
  set (data := head ++ body).
  assert (Hlen : length head = (length method + 1 + length url + 1 + 10 + length (text_of fs) + 2)%nat).
  { unfold head, version. rewrite !length_app. change (length (lit " ")) with 1%nat. change (length (lit "HTTP/")) with 5%nat.
    cbn [length]. change (length crlf) with 2%nat. lia. }
  assert (Hgoal : leads true data (entry (http_parser_init HTTP_REQUEST)) (fun x => exists q' s n,
    (pr_errno q' = HPE_OK /\ pr_upgrade q' = false) /\ pr_errno q' = HPE_OK /\ conf data q' s n (length data) [] None
      ([message_begin; on_url url] ++ header_callbacks fs ++ [headers_complete_of q] ++
       (if bool_decide (body = []) then [] else [on_body body]) ++ [on_message_complete]) x)).
  2:{ destruct (execute_ends true data (fun q' _ => pr_errno q' = HPE_OK /\ pr_upgrade q' = false) _ ltac:(unfold data, head; by destruct method) Hgoal) as (q' & s & n & t & [Hok Hup] & Hx & Ht).
      by exists (set_state s (set_nread n q')), t. }
  eapply leads_trans.
  { eapply (run_method true data (http_parser_init HTTP_REQUEST) method m 0 0
      (url ++ (" "%byte :: version ++ text_of fs ++ crlf ++ body)) []);
      [done|exact Hwordy|exact (proj2 (method_word_exact method m Hword (proj1 Hm)) Hmethod)|exact Hshort|lia|lia|].
    split; [|by exists s_start_req, 0, x00, []]. unfold data, head. rewrite drop_0, <- !app_assoc. done. }
  intros x1 H1. cbv beta in H1. eapply leads_trans.
  { eapply run_url; [..|exact H1]; [done|exact Hcon'|exact Hurl|exact Hs'|exact Hparse|lia|lia]. }
  clear H1. intros x2 H2. cbv beta in H2. unfold version in H2. rewrite <- app_assoc in H2. eapply leads_trans.
  { eapply (run_version true data _ a b _ _ (text_of fs ++ crlf ++ body)); [exact Ha|exact Hb| | |exact H2]; lia. }
  clear H2. intros x3 H3. cbv beta in H3. eapply leads_trans.
  { eapply (run_fields true data _ fs q); [exact Hfs|done| | |left; eexists; split; [reflexivity|exact H3]]; lia. }
  clear H3. intros x4 H4. cbv beta in H4. eapply leads_trans.
  { eapply (run_message_end true data q body _ _ []); [exact Hq|exact Hv|exact Hmax| | |rewrite app_nil_r; exact H4]; lia. }
  clear H4. intros x5 (q' & s & n & Hok & Hup & H5). apply leads_now. exists q', s, n. split; [done|]. split; [done|].
  assert (Heof : http_message_needs_eof q = false)
    by (destruct Hq as ((_ & _ & Hreq) & _); unfold http_message_needs_eof; by rewrite Hreq).
  rewrite Heof, andb_false_r in H5. revert H5. rewrite <- !app_assoc. unfold data. rewrite length_app, Hlen. cbn [app].
  match goal with |- HttpRuns.conf _ _ _ _ ?k _ _ _ _ -> _ =>
    replace k with (length method + 1 + length url + 1 + 10 + length (text_of fs) + 2 + length body)%nat by lia end. done.
Qed.

(** ** The parts of [dump] *)

Lemma ten_cases (P : Z -> Prop) :
  P 0 -> P 1 -> P 2 -> P 3 -> P 4 -> P 5 -> P 6 -> P 7 -> P 8 -> P 9 -> forall d, 0 <= d <= 9 -> P d.
Proof.
  intros. assert (d = 0 \/ d = 1 \/ d = 2 \/ d = 3 \/ d = 4 \/ d = 5 \/ d = 6 \/ d = 7 \/ d = 8 \/ d = 9) as Hd by lia.
  by repeat destruct Hd as [-> | Hd]; [done..|subst d].
Qed.

Lemma version_text_digits a b :
  0 <= a <= 9 -> 0 <= b <= 9 ->
  version_text (version_of a b) ++ crlf = lit "HTTP/" ++ (digit_char a :: "."%byte :: digit_char b :: crlf).
Proof.
  intros Ha Hb. revert a Ha. apply (ten_cases (fun a => version_text (version_of a b) ++ crlf = lit "HTTP/" ++ (digit_char a :: "."%byte :: digit_char b :: crlf)));
  revert b Hb; apply ten_cases; vm_compute; reflexivity.
Qed.

Lemma digit_is_num d : 0 <= d < 10 -> IS_NUM (digit d) = true /\ digit_of (digit d) = digit_val (digit d).
Proof. intros Hd. revert d Hd. enough (forall d, 0 <= d <= 9 -> IS_NUM (digit d) = true /\ digit_of (digit d) = digit_val (digit d)) by (intros; apply H; lia).
  apply ten_cases; by vm_compute. Qed.

Lemma print_dec_digits v :
  0 <= v < 10 ^ 18 -> print_dec v <> [] /\ is_digits (print_dec v) /\ digits_value 0 (print_dec v) = v.
Proof.
  intros Hv. unfold print_dec. assert ((v <? 0) = false) as -> by lia.
  destruct (print_uint_spec 10 v ltac:(lia) ltac:(lia)) as (Hval & Hds & Hne). split; [done|]. split.
  - eapply Forall_impl; [exact Hds|]. intros c (d & Hd & ->). by apply digit_is_num.
  - transitivity (of_digits 10 (print_uint 10 v)); [|exact Hval]. unfold digits_value, of_digits. generalize 0.
    clear -Hds. induction Hds as [|c ds (d & Hd & ->) _ IH]; intros w; [done|].
    cbn [fold_left]. rewrite (proj2 (digit_is_num d Hd)). apply IH.
Qed.

(** A name is compared without its case. *)
Lemma tokens_fold name : Forall is_token name -> tokens_of name = fold_key name.
Proof.
  intros Hn. unfold fold_key. rewrite c_str_id.
  - unfold tokens_of. induction Hn as [|c cs Hc _ IH]; [done|]. cbn. rewrite IH. f_equal.
    unfold is_token in Hc. revert Hc. clear. destruct c; vm_compute; congruence.
  - intros Hin. rewrite list_elem_of_In in Hin. rewrite List.Forall_forall in Hn. by apply (Hn _ Hin).
Qed.

Definition unknown_name (name : str) : Prop := fold_key name ∉ known_names.*1.

Lemma unknown_plain name : is_name name -> unknown_name name -> special (name_state (tokens_of name)) = false.
Proof.
  intros [_ Hn] Hu. rewrite tokens_fold by done. destruct (special (name_state (fold_key name))) eqn:Hs; [|done].
  exfalso. apply Hu. apply list_elem_of_fmap. exists (fold_key name, name_state (fold_key name)). split; [done|]. by apply name_state_exact.
Qed.

(** ** The map of the headers *)

Lemma set_all_find hs m k :
  ordered m ->
  map_find k (set_all hs m) =
  fold_left (fun o h => if bool_decide (fold_key k = fold_key h.1) then Some h.2 else o) hs (map_find k m).
Proof.
  revert m. induction hs as [|[f v] hs IH]; intros m Hm; [done|]. cbn [set_all fold_left].
  change (fold_left (fun m h => map_set h.1 h.2 m) hs (map_set f v m)) with (set_all hs (map_set f v m)).
  rewrite IH by by apply put_ordered. unfold map_set. by rewrite (find_put true).
Qed.

Lemma ordered_fold k m o :
  ordered m ->
  fold_left (fun o h => if bool_decide (fold_key k = fold_key h.1) then Some h.2 else o) m o =
  match map_find k m with Some v => Some v | None => o end.
Proof.
  intros Hm. revert o. induction Hm as [|[f v] m Hm IH Hf]; intros o; [done|]. cbn [fold_left fst snd]. rewrite IH, map_find_cons.
  case_bool_decide as Hk; [|done]. rewrite map_find_below; [done|]. by rewrite Hk.
Qed.

Lemma find_unknown k m : Forall (fun h => unknown_name h.1) m -> fold_key k ∈ known_names.*1 -> map_find k m = None.
Proof.
  intros Hm Hk. induction Hm as [|[f v] m Hf _ IH]; [done|]. rewrite map_find_cons, bool_decide_false; [exact IH|].
  intros E. apply Hf. cbn [fst]. by rewrite <- E.
Qed.

(** ** Sending and receiving *)

(** A header the grammar passes on. *)
Definition plain_header (h : str * str) : Prop := is_name h.1 /\ is_value h.2 /\ unknown_name h.1.

Record sendable (r : HttpRequest) : Prop := mkSendable {
  send_method : 0 <= m_method r < 34 /\ m_method r <> HTTP_CONNECT;
  send_version : exists a b, 0 <= a <= 9 /\ 0 <= b <= 9 /\ m_version r = version_of a b;
  send_url : is_path (m_path r) /\ is_tail (m_query r) /\ is_tail (m_fragment r) /\
    Z.of_nat (length (url_text (m_path r) (m_query r) (m_fragment r))) < 65536;
  send_headers : ordered (m_headers r) /\
    Forall plain_header (m_headers r);
  send_websocket : m_websocket r = false;
  send_body : Z.of_nat (length (m_body r)) < 10 ^ 18;
  send_size : Z.of_nat (length (dump r)) - Z.of_nat (length (m_body r)) <= mx
}.

(** The fields of the text. *)
Definition sent_fields (r : HttpRequest) : list (str * str) :=
  connection_field false (m_close r) ++ m_headers r ++ length_field (m_body r).

Lemma dump_text r a b :
  sendable r -> 0 <= a <= 9 -> 0 <= b <= 9 -> m_version r = version_of a b ->
  dump r = (HttpMethodToString (m_method r) ++ lit " " ++ url_text (m_path r) (m_query r) (m_fragment r) ++ lit " " ++
    (lit "HTTP/" ++ (digit_char a :: "."%byte :: digit_char b :: crlf)) ++ text_of (sent_fields r) ++ crlf) ++ m_body r.
Proof.
  intros Hr Ha Hb Hv. destruct (send_headers r Hr) as [_ Hh]. unfold dump. rewrite (send_websocket r Hr), header_lines_keep, connection_line_eq, body_text_eq.
  assert (Hkeep : forall p, (forall e, is_name e.1 -> unknown_name e.1 -> p e = true) -> keep p (m_headers r) = m_headers r).
  { intros p Hp. unfold keep. apply filter_all. eapply Forall_impl; [exact Hh|]. intros e (Hn & _ & Hu). by apply Hp. }
  rewrite Hkeep.
  2:{ intros e Hn Hu. rewrite !strcasecmp_zero.
      rewrite (bool_decide_false (_ = fold_key (lit "connection"))), (bool_decide_false (_ = fold_key (lit "content-length")));
        [by rewrite !andb_false_r|..]; intros E; apply Hu; rewrite E; by apply (bool_decide_unpack _). }
  unfold sent_fields. rewrite !text_of_app, <- (version_text_digits a b Ha Hb), Hv. unfold url_text, part.
  destruct (bool_decide (m_query r = [])) eqn:Eq; [apply bool_decide_eq_true in Eq; rewrite Eq|];
    (destruct (bool_decide (m_fragment r = [])) eqn:Ef; [apply bool_decide_eq_true in Ef; rewrite Ef|]); rewrite <- ?app_assoc; done.
Qed.

Lemma reads_fields_app q fs q1 fs' q2 : reads_fields q fs q1 -> reads_fields q1 fs' q2 -> reads_fields q (fs ++ fs') q2.
Proof. induction 1; [done|]; intros; econstructor; eauto. Qed.

Lemma reads_plain_headers q m : Forall plain_header m -> reads_fields q m q.
Proof.
  induction 1 as [|[k v] m (Hn & Hv & Hu) _ IH]; [constructor|]. econstructor; [|exact IH].
  constructor; [done|done|by apply unknown_plain].
Qed.

(** The fields of either message: the headers around the one on the connection, and the length of the body. *)
Lemma fields_read rq q fs fs' close body :
  Forall plain_header fs -> Forall plain_header fs' -> Z.of_nat (length body) < 10 ^ 18 ->
  fine rq q -> pr_flags q = 0 -> pr_content_length q = ULLONG_MAX -> (pr_method q =? HTTP_CONNECT) = false ->
  exists q', reads_fields q (fs ++ connection_field false close ++ fs' ++ length_field body) q' /\ plain_message rq q' /\
    headers_complete_of q' = headers_complete_of q /\
    pr_content_length q' = (if bool_decide (body = []) then ULLONG_MAX else Z.of_nat (length body)).
Proof.
  intros Hfs Hfs' Hbody Hq Hflags Hlen Hcon.
  set (q1 := raise (if close then F_CONNECTION_CLOSE else F_CONNECTION_KEEP_ALIVE) q).
  assert (Hq1 : fine rq q1) by by apply fine_raise.
  assert (H1 : reads_fields q (fs ++ connection_field false close ++ fs') q1).
  { apply (reads_fields_app q fs q); [by apply reads_plain_headers|]. econstructor; [|by apply reads_plain_headers].
    unfold q1. destruct close; constructor; try done; (split; [done|]); repeat (constructor; [done|]); constructor. }
  assert (Hf1 : pr_flags q1 = if close then 4 else 2) by (unfold q1, raise; cbn; rewrite Hflags; by destruct close).
  unfold length_field. destruct (bool_decide (body = [])) eqn:Eb.
  - exists q1. split_and!; [by rewrite app_nil_r| |done|exact Hlen].
    split; [done|]. unfold flag_on. rewrite Hf1. by destruct close.
  - destruct (print_dec_digits (Z.of_nat (length body))) as (Hne & Hds & Hval); [lia|].
    exists (set_content_length (Z.of_nat (length body)) (raise F_CONTENTLENGTH q1)). split_and!; [|split|done|done].
    + rewrite !app_assoc, <- (app_assoc fs). eapply reads_fields_app; [exact H1|]. econstructor; [|constructor].
      rewrite <- Hval at 2. constructor; try done.
      * split; [done|]. repeat (constructor; [done|]). constructor.
      * unfold flag_on. rewrite Hf1. by destruct close.
      * by rewrite Hval.
    + by apply fine_raise.
    + unfold flag_on, raise. cbn. rewrite Hflags. by destruct close.
Qed.

(** The parser of HttpParser.cc on the text. *)
Lemma dump_executes r :
  sendable r ->
  exists p, request_execute (dump r) (length (dump r)) new_HttpRequestParser = (length (dump r), dump r, p) /\
    m_finished p = true /\ hasError p = false /\
    m_data p = mkRequest (m_method r) (m_version r) true false 0 [] (m_path r) (m_query r) (m_fragment r) (m_body r)
      (set_all (sent_fields r) []) [] [].
Proof.
  intros Hr. destruct (send_version r Hr) as (a & b & Ha & Hb & Hv). destruct (send_method r Hr) as [Hm Hcon].
  destruct (send_url r Hr) as (Hp & Hq & Hf & Hul). apply Z.eqb_neq in Hcon.
  destruct (url_walk_text _ _ _ Hp Hq Hf) as (c & cs & s' & Hurl & Hc & Hwalk & Hend).
  pose proof (parse_url_text _ _ _ Hp Hq Hf Hul) as Hparse. set (url := url_text _ _ _) in *.
  assert (Hname : method_strings !! Z.to_nat (m_method r) = Some (HttpMethodToString (m_method r))).
  { unfold HttpMethodToString, method_strings. rewrite list_lookup_fmap, wrap_small by (unfold unsigned_range; lia).
    destruct (lookup_lt_is_Some_2 HTTP_METHOD_MAP (Z.to_nat (m_method r))) as [[k name] ->]; [|done].
    change (length HTTP_METHOD_MAP) with 34%nat. lia. }
  assert (Hwm : wrap 8 (m_method r) = m_method r) by (apply wrap_small; unfold unsigned_range; lia).
  set (q0 := after_line (m_method r) a b (Z.of_nat (length (HttpMethodToString (m_method r))) + 1)).
  destruct (fields_read true q0 [] (m_headers r) (m_close r) (m_body r)) as (q1 & Hfs & Hplain & Hhc & Hlen);
    [constructor|apply (send_headers r Hr)|apply (send_body r Hr)|done|done|done| |].
  { change (pr_method q0) with (wrap 8 (m_method r)). by rewrite Hwm. }
  pose proof (dump_text r a b Hr Ha Hb Hv) as Hdump. fold url in Hdump. pose proof (send_size r Hr) as Hsize.
  rewrite Hdump, length_app in Hsize.
  pose proof (request_executes (m_method r) _ url s' a b (sent_fields r) q1 (m_body r) Hm Hcon Hname
    ltac:(by exists c, cs) Hend ltac:(by rewrite Hparse) Ha Hb Hfs Hplain Hlen (send_body r Hr)) as Hx.
  cbv zeta in Hx. destruct Hx as (q2 & t & Hx & Hok & Hup & Ht); [lia|].
  rewrite <- Hdump in Hx.
  set (bodies := if bool_decide (m_body r = []) then [] else [m_body r]).
  assert (Hbodies : (if bool_decide (m_body r = []) then [] else [on_body (m_body r)]) = on_body <$> bodies)
    by (unfold bodies; by destruct (bool_decide (m_body r = []))).
  rewrite Hbodies, Hhc in Ht.
  destruct (request_built (H := http_grammar) hp_request url _ (sent_fields r) bodies a b (m_method r) Hparse) as (Hfin & Herr & Hdata).
  assert (Hall : seen <$> t = [message_begin; on_url url] ++ header_callbacks (sent_fields r) ++
    [on_headers_complete a b (m_method r)] ++ (on_body <$> bodies) ++ [on_message_complete]).
  { rewrite Ht. unfold headers_complete_of. change (pr_method q0) with (wrap 8 (m_method r)). by rewrite Hwm. }
  exists (set_parser q2 (run_callbacks (seen <$> t) new_HttpRequestParser)). rewrite Hall. split_and!; [|exact Hfin|exact Herr|].
  - unfold request_execute, execute. rewrite take_ge by done.
    change (hp_execute (m_parser new_HttpRequestParser) (dump r)) with (execute_parser (http_parser_init HTTP_REQUEST) (dump r)).
    unfold execute_parser. change (is_request (http_parser_init HTTP_REQUEST)) with true. cbv iota. rewrite Hx, Hall.
    change (hp_upgrade q2) with (pr_upgrade q2). rewrite Hup. change (hp_errno q2) with (errno_num (pr_errno q2)). rewrite Hok.
    cbn [andb]. unfold shift_left. by rewrite Nat.ltb_irrefl.
  - cbn [m_data set_parser]. etransitivity; [exact Hdata|]. cbn [u_path u_query u_fragment]. rewrite <- Hv.
    f_equal; unfold bodies; repeat case_bool_decide; rewrite ?app_nil_r; cbn; rewrite ?app_nil_r; congruence.
Qed.

(** The headers a parser makes of the fields. *)
Lemma sent_headers_find r :
  sendable r -> forall k, map_find k (set_all (sent_fields r) []) =
    (if bool_decide (fold_key k = lit "connection") then Some (if m_close r then lit "close" else lit "keep-alive")
     else if bool_decide (fold_key k = lit "content-length")
     then (if bool_decide (m_body r = []) then None else Some (print_dec (Z.of_nat (length (m_body r)))))
     else map_find k (m_headers r)).
Proof.
  intros Hr. destruct (send_headers r Hr) as [Hord Hh]. intros k. rewrite set_all_find by constructor. unfold sent_fields. rewrite !fold_left_app, (ordered_fold k (m_headers r)) by done.
  cbn [connection_field fold_left fst snd map_find]. change (fold_key (lit "connection")) with (lit "connection").
  assert (Hnone : fold_key k ∈ known_names.*1 -> map_find k (m_headers r) = None).
  { intros Hk. apply (find_unknown k); [|done]. eapply Forall_impl; [exact Hh|]. by intros h (_ & _ & Hu). }
  unfold length_field. destruct (bool_decide (fold_key k = lit "connection")) eqn:Ec.
  - apply bool_decide_eq_true in Ec. rewrite Hnone by (rewrite Ec; by apply (bool_decide_unpack _)).
    destruct (bool_decide (m_body r = [])); [done|]. cbn [fold_left fst snd]. by rewrite Ec.
  - destruct (bool_decide (fold_key k = lit "content-length")) eqn:El.
    + apply bool_decide_eq_true in El. rewrite Hnone by (rewrite El; by apply (bool_decide_unpack _)).
      destruct (bool_decide (m_body r = [])); [done|]. cbn [fold_left fst snd]. by rewrite El.
    + assert (forall o : option str, match map_find k (m_headers r) with Some v => Some v | None => None end = map_find k (m_headers r))
        as Heq by (intros _; by destruct (map_find k (m_headers r))).
      rewrite (Heq None). destruct (bool_decide (m_body r = [])); [done|]. cbn [fold_left fst snd].
      change (fold_key (lit "content-length")) with (lit "content-length"). by rewrite El.
Qed.

(** C16: A request that is sent is the request that is received: of the text of [dump], given in one piece to a
    new parser, every byte is taken, without an error, and the request that results has the method, the
    version, the parts of the URL, the body and the flag on closing of the one sent, and its headers,
    with the ones about the connection and the length of the body that [dump] adds.  The request must have
    a header of at most 80K, a URL shorter than 64K, header names and values the grammar allows, no header
    the grammar knows, no websocket, and not be a CONNECT. *)
Theorem request_roundtrip r :
  sendable r ->
  exists p, request_execute (dump r) (length (dump r)) new_HttpRequestParser = (length (dump r), dump r, p) /\
    m_finished p = true /\ hasError p = false /\
    let r' := init (m_data p) in
    m_method r' = m_method r /\ m_version r' = m_version r /\ m_close r' = m_close r /\
    m_path r' = m_path r /\ m_query r' = m_query r /\ m_fragment r' = m_fragment r /\ m_body r' = m_body r /\
    forall k, map_find k (m_headers r') =
      (if bool_decide (fold_key k = lit "connection") then Some (if m_close r then lit "close" else lit "keep-alive")
       else if bool_decide (fold_key k = lit "content-length")
       then (if bool_decide (m_body r = []) then None else Some (print_dec (Z.of_nat (length (m_body r)))))
       else map_find k (m_headers r)).
Proof.
  intros Hr. destruct (dump_executes r Hr) as (p & Hx & Hfin & Herr & Hdata). exists p. split_and!; [exact Hx|exact Hfin|exact Herr|].
  cbv zeta. rewrite Hdata.
  pose proof (sent_headers_find r Hr) as Hfind.
  assert (Hconn : map_find (lit "connection") (set_all (sent_fields r) []) = Some (if m_close r then lit "close" else lit "keep-alive"))
    by exact (Hfind (lit "connection")).
  unfold init, getHeader. cbn [m_headers]. rewrite Hconn. cbn [default].
  rewrite bool_decide_false by by destruct (m_close r).
  split_and!; try done. by destruct (m_close r).
Qed.

(** ** Witness *)

Definition some_request : HttpRequest :=
  mkRequest HTTP_POST 17 false false 0 [] (lit "/a") (lit "b=c") (lit "d") (lit "hello") [(lit "Host", lit "x y")] [] [].

Lemma some_sendable : sendable some_request.
Proof.
  split.
  - done.
  - by exists 1, 1.
  - split; [exists "/"%byte, ["a"%byte]; split; [done|]; split; [done|]; by repeat constructor|].
    split; [unfold is_tail; by repeat constructor|]. split; [unfold is_tail; by repeat constructor|]. vm_compute. done.
  - split; [by repeat constructor|]. constructor; [|constructor]. split; [split; [done|by repeat constructor]|]. split.
    + exists "x"%byte, [" "%byte; "y"%byte]. split; [done|]. split; [done|]. by repeat constructor.
    + apply (bool_decide_unpack _). vm_compute. done.
  - done.
  - vm_compute. done.
  - vm_compute. done.
Qed.

Lemma request_roundtrip_witness :
  exists p, request_execute (dump some_request) (length (dump some_request)) new_HttpRequestParser =
      (length (dump some_request), dump some_request, p) /\
    m_query (init (m_data p)) = lit "b=c" /\ m_close (init (m_data p)) = false /\
    map_find (lit "hOST") (m_headers (init (m_data p))) = Some (lit "x y").
Proof.
  destruct (request_roundtrip some_request some_sendable) as (p & Hx & _ & _ & _ & _ & Hc & _ & Hq & _ & _ & Hf).
  exists p. split; [exact Hx|]. split; [exact Hq|]. split; [exact Hc|]. rewrite Hf. reflexivity.
Defined.
