(* ===== verification/HttpResponseTheorems.v ===== *)
(** * Responses sent and received: what the parser makes of the text of [rsp_dump] *)

From S2P Require Import Prelude Http HttpTheorems HttpGrammar HttpExecute HttpGrammarTheorems HttpWords HttpUrl HttpUrlTheorems HttpSession HttpSessionTheorems HttpParsing HttpParsingTheorems HttpRuns HttpFields HttpRoundTrip HttpRequestTheorems.
#[local] Set Default Goal Selector "!".

(** ** The status line *)

Section status.
Context (data : str).
Abbreviation exec := (reexecute (settings_of false) mx data false).
Abbreviation conf := (HttpRuns.conf data).
Abbreviation leads := (HttpRuns.leads false data).
Implicit Types (x : locals) (q : http_parser).

Lemma run_H q n k rest tr x :
  pr_errno q = HPE_OK -> 0 <= n -> n + 1 <= mx ->
  conf q s_start_res n k ("H"%byte :: rest) None tr x ->
  leads x (conf (new_message q) s_res_H (n + 1) (S k) rest None (tr ++ [message_begin])).
Proof.
  intros Hok Hn Hmx Hc. eapply byte_in_header; [exact Hc|done|done|done|]. intros st nr t Ht.
  exists (loc (new_message q) s_res_H nr s_res_H (n + 1) k "H" None (t ++ [Notify cb_message_begin (set_nread nr (set_state s_res_H (new_message q)))])).
  split; [|split; [done|]].
  - apply exec_break. unfold switch. do 2 xstep. cbn [p_state ch loc]. unfold start_line. change (eqc "H" CR || eqc "H" LF) with false. cbv iota.
    rewrite (xb _ _ _ tt (loc (new_message q) st nr s_start_res (n + 1) k "H" None t)) by done.
    rewrite (xb _ _ _ tt (loc (new_message q) st nr s_res_H (n + 1) k "H" None t)) by done.
    unfold CALLBACK_NOTIFY. rewrite x_assoc. xstep. erewrite xb by (apply notify_0; unfold is_ok; cbn; by rewrite Hok). done.
  - split; [by apply rest_lookup in Hc as (_ & _ & ?) || by destruct Hc as [Hd _]; apply rest_lookup in Hd as (_ & _ & ?)|].
    eexists s_res_H, nr, "H"%byte, (t ++ [_]). split; [reflexivity|]. by rewrite fmap_app, Ht.
Qed.

Lemma res_digit_exec (s s' : state) (f : Z -> http_parser -> http_parser) q st nr n k d ms t :
  (s, s', f) ∈ [(s_res_http_major, s_res_http_dot, set_http_major); (s_res_http_minor, s_res_http_end, set_http_minor);
    (s_res_first_status_code, s_res_status_code, set_status_code)] -> 0 <= d <= 9 ->
  exec 5 (loc q st nr s n k (digit_char d) ms t) = (inl tt, loc (f d q) st nr s' n k (digit_char d) ms t).
Proof.
  intros Hs Hd. destruct (digit_char_num d Hd) as [H1 H2]. apply exec_break.
  rewrite !elem_of_cons in Hs. destruct Hs as [[= -> -> ->]|[[= -> -> ->]|[[= -> -> ->]|Hs]]]; [| | |by apply not_elem_of_nil in Hs].
  all: unfold switch; do 2 xstep; cbn [p_state ch loc]; unfold status_line; rewrite H1; cbn [negb only_if]; rewrite H2; reflexivity.
Qed.

(** From the version to the first digit of the status. *)
Lemma run_res_version q a b n k rest tr x :
  pr_errno q = HPE_OK -> 0 <= a <= 9 -> 0 <= b <= 9 -> 0 <= n -> n + 9 <= mx ->
  conf q s_start_res n k (lit "HTTP/" ++ (digit_char a :: "."%byte :: digit_char b :: " "%byte :: rest)) None tr x ->
  leads x (conf (set_http_minor b (set_http_major a (new_message q))) s_res_first_status_code (n + 9) (k + 9) rest None (tr ++ [message_begin])).
Proof.
  intros Hok Ha Hb Hn Hmx Hc. change (lit "HTTP/") with ("H"%byte :: lit "TTP/") in Hc. cbn [app] in Hc.
  eapply leads_trans; [eapply run_H; [exact Hok|exact Hn|lia|exact Hc]|]. clear Hc. intros x1 H1. eapply leads_trans.
  { eapply (run_word false data (lit "TTP/") [s_res_HT; s_res_HTT; s_res_HTTP; s_res_http_major]);
      [done| | | |exact H1]; [|lia|cbn; lia].
    intros i c s0 s1 E1 E2 E3. do 4 (destruct i as [|i]; [injection E1 as <-; injection E2 as <-; injection E3 as <-; split; [done|]; intros; by apply exec_break|]).
    done. }
  clear H1. intros x2 H2. change (length (lit "TTP/")) with 4%nat in H2. cbn [List.last] in H2. eapply leads_trans.
  { eapply (byte_step_plain false data _ _ _ _ _ _ _ _ _ _ s_res_http_dot); [exact H2|done|lia|lia|].
    intros. apply (res_digit_exec s_res_http_major s_res_http_dot set_http_major); [by left|done]. }
  clear H2. intros x3 H3. eapply leads_trans.
  { eapply (byte_step_plain false data _ _ _ _ _ _ _ _ _ _ s_res_http_minor); [exact H3|done|lia|lia|]. intros. by apply exec_break. }
  clear H3. intros x4 H4. eapply leads_trans.
  { eapply (byte_step_plain false data _ _ _ _ _ _ _ _ _ _ s_res_http_end); [exact H4|done|lia|lia|].
    intros. apply (res_digit_exec s_res_http_minor s_res_http_end set_http_minor); [by right; left|done]. }
  clear H4. intros x5 H5.
  replace (n + 9) with (n + 1 + Z.of_nat 4 + 1 + 1 + 1 + 1) by lia. replace (k + 9)%nat with (S (S (S (S (S k + 4))))) by lia.
  eapply byte_step_plain; [exact H5|done|lia|lia|]. intros. by apply exec_break.
Qed.

(** The other digits of the status, and the space. *)
Lemma run_status q v ds n k rest tr x :
  0 <= v -> is_digits ds -> digits_value v ds <= 999 -> 0 <= n -> n + Z.of_nat (length ds) + 1 <= mx ->
  conf (set_status_code v q) s_res_status_code n k (ds ++ (" "%byte :: rest)) None tr x ->
  leads x (conf (set_status_code (digits_value v ds) q) s_res_status_start (n + Z.of_nat (length ds) + 1) (k + length ds + 1) rest None tr).
Proof.
  intros Hv Hds. revert v n k x Hv. induction Hds as [|c ds Hc Hds IH]; intros v n k x Hv Hmax Hn Hmx Hconf.
  - cbn [length app] in *. rewrite Nat.add_0_r, Nat.add_1_r, Z.add_0_r.
    eapply byte_step_plain; [exact Hconf|done|lia|lia|]. intros. by apply exec_break.
  - pose proof (digit_of_range c Hc) as Hd. destruct (digits_value_ge (v * 10 + digit_of c) ds ltac:(lia) Hds) as [Hge _].
    change (digits_value v (c :: ds)) with (digits_value (v * 10 + digit_of c) ds) in *. cbn [length app] in *. eapply leads_trans.
    { eapply (byte_step_plain false data _ _ _ _ _ _ _ _ _ (set_status_code (v * 10 + digit_of c) q) s_res_status_code); [exact Hconf|done|lia|lia|].
      intros st nr t. apply exec_break. unfold switch. do 2 xstep. cbn [p_state ch loc]. unfold status_line. rewrite Hc. cbn [negb].
      rewrite (xb _ _ _ tt (loc (set_status_code (v * 10) q) st nr s_res_status_code (n + 1) k c None t)).
      2:{ unfold with_parser, upd, x_parser, loc. cbn. rewrite (wrap_small 16 v) by (unfold unsigned_range; lia). done. }
      rewrite (xb _ _ _ tt (loc (set_status_code (v * 10 + digit_of c) q) st nr s_res_status_code (n + 1) k c None t)).
      2:{ unfold with_parser, upd, x_parser, loc. cbn. rewrite (wrap_small 16 (v * 10)) by (unfold unsigned_range; lia). done. }
      xstep. cbn [parser loc]. change (pr_status_code _) with (wrap 16 (v * 10 + digit_of c)).
      rewrite wrap_small by (unfold unsigned_range; lia). assert ((999 <? v * 10 + digit_of c) = false) as -> by lia. done. }
    intros x1 H1. cbv beta in H1.
    replace (n + Z.of_nat (S (length ds)) + 1) with (n + 1 + Z.of_nat (length ds) + 1) by lia.
    replace (k + S (length ds) + 1)%nat with (S k + length ds + 1)%nat by lia.
    apply IH; [lia|lia|lia|lia|exact H1].
Qed.

Definition is_reason (s : str) : Prop := s <> [] /\ Forall (fun c => eqc c CR || eqc c LF = false) s.

Lemma run_reason_chars q cs n k m rest tr x :
  Forall (fun c => eqc c CR || eqc c LF = false) cs -> 0 <= n -> n + Z.of_nat (length cs) <= mx ->
  conf q s_res_status n k (cs ++ rest) (Some (cb_status, m)) tr x ->
  leads x (conf q s_res_status (n + Z.of_nat (length cs)) (k + length cs) rest (Some (cb_status, m)) tr).
Proof.
  intros Hcs. revert n k x. induction Hcs as [|c cs Hc _ IH]; intros n k x Hn Hmx Hconf.
  { cbn [length]. rewrite Z.add_0_r, Nat.add_0_r. by apply leads_now. }
  cbn [length app] in *. apply orb_false_iff in Hc as [Hcr Hlf]. eapply leads_trans.
  { eapply byte_step_plain; [exact Hconf|done|done|lia|]. intros. apply exec_break. unfold switch. do 2 xstep. cbn [p_state ch loc].
    unfold status_line. by rewrite Hcr, Hlf. }
  intros x1 H1. cbv beta in H1. replace (n + Z.of_nat (S (length cs))) with (n + 1 + Z.of_nat (length cs)) by lia.
  replace (k + S (length cs))%nat with (S k + length cs)%nat by lia. apply IH; [lia|lia|exact H1].
Qed.

(** The reason, to the end of the line. *)
Lemma run_reason q reason n k rest tr x :
  is_reason reason -> pr_errno q = HPE_OK -> 0 <= n -> n + Z.of_nat (length reason) + 2 <= mx ->
  conf q s_res_status_start n k (reason ++ crlf ++ rest) None tr x ->
  leads x (conf (set_index 0 q) s_header_field_start (n + Z.of_nat (length reason) + 2) (k + length reason + 2) rest None
    (tr ++ [on_status reason (pr_status_code q)])).
Proof.
  intros [Hne Hall] Hok Hn Hmx Hc. pose proof (proj1 Hc) as Hd. destruct reason as [|c cs]; [done|].
  apply Forall_cons in Hall as [Hc0 Hcs]. cbn [length app] in *. eapply (leads_trans false data x
    (conf (set_index 0 q) s_res_status (n + 1) (S k) (cs ++ crlf ++ rest) (Some (cb_status, k)) tr)).
  { eapply byte_in_header; [exact Hc|done|lia|lia|]. intros st nr t Ht.
    exists (loc (set_index 0 q) st nr s_res_status (n + 1) k c (Some (cb_status, k)) t). split; [|split; [done|]].
    - apply exec_break. unfold switch. do 2 xstep. cbn [p_state ch loc]. unfold status_line.
      rewrite (xb _ _ _ tt (loc q st nr s_res_status_start (n + 1) k c (Some (cb_status, k)) t)) by done.
      rewrite (xb _ _ _ tt (loc q st nr s_res_status (n + 1) k c (Some (cb_status, k)) t)) by done.
      rewrite (xb _ _ _ tt (loc (set_index 0 q) st nr s_res_status (n + 1) k c (Some (cb_status, k)) t)) by done. by rewrite Hc0.
    - split; [by apply rest_lookup in Hd as (_ & _ & ?)|]. by exists st, nr, c, t. }
  intros x1 H1. eapply leads_trans; [eapply run_reason_chars; [exact Hcs| | |exact H1]; lia|]. clear H1. intros x2 H2. cbv beta in H2.
  pose proof (rest_lookup _ _ _ _ (proj1 H2)) as (_ & Hlt & Hd2).
  destruct (rest_app data k (c :: cs) (crlf ++ rest) Hd) as [_ Hslice].
  eapply (leads_trans false data x2 (conf (set_index 0 q) s_res_line_almost_done (n + 1 + Z.of_nat (length cs) + 1) (S (S k + length cs)) (LF :: rest) None
    (tr ++ [on_status (c :: cs) (pr_status_code q)]))).
  { eapply byte_in_header; [exact H2|done|lia|lia|]. intros st nr t Ht.
    exists (loc (set_index 0 q) s_res_line_almost_done nr s_res_line_almost_done (n + 1 + Z.of_nat (length cs) + 1) (S k + length cs) CR None
      (t ++ [Data cb_status (c :: cs) (set_nread nr (set_state s_res_line_almost_done (set_index 0 q)))])).
    split; [|split; [cbn [p loc]; lia|]].
    - apply exec_break. unfold switch. do 2 xstep. cbn [p_state ch loc]. unfold status_line. change (eqc CR CR) with true. cbv iota.
      rewrite <- x_assoc. erewrite xb; [reflexivity|]. apply data_run; [exact Hok|lia| |done].
      by replace (S k + length cs - k)%nat with (length (c :: cs)) by (cbn [length]; lia).
    - split; [exact Hd2|]. eexists s_res_line_almost_done, nr, CR, (t ++ [_]). split; [reflexivity|]. by rewrite fmap_app, Ht. }
  clear H2. intros x3 H3. replace (n + Z.of_nat (S (length cs)) + 2) with (n + 1 + Z.of_nat (length cs) + 1 + 1) by lia.
  replace (k + S (length cs) + 2)%nat with (S (S (S k + length cs))) by lia.
  eapply byte_step_plain; [exact H3|done|lia|lia|]. intros. by apply exec_break.
Qed.

Lemma digit_char_of c : IS_NUM c = true -> digit_char (digit_of c) = c.
Proof. by destruct c. Qed.

(** The status line, from the first byte. *)
Lemma run_status_line q a b code ds reason n k rest tr x :
  pr_errno q = HPE_OK -> 0 <= a <= 9 -> 0 <= b <= 9 -> ds <> [] -> is_digits ds -> digits_value 0 ds = code -> code <= 999 ->
  is_reason reason -> 0 <= n -> n + Z.of_nat (12 + length ds + length reason) <= mx ->
  conf q s_start_res n k (lit "HTTP/" ++ (digit_char a :: "."%byte :: digit_char b :: " "%byte :: ds ++ (" "%byte :: reason ++ crlf ++ rest))) None tr x ->
  leads x (conf (set_index 0 (set_status_code code (set_http_minor b (set_http_major a (new_message q))))) s_header_field_start
    (n + Z.of_nat (12 + length ds + length reason)) (k + (12 + length ds + length reason)) rest None
    (tr ++ [message_begin] ++ [on_status reason (wrap 16 code)])).
Proof.
  intros Hok Ha Hb Hne Hds Hcode Hmax Hreason Hn Hmx Hc. destruct ds as [|c ds]; [done|]. clear Hne.
  apply Forall_cons in Hds as [Hc0 Hds]. pose proof (digit_of_range c Hc0) as Hd.
  change (digits_value 0 (c :: ds)) with (digits_value (digit_of c) ds) in Hcode. cbn [length app] in *.
  rewrite <- (digit_char_of c Hc0) in Hc.
  eapply leads_trans; [eapply run_res_version; [exact Hok|exact Ha|exact Hb|exact Hn|lia|exact Hc]|].
  clear Hc. intros x1 H1. cbv beta in H1. set (q1 := set_http_minor b (set_http_major a (new_message q))) in *. eapply leads_trans.
  { eapply (byte_step_plain false data _ _ _ _ _ _ _ _ _ (set_status_code (digit_of c) q1) s_res_status_code); [exact H1|done|lia|lia|].
    intros. apply (res_digit_exec s_res_first_status_code s_res_status_code set_status_code); [by right; right; left|lia]. }
  clear H1. intros x2 H2. cbv beta in H2.
  eapply leads_trans; [eapply run_status; [| |rewrite Hcode; exact Hmax| | |exact H2]; [lia|exact Hds|lia|lia]|].
  clear H2. intros x3 H3. cbv beta in H3. rewrite Hcode in H3.
  replace (n + Z.of_nat (12 + S (length ds) + length reason)) with (n + 9 + 1 + Z.of_nat (length ds) + 1 + Z.of_nat (length reason) + 2) by lia.
  replace (k + (12 + S (length ds) + length reason))%nat with (S (k + 9) + length ds + 1 + length reason + 2)%nat by lia.
  change (tr ++ [?e1; ?e2]) with (tr ++ [e1] ++ [e2]). rewrite app_assoc.
  eapply run_reason; [exact Hreason|done|lia|lia|exact H3].
Qed.
End status.

(** ** The whole of a call *)

(** The parser after the status line. *)
Definition after_status (a b code : Z) : http_parser :=
  set_index 0 (set_status_code code (set_http_minor b (set_http_major a (new_message (http_parser_init HTTP_RESPONSE))))).

(** The text of a response whose parts are well formed, and what the callbacks see. *)
Lemma response_executes a b code ds reason fs q body :
  0 <= a <= 9 -> 0 <= b <= 9 -> ds <> [] -> is_digits ds -> digits_value 0 ds = code -> code <= 999 -> is_reason reason ->
  reads_fields (after_status a b code) fs q -> plain_message false q ->
  pr_content_length q = (if bool_decide (body = []) then ULLONG_MAX else Z.of_nat (length body)) ->
  Z.of_nat (length body) < 10 ^ 18 ->
  let head := lit "HTTP/" ++ (digit_char a :: "."%byte :: digit_char b :: " "%byte :: ds ++ (" "%byte :: reason ++ crlf ++ text_of fs ++ crlf)) in
  Z.of_nat (length head) <= mx ->
  exists q' t, http_parser_execute s_response_settings mx (http_parser_init HTTP_RESPONSE) (head ++ body) =
      (Ok (length (head ++ body)), q', t) /\
    pr_errno q' = HPE_OK /\
    seen <$> t = [message_begin; on_status reason (wrap 16 code)] ++ header_callbacks fs ++ [headers_complete_of q] ++
      (if bool_decide (body = []) then [] else [on_body body]) ++
      (if bool_decide (body = []) && http_message_needs_eof q then [] else [on_message_complete]).
Proof.
  intros Ha Hb Hne Hds Hcode Hmax Hreason Hfs Hq Hv Hbody head Hmx. set (data := head ++ body).
  assert (Hlen : length head = (12 + length ds + length reason + length (text_of fs) + 2)%nat).
  { unfold head. rewrite !length_app. cbn [length]. rewrite !length_app. cbn [length]. rewrite !length_app.
    change (length (lit "HTTP/")) with 5%nat. change (length crlf) with 2%nat. lia. }
  eassert (Hgoal : leads false data (entry (http_parser_init HTTP_RESPONSE)) (fun x => exists q' s n,
    pr_errno q' = HPE_OK /\ pr_errno q' = HPE_OK /\ conf data q' s n (length data) [] None _ x)).
  2:{ destruct (execute_ends false data (fun q' _ => pr_errno q' = HPE_OK) _ ltac:(by destruct data eqn:E; [apply (f_equal length) in E; unfold data in E; rewrite length_app, Hlen in E|]) Hgoal)
        as (q' & s & n & t & Hok & Hx & Ht). by exists (set_state s (set_nread n q')), t. }
  eapply leads_trans.
  { eapply (run_status_line data (http_parser_init HTTP_RESPONSE) a b code ds reason 0 0 (text_of fs ++ crlf ++ body) []);
      [done|exact Ha|exact Hb|exact Hne|exact Hds|exact Hcode|exact Hmax|exact Hreason|lia|lia|].
    split; [|by exists s_start_res, 0, x00, []]. unfold data, head. rewrite drop_0, <- !app_assoc. cbn [app].
    by rewrite <- !app_assoc, <- app_comm_cons, <- !app_assoc. }
  intros x1 H1. cbv beta in H1. eapply leads_trans.
  { eapply (run_fields false data _ fs q); [exact Hfs|done| | |left; eexists; split; [reflexivity|exact H1]]; lia. }
  clear H1. intros x2 H2. cbv beta in H2. eapply leads_trans.
  { eapply (run_message_end false data q body _ _ []); [exact Hq|exact Hv|exact Hbody| | |rewrite app_nil_r; exact H2]; lia. }
  clear H2. intros x3 (q' & s & n & Hok & _ & H3). apply leads_now. exists q', s, n. split; [done|]. split; [done|].
  revert H3. rewrite <- !app_assoc. unfold data. rewrite length_app, Hlen. cbn [app].
  match goal with |- HttpRuns.conf _ _ _ _ ?k _ _ _ _ -> _ =>
    replace k with (12 + length ds + length reason + length (text_of fs) + 2 + length body)%nat by lia end. done.
Qed.

(** ** The callbacks *)

Section callbacks.
Context {P : Type} `{Grammar P}.
Implicit Types (p : HttpParser P HttpResponse).

Definition run_response (cbs : list http_callback) p : HttpParser P HttpResponse :=
  fold_left (fun p c => response_callback c p) cbs p.

Lemma response_app cbs cbs' p : run_response (cbs ++ cbs') p = run_response cbs' (run_response cbs p).
Proof. apply fold_left_app. Qed.

Lemma response_headers hs p :
  run_response (header_callbacks hs) p =
  setField (default (m_field p) (last hs.*1)) (set_data (fun r => rsp_setHeaders (set_all hs (r_headers r)) r) p).
Proof.
  revert p. induction hs as [|[f v] hs IH]; intros p; [by destruct p as [? [] ? ? ?]|].
  change (header_callbacks ((f, v) :: hs)) with ([on_header_field f; on_header_value v] ++ header_callbacks hs).
  rewrite response_app, IH. cbn [fmap list_fmap]. rewrite last_cons. cbn [fst].
  destruct p as [? [] ? ? ?]. cbn. by destruct (last hs.*1).
Qed.

(** The response the callbacks make. *)
Lemma response_built reason c0 hs major minor code body fin :
  let p := run_response ([message_begin; on_status reason c0] ++ header_callbacks hs ++ [on_headers_complete major minor code] ++
             (if bool_decide (body = []) then [] else [on_body body]) ++ (if fin : bool then [on_message_complete] else []))
             new_HttpResponseParser in
  m_finished p = fin /\ hasError p = false /\
  m_data p = mkResponse code (version_of major minor) true false body [] (set_all hs []) [].
Proof.
  intros p. unfold p. rewrite !response_app, response_headers. case_bool_decide as Hb; [rewrite Hb|]; destruct fin; by split_and!.
Qed.
End callbacks.

(** ** The parts of [rsp_dump] *)

Definition line_free (s : str) : Prop := Forall (fun c => eqc c CR || eqc c LF = false) s.

Lemma status_names : Forall (fun e => is_reason e.2) HTTP_STATUS_MAP.
Proof. unfold is_reason. repeat (apply Forall_cons; split; [split; [done|by repeat constructor]|]). apply Forall_nil. done. Qed.

Lemma status_reason s : is_reason (HttpStatusToString s).
Proof.
  unfold HttpStatusToString. pose proof status_names as Hn. induction Hn as [|[c m] l Hm _ IH].
  - split; [done|by repeat constructor].
  - cbn [status_entry]. by destruct (s =? c).
Qed.

(** A response that has no body on its own account. *)
Definition bodiless (s : Z) : bool := (Z.quot s 100 =? 1) || (s =? 204) || (s =? 304).

Definition set_cookie (c : str) : str * str := (lit "Set-Cookie", c).

Record rsp_sendable (r : HttpResponse) : Prop := mkRspSendable {
  rsp_status : 0 <= r_status r <= 999;
  rsp_version : exists a b, 0 <= a <= 9 /\ 0 <= b <= 9 /\ r_version r = version_of a b;
  rsp_reason : line_free (r_reason r);
  rsp_headers : ordered (r_headers r) /\ Forall plain_header (r_headers r);
  rsp_cookies : Forall is_value (r_cookies r);
  rsp_websocket : r_websocket r = false;
  rsp_body : Z.of_nat (length (r_body r)) < 10 ^ 18;
  rsp_size : Z.of_nat (length (rsp_dump r)) - Z.of_nat (length (r_body r)) <= mx
}.

Definition rsp_fields (r : HttpResponse) : list (str * str) :=
  (r_headers r ++ (set_cookie <$> r_cookies r)) ++ connection_field false (r_close r) ++ [] ++ length_field (r_body r).
Definition sent_reason (r : HttpResponse) : str :=
  if bool_decide (r_reason r = []) then HttpStatusToString (r_status r) else r_reason r.

Lemma sent_reason_ok r : line_free (r_reason r) -> is_reason (sent_reason r).
Proof. intros Hr. unfold sent_reason. case_bool_decide; [apply status_reason|done]. Qed.

Lemma rsp_dump_text r a b :
  rsp_sendable r -> 0 <= a <= 9 -> 0 <= b <= 9 -> r_version r = version_of a b ->
  rsp_dump r = (lit "HTTP/" ++ (digit_char a :: "."%byte :: digit_char b :: " "%byte :: print_dec (r_status r) ++
    (" "%byte :: sent_reason r ++ crlf ++ text_of (rsp_fields r) ++ crlf))) ++ r_body r.
Proof.
  intros Hr Ha Hb Hv. destruct (rsp_headers r Hr) as [_ Hh]. unfold rsp_dump. rewrite (rsp_websocket r Hr), header_lines_keep, connection_line_eq, body_text_eq.
  assert (Hkeep : keep (fun e => negb (negb false && (strcasecmp e.1 (lit "connection") =? 0))) (r_headers r) = r_headers r).
  { unfold keep. apply filter_all. eapply Forall_impl; [exact Hh|]. intros e (Hn & _ & Hu). rewrite strcasecmp_zero, bool_decide_false; [done|].
    intros E. apply Hu. rewrite E. by apply (bool_decide_unpack _). }
  assert (Hcookies : concat ((fun c => line (lit "Set-Cookie") c) <$> r_cookies r) = text_of (set_cookie <$> r_cookies r)).
  { unfold text_of. by rewrite <- list_fmap_compose. }
  rewrite Hkeep, Hcookies, (wrap_small 32 (r_status r)) by (pose proof (rsp_status r Hr); unfold unsigned_range; lia).
  assert (Hvt : version_text (r_version r) = lit "HTTP/" ++ [digit_char a; "."%byte; digit_char b]).
  { apply (app_inv_tail crlf). rewrite Hv, (version_text_digits a b Ha Hb), <- app_assoc. done. }
  rewrite Hvt. fold (sent_reason r). unfold rsp_fields. rewrite !text_of_app, <- !app_assoc. cbn [app].
  by rewrite <- ?app_assoc, <- ?app_comm_cons, <- ?app_assoc.
Qed.

Lemma cookies_plain cs : Forall is_value cs -> Forall plain_header (set_cookie <$> cs).
Proof.
  intros Hcs. apply Forall_fmap. eapply Forall_impl; [exact Hcs|]. intros c Hc. split; [|split; [done|apply (bool_decide_unpack _); by vm_compute]].
  split; [done|]. cbn [fst set_cookie compose]. by repeat (constructor; [done|]).
Qed.

(** ** The headers of the response received *)

Lemma cookies_fold k cs o :
  fold_left (fun o h => if bool_decide (fold_key k = fold_key h.1) then Some h.2 else o) (set_cookie <$> cs) o =
  if bool_decide (fold_key k = lit "set-cookie") then match last cs with Some c => Some c | None => o end else o.
Proof.
  revert o. induction cs as [|c cs IH]; intros o; [by case_bool_decide|].
  cbn [fmap list_fmap fold_left]. rewrite IH, last_cons. cbn [set_cookie fst snd].
  change (fold_key (lit "Set-Cookie")) with (lit "set-cookie"). case_bool_decide; [by destruct (last cs)|done].
Qed.

(** The header received for a name. *)
Definition rsp_header_of (r : HttpResponse) (k : str) : option str :=
  if bool_decide (fold_key k = lit "connection") then Some (if r_close r then lit "close" else lit "keep-alive")
  else if bool_decide (fold_key k = lit "content-length")
  then (if bool_decide (r_body r = []) then None else Some (print_dec (Z.of_nat (length (r_body r)))))
  else if bool_decide (fold_key k = lit "set-cookie")
  then match last (r_cookies r) with Some c => Some c | None => map_find k (r_headers r) end
  else map_find k (r_headers r).

Lemma rsp_headers_find r : rsp_sendable r -> forall k, map_find k (set_all (rsp_fields r) []) = rsp_header_of r k.
Proof.
  intros Hr k. destruct (rsp_headers r Hr) as [Hord Hh]. rewrite set_all_find by constructor. unfold rsp_fields, rsp_header_of.
  rewrite !fold_left_app, (ordered_fold k (r_headers r)), cookies_fold by done.
  assert (Hsome : match map_find k (r_headers r) with Some v => Some v | None => map_find k [] end = map_find k (r_headers r))
    by by destruct (map_find k (r_headers r)).
  rewrite Hsome. cbn [connection_field fold_left fst snd]. change (fold_key (lit "connection")) with (lit "connection").
  assert (Hnone : fold_key k ∈ known_names.*1 -> map_find k (r_headers r) = None).
  { intros Hk. apply (find_unknown k); [|done]. eapply Forall_impl; [exact Hh|]. by intros h (_ & _ & Hu). }
  unfold length_field. assert (Hl : fold_key (lit "content-length") = lit "content-length") by done.
  destruct (bool_decide (fold_key k = lit "connection")) eqn:Ec.
  - apply bool_decide_eq_true in Ec. destruct (bool_decide (r_body r = [])); [done|]. cbn [fold_left fst snd]. by rewrite Ec, Hl.
  - destruct (bool_decide (fold_key k = lit "content-length")) eqn:El.
    + apply bool_decide_eq_true in El. rewrite Hnone by (rewrite El; by apply (bool_decide_unpack _)). rewrite El.
      change (bool_decide (lit "content-length" = lit "set-cookie")) with false. cbv iota.
      destruct (bool_decide (r_body r = [])); [done|reflexivity].
    + destruct (bool_decide (r_body r = [])); [done|]. cbn [fold_left fst snd]. rewrite (bool_decide_false (_ = fold_key _)); [done|]. exact (proj1 (bool_decide_eq_false _) El).
Qed.

(** ** Sending and receiving *)

Lemma needs_eof_of q code (body : str) :
  plain_message false q -> pr_status_code q = code ->
  pr_content_length q = (if bool_decide (body = []) then ULLONG_MAX else Z.of_nat (length body)) ->
  bool_decide (body = []) && http_message_needs_eof q = bool_decide (body = []) && negb (bodiless code).
Proof.
  intros ((_ & _ & Hreq) & _ & Hch & _ & Hskip & _) Hcode Hlen. case_bool_decide as Hb; [|done]. cbn [andb].
  unfold http_message_needs_eof, bodiless. rewrite Hreq, Hcode, Hskip, Hch, Hlen, Z.eqb_refl, orb_false_r. by destruct (_ || _ || _).
Qed.

(** The parser of HttpParser.cc on the text. *)
Lemma rsp_dump_executes r :
  rsp_sendable r ->
  exists p, response_execute (rsp_dump r) (length (rsp_dump r)) new_HttpResponseParser = (length (rsp_dump r), rsp_dump r, p) /\
    m_finished p = negb (bool_decide (r_body r = []) && negb (bodiless (r_status r))) /\ hasError p = false /\
    m_data p = mkResponse (r_status r) (r_version r) true false (r_body r) [] (set_all (rsp_fields r) []) [].
Proof.
  intros Hr. destruct (rsp_version r Hr) as (a & b & Ha & Hb & Hv). pose proof (rsp_status r Hr) as Hstatus.
  destruct (rsp_headers r Hr) as [_ Hh]. pose proof (rsp_dump_text r a b Hr Ha Hb Hv) as Hdump.
  pose proof (rsp_size r Hr) as Hsize. rewrite Hdump, length_app in Hsize.
  destruct (print_dec_digits (r_status r)) as (Hne & Hds & Hval); [lia|].
  assert (Hcode : wrap 16 (r_status r) = r_status r) by (apply wrap_small; unfold unsigned_range; lia).
  set (q0 := after_status a b (r_status r)).
  destruct (fields_read false q0 (r_headers r ++ (set_cookie <$> r_cookies r)) [] (r_close r) (r_body r)) as (q1 & Hfs & Hplain & Hhc & Hlen);
    [apply Forall_app; split; [done|apply cookies_plain, (rsp_cookies r Hr)]|constructor|apply (rsp_body r Hr)|done..|].
  pose proof (response_executes a b (r_status r) (print_dec (r_status r)) (sent_reason r) (rsp_fields r) q1 (r_body r)
    Ha Hb Hne Hds Hval (proj2 Hstatus) (sent_reason_ok r (rsp_reason r Hr)) Hfs Hplain Hlen (rsp_body r Hr)) as Hx.
  cbv zeta in Hx. destruct Hx as (q2 & t & Hx & Hok & Ht); [lia|]. rewrite <- Hdump in Hx.
  assert (Hsc : pr_status_code q1 = r_status r).
  { assert (is_request q1 = false) as Hrq by apply Hplain. unfold headers_complete_of in Hhc. rewrite Hrq in Hhc.
    change (is_request q0) with false in Hhc. cbv iota in Hhc. injection Hhc as _ _ ->. exact Hcode. }
  rewrite Hcode, (needs_eof_of q1 (r_status r) (r_body r) Hplain Hsc Hlen), Hhc in Ht.
  change (headers_complete_of q0) with (on_headers_complete a b (wrap 16 (r_status r))) in Ht. rewrite Hcode in Ht.
  destruct (response_built (H := http_grammar) (sent_reason r) (r_status r) (rsp_fields r) a b (r_status r) (r_body r)
    (negb (bool_decide (r_body r = []) && negb (bodiless (r_status r))))) as (Hfin & Herr & Hdata).
  rewrite <- Hv in Hdata. set (ends := bool_decide _ && negb _) in *.
  assert (Hends : (if ends then [] else [on_message_complete]) = if negb ends then [on_message_complete] else []) by by destruct ends.
  rewrite Hends in Ht. rewrite !app_assoc in Ht. rewrite <- !app_assoc in Ht.
  exists (set_parser q2 (run_response (seen <$> t) new_HttpResponseParser)). rewrite Ht. split_and!; [|exact Hfin|exact Herr|exact Hdata].
  unfold response_execute, execute. rewrite take_ge by done.
  change (hp_execute (m_parser new_HttpResponseParser) (rsp_dump r)) with (execute_parser (http_parser_init HTTP_RESPONSE) (rsp_dump r)).
  unfold execute_parser. change (is_request (http_parser_init HTTP_RESPONSE)) with false. cbv iota. rewrite Hx, Ht.
  change (hp_errno q2) with (errno_num (pr_errno q2)). rewrite Hok. cbn [andb]. unfold shift_left. by rewrite Nat.ltb_irrefl.
Qed.

(** C17: A response that is sent is the response that is received, but for its end: of the text of its [dump],
    given in one piece to a new parser, every byte is taken, without an error, and the response that results
    has the status, the version and the body of the one sent, its headers with the one on the connection, the
    length of a body that is not empty, and the last of the cookies.  The reason and the other
    cookies are not kept.  A response without a body has no length, so that, unless its status is one
    without a body (1xx, 204 or 304), the parser is not finished: only the end of the connection ends it.
    The header is at most 80K, the status at most 999, the names and values are what the
    grammar allows, no header is one it knows, and there is no websocket. *)
Theorem response_roundtrip r :
  rsp_sendable r ->
  exists p, response_execute (rsp_dump r) (length (rsp_dump r)) new_HttpResponseParser = (length (rsp_dump r), rsp_dump r, p) /\
    hasError p = false /\ m_finished p = negb (bool_decide (r_body r = []) && negb (bodiless (r_status r))) /\
    let r' := m_data p in
    r_status r' = r_status r /\ r_version r' = r_version r /\ r_body r' = r_body r /\ r_reason r' = [] /\ r_cookies r' = [] /\
    forall k, map_find k (r_headers r') =
      if bool_decide (fold_key k = lit "connection") then Some (if r_close r then lit "close" else lit "keep-alive")
      else if bool_decide (fold_key k = lit "content-length")
      then (if bool_decide (r_body r = []) then None else Some (print_dec (Z.of_nat (length (r_body r)))))
      else if bool_decide (fold_key k = lit "set-cookie")
      then match last (r_cookies r) with Some c => Some c | None => map_find k (r_headers r) end
      else map_find k (r_headers r).
Proof.
  intros Hr. destruct (rsp_dump_executes r Hr) as (p & Hx & Hfin & Herr & Hdata). exists p. cbv zeta. rewrite Hdata.
  split_and!; [exact Hx|exact Herr|exact Hfin|done..|]. exact (rsp_headers_find r Hr).
Qed.

(** ** Witness *)

Definition some_response : HttpResponse :=
  mkResponse 404 17 false false [] [] [(lit "Server", lit "phase0")] [lit "a=b"; lit "c=d;path=/"].

Lemma some_rsp_sendable : rsp_sendable some_response.
Proof.
  split.
  - done.
  - by exists 1, 1.
  - constructor.
  - split; [by repeat constructor|]. constructor; [|constructor]. split; [split; [done|by repeat constructor]|]. split.
    + exists "p"%byte, (lit "hase0"). split; [done|]. split; [done|]. by repeat constructor.
    + apply (bool_decide_unpack _). by vm_compute.
  - constructor; [|constructor; [|constructor]].
    + exists "a"%byte, (lit "=b"). split; [done|]. split; [done|]. by repeat constructor.
    + exists "c"%byte, (lit "=d;path=/"). split; [done|]. split; [done|]. by repeat constructor.
  - done.
  - done.
  - by vm_compute.
Qed.

Lemma response_roundtrip_witness :
  exists p, response_execute (rsp_dump some_response) (length (rsp_dump some_response)) new_HttpResponseParser =
      (length (rsp_dump some_response), rsp_dump some_response, p) /\
    m_finished p = false /\ r_status (m_data p) = 404 /\
    map_find (lit "SET-cookie") (r_headers (m_data p)) = Some (lit "c=d;path=/").
Proof.
  destruct (response_roundtrip some_response some_rsp_sendable) as (p & Hx & _ & Hfin & Hs & _ & _ & _ & _ & Hf).
  exists p. split; [exact Hx|]. split; [exact Hfin|]. split; [exact Hs|]. rewrite Hf. reflexivity.
Defined.
