(* ===== verification/HttpExchangeTheorems.v ===== *)
(** * An exchange: a request received by a session, and the response it sends

    The session of HttpSession.cc over a stream, with the grammar of http_parser.cc: what is read
    is what a client has dumped, and what is sent is what a client parses. *)

From S2P Require Import Prelude Stream StreamTheorems Socket Http HttpTheorems Servlet HttpGrammar HttpGrammarTheorems HttpUrlTheorems HttpSession HttpSessionTheorems HttpParsing HttpParsingTheorems HttpRuns HttpFields HttpRoundTrip HttpRequestTheorems HttpResponseTheorems.
#[local] Set Default Goal Selector "!".

(** Bytes after those given are not looked at. *)
Lemma request_execute_take (bs rest : str) (p p' : HttpParser http_parser HttpRequest) :
  request_execute bs (length bs) p = (length bs, bs, p') ->
  request_execute (bs ++ rest) (length bs) p = (length bs, bs ++ rest, p').
Proof.
  unfold request_execute, execute. rewrite (take_ge bs) by done. rewrite (take_app_length bs rest).
  destruct (hp_execute (m_parser p) bs) as [[cbs n] q]. unfold shift_left.
  destruct (true && hp_upgrade q), (negb (hp_errno q =? 0)); intros Hx; simplify_eq; try done. by rewrite Nat.ltb_irrefl.
Qed.

Section exchange.
Context {K : Type} `{NetStream K inc out} (fnmatch : str -> str -> bool).
Implicit Types (s : SocketStream K) (h : HttpServer (K := K)) (r : HttpRequest).

(** The request received for [r]. *)
Definition received_for r (req : HttpRequest) : Prop :=
  m_method req = m_method r /\ m_version req = m_version r /\ m_close req = m_close r /\
  m_path req = m_path r /\ m_query req = m_query r /\ m_fragment req = m_fragment r /\ m_body req = m_body r /\
  forall k, map_find k (m_headers req) = map_find k (set_all (sent_fields r) []).

(** Receiving a request that one [read] brings. *)
Lemma recvRequest_whole fuel fresh r s s1 :
  sendable r -> (length (dump r) <= length fresh)%nat ->
  SocketStream_read (Z.of_nat (length fresh)) s = (Ok (Z.of_nat (length (dump r)), dump r), s1) ->
  exists req, recvRequest (S fuel) fresh s = (Ok (Some req), s1) /\ received_for r req.
Proof.
  intros Hr Hlen Hread. destruct (dump_executes r Hr) as (p & Hx & Hfin & Herr & Hdata). exists (init (m_data p)). split.
  - unfold recvRequest. cbn [recv_loop]. cbv zeta.
    rewrite Nat.sub_0_r, (bind_ok _ _ _ _ _ (room_run fresh 0 (Z.of_nat (length fresh)) s ltac:(lia) ltac:(lia))), (bind_ok _ _ _ _ _ Hread).
    assert (Hpos : (0 < length (dump r))%nat) by (unfold dump; rewrite !length_app; cbn [length]; unfold lit; cbn; lia).
    assert ((Z.of_nat (length (dump r)) <=? 0) = false) as -> by lia. cbv zeta. rewrite Nat2Z.id, Nat.add_0_r.
    assert (Hs : splice 0 (dump r) fresh = dump r ++ drop (length (dump r)) fresh) by done.
    rewrite Hs, (request_execute_take _ _ _ _ Hx), Herr, Nat.sub_diag, length_app.
    rewrite (proj2 (Nat.eqb_neq _ _)) by lia. by rewrite Hfin.
  - rewrite Hdata. pose proof (sent_headers_find r Hr (lit "connection")) as Hconn. cbn [bool_decide] in Hconn.
    change (bool_decide (fold_key (lit "connection") = lit "connection")) with true in Hconn. cbv iota in Hconn.
    unfold received_for, init, getHeader. cbn [m_headers]. rewrite Hconn. cbn [default].
    rewrite bool_decide_false by by destruct (m_close r). split_and!; try done. by destruct (m_close r).
Qed.

(** Servlets that answer the request received for [r]: they return, leave the session and the flag of the request
    on closing as they are, and make a response that can be sent. *)
Definition answers h r : Prop := forall req s, received_for r req ->
  exists req' rsp, run_servlet fnmatch h req (first_response h req) s = (Ok (req', rsp), s) /\ m_close req' = m_close req /\
    rsp_sendable rsp /\ Z.of_nat (length (rsp_dump rsp)) < 2 ^ 31.

(** C18: An exchange, from the request a client has to the response it gets: when one [read] of the session
    brings the text of the request, and the servlets answer, a turn of [handleClient] hands the servlet the
    request of the client, with its method, version, URL, headers, body and flag on closing, calls
    [sendResponse] with the response the servlet makes, which sends its whole text, or the start of it when
    a call of the stream moves nothing, and goes on exactly when both the server and the request keep the
    connection alive.  The text, given to a new parser, is a response with the status, version and body the
    servlet set. *)
Theorem exchange fuel reads fresh h r s s1 :
  sendable r -> (length (dump r) <= length (fresh fuel))%nat ->
  SocketStream_read (Z.of_nat (length (fresh fuel))) s = (Ok (Z.of_nat (length (dump r)), dump r), s1) -> answers h r ->
  exists req req' rsp ret s2,
    received_for r req /\ run_servlet fnmatch h req (first_response h req) s1 = (Ok (req', rsp), s1) /\
    serve fnmatch (S fuel) (S reads) fresh h s =
      (if m_isKeepalive h && negb (m_close r) then serve fnmatch fuel (S reads) fresh h s2 else (Ok tt, s2)) /\
    sendResponse rsp s1 = (Ok ret, s2) /\ sent (inc := inc) (out := out) (rsp_dump rsp) s1 ret s2 /\
    exists p, response_execute (rsp_dump rsp) (length (rsp_dump rsp)) new_HttpResponseParser = (length (rsp_dump rsp), rsp_dump rsp, p) /\
      hasError p = false /\ r_status (m_data p) = r_status rsp /\ r_version (m_data p) = r_version rsp /\ r_body (m_data p) = r_body rsp.
Proof.
  intros Hr Hlen Hread Ha. destruct (recvRequest_whole reads (fresh fuel) r s s1 Hr Hlen Hread) as (req & Hrecv & Hreq).
  destruct (Ha req s1 Hreq) as (req' & rsp & Hrun & Hc & Hrsp & Hmax).
  destruct (sendResponse_run rsp s1 Hmax) as (ret & s2 & Hsend & Hsent).
  destruct (rsp_dump_executes rsp Hrsp) as (p & Hx & _ & Herr & Hdata).
  exists req, req', rsp, ret, s2. split; [exact Hreq|]. split; [exact Hrun|]. split; [|split; [exact Hsend|split; [exact Hsent|exists p; by rewrite Hdata]]].
  cbn [serve]. rewrite (bind_ok _ _ _ _ _ Hrecv). cbv zeta. fold (first_response h req).
  rewrite (bind_ok _ _ _ _ _ Hrun), (bind_ok _ _ _ _ _ Hsend), Hc. destruct Hreq as (_ & _ & -> & _).
  by destruct (m_isKeepalive h), (m_close r).
Qed.
End exchange.

(** ** Witnesses *)

(** A system that brings all there is at once, to a server that has no servlet but the default one. *)
#[local] Instance wide_net : Net (str * str) := pipe_of 65536.
#[local] Instance wide_stream : NetStream (str * str) (fun _ k => fst k) (fun _ k => snd k).
Proof. by apply (pipe_of_stream 65536). Qed.

Definition client (text : str) : SocketStream (str * str) := mkSS (Some (mkSock 3 2 1 0 true None None)) true (text, []).
Definition blank (n : nat) : str := replicate n x00.

Lemma answer_sendable close : rsp_sendable (answer 17 close).
Proof.
  split.
  - done.
  - by exists 1, 1.
  - constructor.
  - split; [by repeat constructor|]. repeat (apply Forall_cons; split; [split; [split; [done|by repeat constructor]|split]|]); [..|apply Forall_nil; done].
    all: try (apply (bool_decide_unpack _); by vm_compute).
    all: eexists _, _; split; [reflexivity|]; split; [done|]; by repeat constructor.
  - constructor.
  - done.
  - by vm_compute.
  - destruct close; by vm_compute.
Qed.

Lemma plain_answers keepalive : answers no_match (plain_server keepalive) some_request.
Proof.
  intros req s (_ & Hv & _). exists req, (answer (m_version req) (m_close req || negb keepalive)).
  split; [destruct keepalive; vm_compute; reflexivity|].
  split; [done|]. rewrite Hv. change (m_version some_request) with 17. split; [apply answer_sendable|]. pose proof (answer_length 17 (m_close req || negb keepalive)). lia.
Qed.

Lemma exchange_witness :
  exists req req' rsp ret s2, received_for some_request req /\
    run_servlet no_match (plain_server false) req (first_response (plain_server false) req) (client []) = (Ok (req', rsp), client []) /\
    serve no_match 1 1 (fun _ => blank 4096) (plain_server false) (client (dump some_request)) = (Ok tt, s2) /\
    sendResponse rsp (client []) = (Ok ret, s2) /\
    ss_view (fun _ k => snd k) s2 = rsp_dump (answer 17 true).
Proof.
  destruct (exchange no_match 0 0 (fun _ => blank 4096) (plain_server false) some_request (client (dump some_request)) (client []))
    as (req & req' & rsp & ret & s2 & Hreq & Hrun & Hserve & Hsend & _).
  - exact some_sendable.
  - vm_compute. lia.
  - vm_compute. reflexivity.
  - apply plain_answers.
  - exists req, req', rsp, ret, s2. split; [exact Hreq|]. split; [exact Hrun|]. split; [exact Hserve|]. split; [exact Hsend|].
    vm_compute in Hserve. injection Hserve as <-. by vm_compute.
Defined.

(** A buffer shorter than the header: the value of a header that two reads bring is cut, the first part lost,
    and the request is received all the same. *)
Example split_header_lost :
  let get := lit "GET / HTTP/1.1" ++ crlf ++ lit "Host: abcd" ++ crlf ++ crlf in
  let host fresh := match fst (recvRequest 3 fresh (client get)) with
                    | Ok (Some req) => map_find (lit "Host") (m_headers req) | _ => None end in
  host (blank 4096) = Some (lit "abcd") /\ host (blank 24) = Some (lit "cd").
Proof. split; vm_compute; reflexivity. Qed.
