(* ===== verification/HttpScan.v ===== *)
(** * The loops of the HTTP grammar over names and values, as scans

    What the loops of [http_parser_execute] over the name and the value of a header make of the
    parser, one character after the other, without the offsets, the limits and the inner
    loops that pass many characters at once. *)

From S2P Require Import Prelude Http HttpGrammar HttpExecute HttpGrammarTheorems.
#[local] Set Default Goal Selector "!".

#[export] Instance header_states_eq : EqDecision header_states.
Proof. solve_decision. Defined.

(** Locals of which only the parser counts. *)
Definition with_only (q : http_parser) : locals := mkX q s_dead 0 0 x00 None None None None None [].

(** ** Names *)

Section field.
Context (max_header_size : Z) (data : str).
Abbreviation len := (length data).
Implicit Types (x : locals) (q : http_parser).

(** The parser after one character. *)
Definition field_step q (c : byte) : option http_parser :=
  match pr_header_state q with
  | h_general => Some q
  | _ => match field_char 0 [] 0 c (TOKEN c) (with_only q) with (inl _, x) => Some (parser x) | _ => None end
  end.

(** The characters of the name, and the parser after them. *)
Fixpoint field_scan q (s : str) : option (nat * http_parser) :=
  match s with
  | [] => Some (0%nat, q)
  | c :: s =>
      if eqc (TOKEN c) x00 then Some (0%nat, q)
      else q' ← field_step q c; '(k, q'') ← field_scan q' s; Some (S k, q'')
  end.

Lemma field_char_step fuel c x :
  pr_header_state (parser x) <> h_general ->
  match field_step (parser x) c with
  | Some q => field_char max_header_size data fuel c (TOKEN c) x = (inl tt, x_parser (fun _ => q) x)
  | None => exists x', field_char max_header_size data fuel c (TOKEN c) x = (inr (crashing AssertFail), x')
  end.
Proof.
  intros Hh. unfold field_step, field_char, mbind, X_bind, the. destruct x as [q ? ? ? ? ? ? ? ? ? ?]. cbn [parser with_only] in *.
  destruct (pr_header_state q) eqn:E; try done; cbn; try (destruct (eqc c " "); cbn; done || by eexists); try (by eexists).
Qed.

(** In the general state a name is passed over. *)
Lemma scan_general q a b :
  pr_header_state q = h_general -> Forall (fun c => eqc (TOKEN c) x00 = false) a ->
  field_scan q (a ++ b) = '(k, q') ← field_scan q b; Some ((length a + k)%nat, q').
Proof.
  intros Hq Ha. induction Ha as [|c a Hc _ IH]; [cbn; by destruct (field_scan q b) as [[]|]|].
  cbn [app field_scan length]. rewrite Hc. unfold field_step. rewrite Hq. cbn [mbind option_bind]. rewrite IH.
  by destruct (field_scan q b) as [[]|].
Qed.

Lemma skip_tokens_far fuel pe x :
  (p x < len)%nat -> (pe <= len)%nat -> (len - p x < fuel)%nat ->
  exists j, skip_tokens data fuel pe x = (inl tt, x_p (fun n => n + j)%nat x) /\ (p x + j < len)%nat /\
    Forall (fun c => eqc (TOKEN c) x00 = false) (slice (S (p x)) j data).
Proof.
  intros Hp Hpe. revert x Hp. induction fuel as [|fuel IH]; intros x Hp Hf; [lia|]. cbn [skip_tokens].
  assert (Hstay : exists j, (inl tt : () + stop, x) = (inl tt, x_p (fun n => n + j)%nat x) /\ (p x + j < len)%nat /\
    Forall (fun c => eqc (TOKEN c) x00 = false) (slice (S (p x)) j data)).
  { exists 0%nat. split; [|split; [lia|constructor]]. f_equal. unfold x_p. rewrite Nat.add_0_r. by destruct x. }
  unfold mbind, X_bind, the. destruct (Nat.ltb_spec (S (p x)) pe); [|exact Hstay].
  destruct (data !! S (p x)) as [c|] eqn:Ec; [|apply lookup_ge_None in Ec; lia].
  destruct (eqc (TOKEN c) x00) eqn:Et; [exact Hstay|]. unfold upd.
  destruct (IH (x_p S x)) as (j & Hrun & Hj & Hall); [cbn; lia|cbn; lia|]. exists (S j).
  split; [rewrite Hrun; f_equal; unfold x_p; cbn; f_equal; lia|]. cbn [p x_p] in *. split; [lia|].
  replace (S j) with (1 + j)%nat by lia. rewrite slice_add. apply Forall_app. split; [|by rewrite Nat.add_1_r].
  unfold slice. erewrite drop_S by exact Ec. by repeat constructor.
Qed.

Definition at_field (k : nat) (c : byte) (q : http_parser) x : locals := x_p (fun n => n + k)%nat (x_ch c (x_parser (fun _ => q) x)).

Lemma at_field_0 c x : at_field 0 c (parser x) x = x_ch c x.
Proof. unfold at_field, x_p. cbn. rewrite Nat.add_0_r. by destruct x. Qed.

(** One turn of the loop: [j] more characters than the one it is on. *)
Lemma field_turn c x :
  data !! p x = Some c -> eqc (TOKEN c) x00 = false ->
  (exists j q, field_char max_header_size data (S len) c (TOKEN c) (x_ch c x) = (inl tt, at_field j c q x) /\ (p x + j < len)%nat /\
     field_scan (parser x) (drop (p x) data) = '(k, q') ← field_scan q (drop (p x + S j) data); Some ((S j + k)%nat, q')) \/
  (exists x', field_char max_header_size data (S len) c (TOKEN c) (x_ch c x) = (inr (crashing AssertFail), x') /\
     field_scan (parser x) (drop (p x) data) = None).
Proof.
  intros Hc Et. pose proof (lookup_lt_Some _ _ _ Hc) as Hlt. destruct (decide (pr_header_state (parser x) = h_general)) as [Hg|Hg].
  - left. destruct (skip_tokens_far (S len) (far_end max_header_size data (x_ch c x)) (x_ch c x)) as (j & Hrun & Hj & Hall);
      [cbn; lia|unfold far_end, HttpExecute.len; cbn; lia|cbn; lia|]. cbn [p x_ch] in *. exists j, (parser x). split_and!; [|done|].
    + unfold field_char. rewrite (xb (the _) _ _ h_general (x_ch c x)) by (unfold the; cbn; by rewrite Hg).
      rewrite (xb (the _) _ _ _ _ (eq_refl : the (far_end max_header_size data) (x_ch c x) = (inl _, x_ch c x))), Hrun. reflexivity.
    + assert (Hd : drop (p x) data = (c :: slice (S (p x)) j data) ++ drop (p x + S j) data).
      { rewrite (drop_S _ _ _ Hc). cbn [app]. f_equal. unfold slice. rewrite Nat.add_succ_r, <- Nat.add_succ_l, <- drop_drop. symmetry. apply take_drop. }
      rewrite Hd, scan_general; [|done|by constructor]. cbn [length]. by rewrite length_slice by lia.
  - pose proof (field_char_step (S len) c (x_ch c x) Hg) as Hstep. cbn [parser x_ch] in Hstep.
    rewrite (drop_S _ _ _ Hc). cbn [field_scan]. rewrite Et. destruct (field_step (parser x) c) as [q|].
    + left. exists 0%nat, q. rewrite Hstep, Nat.add_1_r. split_and!; [|lia|done]. f_equal. unfold at_field, x_p. cbn. by rewrite Nat.add_0_r.
    + right. destruct Hstep as (x' & Hrun). by exists x'.
Qed.

Lemma at_field_next j k c c' q q' x : at_field k c' q' (x_p S (at_field j c q x)) = at_field (S j + k) c' q' x.
Proof. unfold at_field, x_p. cbn. f_equal. lia. Qed.

Lemma field_loop_scan fuel x :
  (p x <= len)%nat -> (len - p x < fuel)%nat ->
  match field_scan (parser x) (drop (p x) data) with
  | Some (k, q) => exists c, field_loop max_header_size data fuel x = (inl tt, at_field k c q x) /\ (p x + k <= len)%nat /\
      forall d, data !! (p x + k)%nat = Some d -> c = d
  | None => exists x', field_loop max_header_size data fuel x = (inr (crashing AssertFail), x')
  end.
Proof.
  revert x. induction fuel as [|fuel IH]; intros x Hp Hf; [lia|]. cbn [field_loop]. unfold HttpExecute.len.
  rewrite (xb _ _ _ _ _ (eq_refl : the p x = (inl (p x), x))). destruct (Nat.eqb_spec (p x) len) as [E|Hne].
  { rewrite drop_ge by lia. cbn [field_scan]. exists (ch x). rewrite at_field_0. split; [by destruct x|]. split; [lia|].
    intros d Hd. apply lookup_lt_Some in Hd. lia. }
  destruct (lookup_lt_is_Some_2 data (p x) ltac:(lia)) as [c Hc].
  rewrite (xb (read_ch data) _ x tt (x_ch c x)) by (unfold read_ch; by rewrite Hc).
  rewrite (xb (the ch) _ _ c (x_ch c x)) by done.
  destruct (eqc (TOKEN c) x00) eqn:Et.
  { rewrite (drop_S _ _ _ Hc). cbn [field_scan]. rewrite Et. exists c. split; [by rewrite at_field_0|]. split; [lia|]. rewrite Nat.add_0_r. congruence. }
  destruct (field_turn c x Hc Et) as [(j & q & Hchar & Hj & ->)|(x' & Hchar & ->)]; [|exists x'; by apply xstop].
  rewrite (xb _ _ _ _ _ Hchar), (xb (upd _) _ _ tt (x_p S (at_field j c q x))) by done.
  specialize (IH (x_p S (at_field j c q x))). cbn [p parser x_p x_ch x_parser at_field] in IH.
  rewrite <- Nat.add_succ_r in IH. destruct (field_scan q (drop (p x + S j) data)) as [[k q']|]; cbn [mbind option_bind].
  - destruct IH as (c' & -> & Hk & Hc'); [lia|lia|]. exists c'. rewrite at_field_next. split_and!; [done|lia|].
    intros d Hd. apply Hc'. by replace (p x + S j + k)%nat with (p x + (S j + k))%nat by lia.
  - destruct IH as (x' & ->); [lia|lia|]. by exists x'.
Qed.
End field.

Lemma field_scan_length q s k q' : field_scan q s = Some (k, q') -> (k <= length s)%nat.
Proof.
  revert q k. induction s as [|c s IH]; intros q k; [by intros [= <- <-]|]. cbn [field_scan].
  destruct (eqc _ _); [intros [= <- <-]; cbn; lia|]. destruct (field_step q c) as [q1|]; [|done]. cbn [mbind option_bind].
  destruct (field_scan q1 s) as [[k1 q2]|] eqn:E2; [|done]. intros [= <- <-]. specialize (IH _ _ E2). cbn. lia.
Qed.

(** A name in two parts. *)
Lemma field_scan_app q s1 s2 :
  field_scan q (s1 ++ s2) =
  '(k, q1) ← field_scan q s1;
  if (k <? length s1)%nat then Some (k, q1) else '(k2, q2) ← field_scan q1 s2; Some ((length s1 + k2)%nat, q2).
Proof.
  revert q. induction s1 as [|c s1 IH]; intros q.
  { cbn. by destruct (field_scan q s2) as [[]|]. }
  cbn [app field_scan length]. destruct (eqc _ _); [done|]. destruct (field_step q c) as [q1|]; [|done]. cbn [mbind option_bind].
  rewrite IH. destruct (field_scan q1 s1) as [[k1 q2]|]; [|done]. cbn [mbind option_bind].
  change (S k1 <? S (length s1))%nat with (k1 <? length s1)%nat. destruct (k1 <? length s1)%nat; [done|]. by destruct (field_scan q2 s2) as [[]|].
Qed.

(** ** Values *)

(** The stops that are no return. *)
Definition bad (s : stop) : Prop := match s with returned _ => False | _ => True end.

Section value.
Context (settings : http_parser_settings) (max_header_size : Z) (data : str) (lenient : bool).
Abbreviation len := (length data).
Implicit Types (x : locals) (q : http_parser) (h : header_states).

(** The state and the parser after one character. *)
Definition value_step h q (c : byte) : option (header_states * http_parser) :=
  match h with
  | h_general => Some (h, q)
  | _ => match value_char 0 [] false 0 h c (LOWER c) (with_only q) with (inl h', x) => Some (h', parser x) | _ => None end
  end.

(** The characters of the value to the end of the line, the state and the parser after them. *)
Fixpoint value_scan h q (s : str) : option (nat * header_states * http_parser) :=
  match s with
  | [] => Some (0%nat, h, q)
  | c :: s =>
      if eqc c CR || eqc c LF then Some (0%nat, h, q)
      else if negb lenient && negb (IS_HEADER_CHAR c) then None
      else '(h', q') ← value_step h q c; '(k, h'', q'') ← value_scan h' q' s; Some (S k, h'', q'')
  end.

Lemma value_char_step fuel h c x :
  h <> h_general -> p_state x = s_header_value ->
  match value_step h (parser x) c with
  | Some (h', q) => value_char max_header_size data lenient fuel h c (LOWER c) x = (inl h', x_parser (fun _ => q) x)
  | None => exists s x', value_char max_header_size data lenient fuel h c (LOWER c) x = (inr s, x') /\ bad s
  end.
Proof.
  intros Hh Hs. unfold value_step, value_char. destruct x as [q ps ? ? ? ? ? ? ? ? ?]. cbn in Hs. subst ps. cbn [parser].
  unfold content_length_digit, fails_in, set_hs, next_index, with_parser, UPDATE_STATE, SET_ERRNO, stops, mbind, X_bind, mret, X_ret, the, upd.
  destruct h; try done; unfold mret, X_ret; cbn [parser with_only fst snd].
  all: repeat match goal with
    | |- context [if ?b then _ else _] => destruct b eqn:?; cbn -[set_index]
    | |- context [only_if ?b _] => destruct b eqn:?; cbn -[set_index]
    end; try done; by eexists _, _.
Qed.
(** A character within a value. *)
Definition ends (c : byte) : bool := eqc c CR || eqc c LF.
Definition fine (c : byte) : Prop := ends c = false /\ negb lenient && negb (IS_HEADER_CHAR c) = false.

(** In the general state a value is passed over. *)
Lemma value_scan_general q a b :
  Forall fine a -> value_scan h_general q (a ++ b) = '(k, h, q') ← value_scan h_general q b; Some ((length a + k)%nat, h, q').
Proof.
  induction 1 as [|c a [He Hc] _ IH]; [cbn; by destruct (value_scan h_general q b) as [[[]]|]|].
  cbn [app value_scan length]. unfold ends in He. rewrite He, Hc. cbn [value_step mbind option_bind]. rewrite IH.
  by destruct (value_scan h_general q b) as [[[]]|].
Qed.

Lemma value_scan_bad q c s : ends c = false -> negb lenient && negb (IS_HEADER_CHAR c) = true -> value_scan h_general q (c :: s) = None.
Proof. unfold ends. intros He Hc. cbn [value_scan]. by rewrite He, Hc. Qed.

(** How [value_skip] ends, after the [j] characters it passes. *)
Definition skipped (fuel : nat) (j : nat) x : Prop :=
  match data !! (p x + j)%nat with
  | None => (p x + j)%nat = len /\ exists c, value_skip data lenient fuel len x = (inl tt, x_p (fun _ => len) (x_ch c x))
  | Some d =>
      if ends d then exists c, value_skip data lenient fuel len x = (inl tt, x_p (fun _ => pred (p x + j)) (x_ch c x))
      else negb lenient && negb (IS_HEADER_CHAR d) = true /\ exists x', value_skip data lenient fuel len x = (inr goto_error, x')
  end.

Lemma value_skip_far fuel x :
  (p x <= len)%nat -> (len - p x < fuel)%nat ->
  exists j, (p x + j <= len)%nat /\ Forall fine (slice (p x) j data) /\ skipped fuel j x.
Proof.
  revert x. induction fuel as [|fuel IH]; intros x Hp Hf; [lia|]. unfold skipped. cbn [value_skip].
  rewrite (xb _ _ _ _ _ (eq_refl : the p x = (inl (p x), x))). destruct (Nat.eqb_spec (p x) len) as [E|Hne].
  { exists 0%nat. split; [lia|]. split; [constructor|]. rewrite Nat.add_0_r, lookup_ge_None_2 by lia. split; [done|]. exists (ch x). rewrite <- E. by destruct x. }
  destruct (lookup_lt_is_Some_2 data (p x) ltac:(lia)) as [c Hc].
  rewrite (xb (read_ch data) _ x tt (x_ch c x)) by (unfold read_ch; by rewrite Hc).
  rewrite (xb (the ch) _ _ c (x_ch c x)) by done. fold (ends c). destruct (ends c) eqn:He.
  { exists 0%nat. split; [lia|]. split; [constructor|]. rewrite Nat.add_0_r, Hc, He. by exists c. }
  destruct (negb lenient && negb (IS_HEADER_CHAR c)) eqn:Ec.
  { exists 0%nat. split; [lia|]. split; [constructor|]. rewrite Nat.add_0_r, Hc, He, Ec. split; [done|]. by eexists. }
  cbn [only_if]. xstep. rewrite (xb (upd _) _ _ tt (x_p S (x_ch c x))) by done.
  destruct (IH (x_p S (x_ch c x))) as (j & Hj & Hall & Hrun); [cbn; lia|cbn; lia|]. cbn [p x_p x_ch] in Hj, Hall. exists (S j).
  split; [lia|]. split.
  { change (S j) with (1 + j)%nat. rewrite slice_add, Nat.add_1_r. apply Forall_app. split; [|done]. unfold slice. erewrite drop_S by exact Hc. by repeat constructor. }
  unfold skipped in Hrun. cbn [p x_p x_ch] in Hrun. rewrite Nat.add_succ_r, <- Nat.add_succ_l. exact Hrun.
Qed.

(** One turn of the loop. *)
Lemma value_turn h c x :
  Z.of_nat len <= max_header_size -> p_state x = s_header_value -> data !! p x = Some c -> fine c ->
  (exists j h' q c', value_char max_header_size data lenient (S len) h c (LOWER c) (x_ch c x) = (inl h', at_field j c' q x) /\ (p x + j < len)%nat /\
     value_scan h (parser x) (drop (p x) data) = '(k, h'', q') ← value_scan h' q (drop (p x + S j) data); Some ((S j + k)%nat, h'', q')) \/
  (exists s x', value_char max_header_size data lenient (S len) h c (LOWER c) (x_ch c x) = (inr s, x') /\ bad s /\
     value_scan h (parser x) (drop (p x) data) = None).
Proof.
  intros Hmax Hs Hc [He Hh]. pose proof (lookup_lt_Some _ _ _ Hc) as Hlt. destruct (decide (h = h_general)) as [->|Hg].
  - cbn [value_char]. rewrite (xb _ _ _ _ _ (eq_refl : the (far_end max_header_size data) (x_ch c x) = (inl _, x_ch c x))).
    assert (far_end max_header_size data (x_ch c x) = len) as -> by (unfold far_end, HttpExecute.len; cbn; lia).
    destruct (value_skip_far (S len) (x_ch c x)) as (j & Hj & Hall & Hrun); [cbn; lia|cbn; lia|]. unfold skipped in Hrun. cbn [p x_ch] in *.
    assert (Hd : drop (p x) data = slice (p x) j data ++ drop (p x + j) data) by (unfold slice; rewrite <- drop_drop; symmetry; apply take_drop).
    destruct (data !! (p x + j)%nat) as [d|] eqn:Ed.
    + destruct (ends d) eqn:Edd.
      * left. destruct Hrun as [c' Hrun]. assert (0 < j)%nat by (destruct j; [rewrite Nat.add_0_r in Ed; congruence|lia]).
        exists (pred j), h_general, (parser x), c'. pose proof (lookup_lt_Some _ _ _ Ed). split_and!; [|lia|].
        -- rewrite (xb _ _ _ _ _ Hrun), (xb (the p) _ _ _ _ eq_refl). cbn [p x_p]. unfold HttpExecute.len.
           destruct (Nat.eqb_spec (pred (p x + j)) len); [lia|]. cbn [only_if]. xstep. unfold mret, X_ret. f_equal. unfold at_field, x_p. cbn. f_equal. lia.
        -- rewrite Hd, value_scan_general by done. rewrite length_slice by lia. by replace (S (pred j)) with j by lia.
      * right. destruct Hrun as (Hb & x' & Hrun). exists goto_error, x'. split; [by apply xstop|]. split; [done|].
        rewrite Hd, value_scan_general by done. erewrite drop_S by exact Ed. by rewrite value_scan_bad.
    + left. destruct Hrun as (E & c' & Hrun). exists (pred j), h_general, (parser x), c'. split_and!; [|lia|].
      * rewrite (xb _ _ _ _ _ Hrun), (xb (the p) _ _ _ _ eq_refl). cbn [p x_p]. unfold HttpExecute.len. rewrite Nat.eqb_refl. cbn [only_if].
        rewrite (xb (upd _) _ _ tt _ eq_refl). unfold mret, X_ret. f_equal. unfold at_field, x_p. cbn. f_equal. lia.
      * rewrite Hd, value_scan_general by done. rewrite length_slice by lia. by replace (S (pred j)) with j by lia.
  - pose proof (value_char_step (S len) h c (x_ch c x) Hg Hs) as Hstep. cbn [parser x_ch] in Hstep.
    rewrite (drop_S _ _ _ Hc). cbn [value_scan]. unfold ends in He. rewrite He, Hh. destruct (value_step h (parser x) c) as [[h' q]|].
    + left. exists 0%nat, h', q, c. rewrite Hstep, Nat.add_1_r. split_and!; [|lia|done]. f_equal. unfold at_field, x_p. cbn. by rewrite Nat.add_0_r.
    + right. destruct Hstep as (s & x' & Hrun & Hb). by exists s, x'.
Qed.

(** The whole loop: at the end of the line or of the data, the rest of one turn is left. *)
Lemma value_loop_scan fuel start h x :
  Z.of_nat len <= max_header_size -> p_state x = s_header_value -> (p x <= len)%nat -> (len - p x < fuel)%nat ->
  match value_scan h (parser x) (drop (p x) data) with
  | Some (k, h', q) => exists c, (p x + k <= len)%nat /\
      value_loop settings max_header_size data lenient fuel start h x =
      value_loop settings max_header_size data lenient 1 start h' (at_field k c q x)
  | None => exists s x', value_loop settings max_header_size data lenient fuel start h x = (inr s, x') /\ bad s
  end.
Proof.
  intros Hmax. revert h x. induction fuel as [|fuel IH]; intros h x Hs Hp Hf; [lia|]. cbn [value_loop]. unfold HttpExecute.len.
  rewrite !(xb _ _ _ _ _ (eq_refl : the p _ = (inl (p _), _))). destruct (Nat.eqb_spec (p x) len) as [E|Hne].
  { rewrite drop_ge by lia. cbn [value_scan]. exists (ch x). split; [lia|]. rewrite at_field_0.
    rewrite (xb _ _ _ _ _ (eq_refl : the p _ = (inl (p _), _))). cbn [p x_ch]. rewrite E, Nat.eqb_refl. by destruct x. }
  destruct (lookup_lt_is_Some_2 data (p x) ltac:(lia)) as [c Hc].
  rewrite (xb (read_ch data) _ x tt (x_ch c x)) by (unfold read_ch; by rewrite Hc).
  rewrite (xb (the ch) _ _ c (x_ch c x)) by done.
  destruct (ends c) eqn:He.
  { rewrite (drop_S _ _ _ Hc). cbn [value_scan]. unfold ends in He. rewrite He. exists c. split; [lia|].
    rewrite at_field_0, (xb _ _ _ _ _ (eq_refl : the p _ = (inl (p _), _))). cbn [p x_ch]. destruct (Nat.eqb_spec (p x) len); [done|].
    rewrite (xb (read_ch data) _ (x_ch c x) tt (x_ch c x)) by (unfold read_ch; cbn [p x_ch]; by rewrite Hc).
    rewrite (xb (the ch) _ _ c (x_ch c x)) by done. destruct (eqc c CR); [done|]. destruct (eqc c LF); done. }
  assert (eqc c CR = false /\ eqc c LF = false) as [-> ->] by by apply orb_false_iff.
  destruct (negb lenient && negb (IS_HEADER_CHAR c)) eqn:Eh.
  { rewrite (drop_S _ _ _ Hc). cbn [value_scan]. unfold ends in He. rewrite He, Eh. exists goto_error. by eexists. }
  cbn [only_if]. xstep. destruct (value_turn h c x Hmax Hs Hc (conj He Eh)) as [(j & h' & q & c' & Hchar & Hj & ->)|(s & x' & Hchar & Hb & ->)].
  2: { exists s, x'. split; [by apply xstop|done]. }
  rewrite (xb _ _ _ _ _ Hchar), (xb (upd _) _ _ tt (x_p S (at_field j c' q x))) by done.
  specialize (IH h' (x_p S (at_field j c' q x)) Hs). cbn [p parser x_p x_ch x_parser at_field] in IH.
  rewrite <- Nat.add_succ_r in IH. destruct (value_scan h' q (drop (p x + S j) data)) as [[[k h''] q']|]; cbn [mbind option_bind].
  - destruct IH as (c2 & Hk & ->); [lia|lia|]. exists c2. split; [lia|]. by rewrite at_field_next.
  - destruct IH as (s & x' & -> & Hb); [lia|lia|]. by exists s, x'.
Qed.
End value.

Lemma value_scan_length lenient h q s k h' q' : value_scan lenient h q s = Some (k, h', q') -> (k <= length s)%nat.
Proof.
  revert h q k. induction s as [|c s IH]; intros h q k; [by intros [= <- <- <-]|]. cbn [value_scan].
  destruct (_ || _); [intros [= <- <- <-]; cbn; lia|]. destruct (_ && _); [done|].
  destruct (value_step h q c) as [[h1 q1]|]; [|done]. cbn [mbind option_bind].
  destruct (value_scan lenient h1 q1 s) as [[[k1 h2] q2]|] eqn:E2; [|done]. intros [= <- <- <-]. specialize (IH _ _ _ E2). cbn. lia.
Qed.

(** What stops the scan of a value within the text. *)
Lemma value_scan_end lenient h q s k h' q' :
  value_scan lenient h q s = Some (k, h', q') -> (k < length s)%nat -> exists c, s !! k = Some c /\ ends c = true.
Proof.
  revert h q k. induction s as [|c s IH]; intros h q k; [cbn; lia|]. cbn [value_scan]. fold (ends c).
  destruct (ends c) eqn:He; [intros [= <- <- <-] _; by exists c|]. destruct (_ && _); [done|].
  destruct (value_step h q c) as [[h1 q1]|]; [|done]. cbn [mbind option_bind].
  destruct (value_scan lenient h1 q1 s) as [[[k1 h2] q2]|] eqn:E2; [|done]. intros [= <- <- <-] Hk. cbn in Hk. apply (IH _ _ _ E2). lia.
Qed.

(** The header state in the parser is not the one that counts. *)
Lemma value_step_hs h a q c : value_step h (set_header_state a q) c = '(h', q') ← value_step h q c; Some (h', set_header_state a q').
Proof.
  unfold value_step, value_char, content_length_digit, fails_in, set_hs, next_index, with_parser, UPDATE_STATE, SET_ERRNO, stops, mbind, X_bind, mret, X_ret, the, upd.
  destruct h; try done; cbn [parser with_only fst snd].
  all: repeat match goal with
    | |- context [if ?b then _ else _] => destruct b eqn:?; cbn -[set_index]
    | |- context [only_if ?b _] => destruct b eqn:?; cbn -[set_index]
    end; done.
Qed.

Lemma value_scan_hs lenient h a q s :
  value_scan lenient h (set_header_state a q) s = '(k, h', q') ← value_scan lenient h q s; Some (k, h', set_header_state a q').
Proof.
  revert h q. induction s as [|c s IH]; intros h q; [done|]. cbn [value_scan]. destruct (_ || _); [done|]. destruct (_ && _); [done|].
  rewrite value_step_hs. destruct (value_step h q c) as [[h1 q1]|]; [|done]. cbn [mbind option_bind]. rewrite IH.
  by destruct (value_scan lenient h1 q1 s) as [[[]]|].
Qed.

(** A value in two parts. *)
Lemma value_scan_app lenient h q s1 s2 :
  value_scan lenient h q (s1 ++ s2) =
  '(k, h1, q1) ← value_scan lenient h q s1;
  if (k <? length s1)%nat then Some (k, h1, q1) else '(k2, h2, q2) ← value_scan lenient h1 q1 s2; Some ((length s1 + k2)%nat, h2, q2).
Proof.
  revert h q. induction s1 as [|c s1 IH]; intros h q.
  { cbn. by destruct (value_scan lenient h q s2) as [[[]]|]. }
  cbn [app value_scan length]. destruct (_ || _); [done|]. destruct (_ && _); [done|].
  destruct (value_step h q c) as [[h' q']|]; [|done]. cbn [mbind option_bind].
  rewrite IH. destruct (value_scan lenient h' q' s1) as [[[k1 h1] q1]|]; [|done]. cbn [mbind option_bind].
  change (S k1 <? S (length s1))%nat with (k1 <? length s1)%nat. destruct (k1 <? length s1)%nat; [done|]. by destruct (value_scan lenient h1 q1 s2) as [[[]]|].
Qed.
