(* ===== verification/HttpChunks.v ===== *)
(** * The HTTP grammar on two buffers: a relational logic for [http_parser_execute]

    Two computations run the same code on buffers of which one lies in the other.  Every
    step keeps a relation between their locals: offsets differ by the place of the buffer, a
    piece already reported on one side is still marked on the other, and the callbacks are
    the same when the pieces of one text are put together. *)

From S2P Require Import Prelude Http HttpGrammar HttpExecute HttpGrammarTheorems HttpSession HttpParsing HttpScan.
#[local] Set Default Goal Selector "!".

(** ** The callbacks up to the division of texts *)

(** A callback after those of the list, the last one first: with a text next to another piece of it. *)
Definition join (acc : list http_callback) (e : http_callback) : list http_callback :=
  match acc, e with
  | on_url a :: acc, on_url b => on_url (a ++ b) :: acc
  | on_status a _ :: acc, on_status b code => on_status (a ++ b) code :: acc
  | on_header_field a :: acc, on_header_field b => on_header_field (a ++ b) :: acc
  | on_header_value a :: acc, on_header_value b => on_header_value (a ++ b) :: acc
  | on_body a :: acc, on_body b => on_body (a ++ b) :: acc
  | acc, e => e :: acc
  end.
Definition merge (l : list http_callback) : list http_callback := rev (fold_left join l []).

(** A piece of a text; [code] is the status. *)
Definition piece (f : data_cb) (code : Z) (bytes : str) : http_callback :=
  match f with
  | cb_url => on_url bytes
  | cb_status => on_status bytes code
  | cb_header_field => on_header_field bytes
  | cb_header_value => on_header_value bytes
  | cb_body => on_body bytes
  end.

(** The same callbacks, each text in pieces of its own. *)
Definition same (l l' : list http_callback) : Prop := fold_left join l [] = fold_left join l' [].

#[export] Instance same_equiv : Equivalence same.
Proof. split; unfold same; [by intros l|by intros l l' ->|by intros l l' l'' -> ->]. Qed.

Lemma same_merge l l' : same l l' -> merge l = merge l'.
Proof. unfold merge. by intros ->. Qed.

Lemma merge_same l l' : merge l = merge l' -> same l l'.
Proof. unfold merge, same. intros E. by rewrite <- (rev_involutive (fold_left join l [])), E, rev_involutive. Qed.

Lemma same_app l l' r : same l l' -> same (l ++ r) (l' ++ r).
Proof. unfold same. rewrite !fold_left_app. by intros ->. Qed.

Lemma join_pieces acc f c1 c2 a b : join (join acc (piece f c1 a)) (piece f c2 b) = join acc (piece f c2 (a ++ b)).
Proof. destruct f, acc as [|[] acc]; cbn; try done; by rewrite app_assoc. Qed.

(** Two pieces are one. *)
Lemma same_pieces l f c1 c2 a b : same (l ++ [piece f c1 a; piece f c2 b]) (l ++ [piece f c2 (a ++ b)]).
Proof. unfold same. rewrite !fold_left_app. apply join_pieces. Qed.

(** ** Callbacks that only watch *)

Definition quiet (settings : http_parser_settings) : Prop :=
  (forall f cb q, on_notify settings f = Some cb -> cb q = (0, q)) /\
  (forall f cb q bytes, on_data settings f = Some cb -> cb q bytes = (0, q)).

Lemma quiet_passive settings : quiet settings -> passive settings.
Proof. intros [Hn Hd]. split; [intros f cb q E; by rewrite (Hn f cb q E)|intros f cb q bytes E; by rewrite (Hd f cb q bytes E)]. Qed.

Section calls.
Context (settings : http_parser_settings) (data : str) (Hquiet : quiet settings).

Lemma after_run e er x : is_ok (parser x) = true -> after_callback false e er x = (inl tt, x_state (pr_state (parser x)) x).
Proof.
  intros Hok. unfold after_callback, mbind, X_bind, the, UPDATE_STATE, upd. cbn.
  change (is_ok (parser (x_state _ x))) with (is_ok (parser x)). by rewrite Hok.
Qed.

Definition x_notified (f : notify) (x : locals) : locals :=
  match on_notify settings f with
  | None => x
  | Some _ => x_event (Notify f (set_state (p_state x) (parser x))) (x_parser (set_state (p_state x)) x)
  end.

Lemma notify_run f er x : is_ok (parser x) = true -> CALLBACK_NOTIFY_ settings f er x = (inl tt, x_notified f x).
Proof.
  intros Hok. unfold CALLBACK_NOTIFY_, x_notified, mbind, X_bind, the. rewrite Hok. cbn.
  destruct (on_notify settings f) as [cb|] eqn:Ef; [|done]. rewrite !(proj1 Hquiet f cb _ Ef). cbn [fst snd negb Z.eqb].
  unfold with_parser, upd.
  change (x_parser _ (x_event _ _)) with (x_event (Notify f (set_state (p_state x) (parser x))) (x_parser (set_state (p_state x)) x)).
  rewrite after_run by done. by destruct x.
Qed.

Definition x_reported (f : data_cb) (bytes : str) (x : locals) : locals :=
  match on_data settings f with
  | None => x
  | Some _ => x_event (Data f bytes (set_state (p_state x) (parser x))) (x_parser (set_state (p_state x)) x)
  end.

Lemma data_none f span er x : is_ok (parser x) = true -> mark f x = None -> CALLBACK_DATA_ settings data f span er x = (inl tt, x).
Proof. intros Hok Hm. unfold CALLBACK_DATA_, mbind, X_bind, the. rewrite Hok. cbn. by rewrite Hm. Qed.

Lemma data_some f span er m x :
  is_ok (parser x) = true -> mark f x = Some m -> 0 <= span m -> Z.of_nat m + span m <= Z.of_nat (length data) ->
  CALLBACK_DATA_ settings data f span er x =
  (inl tt, x_mark f None (x_reported f (slice m (Z.to_nat (span m)) data) x)).
Proof.
  intros Hok Hm Hs Hl. unfold CALLBACK_DATA_, x_reported, mbind, X_bind, the. rewrite Hok. cbn. rewrite Hm.
  assert (((0 <=? span m) && (Z.of_nat m + span m <=? Z.of_nat (HttpExecute.len data))) = true) as -> by (unfold HttpExecute.len; lia).
  cbn. destruct (on_data settings f) as [cb|] eqn:Ef; [|done]. rewrite !(proj2 Hquiet f cb _ _ Ef). cbn [fst snd negb Z.eqb].
  unfold with_parser, upd. cbn -[after_callback is_ok Z.sub]. 
  match goal with |- context [after_callback false ?e ?n ?y] => rewrite (after_run e n y) by done end. by destruct x, f.
Qed.
End calls.

(** ** The relation *)

#[export] Instance data_cb_eq : EqDecision data_cb.
Proof. solve_decision. Defined.

(** A text with a piece before the buffer: whose callback, the status then, and where it starts. *)
Definition pending : Type := option (data_cb * Z * nat).

Section sim.
Context (settings : http_parser_settings) (max_header_size : Z) (lenient : bool).
Context (data data' : str) (o : nat) (told : list http_callback).
Context (Hquiet : quiet settings) (Hdata : data' = drop o data) (Hlen : length data = (o + length data')%nat).
Implicit Types (x y : locals) (q : http_parser) (pd : pending).

Definition pend pd : list http_callback :=
  match pd with
  | Some (f, code, m) => match on_data settings f with Some _ => [piece f code (slice m (o - m) data)] | None => [] end
  | None => []
  end.

Definition marked pd (n : nat) x y : Prop :=
  match pd with
  | None => forall f, mark f x = Nat.add o <$> mark f y
  | Some (f0, _, m) =>
      (m <= o)%nat /\ mark f0 x = Some m /\ (mark f0 y = Some 0%nat \/ mark f0 y = None /\ n = 0%nat /\ f0 = cb_body) /\
      forall f, f <> f0 -> mark f x = None /\ mark f y = None
  end.

(** [x] is on [data], at [o + n], and [y] on [data'], at [n], after the callbacks [told]; what they have
    saved in the parser at other times may differ. *)
Record R (nx ny : Z) pd (n : nat) x y : Prop := mkR {
  r_parser : exists a b, parser y = set_state a (set_nread b (parser x));
  r_lenient : pr_lenient (parser x) = lenient;
  r_ok : is_ok (parser x) = true;
  r_state : p_state y = p_state x;
  r_nx : nread x = nx;
  r_ny : nread y = ny;
  r_px : p x = (o + n)%nat;
  r_py : p y = n;
  r_ch : ch y = ch x;
  r_marks : marked pd n x y;
  r_trace : same (told ++ (seen <$> trace y)) ((seen <$> trace x) ++ pend pd)
}.

(** A change of the parser that what has been saved does not enter. *)
Record blind (f : http_parser -> http_parser) : Prop := mkBlind {
  blind_saved a b q : exists a' b', f (set_state a (set_nread b q)) = set_state a' (set_nread b' (f q));
  blind_lenient q : pr_lenient (f q) = pr_lenient q;
  blind_errno q : pr_errno (f q) = pr_errno q
}.

Lemma R_parser f nx ny pd n x y : blind f -> R nx ny pd n x y -> R nx ny pd n (x_parser f x) (x_parser f y).
Proof.
  intros [Hs Hln He] [(a & b & Hp) Hl Hok Hst Hnx Hny Hpx Hpy Hch Hm Ht]. split; try done; cbn.
  - destruct (Hs a b (parser x)) as (a' & b' & E). exists a', b'. by rewrite Hp, E.
  - by rewrite Hln.
  - unfold is_ok in *. by rewrite He.
Qed.

Lemma R_state s nx ny pd n x y : R nx ny pd n x y -> R nx ny pd n (x_state s x) (x_state s y).
Proof. intros []. by split. Qed.
Lemma R_nread r r' nx ny pd n x y : R nx ny pd n x y -> R r r' pd n (x_nread r x) (x_nread r' y).
Proof. intros []. by split. Qed.
Lemma R_ch c nx ny pd n x y : R nx ny pd n x y -> R nx ny pd n (x_ch c x) (x_ch c y).
Proof. intros []. by split. Qed.

Lemma R_p n' f f' nx ny pd n x y :
  R nx ny pd n x y -> f (o + n)%nat = (o + n')%nat -> f' n = n' ->
  match pd with Some (f0, _, _) => mark f0 y <> None | None => True end \/ n' = n ->
  R nx ny pd n' (x_p f x) (x_p f' y).
Proof.
  intros [Hp Hl Hok Hst Hnx Hny Hpx Hpy Hch Hm Ht] Hf Hf' Hmk. split; try done; cbn; [by rewrite Hpx|by rewrite Hpy|].
  unfold marked in *. destruct pd as [[[f0 code] m]|].
  - destruct Hm as (Hlt & Hx & Hy & Hrest). split; [done|]. split; [by destruct f0|]. split; [|by intros [] Hne; apply (Hrest _ Hne)].
    destruct Hmk as [Hmk| ->].
    + destruct Hy as [Hy|[Hy _]]; [left; by destruct f0|congruence].
    + by destruct f0.
  - intros f1. specialize (Hm f1). by destruct f1.
Qed.

(** ** The logic *)

(** Where both stop: as much later, with the same parser. *)
Definition stopped (s s' : stop) x y : Prop :=
  match s, s' with
  | returned n, returned n' => n = (o + n')%nat /\ parser y = parser x /\ same (told ++ (seen <$> trace y)) (seen <$> trace x)
  | _, _ => False
  end.

(** When [m] from [x] ends, or returns, then [m'] from [y] does, in [Q]; nothing when [m] fails. *)
Definition rwp {A B} (m : X A) (m' : X B) (Q : A -> B -> locals -> locals -> Prop) x y : Prop :=
  match m x with
  | (inl a, x') => exists b y', m' y = (inl b, y') /\ Q a b x' y'
  | (inr (returned n), x') => exists s y', m' y = (inr s, y') /\ stopped (returned n) s x' y'
  | _ => True
  end.

Lemma rwp_bind {A B A' B'} (m : X A) (m' : X A') (f : A -> X B) (f' : A' -> X B') Q x y :
  rwp m m' (fun a b => rwp (f a) (f' b) Q) x y -> rwp (m ≫= f) (m' ≫= f') Q x y.
Proof.
  unfold rwp, mbind, X_bind. destruct (m x) as [[a|[|n|c]] x']; [|done| |done].
  - intros (b & y' & -> & H). exact H.
  - intros (s & y' & -> & H). by exists s, y'.
Qed.
Lemma rwp_ret {A B} (a : A) (b : B) (Q : _ -> _ -> _ -> _ -> Prop) x y : Q a b x y -> rwp (mret a) (mret b) Q x y.
Proof. intros H. by exists b, y. Qed.
Lemma rwp_the {A B} (f : locals -> A) (g : locals -> B) (Q : _ -> _ -> _ -> _ -> Prop) x y : Q (f x) (g y) x y -> rwp (the f) (the g) Q x y.
Proof. intros H. by exists (g y), y. Qed.
Lemma rwp_the_eq {A} (f : locals -> A) (Q : _ -> _ -> _ -> _ -> Prop) x y : f y = f x -> Q (f x) (f x) x y -> rwp (the f) (the f) Q x y.
Proof. intros E H. apply rwp_the. by rewrite E. Qed.
Lemma rwp_upd f g (Q : _ -> _ -> _ -> _ -> Prop) x y : Q tt tt (f x) (g y) -> rwp (upd f) (upd g) Q x y.
Proof. intros H. by exists tt, (g y). Qed.
Lemma rwp_fails {A B} e (m' : X B) (Q : A -> _) x y : rwp (fails e) m' Q x y.
Proof. done. Qed.
Lemma rwp_crash {A B} c (m' : X B) (Q : A -> _) x y : rwp (stops (crashing c)) m' Q x y.
Proof. done. Qed.
Lemma rwp_check b (Q : _ -> _ -> _ -> _ -> Prop) x y : (b = true -> Q tt tt x y) -> rwp (check b) (check b) Q x y.
Proof. destruct b; [|done]. intros H. by exists tt, y; split; [|apply H]. Qed.
Lemma rwp_only_if b m m' (Q : _ -> _ -> _ -> _ -> Prop) x y :
  (b = true -> rwp m m' Q x y) -> (b = false -> Q tt tt x y) -> rwp (only_if b m) (only_if b m') Q x y.
Proof. destruct b; cbn [only_if]; intros H1 H2; [by apply H1|]. exists tt, y. split; [done|by apply H2]. Qed.
Lemma rwp_if {A B} (b : bool) (m1 m2 : X A) (m1' m2' : X B) (Q : _ -> _ -> _ -> _ -> Prop) x y :
  (b = true -> rwp m1 m1' Q x y) -> (b = false -> rwp m2 m2' Q x y) -> rwp (if b then m1 else m2) (if b then m1' else m2') Q x y.
Proof. destruct b; auto. Qed.
Lemma rwp_mono {A B} (m : X A) (m' : X B) (Q Q' : _ -> _ -> _ -> _ -> Prop) x y :
  rwp m m' Q x y -> (forall a b x y, Q a b x y -> Q' a b x y) -> rwp m m' Q' x y.
Proof.
  unfold rwp. destruct (m x) as [[a|[|n|c]] x']; try done. intros (b & y' & E & H) HQ. exists b, y'. split; [done|by apply HQ].
Qed.
(** What holds of the first alone may be used. *)
Lemma rwp_wp {A B} (m : X A) (m' : X B) (W : A -> locals -> Prop) E (Q : _ -> _ -> _ -> _ -> Prop) x y :
  wp m W E x -> rwp m m' (fun a b x y => W a x -> Q a b x y) x y -> rwp m m' Q x y.
Proof.
  unfold wp, rwp. destruct (m x) as [[a|[|n|c]] x']; try done. intros HW (b & y' & Em & H). exists b, y'. split; [done|by apply H].
Qed.

(** *** The steps of the grammar *)

Lemma rwp_with_parser f (Q : _ -> _ -> _ -> _ -> Prop) nx ny pd n x y :
  blind f -> R nx ny pd n x y -> (forall x y, R nx ny pd n x y -> Q tt tt x y) -> rwp (with_parser f) (with_parser f) Q x y.
Proof. intros Hf HR HQ. apply rwp_upd, HQ. by apply R_parser. Qed.

Lemma rwp_update_state s (Q : _ -> _ -> _ -> _ -> Prop) nx ny pd n x y :
  R nx ny pd n x y -> (forall x y, R nx ny pd n x y -> Q tt tt x y) -> rwp (UPDATE_STATE s) (UPDATE_STATE s) Q x y.
Proof. intros HR HQ. apply rwp_upd, HQ. by apply R_state. Qed.

Lemma rwp_count v v' (Q : _ -> _ -> _ -> _ -> Prop) nx ny pd n x y :
  R nx ny pd n x y -> u32 (nx + u32 (Z.of_nat v)) = u32 (ny + u32 (Z.of_nat v')) ->
  (forall r x y, R r r pd n x y -> Q tt tt x y) ->
  rwp (COUNT_HEADER_SIZE max_header_size v) (COUNT_HEADER_SIZE max_header_size v') Q x y.
Proof.
  intros HR Hr HQ. unfold COUNT_HEADER_SIZE. apply rwp_bind, rwp_upd.
  rewrite (r_nx _ _ _ _ _ _ HR), (r_ny _ _ _ _ _ _ HR), <- Hr. set (r := u32 _).
  apply rwp_bind, rwp_the_eq; [done|]. apply rwp_only_if; [done|]. intros _. apply (HQ r). by eapply R_nread.
Qed.

Lemma rwp_read_ch (Q : _ -> _ -> _ -> _ -> Prop) nx ny pd n x y c0 :
  R nx ny pd n (x_ch c0 x) y -> (n < length data')%nat ->
  (forall c x y, data' !! n = Some c -> ch x = c -> R nx ny pd n x y -> Q tt tt x y) ->
  rwp (read_ch data) (read_ch data') Q x y.
Proof.
  intros HR Hn HQ. pose proof (r_px _ _ _ _ _ _ HR) as Hpx. cbn in Hpx.
  destruct (lookup_lt_is_Some_2 data' n Hn) as [c Hc].
  assert (Hc' : data !! (o + n)%nat = Some c).
  { rewrite Hdata in Hc. by rewrite lookup_drop in Hc. }
  unfold rwp, read_ch. rewrite Hpx, (r_py _ _ _ _ _ _ HR), Hc, Hc'. exists tt, (x_ch c y). split; [done|].
  apply (HQ c); [done|done|]. apply (R_ch c) in HR. exact HR.
Qed.

Lemma piece_seen f bytes q : seen (Data f bytes q) = piece f (pr_status_code q) bytes.
Proof. by destruct f. Qed.

Lemma rwp_notify f er er' (Q : _ -> _ -> _ -> _ -> Prop) nx ny n x y :
  R nx ny None n x y -> (forall x y, R nx ny None n x y -> Q tt tt x y) ->
  rwp (CALLBACK_NOTIFY_ settings f er) (CALLBACK_NOTIFY_ settings f er') Q x y.
Proof.
  intros HR HQ. pose proof HR as [(a & b & Hp) Hl Hok Hst Hnx Hny Hpx Hpy Hch Hm Ht].
  unfold rwp. rewrite notify_run by done. exists tt, (x_notified settings f y).
  split; [apply notify_run; [done|]; by rewrite Hp|]. apply HQ. unfold x_notified.
  destruct (on_notify settings f) as [cb|]; [|done]. split; try done; cbn.
  - rewrite Hp, Hst. by exists (p_state x), b.
  - unfold pend in *. rewrite app_nil_r in *. rewrite !fmap_app, app_assoc. rewrite Hp, Hst.
    assert (E : forall q, seen (Notify f (set_state (p_state x) (set_state a (set_nread b q)))) = seen (Notify f (set_state (p_state x) q)))
      by by destruct f. cbn [fmap list_fmap]. rewrite E. by apply same_app.
Qed.

(** The text of [f] is reported: with the pending piece of it, or without one. *)
Definition only (f : data_cb) pd : Prop := match pd with None => True | Some (g, _, _) => g = f end.

Lemma slice_part m k : (m + k <= length data')%nat -> slice m k data' = slice (o + m) k data.
Proof. intros Hk. rewrite Hdata. unfold slice. by rewrite drop_drop. Qed.

Lemma data_outside f span er m x :
  is_ok (parser x) = true -> mark f x = Some m -> span m < 0 ->
  CALLBACK_DATA_ settings data f span er x = (inr (crashing OutOfBounds), x).
Proof.
  intros Hok Hm Hs. unfold CALLBACK_DATA_, mbind, X_bind, the. rewrite Hok. cbn. rewrite Hm.
  assert ((0 <=? span m) = false) as -> by lia. done.
Qed.

(** What has been said of a text when it is reported. *)
Lemma reported f bx by' a b x y tx :
  same (told ++ (seen <$> trace y)) ((seen <$> trace x) ++ tx) -> p_state y = p_state x ->
  parser y = set_state a (set_nread b (parser x)) ->
  (is_Some (on_data settings f) -> same ((seen <$> trace x) ++ tx ++ [piece f (pr_status_code (parser x)) by'])
     ((seen <$> trace x) ++ [piece f (pr_status_code (parser x)) bx])) -> (on_data settings f = None -> tx = []) ->
  same (told ++ (seen <$> trace (x_reported settings f by' y))) (seen <$> trace (x_reported settings f bx x)).
Proof.
  intros Ht Hst Hp Hsame Hnil. unfold x_reported. destruct (on_data settings f) as [cb|].
  - cbn [trace x_event x_parser]. rewrite !fmap_app, app_assoc. cbn [fmap list_fmap]. rewrite !piece_seen, Hp. cbn [pr_status_code set_state set_nread].
    transitivity (((seen <$> trace x) ++ tx) ++ [piece f (pr_status_code (parser x)) by']); [by apply same_app|].
    rewrite <- app_assoc. by apply Hsame.
  - by rewrite (Hnil eq_refl), app_nil_r in Ht.
Qed.

Lemma R_reported f bx by' nx ny pd n x y :
  R nx ny pd n x y -> marked None n (x_mark f None x) (x_mark f None y) ->
  same (told ++ (seen <$> trace (x_reported settings f by' y))) (seen <$> trace (x_reported settings f bx x)) ->
  R nx ny None n (x_mark f None (x_reported settings f bx x)) (x_mark f None (x_reported settings f by' y)).
Proof.
  intros [(a & b & Hp) Hl Hok Hst Hnx Hny Hpx Hpy Hch _ _] Hm Ht. cbn [pend]. unfold x_reported in *.
  destruct (on_data settings f); split; try done; cbn [pend]; rewrite ?app_nil_r; try done.
  - cbn. rewrite Hp, Hst. by exists (p_state x), b.
  - cbn. by exists a, b.
Qed.

Lemma marked_cleared f pd n x y : only f pd -> marked pd n x y -> marked None n (x_mark f None x) (x_mark f None y).
Proof.
  intros Ho Hm g. destruct (decide (g = f)) as [->|Hne]; [by destruct f|].
  assert (forall z, mark g (x_mark f None z) = mark g z) as E by (intros z; destruct f, g; done || by destruct Hne).
  rewrite !E. destruct pd as [[[f0 code] m]|]; [|apply Hm]. cbn in Ho, Hm. subst f0.
  destruct Hm as (_ & _ & _ & Hrest). by destruct (Hrest g Hne) as [-> ->].
Qed.

Lemma rwp_data f (e er er' : nat) span span' (Q : _ -> _ -> _ -> _ -> Prop) nx ny pd n x y :
  R nx ny pd n x y -> only f pd -> (n + e <= length data')%nat -> e = 0%nat \/ mark f y <> None ->
  (forall m, span m = Z.of_nat (o + n + e) - Z.of_nat m) -> (forall m, span' m = Z.of_nat (n + e) - Z.of_nat m) ->
  (forall x y, R nx ny None n x y -> Q tt tt x y) ->
  rwp (CALLBACK_DATA_ settings data f span er) (CALLBACK_DATA_ settings data' f span' er') Q x y.
Proof.
  intros HR Hf Hn He Hspan Hspan' HQ. pose proof HR as [(a & b & Hp) Hl Hok Hst Hnx Hny Hpx Hpy Hch Hm Ht].
  assert (Hoky : is_ok (parser y) = true) by by rewrite Hp.
  pose proof (marked_cleared f pd n x y Hf Hm) as Hm'.
  assert (Hdone : forall m m', mark f x = Some m -> mark f y = Some m' -> (m <= o + n + e)%nat -> (m' <= n + e)%nat ->
    (is_Some (on_data settings f) -> same ((seen <$> trace x) ++ pend pd ++ [piece f (pr_status_code (parser x)) (slice m' (n + e - m') data')])
      ((seen <$> trace x) ++ [piece f (pr_status_code (parser x)) (slice m (o + n + e - m) data)])) ->
    (on_data settings f = None -> pend pd = []) ->
    rwp (CALLBACK_DATA_ settings data f span er) (CALLBACK_DATA_ settings data' f span' er') Q x y).
  { intros m m' Hx Hy Hle Hle' Hs Hnil. unfold rwp. rewrite (data_some settings data Hquiet f span er m x), (data_some settings data' Hquiet f span' er' m' y);
      rewrite ?Hspan, ?Hspan'; try done; try lia.
    eexists _, _. split; [reflexivity|]. apply HQ. eapply R_reported; [exact HR|exact Hm'|].
    apply (reported f _ _ a b x y (pend pd)); try done.
    replace (Z.to_nat (Z.of_nat (o + n + e) - Z.of_nat m)) with (o + n + e - m)%nat by lia.
    by replace (Z.to_nat (Z.of_nat (n + e) - Z.of_nat m')) with (n + e - m')%nat by lia. }
  destruct pd as [[[f0 code] m]|].
  - cbn in Hf. subst f0. destruct Hm as (Hlt & Hx & Hy & _).
    assert (Hsplit : slice m (o + n + e - m) data = slice m (o - m) data ++ slice 0 (n + e) data').
    { rewrite (slice_part 0 (n + e)), Nat.add_0_r by lia. replace (o + n + e - m)%nat with (o - m + (n + e))%nat by lia.
      rewrite slice_add. by replace (m + (o - m))%nat with o by lia. }
    destruct Hy as [Hy|(Hy & -> & ->)].
    + apply (Hdone m 0%nat); [done|done|lia|lia| |].
      * intros [cb Hcb]. cbn [pend]. rewrite Hcb, Nat.sub_0_r, Hsplit. apply same_pieces.
      * intros Hcb. cbn [pend]. by rewrite Hcb.
    + destruct He as [->|He]; [|done]. unfold rwp.
      rewrite (data_some settings data Hquiet cb_body span er m x), (data_none settings data' cb_body span' er' y) by (rewrite ?Hspan; done || lia).
      eexists _, _. split; [reflexivity|]. apply HQ. rewrite Hspan.
      replace (Z.to_nat (Z.of_nat (o + 0 + 0) - Z.of_nat m)) with (o + 0 + 0 - m)%nat by lia. rewrite Hsplit. cbn [Nat.add].
      unfold slice at 2. rewrite take_0, app_nil_r.
      assert (Hym : x_mark cb_body None y = y) by (destruct y; cbn in Hy |- *; by subst). rewrite <- Hym.
      cbn [pend] in Ht. unfold x_reported. destruct (on_data settings cb_body); split; try done; cbn [pend]; rewrite ?app_nil_r in *; try done.
      * cbn. rewrite Hp. by exists a, b.
      * cbn [trace x_mark x_event x_parser]. by rewrite fmap_app.
      * cbn. by exists a, b.
  - cbn in Hm. specialize (Hm f). destruct (mark f y) as [m'|] eqn:Hy; cbn in Hm.
    + destruct (decide (m' <= n + e)%nat).
      * apply (Hdone (o + m')%nat m'); [done|done|lia|lia| |done]. intros _. cbn [pend app].
        rewrite (slice_part m') by lia. by replace (o + n + e - (o + m'))%nat with (n + e - m')%nat by lia.
      * unfold rwp. rewrite (data_outside f span er (o + m') x); [done|done|done|]. rewrite Hspan. lia.
    + unfold rwp. rewrite (data_none settings data f span er x), (data_none settings data' f span' er' y) by done.
      eexists _, _. split; [reflexivity|]. by apply HQ.
Qed.

Lemma rwp_mark f (Q : _ -> _ -> _ -> _ -> Prop) nx ny pd n x y :
  R nx ny pd n x y -> only f pd ->
  (forall x y, R nx ny pd n x y -> mark f y <> None -> Q tt tt x y) -> rwp (MARK f) (MARK f) Q x y.
Proof.
  intros HR Hf HQ. pose proof HR as [(a & b & Hp) Hl Hok Hst Hnx Hny Hpx Hpy Hch Hm Ht].
  unfold MARK. apply rwp_upd. apply HQ.
  2:{ destruct (mark f y) eqn:E; [by rewrite E|]. by destruct f. }
  assert (Hother : forall g k z, g <> f -> mark g (x_mark f k z) = mark g z) by (intros g k z Hne; by destruct f, g).
  assert (Hself : forall k z, mark f (x_mark f k z) = k) by (intros k z; by destruct f).
  destruct pd as [[[f0 code] m]|].
  - cbn in Hf. subst f0. destruct Hm as (Hlt & Hx & Hy & Hrest). rewrite Hx.
    destruct Hy as [Hy|(Hy & -> & Hb)]; rewrite Hy; [done|]. split; try done; [cbn; by exists a, b|].
    split; [done|]. split; [done|]. rewrite Hself, Hpy. split; [by left|]. intros g Hg. rewrite Hother by done. by apply Hrest.
  - cbn in Hm. pose proof (Hm f) as Hmf. destruct (mark f y) as [m'|] eqn:Hy; cbn in Hmf; rewrite Hmf; [done|].
    split; try done; [cbn; by exists a, b|]. intros g. destruct (decide (g = f)) as [->|Hne].
    + by rewrite !Hself, Hpx, Hpy.
    + by rewrite !Hother by done.
Qed.

Lemma rwp_return {A B} k k' (Q : A -> B -> _ -> _ -> Prop) r n x y :
  R r r None n x y -> k = (o + k')%nat -> rwp (RETURN k) (RETURN k') Q x y.
Proof.
  intros [(a & b & Hp) Hl Hok Hst Hnx Hny Hpx Hpy Hch Hm Ht] ->. unfold rwp. cbn. eexists _, _. split; [reflexivity|].
  split; [done|]. cbn. rewrite Hp, Hst, Hnx, Hny. split; [done|]. cbn [pend] in Ht. by rewrite app_nil_r in Ht.
Qed.

Lemma rwp_the_parser {A B} (g : http_parser -> A) (g' : http_parser -> B) (Q : _ -> _ -> _ -> _ -> Prop) nx ny pd n x y :
  R nx ny pd n x y -> (forall q a b, Q (g q) (g' (set_state a (set_nread b q))) x y) ->
  rwp (the (fun x => g (parser x))) (the (fun x => g' (parser x))) Q x y.
Proof. intros HR HQ. apply rwp_the. destruct (r_parser _ _ _ _ _ _ HR) as (a & b & ->). apply HQ. Qed.

Lemma rwp_the_same {A} (g : http_parser -> A) (Q : _ -> _ -> _ -> _ -> Prop) nx ny pd n x y :
  (forall a b q, g (set_state a (set_nread b q)) = g q) -> R nx ny pd n x y -> (forall q, parser x = q -> Q (g q) (g q) x y) ->
  rwp (the (fun x => g (parser x))) (the (fun x => g (parser x))) Q x y.
Proof. intros Hg HR HQ. apply rwp_the. destruct (r_parser _ _ _ _ _ _ HR) as (a & b & ->). rewrite Hg. by apply HQ. Qed.

Lemma rwp_the_p (Q : _ -> _ -> _ -> _ -> Prop) nx ny pd n x y :
  R nx ny pd n x y -> Q (o + n)%nat n x y -> rwp (the p) (the p) Q x y.
Proof. intros HR HQ. apply rwp_the. by rewrite (r_px _ _ _ _ _ _ HR), (r_py _ _ _ _ _ _ HR). Qed.

Lemma rwp_the_state (Q : _ -> _ -> _ -> _ -> Prop) nx ny pd n x y :
  R nx ny pd n x y -> (forall s, p_state x = s -> Q s s x y) -> rwp (the p_state) (the p_state) Q x y.
Proof. intros HR HQ. apply rwp_the. rewrite (r_state _ _ _ _ _ _ HR). by apply HQ. Qed.

Lemma rwp_CALLBACK_NOTIFY f (Q : _ -> _ -> _ -> _ -> Prop) nx ny n x y :
  R nx ny None n x y -> (forall x y, R nx ny None n x y -> Q tt tt x y) ->
  rwp (CALLBACK_NOTIFY settings f) (CALLBACK_NOTIFY settings f) Q x y /\
  rwp (CALLBACK_NOTIFY_NOADVANCE settings f) (CALLBACK_NOTIFY_NOADVANCE settings f) Q x y.
Proof. intros HR HQ. split; apply rwp_bind, rwp_the; by eapply rwp_notify. Qed.

Lemma rwp_CALLBACK_DATA f (Q : _ -> _ -> _ -> _ -> Prop) nx ny pd n x y :
  R nx ny pd n x y -> only f pd -> (n <= length data')%nat -> (forall x y, R nx ny None n x y -> Q tt tt x y) ->
  rwp (CALLBACK_DATA settings data f) (CALLBACK_DATA settings data' f) Q x y /\
  rwp (CALLBACK_DATA_NOADVANCE settings data f) (CALLBACK_DATA_NOADVANCE settings data' f) Q x y.
Proof.
  intros HR Hf Hn HQ. split; apply rwp_bind; eapply rwp_the_p; try exact HR; eapply (rwp_data f 0); try exact HR; try done; auto;
    try (intros m; lia); lia.
Qed.

(** ** The states, one after the other *)

(** A pending body is marked on both sides, once a byte is executed. *)
Definition body_marked pd y : Prop := match pd with Some (cb_body, _, _) => mark cb_body y <> None | _ => True end.
Definition no_body pd : Prop := match pd with Some (cb_body, _, _) => False | _ => True end.

Lemma no_body_marked pd y : no_body pd -> body_marked pd y.
Proof. by destruct pd as [[[[] ?] ?]|]. Qed.

Lemma is_body_marked pd y : mark cb_body y <> None -> body_marked pd y.
Proof. by destruct pd as [[[[] ?] ?]|]. Qed.

(** What a handler leaves. *)
Definition turned (t t' : turn) x y : Prop := t = t' /\ exists r pd n, R r r pd n x y /\ body_marked pd y.

(** A text is pending only in its states. *)
Definition may_pend pd (s : state) : Prop := match pd with None => True | Some (f, _, _) => allowed f s = true end.

Lemma turned_intro t r pd n x y : R r r pd n x y -> body_marked pd y -> turned t t x y.
Proof. intros HR Hb. split; [done|]. by exists r, pd, n. Qed.

Ltac blind_tac := split; [intros; do 2 eexists; reflexivity|reflexivity|reflexivity].

(** One step on both sides. *)
Ltac r_step :=
  cbv beta zeta;
  lazymatch goal with
  | |- rwp (_ ≫= _) (_ ≫= _) _ _ _ => apply rwp_bind
  | |- rwp (mret _) (mret _) _ _ _ => apply rwp_ret; try (eapply turned_intro; [eassumption|first [exact I|apply is_body_marked; assumption|apply no_body_marked; first [exact I|assumption]]])
  | |- rwp (fails _) _ _ _ _ => apply rwp_fails
  | |- rwp (fails_in _ _) _ _ _ _ => exact I
  | |- rwp (stops (crashing _)) _ _ _ _ => exact I
  | |- rwp unhandled _ _ _ _ => exact I
  | |- rwp (STRICT_CHECK _) (STRICT_CHECK _) _ _ _ => apply rwp_only_if; intros ?
  | |- rwp (only_if _ _) (only_if _ _) _ _ _ => apply rwp_only_if; intros ?
  | |- rwp (check _) (check _) _ _ _ => apply rwp_check; intros ?
  | |- rwp (next _) (next _) _ _ _ => unfold next
  | HR : R _ _ _ _ ?x ?y |- rwp (the p) (the p) _ ?x ?y => eapply rwp_the_p; [exact HR|]
  | HR : R _ _ _ _ ?x ?y |- rwp (the p_state) (the p_state) _ ?x ?y => eapply rwp_the_state; [exact HR|intros ? ?]
  | HR : R _ _ _ _ ?x ?y |- rwp (the nread) (the nread) _ ?x ?y =>
      apply rwp_the_eq; [by rewrite (r_nx _ _ _ _ _ _ HR), (r_ny _ _ _ _ _ _ HR)|]
  | HR : R _ _ _ _ ?x ?y |- rwp (the ch) (the ch) _ ?x ?y => apply rwp_the_eq; [exact (r_ch _ _ _ _ _ _ HR)|]
  | HR : R _ _ _ _ ?x ?y |- rwp (the ?f) (the _) ?Q ?x ?y =>
      let g := eval cbn [parser with_only] in (fun q => f (with_only q)) in
      change (rwp (the (fun x => g (parser x))) (the (fun x => g (parser x))) Q x y);
      first [ apply (rwp_the_same g _ _ _ _ _ _ _ ltac:(reflexivity) HR); intros ? ?
            | apply (rwp_the_parser g g _ _ _ _ _ _ _ HR); intros ? ? ? ]
  | HR : R _ _ _ _ ?x ?y |- rwp (with_parser ?f) (with_parser _) _ ?x ?y =>
      apply (rwp_with_parser f _ _ _ _ _ _ _ ltac:(blind_tac) HR); clear dependent x; clear dependent y; intros x y HR
  | HR : R _ _ _ _ ?x ?y |- rwp (UPDATE_STATE _) (UPDATE_STATE _) _ ?x ?y =>
      eapply rwp_update_state; [exact HR|clear dependent x; clear dependent y; intros x y HR]
  | HR : R _ _ _ _ ?x ?y |- rwp (MARK _) (MARK _) _ ?x ?y =>
      eapply rwp_mark; [exact HR|first [exact I|reflexivity]|clear dependent x; clear dependent y; intros x y HR ?]
  | HR : R _ _ _ _ ?x ?y |- rwp (CALLBACK_NOTIFY _ ?f) _ _ ?x ?y =>
      refine (proj1 (rwp_CALLBACK_NOTIFY f _ _ _ _ x y HR _)); clear dependent x; clear dependent y; intros x y HR
  | HR : R _ _ _ _ ?x ?y |- rwp (CALLBACK_NOTIFY_NOADVANCE _ ?f) _ _ ?x ?y =>
      refine (proj2 (rwp_CALLBACK_NOTIFY f _ _ _ _ x y HR _)); clear dependent x; clear dependent y; intros x y HR
  | HR : R _ _ _ _ ?x ?y |- rwp (CALLBACK_DATA _ _ ?f) _ _ ?x ?y =>
      refine (proj1 (rwp_CALLBACK_DATA f _ _ _ _ _ x y HR _ _ _)); [first [exact I|reflexivity]|lia|];
      clear dependent x; clear dependent y; intros x y HR
  | HR : R _ _ _ _ ?x ?y |- rwp (CALLBACK_DATA_NOADVANCE _ _ ?f) _ _ ?x ?y =>
      refine (proj2 (rwp_CALLBACK_DATA f _ _ _ _ _ x y HR _ _ _)); [first [exact I|reflexivity]|lia|];
      clear dependent x; clear dependent y; intros x y HR
  | |- rwp (if _ then _ else _) _ _ _ _ => apply rwp_if; intros ?
  end.

(** The texts that may be pending in the state. *)
Ltac pending pd Hpd := destruct pd as [[[[] ?] ?]|]; cbn in Hpd; try discriminate Hpd; clear Hpd.

Lemma start_line_sim s c r pd n x y :
  R r r pd n x y -> (n < length data')%nat -> may_pend pd s -> rwp (start_line settings s c) (start_line settings s c) turned x y.
Proof. intros HR Hn Hpd. destruct s; try exact I; pending pd Hpd; cbn [start_line]; repeat r_step. Qed.

Lemma status_line_sim s c r pd n x y :
  R r r pd n x y -> (n < length data')%nat -> may_pend pd s -> rwp (status_line settings data s c) (status_line settings data' s c) turned x y.
Proof. intros HR Hn Hpd. destruct s; try exact I; pending pd Hpd; cbn [status_line]; repeat r_step. Qed.


Lemma start_req_sim c r n x y :
  R r r None n x y -> rwp (start_req settings c) (start_req settings c) turned x y.
Proof. intros HR. unfold start_req. do 4 r_step; repeat r_step. all: destruct (first_method c); repeat r_step. Qed.

Lemma req_method_sim c r n x y : R r r None n x y -> rwp (req_method c) (req_method c) turned x y.
Proof.
  intros HR. unfold req_method. repeat r_step.
  destruct (matcher_at _ _) as [d|]; [|exact I]. repeat r_step. destruct (switched _ _ _ _); repeat r_step.
Qed.

Lemma url_char_sim c r pd n x y : R r r pd n x y -> no_body pd -> rwp (url_char c) (url_char c) turned x y.
Proof. intros HR Hb. unfold url_char. repeat r_step. destruct s0; repeat r_step. Qed.

Lemma request_url_sim s c r pd n x y :
  R r r pd n x y -> (n < length data')%nat -> may_pend pd s -> rwp (request_url settings data s c) (request_url settings data' s c) turned x y.
Proof.
  intros HR Hn Hpd. destruct s; try exact I; pending pd Hpd; cbn [request_url]; repeat r_step; try (eapply url_char_sim; [exact HR|exact I]).
  all: by destruct (eqc c CR).
Qed.

Lemma request_version_sim s c r pd n x y :
  R r r pd n x y -> may_pend pd s -> rwp (request_version s c) (request_version s c) turned x y.
Proof. intros HR Hpd. destruct s; try exact I; pending pd Hpd; cbn [request_version]; repeat r_step. Qed.

Lemma header_field_start_sim c r n x y :
  R r r None n x y -> rwp (header_field_start c) (header_field_start c) turned x y.
Proof. intros HR. unfold header_field_start, set_hs. repeat r_step. Qed.

Lemma header_value_start_sim c r n x y :
  R r r None n x y -> rwp (header_value_start c) (header_value_start c) turned x y.
Proof. intros HR. unfold header_value_start, set_hs. do 8 r_step. destruct (pr_header_state q); repeat r_step. Qed.

Lemma header_value_discard_ws_sim c r n x y :
  R r r None n x y -> rwp (header_value_discard_ws c) (header_value_discard_ws c) turned x y.
Proof. intros HR. unfold header_value_discard_ws. repeat r_step. by eapply header_value_start_sim. Qed.

Lemma header_end_sim s c r pd n x y :
  R r r pd n x y -> (n < length data')%nat -> may_pend pd s ->
  rwp (header_end settings data s c) (header_end settings data' s c) turned x y.
Proof. intros HR Hn Hpd. destruct s; try exact I; pending pd Hpd; cbn [header_end]; unfold set_hs; repeat r_step. Qed.

(** The callback at the end of the headers is called with what is saved as it is. *)
Lemma R_headers_event q' b a nx ny n x y :
  R nx ny None n x y -> q' = set_state a (set_nread b (parser x)) ->
  R nx ny None n (x_event (Notify cb_headers_complete (parser x)) x) (x_event (Notify cb_headers_complete q') y).
Proof.
  intros [Hp Hl Hok Hst Hnx Hny Hpx Hpy Hch Hm Ht] ->. split; try done. cbn [pend trace x_event] in *.
  rewrite app_nil_r in *. rewrite !fmap_app, app_assoc. by apply same_app.
Qed.

Lemma headers_almost_done_sim c r n x y :
  R r r None n x y -> rwp (headers_almost_done settings c) (headers_almost_done settings c) turned x y.
Proof.
  intros HR. unfold headers_almost_done. do 5 r_step; [repeat r_step|]. do 7 r_step.
  assert (Hend : forall x y, R r r None n x y ->
    rwp (ok ← the (fun x => is_ok (parser x)); if (ok : bool) then mret Reexecute else RETURN (o + n)%nat)
      (ok ← the (fun x => is_ok (parser x)); if (ok : bool) then mret Reexecute else RETURN n) turned x y).
  { intros x1 y1 HR1. do 2 r_step. r_step; [by r_step|]. by apply (rwp_return _ _ _ r n). }
  do 2 r_step. destruct (on_notify settings cb_headers_complete) as [cb|] eqn:Ef; [|apply rwp_ret, Hend, HR].
  destruct (r_parser _ _ _ _ _ _ HR) as (a' & b' & Hp).
  apply rwp_bind, rwp_the, rwp_bind, rwp_upd, rwp_bind, rwp_upd. rewrite !(proj1 Hquiet _ cb _ Ef). cbn [fst snd Z.eqb].
  apply rwp_ret, Hend. pose proof (R_headers_event (parser y) b' a' r r n x y HR Hp) as HR'.
  destruct x, y. exact HR'.
Qed.

Lemma message_complete_sim (Q : _ -> _ -> _ -> _ -> Prop) r n x y :
  R r r None n x y -> (forall x y, R r r None n x y -> Q tt tt x y) ->
  rwp (message_complete settings) (message_complete settings) Q x y.
Proof. intros HR HQ. unfold message_complete. repeat r_step. by apply HQ. Qed.

Lemma reset_nread_sim (Q : _ -> _ -> _ -> _ -> Prop) nx ny pd n x y :
  R nx ny pd n x y -> (forall x y, R 0 0 pd n x y -> Q tt tt x y) -> rwp reset_nread reset_nread Q x y.
Proof. intros HR HQ. unfold reset_nread. do 2 r_step. apply rwp_upd, HQ. by eapply R_nread. Qed.

Lemma headers_done_sim c r n x y :
  R r r None n x y -> rwp (headers_done settings c) (headers_done settings c) turned x y.
Proof.
  intros HR. unfold headers_done. do 3 r_step. eapply reset_nread_sim; [exact HR|]. clear dependent x. clear dependent y. intros x y HR.
  do 2 r_step.
  assert (Hret : rwp (message_complete settings ;; mret Break) (message_complete settings ;; mret Break) turned x y).
  { r_step. eapply message_complete_sim; [exact HR|]. clear dependent x. clear dependent y. intros x y HR. r_step. }
  r_step.
  { r_step. eapply message_complete_sim; [exact HR|]. clear dependent x. clear dependent y. intros x y HR.
    do 2 r_step. by apply (rwp_return _ _ _ 0 n). }
  r_step; [exact Hret|]. r_step; [repeat r_step|]. r_step; [exact Hret|]. r_step; [repeat r_step|]. r_step; [exact Hret|]. repeat r_step.
Qed.

(** ** Bodies *)

Lemma take_body_sim (Q : _ -> _ -> _ -> _ -> Prop) r pd n x y :
  R r r pd n x y -> only cb_body pd -> (n < length data')%nat -> 0 <= pr_content_length (parser x) ->
  (forall x y n', R r r pd n' x y -> mark cb_body y <> None -> (n <= n' < length data')%nat -> Q tt tt x y) ->
  rwp (take_body data) (take_body data') Q x y.
Proof.
  intros HR Hpd Hn Hv HQ. unfold take_body, HttpExecute.len. do 2 r_step. rewrite H in Hv. do 2 r_step.
  replace (length data - (o + n))%nat with (length data' - n)%nat by lia.
  set (v := pr_content_length q) in *. set (t := Z.min v _) in *. do 2 r_step.
  assert (Ht : 1 <= t /\ t <= Z.of_nat (length data' - n)) by lia.
  r_step. eapply rwp_mark; [exact HR|exact Hpd|]. clear dependent x. clear dependent y. intros x y HR Hm.
  apply rwp_bind, rwp_upd, rwp_upd. apply (HQ _ _ (n + Z.to_nat t - 1)%nat); [|by destruct y|lia].
  apply R_p with n; [apply R_parser; [blind_tac|done]|lia|done|]. left. destruct pd as [[[f0 ?] ?]|]; [|done]. cbn in Hpd. by subst f0.
Qed.

Lemma body_identity_sim r pd n x y :
  R r r pd n x y -> (n < length data')%nat -> may_pend pd s_body_identity -> 0 <= pr_content_length (parser x) ->
  rwp (body settings data s_body_identity) (body settings data' s_body_identity) turned x y.
Proof.
  intros HR Hn Hpd Hv. assert (Ho : only cb_body pd) by by pending pd Hpd.
  cbn [body]. r_step. eapply take_body_sim; [exact HR|done|done|done|].
  clear dependent x. clear dependent y. intros x y n' HR Hm Hn'. do 2 r_step. do 2 r_step. cbn beta. r_step; [|by r_step].
  apply rwp_bind, rwp_upd, rwp_bind.
  eapply (rwp_data cb_body 1 _ _ _ _ _ _ _ pd n'); [apply R_state, HR|done|lia|right; by destruct y|intros m; lia..|].
  intros x1 y1 HR1. r_step.
Qed.

Lemma body_eof_sim r pd n x y :
  R r r pd n x y -> (n < length data')%nat -> may_pend pd s_body_identity_eof ->
  rwp (body settings data s_body_identity_eof) (body settings data' s_body_identity_eof) turned x y.
Proof.
  intros HR Hn Hpd. assert (Ho : only cb_body pd) by by pending pd Hpd.
  cbn [body]. unfold HttpExecute.len. r_step. eapply rwp_mark; [exact HR|exact Ho|]. clear dependent x. clear dependent y. intros x y HR Hm.
  apply rwp_bind, rwp_upd, rwp_ret. apply (turned_intro _ r pd (length data' - 1)%nat); [|by apply is_body_marked; destruct y].
  apply R_p with n; [done|lia|done|]. left. destruct pd as [[[f0 ?] ?]|]; [|done]. cbn in Ho. by subst f0.
Qed.

Lemma message_done_sim r n x y :
  R r r None n x y -> rwp (body settings data s_message_done) (body settings data' s_message_done) turned x y.
Proof.
  intros HR. cbn [body]. r_step. eapply message_complete_sim; [exact HR|]. clear dependent x. clear dependent y. intros x y HR.
  do 4 r_step. r_step; [|by r_step]. by apply (rwp_return _ _ _ r n).
Qed.

Lemma chunk_data_sim r pd n x y :
  R r r pd n x y -> (n < length data')%nat -> may_pend pd s_chunk_data -> 0 <= pr_content_length (parser x) ->
  rwp (chunked settings data s_chunk_data x00) (chunked settings data' s_chunk_data x00) turned x y.
Proof.
  intros HR Hn Hpd Hv. assert (Ho : only cb_body pd) by by pending pd Hpd.
  cbn [chunked]. unfold assert_chunked. do 4 r_step. r_step. eapply take_body_sim; [exact HR|done|done|done|].
  clear dependent x. clear dependent y. intros x y n' HR Hm Hn'. do 3 r_step. apply rwp_only_if; intros _; [|by r_step].
  apply rwp_upd, rwp_ret. apply (turned_intro _ r pd n'); [by apply R_state|by apply is_body_marked].
Qed.

Lemma chunked_sim s c r pd n x y :
  R r r pd n x y -> (n < length data')%nat -> may_pend pd s -> s <> s_chunk_data ->
  rwp (chunked settings data s c) (chunked settings data' s c) turned x y.
Proof.
  intros HR Hn Hpd Hs. destruct s; try exact I; pending pd Hpd; cbn [chunked]; unfold assert_chunked; try done.
  all: repeat r_step.
  all: eapply reset_nread_sim; [exact HR|]; clear dependent x; clear dependent y; intros x y HR; repeat r_step.
  all: destruct (_ =? 0); repeat r_step.
Qed.

(** ** Names *)

(** Out of bodies, a pending text is marked on both sides. *)
Definition pend_marked pd y : Prop := match pd with Some (f0, _, _) => mark f0 y <> None | None => True end.

Lemma R_pend_marked nx ny pd n x y :
  R nx ny pd n x y -> no_body pd -> pend_marked pd y.
Proof.
  intros [_ _ _ _ _ _ _ _ _ Hm _] Hpd. destruct pd as [[[f code] m]|]; [|done].
  destruct Hm as (_ & _ & [E|(E & _ & ->)] & _); [cbn; by rewrite E|done].
Qed.

Lemma R_move n' f f' nx ny pd n x y :
  R nx ny pd n x y -> no_body pd -> f (o + n)%nat = (o + n')%nat -> f' n = n' -> R nx ny pd n' (x_p f x) (x_p f' y).
Proof. intros HR Hpd Hf Hf'. apply (R_p n' f f' _ _ _ n); [done..|]. left. by eapply R_pend_marked. Qed.

Lemma skip_tokens_sim fuel fuel' pe (Q : _ -> _ -> _ -> _ -> Prop) r pd n x y :
  R r r pd n x y -> no_body pd -> (pe <= length data')%nat -> (n < length data')%nat -> (length data' - n < fuel')%nat ->
  (forall n' x y, R r r pd n' x y -> (n <= n' < length data')%nat -> Q tt tt x y) ->
  rwp (skip_tokens data fuel (o + pe)) (skip_tokens data' fuel' pe) Q x y.
Proof.
  revert fuel' n x y. induction fuel as [|fuel IH]; intros fuel' n x y HR Hpd Hpe Hn Hf HQ; [done|].
  destruct fuel' as [|fuel']; [lia|]. cbn [skip_tokens]. do 2 r_step. rewrite <- Nat.add_succ_r.
  replace (o + S n <? o + pe)%nat with (S n <? pe)%nat by (destruct (Nat.ltb_spec (S n) pe), (Nat.ltb_spec (o + S n) (o + pe)); lia).
  destruct (Nat.ltb_spec (S n) pe); [|apply rwp_ret; apply (HQ n); done || lia].
  replace (data !! (o + S n)%nat) with (data' !! S n) by by rewrite Hdata, lookup_drop.
  destruct (data' !! S n) as [c|] eqn:Ec; [|exact I]. r_step; [apply rwp_ret; apply (HQ n); done || lia|].
  apply rwp_bind, rwp_upd. apply (IH _ (S n)); [apply (R_move _ _ _ _ _ _ n); done || lia|done|done|apply lookup_lt_Some in Ec; lia|lia|].
  intros n' x' y' HR' Hn'. apply (HQ n'); [done|lia].
Qed.

Lemma far_end_sim r pd n x y : R r r pd n x y -> (n <= length data')%nat -> far_end max_header_size data x = (o + far_end max_header_size data' y)%nat.
Proof.
  intros HR Hn. unfold far_end, HttpExecute.len. rewrite (r_px _ _ _ _ _ _ HR), (r_py _ _ _ _ _ _ HR).
  replace (length data - (o + n))%nat with (length data' - n)%nat by lia. lia.
Qed.

Lemma field_char_sim c t (Q : _ -> _ -> _ -> _ -> Prop) fuel fuel' r pd n x y :
  R r r pd n x y -> no_body pd -> (n < length data')%nat -> (length data' < fuel')%nat ->
  (forall n' x y, R r r pd n' x y -> (n <= n' < length data')%nat -> Q tt tt x y) ->
  rwp (field_char max_header_size data fuel c t) (field_char max_header_size data' fuel' c t) Q x y.
Proof.
  intros HR Hpd Hn Hf HQ. unfold field_char, set_hs, next_index. do 2 r_step.
  assert (Hend : forall x y, R r r pd n x y -> Q tt tt x y) by (intros x' y' HR'; apply (HQ n); done || lia).
  destruct (pr_header_state q); try exact I.
  1: { apply rwp_bind, rwp_the. rewrite (far_end_sim r pd n x y HR) by lia.
       apply (skip_tokens_sim _ _ _ _ r pd n); [done|done|unfold far_end, HttpExecute.len; rewrite (r_py _ _ _ _ _ _ HR); lia|done|lia|done]. }
  all: repeat r_step; apply Hend; exact HR.
Qed.

Lemma field_loop_sim fuel fuel' (Q : _ -> _ -> _ -> _ -> Prop) r pd n x y :
  R r r pd n x y -> no_body pd -> (n <= length data')%nat -> (length data' - n < fuel')%nat ->
  (forall n' x y, R r r pd n' x y -> (n <= n' <= length data')%nat -> Q tt tt x y) ->
  rwp (field_loop max_header_size data fuel) (field_loop max_header_size data' fuel') Q x y.
Proof.
  revert fuel' n x y. induction fuel as [|fuel IH]; intros fuel' n x y HR Hpd Hn Hf HQ; [done|].
  destruct fuel' as [|fuel']; [lia|]. cbn [field_loop]. do 2 r_step. unfold HttpExecute.len.
  replace (o + n =? length data)%nat with (n =? length data')%nat by (destruct (Nat.eqb_spec n (length data')), (Nat.eqb_spec (o + n) (length data)); lia).
  destruct (Nat.eqb_spec n (length data')); [apply rwp_ret, (HQ n); done || lia|].
  apply rwp_bind. eapply (rwp_read_ch _ _ _ _ _ _ _ (ch x)); [by destruct x|lia|].
  clear dependent x. clear dependent y. intros c x y Hc Hch HR. do 2 r_step. r_step; [apply rwp_ret, (HQ n); done || lia|].
  r_step. eapply (field_char_sim _ _ _ _ _ r pd n); [exact HR|done|lia|lia|]. clear dependent x. clear dependent y. intros n' x y HR Hn'.
  apply rwp_bind, rwp_upd. apply (IH _ (S n')); [apply (R_move _ _ _ _ _ _ n'); done || lia|done|lia|lia|].
  intros n2 x2 y2 HR2 Hn2. apply (HQ n2); [done|lia].
Qed.

Lemma len_eqb n : (o + n =? length data)%nat = (n =? length data')%nat.
Proof. destruct (Nat.eqb_spec n (length data')), (Nat.eqb_spec (o + n) (length data)); lia. Qed.

(** As much counted on both sides. *)
Lemma count_sim (Q : _ -> _ -> _ -> _ -> Prop) n0 n1 r pd n x y :
  R r r pd n x y -> (forall r x y, R r r pd n x y -> Q tt tt x y) ->
  rwp (COUNT_HEADER_SIZE max_header_size (o + n1 - (o + n0))) (COUNT_HEADER_SIZE max_header_size (n1 - n0)) Q x y.
Proof. intros HR HQ. eapply rwp_count; [exact HR| |exact HQ]. by replace (o + n1 - (o + n0))%nat with (n1 - n0)%nat by lia. Qed.

Lemma header_field_sim r pd n x y :
  R r r pd n x y -> (n < length data')%nat -> may_pend pd s_header_field ->
  rwp (header_field settings max_header_size data) (header_field settings max_header_size data') turned x y.
Proof.
  intros HR Hn Hpd. assert (only cb_header_field pd /\ no_body pd) as [Ho Hb] by by pending pd Hpd.
  unfold header_field, HttpExecute.len. do 2 r_step. r_step. apply (field_loop_sim _ _ _ r pd n); [done|done|lia|lia|].
  clear dependent x. clear dependent y. intros n' x y HR Hn'. do 2 r_step. rewrite len_eqb. destruct (Nat.eqb_spec n' (length data')).
  - apply rwp_bind, rwp_upd. assert (HR' : R r r pd (pred n') (x_p pred x) (x_p pred y)) by (apply (R_move _ _ _ _ _ _ n'); done || lia).
    revert HR'. generalize (x_p pred x) (x_p pred y). clear dependent x. clear dependent y. intros x y HR. do 2 r_step.
    r_step. apply (count_sim _ _ _ r pd (pred n')); [done|]. clear dependent x. clear dependent y. intros r' x y HR. by r_step.
  - r_step. apply (count_sim _ _ _ r pd n'); [done|]. clear dependent x. clear dependent y. intros r' x y HR. clear Ho Hb. pending pd Hpd; repeat r_step.
Qed.

(** ** Values *)

Lemma value_skip_sim n0 fuel fuel' pe (Q : _ -> _ -> _ -> _ -> Prop) r pd n x y :
  R r r pd n x y -> no_body pd -> (n <= pe)%nat -> (pe <= length data')%nat -> (pe - n < fuel')%nat ->
  (n0 < n)%nat \/ n0 = n /\ (forall c, data' !! n = Some c -> ends c = false) ->
  (forall n' x y, R r r pd n' x y -> (n0 <= n' <= pe)%nat -> Q tt tt x y) ->
  rwp (value_skip data lenient fuel (o + pe)) (value_skip data' lenient fuel' pe) Q x y.
Proof.
  revert fuel' n x y. induction fuel as [|fuel IH]; intros fuel' n x y HR Hpd Hn Hpe Hf H0 HQ; [done|].
  destruct fuel' as [|fuel']; [lia|]. cbn [value_skip]. do 2 r_step.
  replace (o + n =? o + pe)%nat with (n =? pe)%nat by (destruct (Nat.eqb_spec n pe), (Nat.eqb_spec (o + n) (o + pe)); lia).
  destruct (Nat.eqb_spec n pe); [apply rwp_ret, (HQ n); done || lia|].
  r_step. eapply (rwp_read_ch _ _ _ _ _ _ _ (ch x)); [by destruct x|lia|]. clear dependent x. clear dependent y. intros c x y Hc Hch HR.
  do 2 r_step. rewrite Hch. fold (ends c). destruct (ends c) eqn:Ec.
  - destruct H0 as [H0|[_ H0]]; [|by rewrite (H0 c Hc) in Ec]. apply rwp_upd, (HQ (pred n)); [apply (R_move _ _ _ _ _ _ n); done || lia|lia].
  - do 2 r_step; [done|]. apply rwp_bind, rwp_upd. apply (IH _ (S n)); [apply (R_move _ _ _ _ _ _ n); done || lia|done|lia|done|lia|left; lia|done].
Qed.

Lemma content_length_digit_sim c (Q : _ -> _ -> _ -> _ -> Prop) r pd n x y :
  R r r pd n x y -> (forall h x y, R r r pd n x y -> Q h h x y) -> rwp (content_length_digit c) (content_length_digit c) Q x y.
Proof. intros HR HQ. unfold content_length_digit. repeat r_step; try by apply HQ. Qed.

Lemma value_char_sim h c l (Q : _ -> _ -> _ -> _ -> Prop) fuel fuel' r pd n x y :
  R r r pd n x y -> no_body pd -> data' !! n = Some c -> ends c = false -> (length data' < fuel')%nat ->
  (forall h n' x y, R r r pd n' x y -> (n <= n' < length data')%nat -> Q h h x y) ->
  rwp (value_char max_header_size data lenient fuel h c l) (value_char max_header_size data' lenient fuel' h c l) Q x y.
Proof.
  intros HR Hpd Hc He Hf HQ. pose proof (lookup_lt_Some _ _ _ Hc) as Hn. unfold value_char, next_index.
  assert (Hend : forall h x y, R r r pd n x y -> Q h h x y) by (intros h' x' y' HR'; apply (HQ h' n); done || lia).
  destruct h; try exact I.
  1: { apply rwp_bind, rwp_the. rewrite (far_end_sim r pd n x y HR) by lia. unfold HttpExecute.len. r_step.
    assert (n <= far_end max_header_size data' y <= length data')%nat.
    { unfold far_end, HttpExecute.len; rewrite (r_py _ _ _ _ _ _ HR); lia. }
    revert H. generalize (far_end max_header_size data' y). intros pe Hfar.
    apply (value_skip_sim n _ _ _ _ r pd n); [done|done|lia|lia|lia|right; split; [done|intros c' Hc'; by simplify_eq]|].
    clear dependent x. clear dependent y. intros n' x y HR Hn'. do 2 r_step. rewrite len_eqb. r_step.
    destruct (Nat.eqb_spec n' (length data')); cbn [only_if].
    - apply rwp_upd, rwp_ret, (HQ _ (pred n')); [apply (R_move _ _ _ _ _ _ n'); done || lia|lia].
    - apply rwp_ret, rwp_ret, (HQ _ n'); [done|lia]. }
  all: repeat r_step; try (eapply content_length_digit_sim; [exact HR|]); try (apply Hend; exact HR); try done.
Qed.

Lemma value_loop_sim fuel fuel' n0 h (Q : _ -> _ -> _ -> _ -> Prop) r pd n x y :
  R r r pd n x y -> may_pend pd s_header_value -> (n <= length data')%nat -> (length data' - n < fuel')%nat ->
  (forall h r pd n x y, R r r pd n x y -> no_body pd -> (n <= length data')%nat -> Q h h x y) ->
  rwp (value_loop settings max_header_size data lenient fuel (o + n0) h) (value_loop settings max_header_size data' lenient fuel' n0 h) Q x y.
Proof.
  revert fuel' n h x y. induction fuel as [|fuel IH]; intros fuel' n h x y HR Hpd Hn Hf HQ; [done|].
  destruct fuel' as [|fuel']; [lia|]. assert (only cb_header_value pd /\ no_body pd) as [Ho Hb] by by pending pd Hpd.
  cbn [value_loop]. do 2 r_step. unfold HttpExecute.len. rewrite len_eqb.
  destruct (Nat.eqb_spec n (length data')); [apply rwp_ret, (HQ _ r pd n); done || lia|].
  r_step. eapply (rwp_read_ch _ _ _ _ _ _ _ (ch x)); [by destruct x|lia|]. clear dependent x. clear dependent y. intros c x y Hc Hch HR.
  do 2 r_step. rewrite Hch. unfold set_hs. destruct (eqc c CR) eqn:E1; [|destruct (eqc c LF) eqn:E2].
  - clear IH. pending pd Hpd; repeat r_step; apply (HQ _ r None n); done || lia.
  - clear IH. do 3 r_step. apply (count_sim _ _ _ r pd n); [done|]. clear dependent x. clear dependent y. intros r' x y HR.
    pending pd Hpd; repeat r_step; apply (HQ _ r' None n); done || lia.
  - do 2 r_step; [done|]. r_step. apply (value_char_sim _ _ _ _ _ _ r pd n); [done|done|done|by unfold ends; rewrite E1, E2|lia|].
    clear dependent x. clear dependent y. intros h' n' x y HR Hn'. apply rwp_bind, rwp_upd.
    apply (IH _ (S n')); [apply (R_move _ _ _ _ _ _ n'); done || lia|done|lia|lia|done].
Qed.

Lemma header_value_sim r pd n x y :
  R r r pd n x y -> (n < length data')%nat -> may_pend pd s_header_value ->
  rwp (header_value settings max_header_size data lenient) (header_value settings max_header_size data' lenient) turned x y.
Proof.
  intros HR Hn Hpd. unfold header_value, set_hs. do 4 r_step. r_step.
  apply (value_loop_sim _ _ n _ _ r pd n); [done|done|lia|unfold HttpExecute.len; lia|].
  clear dependent x. clear dependent y. clear dependent pd. intros [h|] r' pd n' x y HR Hb Hn'; [|by r_step].
  do 4 r_step. unfold HttpExecute.len. rewrite len_eqb. r_step.
  assert (Hcount : forall n' x y, R r' r' pd n' x y ->
    rwp (n1 ← the p; COUNT_HEADER_SIZE max_header_size (n1 - (o + n)) ;; mret Break) (n1 ← the p; COUNT_HEADER_SIZE max_header_size (n1 - n) ;; mret Break) turned x y).
  { clear dependent x. clear dependent y. intros n2 x y HR. do 2 r_step. r_step. apply (count_sim _ _ _ r' pd n2); [done|].
    clear dependent x. clear dependent y. intros r2 x y HR. by r_step. }
  destruct (Nat.eqb_spec n' (length data')); cbn [only_if].
  - apply rwp_upd, (Hcount (pred n')). apply (R_move _ _ _ _ _ _ n'); done || lia.
  - apply rwp_ret. by apply (Hcount n').
Qed.

(** ** The loop on the data *)

Lemma switch_sim r pd n x y :
  R r r pd n x y -> (n < length data')%nat -> may_pend pd (p_state x) -> 0 <= pr_content_length (parser x) ->
  rwp (switch settings max_header_size data lenient) (switch settings max_header_size data' lenient) turned x y.
Proof.
  intros HR Hn Hpd Hv. unfold switch. do 2 r_step. rewrite H in Hpd. do 2 r_step.
  destruct s; cbv beta iota; lazymatch goal with
    | |- rwp (start_line _ _ _) _ _ _ _ => eapply start_line_sim
    | |- rwp (status_line _ _ _ _) _ _ _ _ => eapply status_line_sim
    | |- rwp (start_req _ _) _ _ _ _ => pending pd Hpd; eapply start_req_sim
    | |- rwp (req_method _) _ _ _ _ => pending pd Hpd; eapply req_method_sim
    | |- rwp (request_url _ _ _ _) _ _ _ _ => eapply request_url_sim
    | |- rwp (request_version _ _) _ _ _ _ => eapply request_version_sim
    | |- rwp (header_field_start _) _ _ _ _ => pending pd Hpd; eapply header_field_start_sim
    | |- rwp (header_field _ _ _) _ _ _ _ => eapply header_field_sim
    | |- rwp (header_value_discard_ws _) _ _ _ _ => pending pd Hpd; eapply header_value_discard_ws_sim
    | |- rwp (header_value_start _) _ _ _ _ => pending pd Hpd; eapply header_value_start_sim
    | |- rwp (header_value _ _ _ _) _ _ _ _ => eapply header_value_sim
    | |- rwp (header_end _ _ _ _) _ _ _ _ => eapply header_end_sim
    | |- rwp (headers_almost_done _ _) _ _ _ _ => pending pd Hpd; eapply headers_almost_done_sim
    | |- rwp (headers_done _ _) _ _ _ _ => pending pd Hpd; eapply headers_done_sim
    | |- rwp (body _ _ s_body_identity) _ _ _ _ => eapply body_identity_sim
    | |- rwp (body _ _ s_body_identity_eof) _ _ _ _ => eapply body_eof_sim
    | |- rwp (body _ _ s_message_done) _ _ _ _ => pending pd Hpd; eapply message_done_sim
    | |- rwp (chunked _ _ s_chunk_data _) _ _ _ _ => eapply chunk_data_sim
    | |- rwp (chunked _ _ _ _) _ _ _ _ => eapply chunked_sim
    end; done.
Qed.
End sim.
