(* ===== verification/HttpPrefix.v ===== *)
(** * The HTTP grammar on the beginning of a buffer

    A call on [data] and one on a beginning [d1] of it do the same for each byte, except where a
    state takes many bytes and reaches the end of [d1]: there the call on [data] goes on as one
    that starts where the other ends. *)

From S2P Require Import Prelude Http HttpGrammar HttpExecute HttpGrammarTheorems HttpChunks HttpScan.
#[local] Set Default Goal Selector "!".

Section prefix.
Context (settings : http_parser_settings) (max_header_size : Z) (lenient : bool) (data d1 d2 : str).
Context (Hdata : data = d1 ++ d2).
Implicit Types x : locals.

(** ** Where nothing beyond the beginning is looked at *)

Lemma prefix_lookup n : (n < length d1)%nat -> data !! n = d1 !! n.
Proof. intros Hn. rewrite Hdata. by apply lookup_app_l. Qed.

Lemma prefix_length : length data = (length d1 + length d2)%nat.
Proof. by rewrite Hdata, length_app. Qed.

Lemma prefix_slice m k : (m + k <= length d1)%nat -> slice m k data = slice m k d1.
Proof. intros Hk. unfold slice. rewrite Hdata, drop_app_le by lia. apply take_app_le. rewrite length_drop. lia. Qed.

Lemma read_ch_prefix x : (p x < length d1)%nat -> read_ch data x = read_ch d1 x.
Proof. intros Hp. unfold read_ch. by rewrite prefix_lookup. Qed.

Lemma data_cb_prefix f span er x :
  (forall m, Z.of_nat m + span m <= Z.of_nat (length d1)) ->
  CALLBACK_DATA_ settings data f span er x = CALLBACK_DATA_ settings d1 f span er x.
Proof.
  intros Hspan. unfold CALLBACK_DATA_, mbind, X_bind. destruct (the _ x) as [[ok|] y]; [|done].
  destruct (check ok y) as [[|] z]; [|done]. destruct (the (mark f) z) as [[[m|]|] z']; [|done|done].
  specialize (Hspan m). unfold HttpExecute.len. pose proof prefix_length.
  destruct (0 <=? span m) eqn:E; [|done].
  replace (Z.of_nat m + span m <=? Z.of_nat (length data)) with true by lia.
  replace (Z.of_nat m + span m <=? Z.of_nat (length d1)) with true by lia.
  by rewrite prefix_slice by lia.
Qed.

Lemma CALLBACK_DATA_prefix f x : (p x <= length d1)%nat -> CALLBACK_DATA settings data f x = CALLBACK_DATA settings d1 f x.
Proof. intros Hp. unfold CALLBACK_DATA, mbind, X_bind, the. apply data_cb_prefix. lia. Qed.

Lemma CALLBACK_DATA_NOADVANCE_prefix f x :
  (p x <= length d1)%nat -> CALLBACK_DATA_NOADVANCE settings data f x = CALLBACK_DATA_NOADVANCE settings d1 f x.
Proof. intros Hp. unfold CALLBACK_DATA_NOADVANCE, mbind, X_bind, the. apply data_cb_prefix. lia. Qed.

Lemma bind_eq {A B} (m m' : X A) (f f' : A -> X B) x :
  m x = m' x -> (forall a y, m x = (inl a, y) -> f a y = f' a y) -> (m ≫= f) x = (m' ≫= f') x.
Proof. unfold mbind, X_bind. intros <- Hf. destruct (m x) as [[a|s] y] eqn:E; [by apply Hf|done]. Qed.

(** What only stops, or does nothing. *)
Lemma only_if_fails_id b e x a y : only_if b (fails e) x = (inl a, y) -> y = x.
Proof. destruct b; [done|]. by intros [= _ ->]. Qed.
Lemma check_id b x a y : check b x = (inl a, y) -> y = x.
Proof. destruct b; [|done]. by intros [= _ ->]. Qed.
Lemma assert_chunked_id x a y : assert_chunked x = (inl a, y) -> y = x.
Proof. apply check_id. Qed.

(** Steps that are the same on both sides, to the callbacks. *)
Ltac same_step :=
  lazymatch goal with
  | |- ?a = ?a => reflexivity
  | |- CALLBACK_DATA _ _ _ _ = _ => apply CALLBACK_DATA_prefix; cbn; repeat case_match; cbn; lia
  | |- CALLBACK_DATA_NOADVANCE _ _ _ _ = _ => apply CALLBACK_DATA_NOADVANCE_prefix; cbn; repeat case_match; cbn; lia
  | |- (_ ≫= _) _ = _ => apply bind_eq; [|let E := fresh in intros ? ? E; first
      [ injection E as <- <- | apply only_if_fails_id in E as -> | apply check_id in E as -> | apply assert_chunked_id in E as -> | idtac ]]
  | |- (if ?b then _ else _) _ = _ => destruct b eqn:?
  end.

Lemma status_line_prefix s c x : (p x < length d1)%nat -> status_line settings data s c x = status_line settings d1 s c x.
Proof. intros Hp. destruct s; try done; cbn [status_line]; repeat same_step. Qed.

Lemma request_url_prefix s c x : (p x < length d1)%nat -> request_url settings data s c x = request_url settings d1 s c x.
Proof. intros Hp. destruct s; try done; cbn [request_url]; repeat same_step. Qed.

Lemma header_end_prefix s c x : (p x < length d1)%nat -> header_end settings data s c x = header_end settings d1 s c x.
Proof. intros Hp. destruct s; try done; cbn [header_end]; repeat same_step.  Qed.

Lemma chunked_prefix s c x : s <> s_chunk_data -> (p x < length d1)%nat -> chunked settings data s c x = chunked settings d1 s c x.
Proof. intros Hs Hp. destruct s; try done; cbn [chunked]; repeat same_step. Qed.

Lemma take_body_prefix x :
  pr_content_length (parser x) <= Z.of_nat (length d1 - p x) -> take_body data x = take_body d1 x.
Proof.
  intros Hv. unfold take_body, mbind, X_bind, the, HttpExecute.len. pose proof prefix_length. cbn [fst snd].
  by replace (pr_content_length (parser x) `min` Z.of_nat (length data - p x)) with (pr_content_length (parser x) `min` Z.of_nat (length d1 - p x)) by lia.
Qed.

Lemma take_body_p data' x y : take_body data' x = (inl tt, y) -> (p x < length data')%nat -> (p y < length data')%nat.
Proof.
  unfold take_body, mbind, X_bind, the, check, HttpExecute.len. destruct (_ && _); [|done].
  unfold MARK, with_parser, upd. cbn. intros [= <-] Hp. destruct (body_mark x); cbn; lia.
Qed.

Lemma body_identity_prefix x :
  (p x < length d1)%nat -> pr_content_length (parser x) <= Z.of_nat (length d1 - p x) ->
  body settings data s_body_identity x = body settings d1 s_body_identity x.
Proof.
  intros Hp Hv. cbn [body]. apply bind_eq; [by apply take_body_prefix|]. intros [] y E. rewrite take_body_prefix in E by done.
  apply take_body_p in E; [|done]. repeat same_step. apply data_cb_prefix. cbn. lia.
Qed.

Lemma chunk_data_prefix c x :
  (p x < length d1)%nat -> pr_content_length (parser x) <= Z.of_nat (length d1 - p x) ->
  chunked settings data s_chunk_data c x = chunked settings d1 s_chunk_data c x.
Proof. intros Hp Hv. cbn [chunked]. same_step; [same_step|]. apply bind_eq; [by apply take_body_prefix|]. done. Qed.
End prefix.

(** ** Names and values *)

Section scans.
Context (settings : http_parser_settings) (max_header_size : Z) (lenient : bool).
Implicit Types x : locals.

(** What follows the loops. *)
Definition field_tail (data : str) (start : nat) : X turn :=
  n ← the p;
  if (n =? length data)%nat then upd (x_p pred) ;; n ← the p; COUNT_HEADER_SIZE max_header_size (n - start) ;; mret Break
  else
    COUNT_HEADER_SIZE max_header_size (n - start) ;;
    c ← the ch;
    if eqc c ":" then UPDATE_STATE s_header_value_discard_ws ;; CALLBACK_DATA settings data cb_header_field ;; mret Break
    else fails HPE_INVALID_HEADER_TOKEN.

Definition value_tail (data : str) (start : nat) (h : option header_states) : X turn :=
  match h with
  | None => mret Reexecute
  | Some h =>
      set_hs h ;;
      n ← the p; only_if (n =? length data)%nat (upd (x_p pred)) ;;
      n ← the p; COUNT_HEADER_SIZE max_header_size (n - start) ;; mret Break
  end.

Lemma header_field_scanned data x :
  (p x <= length data)%nat ->
  match field_scan (parser x) (drop (p x) data) with
  | Some (k, q) => exists c, header_field settings max_header_size data x = field_tail data (p x) (at_field k c q x) /\
      (p x + k <= length data)%nat /\ forall d, data !! (p x + k)%nat = Some d -> c = d
  | None => exists s x', header_field settings max_header_size data x = (inr s, x') /\ bad s
  end.
Proof.
  intros Hp. pose proof (field_loop_scan max_header_size data (S (length data)) x Hp ltac:(lia)) as H.
  destruct (field_scan _ _) as [[k q]|].
  - destruct H as (c & Hrun & Hk & Hc). exists c. split; [|done]. unfold header_field.
    rewrite (xb (the p) _ _ _ _ eq_refl). by rewrite (xb _ _ _ _ _ Hrun).
  - destruct H as (x' & Hrun). exists (crashing AssertFail), x'. split; [|done]. unfold header_field.
    rewrite (xb (the p) _ _ _ _ eq_refl). by apply xstop.
Qed.

Lemma header_value_scanned data x :
  Z.of_nat (length data) <= max_header_size -> p_state x = s_header_value -> (p x <= length data)%nat ->
  match value_scan lenient (pr_header_state (parser x)) (parser x) (drop (p x) data) with
  | Some (k, h, q) => exists c, (p x + k <= length data)%nat /\
      header_value settings max_header_size data lenient x =
      (value_loop settings max_header_size data lenient 1 (p x) h ≫= value_tail data (p x)) (at_field k c q x)
  | None => exists s x', header_value settings max_header_size data lenient x = (inr s, x') /\ bad s
  end.
Proof.
  intros Hmax Hs Hp. unfold header_value. rewrite !(xb (the p) _ x _ _ eq_refl), !(xb (the _) _ x _ _ eq_refl).
  pose proof (value_loop_scan settings max_header_size data lenient (S (length data)) (p x) (pr_header_state (parser x)) x Hmax Hs Hp ltac:(lia)) as H.
  destruct (value_scan _ _ _ _) as [[[k h] q]|].
  - destruct H as (c & Hk & Hrun). exists c. split; [done|]. unfold mbind, X_bind, HttpExecute.len. by rewrite Hrun.
  - destruct H as (s & x' & Hrun & Hb). exists s, x'. split; [by apply xstop|done].
Qed.

Lemma count_p v x y : COUNT_HEADER_SIZE max_header_size v x = (inl tt, y) -> p y = p x.
Proof. unfold COUNT_HEADER_SIZE, mbind, X_bind, the, upd, only_if. cbn. destruct (_ <? _); [done|]. by intros [= <-]. Qed.

Lemma x_cb_p buffer f span er x y : CALLBACK_DATA_ settings buffer f span er x = (inl tt, y) -> quiet settings -> p y = p x.
Proof.
  intros E Hq. unfold CALLBACK_DATA_, mbind, X_bind, the, check in E. destruct (is_ok (parser x)) eqn:Hok; [|done]. cbn in E.
  destruct (mark f x) as [m|]; [|by injection E as <-]. destruct (only_if _ _ x) as [[[]|] z] eqn:Ez; [|done].
  assert (z = x) as -> by (destruct (negb _) in Ez; [done|by injection Ez as <-]).
  destruct (on_data settings f) as [cb|] eqn:Ef; [|by injection E as <-]. rewrite !(proj2 Hq f cb _ _ Ef) in E. cbn [fst snd Z.eqb negb with_parser upd] in E.
  rewrite after_run in E by done. by injection E as <-.
Qed.

(** The end of the line of a value. *)
Definition value_close (buffer : str) (start : nat) (h : header_states) (cr : bool) : X (option header_states) :=
  n ← the p;
  if cr then
    UPDATE_STATE s_header_almost_done ;; set_hs h ;; CALLBACK_DATA settings buffer cb_header_value ;; mret (Some h)
  else
    UPDATE_STATE s_header_almost_done ;; COUNT_HEADER_SIZE max_header_size (n - start) ;; set_hs h ;;
    CALLBACK_DATA_NOADVANCE settings buffer cb_header_value ;; mret None.

Lemma value_loop_close buffer start h d x :
  buffer !! p x = Some d -> ends d = true ->
  value_loop settings max_header_size buffer lenient 1 start h x = value_close buffer start h (eqc d CR) (x_ch d x).
Proof.
  intros Hd He. cbn [value_loop]. rewrite (xb (the p) _ x _ _ eq_refl). pose proof (lookup_lt_Some _ _ _ Hd). unfold HttpExecute.len.
  destruct (Nat.eqb_spec (p x) (length buffer)); [lia|].
  rewrite (xb (read_ch buffer) _ x tt (x_ch d x)) by (unfold read_ch; by rewrite Hd). rewrite (xb (the ch) _ _ d (x_ch d x)) by done.
  unfold ends in He. unfold value_close. rewrite (xb (the p) _ (x_ch d x) _ _ eq_refl). destruct (eqc d CR); [done|]. by destruct (eqc d LF).
Qed.

Lemma value_loop_out buffer start h x :
  p x = length buffer -> value_loop settings max_header_size buffer lenient 1 start h x = (inl (Some h), x).
Proof. intros Hp. cbn [value_loop]. rewrite (xb (the p) _ x _ _ eq_refl). unfold HttpExecute.len. by rewrite Hp, Nat.eqb_refl. Qed.

Lemma value_close_p buffer start h cr x r y : quiet settings -> value_close buffer start h cr x = (inl r, y) -> p y = p x.
Proof.
  intros Hq. unfold value_close. rewrite (xb (the p) _ x _ _ eq_refl). destruct cr.
  - rewrite (xb (UPDATE_STATE _) _ x _ _ eq_refl), (xb (set_hs _) _ _ _ _ eq_refl).
    unfold CALLBACK_DATA. rewrite x_assoc, (xb (the p) _ _ _ _ eq_refl). cbn [p x_parser x_state].
    unfold mbind, X_bind. destruct (CALLBACK_DATA_ _ _ _ _ _ _) as [[[]|] z] eqn:E; [|done]. intros [= <- <-].
    apply x_cb_p in E; [exact E|exact Hq].
  - rewrite (xb (UPDATE_STATE _) _ x _ _ eq_refl). unfold mbind at 1, X_bind at 1.
    destruct (COUNT_HEADER_SIZE _ _ _) as [[[]|] z] eqn:Ec; [|done]. apply count_p in Ec.
    rewrite (xb (set_hs _) _ _ _ _ eq_refl). unfold CALLBACK_DATA_NOADVANCE. rewrite x_assoc, (xb (the p) _ _ _ _ eq_refl).
    unfold mbind, X_bind. destruct (CALLBACK_DATA_ _ _ _ _ _ _) as [[[]|] z'] eqn:E; [|done]. intros [= <- <-].
    apply x_cb_p in E; [|exact Hq]. cbn [p x_parser x_state] in *. congruence.
Qed.

End scans.

(** A result that is neither an error nor a crash. *)
Definition good {A} (r : (A + stop) * locals) : Prop := match fst r with inr s => ~ bad s | _ => True end.

Lemma good_bind {A B} (m : X A) (f : A -> X B) x : good ((m ≫= f) x) -> good (m x).
Proof. unfold good, mbind, X_bind. by destruct (m x) as [[a|s] y]. Qed.

Lemma bad_result {A} (m : X A) s x y : m x = (inr s, y) -> bad s -> ~ good (m x).
Proof. intros E Hs Hg. rewrite E in Hg. by apply Hg. Qed.

Section prefix_scans.
Context (settings : http_parser_settings) (max_header_size : Z) (lenient : bool) (data d1 d2 : str).
Context (Hdata : data = d1 ++ d2) (Hmax : Z.of_nat (length data) <= max_header_size).
Implicit Types x : locals.

Lemma drop_prefix n : (n <= length d1)%nat -> drop n data = drop n d1 ++ d2.
Proof. intros Hn. rewrite Hdata. by apply drop_app_le. Qed.

Lemma field_tail_prefix start x : (p x < length d1)%nat -> field_tail settings max_header_size data start x = field_tail settings max_header_size d1 start x.
Proof.
  intros Hp. unfold field_tail. rewrite !(xb (the p) _ x _ _ eq_refl). pose proof (prefix_length data d1 d2 Hdata).
  destruct (Nat.eqb_spec (p x) (length data)); [lia|]. destruct (Nat.eqb_spec (p x) (length d1)); [lia|].
  apply bind_eq; [done|]. intros [] y E%count_p. apply bind_eq; [done|]. intros c z [= <- <-]. destruct (eqc _ _); [|done].
  apply bind_eq; [done|]. intros ? ? [= <- <-]. apply bind_eq; [|done]. apply (CALLBACK_DATA_prefix settings data d1 d2); [done|cbn; lia].
Qed.

Lemma header_field_prefix x k q :
  (p x <= length d1)%nat -> field_scan (parser x) (drop (p x) d1) = Some (k, q) -> (p x + k < length d1)%nat ->
  header_field settings max_header_size data x = header_field settings max_header_size d1 x.
Proof.
  intros Hp Hscan Hk. pose proof (prefix_length data d1 d2 Hdata).
  pose proof (header_field_scanned settings max_header_size data x ltac:(lia)) as H1.
  pose proof (header_field_scanned settings max_header_size d1 x Hp) as H2.
  rewrite drop_prefix, field_scan_app, Hscan in H1 by done. rewrite Hscan in H2. cbn [mbind option_bind] in H1.
  rewrite length_drop in H1. destruct (Nat.ltb_spec k (length d1 - p x)); [|lia].
  destruct (lookup_lt_is_Some_2 d1 (p x + k) Hk) as [c Hc].
  destruct H1 as (c1 & -> & _ & H1), H2 as (c2 & -> & _ & H2).
  rewrite (H1 c) by by rewrite (prefix_lookup data d1 d2). rewrite (H2 c) by done. apply field_tail_prefix. cbn. lia.
Qed.

Lemma value_tail_prefix start h x : (p x < length d1)%nat -> value_tail max_header_size data start h x = value_tail max_header_size d1 start h x.
Proof.
  intros Hp. destruct h as [h|]; [|done]. unfold value_tail. pose proof (prefix_length data d1 d2 Hdata).
  apply bind_eq; [done|]. intros ? ? [= <- <-]. apply bind_eq; [done|]. intros n z [= <- <-]. cbn.
  destruct (Nat.eqb_spec (p x) (length data)); [lia|]. destruct (Nat.eqb_spec (p x) (length d1)); [lia|]. done.
Qed.

Lemma value_close_prefix start h cr x :
  (p x < length d1)%nat -> value_close settings max_header_size data start h cr x = value_close settings max_header_size d1 start h cr x.
Proof.
  intros Hp. unfold value_close. rewrite !(xb (the p) _ x _ _ eq_refl). destruct cr.
  - rewrite !(xb (UPDATE_STATE _) _ x _ _ eq_refl), !(xb (set_hs _) _ _ _ _ eq_refl). apply bind_eq; [|done].
    apply (CALLBACK_DATA_prefix settings data d1 d2); [done|cbn; lia].
  - rewrite !(xb (UPDATE_STATE _) _ x _ _ eq_refl). apply bind_eq; [done|]. intros [] y E%count_p.
    rewrite !(xb (set_hs _) _ _ _ _ eq_refl). apply bind_eq; [|done].
    apply (CALLBACK_DATA_NOADVANCE_prefix settings data d1 d2); [done|]. cbn in *. lia.
Qed.

Lemma header_value_prefix x k h q :
  quiet settings -> p_state x = s_header_value -> (p x <= length d1)%nat ->
  value_scan lenient (pr_header_state (parser x)) (parser x) (drop (p x) d1) = Some (k, h, q) -> (p x + k < length d1)%nat ->
  header_value settings max_header_size data lenient x = header_value settings max_header_size d1 lenient x.
Proof.
  intros Hq Hs Hp Hscan Hk. pose proof (prefix_length data d1 d2 Hdata).
  destruct (value_scan_end _ _ _ _ _ _ _ Hscan) as (d & Hd & He); [rewrite length_drop; lia|]. rewrite lookup_drop in Hd.
  pose proof (header_value_scanned settings max_header_size lenient data x Hmax Hs ltac:(lia)) as H1.
  pose proof (header_value_scanned settings max_header_size lenient d1 x ltac:(lia) Hs Hp) as H2.
  rewrite drop_prefix, value_scan_app, Hscan in H1 by done. rewrite Hscan in H2. cbn [mbind option_bind] in H1.
  rewrite length_drop in H1. destruct (Nat.ltb_spec k (length d1 - p x)); [|lia].
  destruct H1 as (c1 & _ & ->), H2 as (c2 & _ & ->).
  assert (Hd' : data !! (p x + k)%nat = Some d) by by rewrite (prefix_lookup data d1 d2).
  pose proof (value_loop_close settings max_header_size lenient data (p x) h d (at_field k c1 q x) Hd' He) as E1.
  pose proof (value_loop_close settings max_header_size lenient d1 (p x) h d (at_field k c2 q x) Hd He) as E2.
  change (x_ch d (at_field k c1 q x)) with (at_field k d q x) in E1. change (x_ch d (at_field k c2 q x)) with (at_field k d q x) in E2.
  unfold mbind, X_bind. rewrite E1, E2, value_close_prefix by exact Hk. destruct (value_close _ _ d1 _ _ _ _) as [[r|] y] eqn:E; [|done].
  apply value_close_p in E; [|exact Hq]. apply value_tail_prefix. by rewrite E.
Qed.
End prefix_scans.

(** ** The last character read *)

Definition x_res {A} (c : byte) (r : (A + stop) * locals) : (A + stop) * locals := (fst r, x_ch c (snd r)).

(** [m] does not look at the character. *)
Definition ch_free {A} (m : X A) : Prop := forall c x, m (x_ch c x) = x_res c (m x).

Lemma ch_free_bind {A B} (m : X A) (f : A -> X B) : ch_free m -> (forall a, ch_free (f a)) -> ch_free (m ≫= f).
Proof. intros Hm Hf c x. unfold mbind, X_bind. rewrite Hm. destruct (m x) as [[a|s] y]; [apply Hf|done]. Qed.
Lemma ch_free_ret {A} (a : A) : ch_free (mret a).
Proof. done. Qed.
Lemma ch_free_stops {A} s : ch_free (stops (A := A) s).
Proof. done. Qed.
Lemma ch_free_the {A} (f : locals -> A) : (forall c x, f (x_ch c x) = f x) -> ch_free (the f).
Proof. intros Hf c x. unfold the, x_res. by rewrite Hf. Qed.
Lemma ch_free_upd f : (forall c x, f (x_ch c x) = x_ch c (f x)) -> ch_free (upd f).
Proof. intros Hf c x. unfold upd, x_res. by rewrite Hf. Qed.
Lemma ch_free_if {A} (b : bool) (m m' : X A) : ch_free m -> ch_free m' -> ch_free (if b then m else m').
Proof. by destruct b. Qed.
Lemma ch_free_only_if b m : ch_free m -> ch_free (only_if b m).
Proof. by destruct b. Qed.
Lemma ch_free_check b : ch_free (check b).
Proof. by destruct b. Qed.

Create HintDb ch_free.
#[export] Hint Resolve ch_free_ret ch_free_stops ch_free_check : ch_free.

Ltac ch_free_tac :=
  repeat lazymatch goal with
  | |- ch_free (_ ≫= _) => apply ch_free_bind; [|intros ?]
  | |- ch_free (the _) => apply ch_free_the; intros ? ?; done
  | |- ch_free (upd _) => apply ch_free_upd; intros ? ?; done
  | |- ch_free (with_parser _) => apply ch_free_upd; intros ? ?; done
  | |- ch_free (UPDATE_STATE _) => apply ch_free_upd; intros ? ?; done
  | |- ch_free (SET_ERRNO _) => apply ch_free_upd; intros ? ?; done
  | |- ch_free (only_if _ _) => apply ch_free_only_if
  | |- ch_free (if _ then _ else _) => apply ch_free_if
  | |- ch_free (match _ with Some _ => _ | None => _ end) => case_match
  | |- ch_free (_ _) => solve [eauto with ch_free]
  end.

Section ch_free.
Context (settings : http_parser_settings) (data : str).

Lemma ch_free_after b e er : ch_free (after_callback b e er).
Proof. unfold after_callback. ch_free_tac. Qed.
Hint Resolve ch_free_after : ch_free.

Lemma ch_free_notify f er : ch_free (CALLBACK_NOTIFY_ settings f er).
Proof. unfold CALLBACK_NOTIFY_. ch_free_tac. Qed.

Lemma ch_free_data f span er : ch_free (CALLBACK_DATA_ settings data f span er).
Proof. unfold CALLBACK_DATA_. ch_free_tac; apply ch_free_the; intros ? ?; by destruct f. Qed.

Hint Resolve ch_free_notify ch_free_data : ch_free.

Lemma ch_free_mark f : ch_free (MARK f).
Proof. apply ch_free_upd. intros c x. destruct f; cbn; by case_match. Qed.

Lemma ch_free_complete : ch_free (message_complete settings).
Proof. unfold message_complete, CALLBACK_NOTIFY. ch_free_tac. Qed.
Hint Resolve ch_free_mark ch_free_complete : ch_free.

Lemma ch_free_take_body : ch_free (take_body data).
Proof. unfold take_body. ch_free_tac. Qed.
Hint Resolve ch_free_take_body : ch_free.

Lemma ch_free_body s : ch_free (body settings data s).
Proof. destruct s; try done; cbn [body]; unfold RETURN; ch_free_tac. Qed.

Lemma ch_free_chunk_data c : ch_free (chunked settings data s_chunk_data c).
Proof. cbn [chunked]. unfold assert_chunked. ch_free_tac. Qed.
End ch_free.
