(* ===== verification/HttpMarks.v ===== *)
(** * The HTTP grammar: what a state says of the marks

    Between two bytes the text that a state is in is marked, except for bodies, whose mark is set
    with their first byte; and a state that takes many bytes is not entered for a byte already
    executed. *)

From S2P Require Import Prelude Http HttpGrammar HttpExecute HttpGrammarTheorems HttpChunks HttpScan HttpPrefix.
#[local] Set Default Goal Selector "!".

Definition marked_up (x : locals) : Prop := forall f, f <> cb_body -> allowed f (p_state x) = true -> mark f x <> None.

(** The states that take many bytes. *)
Definition scanning (s : state) : bool :=
  match s with s_header_field | s_header_value | s_body_identity | s_body_identity_eof | s_chunk_data => true | _ => false end.

Section marks.
Context (settings : http_parser_settings) (max_header_size : Z) (data : str) (lenient : bool).
Context (Hquiet : quiet settings).
Implicit Types x y : locals.

(** When [m] ends, in [Q]. *)
Abbreviation U m Q x := (wp m Q (fun _ _ => True) x).

Definition up (t : turn) x : Prop := marked_up x /\ (t = Reexecute -> scanning (p_state x) = false).

Lemma up_fails {A} e (Q : A -> _) x : U (fails e) Q x.
Proof. done. Qed.

Lemma up_check b (Q : unit -> _) x : Q tt x -> U (check b) Q x.
Proof. by destruct b. Qed.

Lemma up_notify f er (Q : unit -> _) x :
  (forall y, p_state y = p_state x -> (forall g, mark g y = mark g x) -> Q tt y) -> U (CALLBACK_NOTIFY_ settings f er) Q x.
Proof.
  intros HQ. unfold wp. destruct (is_ok (parser x)) eqn:Hok.
  - rewrite notify_run by done. apply HQ; unfold x_notified; destruct (on_notify settings f); try done.
  - unfold CALLBACK_NOTIFY_, mbind, X_bind, the. by rewrite Hok.
Qed.

Lemma up_data f span er (Q : unit -> _) x :
  (forall y, p_state y = p_state x -> mark f y = None -> (forall g, g <> f -> mark g y = mark g x) -> Q tt y) ->
  U (CALLBACK_DATA_ settings data f span er) Q x.
Proof.
  intros HQ. unfold CALLBACK_DATA_. do 3 wp_step. apply up_check. do 2 wp_step. destruct (mark f x) as [m|] eqn:Em.
  - do 2 wp_step; [done|]. assert (Hend : forall z, p_state z = p_state x -> (forall g, mark g z = mark g x) -> U (upd (x_mark f None)) Q z).
    { intros z Hz Hg. wp_step. apply HQ; [done|by destruct f|]. intros g Hne. rewrite <- Hg. by destruct f, g. }
    destruct (on_data settings f) as [cb|] eqn:Ef; [|wp_step; by apply Hend].
    repeat wp_step. rewrite (proj2 Hquiet f cb _ _ Ef). cbn [fst snd Z.eqb negb]. unfold after_callback. repeat wp_step; try done.
    apply Hend; [done|]. intros g. by destruct f, g.
  - wp_step. by apply HQ.
Qed.

Lemma up_mark f (Q : unit -> _) x :
  (forall y, p_state y = p_state x -> mark f y <> None -> (forall g, g <> f -> mark g y = mark g x) -> Q tt y) -> U (MARK f) Q x.
Proof.
  intros HQ. unfold MARK. wp_step. destruct (mark f x) as [m|] eqn:Em; [apply HQ; [done|by rewrite Em|done]|].
  apply HQ; [done|by destruct f|]. intros g Hg. by destruct f, g.
Qed.

Ltac up_step :=
  cbv beta zeta;
  lazymatch goal with
  | |- wp (fails _) _ _ _ => exact I
  | |- wp (fails_in _ _) _ _ _ => exact I
  | |- wp (stops _) _ _ _ => exact I
  | |- wp unhandled _ _ _ => exact I
  | |- wp (RETURN _) _ _ _ => exact I
  | |- wp (check _) _ _ _ => apply up_check
  | |- wp (assert_chunked) _ _ _ => unfold assert_chunked
  | |- wp (STRICT_CHECK _) _ _ _ => unfold STRICT_CHECK
  | |- wp (next _) _ _ _ => unfold next
  | |- wp (set_hs _) _ _ _ => unfold set_hs
  | |- wp (MARK _) _ _ _ => apply up_mark; intros ? ? ? ?
  | |- wp (CALLBACK_NOTIFY _ _) _ _ _ => unfold CALLBACK_NOTIFY
  | |- wp (CALLBACK_NOTIFY_NOADVANCE _ _) _ _ _ => unfold CALLBACK_NOTIFY_NOADVANCE
  | |- wp (CALLBACK_DATA _ _ _) _ _ _ => unfold CALLBACK_DATA
  | |- wp (CALLBACK_DATA_NOADVANCE _ _ _) _ _ _ => unfold CALLBACK_DATA_NOADVANCE
  | |- wp (CALLBACK_NOTIFY_ _ _ _) _ _ _ => apply up_notify; intros ? ? ?
  | |- wp (CALLBACK_DATA_ _ _ _ _ _) _ _ _ => apply up_data; intros ? ? ? ?
  | |- wp (message_complete _) _ _ _ => unfold message_complete
  | |- wp reset_nread _ _ _ => unfold reset_nread
  | |- wp (if ?b then _ else _) _ _ _ => destruct b
  | |- wp (match ?o with Some _ => _ | None => _ end) _ _ _ => destruct o
  | _ => wp_step
  end.

(** The state is known: what it allows is marked. *)
Ltac up_done Hup Hs :=
  split; [|try discriminate; intros _];
  cbn in *; repeat match goal with H : p_state ?y = _ |- context [p_state ?y] => rewrite H end; try reflexivity;
  let f := fresh "f" in let Hf := fresh in let Ha := fresh in
  intros f Hf Ha; cbn in Ha;
  repeat match goal with H : p_state ?y = _ |- _ => rewrite H in Ha end;
  destruct f; try done;
  first [ assumption | by apply (Hup _ Hf); rewrite Hs | idtac ].

Lemma start_line_up s c x : p_state x = s -> marked_up x -> U (start_line settings s c) up x.
Proof. intros Hs Hup. destruct s; try done; cbn [start_line]; repeat up_step; up_done Hup Hs. Qed.

Lemma status_line_up s c x : p_state x = s -> marked_up x -> U (status_line settings data s c) up x.
Proof. intros Hs Hup. destruct s; try done; cbn [status_line]; repeat up_step; up_done Hup Hs. Qed.

Lemma start_req_up c x : p_state x = s_start_req -> marked_up x -> U (start_req settings c) up x.
Proof. intros Hs Hup. unfold start_req. repeat up_step; up_done Hup Hs. Qed.

Lemma req_method_up c x : p_state x = s_req_method -> marked_up x -> U (req_method c) up x.
Proof. intros Hs Hup. unfold req_method. repeat up_step; up_done Hup Hs. Qed.

Lemma url_char_up c x : mark cb_url x <> None -> U (url_char c) up x.
Proof.
  intros Hm. unfold url_char. repeat wp_step. cbn [p_state x_state]. destruct (parse_url_char_url (p_state x) c) as [E|E].
  - rewrite E. exact I.
  - destruct (parse_url_char (p_state x) c); try exact I; wp_step; (split; [|done]); intros [] Hf Ha; done.
Qed.

Lemma request_url_up s c x : p_state x = s -> marked_up x -> U (request_url settings data s c) up x.
Proof.
  intros Hs Hup. destruct s; try done; cbn [request_url]; repeat up_step; lazymatch goal with
    | |- wp _ _ _ _ => apply url_char_up; first [assumption|by apply (Hup cb_url); [done|rewrite Hs]]
    | |- _ => up_done Hup Hs
    end.
  all: by destruct (eqc c CR).
Qed.

Lemma request_version_up s c x : p_state x = s -> marked_up x -> U (request_version s c) up x.
Proof. intros Hs Hup. destruct s; try done; cbn [request_version]; repeat up_step; up_done Hup Hs. Qed.

Lemma header_field_start_up c x : p_state x = s_header_field_start -> marked_up x -> U (header_field_start c) up x.
Proof. intros Hs Hup. unfold header_field_start. repeat up_step; up_done Hup Hs. Qed.

Lemma header_value_start_up c x : marked_up x -> U (header_value_start c) up x.
Proof.
  intros Hup. unfold header_value_start. do 8 up_step. set (h := pr_header_state _). clearbody h.
  destruct h; repeat up_step; up_done Hup Hup.
Qed.

Lemma header_value_discard_ws_up c x : p_state x = s_header_value_discard_ws -> marked_up x -> U (header_value_discard_ws c) up x.
Proof. intros Hs Hup. unfold header_value_discard_ws. repeat up_step; try by apply header_value_start_up. all: up_done Hup Hs. Qed.

Lemma header_end_up s c x : p_state x = s -> marked_up x -> U (header_end settings data s c) up x.
Proof. intros Hs Hup. destruct s; try done; cbn [header_end]; repeat up_step; up_done Hup Hs. Qed.

Lemma headers_almost_done_up c x : p_state x = s_headers_almost_done -> marked_up x -> U (headers_almost_done settings c) up x.
Proof. intros Hs Hup. unfold headers_almost_done. repeat up_step; up_done Hup Hs. Qed.

Lemma up_eq {A} (m m' : X A) Q x x' : m x = m' x' -> U m' Q x' -> U m Q x.
Proof. unfold wp. by intros ->. Qed.

Lemma up_count v (Q : unit -> _) x : (forall r, Q tt (x_nread r x)) -> U (COUNT_HEADER_SIZE max_header_size v) Q x.
Proof. intros HQ. unfold COUNT_HEADER_SIZE. repeat wp_step; [done|apply HQ]. Qed.

Lemma header_field_up x :
  p_state x = s_header_field -> marked_up x -> (p x <= length data)%nat -> U (header_field settings max_header_size data) up x.
Proof.
  intros Hs Hup Hp. pose proof (header_field_scanned settings max_header_size data x Hp) as H.
  destruct (field_scan _ _) as [[k q]|]; [|destruct H as (s & x' & E & _); unfold wp; by rewrite E].
  destruct H as (c & E & _). apply (up_eq _ _ _ _ _ E). unfold field_tail. repeat up_step; apply up_count; intros r.
  - up_step. up_done Hup Hs.
  - repeat up_step. up_done Hup Hs.
Qed.

Lemma header_value_up x :
  Z.of_nat (length data) <= max_header_size -> p_state x = s_header_value -> marked_up x -> (p x <= length data)%nat ->
  U (header_value settings max_header_size data lenient) up x.
Proof.
  intros Hmax Hs Hup Hp. pose proof (header_value_scanned settings max_header_size lenient data x Hmax Hs Hp) as H.
  destruct (value_scan _ _ _ _) as [[[k h] q]|] eqn:Hscan; [|destruct H as (s & x' & E & _); unfold wp; by rewrite E].
  destruct H as (c & Hk & E). apply (up_eq _ _ _ _ _ E). apply wp_bind. set (z := at_field k c q x).
  assert (Hz : p_state z = s_header_value /\ forall f, mark f z = mark f x) by by split; [|intros []].
  assert (Hend : p z = length data \/ exists d, data !! p z = Some d /\ ends d = true).
  { destruct (decide (k < length (drop (p x) data))%nat) as [Hlt|Hge].
    - destruct (value_scan_end _ _ _ _ _ _ _ Hscan Hlt) as (d & Hd & He). rewrite lookup_drop in Hd. right. by exists d.
    - rewrite length_drop in Hge. left. cbn. lia. }
  destruct Hz as [Hz Hmz]. destruct Hend as [Hout|(d & Hd & He)].
  - unfold wp at 1. rewrite value_loop_out by done. unfold value_tail. repeat up_step; apply up_count; intros r; up_step;
      (split; [|done]); intros f Hf Ha; specialize (Hup f Hf); rewrite <- Hmz in Hup; rewrite Hs in Hup; cbn in Ha; rewrite Hs in Ha; specialize (Hup Ha); by destruct f.
  - apply (up_eq _ _ _ _ _ (value_loop_close settings max_header_size lenient data (p x) h d z Hd He)). unfold value_close.
    up_step. up_step. destruct (eqc d CR); unfold value_tail; repeat up_step; apply up_count; intros r; repeat up_step; up_done Hup Hs.
Qed.

Lemma headers_done_up c x : p_state x = s_headers_done -> marked_up x -> U (headers_done settings c) up x.
Proof.
  intros Hs Hup. unfold headers_done. repeat up_step; split; try done; intros f Hf Ha; cbn in *; try by destruct f.
  all: match goal with H : p_state _ = NEW_MESSAGE ?q |- _ => rewrite H in Ha; destruct (NEW_MESSAGE_cases q) as [E|[E|E]]; rewrite E in Ha end; by destruct f.
Qed.

Lemma body_up s x : p_state x = s -> marked_up x -> U (body settings data s) up x.
Proof.
  intros Hs Hup. destruct s; try done; cbn [body]; unfold take_body; repeat up_step; up_done Hup Hs.
  all: match goal with H : p_state _ = NEW_MESSAGE ?q |- _ => destruct (NEW_MESSAGE_cases q) as [E|[E|E]]; by rewrite E in * end.
Qed.

Lemma chunked_up s c x : p_state x = s -> marked_up x -> U (chunked settings data s c) up x.
Proof. intros Hs Hup. destruct s; try done; cbn [chunked]; unfold take_body; repeat up_step; up_done Hup Hs. Qed.

(** *** A byte *)

Context (Hmax : Z.of_nat (length data) <= max_header_size).

Lemma switch_up x : marked_up x -> (p x <= length data)%nat -> U (switch settings max_header_size data lenient) up x.
Proof.
  intros Hup Hp. unfold switch. do 4 wp_step.
  destruct (p_state x) eqn:Hs;
    first [ by apply start_line_up | by apply status_line_up | by apply start_req_up | by apply req_method_up
          | by apply request_url_up | by apply request_version_up | by apply header_field_start_up
          | by apply header_field_up | by apply header_value_discard_ws_up | by apply header_value_start_up
          | by apply header_value_up | by apply header_end_up | by apply headers_almost_done_up
          | by apply headers_done_up | by apply body_up | by apply chunked_up ].
Qed.

(** The invariant when the byte is counted. *)
Lemma inv_counted c x : inv 0 x -> PARSING_HEADER (p_state x) = true -> inv 1 (x_nread (u32 (nread x + u32 (Z.of_nat 1))) (x_ch c x)).
Proof.
  intros Hi _. destruct (inv_ch c 0 x Hi) as [Hok [Hv Hq] Hm]. split; [done| |intros f m Hf; apply Hm; by destruct f].
  split; [done|]. cbn in *. destruct (p_state x); try done. by destruct Hq as [Hc ->].
Qed.
Lemma inv_uncounted c x : inv 0 x -> PARSING_HEADER (p_state x) = false -> inv 1 (x_ch c x).
Proof. intros Hi Hs. apply inv_other; [by apply inv_ch|]. intros E. cbn in E. by rewrite E in Hs. Qed.

Lemma wp_and {A} (m : X A) (Q Q' : A -> locals -> Prop) (E : stop -> locals -> Prop) x :
  wp m Q E x -> U m Q' x -> U m (fun a y => Q a y /\ Q' a y) x.
Proof. unfold wp. by destruct (m x) as [[a|s] y]. Qed.

Lemma marked_up_ch c x : marked_up x -> marked_up (x_ch c x).
Proof. intros Hup f Hf Ha. specialize (Hup f Hf Ha). by destruct f. Qed.

Lemma reexecute_up fuel x :
  inv 1 x -> (p x < length data)%nat -> marked_up x ->
  U (reexecute settings max_header_size data lenient fuel) (fun _ y => marked_up y) x.
Proof.
  revert x. induction fuel as [|fuel IH]; intros x Hi Hp Hup; [done|]. cbn [reexecute]. wp_step.
  eapply wp_mono; [eapply wp_and; [apply (switch_ok settings max_header_size data lenient (quiet_passive _ Hquiet) x Hi Hp)|apply switch_up; [done|lia]]|].
  intros [|] y ((Hi' & Hp' & Hr) & Hup' & _); cbv beta iota; [by wp_step|]. apply IH; [|lia|done]. apply inv_other; [done|].
  intros E. rewrite E in Hr. cbn in Hr. pose proof (rank_bounds (p_state x)). lia.
Qed.

Lemma one_byte_up x :
  inv 0 x -> (p x < length data)%nat -> marked_up x ->
  U (one_byte settings max_header_size data lenient) (fun _ y => marked_up y) x.
Proof.
  intros Hi Hp Hup. unfold one_byte. wp_step. unfold wp at 1, read_ch. destruct (data !! p x) as [c|]; [|done].
  do 2 wp_step. assert (Hrest : forall y, inv 1 y -> p y = p x -> marked_up y ->
    U (reexecute settings max_header_size data lenient 5 ;; upd (x_p S)) (fun _ y => marked_up y) y).
  { intros y Hi' Hp' Hup'. wp_step. eapply wp_mono; [apply reexecute_up; [done|lia|done]|]. intros [] z Hz. wp_step.
    intros f Hf Ha. specialize (Hz f Hf Ha). by destruct f. }
  wp_step. wp_step.
  - unfold COUNT_HEADER_SIZE. do 4 wp_step. wp_step; [done|]. apply Hrest; [exact (inv_counted c x Hi H)|done|].
    intros f Hf Ha. specialize (Hup f Hf Ha). by destruct f.
  - apply Hrest; [exact (inv_uncounted c x Hi H)|done|by apply marked_up_ch].
Qed.

Lemma main_loop_up fuel x :
  inv 0 x -> (p x <= length data)%nat -> marked_up x ->
  U (main_loop settings max_header_size data lenient fuel) (fun _ y => marked_up y) x.
Proof.
  revert x. induction fuel as [|fuel IH]; intros x Hi Hp Hup; [done|]. cbn [main_loop]. do 2 wp_step. unfold HttpExecute.len.
  destruct (Nat.eqb_spec (p x) (length data)); [by wp_step|]. wp_step.
  eapply wp_mono; [eapply wp_and; [apply (one_byte_ok settings max_header_size data lenient (quiet_passive _ Hquiet) (fun _ y => inv 0 y /\ (p y <= length data)%nat));
    [done|lia|intros y Hi' Hp'; by split; [|lia]]|apply one_byte_up; [done|lia|done]]|].
  intros [] y ((Hi' & Hp') & Hup'). by apply IH.
Qed.
End marks.
