(* ===== verification/HttpSplit.v ===== *)
(** * The HTTP grammar on a buffer in two parts: the call on the whole

    What [http_parser_execute] does with a buffer is what it does with the first part, and then
    with the second from where it stands. *)

From S2P Require Import Prelude Http HttpGrammar HttpExecute HttpGrammarTheorems HttpChunks HttpScan HttpPrefix HttpMarks.
#[local] Set Default Goal Selector "!".

(** One byte, the locals being set, and the move to the next. *)
Definition byte_rest settings max_header_size lenient (buffer : str) (fuel : nat) : X unit :=
  reexecute settings max_header_size buffer lenient fuel ;; upd (x_p S).

(** The same result, but for the character read, which matters no more. *)
Definition near (r r' : (turn + stop) * locals) : Prop :=
  r = r' \/
  exists c, r' = x_res c r /\ match fst r with inl Reexecute => p_state (snd r) = s_message_done | _ => True end.

Lemma locals_eq x y :
  parser x = parser y -> p_state x = p_state y -> nread x = nread y -> p x = p y -> ch x = ch y ->
  (forall f, mark f x = mark f y) -> trace x = trace y -> x = y.
Proof.
  intros H1 H2 H3 H4 H5 Hm H7. pose proof (Hm cb_header_field). pose proof (Hm cb_header_value). pose proof (Hm cb_url).
  pose proof (Hm cb_body). pose proof (Hm cb_status). destruct x, y; cbn in *; congruence.
Qed.

(** The same result, but for the character read. *)
Definition alike {A} (r r' : (A + stop) * locals) : Prop := r' = r \/ exists c, r' = x_res c r.

Section split.
Context (settings : http_parser_settings) (max_header_size : Z) (lenient : bool) (data d1 d2 : str).
Context (Hquiet : quiet settings) (Hdata : data = d1 ++ d2) (Hd2 : d2 <> []).
Context (Hmax : Z.of_nat (length data) <= max_header_size) (Hsmall : max_header_size < 2 ^ 31).
Implicit Types x : locals.

Lemma one_byte_run buffer c x :
  buffer !! p x = Some c ->
  one_byte settings max_header_size buffer lenient x =
  (only_if (PARSING_HEADER (p_state x)) (COUNT_HEADER_SIZE max_header_size 1) ;;
   byte_rest settings max_header_size lenient buffer 5) (x_ch c x).
Proof.
  intros Hc. unfold one_byte. rewrite (xb (read_ch buffer) _ x tt (x_ch c x)) by (unfold read_ch; by rewrite Hc).
  by rewrite (xb (the p_state) _ (x_ch c x) _ _ eq_refl).
Qed.

Lemma count_passes v x :
  0 <= nread x -> nread x + Z.of_nat v <= max_header_size ->
  COUNT_HEADER_SIZE max_header_size v x = (inl tt, x_nread (nread x + Z.of_nat v) x).
Proof.
  intros Hn Hv. unfold COUNT_HEADER_SIZE, mbind, X_bind, the, upd. cbn [nread x_nread].
  rewrite (wrap_small 32 (Z.of_nat v)) by (unfold unsigned_range; lia). rewrite wrap_small by (unfold unsigned_range; lia).
  destruct (Z.ltb_spec max_header_size (nread x + Z.of_nat v)); [lia|done].
Qed.

Lemma count_good v x :
  0 <= nread x <= max_header_size -> Z.of_nat v <= max_header_size -> good (COUNT_HEADER_SIZE max_header_size v x) ->
  nread x + Z.of_nat v <= max_header_size.
Proof.
  intros Hn Hv. unfold COUNT_HEADER_SIZE, mbind, X_bind, the, upd, good. cbn [nread x_nread].
  rewrite (wrap_small 32 (Z.of_nat v)) by (unfold unsigned_range; lia). rewrite wrap_small by (unfold unsigned_range; lia).
  destruct (Z.ltb_spec max_header_size (nread x + Z.of_nat v)); [|done]. cbn. by intros [].
Qed.

(** How the two calls meet at the end of the first part. *)
Definition crossed x : Prop :=
  exists x1 x3, switch settings max_header_size d1 lenient x = (inl Break, x1) /\ S (p x1) = length d1 /\
    one_byte settings max_header_size data lenient (x_p S x1) = byte_rest settings max_header_size lenient data 5 x3 /\
    near (switch settings max_header_size data lenient x) (switch settings max_header_size data lenient x3).

Lemma switch_field buffer x :
  p_state x = s_header_field -> switch settings max_header_size buffer lenient x = header_field settings max_header_size buffer x.
Proof. intros Hs. unfold switch, mbind, X_bind, the. by rewrite Hs. Qed.
Lemma switch_value buffer x :
  p_state x = s_header_value -> switch settings max_header_size buffer lenient x = header_value settings max_header_size buffer lenient x.
Proof. intros Hs. unfold switch, mbind, X_bind, the. by rewrite Hs. Qed.

Lemma first_of_rest : exists e, data !! length d1 = Some e.
Proof. destruct d2 as [|e d]; [done|]. exists e. rewrite Hdata, lookup_app_r by lia. by rewrite Nat.sub_diag. Qed.

(** The count at the end of a part, and after it. *)
Lemma field_tail_out start x :
  (start < length d1)%nat -> p x = length d1 -> 0 <= nread x -> nread x + Z.of_nat (length d1 - 1 - start) <= max_header_size ->
  field_tail settings max_header_size d1 start x =
  (inl Break, x_nread (nread x + Z.of_nat (length d1 - 1 - start)) (x_p pred x)).
Proof.
  intros Hst Hp Hn Hv. unfold field_tail. rewrite (xb (the p) _ x _ _ eq_refl), Hp, Nat.eqb_refl.
  rewrite (xb (upd _) _ x _ _ eq_refl), (xb (the p) _ _ _ _ eq_refl). cbn [p x_p]. rewrite Hp.
  replace (pred (length d1) - start)%nat with (length d1 - 1 - start)%nat by lia.
  by rewrite (xb _ _ _ _ _ (count_passes _ (x_p pred x) Hn Hv)).
Qed.

Lemma count_nread v v' r x :
  0 <= nread x -> 0 <= r -> nread x + Z.of_nat v < 2 ^ 32 -> nread x + Z.of_nat v = r + Z.of_nat v' ->
  COUNT_HEADER_SIZE max_header_size v x = COUNT_HEADER_SIZE max_header_size v' (x_nread r x).
Proof.
  intros Hn Hr Hlt E. unfold COUNT_HEADER_SIZE, mbind, X_bind, the, upd. cbn [nread x_nread].
  rewrite (wrap_small 32 (Z.of_nat v)), (wrap_small 32 (Z.of_nat v')) by (unfold unsigned_range; lia). by rewrite E.
Qed.

(** Counting from further on, having counted before. *)
Lemma field_tail_nread start x :
  (start <= length d1)%nat -> (length d1 <= p x)%nat -> (length d1 <= pred (p x) \/ p x <> length data)%nat ->
  0 <= nread x <= max_header_size -> (p x <= length data)%nat ->
  field_tail settings max_header_size data start x =
  field_tail settings max_header_size data (length d1) (x_nread (nread x + Z.of_nat (length d1 - start)) x).
Proof.
  intros Hst Hp Hp' Hn Hlen. unfold field_tail. rewrite !(xb (the p) _ _ _ _ eq_refl). cbn [p x_nread].
  destruct (Nat.eqb_spec (p x) (length data)) as [E|E].
  - rewrite !(xb (upd _) _ _ _ _ eq_refl), !(xb (the p) _ _ _ _ eq_refl). cbn [p x_p x_nread]. unfold mbind at 1 2, X_bind at 1 2.
    rewrite (count_nread (pred (p x) - start) (pred (p x) - length d1) (nread x + Z.of_nat (length d1 - start)) (x_p pred x)); [done|cbn; lia..].
  - unfold mbind at 1 4, X_bind at 1 4.
    rewrite (count_nread (p x - start) (p x - length d1) (nread x + Z.of_nat (length d1 - start)) x); [done|cbn; lia..].
Qed.

Lemma field_tail_good start x :
  (start <= length d1)%nat -> (length d1 <= p x)%nat -> (p x <= length data)%nat -> 0 <= nread x <= max_header_size ->
  good (field_tail settings max_header_size data start x) -> nread x + Z.of_nat (length d1 - start) <= max_header_size.
Proof.
  intros Hst Hp Hlen Hn. unfold field_tail. rewrite !(xb (the p) _ _ _ _ eq_refl).
  assert (length d2 <> 0%nat) by (destruct d2; done). pose proof (prefix_length data d1 d2 Hdata).
  destruct (Nat.eqb_spec (p x) (length data)) as [E|E].
  - rewrite (xb (upd _) _ _ _ _ eq_refl), (xb (the p) _ _ _ _ eq_refl). cbn [p x_p]. intros Hg%good_bind.
    apply count_good in Hg; [cbn in Hg; lia|cbn; lia|lia].
  - intros Hg%good_bind. apply count_good in Hg; lia.
Qed.

Lemma field_tail_end start c x :
  p x = length data ->
  field_tail settings max_header_size data start (x_ch c x) = x_res c (field_tail settings max_header_size data start x) /\
  (forall t y, field_tail settings max_header_size data start x = (inl t, y) -> t = Break).
Proof.
  intros Hp. unfold field_tail. rewrite !(xb (the p) _ _ _ _ eq_refl). cbn [p x_ch]. rewrite Hp, Nat.eqb_refl. split.
  - rewrite !(xb (upd _) _ _ _ _ eq_refl), !(xb (the p) _ _ _ _ eq_refl).
    assert (forall v, ch_free (COUNT_HEADER_SIZE max_header_size v)) as Hc.
    { intros v. unfold COUNT_HEADER_SIZE, fails. ch_free_tac. }
    change (x_p pred (x_ch c x)) with (x_ch c (x_p pred x)). unfold mbind, X_bind. rewrite Hc.
    by destruct (COUNT_HEADER_SIZE _ _ (x_p pred x)) as [[|] y].
  - rewrite (xb (upd _) _ _ _ _ eq_refl), (xb (the p) _ _ _ _ eq_refl). unfold mbind, X_bind.
    destruct (COUNT_HEADER_SIZE _ _ _) as [[|] y]; [|done]. intros t z. by intros [= <- _].
Qed.

(** In the headers: the part's bytes are counted, then the first of the rest. *)
Lemma crossed_header x x0 :
  PARSING_HEADER (p_state x0) = true -> (p x < length d1)%nat -> p x0 = length d1 -> 0 <= nread x0 ->
  nread x0 + Z.of_nat (length d1 - p x) <= max_header_size ->
  switch settings max_header_size d1 lenient x = (inl Break, x_nread (nread x0 + Z.of_nat (length d1 - 1 - p x)) (x_p pred x0)) ->
  (forall e, near (switch settings max_header_size data lenient x)
     (switch settings max_header_size data lenient (x_ch e (x_nread (nread x0 + Z.of_nat (length d1 - p x)) x0)))) ->
  crossed x.
Proof.
  intros Hs Hp H0 Hn Hv E1 Hnear. destruct first_of_rest as [e He].
  match type of E1 with _ = (_, ?y) => set (x1 := y) in * end. assert (Hx1 : p (x_p S x1) = length d1) by (cbn; lia).
  exists x1, (x_ch e (x_nread (nread x0 + Z.of_nat (length d1 - p x)) x0)). split; [done|]. split; [cbn; lia|]. split; [|apply Hnear].
  rewrite (one_byte_run data e) by (by rewrite Hx1). change (p_state (x_p S x1)) with (p_state x0). rewrite Hs. cbn [only_if].
  rewrite (xb _ _ _ _ _ (count_passes 1 (x_ch e (x_p S x1)) ltac:(cbn; lia) ltac:(cbn; lia))). f_equal.
  apply locals_eq; try done; cbn; lia.
Qed.

Lemma field_cross x q1 :
  p_state x = s_header_field -> (p x < length d1)%nat -> 0 <= nread x <= max_header_size ->
  field_scan (parser x) (drop (p x) d1) = Some ((length d1 - p x)%nat, q1) ->
  good (switch settings max_header_size data lenient x) -> crossed x.
Proof.
  intros Hs Hp Hn Hscan. rewrite switch_field by done. pose proof (prefix_length data d1 d2 Hdata).
  pose proof (header_field_scanned settings max_header_size d1 x ltac:(lia)) as H1. rewrite Hscan in H1. destruct H1 as (c1 & H1 & _).
  pose proof (header_field_scanned settings max_header_size data x ltac:(lia)) as H2.
  rewrite (drop_prefix data d1 d2), field_scan_app, Hscan in H2 by (done || lia). cbn [mbind option_bind] in H2.
  rewrite length_drop, Nat.ltb_irrefl in H2. destruct (field_scan q1 d2) as [[k2 q2]|] eqn:Hscan2; cbn [mbind option_bind] in H2.
  2:{ destruct H2 as (s & x' & E & Hb). intros Hg. by destruct (bad_result _ _ _ _ E Hb). }
  destruct H2 as (c & H2 & Hk & Hc). rewrite H2. set (z := at_field _ c q2 x) in *. intros Hg.
  assert (Hz : p z = (length d1 + k2)%nat) by (cbn; lia). assert (nread z = nread x) as Hnz by done.
  pose proof (field_tail_good (p x) z ltac:(lia) ltac:(lia) ltac:(lia) Hn Hg) as Hv. rewrite Hnz in Hv.
  set (x0 := at_field (length d1 - p x) c1 q1 x) in *. rewrite field_tail_out in H1; [|done|cbn; lia|cbn; lia|cbn; lia].
  apply (crossed_header x x0); [by change (p_state x0) with (p_state x); rewrite Hs|done|cbn; lia|cbn; lia|done|by rewrite switch_field|].
  intros e. rewrite !switch_field by done. set (x3 := x_ch e _). assert (Hx3 : p x3 = length d1) by (cbn; lia).
  pose proof (header_field_scanned settings max_header_size data x3 ltac:(lia)) as H3. change (parser x3) with q1 in H3.
  rewrite Hx3, (drop_prefix data d1 d2), drop_all in H3 by done. cbn [app] in H3. rewrite Hscan2 in H3. destruct H3 as (c3 & H3 & _ & Hc3).
  assert (length d2 <> 0%nat) by by destruct d2. rewrite H3, H2, (field_tail_nread (p x) z) by lia.
  assert (Eab : x_ch c3 (x_nread (nread z + Z.of_nat (length d1 - p x)) z) = at_field k2 c3 q2 x3) by (apply locals_eq; try done; cbn; lia).
  rewrite <- Eab. destruct (decide (p z = length data)) as [Ep|Ep].
  - right. exists c3. destruct (field_tail_end (length d1) c3 (x_nread (nread z + Z.of_nat (length d1 - p x)) z) Ep) as [-> Hb].
    split; [done|]. revert Hb. generalize (field_tail settings max_header_size data (length d1) (x_nread (nread z + Z.of_nat (length d1 - p x)) z)).
    intros [[t|s] y] Hb; [by rewrite (Hb t y eq_refl)|done].
  - left. assert (c3 = c) as ->; [|done]. destruct (lookup_lt_is_Some_2 data (length d1 + k2)) as [d Hd]; [lia|].
    rewrite (Hc d) by (rewrite <- Hd; f_equal; cbn in Hz; lia). by apply Hc3.
Qed.

(** The callbacks and what is counted have nothing to do with each other. *)
Lemma data_counted f span er x :
  (exists y, CALLBACK_DATA_ settings data f span er x = (inl tt, y) /\ p y = p x /\ nread y = nread x /\ p_state y = p_state x /\
     forall r, CALLBACK_DATA_ settings data f span er (x_nread r x) = (inl tt, x_nread r y)) \/
  (exists s y, CALLBACK_DATA_ settings data f span er x = (inr s, y) /\ bad s).
Proof.
  unfold CALLBACK_DATA_, mbind, X_bind, the, check. cbn [parser x_nread].
  destruct (is_ok (parser x)) eqn:Hok; [|right; by eexists _, _]. cbn [mret X_ret]. unfold mret, X_ret.
  assert (forall r, mark f (x_nread r x) = mark f x) as Em by (intros r; by destruct f).
  destruct (mark f x) as [m|] eqn:E; [|left; exists x; split_and!; [done..|intros r; by rewrite Em]].
  destruct (negb _) eqn:En; [right; by eexists _, _|]. cbn [only_if]. unfold mret, X_ret. left.
  destruct (on_data settings f) as [cb|] eqn:Ef; [|eexists; split_and!; [reflexivity|done|done|done|intros r; rewrite Em, En; cbn; by destruct f]].
  cbn [with_parser upd p_state x_nread parser x_parser x_event]. rewrite !(proj2 Hquiet f cb _ _ Ef). cbn [fst snd Z.eqb negb].
  unfold with_parser, upd. rewrite after_run by done. eexists. split_and!; [reflexivity|done|done|done|].
  intros r. rewrite Em, En. cbn [only_if]. unfold mret, X_ret. cbn [p_state x_nread parser x_parser x_event].
  rewrite !(proj2 Hquiet f cb _ _ Ef). cbn [fst snd Z.eqb negb]. rewrite after_run by done. by destruct f.
Qed.

Lemma CALLBACK_DATA_counted f x :
  (exists y, CALLBACK_DATA settings data f x = (inl tt, y) /\ p y = p x /\ nread y = nread x /\ p_state y = p_state x /\
     forall r, CALLBACK_DATA settings data f (x_nread r x) = (inl tt, x_nread r y)) \/
  (exists s y, CALLBACK_DATA settings data f x = (inr s, y) /\ bad s).
Proof. apply data_counted. Qed.

(** The end of the line, having counted before. *)
Lemma value_close_nread start h h1 cr x :
  (start <= length d1)%nat -> (length d1 <= p x < length data)%nat -> 0 <= nread x <= max_header_size ->
  good ((value_close settings max_header_size data start h cr ≫= value_tail max_header_size data start) x) ->
  nread x + Z.of_nat (length d1 - start) <= max_header_size /\
  (value_close settings max_header_size data start h cr ≫= value_tail max_header_size data start) x =
  (value_close settings max_header_size data (length d1) h cr ≫= value_tail max_header_size data (length d1))
    (x_nread (nread x + Z.of_nat (length d1 - start)) (x_parser (set_header_state h1) x)).
Proof.
  intros Hst Hp Hn. unfold value_close. rewrite !x_assoc, !(xb (the p) _ _ _ _ eq_refl). cbn [p x_nread x_parser]. destruct cr.
  - rewrite !x_assoc, !(xb (UPDATE_STATE _) _ _ _ _ eq_refl), !x_assoc, !(xb (set_hs _) _ _ _ _ eq_refl), !x_assoc.
    set (z := x_parser (set_header_state h) (x_state s_header_almost_done x)). set (r := nread x + Z.of_nat (length d1 - start)).
    change (x_parser (set_header_state h) (x_state s_header_almost_done (x_nread _ _))) with (x_nread r z).
    destruct (CALLBACK_DATA_counted cb_header_value z) as [(y & E & Hpy & Hny & _ & Er)|(s & y & E & Hb)].
    2:{ intros Hg. by destruct (bad_result _ _ _ _ E Hb (good_bind _ _ _ Hg)). }
    rewrite (xb _ _ _ _ _ E), (xb _ _ _ _ _ (Er r)), !(xb (mret _) _ _ _ _ eq_refl). unfold value_tail.
    rewrite !(xb (set_hs _) _ _ _ _ eq_refl), !(xb (the p) _ _ _ _ eq_refl). cbn [p x_parser x_nread]. change (p z) with (p x) in Hpy.
    destruct (Nat.eqb_spec (p y) (length data)); [lia|]. cbn [only_if]. rewrite !(xb (mret _) _ _ _ _ eq_refl), !(xb (the p) _ _ _ _ eq_refl). cbn [p x_parser x_nread].
    change (nread z) with (nread x) in Hny. intros Hg%good_bind. apply count_good in Hg; [|cbn; lia|lia]. cbn [nread x_parser] in Hg.
    split; [lia|]. unfold mbind, X_bind.
    by rewrite (count_nread _ (p y - length d1) r (x_parser (set_header_state h) y)) by (cbn; lia).
  - rewrite !x_assoc, !(xb (UPDATE_STATE _) _ _ _ _ eq_refl), !x_assoc. intros Hg. pose proof Hg as Hc. apply good_bind, count_good in Hc; [|cbn; lia|lia].
    cbn [nread x_state] in Hc. split; [lia|].
    rewrite (xb _ _ _ _ _ (count_passes (p x - start) (x_state s_header_almost_done x) ltac:(cbn; lia) ltac:(cbn; lia))).
    match goal with |- _ = _ ?y0 => rewrite (xb _ _ _ _ _ (count_passes (p x - length d1) y0 ltac:(cbn; lia) ltac:(cbn; lia))) end.
    rewrite !x_assoc, !(xb (set_hs _) _ _ _ _ eq_refl). cbn [nread x_state x_nread x_parser].
    replace (nread x + Z.of_nat (length d1 - start) + Z.of_nat (p x - length d1)) with (nread x + Z.of_nat (p x - start)) by lia. rewrite !x_assoc. reflexivity.
Qed.

Definition value_rest (buffer : str) (start : nat) (h : header_states) : X turn :=
  value_loop settings max_header_size buffer lenient 1 start h ≫= value_tail max_header_size buffer start.

(** At the end of the data. *)
Lemma value_rest_out buffer start h x :
  p x = length buffer -> (start < length buffer)%nat ->
  value_rest buffer start h x =
  (COUNT_HEADER_SIZE max_header_size (length buffer - 1 - start) ;; mret Break) (x_p pred (x_parser (set_header_state h) x)).
Proof.
  intros Hp Hst. unfold value_rest. rewrite (xb _ _ _ _ _ (value_loop_out settings max_header_size lenient buffer start h x Hp)).
  unfold value_tail. rewrite (xb (set_hs _) _ _ _ _ eq_refl), (xb (the p) _ _ _ _ eq_refl). cbn [p x_parser]. rewrite Hp, Nat.eqb_refl.
  cbn [only_if]. rewrite (xb (upd _) _ _ _ _ eq_refl), (xb (the p) _ _ _ _ eq_refl). cbn [p x_parser x_p]. rewrite Hp.
  by replace (pred (length buffer) - start)%nat with (length buffer - 1 - start)%nat by lia.
Qed.

Lemma value_rest_meet start h h1 c x :
  (start < length d1)%nat -> (length d1 <= p x)%nat -> 0 <= nread x <= max_header_size ->
  p x = length data \/ (exists d, data !! p x = Some d /\ ends d = true) -> good (value_rest data start h x) ->
  nread x + Z.of_nat (length d1 - start) <= max_header_size /\
  near (value_rest data start h x)
    (value_rest data (length d1) h (x_ch c (x_nread (nread x + Z.of_nat (length d1 - start)) (x_parser (set_header_state h1) x)))).
Proof.
  intros Hst Hp Hn He. pose proof (prefix_length data d1 d2 Hdata). assert (length d2 <> 0%nat) by by destruct d2.
  destruct He as [He|(d & Hd & He)].
  - rewrite !value_rest_out by (done || lia). intros Hg%good_bind. apply count_good in Hg; [|cbn; lia|lia]. cbn [nread x_p x_parser] in Hg.
    split; [lia|]. match goal with |- near ((COUNT_HEADER_SIZE _ ?v ;; _) ?y) ((COUNT_HEADER_SIZE _ ?w ;; _) ?z) =>
      rewrite (xb _ _ _ _ _ (count_passes v y ltac:(cbn; lia) ltac:(cbn; lia))), (xb _ _ _ _ _ (count_passes w z ltac:(cbn; lia) ltac:(cbn; lia))) end.
    right. exists c. split; [|done]. unfold x_res, mret, X_ret. cbn [fst snd]. f_equal. apply locals_eq; try done. cbn. lia.
  - unfold value_rest. pose proof (value_loop_close settings max_header_size lenient data start h d x Hd He) as E1.
    match goal with |- context [near _ (_ ?y)] => pose proof (value_loop_close settings max_header_size lenient data (length d1) h d y Hd He) as E2 end.
    unfold mbind, X_bind in *. rewrite E1, E2. pose proof (lookup_lt_Some _ _ _ Hd). intros Hg.
    destruct (value_close_nread start h h1 (eqc d CR) (x_ch d x)) as [Hv E3]; [lia|cbn; lia|done|exact Hg|].
    split; [exact Hv|]. left. exact E3.
Qed.

Lemma value_cross x h1 q1 :
  p_state x = s_header_value -> (p x < length d1)%nat -> 0 <= nread x <= max_header_size ->
  value_scan lenient (pr_header_state (parser x)) (parser x) (drop (p x) d1) = Some ((length d1 - p x)%nat, h1, q1) ->
  good (switch settings max_header_size data lenient x) -> crossed x.
Proof.
  intros Hs Hp Hn Hscan. rewrite switch_value by done. pose proof (prefix_length data d1 d2 Hdata).
  pose proof (header_value_scanned settings max_header_size lenient d1 x ltac:(lia) Hs ltac:(lia)) as H1. rewrite Hscan in H1. destruct H1 as (c1 & _ & H1).
  pose proof (header_value_scanned settings max_header_size lenient data x Hmax Hs ltac:(lia)) as H2.
  rewrite (drop_prefix data d1 d2), value_scan_app, Hscan in H2 by (done || lia). cbn [mbind option_bind] in H2.
  rewrite length_drop, Nat.ltb_irrefl in H2. destruct (value_scan lenient h1 q1 d2) as [[[k2 h2] q2]|] eqn:Hscan2; cbn [mbind option_bind] in H2.
  2:{ destruct H2 as (s & x' & E & Hb). intros Hg. by destruct (bad_result _ _ _ _ E Hb). }
  destruct H2 as (c & Hk & H2). rewrite H2. set (z := at_field _ c q2 x) in *. intros Hg.
  assert (Hz : p z = (length d1 + k2)%nat) by (cbn; lia). assert (Hk2 : (k2 <= length d2)%nat) by lia.
  set (x0 := at_field (length d1 - p x) c1 (set_header_state h1 q1) x) in *.
  assert (He : p z = length data \/ (exists d, data !! p z = Some d /\ ends d = true)).
  { destruct (decide (k2 < length d2)%nat) as [Hlt|]; [|left; lia]. right.
    destruct (value_scan_end _ _ _ _ _ _ _ Hscan2 Hlt) as (d & Hd & He). exists d. split; [|done].
    rewrite Hz, Hdata, lookup_app_r by lia. by replace (length d1 + k2 - length d1)%nat with k2 by lia. }
  assert (Hmeet : forall c, _ /\ near _ _) by exact (fun c => value_rest_meet (p x) h2 h1 c z Hp ltac:(lia) Hn He Hg).
  pose proof (proj1 (Hmeet x00)) as Hv. change (nread z) with (nread x) in Hv.
  apply (crossed_header x x0); [by change (p_state x0) with (p_state x); rewrite Hs|done|cbn; lia|cbn; lia|done| |].
  { rewrite switch_value, H1 by done. fold (value_rest d1 (p x) h1). rewrite value_rest_out by (cbn; lia).
    match goal with |- (COUNT_HEADER_SIZE _ ?v ;; _) ?y = _ => by rewrite (xb _ _ _ _ _ (count_passes v y ltac:(cbn; lia) ltac:(cbn; lia))) end. }
  intros e. rewrite !switch_value by done. set (x3 := x_ch e _). assert (Hx3 : p x3 = length d1) by (cbn; lia).
  pose proof (header_value_scanned settings max_header_size lenient data x3 Hmax Hs ltac:(lia)) as H3. change (parser x3) with (set_header_state h1 q1) in H3.
  rewrite Hx3, (drop_prefix data d1 d2), drop_all in H3 by done. cbn [app] in H3.
  change (pr_header_state (set_header_state h1 q1)) with h1 in H3. rewrite value_scan_hs, Hscan2 in H3. cbn [mbind option_bind] in H3. destruct H3 as (c3 & _ & H3).
  rewrite H3, H2. destruct (Hmeet c3) as [_ Hnear].
  assert (Ey : at_field k2 c3 (set_header_state h1 q2) x3 =
    x_ch c3 (x_nread (nread z + Z.of_nat (length d1 - p x)) (x_parser (set_header_state h1) z))) by (apply locals_eq; try done; cbn; lia).
  by rewrite Ey.
Qed.

(** *** Bodies *)

Lemma crossed_body x x0 :
  PARSING_HEADER (p_state x0) = false -> p x0 = length d1 ->
  switch settings max_header_size d1 lenient x = (inl Break, x_p pred x0) -> (0 < length d1)%nat ->
  (forall e, near (switch settings max_header_size data lenient x) (switch settings max_header_size data lenient (x_ch e x0))) ->
  crossed x.
Proof.
  intros Hs H0 E1 Hlen Hnear. destruct first_of_rest as [e He].
  exists (x_p pred x0), (x_ch e x0). split; [done|]. split; [cbn; lia|]. split; [|apply Hnear].
  assert (x_p S (x_p pred x0) = x0) as -> by (apply locals_eq; try done; cbn; lia).
  rewrite (one_byte_run data e) by (by rewrite H0). by rewrite Hs.
Qed.

Definition marked_body x : locals := match mark cb_body x with None => x_mark cb_body (Some (p x)) x | Some _ => x end.

(** [t] bytes taken. *)
Definition taken (t : Z) x : locals :=
  x_p (fun n => n + Z.to_nat t - 1)%nat (x_parser (set_content_length (pr_content_length (parser x) - t)) (marked_body x)).

Lemma take_body_run buffer x :
  take_body buffer x = (check (negb (pr_content_length (parser x) =? 0) && negb (pr_content_length (parser x) =? ULLONG_MAX)) ;;
    upd (taken (Z.min (pr_content_length (parser x)) (Z.of_nat (length buffer - p x))))) x.
Proof.
  unfold take_body, MARK, mbind, X_bind, the, upd, with_parser. destruct (check _ x) as [[[]|] y] eqn:E; [|done].
  apply check_id in E as ->. unfold taken, marked_body, HttpExecute.len. by destruct (mark cb_body x).
Qed.

(** The same bytes, in two parts. *)
Lemma taken_twice e t t1 x :
  1 <= t1 -> t1 < t -> taken (t - t1) (x_ch e (x_p S (taken t1 x))) = x_ch e (taken t x).
Proof.
  intros H1 Ht. destruct x as [q s n k c f v u [b|] st tr]; apply locals_eq; try done; try (by intros []); cbn;
    try (unfold set_content_length; cbn; f_equal; lia); lia.
Qed.

Lemma take_body_taken buffer x :
  let v := pr_content_length (parser x) in let t := Z.min v (Z.of_nat (length buffer - p x)) in
  take_body buffer x = (inl tt, taken t x) /\ v <> 0 /\ v <> ULLONG_MAX \/ exists s y, take_body buffer x = (inr s, y) /\ bad s.
Proof.
  cbv zeta. rewrite take_body_run. destruct (_ && _) eqn:E; [left|right; by eexists _, _]. split; [done|]. lia.
Qed.

(** What follows [take_body] in the three states. *)
Lemma take_body_meet (rest1 rest2 : X turn) e x :
  (p x < length d1)%nat -> Z.of_nat (length d1 - p x) < pr_content_length (parser x) <= ULLONG_MAX ->
  good ((take_body data ;; rest2) x) ->
  let x0 := x_p S (taken (Z.of_nat (length d1 - p x)) x) in
  (take_body d1 ;; rest1) x = rest1 (x_p pred x0) /\ 0 < pr_content_length (parser x0) /\ p x0 = length d1 /\ p_state x0 = p_state x /\
  exists y, (take_body data ;; rest2) x = rest2 y /\ (take_body data ;; rest2) (x_ch e x0) = rest2 (x_ch e y).
Proof.
  intros Hp Hv. pose proof (prefix_length data d1 d2 Hdata). assert (length d2 <> 0%nat) by by destruct d2.
  set (v := pr_content_length (parser x)) in *. set (t1 := Z.of_nat (length d1 - p x)) in *. set (x0 := x_p S (taken t1 x)).
  destruct (take_body_taken data x) as [(E & Hv0 & HvM)|(s & y & E & Hb)].
  2:{ intros Hg. by destruct (bad_result _ _ _ _ E Hb (good_bind _ _ _ Hg)). }
  fold v in E, Hv0, HvM. intros _. assert (Hx0 : p x0 = length d1 /\ p_state x0 = p_state x /\ pr_content_length (parser x0) = v - t1).
  { unfold x0, taken, marked_body. destruct (mark cb_body x); cbn; (split; [lia|done]). }
  destruct Hx0 as (Hp0 & Hs0 & Hv0'). split.
  { destruct (take_body_taken d1 x) as [(E1 & _)|(s & y & E1 & Hb)].
    - fold v t1 in E1. rewrite Z.min_r in E1 by lia. by rewrite (xb _ _ _ _ _ E1).
    - rewrite take_body_run in E1, E. fold v in E, E1. by destruct (_ && _). }
  split; [lia|]. split; [done|]. split; [done|]. exists (taken (Z.min v (Z.of_nat (length data - p x))) x). split; [by rewrite (xb _ _ _ _ _ E)|].
  destruct (take_body_taken data (x_ch e x0)) as [(E2 & _)|(s & y & E2 & Hb)].
  - cbn [parser p x_ch] in E2. rewrite Hv0', Hp0 in E2.
    replace ((v - t1) `min` Z.of_nat (length data - length d1)) with (Z.min v (Z.of_nat (length data - p x)) - t1) in E2 by lia.
    unfold x0 in E2. rewrite taken_twice in E2 by lia. by rewrite (xb _ _ _ _ _ E2).
  - rewrite take_body_run in E2. cbn [parser p x_ch] in E2. rewrite Hv0' in E2. destruct (_ && _) eqn:Ev in E2; [done|lia].
Qed.

Lemma take_body_cross (rest : str -> X turn) x :
  PARSING_HEADER (p_state x) = false -> (p x < length d1)%nat ->
  Z.of_nat (length d1 - p x) < pr_content_length (parser x) <= ULLONG_MAX ->
  (forall b y, p_state y = p_state x -> pr_flags (parser y) = pr_flags (parser x) ->
     switch settings max_header_size b lenient y = (take_body b ;; rest b) y) ->
  (forall y, 0 < pr_content_length (parser y) -> rest d1 y = (inl Break, y)) -> ch_free (rest data) ->
  (forall y y', rest data y = (inl Reexecute, y') -> p_state y' = s_message_done) ->
  good (switch settings max_header_size data lenient x) -> crossed x.
Proof.
  intros Hs Hp Hv Hsw Hrest Hfree Hre. rewrite Hsw by done. intros Hg.
  pose proof (fun e => take_body_meet (rest d1) (rest data) e x Hp Hv Hg) as Hmeet. cbv zeta in Hmeet.
  assert (Hfl : pr_flags (parser (taken (Z.of_nat (length d1 - p x)) x)) = pr_flags (parser x))
    by (unfold taken, marked_body; by destruct (mark cb_body x)).
  set (x0 := x_p S _) in *. destruct (Hmeet x00) as (E1 & Hv0 & Hp0 & Hs0 & _).
  apply (crossed_body x x0); [by rewrite Hs0|done| |lia|].
  - rewrite Hsw, E1 by done. apply Hrest. exact Hv0.
  - intros e. destruct (Hmeet e) as (_ & _ & _ & _ & y & Ey & Ey'). rewrite !Hsw by done. rewrite Ey, Ey', Hfree.
    right. exists e. split; [done|]. specialize (Hre y). destruct (rest data y) as [[[]|s] y']; [done|by apply Hre|done].
Qed.

Lemma identity_cross x :
  p_state x = s_body_identity -> (p x < length d1)%nat -> Z.of_nat (length d1 - p x) < pr_content_length (parser x) <= ULLONG_MAX ->
  good (switch settings max_header_size data lenient x) -> crossed x.
Proof.
  intros Hs Hp Hv.
  apply (take_body_cross (fun b =>
      v ← the (fun x => pr_content_length (parser x)); n ← the p;
      if v =? 0 then
        UPDATE_STATE s_message_done ;; CALLBACK_DATA_ settings b cb_body (fun m => Z.of_nat n - Z.of_nat m + 1) n ;; mret Reexecute
      else mret Break)); try done; cbv beta.
  - by rewrite Hs.
  - intros b y E _. rewrite Hs in E. unfold switch, mbind at 1 2, X_bind at 1 2, the at 1 2. by rewrite E.
  - intros y Hy. rewrite !(xb (the _) _ _ _ _ eq_refl). by destruct (Z.eqb_spec (pr_content_length (parser y)) 0); [lia|].
  - pose proof (ch_free_data settings data) as Hd. ch_free_tac.
  - intros y y'. rewrite !(xb (the _) _ _ _ _ eq_refl). destruct (_ =? 0); [|done]. rewrite (xb (UPDATE_STATE _) _ _ _ _ eq_refl).
    match goal with |- context [CALLBACK_DATA_ settings data cb_body ?sp ?er] => destruct (data_counted cb_body sp er (x_state s_message_done y))
      as [(z & E & _ & _ & Hz & _)|(s & z & E & _)] end; [rewrite (xb _ _ _ _ _ E)|by rewrite (xstop _ _ _ _ _ E)].
    by intros [= <-].
Qed.

Lemma chunk_cross x :
  p_state x = s_chunk_data -> (p x < length d1)%nat -> Z.of_nat (length d1 - p x) < pr_content_length (parser x) <= ULLONG_MAX ->
  good (switch settings max_header_size data lenient x) -> crossed x.
Proof.
  intros Hs Hp Hv Hg. assert (Hon : flag_on F_CHUNKED (parser x) = true).
  { unfold switch, mbind at 1 2, X_bind at 1 2, the at 1 2 in Hg. rewrite Hs in Hg. cbn [chunked] in Hg. apply good_bind in Hg.
    unfold assert_chunked in Hg. rewrite (xb (the _) _ _ _ _ eq_refl) in Hg. by destruct (flag_on _ _); [|destruct Hg]. }
  revert Hg. apply (take_body_cross (fun b =>
      v ← the (fun x => pr_content_length (parser x));
      only_if (v =? 0) (UPDATE_STATE s_chunk_data_almost_done) ;; mret Break)); try done; cbv beta.
  - by rewrite Hs.
  - intros b y E Ef. rewrite Hs in E. unfold switch, mbind at 1 2, X_bind at 1 2, the at 1 2. rewrite E. cbn [chunked].
    unfold assert_chunked. rewrite x_assoc, (xb (the _) _ _ _ _ eq_refl).
    replace (flag_on F_CHUNKED (parser y)) with true; [done|]. rewrite <- Hon. unfold flag_on. by rewrite Ef.
  - intros y Hy. rewrite !(xb (the _) _ _ _ _ eq_refl). by destruct (Z.eqb_spec (pr_content_length (parser y)) 0); [lia|].
  - ch_free_tac.
  - intros y y'. rewrite !(xb (the _) _ _ _ _ eq_refl). by destruct (_ =? 0).
Qed.

Lemma eof_cross x : p_state x = s_body_identity_eof -> (p x < length d1)%nat -> crossed x.
Proof.
  intros Hs Hp. assert (Hsw : forall b y, p_state y = s_body_identity_eof -> b <> [] ->
    switch settings max_header_size b lenient y = (inl Break, x_p (fun _ => length b - 1)%nat (marked_body y))).
  { intros b y E _. unfold switch, mbind, X_bind, the. rewrite E. cbn [body]. unfold MARK, mbind, X_bind, upd, mret, X_ret, marked_body, HttpExecute.len. by destruct (mark cb_body y). }
  pose proof (prefix_length data d1 d2 Hdata). assert (length d2 <> 0%nat) by by destruct d2.
  assert (Hd : d1 <> [] /\ data <> []) by (split; intros E; rewrite E in *; cbn in *; lia). destruct Hd as [Hd Hd'].
  apply (crossed_body x (x_p (fun _ => length d1) (marked_body x))); [|done| |lia|].
  - unfold marked_body. by destruct (mark cb_body x); cbn; rewrite Hs.
  - rewrite Hsw by done. f_equal. apply locals_eq; try done. cbn. lia.
  - intros e. rewrite !Hsw by (done || unfold marked_body; by destruct (mark cb_body x)). right. exists e. split; [|done].
    unfold x_res. cbn [fst snd]. f_equal. unfold marked_body. cbn [mark]. destruct (body_mark x) eqn:E; cbn [x_p x_ch x_mark body_mark]; rewrite ?E; by apply locals_eq.
Qed.

(** ** One byte *)

Lemma switch_plain x :
  (p x < length d1)%nat -> scanning (p_state x) = false ->
  switch settings max_header_size data lenient x = switch settings max_header_size d1 lenient x.
Proof.
  intros Hp Hs. unfold switch, mbind at 1 2 3 4, X_bind at 1 2 3 4, the at 1 2 3 4.
  destruct (p_state x); try done;
    first [ by apply (status_line_prefix settings data d1 d2) | by apply (request_url_prefix settings data d1 d2)
          | by apply (header_end_prefix settings data d1 d2) | by apply (chunked_prefix settings data d1 d2) ].
Qed.

Lemma switch_split x :
  inv 1 x -> (p x < length d1)%nat -> (PARSING_HEADER (p_state x) = true -> 0 <= nread x <= max_header_size) ->
  good (switch settings max_header_size data lenient x) ->
  switch settings max_header_size data lenient x = switch settings max_header_size d1 lenient x \/ crossed x.
Proof.
  intros Hi Hp Hn Hg. destruct (scanning (p_state x)) eqn:Hsc; [|left; by apply switch_plain].
  pose proof (prefix_length data d1 d2 Hdata). pose proof (inv_parser 1 x Hi) as [Hv _].
  destruct (p_state x) eqn:Hs; try discriminate.
  - pose proof (header_field_scanned settings max_header_size data x ltac:(lia)) as Hrun. rewrite switch_field in Hg by done.
    rewrite (drop_prefix data d1 d2), field_scan_app in Hrun by (done || lia).
    destruct (field_scan (parser x) (drop (p x) d1)) as [[k q]|] eqn:Hscan.
    2:{ destruct Hrun as (s & x' & E & Hb). by destruct (bad_result _ _ _ _ E Hb). }
    pose proof (field_scan_length _ _ _ _ Hscan) as Hk. rewrite length_drop in Hk.
    destruct (decide (k = length d1 - p x)%nat) as [->|]; [right; apply (field_cross x q); try done; [by apply Hn|by rewrite switch_field]|].
    left. rewrite !switch_field by done. apply (header_field_prefix settings max_header_size data d1 d2 Hdata x k q); done || lia.
  - pose proof (header_value_scanned settings max_header_size lenient data x Hmax Hs ltac:(lia)) as Hrun. rewrite switch_value in Hg by done.
    rewrite (drop_prefix data d1 d2), value_scan_app in Hrun by (done || lia).
    destruct (value_scan lenient _ (parser x) (drop (p x) d1)) as [[[k h] q]|] eqn:Hscan.
    2:{ destruct Hrun as (s & x' & E & Hb). by destruct (bad_result _ _ _ _ E Hb). }
    pose proof (value_scan_length _ _ _ _ _ _ _ Hscan) as Hk. rewrite length_drop in Hk.
    destruct (decide (k = length d1 - p x)%nat) as [->|]; [right; apply (value_cross x h q); try done; [by apply Hn|by rewrite switch_value]|].
    left. rewrite !switch_value by done. apply (header_value_prefix settings max_header_size lenient data d1 d2 Hdata Hmax x k h q); done || lia.
  - destruct (decide (pr_content_length (parser x) <= Z.of_nat (length d1 - p x))); [left|right; apply chunk_cross; done || lia].
    unfold switch, mbind at 1 2 3 4, X_bind at 1 2 3 4, the at 1 2 3 4. rewrite Hs. by apply (chunk_data_prefix settings data d1 d2).
  - destruct (decide (pr_content_length (parser x) <= Z.of_nat (length d1 - p x))); [left|right; apply identity_cross; done || lia].
    unfold switch, mbind at 1 2 3 4, X_bind at 1 2 3 4, the at 1 2 3 4. rewrite Hs. by apply (body_identity_prefix settings data d1 d2).
  - right. by apply eof_cross.
Qed.

Lemma short_d1 : Z.of_nat (length d1) <= max_header_size.
Proof. pose proof (prefix_length data d1 d2 Hdata). lia. Qed.

Lemma reexecute_plain fuel x :
  inv 1 x -> (p x < length d1)%nat -> marked_up x -> scanning (p_state x) = false ->
  reexecute settings max_header_size data lenient fuel x = reexecute settings max_header_size d1 lenient fuel x.
Proof.
  revert x. induction fuel as [|fuel IH]; intros x Hi Hp Hup Hs; [done|]. cbn [reexecute].
  pose proof (switch_ok settings max_header_size d1 lenient (quiet_passive _ Hquiet) x Hi Hp) as Hok.
  pose proof (switch_up settings max_header_size d1 lenient Hquiet short_d1 x Hup ltac:(lia)) as Hu.
  unfold wp in Hok, Hu. unfold mbind, X_bind. rewrite switch_plain by done.
  destruct (switch settings max_header_size d1 lenient x) as [[[|]|s] y]; [done| |done].
  destruct Hok as (Hi' & Hp' & Hr), Hu as [Hup' Hs']. apply IH; [|lia|done|by apply Hs'].
  apply inv_other; [done|]. intros E. rewrite E in Hr. cbn in Hr. pose proof (rank_bounds (p_state x)). lia.
Qed.

Lemma reexecute_step buffer fuel x :
  reexecute settings max_header_size buffer lenient (S fuel) x =
  match switch settings max_header_size buffer lenient x with
  | (inl Break, y) => (inl tt, y)
  | (inl Reexecute, y) => reexecute settings max_header_size buffer lenient fuel y
  | (inr s, y) => (inr s, y)
  end.
Proof. cbn [reexecute]. unfold mbind at 1, X_bind at 1. by destruct (switch _ _ _ _ x) as [[[]|] y]. Qed.

Lemma message_done_run buffer fuel c y :
  p_state y = s_message_done ->
  reexecute settings max_header_size buffer lenient (S fuel) (x_ch c y) = x_res c (reexecute settings max_header_size buffer lenient (S fuel) y).
Proof.
  intros Hs. assert (Hsw : forall z, p_state z = s_message_done -> switch settings max_header_size buffer lenient z = body settings buffer s_message_done z)
    by (intros z E; unfold switch, mbind at 1 2, X_bind at 1 2, the at 1 2; by rewrite E).
  rewrite !reexecute_step, !Hsw, (ch_free_body settings buffer s_message_done c y) by done.
  assert (Hb : forall t z, body settings buffer s_message_done y = (inl t, z) -> t = Break).
  { intros t z. cbn [body]. unfold mbind at 1, X_bind at 1. destruct (message_complete settings y) as [[[]|] z1]; [|done].
    rewrite !(xb (the _) _ _ _ _ eq_refl). destruct (pr_upgrade _); [done|]. by intros [= <- _]. }
  destruct (body settings buffer s_message_done y) as [[t|s] z]; [|done]. by rewrite (Hb t z eq_refl).
Qed.

Lemma near_alike x x3 :
  near (switch settings max_header_size data lenient x) (switch settings max_header_size data lenient x3) ->
  alike (byte_rest settings max_header_size lenient data 5 x) (byte_rest settings max_header_size lenient data 5 x3).
Proof.
  unfold byte_rest, mbind, X_bind. rewrite !(reexecute_step _ 4). intros [E|(c & E & Hre)].
  - left. by rewrite E.
  - right. exists c. rewrite E. destruct (switch settings max_header_size data lenient x) as [[[|]|s] y]; unfold x_res in *; cbn [fst snd] in *; [done| |done]. rewrite message_done_run by done.
    by destruct (reexecute settings max_header_size data lenient 4 y) as [[[]|s] z].
Qed.

Lemma byte_rest_split x :
  inv 1 x -> marked_up x -> (p x < length d1)%nat -> (PARSING_HEADER (p_state x) = true -> 0 <= nread x <= max_header_size) ->
  good (byte_rest settings max_header_size lenient data 5 x) ->
  byte_rest settings max_header_size lenient data 5 x = byte_rest settings max_header_size lenient d1 5 x \/
  exists x2, byte_rest settings max_header_size lenient d1 5 x = (inl tt, x2) /\ p x2 = length d1 /\
    alike (byte_rest settings max_header_size lenient data 5 x) (one_byte settings max_header_size data lenient x2).
Proof.
  intros Hi Hup Hp Hn Hg. assert (Hg' : good (switch settings max_header_size data lenient x)).
  { apply good_bind in Hg. rewrite reexecute_step in Hg. by destruct (switch settings max_header_size data lenient x) as [[[]|] y]. }
  destruct (switch_split x Hi Hp Hn Hg') as [E|(x1 & x3 & E & Hp1 & Hone & Hnear)].
  - left. unfold byte_rest, mbind, X_bind. rewrite !reexecute_step, E.
    pose proof (switch_ok settings max_header_size d1 lenient (quiet_passive _ Hquiet) x Hi Hp) as Hok.
    pose proof (switch_up settings max_header_size d1 lenient Hquiet short_d1 x Hup ltac:(lia)) as Hu. unfold wp in Hok, Hu.
    destruct (switch settings max_header_size d1 lenient x) as [[[|]|s] y]; [done| |done].
    destruct Hok as (Hi' & Hp' & Hr), Hu as [Hup' Hs']. rewrite reexecute_plain; [done| |lia|done|by apply Hs'].
    apply inv_other; [done|]. intros E'. rewrite E' in Hr. cbn in Hr. pose proof (rank_bounds (p_state x)). lia.
  - right. exists (x_p S x1). split; [|split; [done|]].
    + unfold byte_rest, mbind, X_bind. by rewrite reexecute_step, E.
    + rewrite Hone. by apply near_alike.
Qed.

Lemma one_byte_split x :
  inv 0 x -> marked_up x -> (p x < length d1)%nat -> good (one_byte settings max_header_size data lenient x) ->
  one_byte settings max_header_size data lenient x = one_byte settings max_header_size d1 lenient x \/
  exists x2, one_byte settings max_header_size d1 lenient x = (inl tt, x2) /\ p x2 = length d1 /\
    alike (one_byte settings max_header_size data lenient x) (one_byte settings max_header_size data lenient x2).
Proof.
  intros Hi Hup Hp. destruct (lookup_lt_is_Some_2 d1 (p x) Hp) as [c Hc].
  rewrite (one_byte_run data c), (one_byte_run d1 c) by (try rewrite (prefix_lookup data d1 d2); done).
  destruct (PARSING_HEADER (p_state x)) eqn:Hs; cbn [only_if].
  - unfold COUNT_HEADER_SIZE. rewrite !x_assoc, !(xb (upd _) _ _ _ _ eq_refl), !x_assoc, !(xb (the _) _ _ _ _ eq_refl).
    set (x' := x_nread _ _). change (nread (x_ch c x)) with (nread x) in x'. intros Hg.
    destruct (Z.ltb_spec max_header_size (nread x')); [by destruct Hg|]. cbn [only_if] in *. rewrite !(xb (mret _) _ _ _ _ eq_refl) in *.
    apply byte_rest_split; [by apply inv_counted| |done| |done].
    + intros f Hf Ha. specialize (Hup f Hf Ha). by destruct f.
    + intros _. pose proof (wrap_range 32 (nread x + u32 (Z.of_nat 1)) ltac:(lia)) as Hr. unfold unsigned_range in Hr. cbn in *. lia.
  - rewrite !(xb (mret _) _ _ _ _ eq_refl). intros Hg. apply byte_rest_split; [by apply inv_uncounted|by apply marked_up_ch|done|cbn; by rewrite Hs|done].
Qed.

(** ** The loop *)

Lemma main_loop_more buffer f k x :
  fst (main_loop settings max_header_size buffer lenient f x) <> inr (crashing OutOfFuel) ->
  main_loop settings max_header_size buffer lenient (f + k) x = main_loop settings max_header_size buffer lenient f x.
Proof.
  revert x. induction f as [|f IH]; intros x Hg; [by destruct Hg|]. cbn [main_loop Nat.add] in *.
  rewrite !(xb (the p) _ _ _ _ eq_refl) in *. destruct (p x =? HttpExecute.len buffer)%nat; [done|].
  unfold mbind, X_bind in *. destruct (one_byte settings max_header_size buffer lenient x) as [[[]|s] y]; [by apply IH|done].
Qed.

Lemma main_loop_ch f c x :
  (p x <= length data)%nat ->
  alike (main_loop settings max_header_size data lenient f x) (main_loop settings max_header_size data lenient f (x_ch c x)).
Proof.
  intros Hp. destruct f as [|f]; [right; by exists c|]. cbn [main_loop]. rewrite !(xb (the p) _ _ _ _ eq_refl). cbn [p x_ch]. unfold HttpExecute.len.
  destruct (Nat.eqb_spec (p x) (length data)); [right; by exists c|]. left.
  destruct (lookup_lt_is_Some_2 data (p x) ltac:(lia)) as [d Hd]. unfold mbind, X_bind.
  rewrite (one_byte_run data d x Hd), (one_byte_run data d (x_ch c x) Hd). done.
Qed.

Lemma main_split f x :
  inv 0 x -> marked_up x -> (p x <= length d1)%nat -> (length data - p x < f)%nat ->
  good (main_loop settings max_header_size data lenient f x) ->
  (exists n x', main_loop settings max_header_size data lenient f x = (inr (returned n), x') /\ (n <= length d1)%nat) \/
  (exists x1 f', main_loop settings max_header_size d1 lenient f x = (inl tt, x1) /\ p x1 = length d1 /\ (f' <= f)%nat /\
     alike (main_loop settings max_header_size data lenient f x) (main_loop settings max_header_size data lenient f' x1)).
Proof.
  intros Hi. pose proof (prefix_length data d1 d2 Hdata) as Hlen. assert (length d2 <> 0%nat) as Hd0 by by destruct d2.
  revert x Hi. induction f as [|f IH]; intros x Hi Hup Hp Hf Hg; [by destruct Hg|].
  destruct (decide (p x = length d1)) as [E|Hne].
  { right. exists x, (S f). split; [|split; [done|split; [done|by left]]].
    cbn [main_loop]. rewrite (xb (the p) _ _ _ _ eq_refl), E. unfold HttpExecute.len. by rewrite Nat.eqb_refl. }
  cbn [main_loop] in *. rewrite !(xb (the p) _ _ _ _ eq_refl) in *. unfold HttpExecute.len in *.
  destruct (Nat.eqb_spec (p x) (length data)); [lia|]. destruct (Nat.eqb_spec (p x) (length d1)); [lia|].
  destruct (one_byte_split x Hi Hup ltac:(lia) (good_bind _ _ _ Hg)) as [E|(x2 & E & Hp2 & Hal)].
  - pose proof (one_byte_up settings max_header_size d1 lenient Hquiet short_d1 x Hi ltac:(lia) Hup) as Hu.
    pose proof (one_byte_ok settings max_header_size d1 lenient (quiet_passive _ Hquiet) (fun _ y => inv 0 y /\ (p x < p y <= length d1)%nat) x Hi ltac:(lia)
      ltac:(intros y Hi' Hp'; by split; [|lia])) as Hok.
    unfold mbind, X_bind in *. rewrite E in *. unfold wp in Hok, Hu. destruct (one_byte settings max_header_size d1 lenient x) as [[[]|s] y].
    + destruct Hok as [Hi' Hp']. destruct (IH y Hi' Hu ltac:(lia) ltac:(lia) Hg) as [Hret|(x1 & f' & E1 & Hp1 & Hf2 & Hal)]; [by left|].
      right. exists x1, f'. split; [done|]. split; [done|]. split; [lia|done].
    + left. destruct s as [|n'|c']; [by destruct Hg| |by destruct Hg]. exists n', y. split; [done|]. apply Hok.
  - right. exists x2, (S f). split; [|split; [done|split; [done|]]].
    { rewrite (xb _ _ _ _ _ E). destruct f as [|f]; [lia|]. cbn [main_loop]. rewrite (xb (the p) _ _ _ _ eq_refl), Hp2.
      unfold HttpExecute.len. by rewrite Nat.eqb_refl. }
    cbn [main_loop]. rewrite (xb (the p) _ _ _ _ eq_refl), Hp2. unfold HttpExecute.len. destruct (Nat.eqb_spec (length d1) (length data)); [lia|].
    pose proof (one_byte_ok settings max_header_size data lenient (quiet_passive _ Hquiet) (fun _ y => (p y <= length data)%nat) x Hi ltac:(lia)
      ltac:(intros y Hi' Hp'; cbv beta; lia)) as Hok.
    unfold mbind, X_bind. destruct Hal as [->|[c ->]]; [by left|]. unfold wp, x_res in *.
    destruct (one_byte settings max_header_size data lenient x) as [[[]|s] y]; cbn [fst snd]; [by apply main_loop_ch|]. right. by exists c.
Qed.
End split.
