(* ===== verification/HttpFeed.v ===== *)
(** * The HTTP grammar: a message in pieces

    Whether a message comes to [http_parser_execute] in one piece or in several makes no difference:
    the parser ends the same, and the callbacks are the same once the pieces of each text are put
    together. *)

From S2P Require Import Prelude Http HttpGrammar HttpExecute HttpGrammarTheorems HttpSession HttpParsing HttpChunks HttpScan HttpPrefix HttpMarks HttpSplit.
#[local] Set Default Goal Selector "!".

(** What follows the loop. *)
Definition finish (settings : http_parser_settings) (buffer : str) : X unit :=
  m ← the marks; check (m <=? 1)%nat ;;
  CALLBACK_DATA_NOADVANCE settings buffer cb_header_field ;;
  CALLBACK_DATA_NOADVANCE settings buffer cb_header_value ;;
  CALLBACK_DATA_NOADVANCE settings buffer cb_url ;;
  CALLBACK_DATA_NOADVANCE settings buffer cb_body ;;
  CALLBACK_DATA_NOADVANCE settings buffer cb_status ;;
  RETURN (length buffer).

(** ** Two loops on the same text *)

Section second.
Context (settings : http_parser_settings) (max_header_size : Z) (lenient : bool) (data data' : str) (o : nat) (told : list http_callback).
Context (Hquiet : quiet settings) (Hdata : data' = drop o data) (Hlen : length data = (o + length data')%nat).
Implicit Types (x y : locals) (pd : pending).
Abbreviation R := (R settings lenient data o told).
Abbreviation rwp := (rwp o told).

Lemma R_may_pend k nx ny pd n x y : R nx ny pd n x y -> inv k x -> may_pend pd (p_state x).
Proof.
  intros HR Hi. destruct pd as [[[f code] m]|]; [|done]. destruct (r_marks _ _ _ _ _ _ _ _ _ _ _ HR) as (_ & Hx & _).
  by apply (inv_marks _ _ Hi f m).
Qed.

Lemma R_all_marked nx ny pd n x y : R nx ny pd n x y -> body_marked pd y -> pend_marked pd y.
Proof.
  intros HR Hb. destruct pd as [[[f code] m]|] eqn:E; [|done]. destruct f; try done; by eapply (R_pend_marked settings lenient data o told).
Qed.

Lemma reexecute_sim fuel (Q : _ -> _ -> _ -> _ -> Prop) r pd n x y :
  R r r pd n x y -> inv 1 x -> (n < length data')%nat ->
  (forall r pd n' x y, R r r pd n' x y -> pend_marked pd y -> inv 0 x -> (n <= n' < length data')%nat -> Q tt tt x y) ->
  rwp (reexecute settings max_header_size data lenient fuel) (reexecute settings max_header_size data' lenient fuel) Q x y.
Proof.
  revert r pd n x y. induction fuel as [|fuel IH]; intros r pd n x y HR Hi Hn HQ; [done|]. cbn [reexecute].
  pose proof (r_px _ _ _ _ _ _ _ _ _ _ _ HR) as Hp. assert (p x < length data)%nat as Hpx by lia.
  apply rwp_bind. apply (rwp_wp _ _ _ _ _ _ _ _ _ (switch_ok settings max_header_size data lenient (quiet_passive _ Hquiet) x Hi Hpx)).
  eapply rwp_mono; [apply (switch_sim settings max_header_size lenient data data' o told Hquiet Hdata Hlen r pd n x y HR Hn);
    [by eapply R_may_pend|apply (inv_parser _ _ Hi)]|].
  intros t t' x1 y1 (<- & r1 & pd1 & n1 & HR1 & Hb) (Hi1 & Hp1 & Hr). pose proof (r_px _ _ _ _ _ _ _ _ _ _ _ HR1) as Hp1'.
  destruct t; [apply rwp_ret, (HQ r1 pd1 n1); [done|by eapply R_all_marked|done|lia]|].
  apply (IH r1 pd1 n1); [done| |lia|intros r2 pd2 n2 x2 y2 H1 H2 H3 H4; apply (HQ r2 pd2 n2); done || lia].
  apply inv_other; [done|]. intros E. rewrite E in Hr. cbn in Hr. pose proof (rank_bounds (p_state x)). lia.
Qed.

Lemma one_byte_sim (Q : _ -> _ -> _ -> _ -> Prop) r pd n c0 x y :
  R r r pd n (x_ch c0 x) y -> inv 0 x -> (n < length data')%nat ->
  (forall r pd n' x y, R r r pd n' x y -> pend_marked pd y -> inv 0 x -> (n < n' <= length data')%nat -> Q tt tt x y) ->
  rwp (one_byte settings max_header_size data lenient) (one_byte settings max_header_size data' lenient) Q x y.
Proof.
  intros HR Hi Hn HQ. unfold one_byte. apply rwp_bind.
  pose proof (r_px _ _ _ _ _ _ _ _ _ _ _ HR) as Hp. cbn in Hp.
  assert (Hrd : wp (read_ch data) (fun _ z => exists c, z = x_ch c x) (fun _ _ => True) x).
  { unfold wp, read_ch. destruct (data !! p x) as [c|]; [by exists c|done]. }
  apply (rwp_wp _ _ _ _ _ _ _ _ _ Hrd). apply (rwp_read_ch settings lenient data data' o told Hdata _ r r pd n x y c0 HR Hn).
  intros c x1 y1 Hc Hch HR1 (c1 & ->).
  assert (Hrest : forall r z z1, R r r pd n z z1 -> inv 1 z ->
    rwp (reexecute settings max_header_size data lenient 5 ;; upd (x_p S)) (reexecute settings max_header_size data' lenient 5 ;; upd (x_p S)) Q z z1).
  { intros r' z z1 HRz Hiz. apply rwp_bind, (reexecute_sim _ _ r' pd n); [done|done|done|].
    intros r2 pd2 n2 x2 y2 HR2 Hb2 Hi2 Hn2. apply rwp_upd, (HQ r2 pd2 (S n2)); [|by destruct pd2 as [[[[] ?] ?]|]|apply inv_p; [done|lia]|lia].
    apply (R_p settings lenient data o told _ _ _ _ _ _ n2); [done|lia|done|]. left. exact Hb2. }
  apply rwp_bind, rwp_the. rewrite (r_state _ _ _ _ _ _ _ _ _ _ _ HR1).
  destruct (PARSING_HEADER (p_state (x_ch c1 x))) eqn:Hs; cbn [only_if].
  - apply rwp_bind. 
    assert (Hcw : wp (COUNT_HEADER_SIZE max_header_size 1) (fun _ z => inv 1 z) (fun _ _ => True) (x_ch c1 x)).
    { unfold COUNT_HEADER_SIZE. do 5 wp_step; [done|]. exact (inv_counted c1 x Hi Hs). }
    apply (rwp_wp _ _ _ _ _ _ _ _ _ Hcw). apply (rwp_count settings max_header_size lenient data o told _ _ _ r r pd n); [done|done|].
    intros r' z z1 HRz Hiz. by apply (Hrest r').
  - apply rwp_bind, rwp_ret. apply (Hrest r); [done|]. exact (inv_uncounted c1 x Hi Hs).
Qed.

Lemma main_loop_sim fuel fuel' (Q : _ -> _ -> _ -> _ -> Prop) r pd n c0 x y :
  R r r pd n (x_ch c0 x) y -> inv 0 x -> (n <= length data')%nat -> (length data' - n < fuel')%nat ->
  (n = length data' -> c0 = ch x /\ pend_marked pd y) ->
  (forall r pd x y, R r r pd (length data') x y -> pend_marked pd y -> inv 0 x -> Q tt tt x y) ->
  rwp (main_loop settings max_header_size data lenient fuel) (main_loop settings max_header_size data' lenient fuel') Q x y.
Proof.
  revert fuel' r pd n c0 x y. induction fuel as [|fuel IH]; intros fuel' r pd n c0 x y HR Hi Hn Hf Hend HQ; [done|].
  destruct fuel' as [|fuel']; [lia|]. cbn [main_loop]. apply rwp_bind, rwp_the. unfold HttpExecute.len.
  pose proof (r_px _ _ _ _ _ _ _ _ _ _ _ HR) as Hp. cbn in Hp. rewrite Hp, (r_py _ _ _ _ _ _ _ _ _ _ _ HR), (len_eqb _ _ _ Hlen).
  destruct (Nat.eqb_spec n (length data')) as [->|].
  - destruct (Hend eq_refl) as [-> Hb]. apply rwp_ret, (HQ r pd); [by destruct x|done|done].
  - apply rwp_bind, (one_byte_sim _ r pd n c0); [done|done|lia|]. intros r2 pd2 n2 x2 y2 HR2 Hb2 Hi2 Hn2.
    apply (IH _ r2 pd2 n2 (ch x2)); [by destruct x2|done|lia|lia|done|done].
Qed.

(** *** The end of the call *)

Definition flushed (f : data_cb) pd : pending := match pd with Some (g, c, m) => if decide (g = f) then None else pd | None => None end.

Lemma flush_sim f (Q : _ -> _ -> _ -> _ -> Prop) r pd x y :
  R r r pd (length data') x y -> pend_marked pd y ->
  (forall x y, R r r (flushed f pd) (length data') x y -> pend_marked (flushed f pd) y -> Q tt tt x y) ->
  rwp (CALLBACK_DATA_NOADVANCE settings data f) (CALLBACK_DATA_NOADVANCE settings data' f) Q x y.
Proof.
  intros HR Hb HQ. assert (only f pd \/ ~ only f pd) as [Ho|Ho] by (destruct pd as [[[g c] m]|]; cbn; [destruct (decide (g = f)); auto|auto]).
  - refine (proj2 (rwp_CALLBACK_DATA settings lenient data data' o told Hquiet Hdata Hlen f Q r r pd _ x y HR Ho (le_n _) _)).
    intros x1 y1 HR1. apply HQ; destruct pd as [[[g c] m]|]; try done; cbn in Ho |- *; subst g; by rewrite decide_True.
  - destruct pd as [[[g c] m]|]; [|by destruct Ho]. cbn in Ho. assert (flushed f (Some (g, c, m)) = Some (g, c, m)) as E by (cbn; by rewrite decide_False).
    pose proof HR as [(a & b & Hp) _ Hok _ _ _ _ _ _ (_ & _ & _ & Hm) _]. destruct (Hm f ltac:(congruence)) as [Hx Hy].
    unfold CALLBACK_DATA_NOADVANCE, rwp. rewrite !(xb (the p) _ _ _ _ eq_refl).
    rewrite (data_none settings data), (data_none settings data') by (done || by rewrite Hp). eexists _, _. split; [done|].
    apply HQ; by rewrite E.
Qed.

Lemma marks_mono x y : (forall f, is_Some (mark f y) -> is_Some (mark f x)) -> (marks y <= marks x)%nat.
Proof.
  intros Hxy. unfold marks. induction [cb_header_field; cb_header_value; cb_url; cb_body; cb_status] as [|f l IH]; [done|].
  rewrite !filter_cons. specialize (Hxy f). repeat case_decide; cbn [length]; [lia|tauto|lia|lia].
Qed.

Lemma R_marks nx ny pd n x y f : R nx ny pd n x y -> is_Some (mark f y) -> is_Some (mark f x).
Proof.
  intros HR [m Hy]. pose proof (r_marks _ _ _ _ _ _ _ _ _ _ _ HR) as Hm. destruct pd as [[[g c] m0]|].
  - destruct Hm as (_ & Hx & _ & Hrest). destruct (decide (f = g)) as [->|Hne]; [by eexists|]. destruct (Hrest f Hne). congruence.
  - rewrite (Hm f), Hy. by eexists.
Qed.

Lemma finish_sim (Q : _ -> _ -> _ -> _ -> Prop) r pd x y :
  R r r pd (length data') x y -> pend_marked pd y -> inv 0 x -> rwp (finish settings data) (finish settings data') Q x y.
Proof.
  intros HR Hb Hi. unfold finish. apply rwp_bind, rwp_the.
  pose proof (marks_le settings (quiet_passive _ Hquiet) x (inv_marks _ _ Hi)). pose proof (marks_mono x y (fun f => R_marks _ _ _ _ _ _ f HR)).
  assert ((marks x <=? 1)%nat = true /\ (marks y <=? 1)%nat = true) as [-> ->] by (split; apply Nat.leb_le; lia). apply rwp_bind, rwp_ret.
  do 5 (apply rwp_bind; eapply flush_sim; [exact HR|exact Hb|]; clear dependent x; clear dependent y; intros x y HR Hb).
  assert (flushed cb_status (flushed cb_body (flushed cb_url (flushed cb_header_value (flushed cb_header_field pd)))) = None) as E
    by (by destruct pd as [[[[] c] m]|]).
  rewrite E in HR. apply (rwp_return settings lenient data o told _ _ _ r (length data')); [exact HR|lia].
Qed.
End second.

(** ** The end of the first call *)

Section handover.
Context (settings : http_parser_settings) (data d1 d2 : str) (Hquiet : quiet settings) (Hdata : data = d1 ++ d2).
Implicit Types (x y : locals) (pd : pending).

(** One text at most is in progress. *)
Lemma one_mark x :
  marks_ok x -> (forall f, mark f x = None) \/
  exists f m, mark f x = Some m /\ allowed f (p_state x) = true /\ (m <= p x)%nat /\ forall g, g <> f -> mark g x = None.
Proof.
  intros Hm. assert (Hone : forall f m, mark f x = Some m -> forall g, g <> f -> mark g x = None).
  { intros f m Hf g Hg. destruct (mark g x) as [k|] eqn:E; [|done]. destruct (Hm f m Hf) as [Ha _], (Hm g k E) as [Hb _].
    exfalso. by destruct (p_state x), f, g. }
  destruct (mark cb_header_field x) as [m|] eqn:E1; [right; exists cb_header_field, m|].
  2: destruct (mark cb_header_value x) as [m|] eqn:E2; [right; exists cb_header_value, m|].
  3: destruct (mark cb_url x) as [m|] eqn:E3; [right; exists cb_url, m|].
  4: destruct (mark cb_body x) as [m|] eqn:E4; [right; exists cb_body, m|].
  5: destruct (mark cb_status x) as [m|] eqn:E5; [right; exists cb_status, m|left; by intros []].
  all: destruct (Hm _ _ ltac:(eassumption)) as [Ha Hle]; split_and!; [done..|by eapply Hone].
Qed.

Lemma flush_id f x : is_ok (parser x) = true -> mark f x = None -> CALLBACK_DATA_NOADVANCE settings d1 f x = (inl tt, x).
Proof. intros Hok Hm. unfold CALLBACK_DATA_NOADVANCE. rewrite (xb (the p) _ _ _ _ eq_refl). by apply data_none. Qed.

Lemma flush_run f m x :
  is_ok (parser x) = true -> mark f x = Some m -> (m <= p x)%nat -> (p x <= length d1)%nat ->
  CALLBACK_DATA_NOADVANCE settings d1 f x = (inl tt, x_mark f None (x_reported settings f (slice m (p x - m) d1) x)).
Proof.
  intros Hok Hm Hle Hp. unfold CALLBACK_DATA_NOADVANCE. rewrite (xb (the p) _ _ _ _ eq_refl).
  rewrite (data_some settings d1 Hquiet f _ _ m x) by (done || lia). by replace (Z.to_nat (Z.of_nat (p x) - Z.of_nat m)) with (p x - m)%nat by lia.
Qed.

(** What is marked, as it is for the next call. *)
Definition pending_is pd x : Prop :=
  match pd with
  | None => forall f, mark f x = None
  | Some (f, _, m) => mark f x = Some m /\ (m <= length d1)%nat /\ allowed f (p_state x) = true /\ forall g, g <> f -> mark g x = None
  end.

Lemma finish_run x :
  inv 0 x -> p x = length d1 ->
  exists pd z, finish settings d1 x = (inr (returned (length d1)), z) /\ pending_is pd x /\
    parser z = set_state (p_state x) (set_nread (nread x) (parser x)) /\
    (seen <$> trace z) = (seen <$> trace x) ++ pend settings data (length d1) pd.
Proof.
  intros Hi Hp. pose proof (inv_errno _ _ Hi) as Hok. unfold finish. rewrite (xb (the marks) _ _ _ _ eq_refl).
  pose proof (marks_le settings (quiet_passive _ Hquiet) x (inv_marks _ _ Hi)). assert ((marks x <=? 1)%nat = true) as -> by by apply Nat.leb_le.
  rewrite (xb (check _) _ x tt x) by done. destruct (one_mark x (inv_marks _ _ Hi)) as [Hm|(f & m & Hf & Ha & Hle & Hm)].
  - exists None. do 5 rewrite (xb _ _ _ _ _ (flush_id _ _ Hok (Hm _))). eexists. split; [reflexivity|]. split; [done|]. split; [done|].
    cbn. by rewrite app_nil_r.
  - exists (Some (f, pr_status_code (parser x), m)). pose proof (flush_run f m x Hok Hf Hle ltac:(lia)) as Hrun. set (x' := x_mark _ _ _) in Hrun.
    assert (Hok' : is_ok (parser x') = true) by (unfold x', x_reported; by destruct (on_data settings f)).
    assert (Hm' : forall g, mark g x' = None).
    { intros g. assert (E : forall b, mark g (x_reported settings f b x) = mark g x) by (intros b; unfold x_reported; destruct (on_data settings f); by destruct g).
      destruct (decide (g = f)) as [->|Hne]; [unfold x'; by destruct f|]. rewrite <- (Hm g Hne), <- (E (slice m (p x - m) d1)). unfold x'. destruct f, g; done || by destruct Hne. }
    exists (x_parser (fun q => set_state (p_state x) (set_nread (nread x) q)) x'). split; [|split; [split_and!; [done|lia|done|done]|]].
    + assert (Hs : p_state x' = p_state x /\ nread x' = nread x) by (unfold x', x_reported; by destruct (on_data settings f)).
      destruct Hs as [<- <-]. pose proof (Hm cb_header_field) as M1. pose proof (Hm cb_header_value) as M2. pose proof (Hm cb_url) as M3. pose proof (Hm cb_body) as M4.
      pose proof (Hm cb_status) as M5.
      destruct f; repeat first [ rewrite (xb _ _ _ _ _ Hrun) | rewrite (xb _ _ _ _ _ (flush_id _ x' Hok' (Hm' _)))
        | rewrite (xb _ _ _ _ _ (flush_id _ x Hok (M1 ltac:(discriminate)))) | rewrite (xb _ _ _ _ _ (flush_id _ x Hok (M2 ltac:(discriminate))))
        | rewrite (xb _ _ _ _ _ (flush_id _ x Hok (M3 ltac:(discriminate)))) | rewrite (xb _ _ _ _ _ (flush_id _ x Hok (M4 ltac:(discriminate))))
        | rewrite (xb _ _ _ _ _ (flush_id _ x Hok (M5 ltac:(discriminate)))) ]; done.
    + unfold x', x_reported, pend. rewrite Hp in *. destruct (on_data settings f) as [cb|]; cbn; [|split; [done|by rewrite app_nil_r]].
      split; [done|]. rewrite fmap_app, (prefix_slice data d1 d2) by (done || lia). by destruct f.
Qed.

(** *** The next call *)

Lemma start_marks_mark s q f :
  mark f (start_marks s (entry q)) = match f with cb_body => None | _ => if allowed f s then Some 0%nat else None end.
Proof. by destruct s, f. Qed.

Lemma start_marks_rest s q :
  let y := start_marks s (entry q) in
  parser y = q /\ p_state y = pr_state q /\ nread y = pr_nread q /\ p y = 0%nat /\ ch y = x00 /\ trace y = [].
Proof. by destruct s. Qed.

Lemma entered pd x :
  inv 0 x -> marked_up x -> p x = length d1 -> pending_is pd x ->
  R settings (pr_lenient (parser x)) data (length d1) ((seen <$> trace x) ++ pend settings data (length d1) pd) (nread x) (nread x) pd 0 (x_ch x00 x)
    (start_marks (p_state x) (entry (set_state (p_state x) (set_nread (nread x) (parser x))))).
Proof.
  intros Hi Hup Hp Hpd. pose proof (start_marks_mark (p_state x) (set_state (p_state x) (set_nread (nread x) (parser x)))) as Hm.
  destruct (start_marks_rest (p_state x) (set_state (p_state x) (set_nread (nread x) (parser x)))) as (Eq & Es & En & Ep & Ec & Et).
  set (y := start_marks _ _) in *.
  assert (Hnone : forall g, mark g x = None -> mark g y = None).
  { intros g Hg. rewrite Hm. destruct (allowed g (p_state x)) eqn:Ea; [|by destruct g]. destruct (decide (g = cb_body)) as [->|Hne]; [done|].
    by destruct (Hup g Hne Ea). }
  split; cbn [parser p_state nread p ch x_ch]; try done.
  - exists (p_state x), (nread x). exact Eq.
  - apply (inv_errno _ _ Hi).
  - cbn. lia.
  - assert (Ex : forall g, mark g (x_ch x00 x) = mark g x) by by intros [].
    destruct pd as [[[f c] m]|]; cbn in Hpd |- *.
    + destruct Hpd as (Hf & Hle & Ha & Hrest). split; [done|]. split; [by rewrite Ex|]. split.
      * rewrite Hm, Ha. destruct (decide (f = cb_body)) as [->|Hne]; [by right|left; by destruct f].
      * intros g Hg. rewrite Ex. specialize (Hrest g Hg). split; [done|by apply Hnone].
    + intros f. rewrite Ex, Hpd, Hnone by done. done.
  - rewrite Et. cbn. by rewrite app_nil_r.
Qed.
End handover.

(** ** Two calls *)

Section two.
Context (settings : http_parser_settings) (max_header_size : Z) (Hquiet : quiet settings) (Hsmall : max_header_size < 2 ^ 31).
Implicit Types (x y : locals) (q : http_parser).

Lemma execute_run q d n q' t :
  http_parser_execute settings max_header_size q d = (Ok n, q', t) -> is_ok q' = true ->
  exists x, execute_body settings max_header_size d (pr_lenient q) (entry q) = (inr (returned n), x) /\ q' = parser x /\ t = trace x.
Proof.
  unfold http_parser_execute. destruct (execute_body _ _ _ _ _) as [[[]|[|k|c]] x]; try done.
  - destruct (is_ok (parser x)) eqn:Hok; cbn [snd].
    + intros [= <- <- <-]. by unfold is_ok in *.
    + intros [= <- <- <-] H. unfold is_ok in *. cbn in H. congruence.
  - intros [= <- <- <-] _. by exists x.
Qed.

Lemma execute_of_run q d n x :
  execute_body settings max_header_size d (pr_lenient q) (entry q) = (inr (returned n), x) ->
  http_parser_execute settings max_header_size q d = (Ok n, parser x, trace x).
Proof. intros E. unfold http_parser_execute. by rewrite E. Qed.

Lemma body_starts q d lenient :
  is_ok q = true -> d <> [] ->
  execute_body settings max_header_size d lenient (entry q) =
  (main_loop settings max_header_size d lenient (S (length d)) ;; finish settings d) (start_marks (pr_state q) (entry q)).
Proof.
  intros Hok Hd. unfold execute_body. rewrite (xb (the _) _ (entry q) _ _ eq_refl). cbn [parser entry]. rewrite Hok. cbn [negb only_if].
  rewrite (xb (mret _) _ _ _ _ eq_refl). unfold HttpExecute.len. destruct (Nat.eqb_spec (length d) 0); [by apply nil_length_inv in e|].
  cbn [only_if]. rewrite (xb (mret _) _ _ _ _ eq_refl), (xb (the _) _ _ _ _ eq_refl), (xb (upd _) _ _ _ _ eq_refl). done.
Qed.

Lemma main_loop_lenient d lenient f x x1 :
  inv 0 x -> p x = 0%nat -> d <> [] -> lenient = pr_lenient (parser x) ->
  main_loop settings max_header_size d lenient f x = (inl tt, x1) -> pr_lenient (parser x1) = lenient.
Proof.
  intros Hi Hp Hd Hl E. assert (length d <> 0%nat) by by destruct d.
  assert (HR : R settings lenient d 0 [] (nread x) (nread x) None 0 (x_ch (ch x) x) x).
  { split; try done.
    - exists (pr_state (parser x)), (pr_nread (parser x)). by destruct x as [[]].
    - apply (inv_errno _ _ Hi).
    - intros g. assert (mark g (x_ch (ch x) x) = mark g x) as -> by by destruct g. by destruct (mark g x).
    - cbn [pend app]. by rewrite app_nil_r. }
  pose proof (main_loop_sim settings max_header_size lenient d d 0 [] Hquiet eq_refl eq_refl f (S (length d))
    (fun _ _ x _ => pr_lenient (parser x) = lenient) (nread x) None 0 (ch x) x x HR Hi) as Hsim.
  unfold rwp in Hsim. rewrite E in Hsim. destruct Hsim as (b & y' & _ & Hl'); [lia|lia|lia| |done].
  intros r pd x2 y2 HR2 _ _. apply (r_lenient _ _ _ _ _ _ _ _ _ _ _ HR2).
Qed.

Lemma ch_free_finish d : ch_free (finish settings d).
Proof.
  unfold finish, CALLBACK_DATA_NOADVANCE, RETURN. pose proof (ch_free_data settings d).
  ch_free_tac.
Qed.

Lemma alike_finish d (r r' : (unit + stop) * locals) n x :
  alike r r' -> (let (a, y) := r in match a with inl _ => finish settings d y | inr s => (inr s, y) end) = (inr (returned n), x) ->
  exists x', (let (a, y) := r' in match a with inl _ => finish settings d y | inr s => (inr s, y) end) = (inr (returned n), x') /\
    parser x' = parser x /\ trace x' = trace x.
Proof.
  intros [->|[c ->]]; [intros E; by exists x|]. destruct r as [[[]|s] y]; cbn [x_res fst snd].
  - rewrite ch_free_finish. intros ->. by eexists.
  - intros [= -> ->]. by eexists.
Qed.

(** The locals where the loop of a call starts. *)
Definition started q : locals := start_marks (pr_state q) (entry q).

Lemma started_ok q : resting q -> is_ok q = true ->
  let x := started q in inv 0 x /\ marked_up x /\ parser x = q /\ p x = 0%nat.
Proof.
  intros Hr Hok. destruct (start_marks_rest (pr_state q) q) as (Eq & Es & En & Ep & Ec & Et). split_and!; try done.
  - apply start_inv; [done|]. destruct Hr as [He|Hq]; [|done]. unfold is_ok in Hok. by destruct (pr_errno q).
  - intros f Hf Ha. unfold started in *. rewrite Es in Ha. rewrite start_marks_mark, Ha. by destruct f.
Qed.

Lemma run_started q d n x :
  execute_body settings max_header_size d (pr_lenient q) (entry q) = (inr (returned n), x) -> n <> 0%nat -> is_ok q = true.
Proof.
  intros E Hn. destruct (is_ok q) eqn:Hok; [done|]. unfold execute_body in E. rewrite (xb (the _) _ (entry q) _ _ eq_refl) in E. cbn [parser entry] in E.
  rewrite Hok in E. cbn in E. by injection E as <- _.
Qed.

(** Where the call on the first part ends, that on the whole goes on. *)
Lemma first_call q d1 d2 x :
  resting q -> is_ok q = true -> d1 <> [] -> d2 <> [] -> Z.of_nat (length (d1 ++ d2)) <= max_header_size ->
  (main_loop settings max_header_size (d1 ++ d2) (pr_lenient q) (S (length (d1 ++ d2))) ;; finish settings (d1 ++ d2)) (started q) =
    (inr (returned (length (d1 ++ d2))), x) ->
  exists x1 f' x', main_loop settings max_header_size d1 (pr_lenient q) (S (length d1)) (started q) = (inl tt, x1) /\
    inv 0 x1 /\ marked_up x1 /\ p x1 = length d1 /\ pr_lenient (parser x1) = pr_lenient q /\
    (main_loop settings max_header_size (d1 ++ d2) (pr_lenient q) f' ;; finish settings (d1 ++ d2)) x1 = (inr (returned (length (d1 ++ d2))), x') /\
    parser x' = parser x /\ trace x' = trace x.
Proof.
  intros Hr Hok Hd1 Hd2 Hmax Ex. destruct (started_ok q Hr Hok) as (Hi0 & Hup0 & Eq & Ep). set (data := d1 ++ d2) in *.
  pose proof (prefix_length data d1 d2 eq_refl) as Hlen. assert (length d2 <> 0%nat) as Hn2 by by destruct d2.
  set (x0 := started q) in *. set (lenient := pr_lenient q) in *.
  assert (Hg : good (main_loop settings max_header_size data lenient (S (length data)) x0)).
  { apply (good_bind _ (fun _ => finish settings data)). rewrite Ex. by intros []. }
  destruct (main_split settings max_header_size lenient data d1 d2 Hquiet eq_refl Hd2 Hmax Hsmall (S (length data)) x0 Hi0 Hup0
    ltac:(lia) ltac:(lia) Hg) as [(n & x' & E & Hn)|(x1 & f' & E1 & Hp1 & Hf' & Hal)].
  { rewrite (xstop _ _ _ _ _ E) in Ex. injection Ex as E2 _. lia. }
  pose proof (main_loop_ok settings max_header_size d1 lenient (quiet_passive _ Hquiet) (S (length d1)) (fun _ y => inv 0 y) x0 Hi0 ltac:(lia) ltac:(lia)
    ltac:(done)) as Hok1.
  pose proof (main_loop_up settings max_header_size d1 lenient Hquiet ltac:(lia) (S (length d1)) x0 Hi0 ltac:(lia) Hup0) as Hup1.
  assert (E1' : main_loop settings max_header_size d1 lenient (S (length d1)) x0 = (inl tt, x1)).
  { rewrite <- E1. replace (S (length data)) with (S (length d1) + length d2)%nat by lia. symmetry. apply main_loop_more.
    unfold wp in Hok1. by destruct (main_loop settings max_header_size d1 lenient (S (length d1)) x0) as [[|[|k|c]] y]. }
  unfold wp in Hok1, Hup1. rewrite E1' in Hok1, Hup1.
  assert (Hl : pr_lenient (parser x1) = lenient) by (eapply main_loop_lenient; [exact Hi0|done|exact Hd1|by rewrite Eq|exact E1']).
  unfold mbind, X_bind in Ex |- *. destruct (alike_finish _ _ _ _ _ Hal Ex) as (x' & Ex' & Hpar & Htr). by exists x1, f', x'.
Qed.

(** The next call, from where the first has ended. *)
Lemma second_call d1 d2 lenient f' x1 x' z pd :
  d2 <> [] -> inv 0 x1 -> marked_up x1 -> p x1 = length d1 -> pr_lenient (parser x1) = lenient ->
  (main_loop settings max_header_size (d1 ++ d2) lenient f' ;; finish settings (d1 ++ d2)) x1 = (inr (returned (length (d1 ++ d2))), x') ->
  pending_is d1 pd x1 -> parser z = set_state (p_state x1) (set_nread (nread x1) (parser x1)) ->
  (seen <$> trace z) = (seen <$> trace x1) ++ pend settings (d1 ++ d2) (length d1) pd ->
  exists y, (main_loop settings max_header_size d2 lenient (S (length d2)) ;; finish settings d2) (started (parser z)) = (inr (returned (length d2)), y) /\
    parser y = parser x' /\ same ((seen <$> trace z) ++ (seen <$> trace y)) (seen <$> trace x').
Proof.
  intros Hd2 Hi Hup Hp1 Hl Ex Hpd Eqz Etz. pose proof (entered settings (d1 ++ d2) d1 pd x1 Hi Hup Hp1 Hpd) as HR. rewrite <- Etz, <- Eqz, Hl in HR.
  set (data := d1 ++ d2) in *. pose proof (prefix_length data d1 d2 eq_refl) as Hlen. assert (length d2 <> 0%nat) as Hn2 by by destruct d2.
  assert (Hstart : started (parser z) = start_marks (p_state x1) (entry (parser z))) by (unfold started; by rewrite Eqz). rewrite Hstart.
  assert (Hrun : rwp (length d1) (seen <$> trace z) (main_loop settings max_header_size data lenient f' ;; finish settings data)
    (main_loop settings max_header_size d2 lenient (S (length d2)) ;; finish settings d2) (fun _ _ _ _ => False) x1 (start_marks (p_state x1) (entry (parser z)))).
  { assert (Hdrop : d2 = drop (length d1) data) by (unfold data; by rewrite drop_app_length).
    apply rwp_bind. apply (main_loop_sim settings max_header_size lenient data d2 _ _ Hquiet Hdrop Hlen _ _ _ _ _ _ _ _ _ HR Hi); [lia|lia|lia|].
    intros r2 pd2 x2 y2 HR2 Hb2 Hi2. eapply (finish_sim settings lenient data d2 _ _ Hquiet Hdrop Hlen); [exact HR2|done|done]. }
  unfold rwp in Hrun. rewrite Ex in Hrun. destruct Hrun as (s & y' & Ey & Hst). destruct s as [|n'|c']; try done.
  destruct Hst as (Hn' & Hpar & Htr). assert (n' = length d2) as -> by lia. by exists y'.
Qed.

Lemma two_calls q d1 d2 q' t :
  resting q -> d1 <> [] -> d2 <> [] -> Z.of_nat (length (d1 ++ d2)) <= max_header_size ->
  http_parser_execute settings max_header_size q (d1 ++ d2) = (Ok (length (d1 ++ d2)), q', t) -> is_ok q' = true ->
  exists q1 t1 t2, http_parser_execute settings max_header_size q d1 = (Ok (length d1), q1, t1) /\ is_ok q1 = true /\
    http_parser_execute settings max_header_size q1 d2 = (Ok (length d2), q', t2) /\
    same ((seen <$> t1) ++ (seen <$> t2)) (seen <$> t).
Proof.
  intros Hr Hd1 Hd2 Hmax E Hok'. destruct (execute_run _ _ _ _ _ E Hok') as (x & Ex & -> & ->).
  assert (Hd : d1 ++ d2 <> []) by by destruct d1. assert (Hok : is_ok q = true) by (eapply run_started; [exact Ex|by intros ?%nil_length_inv]).
  rewrite body_starts in Ex by done. fold (started q) in Ex.
  destruct (first_call q d1 d2 x Hr Hok Hd1 Hd2 Hmax Ex) as (x1 & f' & x' & E1 & Hi1 & Hup1 & Hp1 & Hl & Ex' & <- & <-).
  destruct (finish_run settings (d1 ++ d2) d1 d2 Hquiet eq_refl x1 Hi1 Hp1) as (pd & z & Ez & Hpd & Eqz & Etz).
  destruct (second_call d1 d2 _ f' x1 x' z pd Hd2 Hi1 Hup1 Hp1 Hl Ex' Hpd Eqz Etz) as (y & Ey & Hpar & Htr).
  assert (Hokz : is_ok (parser z) = true) by (rewrite Eqz; apply (inv_errno _ _ Hi1)).
  exists (parser z), (trace z), (trace y). split_and!; [|done| |done].
  - apply execute_of_run. rewrite body_starts by done. fold (started q). by rewrite (xb _ _ _ _ _ E1).
  - rewrite <- Hpar. apply execute_of_run. rewrite body_starts by done. fold (started (parser z)).
    assert (pr_lenient (parser z) = pr_lenient q) as -> by by rewrite Eqz. exact Ey.
Qed.
End two.

(** ** The theorem *)

(** One call for each piece, which must take all of it. *)
Fixpoint feed (settings : http_parser_settings) (max_header_size : Z) (q : http_parser) (pieces : list str) : option (http_parser * list event) :=
  match pieces with
  | [] => Some (q, [])
  | d :: pieces =>
      match http_parser_execute settings max_header_size q d with
      | (Ok n, q, t) =>
          if (n =? length d)%nat && is_ok q then '(q, t') ← feed settings max_header_size q pieces; Some (q, t ++ t') else None
      | _ => None
      end
  end.

Lemma feed_app settings mx q ps ps' :
  feed settings mx q (ps ++ ps') = '(q1, t1) ← feed settings mx q ps; '(q2, t2) ← feed settings mx q1 ps'; Some (q2, t1 ++ t2).
Proof.
  revert q. induction ps as [|d ps IH]; intros q; cbn [app feed].
  { cbn. by destruct (feed settings mx q ps') as [[]|]. }
  destruct (http_parser_execute settings mx q d) as [[[n|c|c] q1] t]; [|done|done]. destruct (_ && _); [|done].
  rewrite IH. destruct (feed settings mx q1 ps) as [[q2 t2]|]; [|done]. cbn [mbind option_bind].
  destruct (feed settings mx q2 ps') as [[q3 t3]|]; [|done]. cbn [mbind option_bind]. by rewrite app_assoc.
Qed.

(** C20: A message that [http_parser_execute] takes in one call it takes in any number of calls on pieces of it:
    each call takes its whole piece, the parser ends as it does after the one call, and the callbacks are the same ones
    in the same order with the same texts, once the pieces of each text are put together.  The callbacks must return 0 and leave the
    parser alone, and the message be no longer than the limit for headers. *)
Theorem feed_pieces settings max_header_size q pieces q' t :
  quiet settings -> reachable q -> max_header_size < 2 ^ 31 -> pieces <> [] -> Forall (fun d => d <> []) pieces ->
  Z.of_nat (length (concat pieces)) <= max_header_size ->
  http_parser_execute settings max_header_size q (concat pieces) = (Ok (length (concat pieces)), q', t) -> is_ok q' = true ->
  exists t', feed settings max_header_size q pieces = Some (q', t') /\ merge (seen <$> t') = merge (seen <$> t).
Proof.
  intros Hquiet Hr%reachable_resting Hsmall Hne Hall. revert q' t.
  induction pieces as [|d ps IH] using rev_ind; [done|]. apply Forall_app in Hall as [Hall Hd%Forall_inv]. clear Hne. intros q' t.
  rewrite concat_app. cbn [concat]. rewrite app_nil_r, feed_app. intros Hmax E Hok. destruct (decide (ps = [])) as [->|Hps].
  - exists t. split; [|done]. cbn [concat app feed mbind option_bind] in *. rewrite E, Nat.eqb_refl, Hok. cbn. by rewrite app_nil_r.
  - assert (Hc : concat ps <> []) by (destruct ps as [|d1 ps]; [done|]; apply Forall_inv in Hall; by destruct d1).
    destruct (two_calls settings max_header_size Hquiet Hsmall q (concat ps) d q' t Hr Hc Hd Hmax E Hok) as (q1 & t1 & t2 & E1 & Hok1 & E2 & Hsame).
    rewrite length_app in Hmax. destruct (IH Hps Hall q1 t1 ltac:(lia) E1 Hok1) as (t1' & -> & Ht1).
    exists (t1' ++ t2). cbn [mbind option_bind feed]. rewrite E2, Nat.eqb_refl, Hok. cbn. rewrite app_nil_r. split; [done|].
    apply same_merge. rewrite !fmap_app. rewrite <- Hsame. by apply same_app, merge_same.
Qed.

(** ** Witness *)

Lemma s_response_settings_quiet : quiet s_response_settings.
Proof. split; by intros f cb q; intros; simplify_eq/=. Qed.

Definition some_pieces : list str :=
  [lit "HTTP/1.1 200 O"; lit "K" ++ crlf ++ lit "Content-Le"; lit "ngth: 5" ++ crlf ++ lit "Content-Type: te"; lit "xt/plain" ++ crlf ++ crlf ++ lit "he"; lit "llo"].

Lemma feed_pieces_witness :
  let r := http_parser_execute s_response_settings HTTP_MAX_HEADER_SIZE (http_parser_init HTTP_RESPONSE) (concat some_pieces) in
  exists t', feed s_response_settings HTTP_MAX_HEADER_SIZE (http_parser_init HTTP_RESPONSE) some_pieces = Some (snd (fst r), t') /\
    merge (seen <$> t') = merge (seen <$> snd r).
Proof.
  apply feed_pieces.
  - apply s_response_settings_quiet.
  - constructor.
  - done.
  - done.
  - by repeat constructor.
  - vm_compute. discriminate.
  - vm_compute. reflexivity.
  - vm_compute. reflexivity.
Defined.

(** The callbacks of the pieces, put together. *)
Example some_pieces_callbacks :
  (fun '(_, t) => merge (seen <$> t)) <$> feed s_response_settings HTTP_MAX_HEADER_SIZE (http_parser_init HTTP_RESPONSE) some_pieces =
  Some [message_begin; on_status (lit "OK") 200; on_header_field (lit "Content-Length"); on_header_value (lit "5");
        on_header_field (lit "Content-Type"); on_header_value (lit "text/plain"); on_headers_complete 1 1 200; on_body (lit "hello"); on_message_complete].
Proof. vm_compute. reflexivity. Qed.

(** What the program's callbacks make of the pieces: of a name or a value only the last one is kept. *)
Example pieces_lost :
  (fun '(_, t) => r_headers (m_data (fold_left (fun p c => response_callback c p) (seen <$> t) new_HttpResponseParser))) <$>
    feed s_response_settings HTTP_MAX_HEADER_SIZE (http_parser_init HTTP_RESPONSE) some_pieces =
  Some [(lit "Content-Type", lit "xt/plain"); (lit "ngth", lit "5")].
Proof. vm_compute. reflexivity. Qed.

(** A request is refused when a URL comes in two pieces of which the second is no URL. *)
Example url_refused :
  let one := lit "GET /index.html?x=1 HTTP/1.1" ++ crlf ++ crlf in
  pr_errno (snd (fst (http_parser_execute s_request_settings HTTP_MAX_HEADER_SIZE (http_parser_init HTTP_REQUEST) one))) = HPE_OK /\
  feed s_request_settings HTTP_MAX_HEADER_SIZE (http_parser_init HTTP_REQUEST) [take 9 one; drop 9 one] = None.
Proof. vm_compute. done. Qed.
