(* ===== verification/HttpTyped.v ===== *)
(** * The HTTP grammar: the types of the parser's fields

    The record of a parser has unbounded integers; in the code they are bit-fields and words.  No
    reachable parser has a value that its field could not hold. *)

From S2P Require Import Prelude Http HttpGrammar HttpExecute HttpGrammarTheorems.
#[local] Set Default Goal Selector "!".

(** The enumerations have their numbers in 7 bits, by their size. *)
Record well_typed (q : http_parser) : Prop := mkTyped {
  t_flags : 0 <= pr_flags q < 2 ^ 8;
  t_index : 0 <= pr_index q < 2 ^ 7;
  t_nread : 0 <= pr_nread q < 2 ^ 32;
  t_content_length : 0 <= pr_content_length q < 2 ^ 64;
  t_major : 0 <= pr_http_major q <= 9;
  t_minor : 0 <= pr_http_minor q <= 9;
  t_status : 0 <= pr_status_code q < 2 ^ 16;
  t_method : 0 <= pr_method q < 34
}.

Definition typed (x : locals) : Prop := well_typed (parser x) /\ 0 <= nread x < 2 ^ 32.

(** [m] keeps the types, however it ends. *)
Definition types {A} (m : X A) : Prop := forall x, typed x -> wp m (fun _ y => typed y) (fun _ y => typed y) x.

Lemma types_ret {A} (a : A) : types (mret a).
Proof. by intros x Hx. Qed.
Lemma types_stops {A} s : types (stops (A := A) s).
Proof. by intros x Hx. Qed.
Lemma types_the {A} (f : locals -> A) : types (the f).
Proof. by intros x Hx. Qed.
Lemma types_bind {A B} (m : X A) (f : A -> X B) : types m -> (forall a, types (f a)) -> types (m ≫= f).
Proof. intros Hm Hf x Hx. apply wp_bind. eapply wp_mono; [by apply Hm|]. intros a y Hy. by apply Hf. Qed.
Lemma types_upd f : (forall x, typed x -> typed (f x)) -> types (upd f).
Proof. intros Hf x Hx. by apply Hf. Qed.
Lemma types_with_parser f : (forall q, well_typed q -> well_typed (f q)) -> types (with_parser f).
Proof. intros Hf x [Hq Hn]. by split; [apply Hf|]. Qed.
Lemma types_if {A} (b : bool) (m m' : X A) : (b = true -> types m) -> (b = false -> types m') -> types (if b then m else m').
Proof. destruct b; auto. Qed.
Lemma types_only_if b m : (b = true -> types m) -> types (only_if b m).
Proof. destruct b; [auto|]. intros _. apply types_ret. Qed.
Lemma types_check b : types (check b).
Proof. destruct b; [apply types_ret|apply types_stops]. Qed.

Lemma types_SET_ERRNO e : types (SET_ERRNO e).
Proof. intros x [[] Hn]. by split; [split|]. Qed.
Lemma types_UPDATE_STATE s : types (UPDATE_STATE s).
Proof. by intros x [Hq Hn]. Qed.
Lemma types_RETURN {A} n : types (RETURN (A := A) n).
Proof. intros x [[] Hn]. by split; [split|]. Qed.
Lemma types_fails {A} e : types (fails (A := A) e).
Proof. apply types_bind; [apply types_SET_ERRNO|intros _; apply types_stops]. Qed.

(** After a test that stops, its negation holds. *)
Lemma types_guard {B} (b : bool) e (m : X B) : (b = false -> types m) -> types (only_if b (fails e) ;; m).
Proof.
  intros Hm. destruct b; [|by apply types_bind; [apply types_ret|auto]]. intros x Hx. apply wp_bind. exact (types_fails (A := unit) e x Hx).
Qed.

(** *** The setters *)

Lemma typed_saved s n q : well_typed q -> 0 <= n < 2 ^ 32 -> well_typed (set_state s (set_nread n q)).
Proof. by intros [] Hn; split. Qed.
Lemma typed_state s q : well_typed q -> well_typed (set_state s q).
Proof. by intros []; split. Qed.
Lemma typed_type t q : well_typed q -> well_typed (set_type t q).
Proof. by intros []; split. Qed.
Lemma typed_header_state h q : well_typed q -> well_typed (set_header_state h q).
Proof. by intros []; split. Qed.
Lemma typed_upgrade u q : well_typed q -> well_typed (set_upgrade u q).
Proof. by intros []; split. Qed.
Lemma typed_errno e q : well_typed q -> well_typed (set_errno e q).
Proof. by intros []; split. Qed.
Lemma typed_nread n q : 0 <= n < 2 ^ 32 -> well_typed q -> well_typed (set_nread n q).
Proof. by intros ? []; split. Qed.
Lemma typed_content_length v q : 0 <= v < 2 ^ 64 -> well_typed q -> well_typed (set_content_length v q).
Proof. by intros ? []; split. Qed.
Lemma typed_major v q : 0 <= v <= 9 -> well_typed q -> well_typed (set_http_major v q).
Proof. by intros ? []; split. Qed.
Lemma typed_minor v q : 0 <= v <= 9 -> well_typed q -> well_typed (set_http_minor v q).
Proof. by intros ? []; split. Qed.

Lemma wrapped w v : 0 <= w -> 0 <= wrap w v < 2 ^ w.
Proof. intros Hw. by apply wrap_range. Qed.

Lemma typed_flags v q : well_typed q -> well_typed (set_flags v q).
Proof. intros []; split; try done. by apply (wrapped 8). Qed.
Lemma typed_raise f q : well_typed q -> well_typed (raise f q).
Proof. apply typed_flags. Qed.
Lemma typed_index v q : well_typed q -> well_typed (set_index v q).
Proof. intros []; split; try done. by apply (wrapped 7). Qed.
Lemma typed_status v q : well_typed q -> well_typed (set_status_code v q).
Proof. intros []; split; try done. by apply (wrapped 16). Qed.
Lemma typed_method m q : 0 <= m < 34 -> well_typed q -> well_typed (set_method m q).
Proof. intros Hm []; split; try done. cbn [pr_method set_method]. rewrite wrap_small; [done|unfold unsigned_range; lia]. Qed.
Lemma typed_new_message q : well_typed q -> well_typed (new_message q).
Proof. intros Hq. apply typed_content_length; [by unfold ULLONG_MAX|by apply typed_flags]. Qed.

Create HintDb types.
#[export] Hint Resolve types_ret types_stops types_the types_check types_SET_ERRNO types_UPDATE_STATE types_RETURN types_fails : types.
#[export] Hint Resolve typed_state typed_type typed_header_state typed_upgrade typed_errno typed_flags typed_raise typed_index
  typed_status typed_new_message : types.
#[export] Hint Resolve typed_method typed_major typed_minor typed_content_length typed_nread : types.
#[export] Hint Extern 1 (0 <= _ < 34) => split; [discriminate|reflexivity] : types.
#[export] Hint Extern 1 (0 <= _ <= 9) => split; discriminate : types.

Section typed.
Context (settings : http_parser_settings) (max_header_size : Z) (data : str) (lenient : bool).
Context (Hpassive : passive settings).
Implicit Types x : locals.

Lemma types_count v : types (COUNT_HEADER_SIZE max_header_size v).
Proof.
  apply types_bind; [|intros _; apply types_bind; [apply types_the|intros n; apply types_only_if; intros _; apply types_fails]].
  apply types_upd. intros x [Hq Hn]. split; [done|]. by apply (wrapped 32).
Qed.

Lemma types_mark f : types (MARK f).
Proof. apply types_upd. intros x Hx. by destruct (mark f x). Qed.

Lemma types_after b e er : types (after_callback b e er).
Proof.
  apply types_bind; [apply types_only_if; intros _; apply types_SET_ERRNO|intros _].
  apply types_bind; [apply types_the|intros s]. apply types_bind; [apply types_UPDATE_STATE|intros _].
  apply types_bind; [apply types_the|intros ok]. apply types_only_if; intros _; apply types_stops.
Qed.

(** A callback that leaves the parser alone. *)
Lemma types_call {A} (ev : http_parser -> event) (g : http_parser -> http_parser) (k : http_parser -> X A) :
  (forall q, g q = q) -> (forall q, types (k q)) ->
  types (q ← the parser; upd (x_event (ev q)) ;; with_parser (fun _ => g q) ;; k q).
Proof.
  intros Hg Hk x Hx. apply wp_bind, wp_the, wp_bind, wp_upd, wp_bind, wp_upd. rewrite Hg. by apply Hk.
Qed.

Lemma types_notify f er : types (CALLBACK_NOTIFY_ settings f er).
Proof.
  apply types_bind; [apply types_the|intros ok]. apply types_bind; [apply types_check|intros _].
  destruct (on_notify settings f) as [cb|] eqn:Ef; [|apply types_ret].
  apply types_bind; [apply types_the|intros s]. apply types_bind; [apply types_with_parser; intros q Hq; by apply typed_state|intros _].
  apply (types_call (Notify f) (fun q => snd (cb q))); [intros q; by apply (proj1 Hpassive f)|intros q; apply types_after].
Qed.

Lemma types_data f span er : types (CALLBACK_DATA_ settings data f span er).
Proof.
  apply types_bind; [apply types_the|intros ok]. apply types_bind; [apply types_check|intros _].
  apply types_bind; [apply types_the|intros [m|]]; [|apply types_ret].
  apply types_bind; [apply types_only_if; intros _; apply types_stops|intros _]. apply types_bind; [|intros _; by apply types_upd].
  destruct (on_data settings f) as [cb|] eqn:Ef; [|apply types_ret].
  apply types_bind; [apply types_the|intros s]. apply types_bind; [apply types_with_parser; intros q Hq; by apply typed_state|intros _].
  set (bytes := slice _ _ _). apply (types_call (Data f bytes) (fun q => snd (cb q bytes))); [intros q; by apply (proj2 Hpassive f)|intros q; apply types_after].
Qed.
Hint Resolve types_count types_mark types_notify types_data : types.

Ltac types_step :=
  lazymatch goal with
  | |- types (only_if _ (fails _) ;; _) => apply types_guard; intros ?
  | |- types (_ ≫= _) => apply types_bind; [|intros ?]
  | |- types (if _ then _ else _) => apply types_if; intros ?
  | |- types (only_if _ _) => apply types_only_if; intros ?
  | |- types (with_parser _) => apply types_with_parser; intros ? ?; solve [eauto with types]
  | |- types (match ?o with Some _ => _ | None => _ end) => destruct o eqn:?
  | |- types (STRICT_CHECK _) => unfold STRICT_CHECK
  | |- types (next _) => unfold next
  | |- types (set_hs _) => unfold set_hs
  | |- types (CALLBACK_NOTIFY _ _) => unfold CALLBACK_NOTIFY
  | |- types (CALLBACK_NOTIFY_NOADVANCE _ _) => unfold CALLBACK_NOTIFY_NOADVANCE
  | |- types (CALLBACK_DATA _ _ _) => unfold CALLBACK_DATA
  | |- types (CALLBACK_DATA_NOADVANCE _ _ _) => unfold CALLBACK_DATA_NOADVANCE
  | |- types unhandled => apply types_stops
  | |- types _ => solve [eauto with types]
  end.
Ltac types_tac := repeat types_step.

Lemma typed_digit c : negb (IS_NUM c) = false -> 0 <= digit_of c <= 9.
Proof. apply digit_range. Qed.
Lemma typed_length c : negb (IS_NUM c) = false -> 0 <= digit_of c < 2 ^ 64.
Proof. intros H%digit_range. lia. Qed.
Hint Resolve typed_digit typed_length : types.

Lemma start_line_types s c : types (start_line settings s c).
Proof. destruct s; cbn [start_line]; types_tac. Qed.

Lemma status_line_types s c : types (status_line settings data s c).
Proof. destruct s; cbn [status_line]; types_tac. Qed.

Lemma first_method_range c m : first_method c = Some m -> 0 <= m < 34.
Proof. by destruct c; intros [= <-]. Qed.

Lemma start_req_types c : types (start_req settings c).
Proof.
  unfold start_req. types_tac. apply types_with_parser. intros q Hq. apply typed_method; [by eapply first_method_range|done].
Qed.

Lemma switched_range m i c m' : switched m i c method_switch = Some m' -> 0 <= m' < 34.
Proof. unfold method_switch. cbn [switched]. repeat (destruct (_ && eqc _ c); [by intros [= <-]|]). done. Qed.

Lemma req_method_types c : types (req_method c).
Proof.
  unfold req_method. types_tac. apply types_with_parser. intros q Hq. apply typed_method; [by eapply switched_range|done].
Qed.

Lemma url_char_types c : types (url_char c).
Proof. unfold url_char. types_tac. destruct a1; types_tac. Qed.
Hint Resolve url_char_types : types.

Lemma request_url_types s c : types (request_url settings data s c).
Proof. destruct s; cbn [request_url]; types_tac. Qed.

Lemma request_version_types s c : types (request_version s c).
Proof. destruct s; cbn [request_version]; types_tac. Qed.

(** *** Names and values *)

Lemma header_field_start_types c : types (header_field_start c).
Proof. unfold header_field_start. types_tac. Qed.

Lemma skip_tokens_types fuel pe : types (skip_tokens data fuel pe).
Proof.
  induction fuel as [|fuel IH]; cbn [skip_tokens]; types_tac. by apply types_upd.
Qed.

Lemma read_ch_types : types (read_ch data).
Proof. intros x Hx. unfold wp, read_ch. by destruct (data !! p x). Qed.
Hint Resolve skip_tokens_types read_ch_types : types.

Lemma field_char_types fuel c t : types (field_char max_header_size data fuel c t).
Proof. unfold field_char, next_index. types_tac. destruct a; types_tac. Qed.

Lemma moves f : types (upd (x_p f)).
Proof. by apply types_upd. Qed.
Hint Resolve field_char_types moves : types.

Lemma field_loop_types fuel : types (field_loop max_header_size data fuel).
Proof. induction fuel as [|fuel IH]; cbn [field_loop]; types_tac. Qed.
Hint Resolve field_loop_types : types.

Lemma header_field_types : types (header_field settings max_header_size data).
Proof. unfold header_field. types_tac. Qed.

Lemma header_value_start_types c : types (header_value_start c).
Proof.
  unfold header_value_start. types_tac. match goal with h : header_states |- _ => destruct h end; types_tac.
Qed.
Hint Resolve header_value_start_types : types.

Lemma header_value_discard_ws_types c : types (header_value_discard_ws c).
Proof. unfold header_value_discard_ws. types_tac. Qed.

Lemma value_skip_types fuel pe : types (value_skip data lenient fuel pe).
Proof. induction fuel as [|fuel IH]; cbn [value_skip]; types_tac. Qed.

Lemma u64_range v : 0 <= u64 v < 2 ^ 64.
Proof. by apply (wrapped 64). Qed.
Hint Resolve value_skip_types u64_range : types.

Lemma types_fails_in {A} h e : types (fails_in (A := A) h e).
Proof. unfold fails_in. types_tac. Qed.
Hint Resolve types_fails_in : types.

Lemma content_length_digit_types c : types (content_length_digit c).
Proof. unfold content_length_digit. types_tac. Qed.
Hint Resolve content_length_digit_types : types.

Lemma value_char_types fuel h c l : types (value_char max_header_size data lenient fuel h c l).
Proof. unfold value_char, next_index. destruct h; types_tac. Qed.
Hint Resolve value_char_types : types.

Lemma value_loop_types fuel start h : types (value_loop settings max_header_size data lenient fuel start h).
Proof. revert h. induction fuel as [|fuel IH]; intros h; cbn [value_loop]; types_tac. Qed.
Hint Resolve value_loop_types : types.

Lemma header_value_types : types (header_value settings max_header_size data lenient).
Proof. unfold header_value. types_tac. Qed.

Lemma header_end_types s c : types (header_end settings data s c).
Proof. destruct s; cbn [header_end]; types_tac. Qed.

(** *** The end of the headers, and bodies *)

(** The callback on the end of the headers, whose results have their own meanings. *)
Lemma headers_complete_types n cb : on_notify settings cb_headers_complete = Some cb -> types (q ← the parser;
  upd (x_event (Notify cb_headers_complete q)) ;; with_parser (fun _ => snd (cb q)) ;;
  if fst (cb q) =? 0 then mret tt
  else if fst (cb q) =? 1 then with_parser (raise F_SKIPBODY)
  else if fst (cb q) =? 2 then with_parser (set_upgrade true) ;; with_parser (raise F_SKIPBODY)
  else SET_ERRNO HPE_CB_headers_complete ;; RETURN n).
Proof.
  intros Hcb. apply (types_call (Notify cb_headers_complete) (fun q => snd (cb q))); [intros q; by apply (proj1 Hpassive cb_headers_complete)|].
  intros q. types_tac.
Qed.

Lemma headers_almost_done_types c : types (headers_almost_done settings c).
Proof.
  unfold headers_almost_done. apply types_bind; [types_tac|intros _].
  pose proof headers_complete_types as H. destruct (on_notify settings cb_headers_complete) as [cb|]; [|types_tac].
  repeat first [exact (H _ _ eq_refl)|types_step].
Qed.

Lemma message_complete_types : types (message_complete settings).
Proof. unfold message_complete. types_tac. Qed.

Lemma reset_nread_types : types reset_nread.
Proof. apply types_bind; [apply types_with_parser; intros q Hq; by apply typed_nread|]. intros _. apply types_upd. intros x [Hq Hn]. by split. Qed.
Hint Resolve message_complete_types reset_nread_types : types.

Lemma headers_done_types c : types (headers_done settings c).
Proof. unfold headers_done. types_tac. Qed.

Lemma take_body_types : types (take_body data).
Proof.
  intros x Hx. unfold take_body. apply wp_bind, wp_the, wp_bind, wp_the. pose proof (t_content_length _ (proj1 Hx)) as Hv.
  set (v := pr_content_length (parser x)) in *. set (t := Z.min v _). assert (0 <= v - t < 2 ^ 64) by lia. clearbody t.
  eassert (Hm : types _); [|exact (Hm x Hx)]. types_tac.
Qed.
Hint Resolve take_body_types : types.

Lemma body_types s : types (body settings data s).
Proof. destruct s; cbn [body]; types_tac. Qed.

Lemma unhex_typed c : (unhex c =? -1) = false -> 0 <= unhex c < 2 ^ 64.
Proof. intros H%unhex_range. lia. Qed.
Hint Resolve unhex_typed : types.

Lemma chunked_types s c : types (chunked settings data s c).
Proof. destruct s; cbn [chunked]; unfold assert_chunked; types_tac. Qed.

(** ** The loop on the data *)

Lemma switch_types : types (switch settings max_header_size data lenient).
Proof.
  unfold switch. do 2 (apply types_bind; [apply types_the|intros ?]).
  destruct a; auto using start_line_types, status_line_types, start_req_types, req_method_types, request_url_types, request_version_types,
    header_field_start_types, header_field_types, header_value_discard_ws_types, header_value_start_types, header_value_types, header_end_types,
    headers_almost_done_types, headers_done_types, body_types, chunked_types.
Qed.
Hint Resolve switch_types : types.

Lemma reexecute_types fuel : types (reexecute settings max_header_size data lenient fuel).
Proof. induction fuel as [|fuel IH]; cbn [reexecute]; types_tac. destruct a; types_tac. Qed.
Hint Resolve reexecute_types : types.

Lemma one_byte_types : types (one_byte settings max_header_size data lenient).
Proof. unfold one_byte. types_tac. Qed.
Hint Resolve one_byte_types : types.

Lemma main_loop_types fuel : types (main_loop settings max_header_size data lenient fuel).
Proof. induction fuel as [|fuel IH]; cbn [main_loop]; types_tac. Qed.
Hint Resolve main_loop_types : types.

Lemma at_eof_types : types (at_eof settings).
Proof. unfold at_eof. apply types_bind; [types_tac|intros s]. destruct s; types_tac. Qed.
Hint Resolve at_eof_types : types.

Lemma typed_start s x : typed x -> typed (start_marks s x).
Proof. by destruct s. Qed.
Lemma start_marks_types s : types (upd (start_marks s)).
Proof. apply types_upd. intros x. apply typed_start. Qed.
Hint Resolve start_marks_types : types.

Lemma execute_body_types : types (execute_body settings max_header_size data lenient).
Proof. unfold execute_body. types_tac. Qed.
End typed.

Lemma execute_typed settings max_header_size q data r q' tr :
  passive settings -> well_typed q -> http_parser_execute settings max_header_size q data = (r, q', tr) -> well_typed q'.
Proof.
  intros Hs Hq. pose proof (execute_body_types settings max_header_size data (pr_lenient q) Hs (entry q) (conj Hq (t_nread _ Hq))) as Hw.
  unfold wp in Hw. unfold http_parser_execute.
  destruct (execute_body settings max_header_size data (pr_lenient q) (entry q)) as [[a|[|n|c]] x]; destruct Hw as [Hw Hn];
    intros [= _ <- _]; try done.
  destruct (is_ok (parser x)); [|by apply typed_saved].
  by apply typed_saved; [exact (proj1 (types_SET_ERRNO HPE_UNKNOWN x (conj Hw Hn)))|].
Qed.

Lemma named_method m : 0 <= m < 34 -> http_method_str m ∈ method_strings.
Proof.
  intros Hm. unfold http_method_str. assert (u32 m = m) as -> by (apply wrap_small; unfold unsigned_range; lia).
  destruct (lookup_lt_is_Some_2 method_strings (Z.to_nat m)) as [w Hw]; [change (length method_strings) with 34%nat; lia|].
  rewrite Hw. by apply list_elem_of_lookup_2 in Hw.
Qed.

Lemma reachable_well_typed q : reachable q -> well_typed q.
Proof.
  induction 1 as [t|settings mx q data r q' tr _ IH Hs He|b q q' _ IH Hp].
  - by destruct t; split.
  - by eapply execute_typed.
  - unfold http_parser_pause in Hp. destruct (pr_errno q); try done; injection Hp as <-; by apply typed_errno.
Qed.

(** C23: The fields of a parser hold what their types can: whatever a program feeds a parser, the method is
    one of the enumeration, so that its name is of the table of names and not [<unknown>], the version is of digits, the
    remaining length is a [uint64_t] though it is computed without a test at the bytes taken from it, and
    the counters are within their bit-fields.  The callbacks must leave the parser alone. *)
Theorem reachable_typed q : reachable q -> well_typed q /\ http_method_str (pr_method q) ∈ method_strings.
Proof. intros Hr. assert (Hq := reachable_well_typed q Hr). by split; [|apply named_method, t_method]. Qed.

Lemma reachable_typed_witness :
  let data := lit "UNLINK /a HTTP/1.1" ++ [x0d; x0a] ++ lit "Content-Length: 18446744073709551" ++ [x0d; x0a; x0d; x0a] ++ lit "ab" in
  let q := snd (fst (http_parser_execute http_parser_settings_init HTTP_MAX_HEADER_SIZE (http_parser_init HTTP_BOTH) data)) in
  (pr_method q = 32 /\ pr_content_length q = 18446744073709549 /\ pr_state q = s_body_identity) /\
  well_typed q /\ http_method_str (pr_method q) ∈ method_strings.
Proof.
  intros data q. split; [by vm_compute|].
  apply (reachable_typed q). eapply (reachable_execute http_parser_settings_init HTTP_MAX_HEADER_SIZE (http_parser_init HTTP_BOTH) data).
  - constructor.
  - by split.
  - subst q. vm_compute. reflexivity.
Defined.
