(* ===== verification/HttpSizes.v ===== *)
(** * The HTTP grammar: the sizes a message announces

    The number of a content length, and of the size of a chunk, from the text of it to the parser that
    has read it. *)

From S2P Require Import Prelude Http HttpTheorems HttpGrammar HttpExecute HttpGrammarTheorems HttpWords HttpSession HttpParsing HttpParsingTheorems HttpRuns HttpFields HttpRoundTrip HttpTyped.
#[local] Set Default Goal Selector "!".

(** ** What is written *)

(** The digit that a byte stands for, in base sixteen; the bytes that are not ASCII count as 0. *)
Definition hex_digit (c : byte) : option Z :=
  let n := b2z c in
  if (48 <=? n) && (n <=? 57) then Some (n - 48)
  else if (65 <=? n) && (n <=? 70) then Some (n - 55)
  else if (97 <=? n) && (n <=? 102) then Some (n - 87)
  else if 128 <=? n then Some 0
  else None.

(** The number that digits write after [v]. *)
Definition hex_number (v : Z) (ds : list Z) : Z := fold_left (fun v d => v * 16 + d) ds v.
Definition chunk_limit : Z := 18446744073709551599.

Lemma unhex_digit c : unhex c = default (-1) (hex_digit c).
Proof. destruct c; vm_compute; reflexivity. Qed.

Lemma hex_digit_some c d : hex_digit c = Some d -> unhex c = d /\ 0 <= d <= 15 /\ eqc c CR = false.
Proof.
  intros H. rewrite unhex_digit, H. split; [done|]. revert H. destruct c; vm_compute; intros [= <-]; intuition congruence.
Qed.

Lemma hex_number_ge v ds : 0 <= v -> Forall (fun d => 0 <= d) ds -> v <= hex_number v ds.
Proof.
  intros Hv Hds. revert v Hv. induction Hds as [|d ds Hd _ IH]; intros v Hv; [done|].
  specialize (IH (v * 16 + d) ltac:(lia)). change (hex_number v (d :: ds)) with (hex_number (v * 16 + d) ds). lia.
Qed.

Lemma hex_digits_nonneg w ds : mapM hex_digit w = Some ds -> Forall (fun d => 0 <= d) ds.
Proof.
  intros H. apply mapM_Some in H. induction H as [|c d w ds Hc _ IH]; constructor; [|done]. by apply hex_digit_some in Hc as (_ & ? & _); lia.
Qed.

Section sizes.
Context (rq : bool) (data : str).
Abbreviation mx := HTTP_MAX_HEADER_SIZE.
Abbreviation exec := (reexecute (settings_of rq) mx data false).
Abbreviation conf := (HttpRuns.conf data).
Abbreviation leads := (HttpRuns.leads rq data).
Abbreviation breaks := (HttpRuns.breaks rq data).
Implicit Types (x : locals) (q : http_parser).

(** Where a call starts. *)
Lemma entry_conf q : conf q (pr_state q) (pr_nread q) 0 data None [] (entry q).
Proof. split; [done|]. exists (pr_state q), (pr_nread q), x00, []. split; [|done]. by destruct q. Qed.

(** ** Content lengths *)

Lemma content_length_digit_run v c q h0 st nr s n k d ms t :
  0 <= v -> IS_NUM c = true ->
  let x := loc (hq (set_content_length v q) h0 0) st nr s n k d ms t in
  if v <=? 1844674407370955160
  then content_length_digit c x = (inl h_content_length_num, loc (hq (set_content_length (v * 10 + digit_of c) q) h0 0) st nr s n k d ms t)
  else exists x', content_length_digit c x = (inr goto_error, x') /\ pr_errno (parser x') = HPE_INVALID_CONTENT_LENGTH.
Proof.
  cbv zeta. intros Hv Hc. assert (Hd : 0 <= digit_of c <= 9) by by apply digit_of_range.
  set (x := loc _ _ _ _ _ _ _ _ _). unfold content_length_digit.
  assert (eqc c " " = false) as -> by (revert Hc; destruct c; vm_compute; congruence).
  rewrite Hc. cbn [negb only_if]. rewrite (xb _ _ x tt x) by done. rewrite (xb _ _ x v x) by done. cbv zeta.
  change (Z.quot (ULLONG_MAX - 10) 10) with 1844674407370955160.
  destruct (Z.leb_spec v 1844674407370955160) as [Hle|Hlt].
  - rewrite (proj2 (Z.ltb_ge _ _) Hle). cbn [only_if]. rewrite (xb _ _ x tt x) by done.
    assert (u64 (u64 (v * 10) + digit_of c) = v * 10 + digit_of c) as ->; [|done].
    rewrite (wrap_small 64 (v * 10)) by (unfold unsigned_range; lia). apply wrap_small. unfold unsigned_range; lia.
  - rewrite (proj2 (Z.ltb_lt _ _) Hlt). cbn [only_if]. eexists. split; [reflexivity|done].
Qed.

(** A number over the limit stops the loop on the value. *)
Lemma value_loop_breaks ds q v fuel start h0 st nr s n k d m t rest :
  0 <= v <= length_limit -> is_digits ds -> length_limit < digits_value v ds -> drop k data = ds ++ rest -> (length ds < fuel)%nat ->
  exists x', value_loop (settings_of rq) mx data false fuel start h_content_length_num
    (loc (hq (set_content_length v q) h0 0) st nr s n k d m t) = (inr goto_error, x') /\ pr_errno (parser x') = HPE_INVALID_CONTENT_LENGTH.
Proof.
  intros Hv Hds. revert v fuel k d Hv. induction Hds as [|c ds Hc Hds IH]; intros v fuel k d Hv Hbig Hd Hf.
  { unfold digits_value in Hbig. cbn in Hbig. lia. }
  destruct fuel as [|fuel]; [lia|]. cbn [length app] in *. cbn [value_loop]. xstep. cbn [p loc].
  destruct (rest_lookup _ _ _ _ Hd) as (Hk & Hlt & Hd'). unfold HttpExecute.len at 1.
  rewrite (proj2 (Nat.eqb_neq k (length data))) by lia. rewrite (xb _ _ _ _ _ (read_run data _ st nr s n k _ d _ t Hk)). xstep. cbn [ch loc].
  assert (Hb : value_byte c = true) by (revert Hc; destruct c; vm_compute; congruence).
  destruct (value_byte_true c Hb) as (-> & -> & ->). cbn [negb andb only_if].
  rewrite (xb _ _ _ tt (loc (hq (set_content_length v q) h0 0) st nr s n k c m t)) by done.
  pose proof (content_length_digit_run v c q h0 st nr s n k c m t ltac:(lia) Hc) as Hrun. cbv zeta in Hrun. cbn [value_char].
  pose proof (digit_of_range c Hc) as Hdig. unfold length_limit in *.
  destruct (Z.leb_spec v 1844674407370955160) as [Hle|Hlt2].
  - rewrite (xb _ _ _ _ _ Hrun). rewrite (xb _ _ _ tt (loc (hq (set_content_length (v * 10 + digit_of c) q) h0 0) st nr s n (S k) c m t)) by done.
    apply IH; [lia|exact Hbig|exact Hd'|lia].
  - destruct Hrun as (x' & Hrun & He). exists x'. split; [|done]. by rewrite (xstop _ _ _ _ _ Hrun).
Qed.

Lemma run_length_over q i ds n k tr x :
  flag_on F_CONTENTLENGTH q = false -> is_digits ds -> length_limit < digits_value 0 ds ->
  0 <= n -> n + 3 <= mx ->
  conf (hq q h_content_length i) s_header_value_discard_ws n k (" "%byte :: ds ++ crlf) None tr x ->
  breaks HPE_INVALID_CONTENT_LENGTH x.
Proof.
  intros Hf Hds Hbig Hn Hmx Hc. unfold length_limit in *.
  destruct Hds as [|c ds Hc1 Hds]; [by unfold digits_value in Hbig; cbn in Hbig|].
  pose proof (digit_of_range c Hc1) as Hdig. change (digits_value 0 (c :: ds)) with (digits_value (digit_of c) ds) in Hbig.
  destruct Hds as [|c2 ds Hc2 Hds]; [unfold digits_value in Hbig; cbn in Hbig; lia|].
  apply leads_breaks. eapply leads_trans.
  { eapply byte_step_plain; [exact Hc|done|done|lia|]. intros. by apply exec_break. }
  clear Hc. intros x1 H1. cbn [app] in *. pose proof (rest_lookup _ _ _ _ (proj1 H1)) as (_ & _ & Hd').
  set (q1 := set_content_length (digit_of c) (raise F_CONTENTLENGTH q)).
  eapply (leads_trans rq data x1 (conf (hq q1 h_content_length_num 0) s_header_value (n + 1 + 1) (S (S k)) (c2 :: ds ++ crlf) (Some (cb_header_value, S k)) tr)).
  { eapply byte_in_header; [exact H1|done|lia|lia|]. intros st nr t Ht. eexists. split.
    { apply exec_break. unfold switch. do 2 xstep. cbn [p_state ch loc]. unfold header_value_discard_ws.
      assert (eqc c " " || eqc c x09 = false /\ eqc c CR = false /\ eqc c LF = false) as (-> & -> & ->)
        by (revert Hc1; destruct c; vm_compute; intuition congruence).
      by apply length_first. }
    split; [done|]. split; [exact Hd'|]. by exists st, nr, c, t. }
  intros x2 H2. apply leads_now. eapply byte_breaks; [exact H2|done|lia|lia|]. intros st nr t.
  destruct (value_loop_breaks (c2 :: ds) (raise F_CONTENTLENGTH q) (digit_of c) (S (length data)) (S (S k)) h_content_length_num st nr s_header_value
    (n + 1 + 1 + 1) (S (S k)) c2 (Some (cb_header_value, S k)) t crlf) as (x' & Hx & He).
  - unfold length_limit; lia.
  - by constructor.
  - exact Hbig.
  - by destruct H2 as [? _].
  - destruct H2 as [H2 _]. apply (f_equal length) in H2. rewrite length_drop in H2. cbn [length] in *. rewrite length_app in H2. lia.
  - eapply (exec_error rq data); [|exact He]. unfold switch. do 2 xstep. cbn [p_state ch loc]. unfold header_value. xstep.
    rewrite (xb _ _ _ h_content_length_num (loc (hq q1 h_content_length_num 0) st nr s_header_value (n + 1 + 1 + 1) (S (S k)) c2 (Some (cb_header_value, S k)) t)) by done.
    cbn [p loc]. unfold HttpExecute.len. by rewrite (xstop _ _ _ _ _ Hx).
Qed.

(** ** Sizes of chunks *)

Lemma chunk_digit_run q c v h st nr n k t :
  flag_on F_CHUNKED q = true -> 0 <= v -> hex_digit c = Some h ->
  let x := loc (set_content_length v q) st nr s_chunk_size n k c None t in
  if v <=? 1152921504606846974
  then exec 5 x = (inl tt, loc (set_content_length (v * 16 + h) q) st nr s_chunk_size n k c None t)
  else exists x', exec 5 x = (inr goto_error, x') /\ pr_errno (parser x') = HPE_INVALID_CONTENT_LENGTH.
Proof.
  cbv zeta. intros Hf Hv Hc. destruct (hex_digit_some c h Hc) as (Hu & Hd & Hcr). set (x := loc _ _ _ _ _ _ _ _ _).
  assert (Hsw : switch (settings_of rq) mx data false x = chunked (settings_of rq) data s_chunk_size c x)
    by (unfold switch; do 2 xstep; done).
  assert (Hrun : chunked (settings_of rq) data s_chunk_size c x =
    ((only_if (Z.ltb 1152921504606846974 v) (fails HPE_INVALID_CONTENT_LENGTH) ;;
     with_parser (set_content_length (u64 (u64 (v * 16) + h))) ;; mret Break) : X turn) x).
  { unfold chunked, assert_chunked. rewrite x_assoc, (xb _ _ x true x) by (unfold the; cbn; by rewrite <- Hf).
    rewrite (xb _ _ x tt x) by done. rewrite Hcr, Hu. assert ((h =? (-1)) = false) as -> by lia.
    by rewrite (xb _ _ x v x). }
  destruct (Z.leb_spec v 1152921504606846974) as [Hle|Hlt].
  - apply exec_break. rewrite Hsw, Hrun, (proj2 (Z.ltb_ge _ _) Hle). cbn [only_if]. rewrite (xb _ _ x tt x) by done.
    assert (u64 (u64 (v * 16) + h) = v * 16 + h) as ->; [|done].
    rewrite (wrap_small 64 (v * 16)) by (unfold unsigned_range; lia). apply wrap_small. unfold unsigned_range; lia.
  - eapply exec_error; [rewrite Hsw, Hrun, (proj2 (Z.ltb_lt _ _) Hlt); cbn [only_if]; reflexivity|done].
Qed.

(** From the digits after the first to the byte that ends them. *)
Lemma run_chunk_digits q w ds v n k c rest tr x :
  flag_on F_CHUNKED q = true -> 0 <= v <= chunk_limit -> mapM hex_digit w = Some ds -> 0 <= n -> n + Z.of_nat (length w) <= mx ->
  conf (set_content_length v q) s_chunk_size n k (w ++ c :: rest) None tr x ->
  if hex_number v ds <=? chunk_limit
  then leads x (conf (set_content_length (hex_number v ds) q) s_chunk_size (n + Z.of_nat (length w)) (k + length w) (c :: rest) None tr)
  else breaks HPE_INVALID_CONTENT_LENGTH x.
Proof.
  intros Hf Hv Hw. apply mapM_Some in Hw. revert v n k x Hv.
  induction Hw as [|b h w ds Hb Hw IH]; intros v n k x Hv Hn Hmx Hc.
  - unfold hex_number. cbn [fold_left length app] in *. rewrite (proj2 (Z.leb_le _ _)) by lia. rewrite Z.add_0_r, Nat.add_0_r. by apply leads_now.
  - change (hex_number v (h :: ds)) with (hex_number (v * 16 + h) ds). cbn [length app] in *.
    destruct (hex_digit_some b h Hb) as (_ & Hh & _).
    assert (Hrun := chunk_digit_run q b v h). unfold chunk_limit in *.
    destruct (Z.leb_spec v 1152921504606846974) as [Hle|Hlt].
    + assert (Hstep : leads x (conf (set_content_length (v * 16 + h) q) s_chunk_size (n + 1) (S k) (w ++ c :: rest) None tr)).
      { eapply byte_step_plain; [exact Hc|done|done|lia|]. intros st nr t. by apply Hrun; [done|lia|]. }
      destruct Hstep as (x1 & Hr1 & H1). specialize (IH (v * 16 + h) (n + 1) (S k) x1 ltac:(lia) ltac:(lia) ltac:(lia) H1).
      replace (n + Z.of_nat (S (length w))) with (n + 1 + Z.of_nat (length w)) by lia.
      replace (k + S (length w))%nat with (S k + length w)%nat by lia.
      destruct (hex_number (v * 16 + h) ds <=? 18446744073709551599).
      * eapply (leads_trans rq data x (fun y => y = x1)); [by exists x1|]. by intros x2 ->.
      * apply leads_breaks. by exists x1.
    + assert (Hbig : v * 16 + h <= hex_number (v * 16 + h) ds).
      { apply hex_number_ge; [lia|]. by apply (hex_digits_nonneg w), mapM_Some. }
      rewrite (proj2 (Z.leb_gt _ _)) by lia.
      eapply byte_breaks; [exact Hc|done|done|lia|]. intros st nr t. by apply Hrun; [done|lia|].
Qed.

(** The first digit. *)
Lemma run_chunk_first q b h k rest tr x :
  flag_on F_CHUNKED q = true -> hex_digit b = Some h -> conf q s_chunk_size_start 0 k (b :: rest) None tr x ->
  leads x (conf (set_content_length h q) s_chunk_size 1 (S k) rest None tr).
Proof.
  intros Hf Hb Hc. destruct (hex_digit_some b h Hb) as (Hu & Hh & _).
  change 1 with (0 + 1). eapply byte_step_plain; [exact Hc|done|done|done|]. intros st nr t. apply exec_break.
  set (x0 := loc _ _ _ _ _ _ _ _ _). unfold switch. do 2 xstep. cbn [p_state x0 loc ch]. unfold chunked, assert_chunked.
  rewrite (xb _ _ x0 1 x0) by done. rewrite (xb _ _ x0 tt x0) by done.
  rewrite x_assoc, (xb _ _ x0 true x0) by (unfold the; cbn; by rewrite <- Hf). rewrite (xb _ _ x0 tt x0) by done.
  rewrite Hu. assert ((h =? (-1)) = false) as -> by lia. by rewrite (xb _ _ x0 tt x0) by done.
Qed.

Lemma run_chunk_none q b k rest tr x :
  flag_on F_CHUNKED q = true -> hex_digit b = None -> conf q s_chunk_size_start 0 k (b :: rest) None tr x ->
  breaks HPE_INVALID_CHUNK_SIZE x.
Proof.
  intros Hf Hb Hc. eapply byte_breaks; [exact Hc|done|done|done|]. intros st nr t. eapply exec_error.
  - set (x0 := loc _ _ _ _ _ _ _ _ _). unfold switch. do 2 xstep. cbn [p_state x0 loc ch]. unfold chunked, assert_chunked.
    rewrite (xb _ _ x0 1 x0) by done. rewrite (xb _ _ x0 tt x0) by done.
    rewrite x_assoc, (xb _ _ x0 true x0) by (unfold the; cbn; by rewrite <- Hf). rewrite (xb _ _ x0 tt x0) by done.
    rewrite unhex_digit, Hb. reflexivity.
  - done.
Qed.

(** The byte after the digits. *)
Definition after_size (c : byte) : option state :=
  if eqc c CR then Some s_chunk_size_almost_done
  else if eqc c ";" || eqc c " " then Some s_chunk_parameters else None.

Lemma run_chunk_end q c n k tr x :
  flag_on F_CHUNKED q = true -> hex_digit c = None -> 0 <= n -> n + 1 <= mx -> conf q s_chunk_size n k [c] None tr x ->
  match after_size c with
  | Some s => leads x (conf q s (n + 1) (S k) [] None tr)
  | None => breaks HPE_INVALID_CHUNK_SIZE x
  end.
Proof.
  intros Hf Hc Hn Hmx H. pose proof (unhex_digit c) as Hu. rewrite Hc in Hu. cbn in Hu.
  assert (Hsw : forall st nr t, let x0 := loc q st nr s_chunk_size (n + 1) k c None t in switch (settings_of rq) mx data false x0 =
    (if eqc c CR then next s_chunk_size_almost_done
     else if eqc c ";" || eqc c " " then next s_chunk_parameters else fails HPE_INVALID_CHUNK_SIZE) x0).
  { intros st nr t x0. unfold switch. do 2 xstep. cbn [p_state x0 loc ch]. unfold chunked, assert_chunked.
    rewrite x_assoc, (xb _ _ x0 true x0) by (unfold the; cbn; by rewrite <- Hf). rewrite (xb _ _ x0 tt x0) by done. by rewrite Hu. }
  cbv zeta in Hsw. unfold after_size. destruct (eqc c CR); [|destruct (_ || _)].
  - eapply byte_step_plain; [exact H|done|done|lia|]. intros st nr t. apply exec_break. by rewrite Hsw.
  - eapply byte_step_plain; [exact H|done|done|lia|]. intros st nr t. apply exec_break. by rewrite Hsw.
  - eapply byte_breaks; [exact H|done|done|lia|]. intros st nr t. eapply exec_error; [rewrite Hsw; reflexivity|done].
Qed.
End sizes.

(** ** The numbers of a call *)

Lemma hq_self q : well_typed q -> q = hq q (pr_header_state q) (pr_index q).
Proof. intros Hq. unfold hq, set_index. rewrite wrap_small by (pose proof (t_index q Hq); unfold unsigned_range; lia). by destruct q. Qed.

Lemma norm_content_length q q' : norm q' = norm q -> pr_content_length q' = pr_content_length q /\ pr_errno q' = pr_errno q.
Proof. intros H. split; [change (pr_content_length (norm q') = pr_content_length q)|change (pr_errno (norm q') = pr_errno q)]; by rewrite H. Qed.

Lemma line_start_conf data q n k rest tr x :
  line_start data q n k rest tr x ->
  exists q' s, (pr_content_length q' = pr_content_length q /\ pr_errno q' = pr_errno q) /\ conf data q' s n k rest None tr x.
Proof.
  intros [(q' & Hq & Hc)|(q' & Hq & Hc)]; (eexists q', _; split; [|exact Hc]).
  - by apply norm_content_length.
  - by apply (norm_content_length q (raise (header_flag (pr_header_state q')) q')).
Qed.

Section calls.
Context (rq : bool) (q : http_parser).
Context (Hreach : reachable q) (Hok : pr_errno q = HPE_OK) (Hlenient : pr_lenient q = false).
Abbreviation execute := (http_parser_execute (settings_of rq) HTTP_MAX_HEADER_SIZE q).

Lemma length_called ds :
  pr_state q = s_header_value_discard_ws -> pr_header_state q = h_content_length -> flag_on F_CONTENTLENGTH q = false ->
  ds <> [] -> is_digits ds -> pr_nread q + Z.of_nat (length ds) + 3 <= HTTP_MAX_HEADER_SIZE ->
  exists n q' t, execute (lit " " ++ ds ++ crlf) = (Ok n, q', t) /\
    if digits_value 0 ds <=? length_limit
    then n = length (lit " " ++ ds ++ crlf) /\ pr_errno q' = HPE_OK /\ pr_content_length q' = digits_value 0 ds
    else pr_errno q' = HPE_INVALID_CONTENT_LENGTH.
Proof.
  intros Hst Hhs Hf Hne Hds Hmx. set (data := lit " " ++ ds ++ crlf).
  assert (Hq := reachable_well_typed q Hreach). pose proof (t_nread q Hq) as Hn.
  assert (Hc := entry_conf data q). rewrite Hst in Hc. rewrite (hq_self q Hq) in Hc at 1. rewrite Hhs in Hc.
  destruct (Z.leb_spec (digits_value 0 ds) length_limit) as [Hle|Hgt].
  - destruct ds as [|c ds]; [done|]. pose proof (Forall_inv Hds) as Hc1. destruct (digit_of_range c Hc1) as [Hc0 _].
    destruct (call_ends rq data q (fun q' _ => pr_errno q' = HPE_OK /\ pr_content_length q' = digits_value 0 (c :: ds)) [on_header_value (c :: ds)])
      as (q' & s & n & t & [He Hv] & Hx & _); [done|done|done|by rewrite Hst| |].
    + eapply leads_trans.
      { eapply (run_value rq data q _ _ c ds _ _ _ _ _ (pr_nread q)); [exists c, ds; split; [done|]; split; [revert Hc1; by destruct c|by apply digits_values]
          |by apply length_first|apply digits_walk; [exact Hc0|by apply Forall_inv_tail in Hds|exact Hle]|exact Hok|lia|exact Hmx|].
        rewrite app_nil_r. exact Hc. }
      intros x1 H1. apply leads_now. destruct (line_start_conf _ _ _ _ _ _ _ H1) as (q' & s & [Hv He] & H2).
      exists q', s, (pr_nread q + Z.of_nat (length (c :: ds)) + 3). split; [by rewrite Hv, He|]. split; [by rewrite He|].
      assert (length data = (0 + length (c :: ds) + 3)%nat) as -> by (unfold data; rewrite !length_app; cbn; lia). exact H2.
    + exists (length data), (set_state s (set_nread n q')), t. by split; [exact Hx|].
  - destruct (call_breaks rq data q HPE_INVALID_CONTENT_LENGTH) as (r & q' & t & Hx & He); [done|done|done|by rewrite Hst|done| |by exists r, q', t].
    eapply (run_length_over rq data q _ ds); [exact Hf|exact Hds|exact Hgt| | |exact Hc]; lia.
Qed.

Lemma chunk_called w ds c :
  pr_state q = s_chunk_size_start -> mapM hex_digit w = Some ds -> hex_digit c = None -> Z.of_nat (length w) + 1 <= HTTP_MAX_HEADER_SIZE ->
  exists n q' t, execute (w ++ [c]) = (Ok n, q', t) /\
    if hex_number 0 ds <=? chunk_limit
    then match w, after_size c with
         | _ :: _, Some s => n = S (length w) /\ pr_errno q' = HPE_OK /\ pr_state q' = s /\ pr_content_length q' = hex_number 0 ds
         | _, _ => pr_errno q' = HPE_INVALID_CHUNK_SIZE
         end
    else pr_errno q' = HPE_INVALID_CONTENT_LENGTH.
Proof.
  intros Hst Hw Hcn Hmx. set (data := w ++ [c]).
  assert (Hr : flag_on F_CHUNKED q = true /\ pr_nread q = 0).
  { destruct (reachable_resting q Hreach) as [He|Hr]; [by rewrite Hok in He|]. rewrite Hst in Hr. by destruct Hr as (_ & ? & ?). }
  destruct Hr as [Hf Hn]. assert (Hne : data <> []) by (unfold data; by destruct w).
  assert (Hc := entry_conf data q). rewrite Hst, Hn in Hc.
  assert (Hbreak : forall e, is_error e = true -> HttpRuns.breaks rq data e (entry q) ->
    exists n q' t, execute data = (Ok n, q', t) /\ pr_errno q' = e) by (intros e Hise Hb; apply call_breaks; try done; by rewrite Hst).
  destruct w as [|b w].
  { injection Hw as <-. cbn. apply Hbreak; [done|]. eapply run_chunk_none; [exact Hf|exact Hcn|exact Hc]. }
  apply mapM_cons_Some in Hw as (h & ds' & Hb & Hw & ->) || (cbn [mapM] in Hw; apply bind_Some in Hw as (h & Hb & Hw); apply bind_Some in Hw as (ds' & Hw & [= <-])).
  destruct (hex_digit_some b h Hb) as (_ & Hh & _). cbn [length] in Hmx.
  change (hex_number 0 (h :: ds')) with (hex_number h ds'). unfold data in Hc. cbn [app] in Hc.
  destruct (run_chunk_first rq data q b h 0 _ _ _ Hf Hb Hc) as (x1 & Hr1 & H1).
  pose proof (run_chunk_digits rq data q w ds' h 1 1 c [] [] x1 Hf ltac:(unfold chunk_limit; lia) Hw ltac:(lia) ltac:(lia) H1) as H2.
  destruct (hex_number h ds' <=? chunk_limit).
  2:{ apply Hbreak; [done|]. apply leads_breaks. by exists x1. }
  destruct H2 as (x2 & Hr2 & H2).
  pose proof (run_chunk_end rq data (set_content_length (hex_number h ds') q) c (1 + Z.of_nat (length w)) _ _ _ Hf Hcn ltac:(lia) ltac:(lia) H2) as H3.
  assert (Hx2 : leads rq data (entry q) (fun y => y = x2)).
  { eapply (leads_trans rq data (entry q) (fun y => y = x1)); [by exists x1|]. intros y ->. by exists x2. }
  destruct (after_size c) as [s|].
  - destruct (call_ends rq data q (fun q' s' => q' = set_content_length (hex_number h ds') q /\ s' = s) [])
      as (q' & s' & n & t & [-> ->] & Hx & _); [done|done|done|by rewrite Hst| |].
    + eapply leads_trans; [exact Hx2|]. intros y ->. eapply leads_trans; [exact H3|]. intros y Hy. apply leads_now.
      eexists _, s, _. split; [done|]. split; [done|].
      assert (length data = S (1 + length w)) as -> by (unfold data; rewrite length_app; cbn; lia). exact Hy.
    + exists (length data), (set_state s (set_nread n (set_content_length (hex_number h ds') q))), t. split; [exact Hx|].
      split; [unfold data; rewrite length_app; cbn; lia|done].
  - apply Hbreak; [done|]. apply leads_breaks. eapply leads_trans; [exact Hx2|]. intros y ->. by apply leads_now.
Qed.
End calls.

(** C22: The sizes a message announces are read exactly or refused, and never wrap.  A parser that stands after
    the colon of a content length, the first of its message, and is given a blank, a number and the end of the
    line, has the number as its remaining length when it is at most 18446744073709551609, and otherwise
    the error on lengths; a greater number would be too close to 2^64 - 1, which stands for no length.  A parser at the
    start of the size of a chunk, given digits in base sixteen and a byte that is none, has their number as its remaining
    length when it is at most 18446744073709551599 and the byte is a carriage return, a semicolon or a blank, which also
    say where it goes on; it has the error on the sizes of chunks when there are no digits or another byte ends them,
    and the error on lengths when the number is greater.  The digits are 0 to 9 and A to F in either case, and, as the
    table of the code has nothing past ASCII, every byte from 128 up, which counts as 0.  The parser is any one that
    a program can reach, and the text within the limit on headers. *)
Theorem sizes_exact rq q :
  reachable q -> pr_errno q = HPE_OK -> pr_lenient q = false ->
  (pr_state q = s_header_value_discard_ws -> pr_header_state q = h_content_length -> flag_on F_CONTENTLENGTH q = false ->
   forall ds, ds <> [] -> is_digits ds -> pr_nread q + Z.of_nat (length ds) + 3 <= HTTP_MAX_HEADER_SIZE ->
   exists n q' t, http_parser_execute (settings_of rq) HTTP_MAX_HEADER_SIZE q (lit " " ++ ds ++ crlf) = (Ok n, q', t) /\
     if digits_value 0 ds <=? 18446744073709551609
     then n = length (lit " " ++ ds ++ crlf) /\ pr_errno q' = HPE_OK /\ pr_content_length q' = digits_value 0 ds
     else pr_errno q' = HPE_INVALID_CONTENT_LENGTH) /\
  (pr_state q = s_chunk_size_start ->
   forall w ds c, mapM hex_digit w = Some ds -> hex_digit c = None -> Z.of_nat (length w) + 1 <= HTTP_MAX_HEADER_SIZE ->
   exists n q' t, http_parser_execute (settings_of rq) HTTP_MAX_HEADER_SIZE q (w ++ [c]) = (Ok n, q', t) /\
     if hex_number 0 ds <=? 18446744073709551599
     then match w, after_size c with
          | _ :: _, Some s => n = S (length w) /\ pr_errno q' = HPE_OK /\ pr_state q' = s /\ pr_content_length q' = hex_number 0 ds
          | _, _ => pr_errno q' = HPE_INVALID_CHUNK_SIZE
          end
     else pr_errno q' = HPE_INVALID_CONTENT_LENGTH).
Proof.
  intros Hr Hok Hl. split.
  - intros Hst Hhs Hf ds Hne Hds Hmx. by apply length_called.
  - intros Hst w ds c Hw Hc Hmx. by apply chunk_called.
Qed.

(** ** Witnesses *)

Definition after_head (text : str) : http_parser :=
  snd (fst (http_parser_execute s_request_settings HTTP_MAX_HEADER_SIZE (http_parser_init HTTP_REQUEST) (lit "POST / HTTP/1.1" ++ crlf ++ text))).

Lemma after_head_reachable text : reachable (after_head text).
Proof.
  unfold after_head. destruct (http_parser_execute _ _ _ _) as [[r q] t] eqn:E. cbn.
  eapply reachable_execute; [apply (reachable_init HTTP_REQUEST)|apply passive_request|exact E].
Qed.

Definition before_length : http_parser := after_head (lit "Content-Length:").
Definition before_chunk : http_parser := after_head (lit "Transfer-Encoding: chunked" ++ crlf ++ crlf).

Lemma sizes_exact_witness :
  (exists n q' t, http_parser_execute s_request_settings HTTP_MAX_HEADER_SIZE before_length (lit " " ++ lit "65536" ++ crlf) = (Ok n, q', t) /\
    pr_content_length q' = 65536) /\
  (exists n q' t, http_parser_execute s_request_settings HTTP_MAX_HEADER_SIZE before_length
      (lit " " ++ lit "18446744073709551610" ++ crlf) = (Ok n, q', t) /\ pr_errno q' = HPE_INVALID_CONTENT_LENGTH) /\
  exists n q' t, http_parser_execute s_request_settings HTTP_MAX_HEADER_SIZE before_chunk (lit "fFe" ++ [CR]) = (Ok n, q', t) /\
    pr_content_length q' = 4094 /\ pr_state q' = s_chunk_size_almost_done.
Proof.
  split_and!.
  - destruct (proj1 (sizes_exact true before_length (after_head_reachable _) ltac:(by vm_compute) ltac:(by vm_compute))
      ltac:(by vm_compute) ltac:(by vm_compute) ltac:(by vm_compute) (lit "65536")) as (n & q' & t & Hx & _ & _ & Hv);
      [done|by repeat constructor|vm_compute; congruence|]. exists n, q', t. by split.
  - destruct (proj1 (sizes_exact true before_length (after_head_reachable _) ltac:(by vm_compute) ltac:(by vm_compute))
      ltac:(by vm_compute) ltac:(by vm_compute) ltac:(by vm_compute) (lit "18446744073709551610")) as (n & q' & t & Hx & Hv);
      [done|by repeat constructor|vm_compute; congruence|]. exists n, q', t. by split.
  - destruct (proj2 (sizes_exact true before_chunk (after_head_reachable _) ltac:(by vm_compute) ltac:(by vm_compute))
      ltac:(by vm_compute) (lit "fFe") [15; 15; 14] CR) as (n & q' & t & Hx & _ & _ & Hs & Hv);
      [done|done|vm_compute; congruence|]. exists n, q', t. by split_and!.
Defined.
